(* ===== verification/_CoqProject ===== *)
-Q . S2P
Prelude.v
Hoare.v
ReplBase.v
ARC.v
Bitfield.v
Intmath.v
SatCounter.v
ReplScan.v
LRU.v
MRU.v
LFU.v
RandomRP.v
BIP.v
WeightedLRU.v
FIFO.v
SecondChance.v
BRRIP.v
TreePLRU.v
Double.v
SHiP.v
DuelingMonitor.v
DuelingRP.v
RubyAddress.v
BankedArray.v
ALUFreeList.v
CacheMemory.v
CacheMemoryInv.v
CacheMemoryOps.v
CacheMemoryLoops.v
CacheMemoryProps.v
CacheWeighted.v
Indexing.v
Skewed.v
CacheBlk.v
Partition.v
Tags.v
TagsInv.v
TagsOps.v
TagsInit.v
FALRU.v
FALRUInv.v
FALRUProps.v
AddrRange.v
AddrRangeMap.v
Interleave.v
Bytes.v
MemRequest.v
MemPacket.v
Clocked.v
AbstractMem.v
Serve.v
ClassicCache.v
ClassicOps.v
ClassicTotal.v
ClassicAccess.v
ClassicFunctional.v
ClassicSnoop.v
BaseXBar.v
SnoopFilter.v
CoherentXBar.v
ClassicServe.v
Coupled.v
AtomicRuns.v
AtomicSends.v
SnoopRuns.v
FilterRuns.v
Transparent.v
XBarRuns.v
XBarEvict.v
FunctionalRuns.v
Vacant.v
Serving.v
MemorySystem.v
NoncoherentXBar.v
CoherentSystem.v
CoherentRuns.v
SystemOps.v
ArcClassic.v
