(* ===== verification/Prelude.v ===== *)
(** * gem5 with the ARC replacement policy: a verification development

    The repository adds an Adaptive Replacement Cache policy (ARC) to the gem5
    simulator and connects it to the Ruby cache array.  Its own files are
    [src/arc_rp.hh], [src/arc_rp.cc], [src/CacheMemory.cc] and
    [src/replaceable_entry.hh]; the simulator they are built into is
    [src/spec-2017/gem5_arc/src], to which all other paths below are relative.

    ** The parts of the program and the files that model them

    A cache asks a replacement policy which block leaves a set.  Two kinds of
    caches do: the cache array of the Ruby memory system, and the classic caches
    with their tag stores.  A classic cache takes packets from above, serves
    them from its blocks, and sends packets to the memory below.

    - Foundations.  [Prelude]: outcomes with faults as values, the state and
      outcome monad [M] with its notations, machine integers over [Z], lists.
      [Hoare]: what stateful code keeps.  [Bitfield], [Intmath], [SatCounter]:
      [base/bitfield.hh], [base/intmath.hh], [base/sat_counter.hh].  [Double]:
      binary64.  [Bytes]: buffers.
    - Replacement policies ([mem/cache/replacement_policies]).  [ReplBase]:
      entries, replacement data, the heap they live in, the class
      [ReplacementPolicy] of operations and [ReplacementPolicyLaws] of what the
      caches rely on.  [ARC]: the policy of the repository.  [ReplScan]: the scan
      the simple policies share.  [LRU], [MRU], [LFU], [RandomRP], [BIP],
      [WeightedLRU], [FIFO], [SecondChance], [BRRIP], [SHiP], [TreePLRU],
      [DuelingRP] with [DuelingMonitor] ([mem/cache/tags/dueling.cc]): one file
      per policy; each is an instance of the classes.
    - The Ruby cache array.  [RubyAddress], [BankedArray], [ALUFreeList]:
      [mem/ruby/common/Address.cc], [mem/ruby/structures/BankedArray.cc],
      [ALUFreeListArray.cc].  [CacheMemory]: the state and the operations of
      [src/CacheMemory.cc], over any policy; [CacheMemoryInv],
      [CacheMemoryOps], [CacheMemoryLoops]: its invariant and the effect of each
      operation on the finite map it implements; [CacheMemoryProps]: its
      correctness; [CacheWeighted]: the variant with occupancies.
    - Tag stores of the classic caches ([mem/cache/tags]).  [Indexing],
      [Skewed]: the class [IndexingPolicy], its laws, and the policies.
      [CacheBlk]: blocks.  [Partition]: partitioning.  [Tags]: [BaseTags] and
      [BaseSetAssoc]; [TagsInv], [TagsOps], [TagsInit]: its invariant, and its
      operations on the map from addresses to blocks.  [FALRU], [FALRUInv],
      [FALRUProps]: [fa_lru.cc], the fully associative store, the list of its
      blocks, and what holds of it.
    - Packets and memory.  [AddrRange], [Interleave]: [base/addr_range.hh];
      [AddrRangeMap]: [base/addr_range_map.hh].
      [MemRequest], [MemPacket]: [mem/request.hh], [mem/packet.hh],
      [mem/packet.cc].  [Clocked]: [sim/clocked_object.hh].  [AbstractMem]:
      [mem/abstract_mem.cc] and the atomic port of [mem/simple_mem.cc].
    - Classic caches ([mem/cache/base.cc], [cache.cc], [noncoherent_cache.cc]).
      [ClassicCache]: fills and evictions.  [ClassicAccess]: accesses in atomic
      mode.  [ClassicFunctional]: functional accesses, [memWriteback] and
      [memInvalidate].  [ClassicSnoop]: snoops.  [ClassicOps], [ClassicTotal],
      [ClassicServe]: what they do and that they return.
    - Crossbars between caches and memories, in atomic and functional mode.
      [BaseXBar]: the routing of [mem/xbar.cc].  [NoncoherentXBar]:
      [mem/noncoherent_xbar.cc], over any devices.  [SnoopFilter]:
      [mem/snoop_filter.cc].  [CoherentXBar]: [mem/coherent_xbar.cc].
    - Systems.  [Serve]: what a plain request does to bytes.  [Coupled]: a cache
      and the bytes it stands for.  [AtomicRuns], [AtomicSends]: its accesses,
      over whatever answers what it sends.  [Transparent], [Serving],
      [MemorySystem]: a cache in front of a memory.  [FunctionalRuns],
      [SystemOps]: with functional accesses and write-backs.  [Vacant],
      [ArcClassic]: a classic cache with ARC.  [SnoopRuns], [FilterRuns],
      [XBarRuns], [XBarEvict]: snoops, the snoop filter and the crossbar, run;
      [CoherentSystem], [CoherentRuns]: several caches on a crossbar.

    ** How the model corresponds to the code

    An object is a record of its members; objects that are shared through
    pointers (entries, replacement data) live in the heap [world] of [ReplBase],
    with pointers as keys, so aliasing and dangling pointers are those of the
    code.  A method that changes state is a function in the monad [M]; a failed
    assertion, [panic], [fatal] or undefined behaviour is a [Fault].  Assertions
    are on, as in the [opt] build.  Integers are [Z] with the wrap-around of
    their type written out.  A method of a base class that calls a virtual method
    takes it from a class ([ReplacementPolicy], [IndexingPolicy]) or as an
    argument.  Trace output and statistics that are never read back are left out,
    except where a file says otherwise.

    ** What the theorems show

    - ARC: [reset] refines insertion into an abstract adaptive cache per set;
      [getVictim] returns the least recently used block of the list the target
      selects and records its tag; every reachable state is well formed.  They
      also show where the code departs from the algorithm and from its own
      comments: no operation sets a tag, so after an eviction every insertion
      counts as a ghost hit; [adjustP] can divide by zero; and the ghost lists
      are capped by the number of sets, not by the associativity.
    - Ruby cache array: in every reachable state it is a finite map from lines to
      entries; each operation is the map operation its name says; a miss in a
      full set can always be served; transactions, locks and permissions.  With
      ARC an allocation can stop the simulator.
    - Classic cache: over a memory it answers every sequence of plain requests as
      the memory alone would, and always answers, for every policy that can
      always choose a victim ([ServingPolicy]).  ARC is not one: with it the
      cache stays empty for ever.  Functional accesses, write-backs and flushes
      in between change nothing, and after a write-back the memory agrees.
    - Coherence: several caches on a coherent crossbar, with or without a snoop
      filter, answer every sequence of requests to any of them as the memory
      alone would; a copy that may be written is the only one, and the filter
      knows every copy.
    - Fully associative tags: the blocks are in order of recency and the smaller
      caches tracked with them are prefixes of that order; but no block can be
      inserted, as none has a tag extractor.
    - Crossbars, for ranges that are not interleaved: a range of addresses goes to
      the port whose last announcement covers it or to the default port, whatever
      was announced and looked up before, and announcements that collide with
      each other or with the default range are refused; a non-coherent crossbar
      answers as its devices would, each alone with its own accesses, and stops
      at an access that no device takes.
    - Policies: LRU, FIFO, second chance, BRRIP, Tree-PLRU, SHiP and dueling
      against histories, queues, the clock algorithm, a stepwise ageing loop,
      recency bounds, the trained tables and the policies they choose from.
      Where a policy does not do what its documentation says (invalidation in
      FIFO and second chance, the training of SHiP), the theorem says what it
      does instead, and its comment names the documentation it contradicts.
    - Libraries: round trips, bounds and equivalence with reference definitions
      of bit fields, logarithms, alignment, indexing, interleaving, packets.

    ** Bounds and fuel

    Loops over containers recurse on the container.  The loops that are not
    structural take a measure as fuel: second chance one more turn than there
    are candidates, the ageing of BRRIP the distance to the maximum, the bit
    loops the width of the type, the walks along the blocks of the fully
    associative tags their number; the theorems about them say that they return.
    A snooped cache may send to the crossbar that snoops it, so the crossbar
    takes the depth of that as fuel: one level is enough for plain requests, as
    only cache cleans make a snooped cache send.
    Numbers of sets, ways, blocks and bytes are arbitrary within the types.

    ** Not modelled

    Timing mode, the event queue and what only it drives: miss queues,
    prefetchers, memory controllers, the network.  The coherence protocols of
    Ruby are SLICC sources that the build compiles.  Compressors and the sector
    and compressed tags are not part of any configuration of the repository.
    Processors, devices, instruction sets, SystemC and the Python front end are
    clients of the modelled code, or I/O.  Random numbers, atomic operations of
    the instruction sets and the levels below and above a cache are
    parameters. *)
From stdpp Require Import base gmap list strings.
From Stdlib Require Import ZArith Lia.

#[global] Open Scope Z_scope.

(** ** Outcomes of C++ code

    A call either returns or stops: [panic]/[fatal], a failed [assert], a
    C++ exception, or undefined behaviour the code runs into. *)
Inductive fault :=
| Panic            (* panic(...), panic_if(...) *)
| Fatal            (* fatal(...), fatal_if(...) *)
| AssertFailed     (* assert(...) of an optimised (.opt) build *)
| NullDeref        (* a null pointer is dereferenced *)
| DanglingDeref    (* a pointer to a deleted object is dereferenced *)
| UninitRead       (* an uninitialised member is read *)
| IndexOutOfRange  (* operator[] or at() outside the container *)
| LengthError      (* std::vector::resize above max_size() *)
| DivByZero        (* integer division by zero *)
| SignedOverflow   (* int arithmetic outside the type *)
| BadShift         (* shift by a negative or too large amount *)
| BadFunctionCall  (* an empty std::function is called *)
| OutOfFuel.       (* only by a loop given too little fuel *)

#[global] Instance fault_eq_dec : EqDecision fault.
Proof. solve_decision. Defined.

Inductive outcome (A : Type) :=
| Ok (a : A)
| Fault (f : fault).
Arguments Ok {A} a.
Arguments Fault {A} f.

#[global] Instance outcome_eq_dec {A} `{EqDecision A} : EqDecision (outcome A).
Proof. solve_decision. Defined.

Definition obind {A B} (m : outcome A) (k : A -> outcome B) : outcome B :=
  match m with Ok a => k a | Fault f => Fault f end.

(** A check of the code ([assert], [panic_if], [fatal_if]). *)
Definition ocheck (b : bool) (f : fault) : outcome unit :=
  if b then Ok tt else Fault f.

Definition oget {A} (f : fault) (o : option A) : outcome A :=
  match o with Some a => Ok a | None => Fault f end.

(** ** Stateful code: state passing with outcomes *)
Definition M (S A : Type) : Type := S -> outcome (A * S).

Definition ret {S A} (a : A) : M S A := fun s => Ok (a, s).
Definition bind {S A B} (m : M S A) (k : A -> M S B) : M S B :=
  fun s => match m s with Ok (a, s') => k a s' | Fault f => Fault f end.
Definition throw {S A} (f : fault) : M S A := fun _ => Fault f.
Definition getS {S} : M S S := fun s => Ok (s, s).
Definition putS {S} (s : S) : M S unit := fun _ => Ok (tt, s).
Definition gets {S A} (f : S -> A) : M S A := fun s => Ok (f s, s).
Definition modifyS {S} (f : S -> S) : M S unit := fun s => Ok (tt, f s).
Definition lift {S A} (o : outcome A) : M S A :=
  fun s => match o with Ok a => Ok (a, s) | Fault f => Fault f end.
Definition checkM {S} (b : bool) (f : fault) : M S unit := lift (ocheck b f).

Declare Scope gem5_scope.
Delimit Scope gem5_scope with gem5.
Notation "'let*' x ':=' m 'in' k" := (bind m (fun x => k))
  (at level 10, x pattern, m at level 99, k at level 200) : gem5_scope.
Notation "'do*' m ';;' k" := (bind m (fun _ => k))
  (at level 10, m at level 99, k at level 200) : gem5_scope.
Notation "'let?' x ':=' m 'in' k" := (obind m (fun x => k))
  (at level 10, x pattern, m at level 99, k at level 200) : gem5_scope.
#[global] Open Scope gem5_scope.

(** A range-[for] over a container: the body says whether to go on or to
    leave the loop ([break], or [return] carried in the accumulator). *)
Inductive step (A : Type) := Continue (a : A) | Break (a : A).
Arguments Continue {A} a.
Arguments Break {A} a.

Fixpoint foreach {S A B} (l : list B) (body : A -> B -> M S (step A)) (a : A) : M S A :=
  match l with
  | [] => ret a
  | b :: l' =>
      let* r := body a b in
      match r with
      | Continue a' => foreach l' body a'
      | Break a' => ret a'
      end
  end.

Fixpoint foreach_pure {A B} (l : list B) (f : A -> B -> step A) (a : A) : A :=
  match l with
  | [] => a
  | b :: l' =>
      match f a b with
      | Continue a' => foreach_pure l' f a'
      | Break a' => a'
      end
  end.

(** ** Machine integers

    An integer of [w] bits is a [Z]; the conversions below are the C++ ones. *)
Definition uwrap (w x : Z) : Z := x mod 2 ^ w.
Definition swrap (w x : Z) : Z := (x + 2 ^ (w - 1)) mod 2 ^ w - 2 ^ (w - 1).
Abbreviation u8 := (uwrap 8).
Abbreviation u16 := (uwrap 16).
Abbreviation u32 := (uwrap 32).
Abbreviation u64 := (uwrap 64).
Abbreviation i32 := (swrap 32).
Abbreviation i64 := (swrap 64).

Definition in_i32 (x : Z) : bool := (- 2 ^ 31 <=? x) && (x <? 2 ^ 31).

(** [int] arithmetic: leaving the type is undefined behaviour. *)
Definition int_of (x : Z) : outcome Z :=
  if in_i32 x then Ok x else Fault SignedOverflow.

(** [size_t] division. *)
Definition udiv (a b : Z) : outcome Z :=
  if b =? 0 then Fault DivByZero else Ok (a / b).

(** ** std::vector and std::list *)
Definition vsize {A} (l : list A) : Z := Z.of_nat (length l).

(** [v[i]] where [i] is a [size_t]. *)
Definition vget {A} (l : list A) (i : Z) : outcome A :=
  if i <? 0 then Fault IndexOutOfRange
  else oget IndexOutOfRange (l !! Z.to_nat i).

(** [v[i] = x]. *)
Definition vset {A} (l : list A) (i : Z) (x : A) : outcome (list A) :=
  if (i <? 0) || (vsize l <=? i) then Fault IndexOutOfRange
  else Ok (<[Z.to_nat i := x]> l).

(** [v.resize(n, d)]; a count above [PTRDIFF_MAX] is above [max_size()]. *)
Definition vresize {A} (l : list A) (n : Z) (d : A) : outcome (list A) :=
  if 2 ^ 63 - 1 <? n then Fault LengthError
  else Ok (take (Z.to_nat n) l ++ replicate (Z.to_nat n - length l) d).

(** ** Lemmas on outcomes and stateful code *)
Lemma obind_Ok_inv {A B} (m : outcome A) (k : A -> outcome B) b :
  obind m k = Ok b -> exists a, m = Ok a /\ k a = Ok b.
Proof. destruct m; simpl; [eauto | done]. Qed.

Lemma bind_Ok_inv {S A B} (m : M S A) (k : A -> M S B) s b s' :
  bind m k s = Ok (b, s') -> exists a s1, m s = Ok (a, s1) /\ k a s1 = Ok (b, s').
Proof. unfold bind. destruct (m s) as [[a s1]|f] eqn:E; [eauto | done]. Qed.

Lemma bind_Ok {S A B} (m : M S A) (k : A -> M S B) s a s1 :
  m s = Ok (a, s1) -> bind m k s = k a s1.
Proof. unfold bind. by intros ->. Qed.

Lemma bind_Fault {S A B} (m : M S A) (k : A -> M S B) s f :
  m s = Fault f -> bind m k s = Fault f.
Proof. unfold bind. by intros ->. Qed.

Lemma lift_Ok_inv {S A} (o : outcome A) (s : S) a s' :
  lift o s = Ok (a, s') -> o = Ok a /\ s' = s.
Proof. unfold lift. destruct o; naive_solver. Qed.

Lemma ocheck_Ok_inv b f u : ocheck b f = Ok u -> b = true.
Proof. by destruct b. Qed.

Lemma oget_Ok_inv {A} f (o : option A) a : oget f o = Ok a -> o = Some a.
Proof. destruct o; naive_solver. Qed.

(** Splits a successful run of a composed computation into the runs of its
    parts. *)
Ltac inv_ok H :=
  repeat lazymatch type of H with
  | bind _ _ _ = Ok _ =>
      apply bind_Ok_inv in H;
      let a := fresh "a" in let s := fresh "s" in let H1 := fresh "Hrun" in
      destruct H as (a & s & H1 & H)
  | obind _ _ = Ok _ =>
      apply obind_Ok_inv in H;
      let a := fresh "a" in let H1 := fresh "Hrun" in
      destruct H as (a & H1 & H)
  end.

(** Forward symbolic execution in the goal. *)
Ltac mrun := repeat first [ erewrite bind_Ok by (first [eassumption | reflexivity]) ].

(** ** Loops *)
Lemma foreach_nil {S A B} (body : A -> B -> M S (step A)) a s :
  foreach [] body a s = Ok (a, s).
Proof. done. Qed.

(** A loop whose body only reads runs like the pure loop. *)
Lemma foreach_read {S A B} (l : list B) (body : A -> B -> M S (step A)) f a s :
  (forall a b, b ∈ l -> body a b s = Ok (f a b, s)) ->
  foreach l body a s = Ok (foreach_pure l f a, s).
Proof.
  revert a. induction l as [|b l IH]; intros a Hb; [done|]. simpl.
  rewrite (bind_Ok _ _ _ _ _ (Hb a b ltac:(left))).
  destruct (f a b); [|done]. apply IH. intros; apply Hb. by right.
Qed.

(** A loop that looks for an element. *)
Lemma foreach_find {S B C} (l : list B) (body : option C -> B -> M S (step (option C))) (p : B -> bool)
    (f : B -> C) s :
  (forall a b, b ∈ l -> body a b s = Ok (if p b then Break (Some (f b)) else Continue None, s)) ->
  foreach l body None s = Ok (f <$> List.find p l, s).
Proof.
  intros Hb. induction l as [|b l IH]; [done|]. cbn [foreach List.find].
  rewrite (bind_Ok _ _ _ _ _ (Hb None b ltac:(left))). destruct (p b); [done|].
  apply IH. intros; apply Hb. by right.
Qed.

(** What every iteration preserves, the loop preserves. *)
Lemma foreach_inv {S A B} (I : A -> S -> Prop) (l : list B)
    (body : A -> B -> M S (step A)) a s a' s' :
  (forall a b s r s1, b ∈ l -> I a s -> body a b s = Ok (r, s1) ->
     match r with Continue a1 | Break a1 => I a1 s1 end) ->
  I a s -> foreach l body a s = Ok (a', s') -> I a' s'.
Proof.
  revert a s. induction l as [|b l IH]; intros a s Hb HI Hrun.
  - by injection Hrun as <- <-.
  - simpl in Hrun. apply bind_Ok_inv in Hrun as (r & s1 & H1 & H2).
    pose proof (Hb _ _ _ _ _ ltac:(left) HI H1) as HI1.
    destruct r as [a1|a1].
    + eapply IH; [|exact HI1|exact H2]. intros; eapply Hb; eauto. by right.
    + by injection H2 as <- <-.
Qed.

Lemma foreach_pure_inv {A B} (I : A -> Prop) (l : list B) (f : A -> B -> step A) a :
  (forall a b, b ∈ l -> I a -> match f a b with Continue a1 | Break a1 => I a1 end) ->
  I a -> I (foreach_pure l f a).
Proof.
  revert a. induction l as [|b l IH]; intros a Hb HI; [done|]. simpl.
  pose proof (Hb a b ltac:(left) HI). destruct (f a b); [|done].
  apply IH; [|done]. intros; apply Hb; [by right|done].
Qed.

(** ** Machine integers *)
Lemma uwrap_range w x : 0 <= w -> 0 <= uwrap w x < 2 ^ w.
Proof. intros. apply Z.mod_pos_bound. by apply Z.pow_pos_nonneg. Qed.

Lemma uwrap_small w x : 0 <= x < 2 ^ w -> uwrap w x = x.
Proof. apply Z.mod_small. Qed.

Lemma uwrap_idemp w x : uwrap w (uwrap w x) = uwrap w x.
Proof. unfold uwrap. apply Zmod_mod. Qed.

Lemma swrap_small w x : 0 < w -> - 2 ^ (w - 1) <= x < 2 ^ (w - 1) -> swrap w x = x.
Proof.
  intros Hw Hx. unfold swrap. rewrite Z.mod_small; [lia|].
  replace (2 ^ w) with (2 ^ (w - 1) + 2 ^ (w - 1)); [lia|].
  replace w with (Z.succ (w - 1)) at 3 by lia. rewrite Z.pow_succ_r by lia. lia.
Qed.

Lemma int_of_Ok x : - 2 ^ 31 <= x < 2 ^ 31 -> int_of x = Ok x.
Proof.
  intros Hx. unfold int_of, in_i32.
  replace (- 2 ^ 31 <=? x) with true by lia. by replace (x <? 2 ^ 31) with true by lia.
Qed.

(** ** Vectors *)
Lemma vsize_nonneg {A} (l : list A) : 0 <= vsize l.
Proof. unfold vsize. lia. Qed.

Lemma vget_Ok {A} (l : list A) i x :
  0 <= i -> l !! Z.to_nat i = Some x -> vget l i = Ok x.
Proof. intros Hi Hx. unfold vget. replace (i <? 0) with false by lia. by rewrite Hx. Qed.

Lemma vget_Ok_inv {A} (l : list A) i x :
  vget l i = Ok x -> 0 <= i < vsize l /\ l !! Z.to_nat i = Some x.
Proof.
  unfold vget. destruct (Z.ltb_spec i 0); [done|].
  intros Hx%oget_Ok_inv. split; [|done].
  apply lookup_lt_Some in Hx. unfold vsize. lia.
Qed.

Lemma vset_Ok {A} (l : list A) i x :
  0 <= i < vsize l -> vset l i x = Ok (<[Z.to_nat i := x]> l).
Proof.
  intros Hi. unfold vset. replace (i <? 0) with false by lia.
  by replace (vsize l <=? i) with false by lia.
Qed.

Lemma vset_Ok_inv {A} (l l' : list A) i x :
  vset l i x = Ok l' -> 0 <= i < vsize l /\ l' = <[Z.to_nat i := x]> l.
Proof.
  unfold vset. destruct (Z.ltb_spec i 0); [done|].
  destruct (Z.leb_spec (vsize l) i); naive_solver lia.
Qed.

Lemma vresize_grow {A} (l : list A) n d :
  vsize l <= n < 2 ^ 63 ->
  vresize l n d = Ok (l ++ replicate (Z.to_nat n - length l) d).
Proof.
  unfold vresize, vsize. intros Hn.
  replace (2 ^ 63 - 1 <? n) with false by lia. by rewrite take_ge by lia.
Qed.

Lemma lookup_Z {A} (l : list A) i :
  0 <= i < vsize l -> exists x, l !! Z.to_nat i = Some x.
Proof. intros Hi. apply lookup_lt_is_Some_2. unfold vsize in Hi. lia. Qed.

(** ** Automation *)
Create HintDb gem5.
Create Rewrite HintDb gem5_rw.
#[export] Hint Resolve vsize_nonneg uwrap_range : gem5.
#[export] Hint Rewrite @uwrap_idemp : gem5_rw.

Lemma swrap_range w x : 0 < w -> - 2 ^ (w - 1) <= swrap w x < 2 ^ (w - 1).
Proof.
  intros Hw. unfold swrap.
  assert (2 ^ w = 2 ^ (w - 1) + 2 ^ (w - 1)) as E.
  { replace w with (Z.succ (w - 1)) at 1 by lia. rewrite Z.pow_succ_r by lia. lia. }
  pose proof (Z.mod_pos_bound (x + 2 ^ (w - 1)) (2 ^ w)) as B.
  assert (0 < 2 ^ (w - 1)) by (apply Z.pow_pos_nonneg; lia). lia.
Qed.

Lemma vget_insert {A} (l : list A) i x :
  0 <= i < vsize l -> vget (<[Z.to_nat i := x]> l) i = Ok x.
Proof.
  intros Hi. apply vget_Ok; [lia|]. apply list_lookup_insert_eq. unfold vsize in Hi. lia.
Qed.

Lemma vsize_insert {A} (l : list A) i x : vsize (<[i := x]> l) = vsize l.
Proof. unfold vsize. by rewrite length_insert. Qed.
#[export] Hint Rewrite @vsize_insert : gem5_rw.

Lemma vsize_app {A} (l k : list A) : vsize (l ++ k) = vsize l + vsize k.
Proof. unfold vsize. rewrite length_app. lia. Qed.

Lemma vget_total {A} (l : list A) i : 0 <= i < vsize l -> exists x, vget l i = Ok x.
Proof. intros Hi. destruct (lookup_Z l i Hi) as [x Hx]. exists x. apply vget_Ok; [lia|done]. Qed.

Lemma Forall_vget {A} (Q : A -> Prop) l i x : Forall Q l -> vget l i = Ok x -> Q x.
Proof. intros HQ [_ Hx]%vget_Ok_inv. by eapply Forall_lookup_1. Qed.

(** ** Bits of machine integers *)
Lemma testbit_uwrap w x i :
  0 <= w -> 0 <= i -> Z.testbit (uwrap w x) i = (i <? w) && Z.testbit x i.
Proof.
  intros Hw Hi. unfold uwrap. destruct (Z.ltb_spec i w).
  - rewrite Z.mod_pow2_bits_low by lia. done.
  - rewrite Z.mod_pow2_bits_high by lia. done.
Qed.

Lemma testbit_high w x i : 0 <= x < 2 ^ w -> w <= i -> Z.testbit x i = false.
Proof.
  intros Hx Hi. destruct (Z.ltb_spec w 0).
  { rewrite Z.pow_neg_r in Hx by lia. lia. }
  destruct (Z.eq_dec x 0) as [->|]; [apply Z.bits_0|].
  apply Z.bits_above_log2; [lia|]. assert (Z.log2 x < w); [|lia].
  apply Z.log2_lt_pow2; lia.
Qed.

Lemma land_bound a b w : 0 <= a < 2 ^ w -> 0 <= b -> 0 <= Z.land a b < 2 ^ w.
Proof.
  intros Ha Hb. assert (Z.land a b <= a); [|rewrite Z.land_nonneg; lia].
  apply Z.ldiff_le; [lia|].
  apply Z.bits_inj'. intros i Hi. rewrite Z.ldiff_spec, Z.land_spec, Z.bits_0.
  by destruct (Z.testbit a i), (Z.testbit b i).
Qed.

Lemma lor_bound a b w : 0 <= w -> 0 <= a < 2 ^ w -> 0 <= b < 2 ^ w -> 0 <= Z.lor a b < 2 ^ w.
Proof.
  intros Hw Ha Hb. split; [rewrite Z.lor_nonneg; lia|].
  destruct (Z.eq_dec (Z.lor a b) 0) as [->|]; [by apply Z.pow_pos_nonneg|].
  assert (0 <= Z.lor a b) by (rewrite Z.lor_nonneg; lia).
  apply Z.log2_lt_pow2; [lia|]. rewrite Z.log2_lor by lia.
  destruct (Z.eq_dec a 0) as [->|], (Z.eq_dec b 0) as [->|]; [done|..];
    change (Z.log2 0) with 0; try (rewrite Z.max_r by apply Z.log2_nonneg);
    try (rewrite Z.max_l by apply Z.log2_nonneg).
  - apply Z.log2_lt_pow2; lia.
  - apply Z.log2_lt_pow2; lia.
  - assert (Z.log2 a < w) by (apply Z.log2_lt_pow2; lia).
    assert (Z.log2 b < w) by (apply Z.log2_lt_pow2; lia). lia.
Qed.

Lemma lor_disjoint a b k : 0 <= k -> 0 <= b < 2 ^ k -> Z.lor (a * 2 ^ k) b = a * 2 ^ k + b.
Proof.
  intros Hk Hb. symmetry. rewrite <- Z.lxor_lor, <- Z.add_nocarry_lxor; [done|..];
    apply Z.bits_inj'; intros i Hi; rewrite Z.land_spec, Z.bits_0;
    destruct (Z.ltb_spec i k); try (rewrite Z.mul_pow2_bits_low by lia; done);
    rewrite (testbit_high k b i) by lia; apply andb_false_r.
Qed.

Lemma uwrap_land w x : 0 <= w -> uwrap w x = Z.land x (Z.ones w).
Proof. intros. unfold uwrap. by rewrite Z.land_ones. Qed.

(** Exhaustive checks on a finite range. *)
Definition all_below (n : nat) (f : Z -> bool) : bool :=
  forallb (fun i => f (Z.of_nat i)) (seq 0 n).

Lemma all_below_spec n f x : all_below n f = true -> 0 <= x < Z.of_nat n -> f x = true.
Proof.
  intros H Hx. unfold all_below in H. rewrite forallb_forall in H.
  specialize (H (Z.to_nat x)). rewrite Z2Nat.id in H by lia. apply H, in_seq. lia.
Qed.

(** ** Finite maps read backwards

    The map from the key of a value to the place where the value is. *)
Section IndexBy.
Context {L A K : Type} `{Countable L} `{Countable K} (key : A -> option K).

Definition index_by (m : gmap L A) : gmap K L :=
  map_fold (fun e a acc => match key a with Some k => <[k := e]> acc | None => acc end) ∅ m.

Definition keys_distinct (m : gmap L A) : Prop :=
  forall e e' a a' k, m !! e = Some a -> m !! e' = Some a' -> key a = Some k -> key a' = Some k -> e = e'.

Lemma index_by_Some m k e : keys_distinct m ->
  index_by m !! k = Some e <-> exists a, m !! e = Some a /\ key a = Some k.
Proof.
  intros Hd. unfold index_by.
  apply (map_fold_weak_ind (fun acc m' => m' ⊆ m ->
    acc !! k = Some e <-> exists a, m' !! e = Some a /\ key a = Some k)); [| |done].
  { intros _. rewrite !lookup_empty. naive_solver. }
  intros e' a m' acc Hn IH Hs.
  assert (m' ⊆ m) as Hs' by (etrans; [by apply insert_subseteq|done]). specialize (IH Hs').
  assert (m !! e' = Some a) as He' by (eapply lookup_weaken; [apply lookup_insert_eq|done]).
  destruct (decide (e' = e)) as [->|Hne].
  - rewrite lookup_insert_eq. destruct (key a) as [k'|] eqn:Ek.
    + destruct (decide (k' = k)) as [->|]; [rewrite lookup_insert_eq; naive_solver|].
      rewrite lookup_insert_ne, IH by done. rewrite Hn. naive_solver.
    + rewrite IH, Hn. naive_solver.
  - rewrite lookup_insert_ne by done. destruct (key a) as [k'|] eqn:Ek; [|done].
    destruct (decide (k' = k)) as [->|]; [|by rewrite lookup_insert_ne].
    rewrite lookup_insert_eq. split; [naive_solver|]. intros (b & Hb & Hk). destruct Hne.
    eapply Hd; [exact He'| |exact Ek|exact Hk]. by eapply lookup_weaken.
Qed.

Lemma index_by_None m k : keys_distinct m ->
  index_by m !! k = None <-> forall e a, m !! e = Some a -> key a <> Some k.
Proof.
  intros Hd. rewrite eq_None_not_Some. split.
  - intros Hn e a He Hk. destruct Hn. exists e. apply index_by_Some; eauto.
  - intros Hn [e (a & He & Hk)%index_by_Some]; [|done]. by apply (Hn e a).
Qed.
End IndexBy.
