(* ===== verification/Hoare.v ===== *)
(** What stateful code keeps: [keeps Inv m Q] says that when [m] returns from a
    state with [Inv], it leaves one with [Inv] and returns a value with [Q].
    The rules follow the structure of the code; [keep] applies them. *)
From Stdlib Require Import ZArith Lia Bool.
From stdpp Require Import base list.
From S2P Require Import Prelude.

Definition keeps {S A} (Inv : S -> Prop) (m : M S A) (Q : A -> Prop) : Prop :=
  forall s a s', Inv s -> m s = Ok (a, s') -> Inv s' /\ Q a.

(** Without a claim about the value. *)
Abbreviation keep_all Inv m := (keeps Inv m (fun _ => True)).

Section Rules.
Context {S : Type} (Inv : S -> Prop).

Lemma keeps_ret {A} (a : A) (Q : A -> Prop) : Q a -> keeps Inv (ret a) Q.
Proof. by intros HQ s b s' Hs [= <- <-]. Qed.

Lemma keeps_bind {A B} (m : M S A) (k : A -> M S B) Q1 Q :
  keeps Inv m Q1 -> (forall a, Q1 a -> keeps Inv (k a) Q) -> keeps Inv (bind m k) Q.
Proof.
  intros Hm Hk s b s' Hs (a & s1 & H1 & H2)%bind_Ok_inv. destruct (Hm s a s1 Hs H1) as [Hs1 Ha]. by apply (Hk a Ha s1 b s').
Qed.

Lemma keeps_mono {A} (m : M S A) (Q Q' : A -> Prop) : keeps Inv m Q -> (forall a, Q a -> Q' a) -> keeps Inv m Q'.
Proof. intros Hm HQ s a s' Hs H. destruct (Hm s a s' Hs H). auto. Qed.

Lemma keeps_seq {A B} (m : M S A) (k : A -> M S B) Q : keep_all Inv m -> (forall a, keeps Inv (k a) Q) -> keeps Inv (bind m k) Q.
Proof. intros Hm Hk. by apply (keeps_bind m k (fun _ => True)). Qed.

Lemma keeps_get {B} (k : S -> M S B) Q : (forall s, Inv s -> keeps Inv (k s) Q) -> keeps Inv (bind getS k) Q.
Proof. intros Hk s b s' Hs (a & s1 & [= <- <-] & H2)%bind_Ok_inv. by apply (Hk s Hs s b s'). Qed.

Lemma keeps_gets {A} (f : S -> A) : keep_all Inv (gets f).
Proof. by intros s a s' Hs [= <- <-]. Qed.

Lemma keeps_put s : Inv s -> keep_all Inv (putS s).
Proof. by intros Hs s0 a s' _ [= <- <-]. Qed.

Lemma keeps_modify f : (forall s, Inv s -> Inv (f s)) -> keep_all Inv (modifyS f).
Proof. intros Hf s a s' Hs [= <- <-]. auto. Qed.

Lemma keeps_lift {A} (o : outcome A) : keep_all Inv (lift o).
Proof. by intros s a s' Hs [_ ->]%lift_Ok_inv. Qed.

Lemma keeps_oget {A B} f (o : option A) (k : A -> M S B) Q :
  (forall a, o = Some a -> keeps Inv (k a) Q) -> keeps Inv (bind (lift (oget f o)) k) Q.
Proof. intros Hk s b s' Hs (a & s1 & [Ho ->]%lift_Ok_inv & H)%bind_Ok_inv. apply oget_Ok_inv in Ho. by apply (Hk a Ho s b s'). Qed.

Lemma keeps_if {A} (b : bool) (m1 m2 : M S A) Q : keeps Inv m1 Q -> keeps Inv m2 Q -> keeps Inv (if b then m1 else m2) Q.
Proof. by destruct b. Qed.

Lemma keeps_foreach {A B} (l : list B) (body : A -> B -> M S (step A)) a :
  (forall a b, b ∈ l -> keep_all Inv (body a b)) -> keep_all Inv (foreach l body a).
Proof.
  revert a. induction l as [|b l IH]; intros a Hb; [by apply keeps_ret|]. cbn [foreach].
  apply keeps_seq; [apply Hb; left|]. intros [a'|a']; [|by apply keeps_ret]. apply IH. intros. apply Hb. by right.
Qed.
End Rules.

(** One step along the code. *)
Ltac keep_step :=
  match goal with
  | |- keeps _ (bind getS _) _ => apply keeps_get; let s := fresh "s" in let H := fresh "Hs" in intros s H
  | |- keeps _ (bind (lift (oget _ _)) _) _ => apply keeps_oget; intros ? ?
  | |- keeps _ (bind _ _) _ => eapply keeps_seq; [|intros ?]
  | |- keeps _ (ret _) _ => apply keeps_ret
  | |- keeps _ (lift _) _ => apply keeps_lift
  | |- keeps _ (checkM _ _) _ => apply keeps_lift
  | |- keeps _ (gets _) _ => apply keeps_gets
  | |- keeps _ (putS _) _ => apply keeps_put
  | |- keeps _ (modifyS _) _ => apply keeps_modify; intros ? ?
  | |- keeps _ (if ?b then _ else _) _ => destruct b
  | |- keeps _ (match ?x with _ => _ end) _ => destruct x
  | |- keeps _ (foreach _ _ _) _ => apply keeps_foreach; intros ? ? ?
  end.
Create HintDb keeps.
Ltac keep := repeat first [keep_step | solve [auto with keeps] | progress cbn beta].
