(* ===== verification/ReplBase.v ===== *)
(** * Replaceable entries and the replacement-policy interface

    Models [src/replaceable_entry.hh] and
    [src/spec-2017/gem5_arc/src/mem/cache/replacement_policies/base.hh].

    Entries and replacement data are shared objects: a policy reaches the data
    of a candidate through the entry's [replacementData] pointer, and the data
    points back to its entry.  Both live in stores indexed by [loc]; the type
    [X] holds the members a subclass of [ReplaceableEntry] adds
    ([AbstractCacheEntry], [CacheBlk]), the type [D] those a policy's subclass
    of [ReplacementData] adds, and [P] the members of the policy object. *)
From stdpp Require Import base gmap list.
From Stdlib Require Import ZArith Lia.
From S2P Require Import Prelude.

(** Addresses of objects. *)
Abbreviation loc := positive.

(** A raw pointer member: a C++ constructor that does not mention it leaves
    it indeterminate. *)
Inductive ptr := Uninit | Null | Ptr (l : loc).

#[global] Instance ptr_eq_dec : EqDecision ptr.
Proof. solve_decision. Defined.

Record ReplaceableEntry := mkReplaceableEntry {
  _set : Z;                        (* uint32_t *)
  _way : Z;                        (* uint32_t *)
  replacementData : option loc;    (* std::shared_ptr, null when None *)
}.

Definition new_ReplaceableEntry : ReplaceableEntry :=
  {| _set := 0; _way := 0; replacementData := None |}.

Record ReplacementData (D : Type) := mkReplacementData {
  entry : ptr;
  data : D;
}.
Arguments mkReplacementData {D} _ _.
Arguments entry {D} _.
Arguments data {D} _.

Record object (X : Type) := mkObject { base : ReplaceableEntry; ext : X }.
Arguments mkObject {X} _ _.
Arguments base {X} _.
Arguments ext {X} _.

#[global] Instance ReplaceableEntry_eq_dec : EqDecision ReplaceableEntry.
Proof. solve_decision. Defined.
#[global] Instance ReplacementData_eq_dec {D} `{EqDecision D} : EqDecision (ReplacementData D).
Proof. solve_decision. Defined.
#[global] Instance object_eq_dec {X} `{EqDecision X} : EqDecision (object X).
Proof. solve_decision. Defined.

(** The policy object, the two stores and the simulator's clock. *)
Record world (P D X : Type) := mkWorld {
  policy : P;
  entries : gmap loc (object X);
  rds : gmap loc (ReplacementData D);
  curTick : Z;                     (* Tick, uint64_t *)
}.
Arguments mkWorld {P D X} _ _ _ _.
Arguments policy {P D X} _.
Arguments entries {P D X} _.
Arguments rds {P D X} _.
Arguments curTick {P D X} _.

Definition set_policy {P D X} (p : P) (w : world P D X) : world P D X :=
  mkWorld p (entries w) (rds w) (curTick w).
Definition set_entries {P D X} (e : gmap loc (object X)) (w : world P D X) : world P D X :=
  mkWorld (policy w) e (rds w) (curTick w).
Definition set_rds {P D X} (r : gmap loc (ReplacementData D)) (w : world P D X) : world P D X :=
  mkWorld (policy w) (entries w) r (curTick w).

Section Access.
Context {P D X : Type}.
#[local] Abbreviation W := (world P D X).

(** [*e] *)
Definition deref_entry (e : loc) : M W (object X) :=
  let* w := getS in lift (oget DanglingDeref (entries w !! e)).

Definition write_entry (e : loc) (o : object X) : M W unit :=
  modifyS (fun w => set_entries (<[e := o]> (entries w)) w).

(** [*rd] *)
Definition deref_rd (r : loc) : M W (ReplacementData D) :=
  let* w := getS in lift (oget DanglingDeref (rds w !! r)).

Definition write_rd (r : loc) (rd : ReplacementData D) : M W unit :=
  modifyS (fun w => set_rds (<[r := rd]> (rds w)) w).

(** [ReplaceableEntry::getSet], [getWay]. *)
Definition getSet (e : loc) : M W Z := let* o := deref_entry e in ret (_set (base o)).
Definition getWay (e : loc) : M W Z := let* o := deref_entry e in ret (_way (base o)).

(** The pointer [e->replacementData], to be dereferenced. *)
Definition rd_ptr (e : loc) : M W loc :=
  let* o := deref_entry e in lift (oget NullDeref (replacementData (base o))).

(** [std::static_pointer_cast<...ReplData>(rd)] and its members. *)
Definition get_data (r : loc) : M W D := let* rd := deref_rd r in ret (data rd).

Definition put_data (r : loc) (d : D) : M W unit :=
  let* rd := deref_rd r in write_rd r (mkReplacementData (entry rd) d).

(** The data of a candidate: [e->replacementData] cast and read. *)
Definition cand_get (e : loc) : M W D := let* r := rd_ptr e in get_data r.

(** [ReplaceableEntry::setPosition]. *)
Definition setPosition (e : loc) (set way : Z) : M W unit :=
  let* o := deref_entry e in
  do* write_entry e (mkObject (mkReplaceableEntry set way (replacementData (base o))) (ext o)) ;;
  match replacementData (base o) with
  | Some r =>
      let* rd := deref_rd r in
      write_rd r (mkReplacementData (Ptr e) (data rd))
  | None => ret tt
  end.

(** [std::make_shared] of replacement data: a new object whose base member
    [entry] is not initialised. *)
Definition alloc_rd (d : D) : M W loc :=
  let* w := getS in
  let r := fresh (dom (rds w)) in
  do* write_rd r (mkReplacementData Uninit d) ;; ret r.

(** [entry->replacementData = r]. *)
Definition set_replacementData (e r : loc) : M W unit :=
  let* o := deref_entry e in
  write_entry e (mkObject (mkReplaceableEntry (_set (base o)) (_way (base o)) (Some r)) (ext o)).

(** ** The same reads, seen from outside *)

(** The data object a candidate points to. *)
Definition cand_rd (w : W) (e : loc) : option loc :=
  o ← entries w !! e; replacementData (base o).
Definition cand_data (w : W) (e : loc) : option D :=
  r ← cand_rd w e; data <$> rds w !! r.

(** The candidates point to live data, listed in order. *)
Definition cands_data (w : W) (cands : list loc) (ds : list D) : Prop :=
  Forall2 (fun e d => cand_data w e = Some d) cands ds.

(** ** What a policy call may change

    Its own members and the data of the objects; entries, positions, the
    back pointers and the clock stay. *)
Definition frame (w w' : W) : Prop :=
  entries w' = entries w /\
  (entry <$> rds w') = (entry <$> rds w) /\
  curTick w' = curTick w.

End Access.

(** ** The interface [replacement_policy::Base] *)
Class ReplacementPolicy (P D : Type) := {
  rp_instantiateEntry : P -> outcome (D * P);
  rp_invalidate : forall X, loc -> M (world P D X) unit;
  rp_touch : forall X, loc -> M (world P D X) unit;
  rp_reset : forall X, loc -> M (world P D X) unit;
  rp_getVictim : forall X, list loc -> M (world P D X) (option loc);
}.
Arguments rp_invalidate {P D _ X} _ _.
Arguments rp_touch {P D _ X} _ _.
Arguments rp_reset {P D _ X} _ _.
Arguments rp_getVictim {P D _ X} _ _.

(** The defaults of [Base]: the variants that take the packet ignore it. *)
Definition touch_pkt {P D X Pkt} `{ReplacementPolicy P D} (r : loc) (pkt : Pkt) :
  M (world P D X) unit := rp_touch r.
Definition reset_pkt {P D X Pkt} `{ReplacementPolicy P D} (r : loc) (pkt : Pkt) :
  M (world P D X) unit := rp_reset r.

(** The data members, without the back pointers. *)
Definition rp_data {P D X} (w : world P D X) : gmap loc D := data <$> rds w.

(** The caches of this program have at most [2^29] sets. *)
Definition max_sets : Z := 2 ^ 29.
Definition sets_bounded {P D X} (w : world P D X) : Prop :=
  map_Forall (fun _ o => 0 <= _set (base o) < max_sets) (entries w).

(** The three operations that update the data of one entry. *)
Inductive rp_update {P D X} `{ReplacementPolicy P D} (r : loc) (w w' : world P D X) : Prop :=
| upd_touch : rp_touch r w = Ok (tt, w') -> rp_update r w w'
| upd_reset : rp_reset r w = Ok (tt, w') -> rp_update r w w'
| upd_invalidate : rp_invalidate r w = Ok (tt, w') -> rp_update r w w'.

(** What every policy promises its caller.  [rp_live] holds of the data of an
    entry between its [reset] and its [invalidate]; [rp_inv] is the policy's
    own invariant. *)
Class ReplacementPolicyLaws (P D : Type) `{ReplacementPolicy P D} := {
  rp_live : D -> bool;
  rp_inv : P -> gmap loc D -> Prop;
  rp_frame : forall X (w w' : world P D X) r,
    rp_update r w w' ->
    frame w w' /\ (forall r', r' <> r -> rds w' !! r' = rds w !! r');
  rp_inv_pres : forall X (w w' : world P D X) r,
    sets_bounded w -> rp_inv (policy w) (rp_data w) -> rp_update r w w' ->
    rp_inv (policy w') (rp_data w');
  rp_reset_live : forall X (w w' : world P D X) r,
    rp_reset r w = Ok (tt, w') ->
    exists d, rp_data w' !! r = Some d /\ rp_live d = true;
  rp_touch_live : forall X (w w' : world P D X) r d,
    rp_touch r w = Ok (tt, w') -> rp_data w !! r = Some d -> rp_live d = true ->
    exists d', rp_data w' !! r = Some d' /\ rp_live d' = true;
  rp_touch_total : forall X (w : world P D X) r,
    is_Some (rds w !! r) -> exists w', rp_touch r w = Ok (tt, w');
  rp_invalidate_total : forall X (w : world P D X) r,
    is_Some (rds w !! r) -> exists w', rp_invalidate r w = Ok (tt, w');
  rp_victim_frame : forall X (w w' : world P D X) cands v,
    rp_getVictim cands w = Ok (v, w') ->
    frame w w' /\ (forall e, v = Some e -> e ∈ cands) /\
    (forall r d, rp_data w !! r = Some d -> rp_live d = true ->
       exists d', rp_data w' !! r = Some d' /\ rp_live d' = true);
  rp_victim_some : forall X (w : world P D X) cands ds,
    sets_bounded w -> rp_inv (policy w) (rp_data w) ->
    cands <> [] -> cands_data w cands ds -> Forall (fun d => rp_live d = true) ds ->
    exists e w', rp_getVictim cands w = Ok (Some e, w') /\ rp_inv (policy w') (rp_data w');
  rp_victim_ok : forall X (w : world P D X) cands ds,
    sets_bounded w -> rp_inv (policy w) (rp_data w) -> cands <> [] -> cands_data w cands ds ->
    exists v w', rp_getVictim cands w = Ok (v, w') /\ rp_inv (policy w') (rp_data w');
  rp_instantiate_inv : forall p p' m d r,
    rp_inv p m -> rp_instantiateEntry p = Ok (d, p') -> m !! r = None -> rp_inv p' (<[r := d]> m);
}.

Section AccessLemmas.
Context {P D X : Type}.
Implicit Types w : world P D X.

Lemma deref_entry_Ok w e o : entries w !! e = Some o -> deref_entry e w = Ok (o, w).
Proof. intros H. unfold deref_entry, bind, getS, lift. by rewrite H. Qed.

Lemma deref_entry_Ok_inv w w' e o :
  deref_entry e w = Ok (o, w') -> entries w !! e = Some o /\ w' = w.
Proof.
  unfold deref_entry, bind, getS, lift. destruct (entries w !! e); naive_solver.
Qed.

Lemma getSet_Ok w e o : entries w !! e = Some o -> getSet e w = Ok (_set (base o), w).
Proof. intros H. unfold getSet. by rewrite (bind_Ok _ _ _ _ _ (deref_entry_Ok _ _ _ H)). Qed.

Lemma deref_rd_Ok w r rd : rds w !! r = Some rd -> deref_rd r w = Ok (rd, w).
Proof. intros H. unfold deref_rd, bind, getS, lift. by rewrite H. Qed.

Lemma deref_rd_Ok_inv w w' r rd :
  deref_rd r w = Ok (rd, w') -> rds w !! r = Some rd /\ w' = w.
Proof. unfold deref_rd, bind, getS, lift. destruct (rds w !! r); naive_solver. Qed.

Lemma get_data_Ok w r rd : rds w !! r = Some rd -> get_data r w = Ok (data rd, w).
Proof. intros H. unfold get_data. by rewrite (bind_Ok _ _ _ _ _ (deref_rd_Ok _ _ _ H)). Qed.

Lemma get_data_Ok_inv w w' r d :
  get_data r w = Ok (d, w') -> exists rd, rds w !! r = Some rd /\ data rd = d /\ w' = w.
Proof.
  unfold get_data. intros H. inv_ok H. apply deref_rd_Ok_inv in Hrun as [? ->].
  injection H as <- <-. eauto.
Qed.

Lemma put_data_Ok w r rd d :
  rds w !! r = Some rd ->
  put_data r d w = Ok (tt, set_rds (<[r := mkReplacementData (entry rd) d]> (rds w)) w).
Proof. intros H. unfold put_data. by rewrite (bind_Ok _ _ _ _ _ (deref_rd_Ok _ _ _ H)). Qed.

Lemma put_data_Ok_inv w w' r d u :
  put_data r d w = Ok (u, w') ->
  exists rd, rds w !! r = Some rd /\
    w' = set_rds (<[r := mkReplacementData (entry rd) d]> (rds w)) w.
Proof.
  unfold put_data. intros H. inv_ok H. apply deref_rd_Ok_inv in Hrun as [? ->].
  injection H as <- <-. eauto.
Qed.

Lemma cand_data_Some w e d :
  cand_data w e = Some d <->
  exists o r rd, entries w !! e = Some o /\ replacementData (base o) = Some r /\
    rds w !! r = Some rd /\ data rd = d.
Proof.
  unfold cand_data, cand_rd.
  destruct (entries w !! e) as [o|]; simpl; [|naive_solver].
  destruct (replacementData (base o)) as [r|] eqn:?; simpl; [|naive_solver].
  destruct (rds w !! r) as [rd|] eqn:?; simpl; naive_solver.
Qed.

Lemma cand_get_Ok w e d : cand_data w e = Some d -> cand_get e w = Ok (d, w).
Proof.
  intros (o & r & rd & He & Hr & Hrd & <-)%cand_data_Some.
  unfold cand_get, rd_ptr, bind. rewrite (deref_entry_Ok _ _ _ He). simpl.
  rewrite Hr. simpl. by apply get_data_Ok.
Qed.

Lemma cand_get_Ok_inv w w' e d :
  cand_get e w = Ok (d, w') -> cand_data w e = Some d /\ w' = w.
Proof.
  unfold cand_get, rd_ptr. intros H. inv_ok H. inv_ok Hrun.
  apply deref_entry_Ok_inv in Hrun0 as [He ->].
  apply lift_Ok_inv in Hrun as [Hr%oget_Ok_inv ->].
  apply get_data_Ok_inv in H as (rd & Hrd & <- & ->).
  split; [|done]. apply cand_data_Some. eauto 10.
Qed.

Lemma cands_data_elem w cands ds e :
  cands_data w cands ds -> e ∈ cands -> exists d, d ∈ ds /\ cand_data w e = Some d.
Proof.
  intros H He. induction H as [|e' d cands ds Hd _ IH]; [by apply not_elem_of_nil in He|].
  apply elem_of_cons in He as [->|He]; [exists d; split; [left|done]|].
  destruct (IH He) as (d' & ? & ?). exists d'. split; [by right|done].
Qed.

Lemma rp_data_lookup w r rd : rds w !! r = Some rd -> rp_data w !! r = Some (data rd).
Proof. intros H. unfold rp_data. by rewrite lookup_fmap, H. Qed.

(** ** [frame] is a preorder *)
#[global] Instance frame_preorder : PreOrder (@frame P D X).
Proof.
  split; [done|]. intros w1 w2 w3 (?&?&?) (?&?&?). unfold frame. naive_solver congruence.
Qed.

Lemma frame_set_policy w p : frame w (set_policy p w).
Proof. done. Qed.

Lemma frame_put w r rd d :
  rds w !! r = Some rd ->
  frame w (set_rds (<[r := mkReplacementData (entry rd) d]> (rds w)) w).
Proof.
  intros H. split; [done|]. split; [|done]. simpl.
  rewrite fmap_insert. simpl. apply insert_id. by rewrite lookup_fmap, H.
Qed.

Lemma put_data_frame w w' r d u :
  put_data r d w = Ok (u, w') ->
  frame w w' /\ (forall r', r' <> r -> rds w' !! r' = rds w !! r').
Proof.
  intros (rd & Hrd & ->)%put_data_Ok_inv. split; [by apply frame_put|].
  intros r' Hne. simpl. by rewrite lookup_insert_ne.
Qed.

End AccessLemmas.

#[export] Hint Resolve deref_entry_Ok getSet_Ok deref_rd_Ok get_data_Ok put_data_Ok
  cand_get_Ok frame_set_policy frame_put : gem5.
