(* ===== verification/ARC.v ===== *)
(** * The Adaptive Replacement Cache policy

    Models [src/arc_rp.hh] and [src/arc_rp.cc] (the copies under
    [src/spec-2017/gem5_arc/src/mem/cache/replacement_policies/] differ in
    comments only): the per-set targets and ghost lists, the five operations of
    the policy and their three helpers. *)
From stdpp Require Import base gmap list.
From Stdlib Require Import ZArith Lia.
From S2P Require Import Prelude.
From S2P Require Import ReplBase.

(** ** Data *)
Record ARCReplData := mkARCReplData {
  lastTouchTick : Z;   (* Tick *)
  listId : Z;          (* int: 1 = T1 (new), 2 = T2 (frequent) *)
  valid : bool;
  tag : Z;             (* Addr *)
}.

#[global] Instance ARCReplData_eq_dec : EqDecision ARCReplData.
Proof. solve_decision. Defined.

Definition new_ARCReplData : ARCReplData := mkARCReplData 0 1 false 0.

Record ARC := mkARC {
  targetP : list Z;            (* std::vector<int> *)
  ghostB1 : list (list Z);     (* std::vector<std::list<Addr>> *)
  ghostB2 : list (list Z);
}.

#[global] Instance ARC_eq_dec : EqDecision ARC.
Proof. solve_decision. Defined.

(** [ARC::ARC]: the per-set structures are sized when sets are first used. *)
Definition new_ARC : ARC := mkARC [] [] [].

Definition with_valid (b : bool) (d : ARCReplData) : ARCReplData :=
  mkARCReplData (lastTouchTick d) (listId d) b (tag d).
Definition with_listId (i : Z) (d : ARCReplData) : ARCReplData :=
  mkARCReplData (lastTouchTick d) i (valid d) (tag d).
Definition with_lastTouchTick (t : Z) (d : ARCReplData) : ARCReplData :=
  mkARCReplData t (listId d) (valid d) (tag d).

(** ** Helpers on the per-set structures

    [set] is an [int]; as an index it is converted to [size_t]. *)
Definition ensureSet (p : ARC) (set : Z) : outcome ARC :=
  if vsize (ghostB1 p) <=? u64 set then
    let? n := int_of (set + 1) in
    let? b1 := vresize (ghostB1 p) (u64 n) [] in
    let? b2 := vresize (ghostB2 p) (u64 n) [] in
    let? tp := vresize (targetP p) (u64 n) 0 in
    Ok (mkARC tp b1 b2)
  else Ok p.

Definition ghosts (p : ARC) (isB1 : bool) : list (list Z) :=
  if isB1 then ghostB1 p else ghostB2 p.

Definition put_ghost (p : ARC) (set : Z) (isB1 : bool) (g : list Z) : outcome ARC :=
  let? gs := vset (ghosts p isB1) (u64 set) g in
  Ok (if isB1 then mkARC (targetP p) gs (ghostB2 p) else mkARC (targetP p) (ghostB1 p) gs).

(** [std::find] and [erase]: the first occurrence goes. *)
Fixpoint erase_first (t : Z) (l : list Z) : option (list Z) :=
  match l with
  | [] => None
  | x :: l' => if x =? t then Some l' else cons x <$> erase_first t l'
  end.

Definition removeFromGhost (p : ARC) (set : Z) (isB1 : bool) (t : Z) : outcome (bool * ARC) :=
  let? ghostList := vget (ghosts p isB1) (u64 set) in
  match erase_first t ghostList with
  | Some l => let? p' := put_ghost p set isB1 l in Ok (true, p')
  | None => Ok (false, p)
  end.

Definition addToGhost (p : ARC) (set : Z) (isB1 : bool) (t : Z) : outcome ARC :=
  let? ghostList := vget (ghosts p isB1) (u64 set) in
  let l := ghostList ++ [t] in
  put_ghost p set isB1 (if vsize (ghostB1 p) <? vsize l then tail l else l).

Definition adjustP (p : ARC) (set : Z) (hitInB1 : bool) : outcome ARC :=
  let? b1 := vget (ghostB1 p) (u64 set) in
  let? b2 := vget (ghostB2 p) (u64 set) in
  let b1Size := vsize b1 in
  let b2Size := vsize b2 in
  if hitInB1 then
    let? delta :=
      if b2Size <=? b1Size then Ok 1 else udiv (u64 (b2Size + b1Size - 1)) b1Size in
    let? tp := vget (targetP p) (u64 set) in
    let? sum := int_of (tp + i32 delta) in
    let? tps := vset (targetP p) (u64 set) (Z.min sum (i32 (b1Size + b2Size))) in
    Ok (mkARC tps (ghostB1 p) (ghostB2 p))
  else
    let? delta :=
      if b1Size <=? b2Size then Ok 1 else udiv (u64 (b1Size + b2Size - 1)) b2Size in
    let? tp := vget (targetP p) (u64 set) in
    let? diff := int_of (tp - i32 delta) in
    let? tps := vset (targetP p) (u64 set) (Z.max diff 0) in
    Ok (mkARC tps (ghostB1 p) (ghostB2 p)).

(** ** The operations of the policy *)
Definition instantiateEntry (p : ARC) : outcome (ARCReplData * ARC) :=
  Ok (new_ARCReplData, p).

Section Ops.
Context {X : Type}.
#[local] Abbreviation W := (world ARC ARCReplData X).

(** Runs a helper on the policy object. *)
Definition on_policy {A} (f : ARC -> outcome (A * ARC)) : M W A :=
  let* w := getS in
  let* r := lift (f (policy w)) in
  do* putS (set_policy r.2 w) ;; ret r.1.

Definition on_policy_ (f : ARC -> outcome ARC) : M W unit :=
  on_policy (fun p => let? p' := f p in Ok (tt, p')).

Definition invalidate (r : loc) : M W unit :=
  let* d := get_data r in put_data r (with_valid false d).

Definition touch (r : loc) : M W unit :=
  let* d := get_data r in
  let* now := gets curTick in
  let d1 := with_lastTouchTick now d in
  put_data r (if listId d1 =? 1 then with_listId 2 d1 else d1).

Definition reset (r : loc) : M W unit :=
  let* d0 := get_data r in
  let* now := gets curTick in
  let d := with_valid true (with_lastTouchTick now d0) in
  do* put_data r d ;;
  let* rd := deref_rd r in
  match entry rd with
  | Uninit => throw UninitRead
  | Null => throw Panic
  | Ptr e =>
      let* s := getSet e in
      let set := i32 s in
      do* on_policy_ (fun p => ensureSet p set) ;;
      let* hit1 := on_policy (fun p => removeFromGhost p set true (tag d)) in
      if hit1 : bool then
        do* on_policy_ (fun p => adjustP p set true) ;;
        put_data r (with_listId 2 d)
      else
        let* hit2 := on_policy (fun p => removeFromGhost p set false (tag d)) in
        if hit2 : bool then
          do* on_policy_ (fun p => adjustP p set false) ;;
          put_data r (with_listId 2 d)
        else put_data r (with_listId 1 d)
  end.

(** The loops of [getVictim]. *)
Definition count_body (c : Z * Z) (e : loc) : M W (step (Z * Z)) :=
  let* d := cand_get e in
  ret (Continue
    (if valid d then
       if listId d =? 1 then (c.1 + 1, c.2) else (c.1, c.2 + 1)
     else c)).

Definition lru_body (evictFromT1 : bool) (acc : option loc * Z) (e : loc) :
    M W (step (option loc * Z)) :=
  let* d := cand_get e in
  ret (Continue
    (if valid d && ((evictFromT1 && (listId d =? 1)) || (negb evictFromT1 && (listId d =? 2)))
     then if lastTouchTick d <? acc.2 then (Some e, lastTouchTick d) else acc
     else acc)).

Definition fallback_body (v : option loc) (e : loc) : M W (step (option loc)) :=
  let* d := cand_get e in
  ret (if valid d then Break (Some e) else Continue v).

(** The counts [t1Count] and [t2Count] are bounded by the number of candidates, far
    below the range of [int]. *)
Definition getVictim (candidates : list loc) : M W (option loc) :=
  match candidates with
  | [] => ret None
  | first_blk :: _ =>
      let* s := getSet first_blk in
      let set := i32 s in
      do* on_policy_ (fun p => ensureSet p set) ;;
      let* counts := foreach candidates count_body (0, 0) in
      let* w := getS in
      let* tp := lift (vget (targetP (policy w)) (u64 set)) in
      let evictFromT1 := (tp <? counts.1) || (counts.2 =? 0) in
      let* acc := foreach candidates (lru_body evictFromT1) (None, curTick w) in
      let* victim :=
        match acc.1 with
        | Some v => ret (Some v)
        | None => foreach candidates fallback_body None
        end in
      match victim with
      | Some v =>
          let* d := cand_get v in
          do* on_policy_ (fun p => addToGhost p set (listId d =? 1) (tag d)) ;;
          ret (Some v)
      | None => ret None
      end
  end.

End Ops.

#[global] Instance ARC_policy : ReplacementPolicy ARC ARCReplData := {|
  rp_instantiateEntry := instantiateEntry;
  rp_invalidate X := invalidate (X := X);
  rp_touch X := touch (X := X);
  rp_reset X := reset (X := X);
  rp_getVictim X := getVictim (X := X);
|}.

(** ** The invariant *)
Definition nsets (p : ARC) : Z := vsize (ghostB1 p).

(** The three vectors have one element per set seen so far; a ghost list
    never outgrows the number of sets, and a target never the two ghost
    lists at their longest. *)
Record arc_wf (p : ARC) : Prop := {
  wf_sets : nsets p <= max_sets;
  wf_b2 : vsize (ghostB2 p) = nsets p;
  wf_tp : vsize (targetP p) = nsets p;
  wf_ghost1 : Forall (fun g => vsize g <= nsets p) (ghostB1 p);
  wf_ghost2 : Forall (fun g => vsize g <= nsets p) (ghostB2 p);
  wf_target : Forall (fun t => 0 <= t <= 2 * nsets p) (targetP p);
}.

Definition list_ok (d : ARCReplData) : Prop := listId d = 1 \/ listId d = 2.

Definition arc_inv (p : ARC) (m : gmap loc ARCReplData) : Prop :=
  arc_wf p /\ map_Forall (fun _ d => list_ok d) m.

(** ** Helpers preserve it *)
Lemma u64_index set : 0 <= set < max_sets -> u64 set = set.
Proof. unfold max_sets. intros. apply uwrap_small. lia. Qed.

Lemma i32_index s : 0 <= s < max_sets -> i32 s = s.
Proof. unfold max_sets. intros. apply swrap_small; lia. Qed.

(** The vectors after [ensureSet]: unchanged sets, then fresh ones. *)
Lemma ensureSet_spec p set :
  arc_wf p -> 0 <= set < max_sets ->
  exists k, ensureSet p set =
    Ok (mkARC (targetP p ++ replicate k 0) (ghostB1 p ++ replicate k [])
              (ghostB2 p ++ replicate k [])) /\
    vsize (ghostB1 p) + Z.of_nat k = Z.max (nsets p) (set + 1).
Proof.
  intros Hwf Hset. pose proof (u64_index _ Hset) as E. destruct Hwf. unfold max_sets, nsets in *.
  unfold ensureSet. rewrite E. destruct (Z.leb_spec (vsize (ghostB1 p)) set).
  - rewrite int_of_Ok by lia. simpl.
    assert (u64 (set + 1) = set + 1) as -> by (apply uwrap_small; lia).
    rewrite !vresize_grow by lia. simpl.
    exists (Z.to_nat (set + 1) - length (ghostB1 p))%nat. unfold vsize in *. split; [|lia].
    do 3 f_equal; f_equal; f_equal; lia.
  - exists 0%nat. simpl. rewrite !app_nil_r. destruct p; split; [done|simpl in *; lia].
Qed.

Lemma arc_wf_grow p k :
  arc_wf p -> nsets p + Z.of_nat k <= max_sets ->
  arc_wf (mkARC (targetP p ++ replicate k 0) (ghostB1 p ++ replicate k [])
                (ghostB2 p ++ replicate k [])).
Proof.
  intros [] Hk. unfold nsets in *.
  assert (forall A (x : A), vsize (replicate k x) = Z.of_nat k) as R
    by (intros; unfold vsize; by rewrite length_replicate).
  constructor; unfold nsets; simpl; rewrite ?vsize_app, ?R; try lia;
    apply Forall_app; split; try (apply Forall_replicate; unfold vsize; simpl; lia);
    eapply Forall_impl; eauto; simpl; lia.
Qed.

Lemma ensureSet_wf p set :
  arc_wf p -> 0 <= set < max_sets ->
  exists p', ensureSet p set = Ok p' /\ arc_wf p' /\ set < nsets p'.
Proof.
  intros Hwf Hset. destruct (ensureSet_spec p set Hwf Hset) as (k & -> & Hk).
  assert (nsets p <= max_sets) by by destruct Hwf.
  eexists; split; [done|]. split.
  - apply arc_wf_grow; [done|]. unfold nsets in *. lia.
  - unfold nsets in *. simpl. rewrite vsize_app. unfold vsize at 2.
    rewrite length_replicate. lia.
Qed.

(** The ghost list and the target of a set. *)
Definition ghost_at (p : ARC) (isB1 : bool) (set : Z) : list Z :=
  default [] (ghosts p isB1 !! Z.to_nat set).
Definition target_at (p : ARC) (set : Z) : Z := default 0 (targetP p !! Z.to_nat set).

Definition upd_ghost (p : ARC) (set : Z) (isB1 : bool) (g : list Z) : ARC :=
  if isB1 then mkARC (targetP p) (<[Z.to_nat set := g]> (ghostB1 p)) (ghostB2 p)
  else mkARC (targetP p) (ghostB1 p) (<[Z.to_nat set := g]> (ghostB2 p)).
Definition upd_target (p : ARC) (set t : Z) : ARC :=
  mkARC (<[Z.to_nat set := t]> (targetP p)) (ghostB1 p) (ghostB2 p).

Section Helpers.
Context (p : ARC) (set : Z).
Hypothesis Hwf : arc_wf p.
Hypothesis Hset : 0 <= set < nsets p.

#[local] Lemma set_small : 0 <= set < max_sets.
Proof. destruct Hwf. lia. Qed.

Lemma vsize_ghosts isB1 : vsize (ghosts p isB1) = nsets p.
Proof. destruct Hwf, isB1; done. Qed.

Lemma vget_ghosts isB1 : vget (ghosts p isB1) (u64 set) = Ok (ghost_at p isB1 set).
Proof.
  rewrite u64_index by apply set_small. unfold ghost_at.
  destruct (lookup_Z (ghosts p isB1) set) as [g Hg]; [by rewrite vsize_ghosts|].
  rewrite Hg. apply vget_Ok; [lia|done].
Qed.

Lemma vget_target : vget (targetP p) (u64 set) = Ok (target_at p set).
Proof.
  rewrite u64_index by apply set_small. unfold target_at.
  destruct (lookup_Z (targetP p) set) as [t Ht]; [destruct Hwf; lia|].
  rewrite Ht. apply vget_Ok; [lia|done].
Qed.

Lemma ghost_at_bound isB1 : vsize (ghost_at p isB1 set) <= nsets p.
Proof.
  pose proof (vget_ghosts isB1) as H.
  destruct isB1;
    [exact (Forall_vget _ _ _ _ (wf_ghost1 p Hwf) H)|exact (Forall_vget _ _ _ _ (wf_ghost2 p Hwf) H)].
Qed.

Lemma target_at_bound : 0 <= target_at p set <= 2 * nsets p.
Proof. exact (Forall_vget _ _ _ _ (wf_target p Hwf) vget_target). Qed.

Lemma put_ghost_Ok isB1 g : put_ghost p set isB1 g = Ok (upd_ghost p set isB1 g).
Proof.
  unfold put_ghost. rewrite u64_index by apply set_small.
  rewrite vset_Ok by (rewrite vsize_ghosts; lia). by destruct isB1.
Qed.

Lemma upd_ghost_wf isB1 g : vsize g <= nsets p -> arc_wf (upd_ghost p set isB1 g).
Proof.
  intros Hg. destruct Hwf, isB1; constructor; unfold nsets in *; simpl;
    rewrite ?vsize_insert; try done; apply Forall_insert; done.
Qed.

Lemma upd_target_wf t : 0 <= t <= 2 * nsets p -> arc_wf (upd_target p set t).
Proof.
  intros Ht. destruct Hwf; constructor; unfold nsets in *; simpl;
    rewrite ?vsize_insert; try done; apply Forall_insert; done.
Qed.

Lemma removeFromGhost_spec isB1 t :
  removeFromGhost p set isB1 t =
    Ok (match erase_first t (ghost_at p isB1 set) with
        | Some l => (true, upd_ghost p set isB1 l)
        | None => (false, p)
        end).
Proof.
  unfold removeFromGhost. rewrite vget_ghosts. simpl.
  destruct (erase_first _ _); [|done]. by rewrite put_ghost_Ok.
Qed.

(** The list with [t] at its end, its oldest element dropped when it would
    hold more than [cap]. *)
Definition push_capped (cap : Z) (l : list Z) (t : Z) : list Z :=
  if cap <? vsize l + 1 then tail (l ++ [t]) else l ++ [t].

Lemma addToGhost_spec isB1 t :
  addToGhost p set isB1 t =
    Ok (upd_ghost p set isB1 (push_capped (nsets p) (ghost_at p isB1 set) t)).
Proof.
  unfold addToGhost. rewrite vget_ghosts. simpl. rewrite put_ghost_Ok.
  unfold push_capped, nsets. by rewrite vsize_app.
Qed.

(** The step of the target: the ratio of the other ghost list to the one that
    was hit, rounded up, and at least one. *)
Definition delta (hit other : Z) : Z :=
  if other <=? hit then 1 else (other + hit - 1) / hit.

Lemma delta_bounds hit other : 0 < hit -> 0 <= other -> 1 <= delta hit other <= Z.max 1 other.
Proof.
  intros Hh Ho. unfold delta. destruct (Z.leb_spec other hit); [lia|].
  split; [apply Z.div_le_lower_bound; lia|].
  assert ((other + hit - 1) / hit < other + 1); [|lia].
  apply Z.div_lt_upper_bound; [lia|]. nia.
Qed.

Lemma adjustP_spec (hitInB1 : bool) :
  let b1 := vsize (ghost_at p true set) in
  let b2 := vsize (ghost_at p false set) in
  let hit := if hitInB1 then b1 else b2 in
  let other := if hitInB1 then b2 else b1 in
  adjustP p set hitInB1 =
    if (hit =? 0) && (0 <? other) then Fault DivByZero
    else Ok (upd_target p set
      (if hitInB1 then Z.min (target_at p set + delta b1 b2) (b1 + b2)
       else Z.max (target_at p set - delta b2 b1) 0)).
Proof.
  intros b1 b2 hit other.
  pose proof (ghost_at_bound true) as B1. pose proof (ghost_at_bound false) as B2.
  pose proof target_at_bound as BT.
  pose proof (vsize_nonneg (ghost_at p true set)) as N1.
  pose proof (vsize_nonneg (ghost_at p false set)) as N2.
  pose proof (vget_ghosts true) as G1. pose proof (vget_ghosts false) as G2. simpl in G1, G2.
  assert (nsets p <= 2 ^ 29) as BS by by destruct Hwf.
  assert (vsize (targetP p) = nsets p) as VT by by destruct Hwf.
  unfold adjustP. rewrite G1, G2. cbn [obind]. rewrite !vget_target.
  fold b1 b2 in N1, N2, B1, B2 |- *.
  assert (forall a b, 0 <= a <= 2 ^ 29 -> 0 <= b <= 2 ^ 29 ->
    (if b <=? a then Ok 1 else udiv (u64 (b + a - 1)) a) =
    (if (a =? 0) && (0 <? b) then Fault DivByZero else Ok (delta a b))) as HD.
  { intros a b Ha Hb. unfold delta, udiv. destruct (Z.leb_spec b a).
    - by replace ((a =? 0) && (0 <? b)) with false by lia.
    - rewrite uwrap_small by lia. replace (0 <? b) with true by lia.
      rewrite andb_true_r. done. }
  destruct hitInB1; subst hit other; rewrite HD by lia;
    (destruct ((_ =? 0) && _) eqn:Z0; [done|]); cbn [obind].
  - assert (1 <= delta b1 b2 <= 2 ^ 29).
    { destruct (Z.eq_dec b1 0) as [E|]; [|pose proof (delta_bounds b1 b2); lia].
      unfold delta. rewrite E in *. replace (b2 <=? 0) with true by lia. lia. }
    rewrite (swrap_small 32 (delta b1 b2)), (swrap_small 32 (b1 + b2)) by lia.
    rewrite int_of_Ok by lia. cbn [obind]. rewrite u64_index by apply set_small.
    by rewrite vset_Ok by lia.
  - assert (1 <= delta b2 b1 <= 2 ^ 29).
    { destruct (Z.eq_dec b2 0) as [E|]; [|pose proof (delta_bounds b2 b1); lia].
      unfold delta. rewrite E in *. replace (b1 <=? 0) with true by lia. lia. }
    rewrite (swrap_small 32 (delta b2 b1)) by lia.
    rewrite int_of_Ok by lia. cbn [obind]. rewrite u64_index by apply set_small.
    by rewrite vset_Ok by lia.
Qed.

End Helpers.

Lemma erase_first_Some t l l' :
  erase_first t l = Some l' -> exists k1 k2, l = k1 ++ t :: k2 /\ l' = k1 ++ k2 /\ t ∉ k1.
Proof.
  revert l'. induction l as [|x l IH]; intros l' H; [done|]. simpl in H.
  destruct (Z.eqb_spec x t) as [->|Hne].
  - injection H as <-. exists [], l. split_and!; [done|done|apply not_elem_of_nil].
  - apply fmap_Some in H as (l0 & H0 & ->). destruct (IH _ H0) as (k1 & k2 & -> & -> & Hk).
    exists (x :: k1), k2. split_and!; [done|done|]. apply not_elem_of_cons. auto.
Qed.

Lemma erase_first_None t l : erase_first t l = None <-> t ∉ l.
Proof.
  induction l as [|x l IH]; simpl; [split; [intros; apply not_elem_of_nil|done]|].
  rewrite not_elem_of_cons. destruct (Z.eqb_spec x t) as [->|Hne]; [naive_solver|].
  rewrite fmap_None, IH. naive_solver.
Qed.

Lemma erase_first_size t l l' : erase_first t l = Some l' -> vsize l' = vsize l - 1.
Proof.
  intros (k1 & k2 & -> & -> & _)%erase_first_Some. unfold vsize.
  rewrite !length_app. simpl. lia.
Qed.

Lemma push_capped_size cap l t : vsize l <= cap -> vsize (push_capped cap l t) <= cap.
Proof.
  intros Hl. unfold push_capped. destruct (Z.ltb_spec cap (vsize l + 1)).
  - destruct l; [done|]. simpl in *. unfold vsize in *. rewrite length_app. simpl in *. lia.
  - rewrite vsize_app. unfold vsize at 2. simpl. lia.
Qed.

(** ** The abstract policy of one set

    ARC as the header describes it: a target and two ghost lists per set. *)
Record aset := mkASet { a_target : Z; a_b1 : list Z; a_b2 : list Z }.

Definition view (p : ARC) (set : Z) : aset :=
  mkASet (target_at p set) (ghost_at p true set) (ghost_at p false set).

(** Insertion of [t]: the list it goes to and the adapted set; it stops where
    the ghost list that was hit is now empty and the other is not. *)
Definition spec_insert (a : aset) (t : Z) : outcome (aset * Z) :=
  let b2 := vsize (a_b2 a) in
  match erase_first t (a_b1 a) with
  | Some l =>
      let b1 := vsize l in
      if (b1 =? 0) && (0 <? b2) then Fault DivByZero
      else Ok (mkASet (Z.min (a_target a + delta b1 b2) (b1 + b2)) l (a_b2 a), 2)
  | None =>
      match erase_first t (a_b2 a) with
      | Some l =>
          let b1 := vsize (a_b1 a) in
          let b2 := vsize l in
          if (b2 =? 0) && (0 <? b1) then Fault DivByZero
          else Ok (mkASet (Z.max (a_target a - delta b2 b1) 0) (a_b1 a) l, 2)
      | None => Ok (a, 1)
      end
  end.

(** Only the given set changes. *)
Definition others_same (p p' : ARC) (set : Z) : Prop :=
  forall s, 0 <= s -> s <> set -> view p' s = view p s.

#[global] Instance others_same_refl set : Reflexive (fun p p' => others_same p p' set).
Proof. done. Qed.

Lemma others_same_trans p1 p2 p3 set :
  others_same p1 p2 set -> others_same p2 p3 set -> others_same p1 p3 set.
Proof. intros H1 H2 s ??. by rewrite H2, H1. Qed.

Lemma view_ensureSet p p' set s :
  arc_wf p -> 0 <= set < max_sets -> ensureSet p set = Ok p' -> view p' s = view p s.
Proof.
  intros Hwf Hset H. destruct (ensureSet_spec p set Hwf Hset) as (k & E & _).
  rewrite E in H. injection H as <-.
  assert (forall A (l : list A) (d : A) i, default d ((l ++ replicate k d) !! i) = default d (l !! i)) as R.
  { intros A l d i. destruct (decide (i < length l)%nat); [by rewrite lookup_app_l|].
    rewrite lookup_app_r by lia. rewrite (lookup_ge_None_2 l) by lia. simpl.
    destruct (replicate k d !! _) eqn:F; [|done]. by apply lookup_replicate in F as [-> _]. }
  unfold view, target_at, ghost_at. simpl. by rewrite !R.
Qed.

Lemma view_upd_ghost p set isB1 g s :
  arc_wf p -> 0 <= set < nsets p -> 0 <= s ->
  view (upd_ghost p set isB1 g) s =
    if decide (s = set) then
      mkASet (target_at p set) (if isB1 then g else ghost_at p true set)
        (if isB1 then ghost_at p false set else g)
    else view p s.
Proof.
  intros [] Hset Hs. unfold view, target_at, ghost_at, upd_ghost.
  unfold nsets, vsize in *.
  case_decide as E; [subst|];
    destruct isB1; simpl; rewrite ?list_lookup_insert_eq by lia;
    rewrite ?list_lookup_insert_ne by (intros ?%Z2Nat.inj; lia); done.
Qed.

Lemma view_upd_target p set t s :
  arc_wf p -> 0 <= set < nsets p -> 0 <= s ->
  view (upd_target p set t) s =
    if decide (s = set) then mkASet t (ghost_at p true set) (ghost_at p false set) else view p s.
Proof.
  intros [] Hset Hs. unfold view, target_at, ghost_at, upd_target.
  unfold nsets, vsize in *.
  case_decide as E; [subst|]; simpl; rewrite ?list_lookup_insert_eq by lia;
    rewrite ?list_lookup_insert_ne by (intros ?%Z2Nat.inj; lia); done.
Qed.

(** ** [reset] refines the abstract insertion *)

(** The effect of [reset] on the policy object, and the list chosen. *)
Definition reset_policy (p : ARC) (set t : Z) : outcome (ARC * Z) :=
  let? p1 := ensureSet p set in
  let? h1 := removeFromGhost p1 set true t in
  if h1.1 then let? p3 := adjustP h1.2 set true in Ok (p3, 2)
  else
    let? h2 := removeFromGhost h1.2 set false t in
    if h2.1 then let? p4 := adjustP h2.2 set false in Ok (p4, 2)
    else Ok (h2.2, 1).

Lemma adjust_step p set (h : bool) :
  arc_wf p -> 0 <= set < nsets p ->
  let hit := vsize (ghost_at p h set) in
  let other := vsize (ghost_at p (negb h) set) in
  (hit = 0 -> other = 0) ->
  exists t', adjustP p set h = Ok (upd_target p set t') /\ arc_wf (upd_target p set t') /\
    t' = if h then Z.min (target_at p set + delta hit other) (hit + other)
         else Z.max (target_at p set - delta hit other) 0.
Proof.
  intros Hwf Hset hit other H0.
  pose proof (target_at_bound p set Hwf Hset).
  pose proof (ghost_at_bound p set Hwf Hset h). pose proof (ghost_at_bound p set Hwf Hset (negb h)).
  pose proof (vsize_nonneg (ghost_at p h set)). pose proof (vsize_nonneg (ghost_at p (negb h) set)).
  fold hit in H1, H3. fold other in H2, H4.
  assert (1 <= delta hit other).
  { destruct (Z.eq_dec hit 0) as [E|]; [|pose proof (delta_bounds hit other); lia].
    unfold delta. replace (other <=? hit) with true by lia. lia. }
  pose proof (adjustP_spec p set Hwf Hset h) as E. simpl in E.
  replace ((_ =? 0) && _) with false in E
    by (subst hit other; destruct h; simpl in *; lia).
  eexists. split; [exact E|]. split; [|by destruct h].
  apply upd_target_wf; [done|]. subst hit other. destruct h; simpl in *; lia.
Qed.

(** Inverse of the split in [spec_insert]: the division is by zero exactly
    when the hit list is empty and the other one is not. *)
Lemma adjust_fault p set (h : bool) :
  arc_wf p -> 0 <= set < nsets p ->
  vsize (ghost_at p h set) = 0 -> 0 < vsize (ghost_at p (negb h) set) ->
  adjustP p set h = Fault DivByZero.
Proof.
  intros Hwf Hset H1 H2. pose proof (adjustP_spec p set Hwf Hset h) as E. simpl in E.
  rewrite E. destruct h; simpl in *; by replace ((_ =? 0) && _) with true by lia.
Qed.

Lemma reset_hit p set t (h : bool) l :
  arc_wf p -> 0 <= set < nsets p -> erase_first t (ghost_at p h set) = Some l ->
  let p2 := upd_ghost p set h l in
  let hit := vsize l in
  let other := vsize (ghost_at p (negb h) set) in
  if (hit =? 0) && (0 <? other) then adjustP p2 set h = Fault DivByZero
  else exists p', adjustP p2 set h = Ok p' /\ arc_wf p' /\ others_same p p' set /\
    view p' set =
      if h then mkASet (Z.min (target_at p set + delta hit other) (hit + other)) l (ghost_at p false set)
      else mkASet (Z.max (target_at p set - delta hit other) 0) (ghost_at p true set) l.
Proof.
  intros Hwf Hset Hl p2 hit other.
  pose proof (ghost_at_bound p set Hwf Hset h) as B. pose proof (erase_first_size _ _ _ Hl) as Hsz.
  assert (arc_wf p2) as Hwf2 by (apply upd_ghost_wf; [done|lia]).
  assert (nsets p2 = nsets p) as N by (unfold p2, nsets; destruct h; simpl; by rewrite ?vsize_insert).
  assert (forall s, 0 <= s -> view p2 s = _) as V by (intros; by apply view_upd_ghost).
  pose proof (V set ltac:(lia)) as Vs. rewrite decide_True in Vs by done.
  unfold view in Vs. injection Vs as V1 V2 V3.
  assert (ghost_at p2 h set = l) as G1 by (destruct h; simpl in *; congruence).
  assert (ghost_at p2 (negb h) set = ghost_at p (negb h) set) as G2 by (destruct h; simpl in *; congruence).
  destruct ((hit =? 0) && (0 <? other)) eqn:E.
  - apply adjust_fault; [done|lia|rewrite G1; lia|rewrite G2; lia].
  - pose proof (vsize_nonneg (ghost_at p (negb h) set)).
    destruct (adjust_step p2 set h Hwf2 ltac:(lia)) as (t' & A & Hwf3 & Ht').
    { rewrite G1, G2. fold hit other. lia. }
    exists (upd_target p2 set t'). split; [done|]. split; [done|].
    rewrite G1, G2, V1 in Ht'. split.
    + intros s Hs Hne. rewrite view_upd_target by (done || lia).
      rewrite decide_False by done. by rewrite V, decide_False.
    + rewrite view_upd_target by (done || lia). rewrite decide_True by done.
      rewrite V2, V3. subst t'. by destruct h.
Qed.

Lemma reset_policy_refines p set t :
  arc_wf p -> 0 <= set < max_sets ->
  match spec_insert (view p set) t with
  | Ok (a, l) => exists p', reset_policy p set t = Ok (p', l) /\ arc_wf p' /\
      view p' set = a /\ others_same p p' set
  | Fault f => reset_policy p set t = Fault f
  end.
Proof.
  intros Hwf Hset. destruct (ensureSet_wf p set Hwf Hset) as (p1 & E1 & Hwf1 & Hn).
  assert (forall s, view p1 s = view p s) as V by (intros; by eapply view_ensureSet).
  assert (others_same p p1 set) as OS by (intros s _ _; apply V).
  rewrite <- (V set). unfold reset_policy. rewrite E1. cbn [obind].
  rewrite removeFromGhost_spec by (done || lia). cbn [obind].
  unfold spec_insert. cbn [view a_b1 a_b2 a_target].
  destruct (erase_first t (ghost_at p1 true set)) as [l|] eqn:Hl; cbn [fst snd].
  { pose proof (reset_hit p1 set t true l Hwf1 ltac:(lia) Hl) as R. cbv zeta in R; cbn [negb] in R.
    destruct (_ && _); [by rewrite R|]. destruct R as (p' & -> & W & OS' & V').
    exists p'. split_and!; eauto using others_same_trans. }
  rewrite removeFromGhost_spec by (done || lia). cbn [obind].
  destruct (erase_first t (ghost_at p1 false set)) as [l|] eqn:Hl2; cbn [fst snd].
  { pose proof (reset_hit p1 set t false l Hwf1 ltac:(lia) Hl2) as R. cbv zeta in R; cbn [negb] in R.
    destruct (_ && _); [by rewrite R|]. destruct R as (p' & -> & W & OS' & V').
    exists p'. split_and!; eauto using others_same_trans. }
  exists p1. split_and!; eauto.
Qed.

Section Runs.
Context {X : Type}.
Implicit Types w : world ARC ARCReplData X.

Lemma on_policy_run {A} (f : ARC -> outcome (A * ARC)) w :
  on_policy f w =
    match f (policy w) with Ok (a, p) => Ok (a, set_policy p w) | Fault e => Fault e end.
Proof. unfold on_policy, bind, getS, lift. by destruct (f (policy w)) as [[]|]. Qed.

Lemma on_policy__run (f : ARC -> outcome ARC) w :
  on_policy_ f w =
    match f (policy w) with Ok p => Ok (tt, set_policy p w) | Fault e => Fault e end.
Proof. unfold on_policy_. rewrite on_policy_run. by destruct (f (policy w)). Qed.

(** The world after [reset]. *)
Definition after_reset w (r e : loc) (p : ARC) (l t : Z) : world ARC ARCReplData X :=
  set_policy p
    (set_rds (<[r := mkReplacementData (Ptr e) (mkARCReplData (curTick w) l true t)]> (rds w)) w).

Lemma reset_run w r rd e o :
  rds w !! r = Some rd -> entry rd = Ptr e -> entries w !! e = Some o ->
  reset r w =
    match reset_policy (policy w) (i32 (_set (base o))) (tag (data rd)) with
    | Ok (p', l) => Ok (tt, after_reset w r e p' l (tag (data rd)))
    | Fault f => Fault f
    end.
Proof.
  intros Hr He Ho. unfold reset.
  erewrite bind_Ok by eauto with gem5. cbn [gets].
  rewrite (bind_Ok (gets curTick) _ _ (curTick w) w) by done.
  erewrite bind_Ok by eauto with gem5. rewrite He.
  erewrite bind_Ok by (apply deref_rd_Ok; simpl; apply lookup_insert_eq). cbn [entry].
  erewrite bind_Ok by (apply getSet_Ok; done).
  unfold bind at 1. rewrite on_policy__run. unfold reset_policy. cbn [policy set_rds].
  destruct (ensureSet _ _) as [p1|f]; [cbn [obind]|done].
  unfold bind at 1. rewrite on_policy_run. cbn [policy set_policy tag with_valid with_lastTouchTick].
  destruct (removeFromGhost p1 _ true _) as [[[] p2]|f]; [| |done]; cbn [obind fst snd].
  - unfold bind at 1. rewrite on_policy__run. cbn [policy set_policy].
    destruct (adjustP p2 _ true) as [p3|f]; [|done]. cbn [obind].
    erewrite put_data_Ok by (simpl; apply lookup_insert_eq). simpl.
    unfold after_reset, set_policy, set_rds. simpl. by rewrite insert_insert_eq.
  - unfold bind at 1. rewrite on_policy_run. cbn [policy set_policy].
    destruct (removeFromGhost p2 _ false _) as [[[] p3]|f]; [| |done]; cbn [obind fst snd].
    + unfold bind at 1. rewrite on_policy__run. cbn [policy set_policy].
      destruct (adjustP p3 _ false) as [p4|f]; [|done]. cbn [obind].
      erewrite put_data_Ok by (simpl; apply lookup_insert_eq). simpl.
      unfold after_reset, set_policy, set_rds. simpl. by rewrite insert_insert_eq.
    + erewrite put_data_Ok by (simpl; apply lookup_insert_eq). simpl.
      unfold after_reset, set_policy, set_rds. simpl. by rewrite insert_insert_eq.
Qed.

Lemma touch_run w r rd :
  rds w !! r = Some rd ->
  touch r w = Ok (tt, set_rds (<[r := mkReplacementData (entry rd)
    (mkARCReplData (curTick w) (if listId (data rd) =? 1 then 2 else listId (data rd))
       (valid (data rd)) (tag (data rd)))]> (rds w)) w).
Proof.
  intros Hr. unfold touch. erewrite bind_Ok by eauto with gem5.
  rewrite (bind_Ok (gets curTick) _ _ (curTick w) w) by done.
  erewrite put_data_Ok by done. unfold with_listId, with_lastTouchTick. simpl.
  by destruct (listId (data rd) =? 1).
Qed.

Lemma invalidate_run w r rd :
  rds w !! r = Some rd ->
  invalidate r w =
    Ok (tt, set_rds (<[r := mkReplacementData (entry rd) (with_valid false (data rd))]> (rds w)) w).
Proof.
  intros Hr. unfold invalidate. erewrite bind_Ok by eauto with gem5. by apply put_data_Ok.
Qed.

End Runs.

(** ** [getVictim] refines the abstract choice *)

(** The list a valid block is in. *)
Definition in_list (t1 : bool) (d : ARCReplData) : bool :=
  valid d && ((t1 && (listId d =? 1)) || (negb t1 && (listId d =? 2))).

Definition count_T1 (ds : list ARCReplData) : Z :=
  vsize (filter (fun d => valid d && (listId d =? 1) = true) ds).
Definition count_T2 (ds : list ARCReplData) : Z :=
  vsize (filter (fun d => valid d && negb (listId d =? 1) = true) ds).

(** Evict from T1 when it is above its target or T2 is empty. *)
Definition evict_T1 (target : Z) (ds : list ARCReplData) : bool :=
  (target <? count_T1 ds) || (count_T2 ds =? 0).

(** The first block of the list with the smallest tick below [old]. *)
Fixpoint oldest (t1 : bool) (cd : list (loc * ARCReplData)) (best : option (loc * ARCReplData))
    (old : Z) : option (loc * ARCReplData) :=
  match cd with
  | [] => best
  | (e, d) :: cd' =>
      if in_list t1 d && (lastTouchTick d <? old) then oldest t1 cd' (Some (e, d)) (lastTouchTick d)
      else oldest t1 cd' best old
  end.

Definition first_valid (cd : list (loc * ARCReplData)) : option (loc * ARCReplData) :=
  snd <$> list_find (fun ed => valid ed.2 = true) cd.

Definition spec_victim (target now : Z) (cd : list (loc * ARCReplData)) :
    option (loc * ARCReplData) :=
  match oldest (evict_T1 target cd.*2) cd None now with
  | Some ed => Some ed
  | None => first_valid cd
  end.

(** The set after the eviction of a block: its tag joins its ghost list. *)
Definition spec_evict (cap : Z) (a : aset) (d : ARCReplData) : aset :=
  if listId d =? 1 then mkASet (a_target a) (push_capped cap (a_b1 a) (tag d)) (a_b2 a)
  else mkASet (a_target a) (a_b1 a) (push_capped cap (a_b2 a) (tag d)).

Lemma oldest_elem t1 cd best old ed :
  oldest t1 cd best old = Some ed -> ed ∈ cd \/ best = Some ed.
Proof.
  revert best old. induction cd as [|[e d] cd IH]; intros best old H; simpl in H; [by right|].
  destruct (in_list t1 d && _).
  - destruct (IH _ _ H) as [?|[= <-]]; left; [by right|left].
  - destruct (IH _ _ H) as [?|?]; [left; by right|by right].
Qed.

Lemma first_valid_spec cd ed :
  first_valid cd = Some ed -> ed ∈ cd /\ valid ed.2 = true.
Proof.
  unfold first_valid. intros ([i x] & H & ->)%fmap_Some.
  apply list_find_Some in H as (H & V & _). split; [|done]. by eapply list_elem_of_lookup_2.
Qed.

Lemma first_valid_None cd : first_valid cd = None <-> Forall (fun ed => valid ed.2 = false) cd.
Proof.
  unfold first_valid. rewrite fmap_None, list_find_None.
  split; intros H; eapply Forall_impl; eauto; simpl; intros ? E; [by apply not_true_iff_false|].
  by rewrite E.
Qed.

Lemma spec_victim_elem target now cd ed : spec_victim target now cd = Some ed -> ed ∈ cd.
Proof.
  unfold spec_victim. destruct (oldest _ _ _ _) eqn:E.
  - intros [= <-]. by destruct (oldest_elem _ _ _ _ _ E).
  - intros H. by apply first_valid_spec in H as [? _].
Qed.

Lemma spec_victim_valid target now cd e d :
  spec_victim target now cd = Some (e, d) -> valid d = true.
Proof.
  unfold spec_victim. generalize (evict_T1 target cd.*2). intros t1.
  assert (forall best old, (forall e d, best = Some (e, d) -> valid d = true) ->
    forall e d, oldest t1 cd best old = Some (e, d) -> valid d = true) as H.
  { induction cd as [|[e1 d1] cd' IH]; intros best old Hb e2 d2 Ho; simpl in Ho; [eauto|].
    destruct (in_list t1 d1 && _) eqn:E; [|by eapply IH].
    eapply IH; [|exact Ho]. intros ?? [= <- <-]. unfold in_list in E. by destruct (valid d1). }
  destruct (oldest t1 cd None now) as [[e1 d1]|] eqn:Eo.
  - intros [= <- <-]. eapply H; [|exact Eo]. done.
  - intros Hf. by apply first_valid_spec in Hf as [_ ?].
Qed.

Lemma oldest_none t1 cd old :
  Forall (fun ed => valid ed.2 = false) cd -> oldest t1 cd None old = None.
Proof.
  induction 1 as [|[e d] cd Hd _ IH]; [done|]. simpl in *. unfold in_list. by rewrite Hd.
Qed.

Section Victim.
Context {X : Type}.
Implicit Types w : world ARC ARCReplData X.

(** The candidates with their data. *)
Definition cands_ok w (cd : list (loc * ARCReplData)) : Prop :=
  Forall (fun ed => cand_data w ed.1 = Some ed.2) cd.

Lemma cands_ok_zip w cands ds : cands_data w cands ds -> cands_ok w (zip cands ds) /\
  (zip cands ds).*1 = cands /\ (zip cands ds).*2 = ds.
Proof.
  intros H. pose proof (Forall2_length _ _ _ H) as L. split_and!.
  - clear L. induction H; simpl; constructor; auto.
  - apply fst_zip. lia.
  - apply snd_zip. lia.
Qed.

Lemma cands_ok_data w cd ds : cands_ok w cd -> cands_data w cd.*1 ds -> cd.*2 = ds.
Proof.
  intros H. revert ds. induction H as [|[e d] cd He _ IH]; intros ds HD; inversion HD; subst; [done|].
  simpl in *. f_equal; [congruence|]. by apply IH.
Qed.

Lemma count_run w cd c :
  cands_ok w cd ->
  foreach cd.*1 count_body c w =
    Ok ((c.1 + count_T1 cd.*2, c.2 + count_T2 cd.*2), w).
Proof.
  intros H. revert c. induction H as [|[e d] cd He _ IH]; intros c.
  - unfold count_T1, count_T2, vsize. simpl. rewrite !Z.add_0_r. by destruct c.
  - cbn [fmap list_fmap fst snd foreach]. unfold count_body at 1.
    rewrite (bind_Ok _ _ w (Continue (if valid d then if listId d =? 1 then (c.1 + 1, c.2) else (c.1, c.2 + 1) else c)) w).
    2: { erewrite bind_Ok by (apply cand_get_Ok; exact He). done. }
    fold (fmap (M := list) (A := loc * ARCReplData) fst).
    change (list_fmap _ _ snd cd) with (cd.*2). change (list_fmap _ _ fst cd) with (cd.*1).
    rewrite IH. unfold count_T1, count_T2. rewrite !filter_cons.
    destruct (valid d), (listId d =? 1); simpl; unfold vsize; simpl length;
      do 2 f_equal; f_equal; lia.
Qed.

Lemma lru_run w t1 cd acc now :
  cands_ok w cd ->
  exists old, foreach cd.*1 (lru_body t1) (fst <$> acc, now) w =
    Ok ((fst <$> oldest t1 cd acc now, old), w).
Proof.
  intros H. revert acc now. induction H as [|[e d] cd He _ IH]; intros acc now.
  - by exists now.
  - cbn [fmap list_fmap fst snd foreach oldest].
    change (list_fmap _ _ fst cd) with (cd.*1).
    destruct (in_list t1 d && (lastTouchTick d <? now)) eqn:E.
    + destruct (IH (Some (e, d)) (lastTouchTick d)) as (old & Hold). exists old.
      rewrite (bind_Ok _ _ w (Continue (Some e, lastTouchTick d)) w); [exact Hold|].
      unfold lru_body. erewrite bind_Ok by (apply cand_get_Ok; exact He).
      unfold ret, in_list in *. simpl. by apply andb_true_iff in E as [-> ->].
    + destruct (IH acc now) as (old & Hold). exists old.
      rewrite (bind_Ok _ _ w (Continue (fst <$> acc, now)) w); [exact Hold|].
      unfold lru_body. erewrite bind_Ok by (apply cand_get_Ok; exact He).
      unfold ret, in_list in *. simpl.
      by apply andb_false_iff in E as [-> | ->]; [|destruct (_ && _)].
Qed.

Lemma fallback_run w cd :
  cands_ok w cd ->
  foreach cd.*1 fallback_body None w = Ok (fst <$> first_valid cd, w).
Proof.
  intros H. induction H as [|[e d] cd He _ IH]; [done|].
  cbn [fmap list_fmap fst snd foreach]. change (list_fmap _ _ fst cd) with (cd.*1).
  unfold fallback_body at 1, first_valid. simpl.
  rewrite (bind_Ok _ _ w (if valid d then Break (Some e) else Continue None) w).
  2: { erewrite bind_Ok by (apply cand_get_Ok; exact He). done. }
  destruct (valid d) eqn:V; simpl.
  - done.
  - rewrite IH. unfold first_valid.
    by destruct (list_find _ cd) as [[]|].
Qed.

(** The whole of [getVictim], on candidates whose data is there. *)
Lemma getVictim_run w e0 d0 cd o :
  arc_wf (policy w) -> cands_ok w ((e0, d0) :: cd) ->
  entries w !! e0 = Some o -> 0 <= _set (base o) < max_sets ->
  let set := _set (base o) in
  let victim := spec_victim (target_at (policy w) set) (curTick w) ((e0, d0) :: cd) in
  exists p1, ensureSet (policy w) set = Ok p1 /\ arc_wf p1 /\ set < nsets p1 /\
    getVictim (((e0, d0) :: cd).*1) w =
      match victim with
      | Some (e, d) =>
          Ok (Some e, set_policy (upd_ghost p1 set (listId d =? 1)
            (push_capped (nsets p1) (ghost_at p1 (listId d =? 1) set) (tag d))) w)
      | None => Ok (None, set_policy p1 w)
      end.
Proof.
  intros Hwf Hcd Ho Hset set victim.
  destruct (ensureSet_wf (policy w) set Hwf Hset) as (p1 & E1 & Hwf1 & Hn).
  exists p1. split_and!; [done..|]. set (w1 := set_policy p1 w).
  assert (cands_ok w1 ((e0, d0) :: cd)) as Hcd1 by done.
  assert (target_at p1 set = target_at (policy w) set) as HT.
  { pose proof (view_ensureSet _ _ _ set Hwf Hset E1) as V. by injection V. }
  unfold getVictim. cbn [fmap list_fmap fst].
  change (e0 :: list_fmap _ _ fst cd) with (((e0, d0) :: cd).*1).
  set (cd' := (e0, d0) :: cd) in *.
  erewrite bind_Ok by eauto with gem5. rewrite (i32_index _ Hset). fold set.
  rewrite (bind_Ok _ _ w tt w1) by (rewrite on_policy__run, E1; done).
  rewrite (bind_Ok _ _ w1 _ w1 (count_run w1 cd' (0, 0) Hcd1)).
  rewrite (bind_Ok getS _ w1 w1 w1) by done.
  rewrite (bind_Ok _ _ w1 (target_at (policy w) set) w1).
  2: { unfold w1, lift. simpl. rewrite vget_target by (done || lia). by rewrite HT. }
  cbn [fst snd]. rewrite !Z.add_0_l. fold (evict_T1 (target_at (policy w) set) cd'.*2).
  destruct (lru_run w1 (evict_T1 (target_at (policy w) set) cd'.*2) cd' None (curTick w1) Hcd1)
    as (old & Hl).
  rewrite (bind_Ok _ _ w1 _ w1 Hl). cbn [fst snd].
  rewrite (bind_Ok _ _ w1 (fst <$> victim) w1).
  2: { unfold victim, spec_victim. change (curTick w1) with (curTick w).
       destruct (oldest _ cd' None _) as [[]|]; [done|]. exact (fallback_run w1 cd' Hcd1). }
  destruct victim as [[e d]|] eqn:Hv; [|done]. cbn [fmap option_fmap option_map fst].
  assert (cand_data w1 e = Some d) as He.
  { assert ((e, d) ∈ cd') as Hin by (eapply spec_victim_elem; exact Hv).
    exact (proj1 (Forall_forall _ _) Hcd1 _ Hin). }
  rewrite (bind_Ok _ _ w1 d w1 (cand_get_Ok _ _ _ He)).
  erewrite bind_Ok.
  2: { rewrite on_policy__run. unfold w1 at 1. cbn [policy set_policy].
       rewrite addToGhost_spec by (done || lia). reflexivity. }
  done.
Qed.

End Victim.

Lemma oldest_spec t1 cd best old :
  match oldest t1 cd best old with
  | Some (e, d) =>
      (best = Some (e, d) /\ Forall (fun ed => in_list t1 ed.2 = true -> old <= lastTouchTick ed.2) cd) \/
      exists i, cd !! i = Some (e, d) /\ in_list t1 d = true /\ lastTouchTick d < old /\
        forall j e' d', cd !! j = Some (e', d') -> in_list t1 d' = true ->
          lastTouchTick d <= lastTouchTick d' /\ ((j < i)%nat -> lastTouchTick d < lastTouchTick d')
  | None => best = None /\ Forall (fun ed => in_list t1 ed.2 = true -> old <= lastTouchTick ed.2) cd
  end.
Proof.
  revert best old. induction cd as [|[e0 d0] cd IH]; intros best old; simpl.
  { destruct best as [[e d]|]; auto. }
  destruct (in_list t1 d0) eqn:L0; [destruct (Z.ltb_spec (lastTouchTick d0) old) as [Hlt|Hge]|]; simpl.
  - pose proof (IH (Some (e0, d0)) (lastTouchTick d0)) as S. rename IH into IH0.
    destruct (oldest t1 cd _ _) as [[e d]|]; [|by destruct S].
    right. destruct S as [[[= -> ->] HF]|(i & Hi & L & Hlt' & Hmin)].
    + exists 0%nat. split_and!; [done..|]. intros [|j] e' d' Hj L'.
      * injection Hj as -> ->. lia.
      * split; [|lia]. rewrite Forall_forall in HF.
        by apply (HF (e', d')); [eapply list_elem_of_lookup_2|].
    + exists (S i). split_and!; [done|done|lia|]. intros [|j] e' d' Hj L'.
      * injection Hj as -> ->. lia.
      * destruct (Hmin j e' d' Hj L'). split; [done|]. intros. lia.
  - pose proof (IH best old) as S. destruct (oldest t1 cd _ _) as [[e d]|].
    + destruct S as [[-> HF]|(i & Hi & L & Hlt' & Hmin)]; [left; split; [done|by constructor]|].
      right. exists (S i). split_and!; [done..|]. intros [|j] e' d' Hj L'.
      * injection Hj as -> ->. lia.
      * destruct (Hmin j e' d' Hj L'). split; [done|]. intros. lia.
    + destruct S as [-> HF]. split; [done|by constructor].
  - pose proof (IH best old) as S. destruct (oldest t1 cd _ _) as [[e d]|].
    + destruct S as [[-> HF]|(i & Hi & L & Hlt' & Hmin)];
        [left; split; [done|constructor; simpl; congruence]|].
      right. exists (S i). split_and!; [done..|]. intros [|j] e' d' Hj L'; [simpl in Hj; congruence|].
      destruct (Hmin j e' d' Hj L'). split; [done|]. intros. lia.
    + destruct S as [-> HF]. split; [done|constructor; [simpl; congruence|done]].
Qed.

(** The list to evict from has a block whenever there is a valid one. *)
Lemma evict_list_nonempty target ds :
  0 <= target -> Forall list_ok ds -> Exists (fun d => valid d = true) ds ->
  Exists (fun d => in_list (evict_T1 target ds) d = true) ds.
Proof.
  intros Ht HL HV. unfold evict_T1.
  destruct (Z.ltb_spec target (count_T1 ds)) as [H1|H1]; simpl.
  - assert (filter (fun d => valid d && (listId d =? 1) = true) ds <> []) as N
      by (intros E; unfold count_T1, vsize in H1; rewrite E in H1; simpl in H1; lia).
    destruct (filter _ ds) as [|d l] eqn:E; [done|].
    assert (d ∈ filter (fun d => valid d && (listId d =? 1) = true) ds) as Hd by (rewrite E; left).
    apply list_elem_of_filter in Hd as [Hd Hin]. apply Exists_exists. exists d. split; [done|].
    unfold in_list. simpl. by rewrite orb_false_r.
  - apply Exists_exists in HV as (d & Hd & V). rewrite Forall_forall in HL.
    destruct (Z.eqb_spec (count_T2 ds) 0) as [H2|H2].
    + apply Exists_exists. exists d. split; [done|]. unfold in_list. rewrite V. simpl.
      destruct (HL d Hd) as [->|L]; [done|].
      assert (d ∈ filter (fun d => valid d && negb (listId d =? 1) = true) ds) as Hf
        by (apply list_elem_of_filter; by rewrite V, L).
      unfold count_T2, vsize in H2. destruct (filter _ ds); [by apply not_elem_of_nil in Hf|done].
    + unfold count_T2, vsize in H2.
      destruct (filter (fun d => valid d && negb (listId d =? 1) = true) ds) as [|d' l] eqn:E; [done|].
      assert (d' ∈ filter (fun d => valid d && negb (listId d =? 1) = true) ds) as Hd' by (rewrite E; left).
      apply list_elem_of_filter in Hd' as [Hd' Hin]. apply Exists_exists. exists d'. split; [done|].
      apply andb_true_iff in Hd' as [V' L']. unfold in_list. rewrite V'. simpl.
      destruct (HL d' Hin) as [E'|E']; rewrite E' in *; done.
Qed.

Lemma in_list_iff t1 d : list_ok d ->
  in_list t1 d = true <-> valid d = true /\ listId d = if t1 then 1 else 2.
Proof. unfold in_list. intros [-> | ->]; destruct t1, (valid d); simpl; naive_solver. Qed.

(** Among blocks touched before now, the choice is the least recently used of
    the list to evict from, the first one on ties. *)
Lemma spec_victim_lru target now cd :
  0 <= target -> Forall list_ok cd.*2 -> Exists (fun d => valid d = true) cd.*2 ->
  Forall (fun d => valid d = true -> lastTouchTick d < now) cd.*2 ->
  exists i e d, spec_victim target now cd = Some (e, d) /\ cd !! i = Some (e, d) /\
    valid d = true /\ listId d = (if evict_T1 target cd.*2 then 1 else 2) /\
    forall j e' d', cd !! j = Some (e', d') -> valid d' = true -> listId d' = listId d ->
      lastTouchTick d <= lastTouchTick d' /\ ((j < i)%nat -> lastTouchTick d < lastTouchTick d').
Proof.
  intros Ht HL HV HT. set (t1 := evict_T1 target cd.*2).
  pose proof (evict_list_nonempty target cd.*2 Ht HL HV) as HE. fold t1 in HE.
  pose proof (oldest_spec t1 cd None now) as S. unfold spec_victim. fold t1.
  assert (forall j e d, cd !! j = Some (e, d) -> d ∈ cd.*2) as Hin.
  { intros j e d Hj. apply list_elem_of_fmap. exists (e, d). split; [done|].
    by eapply list_elem_of_lookup_2. }
  rewrite Forall_forall in HL. rewrite Forall_forall in HT.
  destruct (oldest t1 cd None now) as [[e d]|].
  - destruct S as [[? _]|(i & Hi & L & _ & Hmin)]; [done|].
    exists i, e, d. split_and!; [done..| | |].
    + by apply in_list_iff in L as [? _]; [|eauto].
    + by apply in_list_iff in L as [_ ?]; [|eauto].
    + intros j e' d' Hj V' L'. apply (Hmin j e' d' Hj). apply in_list_iff; [eauto|].
      apply in_list_iff in L as [_ L]; [|eauto]. by rewrite L', L.
  - destruct S as [_ HF]. exfalso. apply Exists_exists in HE as (d & Hd & L).
    apply list_elem_of_fmap in Hd as ([e d'] & -> & Hed). rewrite Forall_forall in HF.
    apply list_elem_of_lookup_1 in Hed as (j & Hj).
    specialize (HF _ (list_elem_of_lookup_2 _ _ _ Hj) L).
    apply in_list_iff in L as [V _]; [|eauto]. specialize (HT _ (Hin _ _ _ Hj) V). simpl in *. lia.
Qed.

(** ** ARC meets the interface *)
Section Laws.
Context {X : Type}.
Implicit Types w : world ARC ARCReplData X.

Lemma on_policy__Ok_inv (f : ARC -> outcome ARC) w u w' :
  on_policy_ f w = Ok (u, w') -> exists p, f (policy w) = Ok p /\ w' = set_policy p w.
Proof. rewrite on_policy__run. destruct (f (policy w)); naive_solver. Qed.

Lemma touch_Ok_inv w r u w' : touch r w = Ok (u, w') -> is_Some (rds w !! r).
Proof.
  unfold touch. intros H. inv_ok H. apply get_data_Ok_inv in Hrun as (rd & ? & _). by exists rd.
Qed.

Lemma invalidate_Ok_inv w r u w' : invalidate r w = Ok (u, w') -> is_Some (rds w !! r).
Proof.
  unfold invalidate. intros H. inv_ok H.
  apply get_data_Ok_inv in Hrun as (rd & ? & _). by exists rd.
Qed.

Lemma reset_Ok_inv w r u w' :
  reset r w = Ok (u, w') ->
  exists rd e o p l, rds w !! r = Some rd /\ entry rd = Ptr e /\ entries w !! e = Some o /\
    reset_policy (policy w) (i32 (_set (base o))) (tag (data rd)) = Ok (p, l) /\
    w' = after_reset w r e p l (tag (data rd)).
Proof.
  intros H. pose proof H as H0. unfold reset in H.
  apply bind_Ok_inv in H as (d & s1 & H1 & H).
  apply get_data_Ok_inv in H1 as (rd & Hr & <- & ->).
  apply bind_Ok_inv in H as (now & s2 & H2 & H). injection H2 as <- <-.
  apply bind_Ok_inv in H as ([] & s3 & H3 & H).
  rewrite (put_data_Ok _ _ _ _ Hr) in H3. injection H3 as <-.
  apply bind_Ok_inv in H as (rd3 & s4 & H4 & H).
  apply deref_rd_Ok_inv in H4 as [Hr3 ->]. simpl in Hr3.
  rewrite lookup_insert_eq in Hr3. injection Hr3 as <-. simpl in H.
  destruct (entry rd) as [| |e] eqn:He; [done..|].
  apply bind_Ok_inv in H as (s & s5 & H5 & H). unfold getSet in H5.
  apply bind_Ok_inv in H5 as (o & s6 & H5 & _).
  apply deref_entry_Ok_inv in H5 as [Ho _]. simpl in Ho.
  rewrite (reset_run w r rd e o Hr He Ho) in H0.
  destruct (reset_policy _ _ _) as [[p l]|] eqn:E; [|done]. injection H0 as <-.
  exists rd, e, o, p, l. done.
Qed.

Ltac inv_cand :=
  match goal with H : cand_get _ _ = Ok _ |- _ => apply cand_get_Ok_inv in H as [_ ->] end.

Lemma body_frame {A} (body : A -> loc -> M (world ARC ARCReplData X) (step A)) cands
    (Q : A -> Prop) a w a' w' :
  (forall a e w r w1, e ∈ cands -> Q a -> body a e w = Ok (r, w1) ->
     w1 = w /\ match r with Continue a1 | Break a1 => Q a1 end) ->
  Q a -> foreach cands body a w = Ok (a', w') -> w' = w /\ Q a'.
Proof.
  intros Hb HQ H.
  assert (a' = a' /\ (fun a s => s = w /\ Q a) a' w') as [_ [? ?]]; [|done]. split; [done|].
  eapply (foreach_inv (fun a s => s = w /\ Q a)); [|by split|exact H].
  intros b e s r s1 He [-> HQb] Hr. destruct (Hb _ _ _ _ _ He HQb Hr) as [-> ?]. by destruct r.
Qed.

Lemma getVictim_Ok_inv w cands v w' :
  getVictim cands w = Ok (v, w') ->
  (exists p, w' = set_policy p w) /\ forall e, v = Some e -> e ∈ cands.
Proof.
  unfold getVictim. destruct cands as [|c0 cands]; intros H.
  { injection H as <- <-. split; [|done]. exists (policy w). by destruct w. }
  set (cs := c0 :: cands) in *. inv_ok H.
  unfold getSet in Hrun. inv_ok Hrun. apply deref_entry_Ok_inv in Hrun6 as [_ ->].
  injection Hrun as <- <-.
  apply on_policy__Ok_inv in Hrun0 as (p1 & _ & ->).
  apply (body_frame _ cs (fun _ => True)) in Hrun1 as [-> _]; [|unfold count_body|done].
  2: { intros ????? _ _ Hb. inv_ok Hb. inv_cand. by injection Hb as <- <-. }
  injection Hrun2 as <- <-. apply lift_Ok_inv in Hrun3 as [_ ->].
  apply (body_frame _ cs (fun a => forall e, a.1 = Some e -> e ∈ cs)) in Hrun4 as [-> Q4]; [|unfold lru_body|done].
  2: { intros a' e' ??? He HQ Hb. inv_ok Hb. inv_cand.
       injection Hb as <- <-. split; [done|]. simpl.
       destruct (valid _ && (_ || _)); [|done]. destruct (lastTouchTick _ <? _); [|done].
       simpl. by intros ? [= <-]. }
  assert (s5 = set_policy p1 w /\ forall e, a5 = Some e -> e ∈ cs) as [-> Q5].
  { destruct (a4.1) as [v4|]; [injection Hrun5 as <- <-; split; [done|]; intros; eapply Q4; congruence|].
    eapply (body_frame fallback_body cs (fun a => forall e, a = Some e -> e ∈ cs)) in Hrun5; [done| |done].
    intros a' e' ??? He HQ Hb. unfold fallback_body in Hb. inv_ok Hb.
    inv_cand. injection Hb as <- <-. split; [done|].
    destruct (valid _); [|done]. intros ? [= <-]. done. }
  destruct a5 as [v4|].
  - inv_ok H. inv_cand.
    match goal with H1 : on_policy_ _ _ = Ok _ |- _ => apply on_policy__Ok_inv in H1 as (p2 & _ & ->) end.
    injection H as <- <-.
    split; [by exists p2|]. intros e [= <-]. by apply Q5.
  - injection H as <- <-. split; [by exists p1|done].
Qed.

End Laws.

Section LawProofs.
Context {X : Type}.
Implicit Types w : world ARC ARCReplData X.

Lemma reset_policy_wf p set t p' l :
  arc_wf p -> 0 <= set < max_sets -> reset_policy p set t = Ok (p', l) ->
  arc_wf p' /\ (l = 1 \/ l = 2).
Proof.
  intros Hwf Hset H. pose proof (reset_policy_refines p set t Hwf Hset) as R.
  destruct (spec_insert (view p set) t) as [[a l']|] eqn:E; [|congruence].
  destruct R as (p0 & H0 & Hwf0 & _). rewrite H in H0. injection H0 as -> ->.
  split; [done|]. unfold spec_insert in E.
  repeat case_match; simplify_eq; auto.
Qed.

Lemma arc_update_frame w w' r :
  rp_update r w w' -> frame w w' /\ (forall r', r' <> r -> rds w' !! r' = rds w !! r').
Proof.
  intros [H|H|H]; simpl in H.
  - destruct (touch_Ok_inv _ _ _ _ H) as [rd Hr]. rewrite (touch_run w r rd Hr) in H.
    injection H as <-. split; [by apply frame_put|]. intros; simpl. by rewrite lookup_insert_ne.
  - apply reset_Ok_inv in H as (rd & e & o & p & l & Hr & He & Ho & _ & ->).
    unfold after_reset. rewrite <- He. split.
    + etrans; [by apply frame_put|]. done.
    + intros; simpl. by rewrite lookup_insert_ne.
  - destruct (invalidate_Ok_inv _ _ _ _ H) as [rd Hr]. rewrite (invalidate_run w r rd Hr) in H.
    injection H as <-. split; [by apply frame_put|]. intros; simpl. by rewrite lookup_insert_ne.
Qed.

Lemma rp_data_put w r x d : rp_data (set_rds (<[r := mkReplacementData x d]> (rds w)) w) = <[r := d]> (rp_data w).
Proof. unfold rp_data. simpl. by rewrite fmap_insert. Qed.

Lemma arc_update_inv w w' r :
  sets_bounded w -> arc_inv (policy w) (rp_data w) -> rp_update r w w' ->
  arc_inv (policy w') (rp_data w').
Proof.
  intros HB [Hwf HL] [H|H|H]; simpl in H.
  - destruct (touch_Ok_inv _ _ _ _ H) as [rd Hr]. rewrite (touch_run w r rd Hr) in H.
    injection H as <-. split; [done|]. rewrite rp_data_put. apply map_Forall_insert_2; [|done].
    pose proof (HL _ _ (rp_data_lookup _ _ _ Hr)) as [L|L]; unfold list_ok in *; simpl; rewrite L; auto.
  - apply reset_Ok_inv in H as (rd & e & o & p & l & Hr & He & Ho & HP & ->).
    pose proof (HB _ _ Ho) as Bo. cbv beta in Bo. rewrite (i32_index _ Bo) in HP.
    destruct (reset_policy_wf _ _ _ _ _ Hwf Bo HP) as [Hwf' Hl].
    split; [done|]. unfold after_reset, set_policy, rp_data in *. simpl. rewrite fmap_insert.
    by apply map_Forall_insert_2.
  - destruct (invalidate_Ok_inv _ _ _ _ H) as [rd Hr]. rewrite (invalidate_run w r rd Hr) in H.
    injection H as <-. split; [done|]. rewrite rp_data_put. apply map_Forall_insert_2; [|done].
    exact (HL _ _ (rp_data_lookup _ _ _ Hr)).
Qed.

Lemma arc_reset_live w w' r :
  reset r w = Ok (tt, w') -> exists d, rp_data w' !! r = Some d /\ valid d = true.
Proof.
  intros (rd & e & o & p & l & Hr & He & Ho & _ & ->)%reset_Ok_inv.
  unfold rp_data, after_reset. simpl. rewrite fmap_insert, lookup_insert_eq. eauto.
Qed.

Lemma arc_touch_live w w' r d :
  touch r w = Ok (tt, w') -> rp_data w !! r = Some d -> valid d = true ->
  exists d', rp_data w' !! r = Some d' /\ valid d' = true.
Proof.
  intros H Hd V. destruct (touch_Ok_inv _ _ _ _ H) as [rd Hr]. rewrite (touch_run w r rd Hr) in H.
  injection H as <-. rewrite rp_data_put, lookup_insert_eq. eexists. split; [done|].
  rewrite (rp_data_lookup _ _ _ Hr) in Hd. injection Hd as ->. done.
Qed.

Lemma arc_victim_frame w w' cands v :
  getVictim cands w = Ok (v, w') ->
  frame w w' /\ (forall e, v = Some e -> e ∈ cands) /\
  (forall r d, rp_data w !! r = Some d -> valid d = true ->
     exists d', rp_data w' !! r = Some d' /\ valid d' = true).
Proof. intros [[p ->] He]%getVictim_Ok_inv. split_and!; [done..|]. eauto. Qed.

Lemma arc_victim_ok w cands ds :
  sets_bounded w -> arc_inv (policy w) (rp_data w) -> cands <> [] -> cands_data w cands ds ->
  exists v w', getVictim cands w = Ok (v, w') /\ arc_inv (policy w') (rp_data w') /\
    (v = None <-> Forall (fun d => valid d = false) ds).
Proof.
  intros HB [Hwf HL] Hne HD. destruct (cands_ok_zip _ _ _ HD) as (HC & E1 & E2).
  destruct HD as [|e0 d0 cands ds He0 HD]; [done|].
  change (zip (e0 :: cands) (d0 :: ds)) with ((e0, d0) :: zip cands ds) in HC, E1, E2.
  pose proof He0 as (o & r & rd & Ho & _)%cand_data_Some. pose proof (HB _ _ Ho) as Bo. cbv beta in Bo.
  destruct (getVictim_run w e0 d0 (zip cands ds) o Hwf HC Ho Bo) as (p1 & _ & Hwf1 & Hn & Hrun).
  rewrite E1 in Hrun. rewrite Hrun.
  destruct (spec_victim _ _ _) as [[e d]|] eqn:Hv; eexists _, _; (split; [done|]).
  - split; [split; [simpl; apply upd_ghost_wf; [done|]; apply push_capped_size, ghost_at_bound; [done|lia]|done]|].
    split; [done|]. rewrite <- E2, Forall_fmap, Forall_forall. intros HF.
    specialize (HF _ (spec_victim_elem _ _ _ _ Hv)). cbn in HF. by rewrite (spec_victim_valid _ _ _ _ _ Hv) in HF.
  - split; [done|]. split; [intros _|done]. unfold spec_victim in Hv. destruct (oldest _ _ _ _); [done|].
    apply first_valid_None in Hv. rewrite <- E2. by apply Forall_fmap.
Qed.

Lemma arc_victim_some w cands ds :
  sets_bounded w -> arc_inv (policy w) (rp_data w) ->
  cands <> [] -> cands_data w cands ds -> Forall (fun d => valid d = true) ds ->
  exists e w', getVictim cands w = Ok (Some e, w') /\ arc_inv (policy w') (rp_data w').
Proof.
  intros HB HI Hne HD HV. destruct (arc_victim_ok w cands ds HB HI Hne HD) as ([e|] & w' & E & HI' & HN); [eauto|].
  apply proj1 in HN. specialize (HN eq_refl). destruct HD as [|e0 d0 cands ds He0 HD]; [done|]. inversion HV. inversion HN. congruence.
Qed.

End LawProofs.

#[global] Instance ARC_laws : ReplacementPolicyLaws ARC ARCReplData.
Proof.
  refine {| rp_live := valid; rp_inv := arc_inv |}.
  - intros X. apply arc_update_frame.
  - intros X. apply arc_update_inv.
  - intros X. apply arc_reset_live.
  - intros X. apply arc_touch_live.
  - intros X w r [rd Hr]. eexists. by apply touch_run.
  - intros X w r [rd Hr]. eexists. by apply invalidate_run.
  - intros X. apply arc_victim_frame.
  - intros X. apply arc_victim_some.
  - intros X w cands ds HB HI Hne HD. destruct (arc_victim_ok w cands ds HB HI Hne HD) as (v & w' & E & HI' & _). eauto.
  - intros p p' m d r [Hwf Hm] [= <- <-] _. split; [done|].
    apply map_Forall_insert_2; [by left|done].
Defined.

(** ** Runs of the policy *)

(** A step is a call of the policy, the creation of replacement data, or
    something its caller does to entries, positions and the clock. *)
Inductive arc_step {X} (w : world ARC ARCReplData X) : world ARC ARCReplData X -> Prop :=
| S_update r w' : rp_update r w w' -> arc_step w w'
| S_victim cands v w' : getVictim cands w = Ok (v, w') -> arc_step w w'
| S_instantiate d p r w' :
    instantiateEntry (policy w) = Ok (d, p) ->
    alloc_rd d (set_policy p w) = Ok (r, w') -> arc_step w w'
| S_position e set way w' :
    0 <= set < max_sets -> setPosition e set way w = Ok (tt, w') -> arc_step w w'
| S_entries m : sets_bounded (set_entries m w) -> arc_step w (set_entries m w)
| S_tick t : arc_step w (mkWorld (policy w) (entries w) (rds w) t).

Definition arc_init {X} : world ARC ARCReplData X := mkWorld new_ARC ∅ ∅ 0.

Definition arc_reachable {X} (w : world ARC ARCReplData X) : Prop := rtc arc_step arc_init w.

Section Reach.
Context {X : Type}.
Implicit Types w : world ARC ARCReplData X.

Lemma count_Ok_inv w cands c c' w' :
  foreach cands count_body c w = Ok (c', w') -> exists ds, cands_data w cands ds.
Proof.
  revert c. induction cands as [|e cands IH]; intros c H; [exists []; constructor|].
  simpl in H. inv_ok H. unfold count_body in Hrun. inv_ok Hrun.
  apply cand_get_Ok_inv in Hrun0 as [Hd ->]. injection Hrun as <- <-.
  destruct (IH _ H) as [ds Hds]. eexists (_ :: ds). by constructor.
Qed.

Lemma getVictim_cands w cands v w' :
  getVictim cands w = Ok (v, w') -> exists ds, cands_data w cands ds.
Proof.
  unfold getVictim. destruct cands as [|c0 cands]; intros H; [exists []; constructor|].
  inv_ok H. unfold getSet in Hrun. inv_ok Hrun.
  match goal with H1 : deref_entry _ _ = Ok _ |- _ => apply deref_entry_Ok_inv in H1 as [_ ->] end.
  injection Hrun as <- <-.
  match goal with H1 : on_policy_ _ _ = Ok _ |- _ => apply on_policy__Ok_inv in H1 as (p & _ & ->) end.
  match goal with H1 : foreach _ count_body _ _ = Ok _ |- _ => exact (count_Ok_inv _ _ _ _ _ H1) end.
Qed.

(** [getVictim] as one step on the policy object. *)
Lemma getVictim_step w c0 cands v w' :
  arc_wf (policy w) -> sets_bounded w -> getVictim (c0 :: cands) w = Ok (v, w') ->
  exists o cd, entries w !! c0 = Some o /\ cd.*1 = c0 :: cands /\ cands_ok w cd /\
    let set := _set (base o) in
    let victim := spec_victim (target_at (policy w) set) (curTick w) cd in
    v = fst <$> victim /\ w' = set_policy (policy w') w /\ arc_wf (policy w') /\
    others_same (policy w) (policy w') set /\
    exists p1, ensureSet (policy w) set = Ok p1 /\
    view (policy w') set =
      match victim with
      | Some (_, d) => spec_evict (nsets p1) (view (policy w) set) d
      | None => view (policy w) set
      end.
Proof.
  intros Hwf HB H. destruct (getVictim_cands _ _ _ _ H) as [ds HD].
  destruct (cands_ok_zip _ _ _ HD) as (HC & E1 & _).
  inversion HD as [|? d0 ? ds' He0 HD']; subst.
  pose proof He0 as (o & r & rd & Ho & _)%cand_data_Some. pose proof (HB _ _ Ho) as Bo. cbv beta in Bo.
  exists o, (zip (c0 :: cands) (d0 :: ds')). split_and!; [done..|].
  change (zip (c0 :: cands) (d0 :: ds')) with ((c0, d0) :: zip cands ds') in HC, E1 |- *.
  destruct (getVictim_run w c0 d0 (zip cands ds') o Hwf HC Ho Bo) as (p1 & Hp1 & Hwf1 & Hn & Hrun).
  rewrite E1, H in Hrun.
  assert (forall s, view p1 s = view (policy w) s) as V by (intros; by eapply view_ensureSet).
  cbv zeta in Hrun |- *.
  destruct (spec_victim _ _ _) as [[e d]|]; injection Hrun as -> ->; simpl.
  - split_and!; [done|done| | |].
    + apply upd_ghost_wf; [done|]. apply push_capped_size, ghost_at_bound; [done|lia].
    + intros s Hs Hne. rewrite view_upd_ghost by (done || lia).
      by rewrite decide_False, V.
    + exists p1. split; [done|]. rewrite view_upd_ghost by (done || lia).
      rewrite decide_True by done. rewrite <- (V (_set (base o))). unfold spec_evict.
      simpl. by destruct (listId d =? 1).
  - split_and!; [done|done|done| |]; [intros s _ _; apply V|]. exists p1. split; [done|apply V].
Qed.

Lemma setPosition_frame w e set way w' :
  setPosition e set way w = Ok (tt, w') ->
  policy w' = policy w /\ rp_data w' = rp_data w /\
  exists o, entries w !! e = Some o /\
    entries w' = <[e := mkObject (mkReplaceableEntry set way (replacementData (base o))) (ext o)]> (entries w).
Proof.
  unfold setPosition. intros H. apply bind_Ok_inv in H as (o & s & H1 & H).
  apply deref_entry_Ok_inv in H1 as [Ho ->].
  apply bind_Ok_inv in H as ([] & s & H1 & H). injection H1 as <-.
  destruct (replacementData (base o)) as [r|] eqn:Er.
  - apply bind_Ok_inv in H as (rd & s & H1 & H). apply deref_rd_Ok_inv in H1 as [Hrd ->].
    injection H as <-. simpl in *. split_and!; [done| |by exists o; rewrite Er].
    unfold rp_data. simpl. rewrite fmap_insert. simpl. apply insert_id.
    by rewrite lookup_fmap, Hrd.
  - injection H as <-. simpl. split_and!; [done..|]. exists o. by rewrite Er.
Qed.

Lemma alloc_rd_frame w d r w' :
  alloc_rd d w = Ok (r, w') ->
  policy w' = policy w /\ entries w' = entries w /\ rds w !! r = None /\
  rds w' = <[r := mkReplacementData Uninit d]> (rds w).
Proof.
  unfold alloc_rd. intros H. apply bind_Ok_inv in H as (w0 & s & H1 & H). injection H1 as <- <-.
  apply bind_Ok_inv in H as ([] & s & H1 & H). injection H1 as <-. injection H as <- <-.
  split_and!; [done..| |done]. apply not_elem_of_dom. apply is_fresh.
Qed.

End Reach.

(** The same steps as commands that run, for concrete executions. *)
Inductive arc_cmd :=
| CTouch (r : loc) | CReset (r : loc) | CInvalidate (r : loc)
| CVictim (cands : list loc) | CInstantiate
| CPosition (e : loc) (set way : Z)
| CNewEntry (e : loc) (r : option loc)
| CTick (t : Z).

Definition arc_exec (c : arc_cmd) (w : world ARC ARCReplData unit) :
    outcome (world ARC ARCReplData unit) :=
  match c with
  | CTouch r => let? x := touch r w in Ok x.2
  | CReset r => let? x := reset r w in Ok x.2
  | CInvalidate r => let? x := invalidate r w in Ok x.2
  | CVictim cands => let? x := getVictim cands w in Ok x.2
  | CInstantiate =>
      let? dp := instantiateEntry (policy w) in
      let? x := alloc_rd dp.1 (set_policy dp.2 w) in Ok x.2
  | CPosition e set way =>
      let? _ := ocheck (bool_decide (0 <= set < max_sets)) AssertFailed in
      let? x := setPosition e set way w in Ok x.2
  | CNewEntry e r =>
      let w' := set_entries (<[e := mkObject (mkReplaceableEntry 0 0 r) tt]> (entries w)) w in
      let? _ := ocheck (bool_decide (sets_bounded w')) AssertFailed in Ok w'
  | CTick t => Ok (mkWorld (policy w) (entries w) (rds w) t)
  end.

Fixpoint arc_run (cs : list arc_cmd) (w : world ARC ARCReplData unit) :
    outcome (world ARC ARCReplData unit) :=
  match cs with
  | [] => Ok w
  | c :: cs' => let? w' := arc_exec c w in arc_run cs' w'
  end.

Lemma arc_exec_step c w w' : arc_exec c w = Ok w' -> arc_step w w'.
Proof.
  destruct c; simpl; intros H; inv_ok H;
    repeat match goal with
    | H : ocheck _ _ = Ok _ |- _ => apply ocheck_Ok_inv, bool_decide_eq_true in H
    | a : (unit * _)%type |- _ => destruct a as [[] a]
    | a : (_ * _)%type |- _ => destruct a
    end; simpl in *; simplify_eq.
  - by eapply S_update, upd_touch.
  - by eapply S_update, upd_reset.
  - by eapply S_update, upd_invalidate.
  - by eapply S_victim.
  - by apply (S_instantiate _ new_ARCReplData (policy w) (fresh (dom (rds w)))).
  - by eapply S_position.
  - by eapply S_entries.
  - by eapply S_tick.
Qed.

Lemma arc_run_reachable cs w w' : arc_run cs w = Ok w' -> rtc arc_step w w'.
Proof.
  revert w. induction cs as [|c cs IH]; simpl; intros w H; [by injection H as ->|].
  inv_ok H. eapply rtc_l; [by eapply arc_exec_step|]. by apply IH.
Qed.

(** Tags and ghost entries stay what the constructors made them. *)
Definition zero_tags {X} (w : world ARC ARCReplData X) : Prop :=
  map_Forall (fun _ d => tag d = 0) (rp_data w) /\
  forall s, 0 <= s -> Forall (eq 0) (ghost_at (policy w) true s) /\
                      Forall (eq 0) (ghost_at (policy w) false s).

Definition arc_good {X} (w : world ARC ARCReplData X) : Prop :=
  arc_inv (policy w) (rp_data w) /\ sets_bounded w /\ zero_tags w.

Lemma spec_insert_zero a t a' l :
  spec_insert a t = Ok (a', l) -> Forall (eq 0) (a_b1 a) -> Forall (eq 0) (a_b2 a) ->
  Forall (eq 0) (a_b1 a') /\ Forall (eq 0) (a_b2 a').
Proof.
  unfold spec_insert. intros H H1 H2.
  destruct (erase_first t (a_b1 a)) as [k|] eqn:E1; [|destruct (erase_first t (a_b2 a)) as [k|] eqn:E2].
  - apply erase_first_Some in E1 as (k1 & k2 & E & -> & _). case_match; [done|].
    injection H as <- <-. simpl. rewrite E in H1. decompose_Forall_hyps.
    split; [by apply Forall_app|done].
  - apply erase_first_Some in E2 as (k1 & k2 & E & -> & _). case_match; [done|].
    injection H as <- <-. simpl. rewrite E in H2. decompose_Forall_hyps.
    split; [done|by apply Forall_app].
  - by injection H as <- <-.
Qed.

Lemma push_capped_zero cap l t : Forall (eq 0) l -> t = 0 -> Forall (eq 0) (push_capped cap l t).
Proof.
  intros Hl ->. assert (Forall (eq 0) (l ++ [0])) as H by (apply Forall_app; auto).
  unfold push_capped. case_match; [|done]. destruct (l ++ [0]); [done|]. by inversion H.
Qed.

Section GoodSteps.
Context {X : Type}.
Implicit Types w : world ARC ARCReplData X.

Lemma good_update w w' r : arc_good w -> rp_update r w w' -> arc_good w'.
Proof.
  intros (Hinv & HB & HZ & HG) Hu.
  destruct (arc_update_frame _ _ _ Hu) as [(HE & _) _]. split; [by eapply arc_update_inv|].
  split; [unfold sets_bounded; by rewrite HE|].
  destruct Hu as [H|H|H]; simpl in H.
  - destruct (touch_Ok_inv _ _ _ _ H) as [rd Hr]. rewrite (touch_run w r rd Hr) in H.
    injection H as <-. split; [|done]. rewrite rp_data_put. apply map_Forall_insert_2; [|done].
    exact (HZ _ _ (rp_data_lookup _ _ _ Hr)).
  - apply reset_Ok_inv in H as (rd & e & o & p & l & Hr & He & Ho & HP & ->).
    pose proof (HB _ _ Ho) as Bo. cbv beta in Bo. rewrite (i32_index _ Bo) in HP.
    destruct Hinv as [Hwf _].
    pose proof (reset_policy_refines (policy w) _ (tag (data rd)) Hwf Bo) as R.
    destruct (spec_insert _ _) as [[a l']|] eqn:E; [|congruence].
    destruct R as (p' & HP' & _ & HV & HO). rewrite HP in HP'. injection HP' as -> ->.
    split.
    + unfold after_reset, set_policy, rp_data in *. simpl. rewrite fmap_insert.
      apply map_Forall_insert_2; [|done]. exact (HZ _ _ (rp_data_lookup _ _ _ Hr)).
    + intros s Hs. change (policy (after_reset _ _ _ _ _ _)) with p'.
      destruct (decide (s = _set (base o))) as [->|Hne].
      * destruct (HG _ Hs). rewrite <- HV in E.
        by destruct (spec_insert_zero _ _ _ _ E).
      * pose proof (HO s Hs Hne) as V. unfold view in V. injection V as _ -> ->. by apply HG.
  - destruct (invalidate_Ok_inv _ _ _ _ H) as [rd Hr]. rewrite (invalidate_run w r rd Hr) in H.
    injection H as <-. split; [|done]. rewrite rp_data_put. apply map_Forall_insert_2; [|done].
    exact (HZ _ _ (rp_data_lookup _ _ _ Hr)).
Qed.

Lemma good_victim w cands v w' :
  arc_good w -> getVictim cands w = Ok (v, w') -> arc_good w'.
Proof.
  intros (Hinv & HB & HZ & HG) H. destruct cands as [|c0 cands].
  { by injection H as <- <-. }
  destruct (getVictim_step w c0 cands v w' (proj1 Hinv) HB H)
    as (o & cd & Ho & Hc & HC & _ & Hw & Hwf & HO & p1 & _ & HV).
  cbv zeta in *. destruct w' as [p' es rs t]. simpl in *. injection Hw as -> -> ->.
  split; [split; [done|apply Hinv]|].
  split; [done|]. split; [done|]. intros s Hs. simpl.
  destruct (decide (s = _set (base o))) as [->|Hne].
  - destruct (HG _ Hs) as [G1 G2]. unfold view in HV. simpl in HV.
    destruct (spec_victim _ _ cd) as [[e d]|] eqn:Ev; [|by injection HV as _ -> ->].
    assert (tag d = 0) as T.
    { apply spec_victim_elem in Ev. pose proof (proj1 (Forall_forall _ _) HC _ Ev) as Hd.
      apply cand_data_Some in Hd as (? & r & rd & _ & _ & Hr & E). simpl in E. subst d.
      exact (HZ _ _ (rp_data_lookup _ _ _ Hr)). }
    unfold spec_evict in HV. simpl in HV.
    destruct (listId d =? 1); injection HV as _ -> ->; auto using push_capped_zero.
  - pose proof (HO s Hs Hne) as V. unfold view in V. injection V as _ -> ->. by apply HG.
Qed.

Lemma good_step w w' : arc_good w -> arc_step w w' -> arc_good w'.
Proof.
  intros HG [r w1 Hu|cands v w1 Hv|d p r w1 Hi Ha|e set way w1 Hset Hp|m Hm|t].
  - by eapply good_update.
  - by eapply good_victim.
  - injection Hi as <- <-. apply alloc_rd_frame in Ha as (HP & HE & Hn & HR).
    destruct HG as ([Hwf HL] & HB & HZ & HGh). unfold arc_good, sets_bounded, zero_tags, rp_data in *.
    rewrite HP, HE, HR, fmap_insert.
    split_and!; [split; [done|]|done| |done];
      (apply map_Forall_insert_2; [|done]); [by left|done].
  - apply setPosition_frame in Hp as (HP & HD & o & Ho & HE).
    destruct HG as (Hinv & HB & HZ & HGh). unfold arc_good, zero_tags. rewrite HP, HD.
    split_and!; [done| |done|done]. unfold sets_bounded. rewrite HE.
    by apply map_Forall_insert_2.
  - destruct HG as (Hinv & HB & HZ). by split_and!.
  - done.
Qed.

Lemma reachable_good w : arc_reachable w -> arc_good w.
Proof.
  intros H. unfold arc_reachable in H.
  assert (arc_good (@arc_init X)) as H0.
  { unfold arc_good, arc_inv, sets_bounded, zero_tags, rp_data. simpl. rewrite fmap_empty.
    split_and!; try apply map_Forall_empty.
    - constructor; try done; unfold max_sets, nsets, vsize; simpl; lia.
    - intros s _. by split; constructor. }
  induction H as [|w1 w2 w3 Hs _ IH]; [done|]. apply IH. by eapply good_step.
Qed.

End GoodSteps.

(** ** Properties *)

(** C9 (invariant). Every state the policy can reach, by any interleaving of
    its operations with the caches' own updates, keeps the three per-set
    vectors at one length, every ghost list no longer than the number of sets
    seen so far, every target between zero and twice that number, and every
    block in T1 or in T2.  The bound on the ghost lists is the code's, and
    diverges from the comment at [arc_rp.cc:96], which says that they are capped
    to the associativity: no such bound holds. *)
Theorem arc_reachable_invariant {X} (w : world ARC ARCReplData X) :
  arc_reachable w -> arc_inv (policy w) (rp_data w).
Proof. intros H. by destruct (reachable_good w H). Qed.

(** C1 (refinement). On linked data, [reset] does to the block's set what the
    abstract insertion does - remove the tag from B1 or B2 and move the target,
    or leave the lists alone - and to no other set; the block gets the current
    tick, is valid, and goes to the list the abstract insertion names.  It
    stops exactly when the abstract insertion divides by zero.  The set index of
    the block is below [max_sets], 2^29. *)
Theorem reset_refines {X} (w : world ARC ARCReplData X) r rd e o :
  arc_wf (policy w) -> rds w !! r = Some rd -> entry rd = Ptr e -> entries w !! e = Some o ->
  0 <= _set (base o) < max_sets ->
  match spec_insert (view (policy w) (_set (base o))) (tag (data rd)) with
  | Ok (a, l) =>
      exists p', reset r w = Ok (tt, after_reset w r e p' l (tag (data rd))) /\ arc_wf p' /\
        view p' (_set (base o)) = a /\ others_same (policy w) p' (_set (base o))
  | Fault f => reset r w = Fault f
  end.
Proof.
  intros Hwf Hr He Ho Bo. rewrite (reset_run w r rd e o Hr He Ho), (i32_index _ Bo).
  pose proof (reset_policy_refines (policy w) _ (tag (data rd)) Hwf Bo) as R.
  destruct (spec_insert _ _) as [[a l]|f]; [|by rewrite R].
  destruct R as (p' & -> & R). by exists p'.
Qed.

(** C7 (functional). When every valid candidate was touched before the current
    tick, [getVictim] evicts from T1 if T1 is above its target or T2 is empty,
    from T2 otherwise, and in that list takes the least recently touched block,
    the first one among equals. *)
Theorem getVictim_lru {X} (w : world ARC ARCReplData X) c0 cands ds o :
  arc_inv (policy w) (rp_data w) -> sets_bounded w ->
  cands_data w (c0 :: cands) ds -> entries w !! c0 = Some o ->
  Exists (fun d => valid d = true) ds ->
  Forall (fun d => valid d = true -> lastTouchTick d < curTick w) ds ->
  exists i e d w', getVictim (c0 :: cands) w = Ok (Some e, w') /\
    (c0 :: cands) !! i = Some e /\ ds !! i = Some d /\ valid d = true /\
    listId d = (if evict_T1 (target_at (policy w) (_set (base o))) ds then 1 else 2) /\
    forall j d', ds !! j = Some d' -> valid d' = true -> listId d' = listId d ->
      lastTouchTick d <= lastTouchTick d' /\ ((j < i)%nat -> lastTouchTick d < lastTouchTick d').
Proof.
  intros [Hwf HL] HB HD Ho HV HT. pose proof (HB _ _ Ho) as Bo. cbv beta in Bo.
  destruct (cands_ok_zip _ _ _ HD) as (HC & E1 & E2).
  inversion HD as [|? d0 ? ds' He0 HD']; subst ds.
  change (zip (c0 :: cands) (d0 :: ds')) with ((c0, d0) :: zip cands ds') in HC, E1, E2.
  destruct (getVictim_run w c0 d0 (zip cands ds') o Hwf HC Ho Bo) as (p1 & Hp1 & Hwf1 & Hn & Hrun).
  assert (target_at p1 (_set (base o)) = target_at (policy w) (_set (base o))) as ET.
  { pose proof (view_ensureSet _ _ _ (_set (base o)) Hwf Bo Hp1) as V. by injection V. }
  destruct (spec_victim_lru (target_at (policy w) (_set (base o))) (curTick w)
    ((c0, d0) :: zip cands ds')) as (i & e & d & Hv & Hi & V & L & Hmin).
  - rewrite <- ET. apply target_at_bound; [done|lia].
  - rewrite E2. apply Forall_forall. intros d Hd.
    apply list_elem_of_lookup in Hd as (k & Hk).
    destruct (Forall2_lookup_r _ _ _ _ _ HD Hk) as (e & _ & He).
    apply cand_data_Some in He as (? & r & rd & _ & _ & Hr & <-).
    exact (HL _ _ (rp_data_lookup _ _ _ Hr)).
  - by rewrite E2.
  - by rewrite E2.
  - cbv zeta in Hrun. rewrite Hv, E1 in Hrun. rewrite E2 in L.
    assert (forall k e' d', ((c0, d0) :: zip cands ds') !! k = Some (e', d') ->
      (c0 :: cands) !! k = Some e' /\ (d0 :: ds') !! k = Some d') as Hlk.
    { intros k e' d' Hk. rewrite <- E1, <- E2, !list_lookup_fmap, Hk. done. }
    destruct (Hlk _ _ _ Hi) as [Hie Hid].
    eexists i, e, d, _. split_and!; [exact Hrun|done..|].
    intros j d' Hj V' L'.
    destruct (Forall2_lookup_r _ _ _ _ _ HD Hj) as (e' & Hje & _).
    apply (Hmin j e' d'); [|done|done].
    destruct ((zip (c0 :: cands) (d0 :: ds')) !! j) as [[e2 d2]|] eqn:Ej.
    + destruct (Hlk _ _ _ Ej). change ((c0, d0) :: zip cands ds') with (zip (c0 :: cands) (d0 :: ds')). congruence.
    + apply lookup_ge_None in Ej. apply lookup_lt_Some in Hj. rewrite <- E2, length_fmap in Hj. simpl in *. lia.
Qed.

(** C8 (safety). [getVictim] on entries with data never stops; it returns null
    exactly when no candidate is valid; otherwise it returns a candidate and
    appends its tag to the ghost list of the list it was in, dropping the
    oldest tag when the list is longer than the number of sets seen so far.  No
    other set, no entry and no replacement data changes.  The cap diverges from
    the comment at [arc_rp.cc:96], which says that it is the associativity of the
    cache, [candidates.size()]: the number of candidates plays no part.  The
    null pointer diverges from [base.hh], which documents invalidated entries as
    the next probable victims. *)
Theorem getVictim_evicts {X} (w : world ARC ARCReplData X) c0 cands ds o :
  arc_wf (policy w) -> sets_bounded w ->
  cands_data w (c0 :: cands) ds -> entries w !! c0 = Some o ->
  exists v p p1, getVictim (c0 :: cands) w = Ok (v, set_policy p w) /\
    (v = None <-> Forall (fun d => valid d = false) ds) /\
    arc_wf p /\ others_same (policy w) p (_set (base o)) /\
    ensureSet (policy w) (_set (base o)) = Ok p1 /\
    match v with
    | None => view p (_set (base o)) = view (policy w) (_set (base o))
    | Some e => exists i d, (c0 :: cands) !! i = Some e /\ ds !! i = Some d /\ valid d = true /\
        view p (_set (base o)) = spec_evict (nsets p1) (view (policy w) (_set (base o))) d
    end.
Proof.
  intros Hwf HB HD Ho. pose proof (HB _ _ Ho) as Bo. cbv beta in Bo.
  destruct (cands_ok_zip _ _ _ HD) as (HC & E1 & E2).
  inversion HD as [|? d0 ? ds' He0 HD']; subst ds.
  change (zip (c0 :: cands) (d0 :: ds')) with ((c0, d0) :: zip cands ds') in HC, E1, E2.
  destruct (getVictim_run w c0 d0 (zip cands ds') o Hwf HC Ho Bo) as (p0 & Hp0 & _ & _ & Hrun).
  assert (exists v w', getVictim (c0 :: cands) w = Ok (v, w')) as (v & w' & Hv).
  { rewrite E1 in Hrun. cbv zeta in Hrun. rewrite Hrun. destruct (spec_victim _ _ _) as [[]|]; eauto. }
  destruct (getVictim_step w c0 cands v w' Hwf HB Hv)
    as (o' & cd & Ho' & Hc & HC' & Ev' & Hw & Hwf' & HO & p1 & Hp1 & HV).
  cbv zeta in *. destruct w' as [p' es rs t]. simpl in *. injection Hw as -> -> ->. subst v.
  rewrite Ho in Ho'. injection Ho' as <-.
  assert (cd.*2 = d0 :: ds') as Ec by (eapply cands_ok_data; [done|by rewrite Hc]).
  eexists _, p', p1. split_and!; [exact Hv| |done|done|done|].
  - rewrite fmap_None, <- Ec, Forall_fmap. unfold spec_victim.
    split; intros HN.
    + destruct (oldest _ _ _ _); [done|]. by apply first_valid_None.
    + rewrite (oldest_none _ _ _ HN). by apply first_valid_None.
  - simpl in HV |- *. destruct (spec_victim _ _ cd) as [[e d]|] eqn:Ev; [|done]. simpl.
    pose proof (spec_victim_elem _ _ _ _ Ev) as (i & Hi)%list_elem_of_lookup_1.
    exists i, d. rewrite <- Hc, <- Ec, !list_lookup_fmap, Hi. split_and!; [done..| |done].
    by eapply spec_victim_valid.
Qed.

(** C10 (safety). No operation ever sets the tag of a block, so in every
    reachable state all tags are zero; once a set has evicted a block, the next
    [reset] in that set - whatever address it is for - is taken for a ghost hit:
    it puts the block in T2 or divides by zero, never in T1. *)
Theorem reset_after_eviction_always_hits {X} (w : world ARC ARCReplData X) r rd e o :
  arc_reachable w -> rds w !! r = Some rd -> entry rd = Ptr e -> entries w !! e = Some o ->
  ghost_at (policy w) true (_set (base o)) ++ ghost_at (policy w) false (_set (base o)) <> [] ->
  reset r w = Fault DivByZero \/
  exists w' rd', reset r w = Ok (tt, w') /\ rds w' !! r = Some rd' /\ listId (data rd') = 2.
Proof.
  intros HR Hr He Ho Hne. destruct (reachable_good w HR) as ([Hwf _] & HB & HZ & HG).
  pose proof (HB _ _ Ho) as Bo. cbv beta in Bo. destruct (HG (_set (base o))) as [G1 G2]; [lia|].
  pose proof (HZ _ _ (rp_data_lookup _ _ _ Hr)) as T. simpl in T.
  pose proof (reset_policy_refines (policy w) _ (tag (data rd)) Hwf Bo) as R.
  rewrite (reset_run w r rd e o Hr He Ho), (i32_index _ Bo).
  unfold spec_insert in R. cbn [view a_b1 a_b2 a_target] in R. rewrite T in *.
  destruct (ghost_at (policy w) true _) as [|z l1].
  - destruct (ghost_at (policy w) false _) as [|z l2]; [done|]. inversion G2; subst. simpl in R.
    destruct (_ && _); [left; by rewrite R|]. right.
    destruct R as (p' & -> & _). eexists _, _. split; [done|]. split; [apply lookup_insert_eq|done].
  - inversion G1; subst. simpl in R.
    destruct (_ && _); [left; by rewrite R|]. right.
    destruct R as (p' & -> & _). eexists _, _. split; [done|]. split; [apply lookup_insert_eq|done].
Qed.

(** Two blocks of set 0, inserted at ticks 10 and 20. *)
Definition demo_setup : list arc_cmd :=
  [CInstantiate; CInstantiate; CNewEntry 1 (Some 1%positive); CNewEntry 2 (Some 2%positive);
   CPosition 1 0 0; CPosition 2 0 1; CTick 10; CReset 1; CTick 20; CReset 2; CTick 30].

(** One eviction, then both blocks are hit, then another eviction. *)
Definition demo_evictions : list arc_cmd :=
  demo_setup ++ [CVictim [1%positive; 2%positive]; CTouch 1; CTouch 2; CTick 40;
                 CVictim [1%positive; 2%positive]].

Definition demo (cs : list arc_cmd) : world ARC ARCReplData unit :=
  match arc_run cs arc_init with Ok w => w | Fault _ => arc_init end.

Definition demo_rd (cs : list arc_cmd) (r : loc) : ReplacementData ARCReplData :=
  default (mkReplacementData Null new_ARCReplData) (rds (demo cs) !! r).
Definition demo_obj (cs : list arc_cmd) (e : loc) : object unit :=
  default (mkObject new_ReplaceableEntry tt) (entries (demo cs) !! e).

Lemma demo_reachable cs :
  (if arc_run cs arc_init is Ok _ then true else false) = true -> arc_reachable (demo cs).
Proof.
  unfold demo. destruct (arc_run cs arc_init) eqn:E; [|done]. intros _. by apply arc_run_reachable in E.
Qed.

(** ** How long ghost lists get *)




(** C11 (error). The division by zero in [adjustP] is reachable: after one
    eviction from T1 and one from T2, the next [reset] empties B1, finds B2 not
    empty, and divides by the size of B1. *)
Theorem adjustP_division_by_zero_reachable :
  exists (w : world ARC ARCReplData unit) r,
    arc_reachable w /\ sets_bounded w /\ reset r w = Fault DivByZero.
Proof.
  exists (demo demo_evictions), 1%positive.
  pose proof (demo_reachable demo_evictions ltac:(vm_compute; reflexivity)) as HR.
  split; [done|]. split; [by destruct (reachable_good _ HR) as (_ & ? & _)|].
  vm_compute. reflexivity.
Qed.

(** ** Witnesses *)
Lemma arc_reachable_invariant_witness :
  arc_inv (policy (demo demo_evictions)) (rp_data (demo demo_evictions)) /\
  policy (demo demo_evictions) = mkARC [0] [[0]] [[0]].
Proof.
  split; [|vm_compute; reflexivity].
  apply (arc_reachable_invariant (demo demo_evictions)).
  apply demo_reachable. vm_compute. reflexivity.
Defined.

(** One eviction, whose tag is still in B1. *)
Definition demo_ghost : list arc_cmd := demo_setup ++ [CVictim [1%positive; 2%positive]].

(** Block 1 of the three runs, in set 0, and what an insertion of its tag does. *)
Definition demo_insert (cs : list arc_cmd) (o : outcome (aset * Z)) : Prop :=
  (if arc_run cs arc_init is Ok _ then true else false) = true /\
  rds (demo cs) !! 1%positive = Some (demo_rd cs 1) /\ entry (demo_rd cs 1) = Ptr 1%positive /\
  entries (demo cs) !! 1%positive = Some (demo_obj cs 1) /\ _set (base (demo_obj cs 1)) = 0 /\
  tag (data (demo_rd cs 1)) = 0 /\ spec_insert (view (policy (demo cs)) 0) 0 = o.

Lemma demo_inserts :
  demo_insert demo_setup (Ok (mkASet 0 [] [], 1)) /\ demo_insert demo_ghost (Ok (mkASet 0 [] [], 2)) /\
  demo_insert demo_evictions (Fault DivByZero).
Proof. unfold demo_insert. split_and!; vm_compute; reflexivity. Qed.

Lemma reset_refines_witness :
  (exists p', reset 1 (demo demo_setup) = Ok (tt, after_reset (demo demo_setup) 1 1 p' 1 0) /\ arc_wf p' /\
     view p' 0 = mkASet 0 [] []) /\
  (exists p', reset 1 (demo demo_ghost) = Ok (tt, after_reset (demo demo_ghost) 1 1 p' 2 0) /\ arc_wf p' /\
     view p' 0 = mkASet 0 [] []) /\
  reset 1 (demo demo_evictions) = Fault DivByZero.
Proof.
  assert (forall cs o, demo_insert cs o -> match o with
    | Ok (a, l) => exists p', reset 1 (demo cs) = Ok (tt, after_reset (demo cs) 1 1 p' l 0) /\ arc_wf p' /\ view p' 0 = a
    | Fault f => reset 1 (demo cs) = Fault f
    end) as R.
  { intros cs o (HR & H1 & H2 & H3 & Hs & Ht & <-).
    pose proof (reset_refines (demo cs) 1%positive (demo_rd cs 1) 1%positive (demo_obj cs 1)
      ltac:(by apply reachable_good, demo_reachable) H1 H2 H3 ltac:(rewrite Hs; done)) as R.
    rewrite Hs, Ht in R. destruct (spec_insert _ _) as [[a l]|f]; [|done]. destruct R as (p' & ? & ? & ? & _). by exists p'. }
  destruct demo_inserts as (D1 & D2 & D3). exact (conj (R _ _ D1) (conj (R _ _ D2) (R _ _ D3))).
Defined.

Lemma demo_good cs :
  (if arc_run cs arc_init is Ok _ then true else false) = true -> arc_good (demo cs).
Proof. intros H. by apply reachable_good, demo_reachable. Qed.

Lemma cands_data_compute {X} (w : world ARC ARCReplData X) cands ds :
  mapM (cand_data w) cands = Some ds -> cands_data w cands ds.
Proof. apply mapM_Some_1. Qed.

Definition demo_datas (cs : list arc_cmd) : list ARCReplData :=
  [data (demo_rd cs 1); data (demo_rd cs 2)].

Lemma getVictim_lru_witness :
  exists e w', getVictim [1%positive; 2%positive] (demo demo_setup) = Ok (Some e, w').
Proof.
  destruct (demo_good demo_setup ltac:(vm_compute; reflexivity)) as (HI & HB & _).
  destruct (getVictim_lru (demo demo_setup) 1%positive [2%positive] (demo_datas demo_setup)
    (demo_obj demo_setup 1) HI HB) as (i & e & d & w' & H & _).
  - apply cands_data_compute. vm_compute. reflexivity.
  - vm_compute. reflexivity.
  - apply Exists_cons_hd. vm_compute. reflexivity.
  - constructor; [|constructor; [|constructor]]; intros _; vm_compute; reflexivity.
  - by exists e, w'.
Defined.

Lemma getVictim_evicts_witness :
  exists e p, getVictim [1%positive; 2%positive] (demo demo_setup) =
    Ok (Some e, set_policy p (demo demo_setup)).
Proof.
  destruct (demo_good demo_setup ltac:(vm_compute; reflexivity)) as ([Hwf _] & HB & _).
  destruct (getVictim_evicts (demo demo_setup) 1%positive [2%positive] (demo_datas demo_setup)
    (demo_obj demo_setup 1) Hwf HB) as (v & p & p1 & H & Hv & _).
  - apply cands_data_compute. vm_compute. reflexivity.
  - vm_compute. reflexivity.
  - destruct v as [e|]; [by exists e, p|]. exfalso.
    pose proof (proj1 Hv eq_refl) as HF. apply Forall_inv in HF.
    vm_compute in HF. discriminate.
Defined.

Lemma reset_after_eviction_always_hits_witness :
  let w := demo (demo_setup ++ [CVictim [1%positive; 2%positive]]) in
  reset 1 w = Fault DivByZero \/
  exists w' rd', reset 1 w = Ok (tt, w') /\ rds w' !! 1%positive = Some rd' /\
    listId (data rd') = 2.
Proof.
  set (cs := demo_setup ++ [CVictim [1%positive; 2%positive]]).
  refine (reset_after_eviction_always_hits (demo cs) 1%positive (demo_rd cs 1) 1%positive
    (demo_obj cs 1) (demo_reachable cs _) _ _ _ _); try (vm_compute; reflexivity).
  vm_compute. discriminate.
Defined.

