(* ===== verification/Bitfield.v ===== *)
(** The bit manipulation library of the simulator, [base/bitfield.hh] and
    [base/bitfield.cc], at [T = uint64_t] unless a width is an argument.

    Every function is given by what it computes on the bits: masks, field
    extraction and insertion, sign extension, the logarithmic searches for the
    highest and the lowest set bit, the parallel bit count, the rounding to a
    power of two and the byte-table bit reversal. *)
From Stdlib Require Import ZArith Lia Bool.
From stdpp Require Import base list.
From S2P Require Import Prelude.
Local Open Scope Z_scope.

(** ** Definitions *)

(** [~x] on [uint64_t]. *)
Definition lnot64 (x : Z) : Z := u64 (Z.lnot x).

(** [x >> n] and [x << n] on [uint64_t]: a count of 64 or more is undefined. *)
Definition shr64 (x n : Z) : outcome Z :=
  if (0 <=? n) && (n <? 64) then Ok (Z.shiftr x n) else Fault BadShift.
Definition shl64 (x n : Z) : outcome Z :=
  if (0 <=? n) && (n <? 64) then Ok (u64 (Z.shiftl x n)) else Fault BadShift.

Definition mask (nbits : Z) : Z :=
  if 64 <=? nbits then 2 ^ 64 - 1 else u64 (u64 (Z.shiftl 1 nbits) - 1).

Definition bits (val first last : Z) : outcome Z :=
  let? _ := ocheck (last <=? first) AssertFailed in
  let nbits := i32 (u32 (first - last + 1)) in
  let? s := shr64 val last in
  Ok (Z.land s (mask (u32 nbits))).

Definition bit (val b : Z) : outcome Z := bits val b b.

Definition mbits (val first last : Z) : Z :=
  Z.land val (Z.land (mask (u32 (first + 1))) (lnot64 (mask last))).

Definition mask2 (first last : Z) : Z := mbits (2 ^ 64 - 1) first last.

Definition sext (N val : Z) : outcome Z :=
  let? sign_bit := bit val (u32 (N - 1)) in
  Ok (if sign_bit =? 0 then val else Z.lor val (lnot64 (mask N))).

Definition szext (N val : Z) : outcome Z :=
  let? sign_bit := bit val (u32 (N - 1)) in
  Ok (if sign_bit =? 0 then Z.land val (mask N) else Z.lor val (lnot64 (mask N))).

Definition insertBits (val first last bit_val : Z) : outcome Z :=
  let? _ := ocheck (last <=? first) AssertFailed in
  let bmask := mask2 first last in
  let val := Z.land val (lnot64 bmask) in
  let? s := shl64 (u64 bit_val) last in
  Ok (Z.lor val (Z.land s bmask)).

Definition insertBit (val b bit_val : Z) : outcome Z := insertBits val b b bit_val.

Definition replaceBits (val first last bit_val : Z) : outcome Z :=
  insertBits val first last bit_val.

(** One halving of [findMsbSet]: [if (bits(val, first, last)) ...]. *)
Definition msb_step (first last k : Z) (s : Z * Z) : outcome (Z * Z) :=
  let? b := bits s.2 first last in
  Ok (if b =? 0 then s else (s.1 + k, Z.shiftr s.2 k)).

Definition findMsbSet (val : Z) : outcome Z :=
  if val =? 0 then Ok 0 else
  let? s := msb_step 63 32 32 (0, val) in
  let? s := msb_step 31 16 16 s in
  let? s := msb_step 15 8 8 s in
  let? s := msb_step 7 4 4 s in
  let? s := msb_step 3 2 2 s in
  let? b := bits s.2 1 1 in
  Ok (if b =? 0 then s.1 else s.1 + 1).

(** One halving of [findLsbSetFallback]: [if (!bits(val, first, 0)) ...]. *)
Definition lsb_step (first k : Z) (s : Z * Z) : outcome (Z * Z) :=
  let? b := bits s.2 first 0 in
  Ok (if b =? 0 then (s.1 + k, Z.shiftr s.2 k) else s).

Definition findLsbSetFallback (val : Z) : outcome Z :=
  if val =? 0 then Ok 64 else
  let? s := lsb_step 31 32 (0, val) in
  let? s := lsb_step 15 16 s in
  let? s := lsb_step 7 8 s in
  let? s := lsb_step 3 4 s in
  let? s := lsb_step 1 2 s in
  let? b := bits s.2 0 0 in
  Ok (if b =? 0 then s.1 + 1 else s.1).

(** [__builtin_ctz]: the number of zeros below the lowest set bit. *)
Fixpoint ctz_pos (p : positive) : Z :=
  match p with xO p' => 1 + ctz_pos p' | _ => 0 end.
Definition builtin_ctz (x : Z) : Z := match x with Zpos p => ctz_pos p | _ => 0 end.

(** [__builtin_popcountl]: the number of ones. *)
Fixpoint popcount_pos (p : positive) : Z :=
  match p with
  | xH => 1
  | xO p' => popcount_pos p'
  | xI p' => 1 + popcount_pos p'
  end.
Definition builtin_popcount (x : Z) : Z := match x with Zpos p => popcount_pos p | _ => 0 end.

(** [findLsbSet(uint64_t)], with the builtin ([has_ctz]) or with the fallback. *)
Definition findLsbSet (has_ctz : bool) (val : Z) : outcome Z :=
  if val =? 0 then Ok 64
  else if has_ctz then Ok (builtin_ctz val) else findLsbSetFallback val.

(** The [while] of [findLsbSet(std::bitset<N>)]: 64 bits at a time. *)
Fixpoint qword_loop (fuel : nat) (bs i : Z) : outcome (Z * Z) :=
  match fuel with
  | O => Fault OutOfFuel
  | S fuel' =>
      let nextQword := Z.land bs (2 ^ 64 - 1) in
      if nextQword =? 0 then qword_loop fuel' (Z.shiftr bs 64) (i + 64)
      else Ok (i, nextQword)
  end.

Definition findLsbSet_bitset (has_ctz : bool) (N bs : Z) : outcome Z :=
  if N <=? 64 then findLsbSet has_ctz bs
  else if bs =? 0 then Ok N
  else
    let? r := qword_loop (Z.to_nat N) bs 0 in
    let? k := findLsbSet has_ctz r.2 in
    Ok (r.1 + k).

(** The portable body of [popCount]; GNU compilers use the builtin. *)
Definition popCount_portable (val : Z) : Z :=
  let m1 := 0x5555555555555555 in
  let m2 := 0x3333333333333333 in
  let m4 := 0x0f0f0f0f0f0f0f0f in
  let sum := 0x0101010101010101 in
  let val := u64 (val - Z.land (Z.shiftr val 1) m1) in
  let val := u64 (Z.land val m2 + Z.land (Z.shiftr val 2) m2) in
  let val := Z.land (u64 (val + Z.shiftr val 4)) m4 in
  Z.shiftr (u64 (val * sum)) 56.

Definition popCount (gnu : bool) (val : Z) : Z :=
  if gnu then builtin_popcount val else popCount_portable val.

Definition alignToPowerOfTwo (val : Z) : Z :=
  let val := u64 (val - 1) in
  let val := Z.lor val (Z.shiftr val 1) in
  let val := Z.lor val (Z.shiftr val 2) in
  let val := Z.lor val (Z.shiftr val 4) in
  let val := Z.lor val (Z.shiftr val 8) in
  let val := Z.lor val (Z.shiftr val 16) in
  let val := Z.lor val (Z.shiftr val 32) in
  u64 (val + 1).

Definition ctz32 (value : Z) : Z := if value =? 0 then 32 else builtin_ctz value.
Definition ctz64 (value : Z) : Z := if value =? 0 then 64 else builtin_ctz value.
Definition clz32 (value : Z) : Z := if value =? 0 then 32 else 31 - Z.log2 value.
Definition clz64 (value : Z) : Z := if value =? 0 then 64 else 63 - Z.log2 value.

Definition reverseBitsLookUpTable : list Z :=
  [0; 128; 64; 192; 32; 160; 96; 224; 16; 144; 80; 208; 48; 176; 112; 240;
   8; 136; 72; 200; 40; 168; 104; 232; 24; 152; 88; 216; 56; 184; 120; 248;
   4; 132; 68; 196; 36; 164; 100; 228; 20; 148; 84; 212; 52; 180; 116; 244;
   12; 140; 76; 204; 44; 172; 108; 236; 28; 156; 92; 220; 60; 188; 124; 252;
   2; 130; 66; 194; 34; 162; 98; 226; 18; 146; 82; 210; 50; 178; 114; 242;
   10; 138; 74; 202; 42; 170; 106; 234; 26; 154; 90; 218; 58; 186; 122; 250;
   6; 134; 70; 198; 38; 166; 102; 230; 22; 150; 86; 214; 54; 182; 118; 246;
   14; 142; 78; 206; 46; 174; 110; 238; 30; 158; 94; 222; 62; 190; 126; 254;
   1; 129; 65; 193; 33; 161; 97; 225; 17; 145; 81; 209; 49; 177; 113; 241;
   9; 137; 73; 201; 41; 169; 105; 233; 25; 153; 89; 217; 57; 185; 121; 249;
   5; 133; 69; 197; 37; 165; 101; 229; 21; 149; 85; 213; 53; 181; 117; 245;
   13; 141; 77; 205; 45; 173; 109; 237; 29; 157; 93; 221; 61; 189; 125; 253;
   3; 131; 67; 195; 35; 163; 99; 227; 19; 147; 83; 211; 51; 179; 115; 243;
   11; 139; 75; 203; 43; 171; 107; 235; 27; 155; 91; 219; 59; 187; 123; 251;
   7; 135; 71; 199; 39; 167; 103; 231; 23; 151; 87; 215; 55; 183; 119; 247;
   15; 143; 79; 207; 47; 175; 111; 239; 31; 159; 95; 223; 63; 191; 127; 255].

(** The loop of [reverseBits] on a type of [w] bits. *)
Fixpoint reverse_loop (w : Z) (size : nat) (val output : Z) : outcome Z :=
  match size with
  | O => Ok output
  | S size' =>
      let? t := vget reverseBitsLookUpTable (Z.land val (mask 8)) in
      reverse_loop w size' (Z.shiftr val 8) (uwrap w (Z.lor (Z.shiftl output 8) t))
  end.

(** [reverseBits<T>(val, size)] with [sizeof(T) = bytes]. *)
Definition reverseBits (bytes : nat) (val : Z) (size : nat) : outcome Z :=
  let? _ := ocheck (size <=? bytes)%nat AssertFailed in
  if (bytes =? 1)%nat then vget reverseBitsLookUpTable val
  else reverse_loop (8 * Z.of_nat bytes) size val 0.

(** ** Masks and fields *)
Lemma mask_ones n : 0 <= n -> mask n = Z.ones (Z.min n 64).
Proof.
  intros Hn. unfold mask. rewrite Z.ones_equiv, <- Z.sub_1_r. destruct (Z.leb_spec 64 n).
  - by rewrite Z.min_r by lia.
  - rewrite Z.min_l, Z.shiftl_1_l by lia.
    assert (0 < 2 ^ n < 2 ^ 64) by (split; [apply Z.pow_pos_nonneg|apply Z.pow_lt_mono_r]; lia).
    rewrite (uwrap_small 64 (2 ^ n)) by lia. apply uwrap_small. lia.
Qed.

Lemma testbit_mask n i : 0 <= n -> 0 <= i -> Z.testbit (mask n) i = (i <? n) && (i <? 64).
Proof.
  intros Hn Hi. rewrite mask_ones by lia. rewrite Z.testbit_ones by lia.
  replace (0 <=? i) with true by lia. simpl. lia.
Qed.

Lemma mask_range n : 0 <= n -> 0 <= mask n < 2 ^ 64.
Proof.
  intros Hn. rewrite mask_ones, Z.ones_equiv by lia.
  assert (0 < 2 ^ Z.min n 64 <= 2 ^ 64); [|lia].
  split; [apply Z.pow_pos_nonneg|apply Z.pow_le_mono_r]; lia.
Qed.

Lemma testbit_lnot64 x i : 0 <= i -> Z.testbit (lnot64 x) i = (i <? 64) && negb (Z.testbit x i).
Proof. intros Hi. unfold lnot64. rewrite testbit_uwrap, Z.lnot_spec by lia. done. Qed.

Lemma testbit_mask2 first last i :
  0 <= last <= first -> first < 2 ^ 32 - 1 -> 0 <= i ->
  Z.testbit (mask2 first last) i = (last <=? i) && (i <=? first) && (i <? 64).
Proof.
  intros Hl Hf Hi. unfold mask2, mbits. rewrite uwrap_small by lia.
  rewrite !Z.land_spec, testbit_lnot64, !testbit_mask by lia.
  change (2 ^ 64 - 1) with (Z.ones 64). rewrite Z.testbit_ones by lia.
  destruct (Z.leb_spec 0 i), (Z.ltb_spec i 64), (Z.ltb_spec i (first + 1)), (Z.ltb_spec i last),
    (Z.leb_spec last i), (Z.leb_spec i first); simpl; try done; lia.
Qed.

Lemma shr64_Ok x n : 0 <= n < 64 -> shr64 x n = Ok (Z.shiftr x n).
Proof.
  intros Hn. unfold shr64. replace (0 <=? n) with true by lia.
  by replace (n <? 64) with true by lia.
Qed.

Lemma shl64_Ok x n : 0 <= n < 64 -> shl64 x n = Ok (u64 (Z.shiftl x n)).
Proof.
  intros Hn. unfold shl64. replace (0 <=? n) with true by lia.
  by replace (n <? 64) with true by lia.
Qed.

(** The field of [val] between two positions, as a number. *)
Definition field (val first last : Z) : Z := val / 2 ^ last mod 2 ^ (first - last + 1).

Lemma testbit_field val first last i :
  0 <= last <= first -> 0 <= i ->
  Z.testbit (field val first last) i = (i <=? first - last) && Z.testbit val (i + last).
Proof.
  intros H Hi. unfold field. change (?x mod 2 ^ ?w) with (uwrap w x).
  rewrite testbit_uwrap, Z.div_pow2_bits by lia.
  replace (i <? first - last + 1) with (i <=? first - last) by lia. done.
Qed.

Lemma bits_field val first last :
  0 <= val < 2 ^ 64 -> 0 <= last <= first -> last < 64 -> first < 2 ^ 31 - 1 ->
  bits val first last = Ok (field val first last).
Proof.
  intros Hv Hl Hl' Hf. unfold bits. replace (last <=? first) with true by lia.
  simpl obind. rewrite shr64_Ok by lia. simpl obind. f_equal.
  rewrite (uwrap_small 32 (first - last + 1)) by lia.
  rewrite (swrap_small 32), uwrap_small by lia.
  apply Z.bits_inj'. intros i Hi.
  rewrite Z.land_spec, Z.shiftr_spec, testbit_mask, testbit_field by lia.
  destruct (Z.ltb_spec i (first - last + 1)), (Z.leb_spec i (first - last)), (Z.ltb_spec i 64);
    try lia; simpl; try rewrite andb_true_r; try rewrite andb_false_r; try done.
  symmetry. apply (testbit_high 64); lia.
Qed.

Lemma field_range val first last : last <= first -> 0 <= field val first last < 2 ^ (first - last + 1).
Proof. intros. apply Z.mod_pos_bound, Z.pow_pos_nonneg; lia. Qed.

Lemma field_zero val first last :
  0 <= last <= first ->
  field val first last = 0 <-> forall i, last <= i <= first -> Z.testbit val i = false.
Proof.
  intros H. split.
  - intros E i Hi. pose proof (testbit_field val first last (i - last)) as T.
    rewrite E, Z.bits_0 in T. replace (i - last <=? first - last) with true in T by lia.
    replace (i - last + last) with i in T by lia. symmetry. apply T; lia.
  - intros HF. apply Z.bits_inj'. intros i Hi. rewrite testbit_field, Z.bits_0 by lia.
    destruct (Z.leb_spec i (first - last)); [|done]. apply HF. lia.
Qed.

(** Insertion, on the bits. *)
Lemma insertBits_spec val first last b :
  0 <= val < 2 ^ 64 -> 0 <= last <= first -> last < 64 -> first < 2 ^ 32 - 1 ->
  exists r, insertBits val first last b = Ok r /\ 0 <= r < 2 ^ 64 /\
    forall i, 0 <= i -> Z.testbit r i =
      if (last <=? i) && (i <=? first) && (i <? 64) then Z.testbit b (i - last) else Z.testbit val i.
Proof.
  intros Hv Hl Hl' Hf. unfold insertBits. replace (last <=? first) with true by lia.
  simpl obind. rewrite shl64_Ok by lia. simpl obind. eexists. split; [done|].
  assert (0 <= mask2 first last < 2 ^ 64) as Hm.
  { unfold mask2, mbits. apply land_bound; [lia|]. rewrite Z.land_nonneg. left. apply mask_range.
    apply uwrap_range. lia. }
  split.
  { apply lor_bound; [lia|apply land_bound; [lia|apply uwrap_range; lia]|].
    apply land_bound; [apply uwrap_range; lia|lia]. }
  intros i Hi. rewrite Z.lor_spec, !Z.land_spec, testbit_lnot64, testbit_mask2 by lia.
  rewrite (testbit_uwrap 64 (Z.shiftl _ _)), Z.shiftl_spec by lia.
  destruct (Z.leb_spec last i), (Z.leb_spec i first), (Z.ltb_spec i 64); simpl;
    rewrite ?andb_false_r, ?andb_true_r, ?orb_false_r; try done; try (symmetry; apply (testbit_high 64); lia).
  rewrite testbit_uwrap by lia. by replace (i - last <? 64) with true by lia.
Qed.

(** ** Searches *)

(** [k] is the position of the lowest set bit. *)
Definition lowest_set (val k : Z) : Prop :=
  0 <= k /\ Z.testbit val k = true /\ forall j, 0 <= j < k -> Z.testbit val j = false.

Lemma lowest_set_unique val k k' : lowest_set val k -> lowest_set val k' -> k = k'.
Proof.
  intros (H0 & H1 & H2) (H0' & H1' & H2').
  destruct (Z.lt_trichotomy k k') as [Hl|[->|Hl]]; [|done|].
  - rewrite (H2' k) in H1 by lia. done.
  - rewrite (H2 k') in H1' by lia. done.
Qed.

Lemma lowest_set_shift val n k :
  0 <= n -> (forall i, 0 <= i < n -> Z.testbit val i = false) ->
  lowest_set (Z.shiftr val n) k -> lowest_set val (n + k).
Proof.
  intros Hn HF (H0 & H1 & H2). rewrite Z.shiftr_spec in H1 by lia.
  split; [lia|]. split; [by rewrite Z.add_comm|].
  intros j Hj. destruct (Z.ltb_spec j n); [apply HF; lia|].
  specialize (H2 (j - n)). rewrite Z.shiftr_spec in H2 by lia.
  replace (j - n + n) with j in H2 by lia. apply H2. lia.
Qed.

(** After the test of the high half, [val] fits in the low half. *)
Lemma msb_step_spec first k msb val :
  0 < k -> first = k + k - 1 -> first < 64 -> 0 < val < 2 ^ (k + k) ->
  exists msb' val', msb_step first k k (msb, val) = Ok (msb', val') /\
    0 < val' < 2 ^ k /\ msb' + Z.log2 val' = msb + Z.log2 val.
Proof.
  intros Hk -> Hf Hv. unfold msb_step. cbn [fst snd].
  assert (2 ^ (k + k) <= 2 ^ 64) by (apply Z.pow_le_mono_r; lia).
  rewrite bits_field by lia. cbn [obind].
  assert (field val (k + k - 1) k = val / 2 ^ k) as ->.
  { unfold field. replace (k + k - 1 - k + 1) with k by lia. apply Z.mod_small.
    split; [apply Z.div_pos; lia|]. apply Z.div_lt_upper_bound; [lia|].
    rewrite <- Z.pow_add_r by lia. lia. }
  destruct (Z.ltb_spec val (2 ^ k)) as [Hs|Hs].
  - rewrite Z.div_small by lia. simpl. eexists _, _. split; [done|]. lia.
  - assert (0 < val / 2 ^ k) as Hd by (apply Z.div_str_pos; lia).
    replace (val / 2 ^ k =? 0) with false by lia. eexists _, _. split; [done|].
    rewrite Z.log2_shiftr, Z.shiftr_div_pow2 by lia. split.
    + split; [done|]. apply Z.div_lt_upper_bound; [lia|]. rewrite <- Z.pow_add_r by lia. lia.
    + assert (k <= Z.log2 val) by (apply Z.log2_le_pow2; lia). lia.
Qed.

Lemma findMsbSet_log2 val : 0 < val < 2 ^ 64 -> findMsbSet val = Ok (Z.log2 val).
Proof.
  intros Hv. unfold findMsbSet. replace (val =? 0) with false by lia.
  destruct (msb_step_spec 63 32 0 val) as (m1 & v1 & E1 & B1 & L1); [lia..|]. rewrite E1. cbn [obind].
  destruct (msb_step_spec 31 16 m1 v1) as (m2 & v2 & E2 & B2 & L2); [lia..|]. rewrite E2. cbn [obind].
  destruct (msb_step_spec 15 8 m2 v2) as (m3 & v3 & E3 & B3 & L3); [lia..|]. rewrite E3. cbn [obind].
  destruct (msb_step_spec 7 4 m3 v3) as (m4 & v4 & E4 & B4 & L4); [lia..|]. rewrite E4. cbn [obind].
  destruct (msb_step_spec 3 2 m4 v4) as (m5 & v5 & E5 & B5 & L5); [lia..|]. rewrite E5. cbn [obind fst snd].
  rewrite bits_field by lia. cbn [obind]. f_equal.
  assert (v5 = 1 \/ v5 = 2 \/ v5 = 3) as [->|[->| ->]] by lia; simpl in *; lia.
Qed.

(** After the test of the low half, the lowest set bit is in the low half. *)
Lemma lsb_step_spec first k lsb val :
  0 < k -> first = k - 1 -> k <= 32 -> 0 <= val < 2 ^ 64 ->
  (exists i, 0 <= i < k + k /\ Z.testbit val i = true) ->
  exists lsb' val', lsb_step first k (lsb, val) = Ok (lsb', val') /\ 0 <= val' < 2 ^ 64 /\
    (exists i, 0 <= i < k /\ Z.testbit val' i = true) /\
    forall n, lowest_set val' n -> lowest_set val (lsb' - lsb + n).
Proof.
  intros Hk -> Hk' Hv (i & Hi & Ti). unfold lsb_step. cbn [fst snd].
  rewrite bits_field by lia. cbn [obind]. pose proof (field_zero val (k - 1) 0 ltac:(lia)) as FZ.
  destruct (Z.eqb_spec (field val (k - 1) 0) 0) as [E|E].
  - rewrite FZ in E. eexists _, _. split; [done|].
    split; [|split].
    + rewrite Z.shiftr_div_pow2 by lia. split; [apply Z.div_pos; lia|].
      apply Z.div_lt_upper_bound; [lia|]. pose proof (Z.pow_pos_nonneg 2 k). nia.
    + destruct (Z.ltb_spec i k); [rewrite (E i) in Ti by lia; done|].
      exists (i - k). rewrite Z.shiftr_spec by lia. split; [lia|].
      by replace (i - k + k) with i by lia.
    + intros n Hn. replace (lsb + k - lsb + n) with (k + n) by lia.
      apply lowest_set_shift; [lia| |done]. intros j Hj. apply E. lia.
  - eexists _, _. split; [done|]. split; [done|]. split.
    + destruct (existsb (fun j => Z.testbit val (Z.of_nat j)) (seq 0 (Z.to_nat k))) eqn:X.
      * apply existsb_exists in X as (j & Hj & Tj). apply in_seq in Hj.
        exists (Z.of_nat j). split; [lia|done].
      * exfalso. apply E, FZ. intros j Hj. destruct (Z.testbit val j) eqn:T; [|done].
        exfalso. assert (existsb (fun j => Z.testbit val (Z.of_nat j)) (seq 0 (Z.to_nat k)) = true);
          [|congruence]. apply existsb_exists. exists (Z.to_nat j). split; [apply in_seq; lia|].
        by rewrite Z2Nat.id by lia.
    + intros n Hn. by replace (lsb - lsb + n) with n by lia.
Qed.

Lemma findLsbSetFallback_lowest val :
  0 < val < 2 ^ 64 -> exists k, findLsbSetFallback val = Ok k /\ lowest_set val k.
Proof.
  intros Hv. unfold findLsbSetFallback. replace (val =? 0) with false by lia.
  destruct (lsb_step_spec 31 32 0 val) as (l1 & v1 & E1 & B1 & X1 & L1); try lia.
  { exists (Z.log2 val). split; [|apply Z.bit_log2; lia].
    split; [apply Z.log2_nonneg|]. apply Z.log2_lt_pow2; lia. }
  rewrite E1. cbn [obind].
  destruct (lsb_step_spec 15 16 l1 v1) as (l2 & v2 & E2 & B2 & X2 & L2); try done. rewrite E2. cbn [obind].
  destruct (lsb_step_spec 7 8 l2 v2) as (l3 & v3 & E3 & B3 & X3 & L3); try done. rewrite E3. cbn [obind].
  destruct (lsb_step_spec 3 4 l3 v3) as (l4 & v4 & E4 & B4 & X4 & L4); try done. rewrite E4. cbn [obind].
  destruct (lsb_step_spec 1 2 l4 v4) as (l5 & v5 & E5 & B5 & X5 & L5); try done. rewrite E5.
  cbn [obind fst snd]. rewrite bits_field by lia. cbn [obind]. eexists. split; [done|].
  assert (forall n, lowest_set v5 n -> lowest_set val (l5 + n)) as LL.
  { intros n Hn. apply L5, L4, L3, L2, L1 in Hn.
    match type of Hn with lowest_set _ ?e => replace e with (l5 + n) in Hn by lia end. done. }
  pose proof (field_zero v5 0 0) as FZ. destruct X5 as (i & Hi & Ti).
  destruct (Z.eqb_spec (field v5 0 0) 0) as [E|E].
  - apply LL. pose proof (proj1 (FZ ltac:(lia)) E 0 ltac:(lia)) as F0.
    assert (i = 1) as -> by (destruct (Z.eq_dec i 0); [congruence|lia]).
    split; [lia|]. split; [done|]. intros j Hj. by replace j with 0 by lia.
  - replace l5 with (l5 + 0) by lia. apply LL. split; [lia|]. split; [|lia].
    destruct (Z.testbit v5 0) eqn:T; [done|]. exfalso. apply E, FZ; [lia|].
    intros j Hj. by replace j with 0 by lia.
Qed.

Lemma ctz_pos_lowest p : lowest_set (Zpos p) (ctz_pos p).
Proof.
  induction p as [p IH|p IH|]; cbn [ctz_pos];
    try (split; [lia|split; [done|intros; lia]]).
  apply lowest_set_shift; [lia| |].
  - intros i Hi. by replace i with 0 by lia.
  - by rewrite Z.shiftr_div_pow2, (Zpos_xO p), Z.mul_comm, Z.div_mul by lia.
Qed.

Lemma builtin_ctz_lowest val : 0 < val -> lowest_set val (builtin_ctz val).
Proof. intros Hv. destruct val; [lia|apply ctz_pos_lowest|lia]. Qed.

Lemma findLsbSet_lowest g val :
  0 < val < 2 ^ 64 -> exists k, findLsbSet g val = Ok k /\ lowest_set val k.
Proof.
  intros Hv. unfold findLsbSet. replace (val =? 0) with false by lia. destruct g.
  - eexists. split; [done|]. apply builtin_ctz_lowest. lia.
  - by apply findLsbSetFallback_lowest.
Qed.

(** The 64-bit chunks: enough fuel always finds a chunk that is not zero. *)
Lemma qword_loop_spec n bs i :
  0 < bs < 2 ^ (64 * Z.of_nat n) ->
  exists j q, qword_loop n bs i = Ok (i + j, q) /\ 0 < q < 2 ^ 64 /\
    forall k, lowest_set q k -> lowest_set bs (j + k).
Proof.
  revert bs i. induction n as [|n IH]; intros bs i Hb; [lia|].
  cbn [qword_loop]. change (2 ^ 64 - 1) with (Z.ones 64). rewrite Z.land_ones by lia.
  pose proof (Z.mod_pos_bound bs (2 ^ 64) ltac:(lia)) as Bm.
  destruct (Z.eqb_spec (bs mod 2 ^ 64) 0) as [E|E].
  - destruct (IH (Z.shiftr bs 64) (i + 64)) as (j & q & Hq & Bq & L).
    { rewrite Z.shiftr_div_pow2 by lia. pose proof (Z.div_mod bs (2 ^ 64) ltac:(lia)) as D.
      rewrite E in D. split; [lia|]. apply Z.div_lt_upper_bound; [lia|].
      rewrite <- Z.pow_add_r by lia. replace (64 + 64 * Z.of_nat n) with (64 * Z.of_nat (S n)) by lia. lia. }
    exists (64 + j), q. rewrite Hq. split; [by rewrite Z.add_assoc|]. split; [done|].
    intros k Hk. rewrite <- Z.add_assoc. apply lowest_set_shift; [lia| |by apply L].
    intros t Ht. change (bs mod 2 ^ 64) with (u64 bs) in E.
    pose proof (testbit_uwrap 64 bs t) as T. rewrite E, Z.bits_0 in T.
    replace (t <? 64) with true in T by lia. symmetry. apply T; lia.
  - exists 0, (bs mod 2 ^ 64). split; [by rewrite Z.add_0_r|]. split; [lia|].
    intros k (H0 & H1 & H2). change (bs mod 2 ^ 64) with (u64 bs) in *.
    rewrite testbit_uwrap in H1 by lia. apply andb_prop in H1 as [H1 H1'].
    split; [lia|]. split; [done|]. intros t Ht. specialize (H2 t ltac:(lia)).
    rewrite testbit_uwrap in H2 by lia. by replace (t <? 64) with true in H2 by lia.
Qed.

Lemma findLsbSet_bitset_lowest g N bs :
  0 < N -> 0 < bs < 2 ^ N -> exists k, findLsbSet_bitset g N bs = Ok k /\ lowest_set bs k.
Proof.
  intros HN Hb. unfold findLsbSet_bitset. destruct (Z.leb_spec N 64).
  { apply findLsbSet_lowest. assert (2 ^ N <= 2 ^ 64) by (apply Z.pow_le_mono_r; lia). lia. }
  replace (bs =? 0) with false by lia.
  destruct (qword_loop_spec (Z.to_nat N) bs 0) as (j & q & -> & Bq & L).
  { assert (2 ^ N <= 2 ^ (64 * Z.of_nat (Z.to_nat N))) by (apply Z.pow_le_mono_r; lia). lia. }
  cbn [obind fst snd]. destruct (findLsbSet_lowest g q Bq) as (k & -> & Hk). cbn [obind].
  eexists. split; [done|]. by apply L.
Qed.

(** ** Parallel bit count *)

(** The sum of the bits [0 .. n-1]. *)
Fixpoint bit_sum (n : nat) (x : Z) : Z :=
  match n with O => 0 | S n' => Z.b2z (Z.odd x) + bit_sum n' (Z.div2 x) end.

Lemma bit_sum_0 n : bit_sum n 0 = 0.
Proof. induction n; [done|]. simpl. lia. Qed.

Lemma popcount_bit_sum n x : 0 <= x < 2 ^ Z.of_nat n -> builtin_popcount x = bit_sum n x.
Proof.
  revert x. induction n as [|n IH]; intros x Hx.
  { by replace x with 0 by (simpl in Hx; lia). }
  rewrite Nat2Z.inj_succ, Z.pow_succ_r in Hx by lia.
  destruct x as [|p|p]; [by rewrite bit_sum_0| |lia]. cbn [bit_sum].
  rewrite <- IH by (rewrite Z.div2_div; split; [apply Z.div_pos; lia|apply Z.div_lt_upper_bound; lia]).
  destruct p; simpl; lia.
Qed.

(** The byte-wise steps of the parallel count on [n] bytes; the masks are the
    repetitions of their lowest byte. *)
Fixpoint rep (n : nat) (b : Z) : Z :=
  match n with O => 0 | S n' => b + 256 * rep n' b end.

Definition pop_bytes (n : nat) (x : Z) : Z :=
  let x := x - Z.land (Z.shiftr x 1) (rep n 0x55) in
  let x := Z.land x (rep n 0x33) + Z.land (Z.shiftr x 2) (rep n 0x33) in
  Z.land (x + Z.shiftr x 4) (rep n 0x0f).

Lemma rep_range n b : 0 <= b < 256 -> 0 <= rep n b < 256 ^ Z.of_nat n.
Proof.
  intros Hb. induction n as [|n IH]; [simpl; lia|]. cbn [rep].
  rewrite Nat2Z.inj_succ, Z.pow_succ_r by lia. lia.
Qed.

(** A byte and the bytes above it: [land] with a repeated mask splits. *)
Lemma land_split lo hi m ms :
  0 <= lo < 256 -> 0 <= m < 256 -> 0 <= hi -> 0 <= ms ->
  Z.land (lo + 256 * hi) (m + 256 * ms) = Z.land lo m + 256 * Z.land hi ms.
Proof.
  intros. assert (forall a b, 0 <= a < 256 -> 0 <= b -> a + 256 * b = Z.lor a (Z.shiftl b 8)) as A.
  { intros a b Ha Hb. rewrite <- Z.lxor_lor, <- Z.add_nocarry_lxor; [rewrite Z.shiftl_mul_pow2; lia| |];
    apply Z.bits_inj'; intros i Hi; rewrite Z.land_spec, Z.shiftl_spec, Z.bits_0 by lia;
    destruct (Z.ltb_spec i 8); try (rewrite (testbit_high 8 a i) by lia; done);
    rewrite (Z.testbit_neg_r b) by lia; by rewrite andb_false_r. }
  assert (0 <= Z.land lo m < 256) by (apply (land_bound lo m 8); lia).
  rewrite !A; try lia; [|apply Z.land_nonneg; lia].
  apply Z.bits_inj'. intros i Hi. rewrite ?Z.land_spec, ?Z.lor_spec, ?Z.shiftl_spec, ?Z.land_spec by lia.
  destruct (Z.ltb_spec i 8).
  - rewrite !(Z.testbit_neg_r _ (i - 8)) by lia. rewrite ?Z.land_spec. simpl. by rewrite !orb_false_r.
  - rewrite ?Z.land_spec. rewrite (testbit_high 8 lo), (testbit_high 8 m) by lia. done.
Qed.

Definition stage1 (n : nat) (x : Z) : Z := x - Z.land (Z.shiftr x 1) (rep n 0x55).
Definition stage2 (n : nat) (x : Z) : Z :=
  Z.land x (rep n 0x33) + Z.land (Z.shiftr x 2) (rep n 0x33).
Definition stage3 (n : nat) (x : Z) : Z := Z.land (x + Z.shiftr x 4) (rep n 0x0f).

(** The stages on one byte. *)
Abbreviation byte1 := (stage1 1).
Abbreviation byte2 := (stage2 1).
Abbreviation byte3 := (stage3 1).

Lemma rep_1 b : rep 1 b = b.
Proof. simpl. lia. Qed.

Ltac byte_check f x y := 
  pose proof (all_below_spec 256 f x ltac:(vm_compute; reflexivity) ltac:(lia)) as y; cbv beta in y.

Lemma stage1_cons n lo hi :
  0 <= lo < 256 -> 0 <= hi -> stage1 (S n) (lo + 256 * hi) = byte1 lo + 256 * stage1 n hi.
Proof.
  intros Hlo Hhi. unfold stage1. rewrite rep_1. cbn [rep].
  replace (Z.shiftr (lo + 256 * hi) 1) with ((lo / 2 + 128 * (hi mod 2)) + 256 * (hi / 2))
    by (rewrite Z.shiftr_div_pow2 by lia; change (2 ^ 1) with 2;
        Z.to_euclidean_division_equations; lia).
  pose proof (rep_range n 0x55 ltac:(lia)).
  rewrite land_split; try (Z.to_euclidean_division_equations; lia).
  replace (Z.land (lo / 2 + 128 * (hi mod 2)) 85) with (Z.land (Z.shiftr lo 1) 85);
    [rewrite (Z.shiftr_div_pow2 hi) by lia; change (2 ^ 1) with 2; lia|].
  byte_check (fun x => (Z.land (Z.shiftr x 1) 85 =? Z.land (x / 2) 85) &&
    (Z.land (Z.shiftr x 1) 85 =? Z.land (x / 2 + 128) 85)) lo C.
  assert (hi mod 2 = 0 \/ hi mod 2 = 1) as [-> | ->] by (Z.to_euclidean_division_equations; lia).
  - rewrite Z.mul_0_r, Z.add_0_r. lia.
  - change (128 * 1) with 128. lia.
Qed.

Lemma stage2_cons n lo hi :
  0 <= lo < 256 -> 0 <= hi -> stage2 (S n) (lo + 256 * hi) = byte2 lo + 256 * stage2 n hi.
Proof.
  intros Hlo Hhi. unfold stage2. rewrite rep_1. cbn [rep].
  replace (Z.shiftr (lo + 256 * hi) 2) with ((lo / 4 + 64 * (hi mod 4)) + 256 * (hi / 4))
    by (rewrite Z.shiftr_div_pow2 by lia; change (2 ^ 2) with 4;
        Z.to_euclidean_division_equations; lia).
  pose proof (rep_range n 0x33 ltac:(lia)).
  rewrite !land_split; try (Z.to_euclidean_division_equations; lia).
  replace (Z.land (lo / 4 + 64 * (hi mod 4)) 51) with (Z.land (Z.shiftr lo 2) 51);
    [rewrite (Z.shiftr_div_pow2 hi) by lia; change (2 ^ 2) with 4; lia|].
  byte_check (fun x => forallb (fun k => Z.land (Z.shiftr x 2) 51 =? Z.land (x / 4 + 64 * k) 51)
    [0; 1; 2; 3]) lo C.
  rewrite forallb_forall in C. apply Z.eqb_eq, C. simpl.
  Z.to_euclidean_division_equations; lia.
Qed.

Lemma stage3_cons n lo hi :
  0 <= lo < 256 -> lo mod 16 <= 4 -> lo / 16 <= 4 -> 0 <= hi -> hi mod 16 <= 4 ->
  stage3 (S n) (lo + 256 * hi) = byte3 lo + 256 * stage3 n hi.
Proof.
  intros Hlo L1 L2 Hhi H1. unfold stage3. rewrite rep_1. cbn [rep].
  replace (lo + 256 * hi + Z.shiftr (lo + 256 * hi) 4) with
    ((lo + lo / 16 + 16 * (hi mod 16)) + 256 * (hi + hi / 16))
    by (rewrite Z.shiftr_div_pow2 by lia; change (2 ^ 4) with 16;
        Z.to_euclidean_division_equations; lia).
  pose proof (rep_range n 0x0f ltac:(lia)).
  rewrite !land_split; try (Z.to_euclidean_division_equations; lia).
  replace (Z.land (lo + lo / 16 + 16 * (hi mod 16)) 15) with (Z.land (lo + Z.shiftr lo 4) 15);
    [rewrite (Z.shiftr_div_pow2 hi) by lia; change (2 ^ 4) with 16; lia|].
  byte_check (fun x => forallb (fun k =>
    Z.land (x + Z.shiftr x 4) 15 =? Z.land (x + x / 16 + 16 * k) 15) [0; 1; 2; 3; 4]) lo C.
  rewrite forallb_forall in C. apply Z.eqb_eq, C. simpl.
  Z.to_euclidean_division_equations; lia.
Qed.

(** The counts of the bytes of [x]. *)
Fixpoint byte_counts (n : nat) (x : Z) : Z :=
  match n with O => 0 | S n' => bit_sum 8 (x mod 256) + 256 * byte_counts n' (x / 256) end.

Lemma stages_bytes n x : 0 <= x < 256 ^ Z.of_nat n ->
  0 <= stage1 n x < 256 ^ Z.of_nat n /\ 0 <= stage2 n (stage1 n x) < 256 ^ Z.of_nat n /\
  stage2 n (stage1 n x) mod 16 <= 4 /\
  stage2 n (stage1 n x) + Z.shiftr (stage2 n (stage1 n x)) 4 < 256 ^ Z.of_nat n /\
  stage3 n (stage2 n (stage1 n x)) = byte_counts n x.
Proof.
  revert x. induction n as [|n IH]; intros x Hx.
  { unfold stage3, stage2, stage1. simpl. rewrite !Z.land_0_r.
    simpl in Hx. rewrite Z.shiftr_0_l. change (256 ^ Z.of_nat 0) with 1 in *.
    split_and!; try done; lia. }
  rewrite Nat2Z.inj_succ, Z.pow_succ_r in * by lia. cbn [byte_counts].
  pose proof (Z.mod_pos_bound x 256 ltac:(lia)) as Bx.
  assert (0 <= x / 256 < 256 ^ Z.of_nat n) as Bd
    by (split; [apply Z.div_pos|apply Z.div_lt_upper_bound]; lia).
  destruct (IH _ Bd) as (R1 & R2 & N2 & R3 & E).
  replace (stage1 (S n) x) with (byte1 (x mod 256) + 256 * stage1 n (x / 256))
    by (rewrite <- stage1_cons by lia; f_equal; pose proof (Z.div_mod x 256); lia).
  byte_check (fun x => let b1 := byte1 x in let b2 := byte2 b1 in
    (0 <=? b1) && (b1 <? 256) && (0 <=? b2) && (b2 mod 16 <=? 4) && (b2 / 16 <=? 4) &&
    (byte3 b2 =? bit_sum 8 x)) (x mod 256) C.
  cbv zeta in C. set (b1 := byte1 (x mod 256)) in *. set (h1 := stage1 n (x / 256)) in *.
  rewrite stage2_cons by lia. set (b2 := byte2 b1) in *. set (h2 := stage2 n h1) in *.
  rewrite Z.shiftr_div_pow2 in * by lia. change (2 ^ 4) with 16 in *.
  split_and!; try lia; try (Z.to_euclidean_division_equations; lia).
  rewrite stage3_cons; try lia; Z.to_euclidean_division_equations; lia.
Qed.

Lemma bit_sum_add m n x : 0 <= x -> bit_sum (m + n) x = bit_sum m (x mod 2 ^ Z.of_nat m) + bit_sum n (x / 2 ^ Z.of_nat m).
Proof.
  revert x. induction m as [|m IH]; intros x Hx.
  { simpl. by rewrite Z.div_1_r. }
  rewrite Nat2Z.inj_succ, Z.pow_succ_r by lia. cbn [bit_sum Nat.add].
  assert (0 < 2 ^ Z.of_nat m) by (apply Z.pow_pos_nonneg; lia).
  rewrite IH by (rewrite Z.div2_div; apply Z.div_pos; lia). rewrite !Z.div2_div.
  rewrite Z.div_div, <- Z.add_assoc by lia. f_equal.
  - rewrite !Zodd_mod. replace (x mod (2 * 2 ^ Z.of_nat m) mod 2) with (x mod 2); [done|].
    rewrite Z.rem_mul_r by lia. rewrite (Z.mul_comm 2), Z.mod_add by lia. by rewrite Z.mod_mod by lia.
  - f_equal. f_equal. rewrite Z.rem_mul_r by lia.
    rewrite (Z.mul_comm 2 (_ mod _)), Z.div_add by lia.
    rewrite (Z.div_small (x mod 2)) by (apply Z.mod_pos_bound; lia). lia.
Qed.

Lemma bit_sum_range n x : 0 <= bit_sum n x <= Z.of_nat n.
Proof.
  revert x. induction n as [|n IH]; intros x; [simpl; lia|]. cbn [bit_sum].
  specialize (IH (Z.div2 x)). destruct (Z.odd x); simpl Z.b2z; lia.
Qed.

(** The multiplication by [0x0101..01] leaves the sum of the bytes on top. *)
Lemma horizontal_sum p0 p1 p2 p3 p4 p5 p6 p7 :
  let ok p := 0 <= p <= 8 in
  ok p0 -> ok p1 -> ok p2 -> ok p3 -> ok p4 -> ok p5 -> ok p6 -> ok p7 ->
  Z.shiftr (u64 ((p0 + 256 * (p1 + 256 * (p2 + 256 * (p3 + 256 * (p4 + 256 * (p5 + 256 *
    (p6 + 256 * (p7 + 256 * 0)))))))) * 0x0101010101010101)) 56 =
  p0 + p1 + p2 + p3 + p4 + p5 + p6 + p7.
Proof.
  intros ok. unfold ok. intros. rewrite Z.shiftr_div_pow2 by lia. unfold uwrap.
  set (L := 1 * (p0) + 256 * (p0 + p1) + 65536 * (p0 + p1 + p2) + 16777216 * (p0 + p1 + p2 + p3) +
    4294967296 * (p0 + p1 + p2 + p3 + p4) + 1099511627776 * (p0 + p1 + p2 + p3 + p4 + p5) +
    281474976710656 * (p0 + p1 + p2 + p3 + p4 + p5 + p6)).
  set (Hi := 1 * (p1 + p2 + p3 + p4 + p5 + p6 + p7) + 256 * (p2 + p3 + p4 + p5 + p6 + p7) + 65536 *
    (p3 + p4 + p5 + p6 + p7) + 16777216 * (p4 + p5 + p6 + p7) + 4294967296 * (p5 + p6 + p7) +
    1099511627776 * (p6 + p7) + 281474976710656 * (p7)).
  assert (0 <= L < 2 ^ 56) by (unfold L; lia).
  erewrite <- (Z.mod_unique_pos _ _ Hi (2 ^ 56 * (p0 + p1 + p2 + p3 + p4 + p5 + p6 + p7) + L)); [|lia|unfold Hi, L; lia].
  symmetry. apply (Z.div_unique_pos _ _ _ L); lia.
Qed.

Lemma popCount_portable_sum x : 0 <= x < 2 ^ 64 -> popCount_portable x = bit_sum 64 x.
Proof.
  intros Hx. destruct (stages_bytes 8 x ltac:(exact Hx)) as (R1 & R2 & _ & R3 & E).
  change (256 ^ Z.of_nat 8) with (2 ^ 64) in *.
  unfold popCount_portable. cbv zeta. change 0x5555555555555555 with (rep 8 0x55).
  change 0x3333333333333333 with (rep 8 0x33). change 0x0f0f0f0f0f0f0f0f with (rep 8 0x0f).
  fold (stage1 8 x). rewrite (uwrap_small 64 (stage1 8 x)) by done.
  fold (stage2 8 (stage1 8 x)). rewrite (uwrap_small 64 (stage2 _ _)) by done.
  assert (0 <= Z.shiftr (stage2 8 (stage1 8 x)) 4) by (apply Z.shiftr_nonneg; lia).
  rewrite (uwrap_small 64 (_ + _)) by lia. fold (stage3 8 (stage2 8 (stage1 8 x))). rewrite E.
  cbn [byte_counts].
  rewrite horizontal_sum by (apply bit_sum_range).
  assert (forall n y, 0 <= y -> bit_sum (8 + n) y = bit_sum 8 (y mod 256) + bit_sum n (y / 256)) as S.
  { intros n y Hy. apply (bit_sum_add 8). lia. }
  change 64%nat with (8 + (8 + (8 + (8 + (8 + (8 + (8 + (8 + 0))))))))%nat.
  rewrite !S by (repeat apply Z.div_pos; lia). cbn [bit_sum Nat.add]. lia.
Qed.

(** ** Rounding to a power of two *)

(** [v] has a bit at [i] exactly when [v0] has one in the [k] positions from [i]. *)
Definition smeared (k v0 v : Z) : Prop :=
  forall i, 0 <= i -> Z.testbit v i = true <-> exists j, 0 <= j < k /\ Z.testbit v0 (i + j) = true.

Lemma smear_step k v0 v : 0 < k -> smeared k v0 v -> smeared (k + k) v0 (Z.lor v (Z.shiftr v k)).
Proof.
  intros Hk H i Hi. rewrite Z.lor_spec, Z.shiftr_spec, orb_true_iff by lia.
  rewrite (H i Hi), (H (i + k)) by lia. split.
  - intros [(j & Hj & T)|(j & Hj & T)]; [exists j; by split; [lia|]|].
    exists (k + j). split; [lia|]. by rewrite Z.add_assoc.
  - intros (j & Hj & T). destruct (Z.ltb_spec j k); [left; exists j; by split; [lia|]|].
    right. exists (j - k). split; [lia|]. by replace (i + k + (j - k)) with (i + j) by lia.
Qed.

Lemma smeared_ones v0 v : 0 < v0 < 2 ^ 64 -> 0 <= v -> smeared 64 v0 v -> v = Z.ones (Z.log2 v0 + 1).
Proof.
  intros Hv0 Hv H. apply Z.bits_inj'. intros i Hi. pose proof (Z.log2_nonneg v0).
  assert (Z.log2 v0 < 64) by (apply Z.log2_lt_pow2; lia).
  rewrite Z.testbit_ones by lia. replace (0 <=? i) with true by lia. cbn [andb].
  destruct (Z.ltb_spec i (Z.log2 v0 + 1)).
  - apply H; [lia|]. exists (Z.log2 v0 - i). split; [lia|].
    replace (i + (Z.log2 v0 - i)) with (Z.log2 v0) by lia. apply Z.bit_log2. lia.
  - destruct (Z.testbit v i) eqn:T; [|done]. apply H in T as (j & Hj & T); [|lia].
    rewrite Z.bits_above_log2 in T by lia. done.
Qed.

Lemma alignToPowerOfTwo_spec val :
  1 < val < 2 ^ 64 -> alignToPowerOfTwo val = u64 (2 ^ Z.log2_up val).
Proof.
  intros Hv. unfold alignToPowerOfTwo. cbv zeta. rewrite (uwrap_small 64 (val - 1)) by lia.
  set (v0 := val - 1).
  assert (smeared 1 v0 v0) as S0.
  { intros i Hi. split; [intros T; exists 0; by rewrite Z.add_0_r|].
    intros (j & Hj & T). by replace (i + j) with i in T by lia. }
  pose proof (smear_step 1 v0 _ eq_refl S0) as S1. pose proof (smear_step 2 v0 _ eq_refl S1) as S2.
  pose proof (smear_step 4 v0 _ eq_refl S2) as S3. pose proof (smear_step 8 v0 _ eq_refl S3) as S4.
  pose proof (smear_step 16 v0 _ eq_refl S4) as S5. pose proof (smear_step 32 v0 _ eq_refl S5) as S6.
  apply (smeared_ones v0) in S6; [|lia|].
  - rewrite S6. rewrite Z.ones_equiv. f_equal.
    rewrite Z.log2_up_eqn by lia. unfold v0. rewrite <- Z.sub_1_r, <- Z.add_1_r.
    replace (Z.pred val) with (val - 1) by lia. lia.
  - assert (0 <= v0) by lia. repeat (rewrite Z.lor_nonneg, Z.shiftr_nonneg). tauto.
Qed.

(** ** Bit reversal *)
Lemma table_reverses x : 0 <= x < 256 ->
  exists t, vget reverseBitsLookUpTable x = Ok t /\ 0 <= t < 256 /\
    forall i, 0 <= i < 8 -> Z.testbit t i = Z.testbit x (7 - i).
Proof.
  intros Hx.
  byte_check (fun x => match vget reverseBitsLookUpTable x with
    | Ok t => (0 <=? t) && (t <? 256) &&
        forallb (fun i => Bool.eqb (Z.testbit t i) (Z.testbit x (7 - i))) [0; 1; 2; 3; 4; 5; 6; 7]
    | Fault _ => false end) x C.
  destruct (vget reverseBitsLookUpTable x) as [t|]; [|done]. exists t. split; [done|].
  apply andb_prop in C as [C1 C2]. split; [lia|]. intros i Hi. rewrite forallb_forall in C2.
  apply eqb_prop, C2. simpl. lia.
Qed.

Lemma reverse_loop_spec w n val out :
  0 <= w -> 0 <= val -> 0 <= out < 2 ^ w -> 8 * Z.of_nat n <= w ->
  exists r, reverse_loop w n val out = Ok r /\ 0 <= r < 2 ^ w /\
    forall i, 0 <= i < w -> Z.testbit r i =
      if i <? 8 * Z.of_nat n then Z.testbit val (8 * Z.of_nat n - 1 - i)
      else Z.testbit out (i - 8 * Z.of_nat n).
Proof.
  intros Hw. revert val out. induction n as [|n IH]; intros val out Hv Ho Hn.
  { exists out. split; [done|]. split; [done|]. intros i Hi.
    change (8 * Z.of_nat 0) with 0. rewrite Z.sub_0_r. by destruct (Z.ltb_spec i 0); [lia|]. }
  cbn [reverse_loop]. rewrite (mask_ones 8) by lia. rewrite Z.land_ones by lia.
  destruct (table_reverses (val mod 2 ^ Z.min 8 64)) as (t & -> & Bt & Ht).
  { apply Z.mod_pos_bound. lia. }
  cbn [obind]. destruct (IH (Z.shiftr val 8) (uwrap w (Z.lor (Z.shiftl out 8) t))) as (r & Hr & Br & Tr);
    [by apply Z.shiftr_nonneg|by apply uwrap_range|lia|].
  exists r. split; [done|]. split; [done|]. intros i Hi. rewrite (Tr i Hi).
  destruct (Z.ltb_spec i (8 * Z.of_nat n)), (Z.ltb_spec i (8 * Z.of_nat (S n))); try lia.
  - rewrite Z.shiftr_spec by lia. f_equal. lia.
  - rewrite testbit_uwrap, Z.lor_spec, Z.shiftl_spec by lia.
    replace (i - 8 * Z.of_nat n <? w) with true by lia.
    rewrite (Z.testbit_neg_r out) by lia. cbn [andb orb]. rewrite Ht by lia.
    change (val mod 2 ^ Z.min 8 64) with (u8 val). rewrite testbit_uwrap by lia.
    replace (7 - (i - 8 * Z.of_nat n) <? 8) with true by lia. cbn [andb]. f_equal. lia.
  - rewrite testbit_uwrap, Z.lor_spec, Z.shiftl_spec by lia.
    replace (i - 8 * Z.of_nat n <? w) with true by lia.
    rewrite (testbit_high 8 t) by lia. rewrite orb_false_r. cbn [andb]. f_equal. lia.
Qed.

(** ** Sign extension *)

(** [szext] is the two's complement reading of the low [N] bits. *)
Lemma szext_swrap N val : 0 < N <= 64 -> 0 <= val < 2 ^ 64 -> szext N val = Ok (u64 (swrap N val)).
Proof.
  intros HN Hv. unfold szext, bit. rewrite (uwrap_small 32) by lia.
  rewrite bits_field by lia. cbn [obind]. f_equal. unfold field.
  replace (N - 1 - (N - 1) + 1) with 1 by lia. change (2 ^ 1) with 2.
  assert (0 < 2 ^ (N - 1)) by (apply Z.pow_pos_nonneg; lia).
  assert (2 ^ N = 2 * 2 ^ (N - 1)) as EN
    by (rewrite <- Z.pow_succ_r by lia; f_equal; lia).
  assert (val / 2 ^ (N - 1) mod 2 = Z.b2z (Z.testbit val (N - 1))) as -> by (rewrite Z.testbit_spec' by lia; done).
  assert (val mod 2 ^ N = 2 ^ (N - 1) * Z.b2z (Z.testbit val (N - 1)) + val mod 2 ^ (N - 1)) as M.
  { rewrite EN, Z.mul_comm, Z.rem_mul_r by lia. rewrite Z.testbit_spec' by lia. lia. }
  pose proof (Z.mod_pos_bound val (2 ^ (N - 1)) ltac:(lia)) as B.
  assert (swrap N val = if Z.testbit val (N - 1) then val mod 2 ^ N - 2 ^ N else val mod 2 ^ N) as ->.
  { unfold swrap. rewrite <- Z.add_mod_idemp_l, M by lia. destruct (Z.testbit val (N - 1)); simpl Z.b2z.
    - rewrite EN. replace (2 ^ (N - 1) * 1 + val mod 2 ^ (N - 1) + 2 ^ (N - 1)) with
        (val mod 2 ^ (N - 1) + 1 * (2 * 2 ^ (N - 1))) by lia.
      rewrite Z.mod_add, Z.mod_small by lia. lia.
    - rewrite Z.mod_small by lia. lia. }
  assert (2 ^ N <= 2 ^ 64) by (apply Z.pow_le_mono_r; lia).
  apply Z.bits_inj'. intros i Hi. change (val mod 2 ^ N) with (uwrap N val).
  destruct (Z.testbit val (N - 1)); simpl Z.b2z; cbn [Z.eqb].
  - rewrite Z.lor_spec, testbit_lnot64, testbit_mask, testbit_uwrap by lia.
    replace (uwrap N val - 2 ^ N) with (Z.lor (uwrap N val) (Z.shiftl (-1) N)).
    2:{ rewrite <- Z.lxor_lor, <- Z.add_nocarry_lxor; [rewrite Z.shiftl_mul_pow2 by lia; lia|..];
        apply Z.bits_inj'; intros j Hj; rewrite Z.land_spec, Z.bits_0, testbit_uwrap, Z.shiftl_spec by lia;
        destruct (Z.ltb_spec j N); try done; rewrite (Z.testbit_neg_r (-1)) by lia; by rewrite andb_false_r. }
    rewrite Z.lor_spec, testbit_uwrap, Z.shiftl_spec by lia.
    destruct (Z.ltb_spec i N), (Z.ltb_spec i 64); simpl; rewrite ?orb_false_r; try lia; try done.
    + rewrite (Z.testbit_neg_r (-1)) by lia. by rewrite orb_false_r.
    + rewrite orb_true_r. symmetry. apply Z.bits_m1. lia.
    + rewrite (testbit_high 64 val) by lia. done.
  - rewrite Z.land_spec, testbit_mask, !testbit_uwrap by lia.
    destruct (Z.ltb_spec i N), (Z.ltb_spec i 64); simpl; rewrite ?andb_false_r, ?andb_true_r; try lia; done.
Qed.

(** On a value of [N] bits [sext] and [szext] agree. *)
Lemma sext_szext N val : 0 < N <= 64 -> 0 <= val < 2 ^ N -> sext N val = szext N val.
Proof.
  intros HN Hv. unfold sext, szext. destruct (bit _ _) as [b|]; [|done]. cbn [obind].
  destruct (b =? 0); [|done]. f_equal. rewrite mask_ones, Z.land_ones by lia.
  rewrite Z.min_l by lia. by rewrite Z.mod_small.
Qed.

(** ** Properties *)

(** A field written by [insertBits] is read back by [bits], writing
    back a field that was read changes nothing, and the bits outside of the
    field keep their value. *)
Lemma bit_fields_roundtrip val first last b :
  0 <= val < 2 ^ 64 -> 0 <= last <= first -> first < 64 ->
  (exists r, insertBits val first last b = Ok r /\ 0 <= r < 2 ^ 64 /\
     bits r first last = Ok (b mod 2 ^ (first - last + 1)) /\
     forall i, 0 <= i -> i < last \/ first < i -> Z.testbit r i = Z.testbit val i) /\
  exists v, bits val first last = Ok v /\ v = val / 2 ^ last mod 2 ^ (first - last + 1) /\
     insertBits val first last v = Ok val.
Proof.
  intros Hv Hl Hf. split.
  - destruct (insertBits_spec val first last b) as (r & Hr & Br & Tr); [lia..|].
    exists r. split; [done|]. split; [done|]. split.
    + rewrite bits_field by lia. f_equal. apply Z.bits_inj'. intros i Hi.
      rewrite testbit_field, Tr by lia. change (?x mod 2 ^ ?w) with (uwrap w x).
      rewrite testbit_uwrap by lia. replace (i <? first - last + 1) with (i <=? first - last) by lia.
      destruct (Z.leb_spec i (first - last)); [|done]. cbn [andb].
      replace (last <=? i + last) with true by lia. replace (i + last <=? first) with true by lia.
      replace (i + last <? 64) with true by lia. cbn [andb]. f_equal. lia.
    + intros i Hi Ho. rewrite Tr by lia.
      by replace ((last <=? i) && (i <=? first) && (i <? 64)) with false by lia.
  - exists (field val first last). split; [apply bits_field; lia|]. split; [done|].
    destruct (insertBits_spec val first last (field val first last)) as (r & -> & Br & Tr); [lia..|].
    f_equal. apply Z.bits_inj'. intros i Hi. rewrite Tr by lia.
    destruct ((last <=? i) && (i <=? first) && (i <? 64)) eqn:E; [|done].
    rewrite testbit_field by lia. replace (i - last <=? first - last) with true by lia.
    cbn [andb]. f_equal. lia.
Qed.

(** The logarithmic searches compute what they stand for:
    [findMsbSet] the integer logarithm, [findLsbSet] - with the compiler builtin,
    with the portable fallback, and on wide bitsets by 64-bit chunks - the
    position of the lowest set bit; on zero they return their documented value. *)
Lemma bit_searches_correct g val N bs :
  0 < val < 2 ^ 64 -> 64 < N -> 0 < bs < 2 ^ N ->
  findMsbSet val = Ok (Z.log2 val) /\
  findLsbSet g val = Ok (builtin_ctz val) /\
  findLsbSet_bitset g N bs = Ok (builtin_ctz bs) /\
  lowest_set val (builtin_ctz val) /\
  findMsbSet 0 = Ok 0 /\ findLsbSet g 0 = Ok 64 /\ findLsbSet_bitset g N 0 = Ok N.
Proof.
  intros Hv HN Hb.
  destruct (findLsbSet_lowest g val Hv) as (k & Hk & Lk).
  destruct (findLsbSet_bitset_lowest g N bs ltac:(lia) Hb) as (k' & Hk' & Lk').
  rewrite Hk, Hk'.
  rewrite (lowest_set_unique _ _ _ Lk (builtin_ctz_lowest val ltac:(lia))).
  rewrite (lowest_set_unique _ _ _ Lk' (builtin_ctz_lowest bs ltac:(lia))).
  split_and!; try done; [by apply findMsbSet_log2|apply builtin_ctz_lowest; lia|].
  unfold findLsbSet_bitset. by replace (N <=? 64) with false by lia.
Qed.

(** The parallel bit count of the portable [popCount] and the
    compiler builtin count the same bits on every 64-bit value. *)
Theorem popCount_portable_correct val :
  0 <= val < 2 ^ 64 -> popCount false val = popCount true val.
Proof.
  intros Hv. unfold popCount. rewrite popCount_portable_sum by done.
  symmetry. by apply popcount_bit_sum.
Qed.

(** [alignToPowerOfTwo] is the least power of two that is not
    below its argument; it is zero on zero, and wraps to zero above [2^63]. *)
Theorem alignToPowerOfTwo_least val :
  0 < val < 2 ^ 64 ->
  alignToPowerOfTwo val = (if val <=? 2 ^ 63 then 2 ^ Z.log2_up val else 0) /\
  (forall k, 0 <= k -> val <= 2 ^ k -> 2 ^ Z.log2_up val <= 2 ^ k) /\
  val <= 2 ^ Z.log2_up val /\ alignToPowerOfTwo 0 = 0.
Proof.
  intros Hv. split_and!.
  - destruct (Z.eq_dec val 1) as [->|]; [done|].
    rewrite alignToPowerOfTwo_spec by lia. destruct (Z.leb_spec val (2 ^ 63)).
    + apply uwrap_small. assert (Z.log2_up val <= 63) by (apply Z.log2_up_le_pow2; lia).
      assert (2 ^ Z.log2_up val <= 2 ^ 63) by (apply Z.pow_le_mono_r; lia).
      pose proof (Z.pow_nonneg 2 (Z.log2_up val)). lia.
    + assert (63 < Z.log2_up val) by (apply Z.log2_up_lt_pow2; lia).
      assert (Z.log2_up val <= 64) by (apply Z.log2_up_le_pow2; lia).
      by replace (Z.log2_up val) with 64 by lia.
  - intros k Hk Hle. apply Z.pow_le_mono_r; [lia|]. apply Z.log2_up_le_pow2; lia.
  - destruct (Z.eq_dec val 1) as [->|]; [done|]. apply Z.log2_up_spec. lia.
  - done.
Qed.

(** [reverseBits] mirrors the low [size] bytes, and on the whole
    width it is its own inverse.  (The bytes above [size] are dropped.) *)
Theorem reverseBits_mirrors bytes val size :
  (1 < bytes)%nat -> (size <= bytes)%nat -> 0 <= val < 2 ^ (8 * Z.of_nat bytes) ->
  (exists r, reverseBits bytes val size = Ok r /\ 0 <= r < 2 ^ (8 * Z.of_nat size) /\
    forall i, 0 <= i < 8 * Z.of_nat size ->
      Z.testbit r i = Z.testbit val (8 * Z.of_nat size - 1 - i)) /\
  (let? r := reverseBits bytes val bytes in reverseBits bytes r bytes) = Ok val.
Proof.
  intros Hb Hs Hv.
  assert (forall size v, (size <= bytes)%nat -> 0 <= v < 2 ^ (8 * Z.of_nat bytes) ->
    exists r, reverseBits bytes v size = Ok r /\ 0 <= r < 2 ^ (8 * Z.of_nat bytes) /\
    forall i, 0 <= i < 8 * Z.of_nat bytes -> Z.testbit r i =
      (i <? 8 * Z.of_nat size) && Z.testbit v (8 * Z.of_nat size - 1 - i)) as R.
  { intros n v Hn Hv'. unfold reverseBits. destruct (Nat.leb_spec n bytes); [|lia].
    destruct (Nat.eqb_spec bytes 1); [lia|]. simpl obind.
    destruct (reverse_loop_spec (8 * Z.of_nat bytes) n v 0) as (r & -> & Br & Tr); try lia.
    exists r. split; [done|]. split; [done|]. intros i Hi. rewrite Tr by lia.
    destruct (i <? _); [done|]. apply Z.bits_0. }
  split.
  - destruct (R size val Hs Hv) as (r & -> & Br & Tr). exists r. split; [done|]. split.
    + assert (r = uwrap (8 * Z.of_nat size) r) as ->; [|apply uwrap_range; lia].
      apply Z.bits_inj'. intros i Hi. rewrite testbit_uwrap by lia.
      destruct (Z.ltb_spec i (8 * Z.of_nat bytes)).
      * rewrite Tr by lia. by destruct (i <? _).
      * rewrite (testbit_high (8 * Z.of_nat bytes) r) by lia. by rewrite andb_false_r.
    + intros i Hi. rewrite Tr by lia. by replace (i <? 8 * Z.of_nat size) with true by lia.
  - destruct (R bytes val ltac:(lia) Hv) as (r & -> & Br & Tr). cbn [obind].
    destruct (R bytes r ltac:(lia) Br) as (r' & -> & Br' & Tr'). f_equal.
    apply Z.bits_inj'. intros i Hi. destruct (Z.ltb_spec i (8 * Z.of_nat bytes)).
    + rewrite Tr' by lia. replace (i <? 8 * Z.of_nat bytes) with true by lia. cbn [andb].
      rewrite Tr by lia. replace (_ <? _) with true by lia. cbn [andb]. f_equal. lia.
    + by rewrite !(testbit_high (8 * Z.of_nat bytes)) by lia.
Qed.
