(* ===== verification/Intmath.v ===== *)
(** Integer arithmetic helpers, [base/intmath.hh]: logarithms, powers of two,
    ceiling division, double-width products and alignment.  A template
    parameter [T] is the width [w] of its unsigned type; the unsigned functions
    take values of [[0, 2^w)]. *)
From Stdlib Require Import ZArith Lia Bool.
From stdpp Require Import base list.
From S2P Require Import Prelude Bitfield.
Local Open Scope Z_scope.

(** ** Definitions *)

(** [if (ux & m) { y += k; ux >>= k; }]. *)
Definition log_step (m k : Z) (s : Z * Z) : Z * Z :=
  if Z.land s.2 m =? 0 then s else (s.1 + k, Z.shiftr s.2 k).

Definition floorLog2 (w x : Z) : outcome Z :=
  let? _ := ocheck (0 <? x) AssertFailed in
  let s := (0, x) in
  let s := if 64 <=? w then log_step 0xffffffff00000000 32 s else s in
  let s := if 32 <=? w then log_step 0x00000000ffff0000 16 s else s in
  let s := if 16 <=? w then log_step 0x000000000000ff00 8 s else s in
  let s := log_step 0x00000000000000f0 4 s in
  let s := log_step 0x000000000000000c 2 s in
  Ok (if Z.land s.2 0x2 =? 0 then s.1 else s.1 + 1).

Definition ceilLog2 (w n : Z) : outcome Z :=
  let? _ := ocheck (0 <? n) AssertFailed in
  if n =? 1 then Ok 0 else
  let? l := floorLog2 w (n - 1) in Ok (l + 1).

Definition isPowerOf2 (w n : Z) : bool :=
  negb (n =? 0) && (Z.land n (uwrap w (n - 1)) =? 0).

Definition divCeil (a b : Z) : outcome Z := udiv (u64 (u64 (a + b) - 1)) b.

(** The products of types of at most 32 bits. *)
Definition mulUnsigned (w val_a val_b : Z) : Z * Z :=
  let product := u64 (val_a * val_b) in
  (uwrap w (Z.shiftr product w), uwrap w product).

Definition mulSigned (w val_a val_b : Z) : Z * Z :=
  let product := u64 (i64 (val_a * val_b)) in
  (swrap w (Z.shiftr product w), swrap w product).

Definition mulUnsignedManual (val_a val_b : Z) : Z * Z :=
  let low := u64 (val_a * val_b) in
  let A := u32 (Z.shiftr val_a 32) in
  let a := u32 val_a in
  let B := u32 (Z.shiftr val_b 32) in
  let b := u32 val_b in
  let ab := u64 (a * b) in
  let Ab := u64 (A * b) in
  let aB := u64 (a * B) in
  let AB := u64 (A * B) in
  let c1 := u32 (Z.shiftr ab 32) in
  let c2 := u64 (u64 (Z.shiftr c1 1 + Z.shiftr Ab 1) + Z.shiftr aB 1) in
  let c2 := u64 (c2 + Z.shiftr (u64 (u64 (Z.land c1 1 + Z.land Ab 1) + Z.land aB 1)) 1) in
  let c2 := Z.shiftr c2 31 in
  (u64 (AB + c2), low).

(** The 64-bit product, with or without a 128-bit type. *)
Definition mulUnsigned64 (has_int128 : bool) (val_a val_b : Z) : Z * Z :=
  if has_int128 then
    let val := uwrap 128 (val_a * val_b) in (u64 (Z.shiftr val 64), u64 val)
  else mulUnsignedManual val_a val_b.

Definition mulSignedManual (has_int128 : bool) (val_a val_b : Z) : Z * Z :=
  let (u_high, u_low) := mulUnsigned64 has_int128 (u64 val_a) (u64 val_b) in
  let u_high := if val_a <? 0 then u64 (u_high - u64 val_b) else u_high in
  let u_high := if val_b <? 0 then u64 (u_high - u64 val_a) else u_high in
  (i64 u_high, i64 u_low).

Definition mulSigned64 (has_int128 : bool) (val_a val_b : Z) : Z * Z :=
  if has_int128 then
    let val := swrap 128 (val_a * val_b) in (i64 (Z.shiftr val 64), i64 val)
  else mulSignedManual has_int128 val_a val_b.

Definition roundUp (val align : Z) : outcome Z :=
  let? _ := ocheck (isPowerOf2 64 align) AssertFailed in
  let mask := u64 (u64 align - 1) in
  Ok (Z.land (u64 (val + mask)) (lnot64 mask)).

Definition roundDown (val align : Z) : outcome Z :=
  let? _ := ocheck (isPowerOf2 64 align) AssertFailed in
  let mask := u64 (u64 align - 1) in
  Ok (Z.land val (lnot64 mask)).

Definition log2i (value : Z) : outcome Z :=
  let? _ := ocheck (isPowerOf2 32 value && (0 <? value)) AssertFailed in
  Ok (ctz32 value).

(** ** Logarithms *)
Lemma land_high_mask x k : 0 < k -> 0 <= x < 2 ^ (k + k) ->
  Z.land x (Z.shiftl (Z.ones k) k) = 0 <-> x < 2 ^ k.
Proof.
  intros Hk Hx. split.
  - intros E. destruct (Z.ltb_spec x (2 ^ k)) as [|Hge]; [done|]. exfalso.
    assert (0 < 2 ^ k) by (apply Z.pow_pos_nonneg; lia).
    assert (k <= Z.log2 x < k + k) as L.
    { split; [apply Z.log2_le_pow2; lia|apply Z.log2_lt_pow2; lia]. }
    pose proof (Z.bit_log2 x ltac:(lia)) as T.
    assert (Z.testbit (Z.land x (Z.shiftl (Z.ones k) k)) (Z.log2 x) = true) as T'; [|by rewrite E, Z.bits_0 in T'].
    rewrite Z.land_spec, T, Z.shiftl_spec, Z.testbit_ones by lia. lia.
  - intros Hs. apply Z.bits_inj'. intros i Hi. rewrite Z.land_spec, Z.bits_0, Z.shiftl_spec by lia.
    destruct (Z.ltb_spec i k).
    + rewrite (Z.testbit_neg_r (Z.ones k)) by lia. by rewrite andb_false_r.
    + by rewrite (testbit_high k) by lia.
Qed.

Lemma log_step_spec m k y x :
  0 < k -> m = Z.shiftl (Z.ones k) k -> 0 < x < 2 ^ (k + k) ->
  exists y' x', log_step m k (y, x) = (y', x') /\ 0 < x' < 2 ^ k /\ y' + Z.log2 x' = y + Z.log2 x.
Proof.
  intros Hk -> Hx. unfold log_step. cbn [fst snd].
  pose proof (land_high_mask x k Hk ltac:(lia)) as L.
  assert (0 < 2 ^ k) by (apply Z.pow_pos_nonneg; lia).
  destruct (Z.eqb_spec (Z.land x (Z.shiftl (Z.ones k) k)) 0) as [E|E].
  - exists y, x. apply L in E. split; [done|]. lia.
  - eexists _, _. split; [done|]. assert (2 ^ k <= x) by (apply Z.nlt_ge; tauto).
    rewrite Z.log2_shiftr, Z.shiftr_div_pow2 by lia. split.
    + split; [apply Z.div_str_pos; lia|]. apply Z.div_lt_upper_bound; [lia|].
      rewrite <- Z.pow_add_r by lia. lia.
    + assert (k <= Z.log2 x) by (apply Z.log2_le_pow2; lia). lia.
Qed.

Lemma floorLog2_log2 w x :
  w = 8 \/ w = 16 \/ w = 32 \/ w = 64 -> 0 < x < 2 ^ w -> floorLog2 w x = Ok (Z.log2 x).
Proof.
  intros Hw Hx. unfold floorLog2. replace (0 <? x) with true by lia. cbn [ocheck obind]. cbv zeta.
  assert (exists y1 x1, (if 64 <=? w then log_step 0xffffffff00000000 32 (0, x) else (0, x)) = (y1, x1) /\
    0 < x1 < 2 ^ Z.min w 32 /\ y1 + Z.log2 x1 = Z.log2 x) as (y1 & x1 & -> & B1 & E1).
  { destruct (Z.leb_spec 64 w).
    - assert (w = 64) as -> by lia. apply (log_step_spec _ 32 0 x); [lia|done|exact Hx].
    - exists 0, x. rewrite Z.min_l by lia. split; [done|lia]. }
  assert (exists y2 x2, (if 32 <=? w then log_step 0x00000000ffff0000 16 (y1, x1) else (y1, x1)) = (y2, x2) /\
    0 < x2 < 2 ^ Z.min w 16 /\ y2 + Z.log2 x2 = Z.log2 x) as (y2 & x2 & -> & B2 & E2).
  { destruct (Z.leb_spec 32 w).
    - rewrite Z.min_r in B1 |- * by lia. rewrite <- E1. apply (log_step_spec _ 16 y1 x1); [lia|done|exact B1].
    - exists y1, x1. rewrite Z.min_l in B1 |- * by lia. split; [done|lia]. }
  assert (exists y3 x3, (if 16 <=? w then log_step 0x000000000000ff00 8 (y2, x2) else (y2, x2)) = (y3, x3) /\
    0 < x3 < 2 ^ 8 /\ y3 + Z.log2 x3 = Z.log2 x) as (y3 & x3 & -> & B3 & E3).
  { destruct (Z.leb_spec 16 w).
    - rewrite Z.min_r in B2 by lia. rewrite <- E2. apply (log_step_spec _ 8 y2 x2); [lia|done|exact B2].
    - assert (w = 8) as -> by lia. exists y2, x2. split; [done|]. change (Z.min 8 16) with 8 in B2. lia. }
  destruct (log_step_spec 0xf0 4 y3 x3) as (y4 & x4 & -> & B4 & E4); [lia|done|exact B3|].
  destruct (log_step_spec 0xc 2 y4 x4) as (y5 & x5 & -> & B5 & E5); [lia|done|exact B4|].
  cbn [fst snd]. f_equal. change (2 ^ 2) with 4 in B5.
  assert (Z.log2 x5 = if Z.land x5 2 =? 0 then 0 else 1) as L5.
  { by assert (x5 = 1 \/ x5 = 2 \/ x5 = 3) as [->|[->| ->]] by lia. }
  destruct (Z.land x5 2 =? 0); lia.
Qed.

Lemma ceilLog2_log2_up w x :
  w = 8 \/ w = 16 \/ w = 32 \/ w = 64 -> 0 < x < 2 ^ w -> ceilLog2 w x = Ok (Z.log2_up x).
Proof.
  intros Hw Hx. unfold ceilLog2. replace (0 <? x) with true by lia. cbn [ocheck obind].
  destruct (Z.eqb_spec x 1) as [->|]; [done|]. rewrite floorLog2_log2 by lia. cbn [obind].
  rewrite Z.log2_up_eqn by lia. rewrite Z.add_1_r, Z.sub_1_r. done.
Qed.

(** ** Powers of two *)
Lemma isPowerOf2_spec w n : 0 <= n < 2 ^ w ->
  isPowerOf2 w n = true <-> exists k, 0 <= k /\ n = 2 ^ k.
Proof.
  intros Hn. unfold isPowerOf2. destruct (Z.eqb_spec n 0) as [->|].
  { split; [done|]. intros (k & Hk & E). pose proof (Z.pow_pos_nonneg 2 k). lia. }
  cbn [negb andb]. rewrite uwrap_small by lia. rewrite Z.eqb_eq. split.
  - intros E. exists (Z.log2 n). split; [apply Z.log2_nonneg|].
    pose proof (Z.log2_spec n ltac:(lia)) as [L1 L2].
    destruct (Z.eq_dec n (2 ^ Z.log2 n)) as [|D]; [done|]. exfalso.
    assert (Z.log2 (n - 1) = Z.log2 n) as EL.
    { apply Z.log2_unique; [apply Z.log2_nonneg|]. lia. }
    assert (Z.testbit (Z.land n (n - 1)) (Z.log2 n) = true) as T; [|by rewrite E, Z.bits_0 in T].
    rewrite Z.land_spec, Z.bit_log2 by lia. rewrite <- EL. apply Z.bit_log2.
    pose proof (Z.pow_pos_nonneg 2 (Z.log2 n) ltac:(lia) (Z.log2_nonneg n)). lia.
  - intros (k & Hk & ->). rewrite Z.sub_1_r, <- Z.ones_equiv, Z.land_ones by lia. apply Z.mod_same.
    pose proof (Z.pow_pos_nonneg 2 k). lia.
Qed.

(** ** Products *)
Lemma halves x : 0 <= x < 2 ^ 64 ->
  x = 2 ^ 32 * u32 (Z.shiftr x 32) + u32 x /\
  0 <= u32 (Z.shiftr x 32) < 2 ^ 32 /\ 0 <= u32 x < 2 ^ 32.
Proof.
  intros Hx. rewrite Z.shiftr_div_pow2 by lia.
  rewrite (uwrap_small 32 (x / 2 ^ 32)).
  2:{ split; [apply Z.div_pos; lia|apply Z.div_lt_upper_bound; lia]. }
  unfold uwrap. pose proof (Z.div_mod x (2 ^ 32) ltac:(lia)).
  pose proof (Z.mod_pos_bound x (2 ^ 32) ltac:(lia)).
  split; [lia|]. split; [|lia]. split; [apply Z.div_pos; lia|apply Z.div_lt_upper_bound; lia].
Qed.

(** The carry of three addends, computed without overflow. *)
Lemma half_sum x y z :
  0 <= x < 2 ^ 32 -> 0 <= y < 2 ^ 64 - 2 ^ 32 -> 0 <= z < 2 ^ 64 - 2 ^ 32 ->
  u64 (u64 (u64 (Z.shiftr x 1 + Z.shiftr y 1) + Z.shiftr z 1) +
       Z.shiftr (u64 (u64 (Z.land x 1 + Z.land y 1) + Z.land z 1)) 1) = (x + y + z) / 2.
Proof.
  intros Hx Hy Hz. change 1 with (Z.ones 1) at 4 5 6. rewrite !Z.land_ones by lia.
  rewrite !Z.shiftr_div_pow2 by lia. change (2 ^ 1) with 2.
  assert (x / 2 < 2 ^ 31) by (apply Z.div_lt_upper_bound; lia).
  assert (y / 2 < 2 ^ 63 - 2 ^ 31) by (apply Z.div_lt_upper_bound; lia).
  assert (z / 2 < 2 ^ 63 - 2 ^ 31) by (apply Z.div_lt_upper_bound; lia).
  pose proof (Z.div_pos x 2). pose proof (Z.div_pos y 2). pose proof (Z.div_pos z 2).
  pose proof (Z.mod_pos_bound x 2). pose proof (Z.mod_pos_bound y 2). pose proof (Z.mod_pos_bound z 2).
  rewrite (uwrap_small 64 (x mod 2 + y mod 2)) by lia.
  rewrite (uwrap_small 64 (x mod 2 + y mod 2 + z mod 2)) by lia.
  rewrite (uwrap_small 64 (x / 2 + y / 2)) by lia.
  rewrite (uwrap_small 64 (x / 2 + y / 2 + z / 2)) by lia.
  assert (x / 2 + y / 2 + z / 2 + (x mod 2 + y mod 2 + z mod 2) / 2 = (x + y + z) / 2) as ->
    by (Z.to_euclidean_division_equations; lia).
  apply uwrap_small. split; [apply Z.div_pos; lia|apply Z.div_lt_upper_bound; lia].
Qed.

Lemma mulUnsignedManual_spec va vb : 0 <= va < 2 ^ 64 -> 0 <= vb < 2 ^ 64 ->
  mulUnsignedManual va vb = ((va * vb) / 2 ^ 64, (va * vb) mod 2 ^ 64).
Proof.
  intros Ha Hb. unfold mulUnsignedManual. cbv zeta. f_equal.
  destruct (halves va Ha) as (Ea & BA & Ba). destruct (halves vb Hb) as (Eb & BB & Bb).
  set (A := u32 (Z.shiftr va 32)) in *. set (a := u32 va) in *.
  set (B := u32 (Z.shiftr vb 32)) in *. set (b := u32 vb) in *.
  assert (forall x y, 0 <= x < 2 ^ 32 -> 0 <= y < 2 ^ 32 -> 0 <= x * y <= (2 ^ 32 - 1) * (2 ^ 32 - 1)) as P
    by (intros; nia).
  pose proof (P a b Ba Bb). pose proof (P A b BA Bb). pose proof (P a B Ba BB). pose proof (P A B BA BB).
  rewrite !(uwrap_small 64 (_ * _)) by lia.
  rewrite (Z.shiftr_div_pow2 (a * b)) by lia.
  rewrite (uwrap_small 32 (a * b / 2 ^ 32)).
  2:{ split; [apply Z.div_pos; lia|apply Z.div_lt_upper_bound; lia]. }
  assert (0 <= a * b / 2 ^ 32 < 2 ^ 32) by (split; [apply Z.div_pos; lia|apply Z.div_lt_upper_bound; lia]).
  rewrite half_sum by lia.
  rewrite Z.shiftr_div_pow2, Z.div_div by lia. change (2 * 2 ^ 31) with (2 ^ 32).
  assert (va * vb = 2 ^ 64 * (A * B) + 2 ^ 32 * (A * b + a * B) + a * b) as E by (rewrite Ea, Eb; ring).
  assert (va * vb / 2 ^ 64 = A * B + (a * b / 2 ^ 32 + A * b + a * B) / 2 ^ 32) as <-.
  { rewrite E. change (2 ^ 64) with (2 ^ 32 * 2 ^ 32) at 1 2.
    rewrite <- Z.div_div by lia.
    replace (2 ^ 32 * 2 ^ 32 * (A * B) + 2 ^ 32 * (A * b + a * B) + a * b)
      with (a * b + (2 ^ 32 * (A * B) + (A * b + a * B)) * 2 ^ 32) by ring.
    rewrite Z.div_add by lia.
    replace (a * b / 2 ^ 32 + (2 ^ 32 * (A * B) + (A * b + a * B)))
      with (a * b / 2 ^ 32 + A * b + a * B + (A * B) * 2 ^ 32) by ring.
    rewrite Z.div_add by lia. lia. }
  apply uwrap_small. split; [apply Z.div_pos; nia|apply Z.div_lt_upper_bound; nia].
Qed.

Lemma mulUnsigned64_spec g va vb : 0 <= va < 2 ^ 64 -> 0 <= vb < 2 ^ 64 ->
  mulUnsigned64 g va vb = ((va * vb) / 2 ^ 64, (va * vb) mod 2 ^ 64).
Proof.
  intros Ha Hb. unfold mulUnsigned64. destruct g; [|by apply mulUnsignedManual_spec].
  cbv zeta. rewrite (uwrap_small 128 (va * vb)) by nia.
  rewrite Z.shiftr_div_pow2 by lia. f_equal. apply uwrap_small.
  split; [apply Z.div_pos; nia|apply Z.div_lt_upper_bound; nia].
Qed.

Lemma swrap_cong w x y : uwrap w x = uwrap w y -> swrap w x = swrap w y.
Proof.
  unfold uwrap, swrap. intros E. f_equal.
  by rewrite <- Zplus_mod_idemp_l, E, Zplus_mod_idemp_l.
Qed.

Lemma uwrap_signed w x : 0 < w -> - 2 ^ (w - 1) <= x < 2 ^ (w - 1) ->
  uwrap w x = if x <? 0 then x + 2 ^ w else x.
Proof.
  intros Hw Hx. assert (2 ^ w = 2 * 2 ^ (w - 1)) by (rewrite <- Z.pow_succ_r by lia; f_equal; lia).
  unfold uwrap. destruct (Z.ltb_spec x 0); [|apply Z.mod_small; lia].
  rewrite <- (Z.mod_add x 1) by lia. rewrite Z.mul_1_l. apply Z.mod_small. lia.
Qed.

Lemma uwrap_add_mul w x k : uwrap w (x + k * 2 ^ w) = uwrap w x.
Proof. unfold uwrap. apply Z_mod_plus_full. Qed.

Lemma uwrap_sub_l w x y : uwrap w (uwrap w x - y) = uwrap w (x - y).
Proof. unfold uwrap. apply Zminus_mod_idemp_l. Qed.

Lemma uwrap_sub_r w x y : uwrap w (x - uwrap w y) = uwrap w (x - y).
Proof. unfold uwrap. apply Zminus_mod_idemp_r. Qed.

(** The high word of the manual signed product, before its conversion. *)
Lemma mulSignedManual_high va vb :
  - 2 ^ 63 <= va < 2 ^ 63 -> - 2 ^ 63 <= vb < 2 ^ 63 ->
  let h := (u64 va * u64 vb) / 2 ^ 64 in
  let h := if va <? 0 then u64 (h - u64 vb) else h in
  let h := if vb <? 0 then u64 (h - u64 va) else h in
  u64 h = u64 (va * vb / 2 ^ 64) /\ u64 ((u64 va * u64 vb) mod 2 ^ 64) = u64 (va * vb).
Proof.
  intros Ha Hb. pose proof (uwrap_signed 64 va ltac:(lia) Ha) as Ea.
  pose proof (uwrap_signed 64 vb ltac:(lia) Hb) as Eb. cbv zeta. split.
  - set (s := if va <? 0 then 1 else 0). set (t := if vb <? 0 then 1 else 0).
    assert ((u64 va * u64 vb) / 2 ^ 64 = va * vb / 2 ^ 64 + (s * vb + t * va + 2 ^ 64 * (s * t))) as ->.
    { assert (u64 va * u64 vb = va * vb + (s * vb + t * va + 2 ^ 64 * (s * t)) * 2 ^ 64) as ->
        by (rewrite Ea, Eb; unfold s, t; destruct (va <? 0), (vb <? 0); ring).
      apply Z.div_add. lia. }
    unfold s, t. clear. destruct (va <? 0), (vb <? 0);
      rewrite ?uwrap_sub_r, ?uwrap_sub_l, ?uwrap_idemp, ?uwrap_sub_r;
      try (f_equal; lia).
    rewrite <- (uwrap_add_mul 64 _ (-1)). f_equal. lia.
  - change ((u64 va * u64 vb) mod 2 ^ 64) with (u64 (u64 va * u64 vb)). rewrite uwrap_idemp.
    unfold uwrap. symmetry. apply Z.mul_mod. lia.
Qed.

Lemma mulSigned64_spec g va vb :
  - 2 ^ 63 <= va < 2 ^ 63 -> - 2 ^ 63 <= vb < 2 ^ 63 ->
  mulSigned64 g va vb = (va * vb / 2 ^ 64, i64 (va * vb)).
Proof.
  intros Ha Hb. assert (- 2 ^ 126 <= va * vb <= 2 ^ 126) as P by nia.
  assert (- 2 ^ 63 <= va * vb / 2 ^ 64 < 2 ^ 63) as Q.
  { split; [apply Z.div_le_lower_bound; lia|apply Z.div_lt_upper_bound; lia]. }
  unfold mulSigned64. destruct g; cbv zeta.
  - rewrite (swrap_small 128) by lia. rewrite Z.shiftr_div_pow2 by lia.
    by rewrite (swrap_small 64 (_ / _)) by lia.
  - unfold mulSignedManual. rewrite mulUnsigned64_spec by (apply uwrap_range; lia).
    destruct (mulSignedManual_high va vb Ha Hb) as [E1 E2]. cbv zeta in E1.
    apply swrap_cong in E1, E2. rewrite E1, E2. f_equal. apply swrap_small; lia.
Qed.

(** ** Alignment *)
Lemma land_lnot_mask x k : 0 <= x < 2 ^ 64 -> 0 <= k < 64 ->
  Z.land x (lnot64 (u64 (u64 (2 ^ k) - 1))) = 2 ^ k * (x / 2 ^ k).
Proof.
  intros Hx Hk. assert (0 < 2 ^ k < 2 ^ 64)
    by (split; [apply Z.pow_pos_nonneg|apply Z.pow_lt_mono_r]; lia).
  rewrite (uwrap_small 64 (2 ^ k)), uwrap_small by lia.
  rewrite Z.sub_1_r, <- Z.ones_equiv, Z.mul_comm, <- Z.shiftl_mul_pow2, <- Z.shiftr_div_pow2 by lia.
  apply Z.bits_inj'. intros i Hi.
  rewrite Z.land_spec, testbit_lnot64, Z.testbit_ones, Z.shiftl_spec by lia.
  destruct (Z.ltb_spec i k).
  - rewrite (Z.testbit_neg_r (Z.shiftr x k)) by lia. replace (0 <=? i) with true by lia.
    cbn [andb negb]. by rewrite !andb_false_r.
  - rewrite Z.shiftr_spec by lia. replace (i - k + k) with i by lia.
    rewrite andb_false_r. cbn [negb]. rewrite andb_true_r.
    destruct (Z.ltb_spec i 64); [by rewrite andb_true_r|].
    by rewrite (testbit_high 64 x) by lia.
Qed.

Lemma roundDown_spec val k : 0 <= val < 2 ^ 64 -> 0 <= k < 64 ->
  roundDown val (2 ^ k) = Ok (2 ^ k * (val / 2 ^ k)).
Proof.
  intros Hv Hk. unfold roundDown.
  assert (0 < 2 ^ k < 2 ^ 64) by (split; [apply Z.pow_pos_nonneg|apply Z.pow_lt_mono_r]; lia).
  rewrite (proj2 (isPowerOf2_spec 64 (2 ^ k) ltac:(lia))) by (exists k; split; [lia|done]).
  cbn [ocheck obind]. cbv zeta. by rewrite land_lnot_mask by lia.
Qed.

Lemma roundUp_spec val k : 0 <= val < 2 ^ 64 -> 0 <= k < 64 ->
  roundUp val (2 ^ k) = Ok (2 ^ k * (u64 (val + 2 ^ k - 1) / 2 ^ k)).
Proof.
  intros Hv Hk. unfold roundUp.
  assert (0 < 2 ^ k < 2 ^ 64) by (split; [apply Z.pow_pos_nonneg|apply Z.pow_lt_mono_r]; lia).
  rewrite (proj2 (isPowerOf2_spec 64 (2 ^ k) ltac:(lia))) by (exists k; split; [lia|done]).
  cbn [ocheck obind]. cbv zeta. rewrite land_lnot_mask; [|apply uwrap_range; lia|lia].
  rewrite (uwrap_small 64 (2 ^ k)), (uwrap_small 64 (2 ^ k - 1)) by lia.
  by replace (val + (2 ^ k - 1)) with (val + 2 ^ k - 1) by lia.
Qed.

(** ** Properties *)

(** The logarithms of [intmath.hh] are the integer logarithms,
    at every width the template is used at, and [isPowerOf2] recognises the
    powers of two; on such a value [log2i] is its exponent. *)
Theorem intmath_logarithms w x :
  w = 8 \/ w = 16 \/ w = 32 \/ w = 64 -> 0 < x < 2 ^ w ->
  floorLog2 w x = Ok (Z.log2 x) /\ ceilLog2 w x = Ok (Z.log2_up x) /\
  (isPowerOf2 w x = true <-> x = 2 ^ Z.log2 x) /\
  (w = 32 -> log2i x = if x =? 2 ^ Z.log2 x then Ok (Z.log2 x) else Fault AssertFailed).
Proof.
  intros Hw Hx.
  assert (isPowerOf2 w x = true <-> x = 2 ^ Z.log2 x) as PW.
  { rewrite isPowerOf2_spec by lia. split.
    - intros (k & Hk & ->). by rewrite Z.log2_pow2 by lia.
    - intros E. exists (Z.log2 x). split; [apply Z.log2_nonneg|done]. }
  split; [by apply floorLog2_log2|]. split; [by apply ceilLog2_log2_up|]. split; [done|].
  intros ->. unfold log2i. replace (0 <? x) with true by lia. rewrite andb_true_r.
  destruct (Z.eqb_spec x (2 ^ Z.log2 x)) as [E|E].
  - rewrite (proj2 PW E). cbn [ocheck obind]. f_equal. unfold ctz32.
    replace (x =? 0) with false by lia. symmetry.
    apply (lowest_set_unique x); [|apply builtin_ctz_lowest; lia].
    pose proof (Z.log2_nonneg x). split; [done|]. split; [apply Z.bit_log2; lia|].
    intros j Hj. rewrite E. apply Z.pow2_bits_false. lia.
  - destruct (isPowerOf2 32 x); [|done]. by destruct E; apply PW.
Qed.

(** The double-width products built from 32-bit pieces, unsigned
    and signed, are the products the 128-bit type gives: high and low word of
    the exact product, with the signed high word rounding down. *)
Theorem wide_products va vb sa sb :
  0 <= va < 2 ^ 64 -> 0 <= vb < 2 ^ 64 ->
  - 2 ^ 63 <= sa < 2 ^ 63 -> - 2 ^ 63 <= sb < 2 ^ 63 ->
  mulUnsigned64 false va vb = mulUnsigned64 true va vb /\
  mulUnsigned64 true va vb = ((va * vb) / 2 ^ 64, (va * vb) mod 2 ^ 64) /\
  mulSigned64 false sa sb = mulSigned64 true sa sb /\
  mulSigned64 true sa sb = (sa * sb / 2 ^ 64, i64 (sa * sb)).
Proof.
  intros Ha Hb Hsa Hsb. rewrite !mulUnsigned64_spec, !mulSigned64_spec by done. done.
Qed.

(** C40 (bounds). [roundDown] and [roundUp] give the multiples of the alignment
    around a value; [roundUp] wraps to zero within one alignment of [2^64]. *)
Theorem alignment_rounds val k :
  0 <= val < 2 ^ 64 -> 0 <= k < 64 ->
  (exists d, roundDown val (2 ^ k) = Ok d /\ (2 ^ k | d) /\ d <= val < d + 2 ^ k) /\
  (exists u, roundUp val (2 ^ k) = Ok u /\ (2 ^ k | u) /\
     if val + 2 ^ k - 1 <? 2 ^ 64 then u - 2 ^ k < val <= u else u = 0).
Proof.
  intros Hv Hk. assert (0 < 2 ^ k < 2 ^ 64) as Bk
    by (split; [apply Z.pow_pos_nonneg|apply Z.pow_lt_mono_r]; lia).
  rewrite roundDown_spec, roundUp_spec by lia. split; eexists; (split; [done|]);
    (split; [apply Z.divide_factor_l|]).
  - pose proof (Z.div_mod val (2 ^ k) ltac:(lia)). pose proof (Z.mod_pos_bound val (2 ^ k)). lia.
  - destruct (Z.ltb_spec (val + 2 ^ k - 1) (2 ^ 64)).
    + rewrite uwrap_small by lia. pose proof (Z.div_mod (val + 2 ^ k - 1) (2 ^ k) ltac:(lia)).
      pose proof (Z.mod_pos_bound (val + 2 ^ k - 1) (2 ^ k)). lia.
    + unfold uwrap. rewrite <- (Z.mod_unique_pos (val + 2 ^ k - 1) (2 ^ 64) 1 (val + 2 ^ k - 1 - 2 ^ 64)) by lia.
      rewrite Z.div_small by lia. lia.
Qed.

Lemma alignment_rounds_witness :
  (exists d, roundDown 0x12345 (2 ^ 6) = Ok d /\ d <= 0x12345) /\
  (exists u, roundUp 0x12345 (2 ^ 6) = Ok u /\ 0x12345 <= u).
Proof.
  destruct (alignment_rounds 0x12345 6 ltac:(lia) ltac:(lia)) as [(d & Hd & _ & B) (u & Hu & _ & C)].
  simpl in C. split; [exists d|exists u]; (split; [done|lia]).
Defined.
