(* ===== verification/SatCounter.v ===== *)
(** Saturating counters, [base/sat_counter.hh]: [GenericSatCounter<T>] with [T] an
    unsigned type of [w] bits.  Every operator is shown to be the exact integer
    operation followed by a clamp to [[0, maxVal]]; the left shift only is so
    when the shifted value still fits in [T]. *)
From Stdlib Require Import ZArith Lia Bool.
From stdpp Require Import base list.
From S2P Require Import Prelude.
Local Open Scope Z_scope.

(** ** Definitions *)
Record GenericSatCounter := mkSatCounter { initialVal : Z; maxVal : Z; counter : Z }.

#[export] Instance GenericSatCounter_eq_dec : EqDecision GenericSatCounter.
Proof. solve_decision. Defined.

Definition new_GenericSatCounter (w bits initial_val : Z) : outcome GenericSatCounter :=
  let? _ := ocheck (bits <? 64) BadShift in
  let maxVal := uwrap w (u64 (Z.shiftl 1 bits - 1)) in
  let? _ := ocheck (negb (w <? bits)) Fatal in
  let? _ := ocheck (negb (maxVal <? initial_val)) Fatal in
  Ok (mkSatCounter initial_val maxVal initial_val).

Definition with_counter (n : Z) (c : GenericSatCounter) : GenericSatCounter :=
  mkSatCounter (initialVal c) (maxVal c) n.

(** The copy, the move - which leaves a zero-bit counter behind - and [swap]. *)
Definition copy_of (other : GenericSatCounter) : GenericSatCounter :=
  mkSatCounter (initialVal other) (maxVal other) (counter other).
Definition swap (a b : GenericSatCounter) : GenericSatCounter * GenericSatCounter := (b, a).
Definition copy_assign (this other : GenericSatCounter) : GenericSatCounter * GenericSatCounter :=
  let temp := copy_of other in
  let (this', _) := swap this temp in (this', other).
Definition move_from (w : Z) (other : GenericSatCounter) :
    outcome (GenericSatCounter * GenericSatCounter) :=
  let this := mkSatCounter (initialVal other) (maxVal other) (counter other) in
  let? temp := new_GenericSatCounter w 0 0 in
  let (other', _) := swap other temp in Ok (this, other').

Definition incr (c : GenericSatCounter) : GenericSatCounter :=
  if counter c <? maxVal c then with_counter (counter c + 1) c else c.
Definition post_incr (c : GenericSatCounter) : GenericSatCounter * GenericSatCounter :=
  let old_counter := copy_of c in (old_counter, incr c).

Definition decr (c : GenericSatCounter) : GenericSatCounter :=
  if 0 <? counter c then with_counter (counter c - 1) c else c.
Definition post_decr (c : GenericSatCounter) : GenericSatCounter * GenericSatCounter :=
  let old_counter := copy_of c in (old_counter, decr c).

(** The type a shift is carried out at: [int] for the types narrower than it. *)
Definition promoted (w : Z) : Z := Z.max 32 w.

Definition shift_right (w shift : Z) (c : GenericSatCounter) : outcome GenericSatCounter :=
  let? _ := ocheck (0 <=? shift) AssertFailed in
  let? _ := ocheck (shift <? promoted w) BadShift in
  Ok (with_counter (Z.shiftr (counter c) shift) c).

(** On the promoted [int], a left shift that leaves the unsigned range is undefined. *)
Definition shift_left (w shift : Z) (c : GenericSatCounter) : outcome GenericSatCounter :=
  let? _ := ocheck (0 <=? shift) AssertFailed in
  let? _ := ocheck (shift <? promoted w) BadShift in
  let? _ := ocheck ((32 <=? w) || (Z.shiftl (counter c) shift <? 2 ^ 32)) BadShift in
  let n := uwrap w (Z.shiftl (counter c) shift) in
  Ok (with_counter (if maxVal c <? n then maxVal c else n) c).

(** [-value] on [long long]. *)
Definition neg_ll (value : Z) : outcome Z :=
  if value =? - 2 ^ 63 then Fault SignedOverflow else Ok (- value).

(** The non-negative branches of [+=] and [-=]. *)
Definition add_nonneg (value : Z) (c : GenericSatCounter) : GenericSatCounter :=
  if value <=? maxVal c - counter c then with_counter (counter c + value) c
  else with_counter (maxVal c) c.
Definition sub_nonneg (value : Z) (c : GenericSatCounter) : GenericSatCounter :=
  if value <? counter c then with_counter (counter c - value) c else with_counter 0 c.

Definition add_assign (value : Z) (c : GenericSatCounter) : outcome GenericSatCounter :=
  if 0 <=? value then Ok (add_nonneg value c)
  else let? v := neg_ll value in Ok (sub_nonneg v c).

Definition sub_assign (value : Z) (c : GenericSatCounter) : outcome GenericSatCounter :=
  if 0 <=? value then Ok (sub_nonneg value c)
  else let? v := neg_ll value in Ok (add_nonneg v c).

Definition read (c : GenericSatCounter) : Z := counter c.
Definition reset_counter (c : GenericSatCounter) : GenericSatCounter := with_counter (initialVal c) c.
Definition isSaturated (c : GenericSatCounter) : bool := counter c =? maxVal c.
Definition saturate (c : GenericSatCounter) : Z * GenericSatCounter :=
  let diff := maxVal c - counter c in (diff, with_counter (maxVal c) c).

(** ** Invariant and abstract operations *)
Record sat_ok (w : Z) (c : GenericSatCounter) : Prop := {
  ok_max : 0 <= maxVal c < 2 ^ w;
  ok_init : 0 <= initialVal c <= maxVal c;
  ok_counter : 0 <= counter c <= maxVal c }.

(** The exact value brought back in range. *)
Definition clamp (c : GenericSatCounter) (n : Z) : GenericSatCounter :=
  with_counter (Z.max 0 (Z.min (maxVal c) n)) c.

Lemma clamp_ok w c n : sat_ok w c -> sat_ok w (clamp c n).
Proof. intros []. split; simpl; lia. Qed.

Lemma with_counter_eq c n n' : n = n' -> with_counter n c = with_counter n' c.
Proof. by intros ->. Qed.

Lemma with_counter_id c : with_counter (counter c) c = c.
Proof. by destruct c. Qed.

#[export] Hint Resolve with_counter_eq clamp_ok : gem5.

Lemma new_ok w bits i : 0 < w <= 64 -> 0 <= bits -> bits <= w -> bits < 64 -> 0 <= i < 2 ^ bits ->
  new_GenericSatCounter w bits i = Ok (mkSatCounter i (2 ^ bits - 1) i) /\
  sat_ok w (mkSatCounter i (2 ^ bits - 1) i).
Proof.
  intros Hw Hb Hbw Hb64 Hi. unfold new_GenericSatCounter. replace (bits <? 64) with true by lia.
  cbn [ocheck obind]. cbv zeta.
  assert (2 ^ bits <= 2 ^ w) by (apply Z.pow_le_mono_r; lia).
  assert (2 ^ bits < 2 ^ 64) by (apply Z.pow_lt_mono_r; lia).
  rewrite Z.shiftl_1_l. rewrite (uwrap_small 64), uwrap_small by lia.
  replace (w <? bits) with false by lia. replace (2 ^ bits - 1 <? i) with false by lia.
  split; [done|]. split; simpl; lia.
Qed.

Lemma new_Ok_inv w bits i c : 0 <= w -> 0 <= i -> new_GenericSatCounter w bits i = Ok c ->
  sat_ok w c /\ counter c = i /\ initialVal c = i.
Proof.
  intros Hw Hi H. unfold new_GenericSatCounter in H. inv_ok H.
  pose proof (uwrap_range w (u64 (Z.shiftl 1 bits - 1)) Hw).
  repeat match goal with H : ocheck _ _ = Ok _ |- _ => apply ocheck_Ok_inv in H end.
  injection H as <-. split; [|done]. split; simpl; lia.
Qed.

Lemma incr_clamp w c : sat_ok w c -> incr c = clamp c (counter c + 1).
Proof.
  intros []. unfold incr, clamp. destruct (Z.ltb_spec (counter c) (maxVal c)).
  - apply with_counter_eq. lia.
  - rewrite <- (with_counter_id c) at 1. apply with_counter_eq. lia.
Qed.

Lemma decr_clamp w c : sat_ok w c -> decr c = clamp c (counter c - 1).
Proof.
  intros []. unfold decr, clamp. destruct (Z.ltb_spec 0 (counter c)).
  - apply with_counter_eq. lia.
  - rewrite <- (with_counter_id c) at 1. apply with_counter_eq. lia.
Qed.

Lemma add_nonneg_clamp w v c : 0 <= v -> sat_ok w c -> add_nonneg v c = clamp c (counter c + v).
Proof.
  intros Hv []. unfold add_nonneg, clamp.
  destruct (Z.leb_spec v (maxVal c - counter c)); apply with_counter_eq; lia.
Qed.

Lemma sub_nonneg_clamp w v c : 0 <= v -> sat_ok w c -> sub_nonneg v c = clamp c (counter c - v).
Proof.
  intros Hv []. unfold sub_nonneg, clamp.
  destruct (Z.ltb_spec v (counter c)); apply with_counter_eq; lia.
Qed.

Lemma neg_ll_Ok v : - 2 ^ 63 < v -> neg_ll v = Ok (- v).
Proof. intros. unfold neg_ll. by replace (v =? - 2 ^ 63) with false by lia. Qed.

Lemma add_assign_clamp w v c : - 2 ^ 63 < v -> sat_ok w c -> add_assign v c = Ok (clamp c (counter c + v)).
Proof.
  intros Hv Hc. unfold add_assign. destruct (Z.leb_spec 0 v).
  - by erewrite add_nonneg_clamp.
  - rewrite neg_ll_Ok by lia. cbn [obind]. erewrite sub_nonneg_clamp by (done || lia).
    by rewrite Z.sub_opp_r.
Qed.

Lemma sub_assign_clamp w v c : - 2 ^ 63 < v -> sat_ok w c -> sub_assign v c = Ok (clamp c (counter c - v)).
Proof.
  intros Hv Hc. unfold sub_assign. destruct (Z.leb_spec 0 v).
  - by erewrite sub_nonneg_clamp.
  - rewrite neg_ll_Ok by lia. cbn [obind]. erewrite add_nonneg_clamp by (done || lia).
    by rewrite Z.add_opp_r.
Qed.

Lemma shift_right_clamp w k c : 0 <= k < 32 -> sat_ok w c ->
  shift_right w k c = Ok (clamp c (counter c / 2 ^ k)).
Proof.
  intros Hk []. unfold shift_right, promoted. replace (0 <=? k) with true by lia.
  replace (k <? Z.max 32 w) with true by lia. cbn [ocheck obind]. f_equal.
  unfold clamp. apply with_counter_eq. rewrite Z.shiftr_div_pow2 by lia.
  assert (0 < 2 ^ k) by (apply Z.pow_pos_nonneg; lia).
  pose proof (Z.div_pos (counter c) (2 ^ k)).
  assert (counter c / 2 ^ k <= counter c) by (apply Z.div_le_upper_bound; nia). lia.
Qed.

Lemma shift_left_clamp w k c : 0 <= w -> 0 <= k < 32 -> sat_ok w c -> counter c * 2 ^ k < 2 ^ w ->
  shift_left w k c = Ok (clamp c (counter c * 2 ^ k)).
Proof.
  intros Hw Hk [] Hfit. unfold shift_left, promoted. replace (0 <=? k) with true by lia.
  replace (k <? Z.max 32 w) with true by lia. rewrite Z.shiftl_mul_pow2 by lia.
  assert (0 < 2 ^ k) by (apply Z.pow_pos_nonneg; lia).
  assert ((32 <=? w) || (counter c * 2 ^ k <? 2 ^ 32) = true) as ->.
  { destruct (Z.leb_spec 32 w); [done|]. assert (2 ^ w < 2 ^ 32) by (apply Z.pow_lt_mono_r; lia).
    simpl. lia. }
  cbn [ocheck obind]. f_equal. unfold clamp. rewrite uwrap_small by nia.
  destruct (Z.ltb_spec (maxVal c) (counter c * 2 ^ k)); apply with_counter_eq; nia.
Qed.

(** ** Properties *)

(** On a counter in range every operator of [GenericSatCounter] is
    the exact operation on integers clamped to [[0, maxVal]] - with [<<=] under
    the condition that the shifted value fits in the counter's type - and so
    leaves the counter in range. *)
Theorem sat_counter_clamps w c v k :
  0 <= w -> sat_ok w c -> - 2 ^ 63 < v -> 0 <= k < 32 ->
  incr c = clamp c (counter c + 1) /\ decr c = clamp c (counter c - 1) /\
  add_assign v c = Ok (clamp c (counter c + v)) /\
  sub_assign v c = Ok (clamp c (counter c - v)) /\
  shift_right w k c = Ok (clamp c (counter c / 2 ^ k)) /\
  (counter c * 2 ^ k < 2 ^ w -> shift_left w k c = Ok (clamp c (counter c * 2 ^ k))) /\
  saturate c = (maxVal c - counter c, clamp c (maxVal c)) /\
  reset_counter c = clamp c (initialVal c) /\
  forall n, sat_ok w (clamp c n).
Proof.
  intros Hw Hc Hv Hk. split_and!; try (by eauto with gem5).
  - by eapply incr_clamp.
  - by eapply decr_clamp.
  - by eapply add_assign_clamp.
  - by eapply sub_assign_clamp.
  - by apply shift_right_clamp.
  - intros. by apply shift_left_clamp.
  - destruct Hc. unfold saturate, clamp. cbv zeta. f_equal. apply with_counter_eq. lia.
  - destruct Hc. unfold reset_counter, clamp. apply with_counter_eq. lia.
Qed.

(** The left shift of an 8-bit counter at 128 gives 0, not the maximum: the
    shifted value is cut to the type before it is compared with the maximum. *)
Theorem shift_left_wraps_to_zero :
  exists c, sat_ok 8 c /\ counter c = 128 /\ shift_left 8 1 c = Ok (with_counter 0 c).
Proof. exists (mkSatCounter 0 255 128). split; [split; simpl; lia|]. by split. Qed.
