(* ===== verification/ReplScan.v ===== *)
(** What the simple replacement policies share: an update of the data of one
    entry, and the scan of [getVictim] that keeps the best candidate so far.

    The scan is that of [LRU], [FIFO], [LFU] and [WeightedLRU]
    ([mem/cache/replacement_policies/]): it starts from the first candidate and
    replaces it by every candidate that is strictly better. *)
From stdpp Require Import base gmap list.
From Stdlib Require Import ZArith Lia.
From S2P Require Import Prelude ReplBase.

(** ** Definitions *)
Section Defs.
Context {P D X : Type}.
#[local] Abbreviation W := (world P D X).

(** Reads the data of [r], computes the new policy members and data, writes them. *)
Definition update_data (f : P -> Z -> D -> P * D) (r : loc) : M W unit :=
  let* d := get_data r in
  let* w := getS in
  let '(p', d') := f (policy w) (curTick w) d in
  do* putS (set_policy p' w) ;; put_data r d'.

(** [if (better(candidate, victim)) victim = candidate;] *)
Definition scan_body (better : D -> D -> bool) (victim candidate : loc) : M W (step loc) :=
  let* c := cand_get candidate in
  let* v := cand_get victim in
  ret (Continue (if better c v then candidate else victim)).

(** [assert(candidates.size() > 0); victim = candidates[0]; for (...) ...] *)
Definition scan (better : D -> D -> bool) (candidates : list loc) : M W (option loc) :=
  match candidates with
  | [] => throw AssertFailed
  | c0 :: _ => let* v := foreach candidates (scan_body better) c0 in ret (Some v)
  end.

End Defs.

(** ** Updates *)
Section Updates.
Context {P D X : Type}.
Implicit Types w : world P D X.

(** The world after an update. *)
Definition updated w (r : loc) (rd : ReplacementData D) (pd : P * D) : world P D X :=
  set_rds (<[r := mkReplacementData (entry rd) pd.2]> (rds w)) (set_policy pd.1 w).

Lemma update_data_Ok f w r rd : rds w !! r = Some rd ->
  update_data f r w = Ok (tt, updated w r rd (f (policy w) (curTick w) (data rd))).
Proof.
  intros H. unfold update_data. rewrite (bind_Ok _ _ _ _ _ (get_data_Ok _ _ _ H)).
  unfold bind at 1, getS. destruct (f _ _ _) as [p' d']. unfold bind, putS.
  by rewrite (put_data_Ok _ r rd).
Qed.

Lemma update_data_Ok_inv f w w' r u : update_data f r w = Ok (u, w') ->
  exists rd, rds w !! r = Some rd /\ w' = updated w r rd (f (policy w) (curTick w) (data rd)).
Proof.
  intros H. unfold update_data in H. inv_ok H. apply get_data_Ok_inv in Hrun as (rd & Hr & <- & ->).
  exists rd. split; [done|]. unfold getS in *. injection Hrun0 as <- <-.
  destruct (f _ _ _) as [p' d']. unfold bind, putS in H.
  rewrite (put_data_Ok _ r rd) in H by done. by injection H.
Qed.

Lemma updated_frame w r rd pd : rds w !! r = Some rd ->
  frame w (updated w r rd pd) /\ (forall r', r' <> r -> rds (updated w r rd pd) !! r' = rds w !! r').
Proof.
  intros H. split.
  - split; [done|]. split; [|done]. simpl. rewrite fmap_insert. simpl. apply insert_id.
    by rewrite lookup_fmap, H.
  - intros r' Hne. simpl. by rewrite lookup_insert_ne.
Qed.

Lemma updated_data w r rd pd : rp_data (updated w r rd pd) = <[r := pd.2]> (rp_data w).
Proof. unfold rp_data. simpl. by rewrite fmap_insert. Qed.

Lemma update_data_frame f w w' r u : update_data f r w = Ok (u, w') ->
  frame w w' /\ (forall r', r' <> r -> rds w' !! r' = rds w !! r').
Proof. intros (rd & Hr & ->)%update_data_Ok_inv. by apply updated_frame. Qed.

Lemma update_data_total f w r : is_Some (rds w !! r) -> exists w', update_data f r w = Ok (tt, w').
Proof. intros [rd Hr]. eexists. by apply update_data_Ok. Qed.

Lemma update_data_stores f w w' r u : update_data f r w = Ok (u, w') ->
  exists d, rp_data w' !! r = Some d.
Proof.
  intros (rd & Hr & ->)%update_data_Ok_inv. rewrite updated_data, lookup_insert_eq. eauto.
Qed.

End Updates.

(** ** The scan finds the first of the best candidates *)

(** The strict part of a total preorder. *)
Class StrictWeak {D} (better : D -> D -> bool) : Prop := {
  sw_irrefl : forall d, better d d = false;
  sw_trans : forall a b c, better a b = true -> better b c = true -> better a c = true;
  sw_negtrans : forall a b c, better a b = false -> better b c = false -> better a c = false }.

(** Any integer key gives one. *)
#[export] Instance key_StrictWeak {D} (key : D -> Z) : StrictWeak (fun a b => key a <? key b).
Proof. split; intros; lia. Qed.

Lemma sw_asym {D} (better : D -> D -> bool) `{!StrictWeak better} a b :
  better a b = true -> better b a = false.
Proof.
  intros H. destruct (better b a) eqn:E; [|done].
  pose proof (sw_trans _ _ _ H E) as T. by rewrite sw_irrefl in T.
Qed.

(** Position [i] holds the first best of [ds]. *)
Definition first_best {D} (better : D -> D -> bool) (ds : list D) (i : nat) (d : D) : Prop :=
  ds !! i = Some d /\
  (forall j d', ds !! j = Some d' -> better d' d = false) /\
  (forall j d', (j < i)%nat -> ds !! j = Some d' -> better d d' = true).

Section Scan.
Context {P D X : Type} (better : D -> D -> bool) `{!StrictWeak better}.
Implicit Types w : world P D X.

Lemma scan_loop w cands ds v dv :
  cands_data w cands ds -> cand_data w v = Some dv ->
  exists v' d', foreach cands (scan_body better) v w = Ok (v', w) /\
    ((v' = v /\ d' = dv /\ Forall (fun d => better d dv = false) ds) \/
     (exists i, cands !! i = Some v' /\ first_best better ds i d' /\ better d' dv = true)).
Proof.
  intros HD. revert v dv. induction HD as [|c d cands ds Hc _ IH]; intros v dv Hv.
  { exists v, dv. split; [done|]. left. split_and!; try done; constructor. }
  cbn [foreach]. unfold scan_body at 1.
  rewrite (bind_Ok _ _ w (Continue (if better d dv then c else v)) w).
  2:{ rewrite (bind_Ok _ _ _ _ _ (cand_get_Ok _ _ _ Hc)).
      by rewrite (bind_Ok _ _ _ _ _ (cand_get_Ok _ _ _ Hv)). }
  destruct (better d dv) eqn:B.
  - destruct (IH c d Hc) as (v' & d' & -> & [(-> & -> & HF)|(i & Hi & (F1 & F2 & F3) & B')]);
      eexists _, _; (split; [done|]); right.
    + exists 0%nat. split; [done|]. split; [|done]. split; [done|].
      split; [|intros; lia]. intros [|j] d' Hj; simplify_eq/=; [apply sw_irrefl|].
      rewrite Forall_lookup in HF. by eapply HF.
    + exists (S i). split; [done|]. split; [|by eapply sw_trans]. split; [done|].
      split; intros [|j] d'' Hj; simplify_eq/=; eauto using sw_asym.
      * intros. simplify_eq/=. done.
      * intros. eapply F3; [|done]. lia.
  - destruct (IH v dv Hv) as (v' & d' & -> & [(-> & -> & HF)|(i & Hi & (F1 & F2 & F3) & B')]);
      eexists _, _; (split; [done|]).
    + left. split_and!; try done. by constructor.
    + right. exists (S i). split; [done|]. split; [|done]. split; [done|].
      split; intros [|j] d'' Hj; simplify_eq/=; eauto.
      * eapply sw_negtrans; [done|]. by apply sw_asym.
      * intros. simplify_eq/=. destruct (better d' d'') eqn:E; [done|].
        by rewrite (sw_negtrans _ _ _ E B) in B'.
      * intros. eapply F3; [|done]. lia.
Qed.

Lemma scan_first_best w c0 cands ds :
  cands_data w (c0 :: cands) ds ->
  exists i e d, scan better (c0 :: cands) w = Ok (Some e, w) /\
    (c0 :: cands) !! i = Some e /\ first_best better ds i d.
Proof.
  intros HD. inversion HD as [|? d0 ? ds' H0 _]; subst. unfold scan.
  destruct (scan_loop w _ _ c0 d0 HD H0) as (v & d & E & [(-> & -> & HF)|(i & Hi & F & _)]);
    rewrite (bind_Ok _ _ _ _ _ E).
  - exists 0%nat, c0, d0. split; [done|]. split; [done|]. split; [done|].
    split; [|intros; lia]. intros j d' Hj. rewrite Forall_lookup in HF. by eapply HF.
  - by exists i, v, d.
Qed.

End Scan.

(** A scan changes nothing and picks a candidate. *)
Section ScanReads.
Context {P D X : Type} (better : D -> D -> bool).
Implicit Types w : world P D X.

Lemma scan_body_Ok_inv w w' v c r :
  scan_body better v c w = Ok (r, w') -> w' = w /\ (r = Continue c \/ r = Continue v).
Proof.
  intros H. unfold scan_body in H. inv_ok H.
  apply cand_get_Ok_inv in Hrun as [_ ->], Hrun0 as [_ ->]. injection H as <- <-.
  split; [done|]. destruct (better _ _); auto.
Qed.

Lemma scan_Ok_inv w w' cands v :
  scan better cands w = Ok (v, w') -> w' = w /\ exists e, v = Some e /\ e ∈ cands.
Proof.
  destruct cands as [|c0 cands]; [done|]. intros H. unfold scan in H. inv_ok H.
  injection H as <- <-.
  assert (forall l x y s', foreach l (scan_body better) x w = Ok (y, s') ->
    s' = w /\ (y = x \/ y ∈ l)) as L.
  { induction l as [|b l IH]; intros x y s' E; simpl in E; [injection E as <- <-; auto|].
    inv_ok E. apply scan_body_Ok_inv in Hrun0 as [-> [-> | ->]];
      apply IH in E as [-> [->|?]]; split; auto; right; set_solver. }
  apply L in Hrun as [-> Ha]. split; [done|]. exists a. split; [done|]. set_solver.
Qed.

End ScanReads.

(** ** Candidates and their data objects *)
Section CandRds.
Context {P D X : Type}.
Implicit Types w : world P D X.

Definition cands_rds w (cands rs : list loc) : Prop :=
  Forall2 (fun e r => cand_rd w e = Some r) cands rs.

Lemma cands_rds_frame w w' cands rs : frame w w' -> cands_rds w cands rs -> cands_rds w' cands rs.
Proof. intros (E & _) H. unfold cands_rds, cand_rd in *. by rewrite E. Qed.

Lemma rd_ptr_Ok w e r : cand_rd w e = Some r -> rd_ptr e w = Ok (r, w).
Proof.
  unfold cand_rd, rd_ptr. intros H. destruct (entries w !! e) as [o|] eqn:E; [|done]. simpl in H.
  rewrite (bind_Ok _ _ _ _ _ (deref_entry_Ok _ _ _ E)). unfold lift. by rewrite H.
Qed.

Lemma rd_ptr_Ok_inv w w' e r : rd_ptr e w = Ok (r, w') -> cand_rd w e = Some r /\ w' = w.
Proof.
  unfold rd_ptr, cand_rd. intros H. inv_ok H. apply deref_entry_Ok_inv in Hrun as [He ->].
  apply lift_Ok_inv in H as [Hr%oget_Ok_inv ->]. by rewrite He.
Qed.

(** Live candidates have data objects, and conversely. *)
Lemma cands_data_rds w cands ds :
  cands_data w cands ds ->
  exists rs, cands_rds w cands rs /\ Forall2 (fun r d => rp_data w !! r = Some d) rs ds.
Proof.
  induction 1 as [|e d cs ds Hd _ (rs & HC & HL)]; [exists []; split; constructor|].
  apply cand_data_Some in Hd as (o & r & rd & He & Hr & Hrd & <-). exists (r :: rs). split.
  - constructor; [|done]. unfold cand_rd. by rewrite He.
  - constructor; [|done]. unfold rp_data. by rewrite lookup_fmap, Hrd.
Qed.

Lemma cands_rds_data_2 w cands rs ds :
  cands_rds w cands rs -> Forall2 (fun r d => rp_data w !! r = Some d) rs ds -> cands_data w cands ds.
Proof.
  intros HC. revert ds. induction HC as [|e r cands rs He HC IH]; intros ds HD; inversion HD as [|? d ? ds' Hd HD']; subst;
    constructor; [|by apply IH].
  unfold cand_data. rewrite He. simpl. unfold rp_data in Hd. by rewrite lookup_fmap in Hd.
Qed.

Lemma rp_data_Some w r d : rp_data w !! r = Some d -> exists rd, rds w !! r = Some rd /\ data rd = d.
Proof.
  unfold rp_data. rewrite lookup_fmap. intros (rd & Hr & ->)%fmap_Some. eauto.
Qed.

End CandRds.

(** ** Policies made of updates and a scan keep the interface's promises *)
Ltac update_frame_law :=
  intros X w w' r Hu; destruct Hu as [H|H|H]; by eapply update_data_frame, H.

Lemma scan_victim_frame {P D X} better (w w' : world P D X) cands v (live : D -> bool) :
  scan better cands w = Ok (v, w') ->
  frame w w' /\ (forall e, v = Some e -> e ∈ cands) /\
  (forall r d, rp_data w !! r = Some d -> live d = true ->
     exists d', rp_data w' !! r = Some d' /\ live d' = true).
Proof.
  intros (-> & e & -> & He)%scan_Ok_inv. split; [done|]. split; [by intros ? [= <-]|]. eauto.
Qed.

Lemma scan_victim_some {P D X} better `{!StrictWeak better} (w : world P D X) cands ds :
  cands <> [] -> cands_data w cands ds -> exists e, scan better cands w = Ok (Some e, w).
Proof.
  intros Hne HD. destruct cands as [|c0 cands]; [done|].
  destruct (scan_first_best better w c0 cands ds HD) as (i & e & d & E & _). eauto.
Qed.
