(* ===== verification/LRU.v ===== *)
(** The least recently used policy, [mem/cache/replacement_policies/lru_rp.hh] and
    [lru_rp.cc].

    The victim is characterised by the history of the policy's calls: it is the
    candidate whose last access is the oldest, never accessed and invalidated
    candidates counting as oldest, and the first such candidate. *)
From stdpp Require Import base gmap list.
From Stdlib Require Import ZArith Lia.
From S2P Require Import Prelude ReplBase ReplScan.

(** ** Definitions *)
Record LRUReplData := mkLRUReplData { lastTouchTick : Z }.
Definition new_LRUReplData : LRUReplData := mkLRUReplData 0.

(** The policy object has no member. *)
Inductive LRU := mkLRU.
Definition new_LRU : LRU := mkLRU.

Definition instantiateEntry (p : LRU) : outcome (LRUReplData * LRU) := Ok (new_LRUReplData, p).

(** What the operations do to the data; the policies derived from LRU do it to
    their own data and members. *)
Definition invalidate_data (d : LRUReplData) : LRUReplData := mkLRUReplData 0.
Definition touch_data (now : Z) (d : LRUReplData) : LRUReplData := mkLRUReplData now.
Definition reset_data (now : Z) (d : LRUReplData) : LRUReplData := mkLRUReplData now.

Section Ops.
Context {P X : Type}.
#[local] Abbreviation W := (world P LRUReplData X).

Definition invalidate (r : loc) : M W unit :=
  update_data (fun p _ d => (p, invalidate_data d)) r.
Definition touch (r : loc) : M W unit :=
  update_data (fun p now d => (p, touch_data now d)) r.
Definition reset (r : loc) : M W unit :=
  update_data (fun p now d => (p, reset_data now d)) r.

Definition older (c v : LRUReplData) : bool := lastTouchTick c <? lastTouchTick v.
Definition getVictim (candidates : list loc) : M W (option loc) := scan older candidates.

End Ops.

#[export] Instance LRU_policy : ReplacementPolicy LRU LRUReplData := {|
  rp_instantiateEntry := instantiateEntry;
  rp_invalidate X := invalidate (X := X);
  rp_touch X := touch (X := X);
  rp_reset X := reset (X := X);
  rp_getVictim X := getVictim (X := X) |}.

(** ** The promises of the interface *)
#[export] Instance older_StrictWeak : StrictWeak older.
Proof. apply (key_StrictWeak lastTouchTick). Qed.

#[export] Instance LRU_laws : ReplacementPolicyLaws LRU LRUReplData.
Proof.
  refine {| rp_live := fun _ => true; rp_inv := fun _ _ => True |}.
  - update_frame_law.
  - done.
  - intros X w w' r H. apply update_data_stores in H as [d Hd]. eauto.
  - intros X w w' r d H _ _. apply update_data_stores in H as [d' Hd]. eauto.
  - intros X w r. apply update_data_total.
  - intros X w r. apply update_data_total.
  - intros X w w' cands v. apply scan_victim_frame.
  - intros X w cands ds _ _ Hne HD _. destruct (scan_victim_some older w cands ds Hne HD) as [e He].
    eauto.
  - intros X w cands ds _ _ Hne HD. destruct (scan_victim_some older w cands ds Hne HD) as [e He].
    eauto.
  - done.
Defined.

(** ** Histories *)

(** A call of the policy, and when it was made. *)
Inductive lru_event := Touch (r : loc) | Reset (r : loc) | Invalidate (r : loc).

Definition lru_call {P X} (ev : Z * lru_event) : M (world P LRUReplData X) unit :=
  do* modifyS (fun w => mkWorld (policy w) (entries w) (rds w) ev.1) ;;
  match ev.2 with Touch r => touch r | Reset r => reset r | Invalidate r => invalidate r end.

Fixpoint lru_calls {P X} (h : list (Z * lru_event)) : M (world P LRUReplData X) unit :=
  match h with [] => ret tt | ev :: h' => do* lru_call ev ;; lru_calls h' end.

Definition event_loc (ev : lru_event) : loc :=
  match ev with Touch r | Reset r | Invalidate r => r end.

(** The tick of the last access to [r]; zero when it was invalidated since. *)
Fixpoint last_access (h : list (Z * lru_event)) (before : Z) (r : loc) : Z :=
  match h with
  | [] => before
  | (t, ev) :: h' =>
      let now := match ev with Invalidate _ => 0 | _ => t end in
      last_access h' (if decide (event_loc ev = r) then now else before) r
  end.

Lemma lru_call_Ok {P X} ev (w : world P LRUReplData X) :
  is_Some (rds w !! event_loc ev.2) ->
  exists w', lru_call ev w = Ok (tt, w') /\ entries w' = entries w /\ policy w' = policy w /\
    dom (rds w') = dom (rds w) /\
    forall r d, rp_data w !! r = Some d ->
      rp_data w' !! r = Some (mkLRUReplData (last_access [ev] (lastTouchTick d) r)).
Proof.
  intros [rd Hr]. destruct ev as [t ev]. unfold lru_call, bind, modifyS. cbn [fst snd] in *.
  set (w1 := mkWorld _ _ _ _).
  assert (forall f, exists w', update_data f (event_loc ev) w1 = Ok (tt, w') /\
    w' = updated w1 (event_loc ev) rd (f (policy w) t (data rd))) as U.
  { intros f. eexists. split; [by apply update_data_Ok|done]. }
  assert (forall pd, dom (rds (updated w1 (event_loc ev) rd pd)) = dom (rds w)) as DM.
  { intros pd. simpl. apply dom_insert_lookup_L. by exists rd. }
  destruct ev as [r|r|r]; cbn [event_loc] in *;
    [destruct (U (fun p now d => (p, touch_data now d))) as (w' & E & ->)
    |destruct (U (fun p now d => (p, reset_data now d))) as (w' & E & ->)
    |destruct (U (fun p _ d => (p, invalidate_data d))) as (w' & E & ->)];
    (eexists; split; [exact E|]; split_and!; [done|done|apply DM|]);
    intros r' d Hd; rewrite updated_data; cbn [last_access event_loc snd fst];
    (destruct (decide (r = r')) as [<-|Hne];
      [by rewrite lookup_insert_eq|rewrite lookup_insert_ne by done; by destruct d]).
Qed.

Lemma lru_calls_Ok {P X} h (w : world P LRUReplData X) :
  Forall (fun ev => is_Some (rds w !! event_loc ev.2)) h ->
  exists w', lru_calls h w = Ok (tt, w') /\ entries w' = entries w /\ policy w' = policy w /\
    forall r d, rp_data w !! r = Some d ->
      rp_data w' !! r = Some (mkLRUReplData (last_access h (lastTouchTick d) r)).
Proof.
  revert w. induction h as [|ev h IH]; intros w Hh.
  { exists w. split; [done|]. split_and!; try done. intros r [t] Hd. done. }
  apply Forall_cons in Hh as [H1 Hh].
  destruct (lru_call_Ok ev w H1) as (w1 & E1 & En1 & P1 & D1 & L1).
  destruct (IH w1) as (w2 & E2 & En2 & P2 & L2).
  { eapply Forall_impl; [exact Hh|]. intros ev' Hs. apply elem_of_dom. rewrite D1. by apply elem_of_dom. }
  exists w2. cbn [lru_calls]. rewrite (bind_Ok _ _ _ _ _ E1). split; [done|].
  split; [congruence|]. split; [congruence|]. intros r d Hd.
  rewrite (L2 _ _ (L1 _ _ Hd)). destruct ev as [t ev]. done.
Qed.

(** ** Properties *)

(** C32 (refinement). After any history of calls on live data, whatever the ticks
    they were made at, [LRU::getVictim] returns the candidate whose last access
    in the history is the oldest - an invalidation, or no access at all, counts
    as time zero - and the first such candidate in candidate order. *)
Theorem lru_victim_oldest_access {X} (w : world LRU LRUReplData X) h c0 cands rs :
  Forall (fun ev => is_Some (rds w !! event_loc ev.2)) h ->
  Forall2 (fun e r => cand_rd w e = Some r /\ rp_data w !! r = Some new_LRUReplData)
    (c0 :: cands) rs ->
  exists w' i e r, lru_calls h w = Ok (tt, w') /\ getVictim (c0 :: cands) w' = Ok (Some e, w') /\
    (c0 :: cands) !! i = Some e /\ rs !! i = Some r /\
    forall j r', rs !! j = Some r' -> last_access h 0 r <= last_access h 0 r' /\
      ((j < i)%nat -> last_access h 0 r < last_access h 0 r').
Proof.
  intros Hh HD. destruct (lru_calls_Ok h w Hh) as (w' & E & En & _ & L).
  assert (cands_data w' (c0 :: cands) ((fun r => mkLRUReplData (last_access h 0 r)) <$> rs)) as HD'.
  { unfold cands_data. rewrite Forall2_fmap_r. eapply Forall2_impl; [exact HD|].
    intros e r (Hr & Hd). unfold cand_data, cand_rd. rewrite En. unfold cand_rd in Hr.
    rewrite Hr. simpl. apply L in Hd. unfold rp_data in Hd. by rewrite lookup_fmap in Hd. }
  destruct (scan_first_best older w' _ _ _ HD') as (i & e & d & S & Hi & (F1 & F2 & F3)).
  rewrite list_lookup_fmap in F1. destruct (rs !! i) as [r|] eqn:Er; simplify_eq/=.
  exists w', i, e, r. split_and!; try done. intros j r' Hj.
  specialize (F2 j (mkLRUReplData (last_access h 0 r'))).
  specialize (F3 j (mkLRUReplData (last_access h 0 r'))).
  rewrite list_lookup_fmap, Hj in F2, F3. unfold older in F2, F3. simpl in F2, F3.
  split; [specialize (F2 eq_refl); lia|]. intros Hlt. specialize (F3 Hlt eq_refl). lia.
Qed.

(** Two entries, each with its own data. *)
Definition demo_world : world LRU LRUReplData unit :=
  mkWorld mkLRU
    {[1%positive := mkObject (mkReplaceableEntry 0 0 (Some 1%positive)) tt;
      2%positive := mkObject (mkReplaceableEntry 0 1 (Some 2%positive)) tt]}
    {[1%positive := mkReplacementData Null new_LRUReplData;
      2%positive := mkReplacementData Null new_LRUReplData]} 0.

Lemma lru_victim_oldest_access_witness :
  exists w' e, lru_calls [(10, Reset 1%positive); (20, Reset 2%positive); (30, Touch 1%positive)]
      demo_world = Ok (tt, w') /\
    getVictim [1%positive; 2%positive] w' = Ok (Some e, w') /\ e = 2%positive.
Proof.
  destruct (lru_victim_oldest_access demo_world
    [(10, Reset 1%positive); (20, Reset 2%positive); (30, Touch 1%positive)]
    1%positive [2%positive] [1%positive; 2%positive])
    as (w' & i & e & r & E & V & Hi & Hr & Hmin).
  - repeat constructor; eexists; vm_compute; reflexivity.
  - constructor; [|constructor; [|constructor]]; split; vm_compute; reflexivity.
  - exists w', e. split; [done|]. split; [done|].
    destruct i as [|[|i]]; simplify_eq/=; [|done].
    destruct (Hmin 1%nat 2%positive eq_refl) as [Hc _]. vm_compute in Hc. done.
Defined.
