(* ===== verification/MRU.v ===== *)
(** The most recently used policy, [mem/cache/replacement_policies/mru_rp.hh] and
    [mru_rp.cc]: the first candidate that was never touched or is invalid, and
    otherwise the candidate touched last. *)
From stdpp Require Import base gmap list.
From Stdlib Require Import ZArith Lia.
From S2P Require Import Prelude ReplBase ReplScan.

(** ** Definitions *)
Record MRUReplData := mkMRUReplData { lastTouchTick : Z }.
Definition new_MRUReplData : MRUReplData := mkMRUReplData 0.

Inductive MRU := mkMRU.
Definition new_MRU : MRU := mkMRU.

Definition instantiateEntry (p : MRU) : outcome (MRUReplData * MRU) := Ok (new_MRUReplData, p).

Section Ops.
Context {X : Type}.
#[local] Abbreviation W := (world MRU MRUReplData X).

Definition invalidate (r : loc) : M W unit :=
  update_data (fun p _ _ => (p, mkMRUReplData 0)) r.
Definition touch (r : loc) : M W unit :=
  update_data (fun p now _ => (p, mkMRUReplData now)) r.
Definition reset (r : loc) : M W unit :=
  update_data (fun p now _ => (p, mkMRUReplData now)) r.

(** The loop stops at a line that is not warm. *)
Definition mru_body (victim candidate : loc) : M W (step loc) :=
  let* c := cand_get candidate in
  if lastTouchTick c =? 0 then ret (Break candidate) else
  let* v := cand_get victim in
  ret (Continue (if lastTouchTick v <? lastTouchTick c then candidate else victim)).

Definition getVictim (candidates : list loc) : M W (option loc) :=
  match candidates with
  | [] => throw AssertFailed
  | c0 :: _ => let* v := foreach candidates mru_body c0 in ret (Some v)
  end.

End Ops.

#[export] Instance MRU_policy : ReplacementPolicy MRU MRUReplData := {|
  rp_instantiateEntry := instantiateEntry;
  rp_invalidate X := invalidate (X := X);
  rp_touch X := touch (X := X);
  rp_reset X := reset (X := X);
  rp_getVictim X := getVictim (X := X) |}.

(** ** The victim *)

(** A cold candidate beats a warm one, and then the latest touch wins. *)
Definition prefers (c v : MRUReplData) : bool :=
  if lastTouchTick v =? 0 then false
  else (lastTouchTick c =? 0) || (lastTouchTick v <? lastTouchTick c).

#[export] Instance prefers_StrictWeak : StrictWeak prefers.
Proof.
  split; unfold prefers.
  - intros d. destruct (Z.eqb_spec (lastTouchTick d) 0); [done|]. lia.
  - intros a b c. destruct (Z.eqb_spec (lastTouchTick b) 0), (Z.eqb_spec (lastTouchTick c) 0),
      (Z.eqb_spec (lastTouchTick a) 0); simpl; lia.
  - intros a b c. destruct (Z.eqb_spec (lastTouchTick b) 0), (Z.eqb_spec (lastTouchTick c) 0),
      (Z.eqb_spec (lastTouchTick a) 0); simpl; lia.
Qed.

Section Victim.
Context {X : Type}.
Implicit Types w : world MRU MRUReplData X.

(** Stopping at the first cold line finds what the full scan finds. *)
Lemma mru_loop_scan w cands ds v dv :
  cands_data w cands ds -> cand_data w v = Some dv -> lastTouchTick dv <> 0 ->
  foreach cands mru_body v w = foreach cands (scan_body prefers) v w.
Proof.
  intros HD. revert v dv. induction HD as [|c d cands ds Hc HD IH]; intros v dv Hv Hn; [done|].
  cbn [foreach].
  rewrite (bind_Ok (scan_body prefers v c) _ w (Continue (if prefers d dv then c else v)) w).
  2:{ unfold scan_body. rewrite (bind_Ok _ _ _ _ _ (cand_get_Ok _ _ _ Hc)).
      by rewrite (bind_Ok _ _ _ _ _ (cand_get_Ok _ _ _ Hv)). }
  unfold mru_body at 1.
  assert (prefers d dv = (lastTouchTick d =? 0) || (lastTouchTick dv <? lastTouchTick d)) as ->
    by (unfold prefers; by destruct (Z.eqb_spec (lastTouchTick dv) 0)).
  destruct (Z.eqb_spec (lastTouchTick d) 0) as [E|E].
  - rewrite (bind_Ok _ _ w (Break c) w).
    2:{ rewrite (bind_Ok _ _ _ _ _ (cand_get_Ok _ _ _ Hc)). by rewrite E. }
    cbn [orb]. destruct (scan_loop prefers w cands ds c d HD Hc) as
      (v' & d' & -> & [(-> & _)|(i & _ & _ & B)]); [done|].
    unfold prefers in B. by rewrite E in B.
  - rewrite (bind_Ok _ _ w (Continue (if lastTouchTick dv <? lastTouchTick d then c else v)) w).
    2:{ rewrite (bind_Ok _ _ _ _ _ (cand_get_Ok _ _ _ Hc)).
        destruct (Z.eqb_spec (lastTouchTick d) 0); [done|].
        by rewrite (bind_Ok _ _ _ _ _ (cand_get_Ok _ _ _ Hv)). }
    cbn [orb]. destruct (lastTouchTick dv <? lastTouchTick d); by eapply IH.
Qed.

Lemma mru_victim_scan w c0 cands ds :
  cands_data w (c0 :: cands) ds -> getVictim (c0 :: cands) w = scan prefers (c0 :: cands) w.
Proof.
  intros HD. inversion HD as [|? d0 ? ds' H0 HD']; subst. unfold getVictim, scan.
  destruct (Z.eq_dec (lastTouchTick d0) 0) as [E|E].
  - assert (foreach (c0 :: cands) mru_body c0 w = Ok (c0, w)) as F.
    { simpl. unfold mru_body at 1. rewrite (bind_Ok _ _ w (Break c0) w); [done|].
      rewrite (bind_Ok _ _ _ _ _ (cand_get_Ok _ _ _ H0)). by rewrite E. }
    rewrite (bind_Ok _ _ _ _ _ F).
    destruct (scan_loop prefers w _ _ c0 d0 HD H0) as (v' & d' & S & [(-> & _)|(i & _ & _ & B)]).
    + by rewrite (bind_Ok _ _ _ _ _ S).
    + unfold prefers in B. by rewrite E in B.
  - unfold bind. by erewrite mru_loop_scan.
Qed.

(** The first cold candidate if there is one, else the first of the latest. *)
Lemma mru_victim w c0 cands ds :
  cands_data w (c0 :: cands) ds ->
  exists i e d, getVictim (c0 :: cands) w = Ok (Some e, w) /\ (c0 :: cands) !! i = Some e /\
    ds !! i = Some d /\
    (lastTouchTick d = 0 \/
     forall j d', ds !! j = Some d' -> lastTouchTick d' <> 0 /\ lastTouchTick d' <= lastTouchTick d).
Proof.
  intros HD. rewrite (mru_victim_scan _ _ _ _ HD).
  destruct (scan_first_best prefers w _ _ _ HD) as (i & e & d & S & Hi & (F1 & F2 & F3)).
  exists i, e, d. split_and!; try done. destruct (Z.eq_dec (lastTouchTick d) 0); [by left|right].
  intros j d' Hj. specialize (F2 j d' Hj). unfold prefers in F2.
  destruct (Z.eqb_spec (lastTouchTick d) 0); [done|].
  destruct (Z.eqb_spec (lastTouchTick d') 0); [done|]. simpl in F2. split; lia.
Qed.

Lemma mru_body_Ok_inv w w' v c s :
  mru_body v c w = Ok (s, w') -> w' = w /\ (s = Break c \/ s = Continue c \/ s = Continue v).
Proof.
  intros H. unfold mru_body in H. inv_ok H. apply cand_get_Ok_inv in Hrun as [_ ->].
  destruct (_ =? 0); [injection H as <- <-; auto|]. inv_ok H.
  apply cand_get_Ok_inv in Hrun as [_ ->]. injection H as <- <-. destruct (_ <? _); auto.
Qed.

Lemma mru_victim_Ok_inv w w' cands v :
  getVictim cands w = Ok (v, w') -> w' = w /\ exists e, v = Some e /\ e ∈ cands.
Proof.
  destruct cands as [|c0 cands]; [done|]. intros H. unfold getVictim in H. inv_ok H.
  injection H as <- <-.
  assert (forall l x y s', foreach l mru_body x w = Ok (y, s') -> s' = w /\ (y = x \/ y ∈ l)) as L.
  { induction l as [|b l IH]; intros x y s' E; simpl in E; [injection E as <- <-; auto|].
    inv_ok E. apply mru_body_Ok_inv in Hrun0 as [-> [-> | [-> | ->]]].
    - injection E as <- <-. set_solver.
    - apply IH in E as [-> [->|?]]; split; auto; right; set_solver.
    - apply IH in E as [-> [->|?]]; split; auto; right; set_solver. }
  apply L in Hrun as [-> Ha]. split; [done|]. exists a. split; [done|]. set_solver.
Qed.

End Victim.

#[export] Instance MRU_laws : ReplacementPolicyLaws MRU MRUReplData.
Proof.
  refine {| rp_live := fun _ => true; rp_inv := fun _ _ => True |}.
  - update_frame_law.
  - done.
  - intros X w w' r H. apply update_data_stores in H as [d Hd]. eauto.
  - intros X w w' r d H _ _. apply update_data_stores in H as [d' Hd]. eauto.
  - intros X w r. apply update_data_total.
  - intros X w r. apply update_data_total.
  - intros X w w' cands v (-> & e & -> & He)%mru_victim_Ok_inv.
    split; [done|]. split; [by intros ? [= <-]|]. eauto.
  - intros X w [|c0 cands] ds _ _ Hne HD _; [done|].
    destruct (mru_victim w c0 cands ds HD) as (i & e & d & E & _). eauto.
  - intros X w [|c0 cands] ds _ _ Hne HD; [done|].
    destruct (mru_victim w c0 cands ds HD) as (i & e & d & E & _). eauto.
  - done.
Defined.
