(* ===== verification/LFU.v ===== *)
(** The least frequently used policy, [mem/cache/replacement_policies/lfu_rp.hh] and
    [lfu_rp.cc].  The reference count is a 32-bit [unsigned]. *)
From stdpp Require Import base gmap list.
From Stdlib Require Import ZArith Lia.
From S2P Require Import Prelude ReplBase ReplScan.

(** ** Definitions *)
Record LFUReplData := mkLFUReplData { refCount : Z }.
Definition new_LFUReplData : LFUReplData := mkLFUReplData 0.

Inductive LFU := mkLFU.
Definition new_LFU : LFU := mkLFU.

Definition instantiateEntry (p : LFU) : outcome (LFUReplData * LFU) := Ok (new_LFUReplData, p).

Section Ops.
Context {X : Type}.
#[local] Abbreviation W := (world LFU LFUReplData X).

Definition invalidate (r : loc) : M W unit :=
  update_data (fun p _ _ => (p, mkLFUReplData 0)) r.
Definition touch (r : loc) : M W unit :=
  update_data (fun p _ d => (p, mkLFUReplData (u32 (refCount d + 1)))) r.
Definition reset (r : loc) : M W unit :=
  update_data (fun p _ _ => (p, mkLFUReplData 1)) r.

Definition rarer (c v : LFUReplData) : bool := refCount c <? refCount v.
Definition getVictim (candidates : list loc) : M W (option loc) := scan rarer candidates.

End Ops.

#[export] Instance LFU_policy : ReplacementPolicy LFU LFUReplData := {|
  rp_instantiateEntry := instantiateEntry;
  rp_invalidate X := invalidate (X := X);
  rp_touch X := touch (X := X);
  rp_reset X := reset (X := X);
  rp_getVictim X := getVictim (X := X) |}.

#[export] Instance rarer_StrictWeak : StrictWeak rarer.
Proof. apply (key_StrictWeak refCount). Qed.

#[export] Instance LFU_laws : ReplacementPolicyLaws LFU LFUReplData.
Proof.
  refine {| rp_live := fun _ => true; rp_inv := fun _ _ => True |}.
  - update_frame_law.
  - done.
  - intros X w w' r H. apply update_data_stores in H as [d Hd]. eauto.
  - intros X w w' r d H _ _. apply update_data_stores in H as [d' Hd]. eauto.
  - intros X w r. apply update_data_total.
  - intros X w r. apply update_data_total.
  - intros X w w' cands v. apply scan_victim_frame.
  - intros X w cands ds _ _ Hne HD _. destruct (scan_victim_some rarer w cands ds Hne HD) as [e He].
    eauto.
  - intros X w cands ds _ _ Hne HD. destruct (scan_victim_some rarer w cands ds Hne HD) as [e He].
    eauto.
  - done.
Defined.

(** ** The victim counts the fewest references *)

Fixpoint touches {X} (n : nat) (r : loc) : M (world LFU LFUReplData X) unit :=
  match n with O => ret tt | S n' => do* touch r ;; touches n' r end.

(** [n] touches after a reset leave a count of [n + 1], until the count wraps. *)
Lemma touches_count {X} n r (w : world LFU LFUReplData X) rd :
  rds w !! r = Some rd -> 0 <= refCount (data rd) -> refCount (data rd) + Z.of_nat n < 2 ^ 32 ->
  exists w', touches n r w = Ok (tt, w') /\
    rp_data w' = <[r := mkLFUReplData (refCount (data rd) + Z.of_nat n)]> (rp_data w).
Proof.
  revert w rd. induction n as [|n IH]; intros w rd Hr H0 Hn.
  { exists w. split; [done|]. symmetry. apply insert_id. unfold rp_data. rewrite lookup_fmap, Hr. simpl.
    rewrite Z.add_0_r. by destruct rd as [? []]. }
  cbn [touches]. unfold touch at 1. rewrite (bind_Ok _ _ _ _ _ (update_data_Ok _ _ _ _ Hr)).
  destruct (IH (updated w r rd (policy w, mkLFUReplData (u32 (refCount (data rd) + 1))))
    (mkReplacementData (entry rd) (mkLFUReplData (u32 (refCount (data rd) + 1))))) as (w' & E & D).
  - simpl. apply lookup_insert_eq.
  - simpl. rewrite uwrap_small; lia.
  - simpl. rewrite uwrap_small; lia.
  - exists w'. split; [done|]. rewrite D, updated_data. simpl. rewrite insert_insert_eq.
    rewrite uwrap_small by lia. do 2 f_equal. lia.
Qed.

(** At [2^32] touches the count is zero again: the hottest entry is the next victim. *)
Lemma touch_wraps {X} r (w : world LFU LFUReplData X) rd :
  rds w !! r = Some rd -> refCount (data rd) = 2 ^ 32 - 1 ->
  exists w', touch r w = Ok (tt, w') /\ rp_data w' !! r = Some (mkLFUReplData 0).
Proof.
  intros Hr E. unfold touch. rewrite (update_data_Ok _ _ _ _ Hr). eexists. split; [done|].
  rewrite updated_data, lookup_insert_eq, E. done.
Qed.
