(* ===== verification/RandomRP.v ===== *)
(** The random policy, [mem/cache/replacement_policies/random_rp.hh] and
    [random_rp.cc]: the first invalid candidate, or one drawn at random.

    The draw is [Random::random<unsigned>] of [base/random.hh], a
    [std::uniform_int_distribution] over a Mersenne twister: how the standard
    distribution uses the generator is left open, so the generator's state and
    the draw are parameters, with the range the distribution is specified to
    return values in as hypothesis. *)
From stdpp Require Import base gmap list.
From Stdlib Require Import ZArith Lia.
From S2P Require Import Prelude ReplBase ReplScan.

(** A draw from [[lo, hi]], and the generator after it. *)
Definition draw (rng : Type) : Type := rng -> Z -> Z -> Z * rng.

Definition draw_in_range {rng} (random : draw rng) : Prop :=
  forall g lo hi, lo <= hi -> lo <= (random g lo hi).1 <= hi.

(** ** Definitions *)
Record RandomReplData := mkRandomReplData { valid : bool }.
Definition new_RandomReplData : RandomReplData := mkRandomReplData false.

Record RandomPolicy (rng : Type) := mkRandom { gen : rng }.
Arguments mkRandom {rng} _.
Arguments gen {rng} _.
Definition new_Random {rng} (seed : rng) : RandomPolicy rng := mkRandom seed.

Definition instantiateEntry {rng} (p : RandomPolicy rng) : outcome (RandomReplData * RandomPolicy rng) :=
  Ok (new_RandomReplData, p).

Section Ops.
Context {rng X : Type} (random : draw rng).
#[local] Abbreviation W := (world (RandomPolicy rng) RandomReplData X).

Definition invalidate (r : loc) : M W unit :=
  update_data (fun p _ _ => (p, mkRandomReplData false)) r.
Definition touch (r : loc) : M W unit := ret tt.
Definition reset (r : loc) : M W unit :=
  update_data (fun p _ _ => (p, mkRandomReplData true)) r.

Definition invalid_body (victim candidate : loc) : M W (step loc) :=
  let* c := cand_get candidate in
  ret (if valid c then Continue victim else Break candidate).

Definition getVictim (candidates : list loc) : M W (option loc) :=
  do* checkM (0 <? vsize candidates) AssertFailed ;;
  let* w := getS in
  let '(i, g) := random (gen (policy w)) 0 (u32 (vsize candidates - 1)) in
  do* putS (set_policy (mkRandom g) w) ;;
  let* victim := lift (vget candidates i) in
  let* v := foreach candidates invalid_body victim in
  ret (Some v).

End Ops.

Definition Random_policy {rng} (random : draw rng) :
    ReplacementPolicy (RandomPolicy rng) RandomReplData := {|
  rp_instantiateEntry := instantiateEntry;
  rp_invalidate X := invalidate (X := X);
  rp_touch X := touch (X := X);
  rp_reset X := reset (X := X);
  rp_getVictim X := getVictim (X := X) random |}.

(** ** The victim *)
Section Victim.
Context {rng X : Type} (random : draw rng).
Implicit Types w : world (RandomPolicy rng) RandomReplData X.

Lemma invalid_loop w cands ds v :
  cands_data w cands ds ->
  exists v', foreach cands invalid_body v w = Ok (v', w) /\
    ((v' = v /\ Forall (fun d => valid d = true) ds) \/
     exists i d, cands !! i = Some v' /\ ds !! i = Some d /\ valid d = false /\
       Forall (fun d => valid d = true) (take i ds)).
Proof.
  intros HD. induction HD as [|c d cands ds Hc _ IH].
  { exists v. split; [done|]. by left. }
  cbn [foreach]. unfold invalid_body at 1.
  rewrite (bind_Ok _ _ w (if valid d then Continue v else Break c) w)
    by (by rewrite (bind_Ok _ _ _ _ _ (cand_get_Ok _ _ _ Hc))).
  destruct (valid d) eqn:V.
  - destruct IH as (v' & -> & [(-> & HF)|(i & d' & Hi & Hd & Vd & HT)]); eexists; (split; [done|]).
    + left. split; [done|]. by constructor.
    + right. exists (S i), d'. split_and!; try done. by constructor.
  - exists c. split; [done|]. right. exists 0%nat, d. split_and!; try done.
Qed.

(** The first invalid candidate; when all are valid, the drawn one.  It never
    reads past the candidates. *)
Lemma random_victim w c0 cands ds :
  draw_in_range random -> cands_data w (c0 :: cands) ds ->
  exists i e d w', getVictim random (c0 :: cands) w = Ok (Some e, w') /\ frame w w' /\ rds w' = rds w /\
    (c0 :: cands) !! i = Some e /\ ds !! i = Some d /\
    (valid d = false /\ Forall (fun d => valid d = true) (take i ds) \/
     Forall (fun d => valid d = true) ds /\
     Z.of_nat i = (random (gen (policy w)) 0 (u32 (vsize (c0 :: cands) - 1))).1).
Proof.
  intros HR HD. set (l := c0 :: cands) in *.
  assert (0 < vsize l) by (unfold vsize, l; simpl; lia).
  unfold getVictim. unfold bind at 1, checkM, lift, ocheck. replace (0 <? vsize l) with true by lia.
  unfold bind at 1, getS. pose proof (uwrap_range 32 (vsize l - 1) ltac:(lia)).
  assert (u32 (vsize l - 1) <= vsize l - 1) by (apply Z.mod_le; lia).
  specialize (HR (gen (policy w)) 0 (u32 (vsize l - 1)) ltac:(lia)).
  destruct (random _ _ _) as [i g]. simpl in HR. unfold bind at 1, putS.
  set (w' := set_policy (mkRandom g) w).
  destruct (vget_total l i ltac:(lia)) as [v Hv].
  rewrite (bind_Ok _ _ w' v w') by (by rewrite Hv). apply vget_Ok_inv in Hv as [_ Hv].
  destruct (invalid_loop w' l ds v HD) as (v' & E & Hcase). rewrite (bind_Ok _ _ _ _ _ E).
  destruct Hcase as [(-> & HF)|(k & d & Hk & Hd & Vd & HT)].
  - destruct (lookup_lt_is_Some_2 ds (Z.to_nat i)) as [d Hd].
    { rewrite <- (Forall2_length _ _ _ HD). by apply lookup_lt_Some in Hv. }
    exists (Z.to_nat i), v, d, w'. split_and!; try done. right. split; [done|]. simpl. lia.
  - exists k, v', d, w'. split_and!; try done. by left.
Qed.

Lemma random_victim_Ok_inv w w' cands v :
  getVictim random cands w = Ok (v, w') ->
  frame w w' /\ rds w' = rds w /\ exists e, v = Some e /\ e ∈ cands.
Proof.
  intros H. unfold getVictim in H. inv_ok H. injection Hrun0 as <- <-.
  unfold checkM in Hrun. apply lift_Ok_inv in Hrun as [_ ->].
  destruct (random _ _ _) as [i g]. inv_ok H. injection Hrun as <- <-.
  apply lift_Ok_inv in Hrun0 as [Hv%vget_Ok_inv ->]. injection H as <- <-.
  assert (forall l x y s s', foreach l (invalid_body (rng := rng) (X := X)) x s = Ok (y, s') ->
    s' = s /\ (y = x \/ y ∈ l)) as L.
  { clear. induction l as [|b l IH]; intros x y s s' E; simpl in E; [injection E as <- <-; auto|].
    inv_ok E. unfold invalid_body in Hrun. inv_ok Hrun. apply cand_get_Ok_inv in Hrun0 as [_ ->].
    injection Hrun as <- <-. destruct (valid a0).
    - apply IH in E as [-> [->|?]]; split; auto; right; set_solver.
    - injection E as <- <-. set_solver. }
  apply L in Hrun1 as [-> Ha]. split; [done|]. split; [done|]. exists a2. split; [done|].
  destruct Ha as [-> |?]; [|done]. destruct Hv as [_ Hv]. by eapply list_elem_of_lookup_2.
Qed.

End Victim.

(** ** The promises of the interface

    An entry is live while it is valid. *)
Definition Random_laws {rng} (random : draw rng) (HR : draw_in_range random) :
  @ReplacementPolicyLaws (RandomPolicy rng) RandomReplData (Random_policy random).
Proof.
  refine (@Build_ReplacementPolicyLaws _ _ (Random_policy random) valid (fun _ _ => True)
    _ _ _ _ _ _ _ _ _ _).
  - intros X w w' r [H|H|H]; [by injection H as <-|by eapply update_data_frame, H|
      by eapply update_data_frame, H].
  - done.
  - intros X w w' r (rd & Hr & ->)%update_data_Ok_inv. rewrite updated_data, lookup_insert_eq. eauto.
  - intros X w w' r d H Hd Hv. injection H as <-. eauto.
  - intros X w r _. by exists w.
  - intros X w r. apply update_data_total.
  - intros X w w' cands v (HF & Hrd & e & -> & He)%random_victim_Ok_inv.
    split; [done|]. split; [by intros ? [= <-]|]. unfold rp_data. rewrite Hrd. eauto.
  - intros X w [|c0 cands] ds _ _ Hne HD _; [done|].
    destruct (random_victim random w c0 cands ds HR HD) as (i & e & d & w' & E & _). eauto.
  - intros X w [|c0 cands] ds _ _ Hne HD; [done|].
    destruct (random_victim random w c0 cands ds HR HD) as (i & e & d & w' & E & _). eauto.
  - done.
Defined.
