(* ===== verification/BIP.v ===== *)
(** The bimodal insertion policy, [mem/cache/replacement_policies/bip_rp.hh] and
    [bip_rp.cc]: LRU, with most entries inserted as the oldest.  The draw is the
    parameter of RandomRP. *)
From stdpp Require Import base gmap list.
From Stdlib Require Import ZArith Lia.
From S2P Require Import Prelude ReplBase ReplScan.
From S2P Require Import LRU RandomRP.

(** ** Definitions *)
Record BIP (rng : Type) := mkBIP { btp : Z; gen : rng }.
Arguments mkBIP {rng} _ _.
Arguments btp {rng} _.
Arguments gen {rng} _.
Definition new_BIP {rng} (p_btp : Z) (seed : rng) : BIP rng := mkBIP p_btp seed.

Definition bip_instantiateEntry {rng} (p : BIP rng) : outcome (LRUReplData * BIP rng) :=
  Ok (new_LRUReplData, p).

Section Ops.
Context {rng X : Type} (random : draw rng).
#[local] Abbreviation W := (world (BIP rng) LRUReplData X).

(** Inserted as most recent with probability [btp] percent, else as oldest. *)
Definition bip_reset (r : loc) : M W unit :=
  update_data (fun p now d =>
    let '(n, g) := random (gen p) 1 100 in
    (mkBIP (btp p) g, mkLRUReplData (if n <=? btp p then now else 1))) r.

End Ops.

Definition BIP_policy {rng} (random : draw rng) : ReplacementPolicy (BIP rng) LRUReplData := {|
  rp_instantiateEntry := bip_instantiateEntry;
  rp_invalidate X := LRU.invalidate (X := X);
  rp_touch X := LRU.touch (X := X);
  rp_reset X := bip_reset (X := X) random;
  rp_getVictim X := LRU.getVictim (X := X) |}.

Definition BIP_laws {rng} (random : draw rng) :
  @ReplacementPolicyLaws (BIP rng) LRUReplData (BIP_policy random).
Proof.
  refine (@Build_ReplacementPolicyLaws _ _ (BIP_policy random) (fun _ => true) (fun _ _ => True)
    _ _ _ _ _ _ _ _ _ _).
  - update_frame_law.
  - done.
  - intros X w w' r H. apply update_data_stores in H as [d Hd]. eauto.
  - intros X w w' r d H _ _. apply update_data_stores in H as [d' Hd]. eauto.
  - intros X w r. apply update_data_total.
  - intros X w r. apply update_data_total.
  - intros X w w' cands v. apply scan_victim_frame.
  - intros X w cands ds _ _ Hne HD _. destruct (scan_victim_some older w cands ds Hne HD) as [e He].
    eauto.
  - intros X w cands ds _ _ Hne HD. destruct (scan_victim_some older w cands ds Hne HD) as [e He].
    eauto.
  - done.
Defined.

(** ** The bimodal throttle

    At 100 percent BIP inserts like LRU; at 0 every insertion is as old as an
    entry can be without being invalid. *)
Lemma bip_reset_extremes {rng X} (random : draw rng) (w : world (BIP rng) LRUReplData X) r rd :
  draw_in_range random -> rds w !! r = Some rd ->
  exists w', bip_reset random r w = Ok (tt, w') /\
    (100 <= btp (policy w) -> rp_data w' !! r = Some (mkLRUReplData (curTick w))) /\
    (btp (policy w) <= 0 -> rp_data w' !! r = Some (mkLRUReplData 1)).
Proof.
  intros HR Hr. unfold bip_reset. rewrite (update_data_Ok _ _ _ _ Hr). eexists. split; [done|].
  rewrite updated_data, lookup_insert_eq. specialize (HR (gen (policy w)) 1 100 ltac:(lia)).
  destruct (random (gen (policy w)) 1 100) as [n g]. simpl in *.
  split; intros; do 2 f_equal; destruct (Z.leb_spec n (btp (policy w))); done || lia.
Qed.
