(* ===== verification/WeightedLRU.v ===== *)
(** The weighted LRU policy, [mem/cache/replacement_policies/weighted_lru_rp.hh] and
    [weighted_lru_rp.cc]: the lightest candidate, the oldest one among equals. *)
From stdpp Require Import base gmap list.
From Stdlib Require Import ZArith Lia.
From S2P Require Import Prelude ReplBase ReplScan.
From S2P Require Import LRU.

(** ** Definitions *)
Record WeightedLRUReplData := mkWeightedLRUReplData {
  lru : LRUReplData;      (* the base class *)
  last_occ_ptr : Z }.     (* int *)
Definition new_WeightedLRUReplData : WeightedLRUReplData := mkWeightedLRUReplData new_LRUReplData 0.

Inductive WeightedLRU := mkWeightedLRU.
Definition new_WeightedLRU : WeightedLRU := mkWeightedLRU.

Definition wlru_instantiateEntry (p : WeightedLRU) : outcome (WeightedLRUReplData * WeightedLRU) :=
  Ok (new_WeightedLRUReplData, p).

Definition with_lru (d : WeightedLRUReplData) (l : LRUReplData) : WeightedLRUReplData :=
  mkWeightedLRUReplData l (last_occ_ptr d).

Section Ops.
Context {X : Type}.
#[local] Abbreviation W := (world WeightedLRU WeightedLRUReplData X).

(** Inherited from LRU: they leave the weight alone. *)
Definition wlru_invalidate (r : loc) : M W unit :=
  update_data (fun p _ d => (p, with_lru d (LRU.invalidate_data (lru d)))) r.
Definition wlru_touch (r : loc) : M W unit :=
  update_data (fun p now d => (p, with_lru d (LRU.touch_data now (lru d)))) r.
Definition wlru_reset (r : loc) : M W unit :=
  update_data (fun p now d => (p, with_lru d (LRU.reset_data now (lru d)))) r.

Definition touch_occupancy (r : loc) (occupancy : Z) : M W unit :=
  do* wlru_touch r ;;
  update_data (fun p _ d => (p, mkWeightedLRUReplData (lru d) occupancy)) r.

Definition lighter (c v : WeightedLRUReplData) : bool :=
  if last_occ_ptr c <? last_occ_ptr v then true
  else if last_occ_ptr c =? last_occ_ptr v then lastTouchTick (lru c) <? lastTouchTick (lru v)
  else false.

Definition wlru_getVictim (candidates : list loc) : M W (option loc) := scan lighter candidates.

End Ops.

#[export] Instance WeightedLRU_policy : ReplacementPolicy WeightedLRU WeightedLRUReplData := {|
  rp_instantiateEntry := wlru_instantiateEntry;
  rp_invalidate X := wlru_invalidate (X := X);
  rp_touch X := wlru_touch (X := X);
  rp_reset X := wlru_reset (X := X);
  rp_getVictim X := wlru_getVictim (X := X) |}.

#[export] Instance lighter_StrictWeak : StrictWeak lighter.
Proof.
  split; unfold lighter.
  - intros d. destruct (Z.ltb_spec (last_occ_ptr d) (last_occ_ptr d)); [lia|]. rewrite Z.eqb_refl. lia.
  - intros a b c. destruct (Z.ltb_spec (last_occ_ptr a) (last_occ_ptr b)),
      (Z.ltb_spec (last_occ_ptr b) (last_occ_ptr c)), (Z.ltb_spec (last_occ_ptr a) (last_occ_ptr c)),
      (Z.eqb_spec (last_occ_ptr a) (last_occ_ptr b)), (Z.eqb_spec (last_occ_ptr b) (last_occ_ptr c)),
      (Z.eqb_spec (last_occ_ptr a) (last_occ_ptr c)); lia.
  - intros a b c. destruct (Z.ltb_spec (last_occ_ptr a) (last_occ_ptr b)),
      (Z.ltb_spec (last_occ_ptr b) (last_occ_ptr c)), (Z.ltb_spec (last_occ_ptr a) (last_occ_ptr c)),
      (Z.eqb_spec (last_occ_ptr a) (last_occ_ptr b)), (Z.eqb_spec (last_occ_ptr b) (last_occ_ptr c)),
      (Z.eqb_spec (last_occ_ptr a) (last_occ_ptr c)); lia.
Qed.

#[export] Instance WeightedLRU_laws : ReplacementPolicyLaws WeightedLRU WeightedLRUReplData.
Proof.
  refine {| rp_live := fun _ => true; rp_inv := fun _ _ => True |}.
  - update_frame_law.
  - done.
  - intros X w w' r H. apply update_data_stores in H as [d Hd]. eauto.
  - intros X w w' r d H _ _. apply update_data_stores in H as [d' Hd]. eauto.
  - intros X w r. apply update_data_total.
  - intros X w r. apply update_data_total.
  - intros X w w' cands v. apply scan_victim_frame.
  - intros X w cands ds _ _ Hne HD _. destruct (scan_victim_some lighter w cands ds Hne HD) as [e He].
    eauto.
  - intros X w cands ds _ _ Hne HD. destruct (scan_victim_some lighter w cands ds Hne HD) as [e He].
    eauto.
  - done.
Defined.

(** The victim is minimal in the order of the comment: weight first, then age. *)
Lemma wlru_victim {X} (w : world WeightedLRU WeightedLRUReplData X) c0 cands ds :
  cands_data w (c0 :: cands) ds ->
  exists i e d, wlru_getVictim (c0 :: cands) w = Ok (Some e, w) /\ (c0 :: cands) !! i = Some e /\
    ds !! i = Some d /\ forall j d', ds !! j = Some d' ->
      last_occ_ptr d < last_occ_ptr d' \/
      (last_occ_ptr d = last_occ_ptr d' /\ lastTouchTick (lru d) <= lastTouchTick (lru d')).
Proof.
  intros HD. destruct (scan_first_best lighter w _ _ _ HD) as (i & e & d & S & Hi & (F1 & F2 & F3)).
  exists i, e, d. split_and!; try done. intros j d' Hj. specialize (F2 j d' Hj).
  unfold lighter in F2. destruct (Z.ltb_spec (last_occ_ptr d') (last_occ_ptr d)); [done|].
  destruct (Z.eqb_spec (last_occ_ptr d') (last_occ_ptr d)); lia.
Qed.

(** An invalidated entry keeps its weight, so a lighter valid entry is evicted
    before it. *)
Lemma wlru_invalidate_keeps_weight {X} (w : world WeightedLRU WeightedLRUReplData X) r rd :
  rds w !! r = Some rd ->
  exists w', wlru_invalidate r w = Ok (tt, w') /\
    rp_data w' !! r = Some (mkWeightedLRUReplData (mkLRUReplData 0) (last_occ_ptr (data rd))).
Proof.
  intros Hr. unfold wlru_invalidate. rewrite (update_data_Ok _ _ _ _ Hr). eexists. split; [done|].
  by rewrite updated_data, lookup_insert_eq.
Qed.
