(* ===== verification/FIFO.v ===== *)
(** The first-in first-out policy, [mem/cache/replacement_policies/fifo_rp.hh] and
    [fifo_rp.cc].

    The insertion stamps come from a counter of the policy object, which its
    constructor leaves indeterminate: the value found there is an argument of
    [new_FIFO].  The policy is shown to implement a queue: insertions move an
    entry to the back, the victim is the candidate closest to the front.
    Invalidations move the entry to the back too, where the documentation makes
    it the next victim. *)
From stdpp Require Import base gmap list sorting.
From Stdlib Require Import ZArith Lia.
From S2P Require Import Prelude ReplBase ReplScan.

(** ** Definitions *)
Record FIFOReplData := mkFIFOReplData { tickInserted : Z }.
Definition new_FIFOReplData : FIFOReplData := mkFIFOReplData 0.

Record FIFO := mkFIFO { timeTicks : Z }.
Definition new_FIFO (memory : Z) : FIFO := mkFIFO memory.

Definition instantiateEntry (p : FIFO) : outcome (FIFOReplData * FIFO) := Ok (new_FIFOReplData, p).

(** [->tickInserted = ++timeTicks]. *)
Definition stamp_data (p : FIFO) (d : FIFOReplData) : FIFO * FIFOReplData :=
  let t := u64 (timeTicks p + 1) in (mkFIFO t, mkFIFOReplData t).

Definition earlier (c v : FIFOReplData) : bool := tickInserted c <? tickInserted v.

Section Ops.
Context {X : Type}.
#[local] Abbreviation W := (world FIFO FIFOReplData X).

Definition invalidate (r : loc) : M W unit := update_data (fun p _ d => stamp_data p d) r.
Definition touch (r : loc) : M W unit := ret tt.
Definition reset (r : loc) : M W unit := update_data (fun p _ d => stamp_data p d) r.
Definition getVictim (candidates : list loc) : M W (option loc) := scan earlier candidates.

End Ops.

#[export] Instance FIFO_policy : ReplacementPolicy FIFO FIFOReplData := {|
  rp_instantiateEntry := instantiateEntry;
  rp_invalidate X := invalidate (X := X);
  rp_touch X := touch (X := X);
  rp_reset X := reset (X := X);
  rp_getVictim X := getVictim (X := X) |}.

#[export] Instance earlier_StrictWeak : StrictWeak earlier.
Proof. apply (key_StrictWeak tickInserted). Qed.

#[export] Instance FIFO_laws : ReplacementPolicyLaws FIFO FIFOReplData.
Proof.
  refine {| rp_live := fun _ => true; rp_inv := fun _ _ => True |}.
  - intros X w w' r [H|H|H]; [by injection H as <-|by eapply update_data_frame, H|
      by eapply update_data_frame, H].
  - done.
  - intros X w w' r H. apply update_data_stores in H as [d Hd]. eauto.
  - intros X w w' r d H Hd _. injection H as <-. eauto.
  - intros X w r _. by exists w.
  - intros X w r. apply update_data_total.
  - intros X w w' cands v. apply scan_victim_frame.
  - intros X w cands ds _ _ Hne HD _. destruct (scan_victim_some earlier w cands ds Hne HD) as [e He].
    eauto.
  - intros X w cands ds _ _ Hne HD. destruct (scan_victim_some earlier w cands ds Hne HD) as [e He].
    eauto.
  - done.
Defined.

(** ** The queue *)

(** An entry goes to the back, from wherever it was. *)
Definition enqueue (r : loc) (q : list loc) : list loc := filter (fun r' => r' <> r) q ++ [r].

(** The entry of [q] closest to the front among [rs]. *)
Definition front (rs q : list loc) : option loc := head (filter (fun r => r ∈ rs) q).

Definition stamp (m : gmap loc FIFOReplData) (r : loc) : Z := from_option tickInserted 0 (m !! r).

(** The queue lists live data by increasing stamp, none above the counter. *)
Record fifo_rel (p : FIFO) (m : gmap loc FIFOReplData) (q : list loc) : Prop := {
  rel_live : Forall (fun r => is_Some (m !! r) /\ stamp m r <= timeTicks p) q;
  rel_sorted : StronglySorted (fun r r' => stamp m r < stamp m r') q }.

Lemma StronglySorted_filter {A} (R : A -> A -> Prop) (Q : A -> Prop) `{!forall x, Decision (Q x)} l :
  StronglySorted R l -> StronglySorted R (filter Q l).
Proof.
  induction 1 as [|x l HS IH HF]; [constructor|]. rewrite filter_cons. destruct (decide (Q x)); [|done].
  constructor; [done|]. rewrite Forall_forall in HF |- *. intros y Hy.
  apply HF. apply list_elem_of_filter in Hy. tauto.
Qed.

Lemma StronglySorted_snoc {A} (R : A -> A -> Prop) l x :
  StronglySorted R l -> Forall (fun y => R y x) l -> StronglySorted R (l ++ [x]).
Proof.
  induction 1 as [|y l HS IH HF]; intros Hx; simpl; [repeat constructor|].
  apply Forall_cons in Hx as [Hy Hx]. constructor; [by apply IH|].
  apply Forall_app. split; [done|]. by constructor.
Qed.

Lemma StronglySorted_impl_on {A} (R S : A -> A -> Prop) l :
  (forall x y, x ∈ l -> y ∈ l -> R x y -> S x y) -> StronglySorted R l -> StronglySorted S l.
Proof.
  intros HI HS. revert HI. induction HS as [|x l HS IH HF]; intros HI; [constructor|].
  constructor; [apply IH; intros; apply HI; set_solver|].
  rewrite Forall_forall in HF |- *. intros y Hy. apply HI; [left|by right|by apply HF].
Qed.

(** Stamping an entry with the incremented counter enqueues it. *)
Lemma fifo_rel_stamp p m q r t :
  fifo_rel p m q -> t = timeTicks p + 1 ->
  fifo_rel (mkFIFO t) (<[r := mkFIFOReplData t]> m) (enqueue r q).
Proof.
  intros [HL HS] ->. rewrite Forall_forall in HL.
  assert (forall r', r' <> r -> stamp (<[r := mkFIFOReplData (timeTicks p + 1)]> m) r' = stamp m r') as Hne.
  { intros r' Hr. unfold stamp. by rewrite lookup_insert_ne. }
  assert (stamp (<[r := mkFIFOReplData (timeTicks p + 1)]> m) r = timeTicks p + 1) as Heq.
  { unfold stamp. by rewrite lookup_insert_eq. }
  split; unfold enqueue.
  - apply Forall_app. split; [|constructor; [|constructor]].
    + rewrite Forall_forall. intros r' [Hr Hq]%list_elem_of_filter.
      destruct (HL r' Hq) as [Hs Hle]. rewrite lookup_insert_ne, Hne by done. simpl. split; [done|lia].
    + rewrite lookup_insert_eq, Heq. simpl. split; [eauto|lia].
  - apply StronglySorted_snoc.
    + eapply StronglySorted_impl_on; [|by apply StronglySorted_filter].
      intros x y [Hx _]%list_elem_of_filter [Hy _]%list_elem_of_filter. cbv beta. by rewrite !Hne.
    + rewrite Forall_forall. intros r' [Hr Hq]%list_elem_of_filter. rewrite Heq, Hne by done.
      destruct (HL r' Hq). lia.
Qed.

(** The first entry of a sorted queue has the smallest stamp. *)
Lemma front_min m rs q r :
  StronglySorted (fun r r' => stamp m r < stamp m r') q -> r ∈ q -> r ∈ rs ->
  (forall r', r' ∈ q -> r' ∈ rs -> stamp m r <= stamp m r') -> front rs q = Some r.
Proof.
  intros HS Hq Hr Hmin. unfold front.
  assert (r ∈ filter (fun r => r ∈ rs) q) as Hin by (by apply list_elem_of_filter).
  assert (forall x, x ∈ filter (fun r => r ∈ rs) q -> x ∈ q /\ x ∈ rs) as HF
    by (intros x [? ?]%list_elem_of_filter; done).
  apply (StronglySorted_filter _ (fun r => r ∈ rs)) in HS.
  destruct (filter (fun r => r ∈ rs) q) as [|h l]; [by apply not_elem_of_nil in Hin|].
  simpl. inversion HS as [|? ? _ HFl]; subst. apply elem_of_cons in Hin as [->|Hin]; [done|].
  rewrite Forall_forall in HFl. specialize (HFl r Hin). cbv beta in HFl.
  destruct (HF h ltac:(left)) as [Hh1 Hh2]. specialize (Hmin h Hh1 Hh2). lia.
Qed.

(** The search returns the front of the queue. *)
Lemma victim_front {X} (w : world FIFO FIFOReplData X) q c0 cands rs :
  fifo_rel (policy w) (rp_data w) q ->
  Forall2 (fun e r => cand_rd w e = Some r /\ r ∈ q) (c0 :: cands) rs ->
  exists e v, getVictim (c0 :: cands) w = Ok (Some e, w) /\ e ∈ c0 :: cands /\
    cand_rd w e = Some v /\ front rs q = Some v.
Proof.
  intros [HL HS] HC. rewrite Forall_forall in HL.
  assert (cands_data w (c0 :: cands) ((fun r => mkFIFOReplData (stamp (rp_data w) r)) <$> rs)) as HD.
  { unfold cands_data. rewrite Forall2_fmap_r. eapply Forall2_impl; [exact HC|].
    intros e r' [He Hq]. destruct (HL r' Hq) as [[d Hd] _]. unfold cand_data. rewrite He. simpl.
    unfold stamp. rewrite Hd. unfold rp_data in Hd. rewrite lookup_fmap in Hd. rewrite Hd. simpl.
    by destruct d. }
  destruct (scan_first_best earlier w _ _ _ HD) as (i & e & d & S & Hi & (F1 & F2 & F3)).
  rewrite list_lookup_fmap in F1. destruct (rs !! i) as [v|] eqn:Ev; simplify_eq/=.
  exists e, v. split; [done|]. split; [by eapply list_elem_of_lookup_2|].
  destruct (Forall2_lookup_lr _ _ _ _ _ _ HC Hi Ev) as [He Hq]. split; [done|].
  apply (front_min (rp_data w)); [done|done|by eapply list_elem_of_lookup_2|].
  intros r' Hq' Hr'. apply list_elem_of_lookup_1 in Hr' as [j Hj].
  specialize (F2 j (mkFIFOReplData (stamp (rp_data w) r'))).
  rewrite list_lookup_fmap, Hj in F2. unfold earlier in F2. simpl in F2. specialize (F2 eq_refl). lia.
Qed.

(** The entry just enqueued comes after every other candidate. *)
Lemma front_enqueue r r' rs q v : front rs (enqueue r q) = Some v -> r' ∈ rs -> r' ∈ enqueue r q -> r' <> r -> v <> r.
Proof.
  unfold front, enqueue. intros Hf Hr' Hq Hne. apply elem_of_app in Hq as [Hq|Hq%list_elem_of_singleton]; [|done].
  rewrite filter_app in Hf. set (l := filter (fun r0 => r0 ∈ rs) (filter (fun r0 => r0 <> r) q)) in Hf.
  assert (r' ∈ l) as Hin by (by apply list_elem_of_filter).
  assert (forall x, x ∈ l -> x <> r) as Hl by (intros x [_ [Hx _]%list_elem_of_filter]%list_elem_of_filter; done).
  destruct l as [|x l]; [by apply not_elem_of_nil in Hin|]. injection Hf as <-. apply Hl. by left.
Qed.

(** ** Properties *)

(** C33 (refinement). [FIFO] implements a queue, while the counter does not wrap:
    [reset] moves the entry to the back, [touch] changes nothing, and the victim
    is the candidate closest to the front.  [invalidate] diverges from its
    documentation ([fifo_rp.hh], [base.hh]: the entry becomes the next probable
    victim, its insertion tick 0): it moves the entry to the back as well, so a
    search right after it returns another candidate whenever there is one. *)
Theorem fifo_implements_queue {X} (w : world FIFO FIFOReplData X) q r c0 cands rs :
  fifo_rel (policy w) (rp_data w) q -> 0 <= timeTicks (policy w) < 2 ^ 64 - 1 ->
  is_Some (rds w !! r) ->
  Forall2 (fun e r => cand_rd w e = Some r /\ r ∈ q) (c0 :: cands) rs ->
  (exists w', reset r w = Ok (tt, w') /\ fifo_rel (policy w') (rp_data w') (enqueue r q)) /\
  touch r w = Ok (tt, w) /\
  (exists e v, getVictim (c0 :: cands) w = Ok (Some e, w) /\ e ∈ c0 :: cands /\
    cand_rd w e = Some v /\ front rs q = Some v) /\
  exists w', invalidate r w = Ok (tt, w') /\ fifo_rel (policy w') (rp_data w') (enqueue r q) /\
    ((exists r', r' ∈ rs /\ r' <> r) ->
     exists e v, getVictim (c0 :: cands) w' = Ok (Some e, w') /\ cand_rd w' e = Some v /\ v <> r).
Proof.
  intros HR Ht [rd Hr] HC.
  assert (exists w', update_data (fun p _ d => stamp_data p d) r w = Ok (tt, w') /\
    fifo_rel (policy w') (rp_data w') (enqueue r q) /\ entries w' = entries w) as (w' & E & HR' & Ee).
  { eexists. split; [by apply update_data_Ok|]. rewrite updated_data. simpl.
    rewrite uwrap_small by lia. split; [by apply (fifo_rel_stamp _ _ _ _ _ HR)|done]. }
  split; [by exists w'|]. split; [done|]. split; [by apply victim_front|].
  exists w'. split; [done|]. split; [done|]. intros (r' & Hr' & Hne).
  assert (forall r0, r0 ∈ q -> r0 ∈ enqueue r q) as Hsub.
  { intros r0 H0. unfold enqueue. apply elem_of_app. destruct (decide (r0 = r)) as [->|]; [right; by left|].
    left. by apply list_elem_of_filter. }
  assert (Forall2 (fun e r0 => cand_rd w' e = Some r0 /\ r0 ∈ enqueue r q) (c0 :: cands) rs) as HC'.
  { eapply Forall2_impl; [exact HC|]. intros e r0 [H1 H2]. unfold cand_rd in *. rewrite Ee. auto. }
  destruct (victim_front w' _ _ _ _ HR' HC') as (e & v & Ev & _ & Hv & Hf). exists e, v.
  split; [done|]. split; [done|]. eapply front_enqueue; [exact Hf|exact Hr'| |done].
  apply list_elem_of_lookup_1 in Hr' as [j Hj]. destruct (Forall2_lookup_r _ _ _ _ _ HC' Hj) as (? & _ & _ & ?). done.
Qed.

(** Three entries stamped 5, 3 and 4. *)
Definition demo_world : world FIFO FIFOReplData unit :=
  let e n := mkObject (mkReplaceableEntry 0 0 (Some n)) tt in
  let d t := mkReplacementData Null (mkFIFOReplData t) in
  mkWorld (mkFIFO 5) {[1%positive := e 1%positive; 2%positive := e 2%positive; 3%positive := e 3%positive]}
    {[1%positive := d 5; 2%positive := d 3; 3%positive := d 4]} 0.

Lemma fifo_implements_queue_witness :
  (exists e, getVictim [1%positive; 3%positive] demo_world = Ok (Some e, demo_world) /\ e = 3%positive) /\
  exists w', invalidate 3 demo_world = Ok (tt, w') /\
    exists e v, getVictim [1%positive; 3%positive] w' = Ok (Some e, w') /\ cand_rd w' e = Some v /\ v <> 3%positive.
Proof.
  destruct (fifo_implements_queue demo_world [2; 3; 1]%positive 3%positive 1%positive [3%positive]
    [1; 3]%positive) as (_ & _ & (e & v & E & He & Hv & Hf) & w' & Ei & _ & Hi).
  - split.
    + repeat constructor; (eexists; reflexivity) || (vm_compute; discriminate).
    + repeat constructor.
  - vm_compute. split; [discriminate|reflexivity].
  - eexists. reflexivity.
  - constructor; [|constructor; [|constructor]]; (split; [reflexivity|set_solver]).
  - split.
    + exists e. split; [done|].
      assert (front [1; 3]%positive [2; 3; 1]%positive = Some 3%positive) as Hf' by (vm_compute; reflexivity).
      rewrite Hf' in Hf. injection Hf as <-.
      apply elem_of_cons in He as [-> |He]; [vm_compute in Hv; discriminate|]. set_solver.
    + exists w'. split; [done|]. apply Hi. exists 1%positive. split; [by left|done].
Defined.
