(* ===== verification/SecondChance.v ===== *)
(** The second chance policy, [mem/cache/replacement_policies/second_chance_rp.hh]
    and [second_chance_rp.cc]: FIFO, except that an entry touched since its
    insertion is first sent to the back of the queue.

    The search is a [while] loop that ends when the FIFO victim has no second
    chance left.  The model gives it one unit of fuel more than there are
    candidates, which is enough: every other round takes a chance away. *)
From stdpp Require Import base gmap list.
From Stdlib Require Import ZArith Lia.
From S2P Require Import Prelude ReplBase ReplScan.
From S2P Require Import FIFO.

(** ** Definitions *)
Record SecondChanceReplData := mkSecondChanceReplData {
  fifo : FIFOReplData;        (* the base class *)
  hasSecondChance : bool }.
Definition new_SecondChanceReplData : SecondChanceReplData :=
  mkSecondChanceReplData new_FIFOReplData false.

Definition new_SecondChance (memory : Z) : FIFO := new_FIFO memory.

Definition sc_instantiateEntry (p : FIFO) : outcome (SecondChanceReplData * FIFO) :=
  Ok (new_SecondChanceReplData, p).

(** The FIFO part of the data goes through [FIFO]'s stamping. *)
Definition sc_stamp (p : FIFO) (d : SecondChanceReplData) (chance : bool) : FIFO * SecondChanceReplData :=
  let '(p', f) := FIFO.stamp_data p (fifo d) in (p', mkSecondChanceReplData f chance).

Definition sc_earlier (c v : SecondChanceReplData) : bool := FIFO.earlier (fifo c) (fifo v).

Section Ops.
Context {X : Type}.
#[local] Abbreviation W := (world FIFO SecondChanceReplData X).

Definition useSecondChance (r : loc) : M W unit := update_data (fun p _ d => sc_stamp p d false) r.
Definition sc_invalidate (r : loc) : M W unit := update_data (fun p _ d => sc_stamp p d false) r.
Definition sc_touch (r : loc) : M W unit :=
  update_data (fun p _ d => (p, mkSecondChanceReplData (fifo d) true)) r.
Definition sc_reset (r : loc) : M W unit := update_data (fun p _ d => sc_stamp p d false) r.

(** The search for an entry with a zero stamp and no second chance. *)
Definition zero_body (found : option loc) (candidate : loc) : M W (step (option loc)) :=
  let* c := cand_get candidate in
  ret (if (tickInserted (fifo c) =? 0) && negb (hasSecondChance c) then Break (Some candidate)
       else Continue found).

(** [FIFO::getVictim], on the base part of the data. *)
Definition fifo_getVictim (candidates : list loc) : M W (option loc) := scan sc_earlier candidates.

Fixpoint search_victim (fuel : nat) (candidates : list loc) : M W (option loc) :=
  match fuel with
  | O => throw OutOfFuel
  | S fuel' =>
      let* v := fifo_getVictim candidates in
      match v with
      | None => throw NullDeref
      | Some victim =>
          let* r := rd_ptr victim in
          let* d := get_data r in
          if hasSecondChance d then do* useSecondChance r ;; search_victim fuel' candidates
          else ret (Some victim)
      end
  end.

Definition sc_getVictim (candidates : list loc) : M W (option loc) :=
  do* checkM (0 <? vsize candidates) AssertFailed ;;
  let* zero := foreach candidates zero_body None in
  match zero with
  | Some candidate => ret (Some candidate)
  | None => search_victim (S (length candidates)) candidates
  end.

End Ops.

#[export] Instance SecondChance_policy : ReplacementPolicy FIFO SecondChanceReplData := {|
  rp_instantiateEntry := sc_instantiateEntry;
  rp_invalidate X := sc_invalidate (X := X);
  rp_touch X := sc_touch (X := X);
  rp_reset X := sc_reset (X := X);
  rp_getVictim X := sc_getVictim (X := X) |}.

#[export] Instance sc_earlier_StrictWeak : StrictWeak sc_earlier.
Proof. apply (key_StrictWeak (fun d => tickInserted (fifo d))). Qed.

(** ** The search *)
Definition dat (m : gmap loc SecondChanceReplData) (r : loc) : SecondChanceReplData :=
  default new_SecondChanceReplData (m !! r).
Definition tick (m : gmap loc SecondChanceReplData) (r : loc) : Z := tickInserted (fifo (dat m r)).
Definition chance (m : gmap loc SecondChanceReplData) (r : loc) : bool := hasSecondChance (dat m r).

(** The entries that have a second chance, and those that do not. *)
Definition lucky (m : gmap loc SecondChanceReplData) (rs : list loc) : list loc :=
  filter (fun r => chance m r = true) rs.
Definition unlucky (m : gmap loc SecondChanceReplData) (rs : list loc) : list loc :=
  filter (fun r => chance m r = false) rs.

(** [r] is the oldest of [rs]. *)
Definition oldest_of (m : gmap loc SecondChanceReplData) (rs : list loc) (r : loc) : Prop :=
  r ∈ rs /\ forall r', r' ∈ rs -> tick m r <= tick m r'.

(** The entry the clock algorithm evicts: the oldest without a second chance,
    or the oldest of all when every entry has one. *)
Definition clock_victim (m : gmap loc SecondChanceReplData) (rs : list loc) (r : loc) : Prop :=
  oldest_of m (if decide (unlucky m rs = []) then rs else unlucky m rs) r.

(** An entry that was never inserted: what the first loop looks for. *)
Definition never_inserted (m : gmap loc SecondChanceReplData) (r : loc) : Prop :=
  tick m r = 0 /\ chance m r = false.
#[export] Instance never_inserted_dec m r : Decision (never_inserted m r).
Proof. unfold never_inserted. apply _. Defined.

(** The candidates have data, and their stamps are not above the counter. *)
Record stamps_ok (p : FIFO) (m : gmap loc SecondChanceReplData) (rs : list loc) : Prop := {
  st_live : forall r, r ∈ rs -> is_Some (m !! r);
  st_below : forall r, r ∈ rs -> tick m r <= timeTicks p }.

Lemma dat_insert m r d : dat (<[r := d]> m) r = d.
Proof. unfold dat. by rewrite lookup_insert_eq. Qed.
Lemma dat_insert_ne m r r' d : r' <> r -> dat (<[r := d]> m) r' = dat m r'.
Proof. intros. unfold dat. by rewrite lookup_insert_ne. Qed.

(** The map after the round that takes the chance of [r]. *)
Definition after_use (p : FIFO) (m : gmap loc SecondChanceReplData) (r : loc) :=
  <[r := mkSecondChanceReplData (mkFIFOReplData (timeTicks p + 1)) false]> m.

Lemma after_use_ok p m rs r :
  stamps_ok p m rs -> r ∈ rs -> stamps_ok (mkFIFO (timeTicks p + 1)) (after_use p m r) rs.
Proof.
  intros [HL HB] Hr. unfold after_use. split.
  - intros r' Hr'. destruct (decide (r' = r)) as [->|]; [rewrite lookup_insert_eq; eauto|].
    rewrite lookup_insert_ne by done. by apply HL.
  - intros r' Hr'. unfold tick. simpl. destruct (decide (r' = r)) as [->|];
      rewrite ?dat_insert, ?dat_insert_ne by done; simpl; [lia|].
    pose proof (HB r' Hr') as B. unfold tick in B. lia.
Qed.

(** Every round takes one chance away. *)
Lemma lucky_decreases m rs r d :
  r ∈ rs -> chance m r = true -> hasSecondChance d = false ->
  (length (lucky (<[r := d]> m) rs) < length (lucky m rs))%nat.
Proof.
  intros Hr Hc Hd.
  assert (forall x, chance (<[r := d]> m) x = true -> chance m x = true) as Mono.
  { intros x. unfold chance. destruct (decide (x = r)) as [->|]; [by rewrite dat_insert, Hd|].
    by rewrite dat_insert_ne. }
  assert (forall l, (length (lucky (<[r := d]> m) l) <= length (lucky m l))%nat) as Le.
  { induction l as [|x l IH]; [done|]. unfold lucky in *. rewrite !filter_cons.
    destruct (decide (chance (<[r := d]> m) x = true)); [rewrite decide_True by auto; simpl; lia|].
    destruct (decide _); simpl; lia. }
  induction rs as [|x rs IH]; [by apply not_elem_of_nil in Hr|].
  unfold lucky in *. rewrite !filter_cons. apply elem_of_cons in Hr as [->|Hr].
  - rewrite decide_False by (unfold chance; by rewrite dat_insert, Hd).
    rewrite decide_True by done. specialize (Le rs). simpl. lia.
  - specialize (IH Hr). destruct (decide (chance (<[r := d]> m) x = true));
      [rewrite decide_True by auto; simpl; lia|]. destruct (decide _); simpl; lia.
Qed.

(** Sending the oldest entry, which has a chance, to the back leaves the victim
    of the clock algorithm the same. *)
Lemma clock_victim_after_use p m rs r v :
  stamps_ok p m rs -> oldest_of m rs r -> chance m r = true ->
  clock_victim (after_use p m r) rs v -> clock_victim m rs v.
Proof.
  intros [HL HB] [Hr Hmin] Hc Hv. unfold clock_victim in Hv.
  assert (r ∈ unlucky (after_use p m r) rs) as Hru.
  { apply list_elem_of_filter. split; [|done]. unfold chance, after_use. by rewrite dat_insert. }
  rewrite decide_False in Hv by (intros E; rewrite E in Hru; by apply not_elem_of_nil in Hru).
  destruct Hv as [[Hvc Hv]%list_elem_of_filter Hvmin].
  assert (forall x, x <> r -> chance (after_use p m r) x = chance m x) as C1
    by (intros; unfold chance, after_use; by rewrite dat_insert_ne).
  assert (forall x, x <> r -> tick (after_use p m r) x = tick m x) as T1
    by (intros; unfold tick, after_use; by rewrite dat_insert_ne).
  assert (tick (after_use p m r) r = timeTicks p + 1) as T2
    by (unfold tick, after_use; by rewrite dat_insert).
  unfold clock_victim. destruct (decide (unlucky m rs = [])) as [E|E].
  - destruct (decide (v = r)) as [->|Hne]; [by split|]. exfalso.
    assert (v ∈ unlucky m rs) as Hu by (apply list_elem_of_filter; rewrite <- C1; done).
    rewrite E in Hu. by apply not_elem_of_nil in Hu.
  - assert (exists x, x ∈ unlucky m rs) as [x Hx].
    { destruct (unlucky m rs) as [|x l]; [done|]. exists x. left. }
    apply list_elem_of_filter in Hx as [Hxc Hx].
    assert (x <> r) as Hxr by congruence.
    assert (v <> r) as Hvr.
    { intros ->. specialize (Hvmin x). rewrite T2, (T1 x) in Hvmin by done. pose proof (HB x Hx).
      enough (timeTicks p + 1 <= tick m x) by lia. apply Hvmin, list_elem_of_filter. by rewrite C1. }
    split; [apply list_elem_of_filter; by rewrite <- C1|].
    intros y [Hyc Hy]%list_elem_of_filter. assert (y <> r) by congruence.
    specialize (Hvmin y). rewrite !T1 in Hvmin by done. apply Hvmin, list_elem_of_filter. by rewrite C1.
Qed.

Section Search.
Context {X : Type}.
Implicit Types w : world FIFO SecondChanceReplData X.

Lemma cands_rds_data w cands rs :
  cands_rds w cands rs -> (forall r, r ∈ rs -> is_Some (rp_data w !! r)) ->
  cands_data w cands (dat (rp_data w) <$> rs).
Proof.
  intros HC HL. unfold cands_data. rewrite Forall2_fmap_r. induction HC as [|e r cands rs He HC IH];
    constructor; [|apply IH; intros; apply HL; by right].
  destruct (HL r ltac:(left)) as [d Hd]. unfold cand_data. rewrite He. simpl.
  unfold dat. rewrite Hd. unfold rp_data in Hd. by rewrite lookup_fmap in Hd.
Qed.

(** One FIFO search: the oldest candidate. *)
Lemma fifo_search w c0 cands rs :
  cands_rds w (c0 :: cands) rs -> (forall r, r ∈ rs -> is_Some (rp_data w !! r)) ->
  exists e r, fifo_getVictim (c0 :: cands) w = Ok (Some e, w) /\ e ∈ (c0 :: cands) /\
    cand_rd w e = Some r /\ oldest_of (rp_data w) rs r.
Proof.
  intros HC HL. pose proof (cands_rds_data _ _ _ HC HL) as HD.
  destruct (scan_first_best sc_earlier w _ _ _ HD) as (i & e & d & S & Hi & (F1 & F2 & F3)).
  rewrite list_lookup_fmap in F1. destruct (rs !! i) as [r|] eqn:Er; simplify_eq/=.
  exists e, r. split; [done|]. split; [by eapply list_elem_of_lookup_2|].
  split; [by apply (Forall2_lookup_lr _ _ _ _ _ _ HC Hi Er)|].
  split; [by eapply list_elem_of_lookup_2|]. intros r' [j Hj]%list_elem_of_lookup_1.
  specialize (F2 j (dat (rp_data w) r')). rewrite list_lookup_fmap, Hj in F2.
  specialize (F2 eq_refl). unfold sc_earlier, earlier in F2. unfold tick. lia.
Qed.

(** The loop ends, within as many rounds as there are chances to take, at the
    victim of the clock algorithm. *)
Lemma search_victim_clock fuel w c0 cands rs :
  cands_rds w (c0 :: cands) rs -> stamps_ok (policy w) (rp_data w) rs ->
  0 <= timeTicks (policy w) -> timeTicks (policy w) + vsize rs < 2 ^ 64 ->
  (length (lucky (rp_data w) rs) < fuel)%nat ->
  exists e r w', search_victim fuel (c0 :: cands) w = Ok (Some e, w') /\ frame w w' /\
    e ∈ (c0 :: cands) /\ cand_rd w e = Some r /\ clock_victim (rp_data w) rs r /\
    chance (rp_data w') r = false.
Proof.
  intros HC HS H0 Hb Hf.
  assert (timeTicks (policy w) + Z.of_nat (length (lucky (rp_data w) rs)) < 2 ^ 64) as Hb'.
  { assert (length (lucky (rp_data w) rs) <= length rs)%nat by apply length_filter.
    unfold vsize in Hb. lia. }
  clear Hb. revert w HC HS H0 Hb' Hf. induction fuel as [|fuel IH]; intros w HC HS H0 Hb Hf; [lia|].
  cbn [search_victim].
  destruct (fifo_search w c0 cands rs HC (st_live _ _ _ HS)) as (e & r & E & He & Hr & Ho).
  rewrite (bind_Ok _ _ _ _ _ E), (bind_Ok _ _ _ _ _ (rd_ptr_Ok _ _ _ Hr)).
  destruct (st_live _ _ _ HS r (proj1 Ho)) as [d Hd].
  assert (exists rd, rds w !! r = Some rd /\ data rd = d) as (rd & Hrd & <-).
  { unfold rp_data in Hd. rewrite lookup_fmap in Hd. destruct (rds w !! r) as [rd|]; [|done].
    exists rd. by injection Hd. }
  rewrite (bind_Ok _ _ _ _ _ (get_data_Ok _ _ _ Hrd)).
  assert (chance (rp_data w) r = hasSecondChance (data rd)) as Ec by (unfold chance, dat; by rewrite Hd).
  destruct (hasSecondChance (data rd)).
  - unfold useSecondChance. rewrite (bind_Ok _ _ _ _ _ (update_data_Ok _ _ _ _ Hrd)).
    pose proof (lucky_decreases _ _ _ (mkSecondChanceReplData
      (mkFIFOReplData (timeTicks (policy w) + 1)) false) (proj1 Ho) Ec eq_refl) as Hl.
    fold (after_use (policy w) (rp_data w) r) in Hl.
    set (w1 := updated _ _ _ _).
    assert (rp_data w1 = after_use (policy w) (rp_data w) r /\ policy w1 = mkFIFO (timeTicks (policy w) + 1))
      as [Ed Ep].
    { unfold w1. rewrite updated_data. unfold sc_stamp, stamp_data. simpl.
      rewrite uwrap_small by lia. done. }
    destruct (updated_frame w r rd (sc_stamp (policy w) (data rd) false) Hrd) as [Fr _]. fold w1 in Fr.
    destruct (IH w1) as (e' & r' & w' & E' & Fr' & He' & Hr' & Hv & Hch).
    + by eapply cands_rds_frame.
    + rewrite Ed, Ep. by apply after_use_ok; [|apply Ho].
    + rewrite Ep. simpl. lia.
    + rewrite Ed, Ep. simpl. lia.
    + rewrite Ed. lia.
    + exists e', r', w'. split; [done|]. split; [by etrans|]. split; [done|].
      split; [by destruct Fr as (Ee & _); unfold cand_rd in *; rewrite Ee in Hr'|].
      split; [|done]. rewrite Ed in Hv. by eapply clock_victim_after_use.
  - exists e, r, w. split_and!; try done. unfold clock_victim.
    assert (r ∈ unlucky (rp_data w) rs) as Hu by (apply list_elem_of_filter; split; [done|apply Ho]).
    rewrite decide_False by (intros E'; rewrite E' in Hu; by apply not_elem_of_nil in Hu).
    split; [done|]. intros r' [_ Hr']%list_elem_of_filter. by apply Ho.
Qed.

(** The first loop: the first entry that was never inserted, if there is one. *)
Lemma zero_loop w cands rs :
  cands_rds w cands rs -> (forall r, r ∈ rs -> is_Some (rp_data w !! r)) ->
  foreach cands zero_body None w =
    Ok (match list_find (never_inserted (rp_data w)) rs with Some (i, _) => cands !! i | None => None end, w).
Proof.
  intros HC HL. pose proof (cands_rds_data _ _ _ HC HL) as HD.
  induction HC as [|e r cands rs He HC IH]; [done|]. inversion HD as [|? ? ? ? Hd HD']; subst.
  cbn [foreach]. unfold zero_body at 1.
  rewrite (bind_Ok _ _ w (if (tick (rp_data w) r =? 0) && negb (chance (rp_data w) r)
    then Break (Some e) else Continue None) w) by (by rewrite (bind_Ok _ _ _ _ _ (cand_get_Ok _ _ _ Hd))).
  assert ((tick (rp_data w) r =? 0) && negb (chance (rp_data w) r) = bool_decide (never_inserted (rp_data w) r)) as ->.
  { apply eq_bool_prop_intro. rewrite bool_decide_spec, andb_True, negb_True, Is_true_true, Is_true_true, Z.eqb_eq, not_true_iff_false.
    done. }
  cbn [list_find]. destruct (decide (never_inserted (rp_data w) r)) as [H|H];
    [by rewrite bool_decide_eq_true_2|rewrite bool_decide_eq_false_2 by done].
  rewrite IH by (done || (intros; apply HL; by right)).
  destruct (list_find _ rs) as [[i r']|]; done.
Qed.

(** Whatever the stamps, the loop ends. *)
Lemma search_victim_ends fuel w c0 cands rs :
  cands_rds w (c0 :: cands) rs -> (forall r, r ∈ rs -> is_Some (rp_data w !! r)) ->
  (length (lucky (rp_data w) rs) < fuel)%nat ->
  exists e w', search_victim fuel (c0 :: cands) w = Ok (Some e, w').
Proof.
  revert w. induction fuel as [|fuel IH]; intros w HC HL Hf; [lia|]. cbn [search_victim].
  destruct (fifo_search w c0 cands rs HC HL) as (e & r & E & He & Hr & [Ho _]).
  rewrite (bind_Ok _ _ _ _ _ E), (bind_Ok _ _ _ _ _ (rd_ptr_Ok _ _ _ Hr)).
  destruct (HL r Ho) as [d Hd].
  assert (exists rd, rds w !! r = Some rd /\ data rd = d) as (rd & Hrd & <-).
  { unfold rp_data in Hd. rewrite lookup_fmap in Hd. destruct (rds w !! r) as [rd|]; [|done].
    exists rd. by injection Hd. }
  rewrite (bind_Ok _ _ _ _ _ (get_data_Ok _ _ _ Hrd)).
  destruct (hasSecondChance (data rd)) eqn:Ec; [|by eexists _, _].
  unfold useSecondChance. rewrite (bind_Ok _ _ _ _ _ (update_data_Ok _ _ _ _ Hrd)).
  apply IH.
  - eapply cands_rds_frame; [|done]. by apply updated_frame.
  - intros r' Hr'. rewrite updated_data. destruct (decide (r' = r)) as [->|];
      [rewrite lookup_insert_eq; eauto|rewrite lookup_insert_ne by done; by apply HL].
  - rewrite updated_data. eapply Nat.lt_le_trans; [apply lucky_decreases|lia]; try done.
    unfold chance, dat. by rewrite Hd.
Qed.

Lemma fifo_getVictim_Ok_inv w w' cands v :
  fifo_getVictim cands w = Ok (v, w') -> w' = w /\ exists e, v = Some e /\ e ∈ cands.
Proof. apply scan_Ok_inv. Qed.

Lemma search_victim_Ok_inv fuel w w' cands v :
  search_victim fuel cands w = Ok (v, w') ->
  frame w w' /\ (exists e, v = Some e /\ e ∈ cands) /\ dom (rds w') = dom (rds w).
Proof.
  revert w. induction fuel as [|fuel IH]; intros w H; [done|]. cbn [search_victim] in H. inv_ok H.
  apply fifo_getVictim_Ok_inv in Hrun as (-> & e & -> & He). inv_ok H.
  assert (s = w) as ->.
  { unfold rd_ptr in Hrun. inv_ok Hrun. apply deref_entry_Ok_inv in Hrun1 as [_ ->].
    by apply lift_Ok_inv in Hrun as [_ ->]. }
  apply get_data_Ok_inv in Hrun0 as (rd & Hrd & <- & ->). destruct (hasSecondChance _).
  - inv_ok H. unfold useSecondChance in Hrun0. apply update_data_Ok_inv in Hrun0 as (rd' & Hr' & ->).
    apply IH in H as (F & He' & D). destruct (updated_frame w a rd' (sc_stamp (policy w) (data rd') false) Hr')
      as [F0 _]. split; [by etrans|]. split; [done|]. rewrite D. simpl.
    apply dom_insert_lookup_L. by exists rd'.
  - injection H as <- <-. split; [done|]. split; [by exists e|done].
Qed.

Lemma zero_loop_Ok_inv w w' cands z :
  foreach cands zero_body None w = Ok (z, w') -> w' = w /\ forall e, z = Some e -> e ∈ cands.
Proof.
  assert (forall l x, foreach l (zero_body (X := X)) x w = Ok (z, w') ->
    w' = w /\ (z = x \/ exists e, z = Some e /\ e ∈ l)) as L.
  { induction l as [|b l IH]; intros x E; simpl in E; [injection E as <- <-; auto|]. inv_ok E.
    unfold zero_body in Hrun. inv_ok Hrun. apply cand_get_Ok_inv in Hrun0 as [_ ->].
    injection Hrun as <- <-. destruct (_ && _).
    - injection E as <- <-. split; [done|]. right. exists b. split; [done|left].
    - apply IH in E as [-> [->|(e & -> & He)]]; [auto|]. split; [done|]. right. exists e.
      split; [done|by right]. }
  intros [-> [->|(e & -> & He)]]%L; (split; [done|]); [done|]. by intros e' [= <-].
Qed.

End Search.

(** ** The promises of the interface *)
Lemma sc_victim_some {X} (w : world FIFO SecondChanceReplData X) cands ds :
  cands <> [] -> cands_data w cands ds -> exists e w', sc_getVictim cands w = Ok (Some e, w').
Proof.
  destruct cands as [|c0 cands]; intros Hne HD; [done|]. unfold sc_getVictim.
  assert (exists rs, cands_rds w (c0 :: cands) rs /\ forall r, r ∈ rs -> is_Some (rp_data w !! r))
    as (rs & HC & HL).
  { clear Hne. induction HD as [|e d cs ds Hd _ (rs & HC & HL)]; [exists []; split; [constructor|set_solver]|].
    apply cand_data_Some in Hd as (o & r & rd & He & Hr & Hrd & <-). exists (r :: rs). split.
    - constructor; [|done]. unfold cand_rd. by rewrite He.
    - intros r' [-> |Hr']%elem_of_cons; [|by apply HL]. unfold rp_data. rewrite lookup_fmap, Hrd. eauto. }
  unfold bind at 1, checkM, lift, ocheck. destruct (Z.ltb_spec 0 (vsize (c0 :: cands))).
  2:{ unfold vsize in *. simpl in *. lia. }
  rewrite (bind_Ok _ _ _ _ _ (zero_loop w _ _ HC HL)).
  destruct (match list_find _ rs with Some _ => _ | None => None end) as [e|]; [eauto|].
  destruct (search_victim_ends (S (length (c0 :: cands))) w c0 cands rs HC HL) as (e & w' & E); [|eauto].
  rewrite (Forall2_length _ _ _ HC). assert (length (lucky (rp_data w) rs) <= length rs)%nat
    by apply length_filter. lia.
Qed.

#[export] Instance SecondChance_laws : ReplacementPolicyLaws FIFO SecondChanceReplData.
Proof.
  refine {| rp_live := fun _ => true; rp_inv := fun _ _ => True |}.
  - update_frame_law.
  - done.
  - intros X w w' r H. apply update_data_stores in H as [d Hd]. eauto.
  - intros X w w' r d H _ _. apply update_data_stores in H as [d' Hd]. eauto.
  - intros X w r. apply update_data_total.
  - intros X w r. apply update_data_total.
  - intros X w w' cands v H. cbn in H. unfold sc_getVictim in H. inv_ok H.
    apply lift_Ok_inv in Hrun as [_ ->]. apply zero_loop_Ok_inv in Hrun0 as [-> Hz].
    destruct a0 as [e|].
    + injection H as <- <-. split; [done|]. split; [by intros ? [= <-]; apply Hz|]. eauto.
    + apply search_victim_Ok_inv in H as (F & (e & -> & He) & D).
      split; [done|]. split; [by intros ? [= <-]|]. intros r d Hd _.
      assert (r ∈ dom (rds w')) as Hr.
      { rewrite D. apply elem_of_dom. unfold rp_data in Hd. rewrite lookup_fmap in Hd.
        destruct (rds w !! r); [eauto|done]. }
      apply elem_of_dom in Hr as [rd Hr]. exists (data rd). unfold rp_data. by rewrite lookup_fmap, Hr.
  - intros X w cands ds _ _ Hne HD _. destruct (sc_victim_some w cands ds Hne HD) as (e & w' & E). eauto.
  - intros X w cands ds _ _ Hne HD. destruct (sc_victim_some w cands ds Hne HD) as (e & w' & E). eauto.
  - done.
Defined.

(** ** The victim *)

(** What [getVictim] chooses: the first entry never inserted, or else the victim
    of the clock algorithm. *)
Definition chosen (m : gmap loc SecondChanceReplData) (rs : list loc) (r : loc) : Prop :=
  match list_find (never_inserted m) rs with
  | Some (_, r0) => r = r0
  | None => clock_victim m rs r
  end.

Lemma sc_getVictim_spec {X} (w : world FIFO SecondChanceReplData X) c0 cands rs :
  cands_rds w (c0 :: cands) rs -> stamps_ok (policy w) (rp_data w) rs ->
  0 <= timeTicks (policy w) -> timeTicks (policy w) + vsize rs < 2 ^ 64 ->
  exists e r w', sc_getVictim (c0 :: cands) w = Ok (Some e, w') /\ frame w w' /\
    e ∈ (c0 :: cands) /\ cand_rd w e = Some r /\ chosen (rp_data w) rs r /\
    chance (rp_data w') r = false /\ (Exists (never_inserted (rp_data w)) rs -> w' = w).
Proof.
  intros HC HS H0 Hb. unfold sc_getVictim, chosen.
  unfold bind at 1, checkM, lift, ocheck. destruct (Z.ltb_spec 0 (vsize (c0 :: cands))).
  2:{ unfold vsize in *. simpl in *. lia. }
  rewrite (bind_Ok _ _ _ _ _ (zero_loop w _ _ HC (st_live _ _ _ HS))).
  destruct (list_find _ rs) as [[i r]|] eqn:Ef.
  - apply list_find_Some in Ef as (Hi & [_ Hc] & _).
    destruct (Forall2_lookup_r _ _ _ _ _ HC Hi) as (e & He & Hr). rewrite He.
    exists e, r, w. split_and!; try done. by eapply list_elem_of_lookup_2.
  - destruct (search_victim_clock (S (length (c0 :: cands))) w c0 cands rs HC HS H0 Hb) as (e & r & w' & ? & ? & ? & ? & ? & ?).
    { rewrite (Forall2_length _ _ _ HC).
      assert (length (lucky (rp_data w) rs) <= length rs)%nat by apply length_filter. lia. }
    exists e, r, w'. split_and!; try done. intros Hx. apply list_find_None in Ef.
    apply Exists_exists in Hx as (x & Hx & Hn). by destruct (proj1 (Forall_forall _ _) Ef x Hx).
Qed.

(** The entry that was stamped last is not chosen while another one has no
    second chance. *)
Lemma newest_not_chosen p m rs r r' v :
  stamps_ok p m rs -> 0 <= timeTicks p -> r' ∈ rs -> r' <> r -> chance m r' = false ->
  chosen (after_use p m r) rs v -> v <> r.
Proof.
  intros [HL HB] H0 Hr' Hne Hc Hv ->. assert (tick (after_use p m r) r = timeTicks p + 1) as T
    by (unfold tick, after_use; by rewrite dat_insert).
  unfold chosen in Hv. destruct (list_find _ rs) as [[i r0]|] eqn:Ef.
  - subst r0. apply list_find_Some in Ef as (_ & [Hz _] & _). lia.
  - assert (r' ∈ unlucky (after_use p m r) rs) as Hu.
    { apply list_elem_of_filter. split; [|done]. unfold chance, after_use. by rewrite dat_insert_ne. }
    unfold clock_victim in Hv. rewrite decide_False in Hv by (intros E; rewrite E in Hu; by apply not_elem_of_nil in Hu).
    destruct Hv as [_ Hmin]. specialize (Hmin r' Hu). specialize (HB r' Hr'). rewrite T in Hmin.
    unfold tick, after_use in Hmin. rewrite dat_insert_ne in Hmin by done. unfold tick in HB. lia.
Qed.

(** ** Properties *)

(** C34 (termination). On candidates whose stamps are not above the counter, and
    while the counter does not wrap, [SecondChance::getVictim] returns: the loop
    of the search ends.  If a candidate was never inserted (stamp zero, no second
    chance), the victim is the first such candidate and nothing changes.
    Otherwise it is the one of the clock algorithm: an oldest candidate without
    a second chance, or an oldest of all when every candidate has one, whose
    chance is then used.  Entries that were invalidated do not get the priority
    that the comment in [getVictim] and the documentation of [invalidate] in
    [second_chance_rp.hh] give them: [invalidate] stamps them as the newest, and
    an invalidated entry is not chosen while another candidate has no second
    chance. *)
Theorem second_chance_clock {X} (w : world FIFO SecondChanceReplData X) c0 cands rs :
  cands_rds w (c0 :: cands) rs -> stamps_ok (policy w) (rp_data w) rs ->
  0 <= timeTicks (policy w) -> timeTicks (policy w) + vsize rs + 1 < 2 ^ 64 ->
  (exists e r w', sc_getVictim (c0 :: cands) w = Ok (Some e, w') /\ frame w w' /\
    e ∈ (c0 :: cands) /\ cand_rd w e = Some r /\ chosen (rp_data w) rs r /\
    chance (rp_data w') r = false /\ (Exists (never_inserted (rp_data w)) rs -> w' = w)) /\
  forall r r', r ∈ rs -> r' ∈ rs -> r' <> r -> chance (rp_data w) r' = false ->
    exists w1 e v w2, sc_invalidate r w = Ok (tt, w1) /\ sc_getVictim (c0 :: cands) w1 = Ok (Some e, w2) /\
      cand_rd w1 e = Some v /\ v <> r.
Proof.
  intros HC HS H0 Hb. split; [apply sc_getVictim_spec; done || lia|]. intros r r' Hr Hr' Hne Hch.
  destruct (st_live _ _ _ HS r Hr) as [d Hd].
  assert (exists rd, rds w !! r = Some rd) as [rd Hrd].
  { unfold rp_data in Hd. rewrite lookup_fmap in Hd. destruct (rds w !! r) as [rd|]; [by exists rd|done]. }
  set (w1 := updated w r rd (sc_stamp (policy w) (data rd) false)).
  assert (rp_data w1 = after_use (policy w) (rp_data w) r /\ policy w1 = mkFIFO (timeTicks (policy w) + 1)) as [Ed Ep].
  { unfold w1. rewrite updated_data. unfold sc_stamp, stamp_data. simpl. rewrite uwrap_small by (unfold vsize in *; lia). done. }
  destruct (updated_frame w r rd (sc_stamp (policy w) (data rd) false) Hrd) as [Fr _]. fold w1 in Fr.
  destruct (sc_getVictim_spec w1 c0 cands rs) as (e & v & w2 & E & _ & _ & Hv & Hch2 & _).
  - by eapply cands_rds_frame.
  - rewrite Ed, Ep. by apply after_use_ok.
  - rewrite Ep. simpl. lia.
  - rewrite Ep. simpl. lia.
  - exists w1, e, v, w2. split; [unfold sc_invalidate; by rewrite (update_data_Ok _ _ _ _ Hrd)|]. split; [done|]. split; [done|].
    rewrite Ed in Hch2. by eapply newest_not_chosen.
Qed.

(** Four entries: the oldest was touched, the next was not, and one was never
    inserted. *)
Definition demo_world : world FIFO SecondChanceReplData unit :=
  let e n := mkObject (mkReplaceableEntry 0 0 (Some n)) tt in
  let d t c := mkReplacementData Null (mkSecondChanceReplData (mkFIFOReplData t) c) in
  mkWorld (mkFIFO 5) {[1%positive := e 1%positive; 2%positive := e 2%positive; 3%positive := e 3%positive; 4%positive := e 4%positive]}
    {[1%positive := d 5 true; 2%positive := d 3 true; 3%positive := d 4 false; 4%positive := d 0 false]} 0.

Lemma demo_stamps : stamps_ok (policy demo_world) (rp_data demo_world) [1; 2; 3; 4]%positive.
Proof.
  split; intros r Hr; repeat (apply elem_of_cons in Hr as [-> |Hr]; [(eexists; reflexivity) || (vm_compute; discriminate)|]);
    by apply not_elem_of_nil in Hr.
Qed.

Lemma second_chance_clock_witness :
  (exists e r w', sc_getVictim [1; 2; 3]%positive demo_world = Ok (Some e, w') /\
    clock_victim (rp_data demo_world) [1; 2; 3]%positive r /\ cand_rd demo_world e = Some r) /\
  (exists e w', sc_getVictim [1; 2; 3; 4]%positive demo_world = Ok (Some e, w') /\ cand_rd demo_world e = Some 4%positive) /\
  exists w1 e v w2, sc_invalidate 3 demo_world = Ok (tt, w1) /\ sc_getVictim [1; 2; 3; 4]%positive w1 = Ok (Some e, w2) /\
    cand_rd w1 e = Some v /\ v <> 3%positive.
Proof.
  destruct demo_stamps as [HL HB].
  destruct (second_chance_clock demo_world 1%positive [2; 3]%positive [1; 2; 3]%positive)
    as [(e & r & w' & E & _ & _ & Hr & Hv & _) _].
  1: repeat constructor.
  1: split; intros r Hr; [apply HL|apply HB]; set_solver.
  1, 2: vm_compute; congruence.
  destruct (second_chance_clock demo_world 1%positive [2; 3; 4]%positive [1; 2; 3; 4]%positive)
    as [(e' & r' & w'' & E' & _ & _ & Hr' & Hv' & _) Hi].
  1: repeat constructor.
  1: by split.
  1, 2: vm_compute; congruence.
  split; [by exists e, r, w'|]. split; [|apply (Hi 3 4)%positive; [set_solver|set_solver|done|reflexivity]].
  exists e', w''. split; [done|].
  assert (list_find (never_inserted (rp_data demo_world)) [1; 2; 3; 4]%positive = Some (3%nat, 4%positive)) as Ef
    by (vm_compute; reflexivity). unfold chosen in Hv'. rewrite Ef in Hv'. by subst.
Defined.
