(* ===== verification/BRRIP.v ===== *)
(** Re-reference interval prediction, [mem/cache/replacement_policies/brrip_rp.hh] and
    [brrip_rp.cc] (BRRIP, and with other parameters RRIP and NRU).

    [getVictim] ages all candidates at once, by the distance of the best of them
    to the maximum; it is shown equal to the loop of the literature, which ages
    them one step at a time until one reaches the maximum. *)
From stdpp Require Import base gmap list.
From Stdlib Require Import ZArith Lia.
From S2P Require Import Prelude ReplBase ReplScan.
From S2P Require Import SatCounter RandomRP.

(** ** Definitions *)
Record BRRIPReplData := mkBRRIPReplData { rrpv : GenericSatCounter; valid : bool }.

Definition new_BRRIPReplData (num_bits : Z) : outcome BRRIPReplData :=
  let? c := new_GenericSatCounter 8 num_bits 0 in Ok (mkBRRIPReplData c false).

Record BRRIP (rng : Type) := mkBRRIP {
  numRRPVBits : Z; hitPriority : bool; btp : Z; gen : rng }.
Arguments mkBRRIP {rng} _ _ _ _.
Arguments numRRPVBits {rng} _.
Arguments hitPriority {rng} _.
Arguments btp {rng} _.
Arguments gen {rng} _.

Definition new_BRRIP {rng} (num_bits : Z) (hit_priority : bool) (p_btp : Z) (seed : rng) :
    outcome (BRRIP rng) :=
  let? _ := ocheck (negb (num_bits <=? 0)) Fatal in
  Ok (mkBRRIP num_bits hit_priority p_btp seed).

Definition instantiateEntry {rng} (p : BRRIP rng) : outcome (BRRIPReplData * BRRIP rng) :=
  let? d := new_BRRIPReplData (numRRPVBits p) in Ok (d, p).

(** What the operations do to the policy and the data. *)
Definition invalidate_data (d : BRRIPReplData) : BRRIPReplData := mkBRRIPReplData (rrpv d) false.

Definition touch_data {rng} (p : BRRIP rng) (d : BRRIPReplData) : BRRIPReplData :=
  mkBRRIPReplData (if hitPriority p then reset_counter (rrpv d) else (post_decr (rrpv d)).2) (valid d).

Definition reset_data {rng} (random : draw rng) (p : BRRIP rng) (d : BRRIPReplData) :
    BRRIP rng * BRRIPReplData :=
  let c := (saturate (rrpv d)).2 in
  let '(n, g) := random (gen p) 1 100 in
  (mkBRRIP (numRRPVBits p) (hitPriority p) (btp p) g,
   mkBRRIPReplData (if n <=? btp p then (post_decr c).2 else c) true).

Section Ops.
Context {rng X : Type} (random : draw rng).
#[local] Abbreviation W := (world (BRRIP rng) BRRIPReplData X).

Definition invalidate (r : loc) : M W unit := update_data (fun p _ d => (p, invalidate_data d)) r.
Definition touch (r : loc) : M W unit := update_data (fun p _ d => (p, touch_data p d)) r.
Definition reset (r : loc) : M W unit := update_data (fun p _ d => reset_data random p d) r.

End Ops.

(** [getVictim], on data that has BRRIP data as base class. *)
Section Victim.
Context {P D X : Type} (get : D -> BRRIPReplData) (put : BRRIPReplData -> D -> D).
#[local] Abbreviation W := (world P D X).

(** The search: the candidate to return at once, else the victim and its RRPV. *)
Definition search_body (acc : option loc * (loc * Z)) (candidate : loc) :
    M W (step (option loc * (loc * Z))) :=
  let* d := cand_get candidate in
  if negb (valid (get d)) then ret (Break (Some candidate, acc.2))
  else
    let candidate_RRPV := read (rrpv (get d)) in
    ret (Continue (None, if acc.2.2 <? candidate_RRPV then (candidate, candidate_RRPV) else acc.2)).

(** [candidate->rrpv += diff]. *)
Definition age_body (diff : Z) (_ : unit) (candidate : loc) : M W (step unit) :=
  let* r := rd_ptr candidate in
  let* d := get_data r in
  let* c := lift (add_assign diff (rrpv (get d))) in
  do* put_data r (put (mkBRRIPReplData c (valid (get d))) d) ;;
  ret (Continue tt).

Definition getVictim (candidates : list loc) : M W (option loc) :=
  match candidates with
  | [] => throw AssertFailed
  | c0 :: _ =>
      let* d0 := cand_get c0 in
      let* acc := foreach candidates search_body (None, (c0, read (rrpv (get d0)))) in
      match acc.1 with
      | Some candidate => ret (Some candidate)
      | None =>
          let victim := acc.2.1 in
          let* r := rd_ptr victim in
          let* d := get_data r in
          let '(diff, c) := saturate (rrpv (get d)) in
          do* put_data r (put (mkBRRIPReplData c (valid (get d))) d) ;;
          do* (if 0 <? diff then foreach candidates (age_body diff) tt else ret tt) ;;
          ret (Some victim)
      end
  end.

End Victim.

Definition BRRIP_policy {rng} (random : draw rng) : ReplacementPolicy (BRRIP rng) BRRIPReplData := {|
  rp_instantiateEntry := instantiateEntry;
  rp_invalidate X := invalidate (X := X);
  rp_touch X := touch (X := X);
  rp_reset X := reset (X := X) random;
  rp_getVictim X := getVictim (X := X) id (fun b _ => b) |}.

(** ** The reference algorithm

    [while (no candidate is at the maximum) age every candidate by one]. *)
Fixpoint find_max (m : Z) (l : list Z) : option nat :=
  match l with
  | [] => None
  | x :: l' => if x =? m then Some 0%nat else S <$> find_max m l'
  end.

Fixpoint aging_loop (fuel : nat) (m : Z) (l : list Z) : outcome (nat * list Z) :=
  match fuel with
  | O => Fault OutOfFuel
  | S fuel' =>
      match find_max m l with
      | Some i => Ok (i, l)
      | None => aging_loop fuel' m (Z.add 1 <$> l)
      end
  end.

(** [i] is the first position of the largest element. *)
Definition first_max (l : list Z) (i : nat) (x : Z) : Prop :=
  l !! i = Some x /\ (forall j y, l !! j = Some y -> y <= x) /\
  (forall j y, (j < i)%nat -> l !! j = Some y -> y < x).

Lemma find_max_first m l i x : first_max l i x -> find_max m l = if x =? m then Some i else
  if x <? m then None else find_max m l.
Proof.
  intros (H1 & H2 & H3). destruct (Z.eqb_spec x m) as [->|Hne].
  - revert i H1 H2 H3. induction l as [|y l IH]; intros i H1 H2 H3; [done|]. simpl.
    destruct i as [|i]; simplify_eq/=; [by rewrite Z.eqb_refl|].
    pose proof (H3 0%nat y ltac:(lia) eq_refl) as Hy. replace (y =? m) with false by lia.
    rewrite (IH i); [done|done|intros j z Hj; by apply (H2 (S j))|].
    intros j z Hj Hz. apply (H3 (S j)); [lia|done].
  - destruct (Z.ltb_spec x m); [|done]. clear H1 H3. induction l as [|y l IH]; [done|]. simpl.
    pose proof (H2 0%nat y eq_refl). replace (y =? m) with false by lia.
    rewrite IH; [done|]. intros j z Hj. by apply (H2 (S j)).
Qed.

Lemma first_max_add l i x k : first_max l i x -> first_max (Z.add k <$> l) i (k + x).
Proof.
  intros (H1 & H2 & H3). split_and!.
  - by rewrite list_lookup_fmap, H1.
  - intros j y. rewrite list_lookup_fmap. intros (z & Hz & ->)%fmap_Some. specialize (H2 j z Hz). lia.
  - intros j y Hj. rewrite list_lookup_fmap. intros (z & Hz & ->)%fmap_Some.
    specialize (H3 j z Hj Hz). lia.
Qed.

Lemma fmap_add_add (l : list Z) a b : Z.add a <$> (Z.add b <$> l) = Z.add (a + b) <$> l.
Proof. rewrite <- list_fmap_compose. apply list_fmap_ext. intros. simpl. lia. Qed.

(** The loop stops after [m - x] rounds, at the first of the largest. *)
Lemma aging_loop_spec m l i x fuel :
  first_max l i x -> x <= m -> m - x < Z.of_nat fuel ->
  aging_loop fuel m l = Ok (i, Z.add (m - x) <$> l).
Proof.
  revert l x. induction fuel as [|fuel IH]; intros l x HF Hm Hf; [lia|]. cbn [aging_loop].
  rewrite (find_max_first m l i x HF). destruct (Z.eqb_spec x m) as [->|Hne].
  - rewrite Z.sub_diag. do 2 f_equal. symmetry. rewrite <- (list_fmap_id l) at 2.
    apply list_fmap_ext. intros. simpl. lia.
  - replace (x <? m) with true by lia. rewrite (IH _ (1 + x)); [|by apply first_max_add|lia|lia].
    rewrite fmap_add_add. by replace (m - (1 + x) + 1) with (m - x) by lia.
Qed.

(** ** The search loop *)
Section Search.
Context {P D X : Type} (get : D -> BRRIPReplData) (put : BRRIPReplData -> D -> D).
Implicit Types w : world P D X.

(** The RRPV of a candidate. *)
Definition rrpv_of (d : D) : Z := counter (rrpv (get d)).

(** The first invalid position. *)
Definition first_invalid (ds : list D) (i : nat) : Prop :=
  (exists d, ds !! i = Some d /\ valid (get d) = false) /\
  forall j d, (j < i)%nat -> ds !! j = Some d -> valid (get d) = true.

Lemma search_loop w cands ds v x :
  cands_data w cands ds ->
  exists acc, foreach cands (search_body get) (None, (v, x)) w = Ok (acc, w) /\
    ((exists i e, cands !! i = Some e /\ first_invalid ds i /\ acc.1 = Some e) \/
     (Forall (fun d => valid (get d) = true) ds /\ acc.1 = None /\
      ((acc.2 = (v, x) /\ Forall (fun d => rrpv_of d <= x) ds) \/
       exists i, cands !! i = Some acc.2.1 /\ first_max (rrpv_of <$> ds) i acc.2.2 /\ x < acc.2.2))).
Proof.
  intros HD. revert v x. induction HD as [|c d cands ds Hc _ IH]; intros v x.
  { eexists. split; [done|]. right. split_and!; try done. by left. }
  cbn [foreach]. unfold search_body at 1. destruct (valid (get d)) eqn:V.
  - rewrite (bind_Ok _ _ w (Continue (None, if x <? rrpv_of d then (c, rrpv_of d) else (v, x))) w).
    2:{ rewrite (bind_Ok _ _ _ _ _ (cand_get_Ok _ _ _ Hc)). by rewrite V. }
    set (vx := if x <? rrpv_of d then (c, rrpv_of d) else (v, x)).
    destruct (IH vx.1 vx.2) as (acc & E & Hacc). rewrite <- surjective_pairing in E.
    exists acc. split; [done|].
    destruct Hacc as [(i & e & Hi & ((d' & Hd' & V') & Hb) & He)|(HF & Hn & Hcase)].
    + left. exists (S i), e. split; [done|]. split; [|done]. split; [by exists d'|].
      intros [|j] d'' Hj Hd''; simplify_eq/=; [done|]. apply (Hb j); [lia|done].
    + right. split; [by constructor|]. split; [done|]. unfold vx in Hcase.
      destruct (Z.ltb_spec x (rrpv_of d)) as [L|L]; simpl in Hcase.
      * right. destruct Hcase as [[-> Hle]|(i & Hi & (M1 & M2 & M3) & Hx)].
        -- exists 0%nat. simpl. split; [done|]. split; [|done]. split_and!; [done| |intros; lia].
           intros [|j] y Hy; simplify_eq/=; [lia|]. rewrite Forall_lookup in Hle.
           rewrite list_lookup_fmap in Hy. apply fmap_Some in Hy as (d' & Hd' & ->). by eapply Hle.
        -- exists (S i). simpl. split; [done|]. split; [|lia]. split_and!; [done| |].
           ++ intros [|j] y Hy; simplify_eq/=; [lia|]. by apply (M2 j).
           ++ intros [|j] y Hj Hy; simplify_eq/=; [lia|]. apply (M3 j); [lia|done].
      * destruct Hcase as [[-> Hle]|(i & Hi & (M1 & M2 & M3) & Hx)]; [left; split; [done|by constructor]|].
        right. exists (S i). simpl. split; [done|]. split; [|lia]. split_and!; [done| |].
        ++ intros [|j] y Hy; simplify_eq/=; [lia|]. by apply (M2 j).
        ++ intros [|j] y Hj Hy; simplify_eq/=; [lia|]. apply (M3 j); [lia|done].
  - rewrite (bind_Ok _ _ w (Break (Some c, (v, x))) w).
    2:{ rewrite (bind_Ok _ _ _ _ _ (cand_get_Ok _ _ _ Hc)). by rewrite V. }
    eexists. split; [done|]. left. exists 0%nat, c. split; [done|]. split; [|done].
    split; [by exists d|]. intros; lia.
Qed.

(** ** The aging loop *)
Definition aged (diff : Z) (d : D) : D :=
  put (mkBRRIPReplData (add_nonneg diff (rrpv (get d))) (valid (get d))) d.

Lemma age_body_Ok w diff e r rd :
  0 <= diff -> cand_rd w e = Some r -> rds w !! r = Some rd ->
  age_body get put diff tt e w = Ok (Continue tt, updated w r rd (policy w, aged diff (data rd))).
Proof.
  intros Hd He Hr. unfold age_body. rewrite (bind_Ok _ _ _ _ _ (rd_ptr_Ok _ _ _ He)).
  rewrite (bind_Ok _ _ _ _ _ (get_data_Ok _ _ _ Hr)). unfold bind at 1, lift, add_assign.
  replace (0 <=? diff) with true by lia. rewrite (bind_Ok _ _ _ _ _ (put_data_Ok _ _ _ _ Hr)).
  by destruct w.
Qed.

Lemma age_loop w diff cands rs :
  0 <= diff -> cands_rds w cands rs -> (forall r, r ∈ rs -> is_Some (rds w !! r)) -> NoDup rs ->
  exists w', foreach cands (age_body get put diff) tt w = Ok (tt, w') /\ frame w w' /\
    policy w' = policy w /\
    forall r, rp_data w' !! r = (if decide (r ∈ rs) then aged diff else id) <$> rp_data w !! r.
Proof.
  intros Hdiff HC HL HN. revert w HC HL. revert cands.
  induction rs as [|r rs IH]; intros cands w HC HL; inversion HC as [|e ? cands' ? He HC']; subst.
  { exists w. split; [done|]. split_and!; try done. intros r. rewrite decide_False by set_solver.
    by destruct (rp_data w !! r). }
  apply NoDup_cons in HN as [Hnin HN]. destruct (HL r ltac:(left)) as [rd Hr].
  cbn [foreach]. rewrite (bind_Ok _ _ _ _ _ (age_body_Ok w diff e r rd Hdiff He Hr)).
  set (w1 := updated _ _ _ _). destruct (updated_frame w r rd (policy w, aged diff (data rd)) Hr) as [F1 O1].
  fold w1 in F1, O1.
  destruct (IH HN cands' w1) as (w' & E & F & Pw & Dt).
  - by eapply cands_rds_frame.
  - intros r' Hr'. rewrite O1 by set_solver. apply HL. by right.
  - exists w'. split; [done|]. split; [by etrans|]. split; [by rewrite Pw|]. intros r'. rewrite Dt.
    unfold w1. rewrite updated_data. simpl. destruct (decide (r' = r)) as [->|Hne].
    + rewrite lookup_insert_eq, decide_False, decide_True by set_solver.
      unfold rp_data. by rewrite lookup_fmap, Hr.
    + rewrite lookup_insert_ne by done. destruct (decide (r' ∈ rs)).
      * by rewrite decide_True by set_solver.
      * by rewrite decide_False by set_solver.
Qed.

Hypothesis get_put : forall b d, get (put b d) = b.
Hypothesis put_put : forall b b' d, put b (put b' d) = put b d.
Hypothesis put_get : forall d, put (get d) d = d.

(** The candidates are live, valid, and count up to [m]. *)
Definition cands_counting w (rs : list loc) (ds : list D) (m : Z) : Prop :=
  Forall2 (fun r d => rp_data w !! r = Some d) rs ds /\
  Forall (fun d => valid (get d) = true /\ maxVal (rrpv (get d)) = m /\
    0 <= rrpv_of d <= m) ds.

(** Data with its counter moved to [n]. *)
Definition with_rrpv (n : Z) (d : D) : D :=
  put (mkBRRIPReplData (with_counter n (rrpv (get d))) (valid (get d))) d.

Lemma put_data_updated w r rd d : rds w !! r = Some rd ->
  put_data r d w = Ok (tt, updated w r rd (policy w, d)).
Proof. intros H. rewrite (put_data_Ok _ _ _ _ H). by destruct w. Qed.

(** On valid candidates the search finds the first of the largest RRPVs. *)
Lemma search_max w c0 cands ds d0 :
  cands_data w (c0 :: cands) ds -> cand_data w c0 = Some d0 ->
  Forall (fun d => valid (get d) = true) ds ->
  exists v x i, foreach (c0 :: cands) (search_body get) (None, (c0, rrpv_of d0)) w = Ok ((None, (v, x)), w) /\
    (c0 :: cands) !! i = Some v /\ first_max (rrpv_of <$> ds) i x.
Proof.
  intros HCD H0 HV. inversion HCD as [|? d0' ? ds' H0' _]; subst. rewrite H0 in H0'. injection H0' as <-.
  destruct (search_loop w _ _ c0 (rrpv_of d0) HCD) as ([o [v x]] & E & Hacc).
  rewrite E. destruct Hacc as [(i & e & _ & ((d & Hd & V) & _) & _)|(_ & En & Hcase)].
  { exfalso. rewrite Forall_lookup in HV. specialize (HV i d Hd). congruence. }
  simpl in En. subst o. exists v, x. destruct Hcase as [[Ea Hle]|(i & Hi & HM & _)]; [|by exists i].
  injection Ea as -> ->. exists 0%nat. split; [done|]. split; [done|]. split; [done|].
  split; [|intros; lia]. intros j y Hy. rewrite list_lookup_fmap in Hy.
  apply fmap_Some in Hy as (d & Hd & ->). rewrite Forall_lookup in Hle. by eapply Hle.
Qed.

(** Aging by [m - x] a counter that is not above [x], and one already saturated. *)
Lemma aged_with_rrpv d m x : maxVal (rrpv (get d)) = m -> rrpv_of d <= x ->
  aged (m - x) d = with_rrpv (rrpv_of d + (m - x)) d.
Proof.
  intros Hm Hx. unfold aged, with_rrpv, add_nonneg. fold (rrpv_of d). rewrite Hm.
  by replace (m - x <=? m - rrpv_of d) with true by lia.
Qed.

Lemma aged_saturated d m x : maxVal (rrpv (get d)) = m -> x < m -> aged (m - x) (with_rrpv m d) = with_rrpv m d.
Proof.
  intros Hm Hx. unfold aged, with_rrpv, add_nonneg. rewrite !get_put, put_put.
  cbn [rrpv valid with_counter maxVal counter]. rewrite Hm.
  by replace (m - x <=? m - m) with false by lia.
Qed.

Lemma with_rrpv_same d n : n = rrpv_of d -> with_rrpv n d = d.
Proof.
  intros ->. unfold with_rrpv, rrpv_of. rewrite with_counter_id.
  etrans; [|apply put_get]. f_equal. by destruct (get d).
Qed.

(** All candidates valid: the first with the largest RRPV is evicted, and every
    candidate is aged by its distance to the maximum. *)
Lemma getVictim_ages w c0 cands rs ds m :
  cands_rds w (c0 :: cands) rs -> NoDup rs -> cands_counting w rs ds m ->
  exists i e w' x, getVictim get put (c0 :: cands) w = Ok (Some e, w') /\ frame w w' /\
    (c0 :: cands) !! i = Some e /\ first_max (rrpv_of <$> ds) i x /\
    (forall j r d, rs !! j = Some r -> ds !! j = Some d ->
       rp_data w' !! r = Some (with_rrpv (rrpv_of d + (m - x)) d)) /\
    (forall r, r ∉ rs -> rp_data w' !! r = rp_data w !! r).
Proof.
  intros HC HN [HD HV]. pose proof (cands_rds_data_2 _ _ _ _ HC HD) as HCD.
  assert (exists d0, cand_data w c0 = Some d0) as [d0 H0] by (inversion HCD; eauto).
  unfold getVictim. rewrite (bind_Ok _ _ _ _ _ (cand_get_Ok _ _ _ H0)).
  destruct (search_max w c0 cands ds d0 HCD H0) as (v & x & i & E & Hi & HM).
  { eapply Forall_impl; [exact HV|]. by intros d (V & _). }
  rewrite (bind_Ok _ _ _ _ _ E). cbn [fst snd].
  destruct (Forall2_lookup_l _ _ _ _ _ HC Hi) as (r & Hr & Hcr).
  destruct (Forall2_lookup_l _ _ _ _ _ HD Hr) as (d & Hd & Hrd).
  apply rp_data_Some in Hrd as (rd & Hrd & Ed). rewrite Forall_lookup in HV.
  destruct (HV i d Hd) as (Vd & Md & Bd). pose proof HM as (M1 & M2 & _).
  rewrite list_lookup_fmap, Hd in M1. injection M1 as Ex.
  rewrite (bind_Ok _ _ _ _ _ (rd_ptr_Ok _ _ _ Hcr)), (bind_Ok _ _ _ _ _ (get_data_Ok _ _ _ Hrd)).
  rewrite Ed. unfold saturate. rewrite Md. fold (rrpv_of d). rewrite Ex. fold (with_rrpv m d).
  rewrite (bind_Ok _ _ _ _ _ (put_data_updated w r rd _ Hrd)). set (w1 := updated _ _ _ _).
  destruct (updated_frame w r rd (policy w, with_rrpv m d) Hrd) as [F1 O1]. fold w1 in F1, O1.
  assert (rp_data w1 = <[r := with_rrpv m d]> (rp_data w)) as D1 by apply updated_data.
  assert (r ∈ rs) as Hin by (by eapply list_elem_of_lookup_2). exists i, v.
  destruct (Z.ltb_spec 0 (m - x)) as [Hd0|Hd0].
  - destruct (age_loop w1 (m - x) (c0 :: cands) rs) as (w2 & E2 & F2 & P2 & D2); [lia| | |done|].
    + by eapply cands_rds_frame.
    + intros r' [j Hj]%list_elem_of_lookup_1. destruct (Forall2_lookup_l _ _ _ _ _ HD Hj) as (d' & _ & Hd').
      assert (is_Some (rp_data w1 !! r')) as [d'' Hs]
        by (rewrite D1; destruct (decide (r' = r)) as [->|];
            [rewrite lookup_insert_eq|rewrite lookup_insert_ne by done]; eauto).
      apply rp_data_Some in Hs as (? & ? & _). eauto.
    + exists w2, x. rewrite (bind_Ok _ _ _ _ _ E2). split_and!; try done; [by etrans| |].
      * intros j r' d' Hr' Hd'. rewrite D2, D1, decide_True by (by eapply list_elem_of_lookup_2).
        destruct (HV j d' Hd') as (_ & M' & _). destruct (decide (r' = r)) as [->|Hne].
        -- assert (j = i) as -> by (by eapply NoDup_lookup). rewrite Hd in Hd'. injection Hd' as <-.
           rewrite lookup_insert_eq. cbn [fmap option_fmap option_map]. rewrite aged_saturated by (done || lia).
           do 2 f_equal. lia.
        -- rewrite lookup_insert_ne, (Forall2_lookup_lr _ _ _ _ _ _ HD Hr' Hd') by done.
           cbn [fmap option_fmap option_map]. f_equal. apply aged_with_rrpv; [done|].
           apply (M2 j). by rewrite list_lookup_fmap, Hd'.
      * intros r' Hr'. rewrite D2, decide_False, D1, lookup_insert_ne by set_solver.
        by destruct (rp_data w !! r').
  - exists w1, x. split_and!; try done.
    + intros j r' d' Hr' Hd'. rewrite D1. destruct (decide (r' = r)) as [->|Hne].
      * assert (j = i) as -> by (by eapply NoDup_lookup). rewrite Hd in Hd'. injection Hd' as <-.
        rewrite lookup_insert_eq. do 2 f_equal. lia.
      * rewrite lookup_insert_ne, (Forall2_lookup_lr _ _ _ _ _ _ HD Hr' Hd') by done.
        rewrite with_rrpv_same; [done|lia].
    + intros r' Hr'. rewrite D1, lookup_insert_ne by set_solver. done.
Qed.

(** An invalid candidate is taken at once: nothing changes. *)
Lemma getVictim_invalid w c0 cands ds i :
  cands_data w (c0 :: cands) ds -> first_invalid ds i ->
  exists e, getVictim get put (c0 :: cands) w = Ok (Some e, w) /\ (c0 :: cands) !! i = Some e.
Proof.
  intros HCD [(d & Hd & V) Hb]. assert (exists d0, cand_data w c0 = Some d0) as [d0 H0] by (inversion HCD; eauto).
  unfold getVictim. rewrite (bind_Ok _ _ _ _ _ (cand_get_Ok _ _ _ H0)).
  destruct (search_loop w _ _ c0 (rrpv_of d0) HCD) as (acc & E & Hacc). rewrite (bind_Ok _ _ _ _ _ E).
  destruct Hacc as [(i' & e & Hi & ((d' & Hd' & V') & Hb') & ->)|(HF & _)].
  - exists e. split; [done|]. destruct (Nat.lt_trichotomy i i') as [L|[->|L]]; [|done|].
    + rewrite (Hb' i d L Hd) in V. done.
    + rewrite (Hb i' d' L Hd') in V'. done.
  - rewrite Forall_lookup in HF. rewrite (HF i d Hd) in V. done.
Qed.

End Search.

(** ** The promises of the interface *)
Section VictimFrame.
Context {P D X : Type} (get : D -> BRRIPReplData) (put : BRRIPReplData -> D -> D).
Hypothesis get_put : forall b d, get (put b d) = b.
Implicit Types w : world P D X.

(** What a call to [getVictim] keeps: the frame, and which entries are valid. *)
Definition keeps_valid w w' : Prop :=
  frame w w' /\ forall r d, rp_data w !! r = Some d ->
    exists d', rp_data w' !! r = Some d' /\ valid (get d') = valid (get d).

Lemma keeps_valid_refl w : keeps_valid w w.
Proof. split; [done|]. eauto. Qed.

Lemma keeps_valid_trans w1 w2 w3 : keeps_valid w1 w2 -> keeps_valid w2 w3 -> keeps_valid w1 w3.
Proof.
  intros [F1 K1] [F2 K2]. split; [by etrans|]. intros r d Hd.
  destruct (K1 r d Hd) as (d1 & H1 & E1). destruct (K2 r d1 H1) as (d2 & H2 & E2).
  exists d2. split; [done|congruence].
Qed.

Lemma put_rrpv_keeps w w' r d c u :
  get_data r w = Ok (d, w) -> put_data r (put (mkBRRIPReplData c (valid (get d))) d) w = Ok (u, w') ->
  keeps_valid w w'.
Proof.
  intros (rd & Hr & <- & _)%get_data_Ok_inv (rd' & Hr' & ->)%put_data_Ok_inv.
  rewrite Hr in Hr'. injection Hr' as <-. split; [by apply frame_put|].
  intros r0 d0 Hd0. unfold rp_data in *. simpl. rewrite fmap_insert.
  destruct (decide (r0 = r)) as [->|]; [|rewrite lookup_insert_ne; eauto].
  rewrite lookup_insert_eq. eexists. split; [done|]. simpl. rewrite get_put.
  rewrite lookup_fmap, Hr in Hd0. by injection Hd0 as <-.
Qed.

Lemma age_body_Ok_inv w w' diff u e s :
  age_body get put diff u e w = Ok (s, w') -> keeps_valid w w' /\ s = Continue tt.
Proof.
  unfold age_body. intros H. inv_ok H. apply rd_ptr_Ok_inv in Hrun as [_ ->].
  pose proof Hrun0 as Hg. apply get_data_Ok_inv in Hg as (_ & _ & _ & ->).
  apply lift_Ok_inv in Hrun1 as [_ ->]. injection H as <- <-.
  split; [by eapply put_rrpv_keeps|done].
Qed.

Lemma search_loop_Ok_inv w w' cands acc acc' :
  foreach cands (search_body get) acc w = Ok (acc', w') ->
  w' = w /\ (acc'.1 = acc.1 \/ acc'.1 = None \/ exists e, acc'.1 = Some e /\ e ∈ cands) /\
  (acc'.2.1 = acc.2.1 \/ acc'.2.1 ∈ cands).
Proof.
  revert acc. induction cands as [|c cands IH]; intros acc H; simpl in H; [injection H as <- <-; auto|].
  inv_ok H. unfold search_body in Hrun. inv_ok Hrun. apply cand_get_Ok_inv in Hrun0 as [_ ->].
  destruct (negb _).
  - injection Hrun as <- <-. injection H as <- <-. simpl. split; [done|]. split; [|auto].
    right. right. exists c. split; [done|left].
  - injection Hrun as <- <-. apply IH in H as (-> & H1 & H2). split; [done|]. simpl in H1, H2. split.
    + destruct H1 as [H1|[H1|(e & H1 & He)]]; [auto|auto|]. right. right. exists e. split; [done|by right].
    + destruct H2 as [H2|H2]; [|right; by right]. destruct (_ <? _); simpl in H2; rewrite H2; [right; left|by left].
Qed.

Lemma getVictim_keeps w w' cands v :
  getVictim get put cands w = Ok (v, w') -> keeps_valid w w' /\ exists e, v = Some e /\ e ∈ cands.
Proof.
  destruct cands as [|c0 cands]; [done|]. unfold getVictim. intros H. inv_ok H.
  apply cand_get_Ok_inv in Hrun as [_ ->]. apply search_loop_Ok_inv in Hrun0 as (-> & H1 & H2).
  simpl in H1, H2. destruct (a0.1) as [e|].
  - injection H as <- <-. split; [apply keeps_valid_refl|]. exists e. split; [done|].
    destruct H1 as [H1|[H1|(e' & [= ->] & He)]]; done.
  - inv_ok H. apply rd_ptr_Ok_inv in Hrun as [_ ->]. pose proof Hrun0 as Hg.
    apply get_data_Ok_inv in Hg as (_ & _ & _ & ->).
    destruct (saturate _) as [diff c]. inv_ok H. injection H as <- <-.
    split.
    + eapply keeps_valid_trans; [by eapply put_rrpv_keeps|]. destruct (0 <? diff).
      * clear -get_put Hrun1. revert s Hrun1. generalize (c0 :: cands). intros l.
        induction l as [|x l IH]; intros s H; simpl in H; [injection H as _ <-; apply keeps_valid_refl|].
        inv_ok H. apply age_body_Ok_inv in Hrun as [K ->]. eapply keeps_valid_trans; [exact K|by apply IH].
      * injection Hrun1 as <- <-. apply keeps_valid_refl.
    + exists a0.2.1. split; [done|]. destruct H2 as [-> |H2]; [left|done].
Qed.

Lemma age_loop_returns w diff cands rs :
  0 <= diff -> cands_rds w cands rs -> (forall r, r ∈ rs -> is_Some (rds w !! r)) ->
  exists w', foreach cands (age_body get put diff) tt w = Ok (tt, w').
Proof.
  intros Hd HC. revert w HC. revert cands.
  induction rs as [|r rs IH]; intros cands w HC HL; inversion HC as [|x ? l ? Hx HC']; subst; [by exists w|].
  destruct (HL r ltac:(left)) as [rd Hrd]. cbn [foreach].
  rewrite (bind_Ok _ _ _ _ _ (age_body_Ok get put w diff x r rd Hd Hx Hrd)).
  apply IH; [by eapply cands_rds_frame; [apply updated_frame|]|].
  intros r' Hr'. simpl. destruct (decide (r' = r)) as [->|]; [rewrite lookup_insert_eq; eauto|].
  rewrite lookup_insert_ne by done. apply HL. by right.
Qed.

(** On live candidates the call returns. *)
Lemma getVictim_returns w c0 cands ds :
  cands_data w (c0 :: cands) ds -> exists e w', getVictim get put (c0 :: cands) w = Ok (Some e, w').
Proof.
  intros HCD. assert (exists d0, cand_data w c0 = Some d0) as [d0 H0] by (inversion HCD; eauto).
  unfold getVictim. rewrite (bind_Ok _ _ _ _ _ (cand_get_Ok _ _ _ H0)).
  destruct (search_loop get w _ _ c0 (rrpv_of get d0) HCD) as (acc & E & _). rewrite (bind_Ok _ _ _ _ _ E).
  destruct (acc.1) as [e|]; [eauto|].
  apply search_loop_Ok_inv in E as (_ & _ & Hv). simpl in Hv.
  assert (acc.2.1 ∈ c0 :: cands) as Hin by (destruct Hv as [-> |?]; [left|done]).
  destruct (cands_data_rds _ _ _ HCD) as (rs & HC & HD).
  assert (forall r, r ∈ rs -> is_Some (rp_data w !! r)) as HL.
  { intros r [j Hj]%list_elem_of_lookup_1. destruct (Forall2_lookup_l _ _ _ _ _ HD Hj) as (d & _ & ->). eauto. }
  apply list_elem_of_lookup_1 in Hin as [i Hi]. destruct (Forall2_lookup_l _ _ _ _ _ HC Hi) as (r & Hr & Hcr).
  destruct (HL r ltac:(by eapply list_elem_of_lookup_2)) as [d Hd].
  apply rp_data_Some in Hd as (rd & Hrd & <-).
  rewrite (bind_Ok _ _ _ _ _ (rd_ptr_Ok _ _ _ Hcr)), (bind_Ok _ _ _ _ _ (get_data_Ok _ _ _ Hrd)).
  destruct (saturate _) as [diff c]. rewrite (bind_Ok _ _ _ _ _ (put_data_updated w r rd _ Hrd)).
  set (w1 := updated _ _ _ _).
  assert (exists w2, (if 0 <? diff then foreach (c0 :: cands) (age_body get put diff) tt else ret tt) w1 = Ok (tt, w2))
    as [w2 E2]; [|rewrite (bind_Ok _ _ _ _ _ E2); eauto].
  destruct (Z.ltb_spec 0 diff); [|by exists w1].
  assert (frame w w1) as F1 by (by apply updated_frame).
  assert (cands_rds w1 (c0 :: cands) rs) as HC1 by (by eapply cands_rds_frame).
  assert (forall r, r ∈ rs -> is_Some (rds w1 !! r)) as HL1.
  { intros r' Hr'. destruct (HL r' Hr') as [d' Hd']. apply rp_data_Some in Hd' as (rd' & Hrd' & _).
    unfold w1. simpl. destruct (decide (r' = r)) as [->|]; [rewrite lookup_insert_eq; eauto|].
    rewrite lookup_insert_ne; eauto. }
  apply (age_loop_returns w1 diff (c0 :: cands) rs); [lia|done|done].
Qed.

End VictimFrame.

Definition BRRIP_laws {rng} (random : draw rng) :
  @ReplacementPolicyLaws (BRRIP rng) BRRIPReplData (BRRIP_policy random).
Proof.
  refine (@Build_ReplacementPolicyLaws _ _ (BRRIP_policy random) valid (fun _ _ => True) _ _ _ _ _ _ _ _ _ _).
  - update_frame_law.
  - done.
  - intros X w w' r (rd & Hr & ->)%update_data_Ok_inv. rewrite updated_data, lookup_insert_eq.
    eexists. split; [done|]. unfold reset_data. by destruct (random _ _ _).
  - intros X w w' r d (rd & Hr & ->)%update_data_Ok_inv Hd Hv. rewrite updated_data, lookup_insert_eq.
    eexists. split; [done|]. simpl. unfold rp_data in Hd. rewrite lookup_fmap, Hr in Hd. by injection Hd as <-.
  - intros X w r. apply update_data_total.
  - intros X w r. apply update_data_total.
  - intros X w w' cands v H. apply (getVictim_keeps id (fun b _ => b)) in H as [[F K] (e & -> & He)]; [|done].
    split; [done|]. split; [by intros ? [= <-]|]. intros r d Hd Hv.
    destruct (K r d Hd) as (d' & Hd' & E). exists d'. split; [done|]. unfold id in E. by rewrite E.
  - intros X w [|c0 cands] ds _ _ Hne HD _; [done|].
    destruct (getVictim_returns id (fun b _ => b) w c0 cands ds HD) as (e & w' & E). eauto.
  - intros X w [|c0 cands] ds _ _ Hne HD; [done|].
    destruct (getVictim_returns id (fun b _ => b) w c0 cands ds HD) as (e & w' & E). eauto.
  - done.
Defined.

(** ** Properties *)

(** C35 (equivalence). On valid candidates that count up to the same maximum, with
    distinct data, [BRRIP::getVictim] does what the aging loop does: it evicts
    the same position and leaves every candidate with the same RRPV; it changes
    no other entry. *)
Theorem brrip_victim_ages {rng X} (w : world (BRRIP rng) BRRIPReplData X) c0 cands rs ds m :
  cands_rds w (c0 :: cands) rs -> NoDup rs -> cands_counting id w rs ds m ->
  exists i e vals w',
    getVictim id (fun b _ => b) (c0 :: cands) w = Ok (Some e, w') /\ (c0 :: cands) !! i = Some e /\
    aging_loop (S (Z.to_nat m)) m (rrpv_of id <$> ds) = Ok (i, vals) /\ frame w w' /\
    (forall j r, rs !! j = Some r -> exists d, rp_data w' !! r = Some d /\
       vals !! j = Some (counter (rrpv d)) /\ valid d = true) /\
    (forall r, r ∉ rs -> rp_data w' !! r = rp_data w !! r).
Proof.
  intros HC HN HV.
  destruct (getVictim_ages id (fun b _ => b) ltac:(done) ltac:(done) ltac:(done) w c0 cands rs ds m HC HN HV)
    as (i & e & w' & x & E & F & Hi & HM & D & N).
  destruct HV as [HD HV]. rewrite Forall_lookup in HV.
  exists i, e, (Z.add (m - x) <$> (rrpv_of id <$> ds)), w'. split_and!; try done.
  - pose proof HM as (M1 & _). rewrite list_lookup_fmap in M1. apply fmap_Some in M1 as (d & Hd & Ex).
    destruct (HV i d Hd) as (_ & _ & B). apply aging_loop_spec; [done|lia|lia].
  - intros j r Hr. destruct (Forall2_lookup_l _ _ _ _ _ HD Hr) as (d & Hd & _).
    eexists. split; [by apply (D j r d)|]. destruct (HV j d Hd) as (V & _).
    split; [|done]. rewrite !list_lookup_fmap, Hd. simpl. f_equal. unfold rrpv_of, id. lia.
Qed.

Definition demo_world : world (BRRIP unit) BRRIPReplData unit :=
  let e n := mkObject (mkReplaceableEntry 0 0 (Some n)) tt in
  let d c := mkReplacementData Null (mkBRRIPReplData (mkSatCounter 0 3 c) true) in
  mkWorld (mkBRRIP 2 false 3 tt)
    {[1%positive := e 1%positive; 2%positive := e 2%positive]} {[1%positive := d 0; 2%positive := d 1]} 0.

Lemma brrip_victim_ages_witness :
  exists e w', getVictim id (fun b _ => b) [1; 2]%positive demo_world = Ok (Some e, w') /\ e = 2%positive.
Proof.
  destruct (brrip_victim_ages demo_world 1%positive [2%positive] [1; 2]%positive
    [mkBRRIPReplData (mkSatCounter 0 3 0) true; mkBRRIPReplData (mkSatCounter 0 3 1) true] 3)
    as (i & e & vals & w' & E & Hi & L & _).
  - repeat constructor.
  - repeat constructor; set_solver.
  - split; [repeat constructor|].
    constructor; [|constructor; [|constructor]]; vm_compute; split_and!; (reflexivity || discriminate).
  - exists e, w'. split; [done|]. vm_compute in L. injection L as <- _. by injection Hi.
Defined.
