(* ===== verification/TreePLRU.v ===== *)
(** The tree pseudo-LRU policy, [mem/cache/replacement_policies/tree_plru_rp.hh] and
    [tree_plru_rp.cc].

    The tree of a set is an array of bits: node [i] has the children [2i+1] and
    [2i+2], its bit points to the child where the victim is, and the leaves are
    past the end of the array.  In the proofs node [i] is the positive number
    [i + 1], whose binary digits spell the way from the root.

    The walks are loops on the depth of the tree: 65 rounds are enough for
    64-bit indices. *)
From stdpp Require Import base gmap list.
From Stdlib Require Import ZArith Lia.
From S2P Require Import Prelude ReplBase ReplScan.

(** ** Definitions *)

(** The conversion of a [uint64_t] to [double] and back: 53 bits of precision,
    ties to even. *)
Definition through_double (x : Z) : Z :=
  if x <? 2 ^ 53 then x else
  let s := Z.log2 x - 52 in
  let q := Z.shiftr x s in
  let r := x - Z.shiftl q s in
  let half := 2 ^ (s - 1) in
  Z.shiftl (if (half <? r) || ((r =? half) && Z.odd q) then q + 1 else q) s.

(** [std::floor((index-1)/2)]. *)
Definition parentIndex (index : Z) : Z := u64 (through_double (u64 (index - 1) / 2)).
Definition leftSubtreeIndex (index : Z) : Z := u64 (u64 (2 * index) + 1).
Definition rightSubtreeIndex (index : Z) : Z := u64 (u64 (2 * index) + 2).
Definition isRightSubtree (index : Z) : bool := index mod 2 =? 0.

Record TreePLRUReplData := mkTreePLRUReplData {
  index : Z;        (* const uint64_t *)
  tree : loc }.     (* std::shared_ptr<PLRUTree> *)

(** The members, and the trees the policy has allocated. *)
Record TreePLRU := mkTreePLRU {
  numLeaves : Z;
  count : Z;
  treeInstance : option loc;
  trees : gmap loc (list bool) }.

Definition new_TreePLRU (num_leaves : Z) : outcome TreePLRU :=
  let? _ := ocheck (negb (num_leaves <? 1)) Fatal in
  Ok (mkTreePLRU num_leaves 0 None ∅).

Definition set_tree (t : loc) (bits : list bool) (p : TreePLRU) : TreePLRU :=
  mkTreePLRU (numLeaves p) (count p) (treeInstance p) (<[t := bits]> (trees p)).

(** The [do ... while] of [touch] ([away]) and [invalidate]: every node on the way
    to the root is made to point away from, or to, the leaf. *)
Fixpoint climb (away : bool) (fuel : nat) (tree_index : Z) (bits : list bool) : outcome (list bool) :=
  match fuel with
  | O => Fault OutOfFuel
  | S fuel' =>
      let right := isRightSubtree tree_index in
      let tree_index := parentIndex tree_index in
      let? bits := vset bits tree_index (if away then negb right else right) in
      if tree_index =? 0 then Ok bits else climb away fuel' tree_index bits
  end.

(** The [while] of [getVictim]. *)
Fixpoint descend (fuel : nat) (tree_index : Z) (bits : list bool) : outcome Z :=
  match fuel with
  | O => Fault OutOfFuel
  | S fuel' =>
      if tree_index <? vsize bits then
        let? b := vget bits tree_index in
        descend fuel' (if b : bool then rightSubtreeIndex tree_index else leftSubtreeIndex tree_index) bits
      else Ok tree_index
  end.

Definition walk_fuel : nat := 65.

Definition instantiateEntry (p : TreePLRU) : outcome (TreePLRUReplData * TreePLRU) :=
  let? k := (if numLeaves p =? 0 then Fault DivByZero else Ok (count p mod numLeaves p)) in
  let p1 :=
    if k =? 0 then
      let t := fresh (dom (trees p)) in
      mkTreePLRU (numLeaves p) (count p) (Some t)
        (<[t := replicate (Z.to_nat (u64 (numLeaves p - 1))) false]> (trees p))
    else p in
  let? t := oget NullDeref (treeInstance p1) in
  Ok (mkTreePLRUReplData (u64 (u64 (k + numLeaves p) - 1)) t,
      mkTreePLRU (numLeaves p1) (u64 (count p1 + 1)) (treeInstance p1) (trees p1)).

Section Ops.
Context {X : Type}.
#[local] Abbreviation W := (world TreePLRU TreePLRUReplData X).

Definition update_tree (away : bool) (r : loc) : M W unit :=
  let* d := get_data r in
  let* w := getS in
  let* bits := lift (oget DanglingDeref (trees (policy w) !! tree d)) in
  let* bits' := lift (climb away walk_fuel (index d) bits) in
  putS (set_policy (set_tree (tree d) bits' (policy w)) w).

Definition invalidate (r : loc) : M W unit := update_tree false r.
Definition touch (r : loc) : M W unit := update_tree true r.
Definition reset (r : loc) : M W unit := touch r.

Definition getVictim (candidates : list loc) : M W (option loc) :=
  match candidates with
  | [] => throw AssertFailed
  | c0 :: _ =>
      let* d := cand_get c0 in
      let* w := getS in
      let* bits := lift (oget DanglingDeref (trees (policy w) !! tree d)) in
      let* tree_index := lift (descend walk_fuel 0 bits) in
      let* v := lift (vget candidates (u64 (tree_index - u64 (numLeaves (policy w) - 1)))) in
      ret (Some v)
  end.

End Ops.

#[export] Instance TreePLRU_policy : ReplacementPolicy TreePLRU TreePLRUReplData := {|
  rp_instantiateEntry := instantiateEntry;
  rp_invalidate X := invalidate (X := X);
  rp_touch X := touch (X := X);
  rp_reset X := reset (X := X);
  rp_getVictim X := getVictim (X := X) |}.

(** ** Nodes as positive numbers *)

(** The ancestors of a node, with the side the node is on. *)
Fixpoint path (p : positive) : list (positive * bool) :=
  match p with
  | xH => []
  | xO q => (q, false) :: path q
  | xI q => (q, true) :: path q
  end.

(** The index of a node in the array. *)
Definition node (p : positive) : Z := Zpos p - 1.

Definition child (p : positive) (right : bool) : positive := if right then xI p else xO p.

Lemma path_child p b : path (child p b) = (p, b) :: path p.
Proof. by destruct b. Qed.

Lemma child_bounds p b : 2 * Zpos p <= Zpos (child p b) <= 2 * Zpos p + 1.
Proof. destruct b; cbn [child]; lia. Qed.

Lemma path_length p : Z.of_nat (length (path p)) = Z.log2 (Zpos p).
Proof.
  induction p as [p IH|p IH|]; [| |done]; cbn [path length]; rewrite Nat2Z.inj_succ, IH.
  - rewrite Pos2Z.inj_xI. rewrite Z.log2_succ_double by lia. done.
  - rewrite Pos2Z.inj_xO. rewrite Z.log2_double by lia. done.
Qed.

Lemma path_lt p q b : (q, b) ∈ path p -> (q < p)%positive.
Proof.
  induction p as [p IH|p IH|]; cbn [path]; intros H;
    [| |by apply not_elem_of_nil in H]; apply elem_of_cons in H as [[= -> ->]|H]; try lia;
    specialize (IH H); lia.
Qed.

(** The ancestors of [z] above its ancestor [q] are those of [q]. *)
Lemma path_above z q c p b :
  (q, c) ∈ path z -> (p, b) ∈ path z -> (p < q)%positive -> (p, b) ∈ path q.
Proof.
  induction z as [z IH|z IH|]; cbn [path]; intros Hq Hp Hlt; [| |by apply not_elem_of_nil in Hq];
    apply elem_of_cons in Hq as [Eq|Hq]; apply elem_of_cons in Hp as [Ep|Hp]; simplify_eq; try lia;
    auto; apply path_lt in Hq; lia.
Qed.

Lemma path_fun p q b b' : (q, b) ∈ path p -> (q, b') ∈ path p -> b = b'.
Proof.
  induction p as [p IH|p IH|]; cbn [path]; intros H H'; [| |by apply not_elem_of_nil in H];
    apply elem_of_cons in H as [E|H]; apply elem_of_cons in H' as [E'|H']; simplify_eq; auto;
    exfalso; repeat match goal with H : _ ∈ path _ |- _ => apply path_lt in H end; lia.
Qed.

(** The sides of two nodes differ at one common ancestor at most. *)
Lemma path_diverge x y p q bp bq :
  (p, bp) ∈ path x -> (p, negb bp) ∈ path y -> (q, bq) ∈ path x -> (q, negb bq) ∈ path y -> p = q.
Proof.
  assert (forall p q bp bq, (p, bp) ∈ path x -> (p, negb bp) ∈ path y -> (q, bq) ∈ path x ->
    (q, negb bq) ∈ path y -> ~ (p < q)%positive) as L.
  { clear. intros p q bp bq Hp Hp' Hq Hq' Hlt.
    pose proof (path_above _ _ _ _ _ Hq Hp Hlt) as H1.
    pose proof (path_above _ _ _ _ _ Hq' Hp' Hlt) as H2.
    pose proof (path_fun _ _ _ _ H1 H2). by destruct bp. }
  intros Hp Hp' Hq Hq'. destruct (Pos.lt_total p q) as [Hlt|[->|Hlt]]; [|done|].
  - by destruct (L p q bp bq).
  - by destruct (L q p bq bp).
Qed.

(** ** The index functions *)
Lemma parentIndex_child p b : Zpos (child p b) <= 2 ^ 53 -> parentIndex (node (child p b)) = node p.
Proof.
  intros Hb. unfold parentIndex, node. assert (Zpos (child p b) = 2 * Zpos p + Z.b2z b) as E
    by (destruct b; simpl; lia).
  rewrite (uwrap_small 64 (_ - 1 - 1)) by (destruct b; simpl Z.b2z in E; lia).
  assert ((Zpos (child p b) - 1 - 1) / 2 = Zpos p - 1) as -> by
    (rewrite E; destruct b; simpl Z.b2z; Z.to_euclidean_division_equations; lia).
  unfold through_double. replace (Zpos p - 1 <? 2 ^ 53) with true by (destruct b; simpl Z.b2z in E; lia).
  apply uwrap_small. destruct b; simpl Z.b2z in E; lia.
Qed.

Lemma isRightSubtree_child p b : isRightSubtree (node (child p b)) = b.
Proof.
  unfold isRightSubtree, node. destruct b; simpl child.
  - rewrite Pos2Z.inj_xI. replace (2 * Zpos p + 1 - 1) with (Zpos p * 2) by lia.
    rewrite Z.mod_mul by lia. done.
  - rewrite Pos2Z.inj_xO. replace (2 * Zpos p - 1) with (1 + (Zpos p - 1) * 2) by lia.
    rewrite Z.mod_add by lia. done.
Qed.

Lemma subtree_child p (b : bool) : Zpos (child p b) < 2 ^ 63 ->
  (if b then rightSubtreeIndex (node p) else leftSubtreeIndex (node p)) = node (child p b).
Proof.
  intros Hb. unfold rightSubtreeIndex, leftSubtreeIndex, node. destruct b; simpl child in *.
  - rewrite Pos2Z.inj_xI in *. rewrite (uwrap_small 64 (2 * _)), uwrap_small; lia.
  - rewrite Pos2Z.inj_xO in *. rewrite (uwrap_small 64 (2 * _)), uwrap_small; lia.
Qed.

(** ** The climb *)

(** The bit of a node. *)
Definition bit_at (bits : list bool) (p : positive) : option bool := bits !! Z.to_nat (node p).

Lemma bit_at_insert bits p b : node p < vsize bits -> bit_at (<[Z.to_nat (node p) := b]> bits) p = Some b.
Proof. intros H. unfold bit_at. apply list_lookup_insert_eq. unfold vsize, node in *. lia. Qed.

Lemma bit_at_insert_ne bits p q b : p <> q -> bit_at (<[Z.to_nat (node p) := b]> bits) q = bit_at bits q.
Proof. intros H. unfold bit_at. apply list_lookup_insert_ne. unfold node. lia. Qed.

Lemma child_cases p : p <> 1%positive -> exists q b, p = child q b.
Proof. intros. destruct p as [q|q|]; [by exists q, true|by exists q, false|done]. Qed.

(** The climb from a node writes, at each ancestor, the side the node is on (or
    the other side), and nothing else. *)
Lemma climb_spec away p bits fuel :
  p <> 1%positive -> Zpos p <= 2 ^ 53 -> (length (path p) <= fuel)%nat ->
  (forall q b, (q, b) ∈ path p -> node q < vsize bits) ->
  exists bits', climb away fuel (node p) bits = Ok bits' /\ vsize bits' = vsize bits /\
    (forall q b, (q, b) ∈ path p -> bit_at bits' q = Some (xorb away b)) /\
    (forall q, (forall b, (q, b) ∉ path p) -> bit_at bits' q = bit_at bits q).
Proof.
  revert p bits. induction fuel as [|fuel IH]; intros p bits Hp Hb Hf Hin.
  { destruct (child_cases p Hp) as (q & b & ->). rewrite path_child in Hf. simpl in Hf. lia. }
  destruct (child_cases p Hp) as (q & b & ->). rewrite path_child in *.
  cbn [climb]. rewrite isRightSubtree_child, parentIndex_child by done.
  pose proof (Hin q b ltac:(left)) as Hq. assert (0 <= node q) by (unfold node; lia).
  rewrite vset_Ok by lia. cbn [obind].
  assert ((if away then negb b else b) = xorb away b) as -> by (by destruct away, b).
  set (bits1 := <[_ := _]> bits). assert (vsize bits1 = vsize bits) as Es by apply vsize_insert.
  destruct (Z.eqb_spec (node q) 0) as [E0|E0].
  - assert (q = 1%positive) as -> by (unfold node in E0; lia).
    exists bits1. split; [done|]. split; [done|]. split.
    + intros q b' [[= -> ->]|H']%elem_of_cons; [by apply bit_at_insert|by apply not_elem_of_nil in H'].
    + intros q Hq'. apply bit_at_insert_ne. intros <-. apply (Hq' b). left.
  - assert (q <> 1%positive) as Hq1 by (unfold node in E0; intros ->; lia).
    assert (Zpos q <= 2 ^ 53) as Bq by (pose proof (child_bounds q b); lia).
    destruct (IH q bits1 Hq1 Bq) as (bits' & E & Hs & H1 & H2).
    + simpl in Hf. lia.
    + intros q' b' Hq'. rewrite Es. apply (Hin q' b'). by right.
    + exists bits'. split; [done|]. split; [lia|]. split.
      * intros q' b' [[= -> ->]|H']%elem_of_cons; [|by apply H1].
        rewrite H2; [by apply bit_at_insert|]. intros b' Hb'. apply path_lt in Hb'. lia.
      * intros q' Hq'. rewrite H2; [|intros b' Hb'; apply (Hq' b'); by right].
        apply bit_at_insert_ne. intros <-. apply (Hq' b). left.
Qed.

(** ** The descent *)

(** Every ancestor of [x] points to [x]. *)
Definition points_to (bits : list bool) (x : positive) : Prop :=
  forall q b, (q, b) ∈ path x -> bit_at bits q = Some b.

(** From a node whose ancestors all point to it, the descent reaches a leaf
    whose ancestors all point to it. *)
Lemma descend_spec fuel i bits :
  vsize bits < 2 ^ 52 -> points_to bits i -> node i <= 2 * vsize bits ->
  vsize bits < Zpos i * 2 ^ (Z.of_nat fuel - 1) -> (0 < fuel)%nat ->
  exists v, descend fuel (node i) bits = Ok (node v) /\ points_to bits v /\
    vsize bits <= node v <= 2 * vsize bits.
Proof.
  intros Hs. revert i. induction fuel as [|fuel IH]; intros i HP Hi Hf H0; [lia|]. cbn [descend].
  destruct (Z.ltb_spec (node i) (vsize bits)) as [L|L].
  2:{ exists i. split; [done|]. split; [done|]. lia. }
  destruct (vget_total bits (node i)) as [b Hb]; [unfold node in *; lia|].
  rewrite Hb. cbn [obind]. apply vget_Ok_inv in Hb as [_ Hb].
  pose proof (child_bounds i b) as CB. unfold node in L.
  rewrite subtree_child by lia. apply IH.
  - intros q b' Hq. rewrite path_child in Hq. apply elem_of_cons in Hq as [[= -> ->]|Hq]; [done|by apply HP].
  - unfold node in *. lia.
  - destruct fuel as [|fuel]; [simpl in Hf; lia|].
    replace (Z.of_nat (S (S fuel)) - 1) with (Z.succ (Z.of_nat (S fuel) - 1)) in Hf by lia.
    rewrite Z.pow_succ_r in Hf by lia.
    assert (0 < 2 ^ (Z.of_nat (S fuel) - 1)) by (apply Z.pow_pos_nonneg; lia). nia.
  - destruct fuel; [simpl in Hf; lia|lia].
Qed.

(** The descent goes through every node whose ancestors point to it. *)
Lemma descend_reaches x f bits :
  points_to bits x -> (forall q b, (q, b) ∈ path x -> node q < vsize bits) -> Zpos x < 2 ^ 63 ->
  descend (length (path x) + f) (node 1) bits = descend f (node x) bits.
Proof.
  revert f. assert (forall q b, (forall f, points_to bits q ->
      (forall q' b', (q', b') ∈ path q -> node q' < vsize bits) -> Zpos q < 2 ^ 63 ->
      descend (length (path q) + f) (node 1) bits = descend f (node q) bits) ->
    forall f, points_to bits (child q b) ->
      (forall q' b', (q', b') ∈ path (child q b) -> node q' < vsize bits) -> Zpos (child q b) < 2 ^ 63 ->
      descend (length (path (child q b)) + f) (node 1) bits = descend f (node (child q b)) bits) as Step.
  { intros q b IH f HP HI HB. rewrite path_child in *. pose proof (child_bounds q b).
    cbn [length Nat.add]. rewrite <- Nat.add_succ_r.
    rewrite IH; [|intros q' b' Hq'; apply HP; rewrite path_child; by right|
      intros q' b' Hq'; apply (HI q' b'); by right|lia].
    cbn [descend]. specialize (HI q b ltac:(left)). replace (node q <? vsize bits) with true by lia.
    assert (0 <= node q) by (unfold node; lia).
    rewrite (vget_Ok bits (node q) b); [|done|apply HP; rewrite path_child; left].
    cbn [obind]. by rewrite subtree_child by lia. }
  induction x as [x IH|x IH|]; intros f HP HI HB.
  - by apply (Step x true).
  - by apply (Step x false).
  - done.
Qed.

(** ** How many ancestors point to a leaf *)
Definition toward (bits : list bool) (x : positive) : nat :=
  length (filter (fun qb => bit_at bits qb.1 = Some qb.2) (path x)).

Lemma points_to_toward bits x : points_to bits x -> toward bits x = length (path x).
Proof.
  intros HP. unfold toward, points_to in *. induction (path x) as [|[q b] l IH]; [done|].
  rewrite filter_cons, decide_True by (apply HP; left). cbn [length]. f_equal. apply IH.
  intros q' b' H. apply HP. by right.
Qed.

(** A step that turns at most one more ancestor adds at most one. *)
Lemma filter_one_more {A} (Q R : A -> Prop) `{!forall x, Decision (Q x), !forall x, Decision (R x)} (l : list A) :
  NoDup l -> (forall x y, x ∈ l -> y ∈ l -> R x -> ~ Q x -> R y -> ~ Q y -> x = y) ->
  (length (filter R l) <= S (length (filter Q l)))%nat.
Proof.
  intros HN HU.
  assert (forall l, (forall x, x ∈ l -> R x -> Q x) -> (length (filter R l) <= length (filter Q l))%nat) as Sub.
  { clear. induction l as [|x l IH]; intros HS; [done|]. rewrite !filter_cons.
    specialize (IH ltac:(intros; apply HS; [by right|done])).
    destruct (decide (R x)) as [Hr|]; [rewrite decide_True by (apply HS; [left|done]); simpl; lia|].
    destruct (decide (Q x)); simpl; lia. }
  induction l as [|x l IH]; [simpl; lia|]. apply NoDup_cons in HN as [Hx HN]. rewrite !filter_cons.
  destruct (decide (R x)) as [Hr|Hr], (decide (Q x)) as [Hq|Hq]; cbn [length].
  - enough (length (filter R l) <= S (length (filter Q l)))%nat by lia.
    apply IH; [done|]. intros y z Hy Hz. apply HU; by right.
  - enough (length (filter R l) <= length (filter Q l))%nat by lia. apply Sub.
    intros y Hy Hry. destruct (decide (Q y)) as [|Hqy]; [done|]. exfalso. apply Hx.
    rewrite (HU x y); [done|left|by right|done..].
  - enough (length (filter R l) <= S (length (filter Q l)))%nat by lia.
    apply IH; [done|]. intros y z Hy Hz. apply HU; by right.
  - apply IH; [done|]. intros y z Hy Hz. apply HU; by right.
Qed.

Lemma path_NoDup p : NoDup (path p).
Proof.
  induction p as [p IH|p IH|]; cbn [path]; [| |constructor]; constructor; try done;
    intros H; apply path_lt in H; lia.
Qed.

(** The bits after a leaf [y] was touched. *)
Definition touched (y : positive) (bits bits' : list bool) : Prop :=
  vsize bits' = vsize bits /\
  (forall q b, (q, b) ∈ path y -> bit_at bits' q = Some (negb b)) /\
  (forall q, (forall b, (q, b) ∉ path y) -> bit_at bits' q = bit_at bits q).

Lemma touched_self x bits bits' : touched x bits bits' -> toward bits' x = 0%nat.
Proof.
  intros (_ & H & _). unfold toward. apply length_zero_iff_nil.
  destruct (filter _ (path x)) as [|[q b] l] eqn:E; [done|]. exfalso.
  assert ((q, b) ∈ filter (fun qb => bit_at bits' qb.1 = Some qb.2) (path x)) as Hin by (rewrite E; left).
  apply list_elem_of_filter in Hin as [Hb Hin]. simpl in Hb. rewrite (H q b Hin) in Hb. by destruct b.
Qed.

Lemma touched_toward x y bits bits' :
  touched y bits bits' -> (toward bits' x <= S (toward bits x))%nat.
Proof.
  intros (_ & H1 & H2). unfold toward. apply filter_one_more; [apply path_NoDup|].
  assert (forall q b, (q, b) ∈ path x -> bit_at bits' q = Some b -> bit_at bits q <> Some b ->
    (q, negb b) ∈ path y) as Turned.
  { intros q b Hq Hb Hn. destruct (decide ((q, b) ∈ path y)) as [Hy|Hy].
    - rewrite (H1 q b Hy) in Hb. by destruct b.
    - destruct (decide ((q, negb b) ∈ path y)) as [Hy'|Hy']; [done|]. exfalso. apply Hn.
      rewrite <- H2; [done|]. intros b'. by destruct b, b'. }
  intros [q b] [q' b'] Hq Hq' R1 N1 R2 N2. simpl in *.
  assert (q = q') as <- by (eapply (path_diverge x y q q' b b'); eauto).
  f_equal. by apply (path_fun x q).
Qed.

(** ** Sets *)

(** The leaf of way [k] in a tree of [n] leaves. *)
Definition leaf (n : Z) (k : nat) : positive := Z.to_pos (n + Z.of_nat k).

Section Sets.
Context {X : Type}.
Implicit Types w : world TreePLRU TreePLRUReplData X.

Definition bits_of w (t : loc) : list bool := default [] (trees (policy w) !! t).

(** The candidates are the [n] ways of the set whose tree is [t], in order. *)
Record plru_set w (t : loc) (n : Z) (cands : list loc) : Prop := {
  ps_leaves : numLeaves (policy w) = n;
  ps_range : 2 <= n < 2 ^ 52;
  ps_tree : is_Some (trees (policy w) !! t);
  ps_bits : vsize (bits_of w t) = n - 1;
  ps_size : vsize cands = n;
  ps_ways : forall k e, cands !! k = Some e -> exists r, cand_rd w e = Some r /\
    rp_data w !! r = Some (mkTreePLRUReplData (Z.of_nat k + n - 1) t) }.

Lemma leaf_pos n k : 2 <= n -> Zpos (leaf n k) = n + Z.of_nat k.
Proof. intros. unfold leaf. rewrite Z2Pos.id by lia. done. Qed.

Lemma way_range w t n cands k e : plru_set w t n cands -> cands !! k = Some e -> Z.of_nat k < n.
Proof. intros HS Hk%lookup_lt_Some. pose proof (ps_size _ _ _ _ HS). unfold vsize in *. lia. Qed.

(** The ancestors of a leaf are in the array. *)
Lemma leaf_ancestors n k q b : 2 <= n -> Z.of_nat k < n -> (q, b) ∈ path (leaf n k) -> node q < n - 1.
Proof.
  intros Hn Hk Hq. assert (2 * Zpos q <= Zpos (leaf n k)); [|pose proof (leaf_pos n k Hn); unfold node; lia].
  revert Hq. generalize (leaf n k). intros p. induction p as [p IH|p IH|]; cbn [path]; intros Hq;
    [| |by apply not_elem_of_nil in Hq]; apply elem_of_cons in Hq as [[= -> ->]|Hq]; try lia;
    specialize (IH Hq); lia.
Qed.

Lemma leaf_depth n k : 2 <= n < 2 ^ 52 -> Z.of_nat k < n ->
  Z.log2 n <= Z.of_nat (length (path (leaf n k))) /\ (length (path (leaf n k)) <= 53)%nat.
Proof.
  intros Hn Hk. rewrite path_length, leaf_pos by lia.
  assert (Z.log2 n <= Z.log2 (n + Z.of_nat k)) by (apply Z.log2_le_mono; lia).
  split; [done|]. assert (Z.of_nat (length (path (leaf n k))) < 53); [|lia].
  rewrite path_length, leaf_pos by lia. apply Z.log2_lt_pow2; lia.
Qed.

(** [touch] and [invalidate] of a way run the climb from its leaf. *)
Lemma update_tree_Ok w t n cands away k e r :
  plru_set w t n cands -> cands !! k = Some e -> cand_rd w e = Some r ->
  exists w', update_tree away r w = Ok (tt, w') /\ plru_set w' t n cands /\
    frame w w' /\ rds w' = rds w /\ vsize (bits_of w' t) = vsize (bits_of w t) /\
    (forall q b, (q, b) ∈ path (leaf n k) -> bit_at (bits_of w' t) q = Some (xorb away b)) /\
    (forall q, (forall b, (q, b) ∉ path (leaf n k)) -> bit_at (bits_of w' t) q = bit_at (bits_of w t) q).
Proof.
  intros HS Hk He. pose proof (way_range _ _ _ _ _ _ HS Hk) as Bk.
  destruct HS as [Hn Hr [bits Ht] Hb Hs Hw]. destruct (Hw k e Hk) as (r' & Hr' & Hd).
  rewrite He in Hr'. injection Hr' as <-. apply rp_data_Some in Hd as (rd & Hrd & Ed).
  assert (bits_of w t = bits) as Eb by (unfold bits_of; by rewrite Ht). rewrite Eb in *.
  destruct (climb_spec away (leaf n k) bits walk_fuel) as (bits' & E & Hv & H1 & H2).
  - intros E. pose proof (leaf_pos n k). rewrite E in *. lia.
  - rewrite leaf_pos by lia. lia.
  - destruct (leaf_depth n k Hr Bk). unfold walk_fuel. lia.
  - intros q b Hq. rewrite Hb. by eapply leaf_ancestors; [lia|done|].
  - unfold node in E. rewrite leaf_pos in E by lia.
    assert (bits_of (set_policy (set_tree t bits' (policy w)) w) t = bits') as Eb'
      by (unfold bits_of; simpl; by rewrite lookup_insert_eq).
    exists (set_policy (set_tree t bits' (policy w)) w). split_and!; try done.
    + unfold update_tree. rewrite (bind_Ok _ _ _ _ _ (get_data_Ok _ _ _ Hrd)), Ed.
      unfold bind at 1, getS. cbn [tree index]. rewrite (bind_Ok _ _ w bits w) by (by rewrite Ht).
      replace (Z.of_nat k + n - 1) with (n + Z.of_nat k - 1) by lia.
      by rewrite (bind_Ok _ _ w bits' w) by (by rewrite E).
    + split; try done; [|by rewrite Eb', Hv]. simpl. rewrite lookup_insert_eq. eauto.
    + rewrite Eb'. lia.
    + by rewrite Eb'.
    + by rewrite Eb'.
Qed.

(** The victim is a way that every bit above it points to. *)
Lemma getVictim_points w t n cands :
  plru_set w t n cands ->
  exists k e, getVictim cands w = Ok (Some e, w) /\ cands !! k = Some e /\ points_to (bits_of w t) (leaf n k).
Proof.
  intros [Hn Hr [bits Ht] Hb Hs Hw]. assert (bits_of w t = bits) as Eb by (unfold bits_of; by rewrite Ht).
  rewrite Eb in *. destruct cands as [|c0 cands]; [unfold vsize in Hs; simpl in Hs; lia|].
  destruct (Hw 0%nat c0 eq_refl) as (r & Hcr & Hd).
  assert (cand_data w c0 = Some (mkTreePLRUReplData (Z.of_nat 0 + n - 1) t)) as Hcd.
  { unfold cand_data. rewrite Hcr. simpl. unfold rp_data in Hd. by rewrite lookup_fmap in Hd. }
  destruct (descend_spec walk_fuel 1 bits) as (v & E & HP & HV).
  - lia.
  - intros q b Hq. by apply not_elem_of_nil in Hq.
  - unfold node. lia.
  - rewrite Hb. unfold walk_fuel. simpl Z.of_nat. lia.
  - unfold walk_fuel. lia.
  - rewrite Hb in HV. unfold node in HV. set (k := Z.to_nat (Zpos v - n)).
    destruct (vget_total (c0 :: cands) (Zpos v - n) ltac:(lia)) as [e Hk].
    exists k, e. split.
    + unfold getVictim. rewrite (bind_Ok _ _ _ _ _ (cand_get_Ok _ _ _ Hcd)).
      unfold bind at 1, getS. cbn [tree]. rewrite (bind_Ok _ _ w bits w) by (by rewrite Ht).
      change (node 1) with 0 in E. rewrite (bind_Ok _ _ w (node v) w) by (by rewrite E).
      rewrite Hn. rewrite (uwrap_small 64 (n - 1)) by lia. unfold node.
      rewrite uwrap_small by lia. replace (Zpos v - 1 - (n - 1)) with (Zpos v - n) by lia.
      by rewrite (bind_Ok _ _ w e w) by (by rewrite Hk).
    + apply vget_Ok_inv in Hk as [_ Hk]. split; [done|].
      assert (leaf n k = v) as -> by (unfold leaf, k; rewrite Z2Nat.id by lia;
        replace (n + (Zpos v - n)) with (Zpos v) by lia; done). done.
Qed.

(** Accesses to ways, in order. *)
Fixpoint touch_ways (cands : list loc) (ks : list nat) : M (world TreePLRU TreePLRUReplData X) unit :=
  match ks with
  | [] => ret tt
  | k :: ks' =>
      let* e := lift (vget cands (Z.of_nat k)) in
      let* r := rd_ptr e in
      do* touch r ;; touch_ways cands ks'
  end.

Lemma touch_ways_app cands ks ks' w w1 :
  touch_ways cands ks w = Ok (tt, w1) -> touch_ways cands (ks ++ ks') w = touch_ways cands ks' w1.
Proof.
  revert w. induction ks as [|k ks IH]; intros w H; [by injection H as <-|]. cbn [touch_ways app] in *.
  inv_ok H. destruct a1. rewrite (bind_Ok _ _ _ _ _ Hrun), (bind_Ok _ _ _ _ _ Hrun0), (bind_Ok _ _ _ _ _ Hrun1).
  by apply IH.
Qed.

Lemma touch_ways_Ok w t n cands ks :
  plru_set w t n cands -> Forall (fun k => Z.of_nat k < n) ks ->
  exists w', touch_ways cands ks w = Ok (tt, w') /\ plru_set w' t n cands /\
    forall x, (toward (bits_of w' t) x <= toward (bits_of w t) x + length ks)%nat.
Proof.
  intros HS HF. revert w HS. induction HF as [|k ks Hk _ IH]; intros w HS.
  { exists w. split; [done|]. split; [done|]. intros. simpl. lia. }
  pose proof (ps_size _ _ _ _ HS) as Hs. destruct (vget_total cands (Z.of_nat k) ltac:(lia)) as [e He].
  cbn [touch_ways]. rewrite (bind_Ok _ _ w e w) by (by rewrite He).
  apply vget_Ok_inv in He as [_ He]. rewrite Nat2Z.id in He.
  destruct (ps_ways _ _ _ _ HS k e He) as (r & Hr & _). rewrite (bind_Ok _ _ _ _ _ (rd_ptr_Ok _ _ _ Hr)).
  destruct (update_tree_Ok w t n cands true k e r HS He Hr) as (w1 & E1 & HS1 & _ & _ & T1 & T2 & T3).
  unfold touch at 1. rewrite (bind_Ok _ _ _ _ _ E1). destruct (IH w1 HS1) as (w' & E' & HS' & HT).
  exists w'. split; [done|]. split; [done|]. intros x. specialize (HT x).
  pose proof (touched_toward x (leaf n k) (bits_of w t) (bits_of w1 t) (conj T1 (conj T2 T3))).
  simpl. lia.
Qed.

(** A way accessed since is pointed to by at most as many of its ancestors as
    there were accesses after its own. *)
Lemma touch_ways_recent w t n cands pre k post :
  plru_set w t n cands -> Forall (fun k => Z.of_nat k < n) (pre ++ k :: post) ->
  exists w', touch_ways cands (pre ++ k :: post) w = Ok (tt, w') /\ plru_set w' t n cands /\
    (toward (bits_of w' t) (leaf n k) <= length post)%nat.
Proof.
  intros HS [HF1 [Hk HF2]%Forall_cons]%Forall_app.
  destruct (touch_ways_Ok w t n cands pre HS HF1) as (w1 & E1 & HS1 & _).
  rewrite (touch_ways_app _ _ _ _ _ E1). pose proof (ps_size _ _ _ _ HS) as Hs.
  destruct (vget_total cands (Z.of_nat k) ltac:(lia)) as [e He]. cbn [touch_ways].
  rewrite (bind_Ok _ _ w1 e w1) by (by rewrite He). apply vget_Ok_inv in He as [_ He]. rewrite Nat2Z.id in He.
  destruct (ps_ways _ _ _ _ HS1 k e He) as (r & Hr & _). rewrite (bind_Ok _ _ _ _ _ (rd_ptr_Ok _ _ _ Hr)).
  destruct (update_tree_Ok w1 t n cands true k e r HS1 He Hr) as (w2 & E2 & HS2 & _ & _ & T1 & T2 & T3).
  unfold touch at 1. rewrite (bind_Ok _ _ _ _ _ E2).
  destruct (touch_ways_Ok w2 t n cands post HS2 HF2) as (w3 & E3 & HS3 & HT).
  exists w3. split; [done|]. split; [done|]. specialize (HT (leaf n k)).
  rewrite (touched_self (leaf n k) (bits_of w1 t) (bits_of w2 t)) in HT by (split; [done|split; done]). done.
Qed.

End Sets.

(** ** Properties *)

(** C36 (safety). The victim of Tree-PLRU is never among the last [log2 n] accesses
    of a set of [n] ways: whatever the accesses before, they run and the search
    returns a way that is not one of those. *)
Theorem plru_recent_protected {X} (w : world TreePLRU TreePLRUReplData X) t n cands ks :
  plru_set w t n cands -> Forall (fun k => Z.of_nat k < n) ks ->
  exists w' e j, touch_ways cands ks w = Ok (tt, w') /\ getVictim cands w' = Ok (Some e, w') /\
    cands !! j = Some e /\ j ∉ drop (length ks - Z.to_nat (Z.log2 n)) ks.
Proof.
  intros HS HF. destruct (touch_ways_Ok w t n cands ks HS HF) as (w' & E & HS' & _).
  destruct (getVictim_points w' t n cands HS') as (j & e & EV & Hj & HP).
  exists w', e, j. split_and!; try done. intros Hin.
  set (m := (length ks - Z.to_nat (Z.log2 n))%nat) in *.
  apply list_elem_of_split in Hin as (l1 & l2 & Hl).
  assert (ks = (take m ks ++ l1) ++ j :: l2) as Ek by (rewrite <- app_assoc, <- Hl; by rewrite take_drop).
  rewrite Ek in HF, E. destruct (touch_ways_recent w t n cands _ j l2 HS HF) as (w'' & E'' & _ & HT).
  rewrite E in E''. injection E'' as <-. rewrite (points_to_toward _ _ HP) in HT.
  pose proof (ps_range _ _ _ _ HS) as Hr. pose proof (way_range _ _ _ _ _ _ HS' Hj) as Bj.
  destruct (leaf_depth n j Hr Bj) as [Hd _]. pose proof (Z.log2_nonneg n).
  assert (length (drop m ks) <= Z.to_nat (Z.log2 n))%nat as Hlen by (rewrite length_drop; lia).
  rewrite Hl, length_app in Hlen. simpl in Hlen. lia.
Qed.

(** An invalidated way is the next victim of its set. *)
Theorem plru_invalidated_is_victim {X} (w : world TreePLRU TreePLRUReplData X) t n cands k e r :
  plru_set w t n cands -> cands !! k = Some e -> cand_rd w e = Some r ->
  exists w', invalidate r w = Ok (tt, w') /\ getVictim cands w' = Ok (Some e, w').
Proof.
  intros HS Hk Hr. destruct (update_tree_Ok w t n cands false k e r HS Hk Hr)
    as (w' & E & HS' & _ & _ & T1 & T2 & _). exists w'. split; [done|].
  pose proof (way_range _ _ _ _ _ _ HS Hk) as Bk. pose proof (ps_range _ _ _ _ HS) as Bn.
  pose proof (ps_bits _ _ _ _ HS') as Hb.
  destruct HS' as [Hn _ [bits Ht] _ Hs Hw]. assert (bits_of w' t = bits) as Eb by (unfold bits_of; by rewrite Ht).
  rewrite Eb in *. destruct cands as [|c0 cands]; [done|]. destruct (Hw 0%nat c0 eq_refl) as (r0 & Hcr & Hd).
  assert (cand_data w' c0 = Some (mkTreePLRUReplData (Z.of_nat 0 + n - 1) t)) as Hcd.
  { unfold cand_data. rewrite Hcr. simpl. unfold rp_data in Hd. by rewrite lookup_fmap in Hd. }
  unfold getVictim. rewrite (bind_Ok _ _ _ _ _ (cand_get_Ok _ _ _ Hcd)). unfold bind at 1, getS. cbn [tree].
  rewrite (bind_Ok _ _ w' bits w') by (by rewrite Ht).
  destruct (leaf_depth n k Bn Bk) as [_ Hdep]. pose proof (leaf_pos n k ltac:(lia)) as Hl.
  assert (descend walk_fuel 0 bits = Ok (node (leaf n k))) as Ed.
  { replace walk_fuel with (length (path (leaf n k)) + (walk_fuel - length (path (leaf n k))))%nat
      by (unfold walk_fuel; lia).
    change 0 with (node 1). rewrite descend_reaches; [|done| |lia].
    - destruct (walk_fuel - length (path (leaf n k)))%nat eqn:Ef; [unfold walk_fuel in Ef; lia|].
      cbn [descend]. unfold node at 1. rewrite Hl, Hb. by replace (n + Z.of_nat k - 1 <? n - 1) with false by lia.
    - intros q b Hq. rewrite Hb. by eapply leaf_ancestors; [lia|done|]. }
  rewrite (bind_Ok _ _ w' (node (leaf n k)) w') by (by rewrite Ed). rewrite Hn.
  rewrite (uwrap_small 64 (n - 1)) by lia. unfold node. rewrite Hl, uwrap_small by lia.
  rewrite (bind_Ok _ _ w' e w'); [done|].
  rewrite (vget_Ok _ _ e); [done|lia|]. by replace (Z.to_nat (n + Z.of_nat k - 1 - (n - 1))) with k by lia.
Qed.

(** ** The sets the constructor builds *)

Fixpoint instantiate_many (k : nat) (p : TreePLRU) : outcome (list TreePLRUReplData * TreePLRU) :=
  match k with
  | O => Ok ([], p)
  | S k' =>
      let? dp := instantiateEntry p in
      let? dsp := instantiate_many k' dp.2 in
      Ok (dp.1 :: dsp.1, dsp.2)
  end.

(** In the middle of a group the same tree is shared on. *)
Lemma instantiate_rest k j p t c :
  2 <= numLeaves p < 2 ^ 52 -> 0 <= c -> count p = c * numLeaves p + Z.of_nat j -> (0 < j)%nat ->
  Z.of_nat j + Z.of_nat k <= numLeaves p -> c * numLeaves p + numLeaves p < 2 ^ 64 -> treeInstance p = Some t ->
  instantiate_many k p = Ok
    ((fun i => mkTreePLRUReplData (Z.of_nat i + numLeaves p - 1) t) <$> seq j k,
     mkTreePLRU (numLeaves p) (count p + Z.of_nat k) (Some t) (trees p)).
Proof.
  revert j p. induction k as [|k IH]; intros j p Hn Hc Ec Hj Hk Ho Ht.
  { destruct p; simpl in *. rewrite Z.add_0_r. by subst. }
  cbn [instantiate_many]. unfold instantiateEntry. replace (numLeaves p =? 0) with false by lia.
  cbn [obind]. assert (count p mod numLeaves p = Z.of_nat j) as ->.
  { rewrite Ec, Z.add_comm, Z.mod_add by lia. apply Z.mod_small. lia. }
  replace (Z.of_nat j =? 0) with false by lia. rewrite Ht. cbn [oget obind snd fst].
  rewrite (uwrap_small 64 (Z.of_nat j + numLeaves p)), (uwrap_small 64 (_ - 1)), (uwrap_small 64 (count p + 1))
    by nia.
  erewrite (IH (S j)); simpl; [|lia|exact Hc| |lia|lia|lia|done]; [|lia].
  cbn [obind fst snd]. do 3 f_equal. lia.
Qed.

(** [n] consecutive instantiations make one set: a tree of its own, shared by
    data whose indices are those of the [n] leaves in order. *)
Lemma instantiate_set p c :
  2 <= numLeaves p < 2 ^ 52 -> 0 <= c -> count p = c * numLeaves p ->
  c * numLeaves p + numLeaves p < 2 ^ 64 ->
  exists t, trees p !! t = None /\
    instantiate_many (Z.to_nat (numLeaves p)) p = Ok
      ((fun i => mkTreePLRUReplData (Z.of_nat i + numLeaves p - 1) t) <$> seq 0 (Z.to_nat (numLeaves p)),
       mkTreePLRU (numLeaves p) (count p + numLeaves p) (Some t)
         (<[t := replicate (Z.to_nat (numLeaves p - 1)) false]> (trees p))).
Proof.
  intros Hn Hc Ec Ho. set (t := fresh (dom (trees p))). exists t.
  split; [apply not_elem_of_dom, is_fresh|].
  replace (Z.to_nat (numLeaves p)) with (S (Z.to_nat (numLeaves p - 1))) by lia.
  cbn [instantiate_many]. unfold instantiateEntry. replace (numLeaves p =? 0) with false by lia.
  cbn [obind]. assert (count p mod numLeaves p = 0) as -> by (rewrite Ec; apply Z.mod_mul; lia). cbn [Z.eqb oget treeInstance obind]. fold t.
  cbn [numLeaves count trees fst snd].
  rewrite (uwrap_small 64 (0 + _)), !(uwrap_small 64 (_ - 1)), (uwrap_small 64 (count p + 1)) by nia.
  erewrite (instantiate_rest _ 1 _ t c); simpl; [|lia|done| |lia|lia|lia|done]; [|lia].
  cbn [obind fst snd]. do 2 f_equal. f_equal. lia.
Qed.

(** With one leaf the array is empty and the first [touch] is out of range. *)
Lemma single_leaf_touch_fails {X} (w : world TreePLRU TreePLRUReplData X) r rd t :
  rds w !! r = Some rd -> data rd = mkTreePLRUReplData 0 t -> trees (policy w) !! t = Some [] ->
  touch r w = Fault IndexOutOfRange.
Proof.
  intros Hr Hd Ht. unfold touch, update_tree. rewrite (bind_Ok _ _ _ _ _ (get_data_Ok _ _ _ Hr)), Hd.
  unfold bind at 1, getS. cbn [tree]. rewrite (bind_Ok _ _ w [] w) by (by rewrite Ht). done.
Qed.

(** ** Witnesses *)
Definition demo_world : world TreePLRU TreePLRUReplData unit :=
  let e n := mkObject (mkReplaceableEntry 0 0 (Some n)) tt in
  let d i := mkReplacementData Null (mkTreePLRUReplData i 1%positive) in
  mkWorld (mkTreePLRU 4 4 (Some 1%positive) {[1%positive := [false; false; false]]})
    {[1%positive := e 1%positive; 2%positive := e 2%positive; 3%positive := e 3%positive; 4%positive := e 4%positive]}
    {[1%positive := d 3; 2%positive := d 4; 3%positive := d 5; 4%positive := d 6]} 0.

Lemma demo_set : plru_set demo_world 1%positive 4 [1; 2; 3; 4]%positive.
Proof.
  split; try (vm_compute; reflexivity); [split; [lia|vm_compute; reflexivity]|eexists; vm_compute; reflexivity|].
  intros [|[|[|[|k]]]] e Hk; simplify_eq/=; eexists; (split; [reflexivity|vm_compute; reflexivity]).
Qed.

Lemma plru_recent_protected_witness :
  exists w' e j, touch_ways [1; 2; 3; 4]%positive [0; 2; 1]%nat demo_world = Ok (tt, w') /\
    getVictim [1; 2; 3; 4]%positive w' = Ok (Some e, w') /\
    [1; 2; 3; 4]%positive !! j = Some e /\ j ∉ [2; 1]%nat.
Proof.
  apply (plru_recent_protected demo_world 1%positive 4 [1; 2; 3; 4]%positive [0; 2; 1]%nat demo_set).
  repeat constructor.
Defined.
