(* ===== verification/Double.v ===== *)
(** IEEE-754 binary64 numbers, as far as the policies use them: conversions from
    integers, division and comparisons, from the executable specification of
    floating-point arithmetic in the standard library. *)
From Stdlib Require Import ZArith Floats.SpecFloat.
From stdpp Require Import base.
From S2P Require Import Prelude SatCounter.
Local Open Scope Z_scope.

Definition double : Type := spec_float.

(** [(double)z]. *)
Definition double_of_Z (z : Z) : double := binary_normalize 53 1024 z 0 false.

Definition ddiv (a b : double) : double := SFdiv 53 1024 a b.
Definition dle (a b : double) : bool := SFleb a b.
Definition dlt (a b : double) : bool := SFltb a b.

(** [a >= b] is [b <= a]; a NaN compares false with everything. *)
Definition dge (a b : double) : bool := dle b a.

(** The constants 0.0, 0.5 and 1.0. *)
Definition d_zero : double := double_of_Z 0.
Definition d_one : double := double_of_Z 1.
Definition d_half : double := ddiv d_one (double_of_Z 2).

(** [GenericSatCounter::calcSaturation]. *)
Definition calcSaturation (c : GenericSatCounter) : double :=
  ddiv (double_of_Z (counter c)) (double_of_Z (maxVal c)).
