(* ===== verification/SHiP.v ===== *)
(** Signature-based hit prediction, [mem/cache/replacement_policies/ship_rp.hh] and
    [ship_rp.cc]: BRRIP whose insertions are decided by a table of saturating
    counters (the SHCT) indexed by a signature of the access, its address
    (SHiPMem) or its program counter (SHiPPC).

    A packet is what the policy reads of it: its address and, if its request has
    one, its program counter. *)
From stdpp Require Import base gmap list.
From Stdlib Require Import ZArith Lia.
From S2P Require Import Prelude ReplBase ReplScan.
From S2P Require Import SatCounter RandomRP BRRIP Double.

(** ** Definitions *)
Record Packet := mkPacket { getAddr : Z; getPC : option Z }.

Record SHiPReplData := mkSHiPReplData {
  brrip_data : BRRIPReplData;    (* the base class *)
  signature : Z;                 (* size_t *)
  outcome_bit : bool }.

Definition new_SHiPReplData (num_bits : Z) : outcome SHiPReplData :=
  let? b := new_BRRIPReplData num_bits in Ok (mkSHiPReplData b 0 false).

Definition setSignature (new_signature : Z) (d : SHiPReplData) : SHiPReplData :=
  mkSHiPReplData (brrip_data d) new_signature false.
Definition setReReferenced (d : SHiPReplData) : SHiPReplData :=
  mkSHiPReplData (brrip_data d) (signature d) true.
Definition wasReReferenced (d : SHiPReplData) : bool := outcome_bit d.
Definition with_brrip (b : BRRIPReplData) (d : SHiPReplData) : SHiPReplData :=
  mkSHiPReplData b (signature d) (outcome_bit d).

(** The two subclasses differ in the signature. *)
Inductive ship_kind := SHiPMem | SHiPPC.

Record SHiP (rng : Type) := mkSHiP {
  brrip : BRRIP rng;             (* the base class *)
  kind : ship_kind;
  insertionThreshold : double;
  SHCT : list GenericSatCounter }.
Arguments mkSHiP {rng} _ _ _ _.
Arguments brrip {rng} _.
Arguments kind {rng} _.
Arguments insertionThreshold {rng} _.
Arguments SHCT {rng} _.

Definition new_SHiP {rng} (k : ship_kind) (num_bits : Z) (hit_priority : bool) (p_btp : Z)
    (insertion_threshold shct_size : Z) (seed : rng) : outcome (SHiP rng) :=
  let? b := new_BRRIP num_bits hit_priority p_btp seed in
  let? c := new_GenericSatCounter 8 (numRRPVBits b) 0 in
  Ok (mkSHiP b k (ddiv (double_of_Z insertion_threshold) (double_of_Z 100))
    (replicate (Z.to_nat shct_size) c)).

(** [x % SHCT.size()] on [size_t]. *)
Definition umod (x n : Z) : outcome Z := if n =? 0 then Fault DivByZero else Ok (x mod n).

Definition NO_PC_SIGNATURE : Z := 0.
Definition getSignature {rng} (p : SHiP rng) (pkt : Packet) : outcome Z :=
  match kind p with
  | SHiPMem => umod (getAddr pkt) (vsize (SHCT p))
  | SHiPPC => umod (match getPC pkt with Some pc => pc | None => NO_PC_SIGNATURE end) (vsize (SHCT p))
  end.

Definition with_SHCT {rng} (t : list GenericSatCounter) (p : SHiP rng) : SHiP rng :=
  mkSHiP (brrip p) (kind p) (insertionThreshold p) t.
Definition with_base {rng} (b : BRRIP rng) (p : SHiP rng) : SHiP rng :=
  mkSHiP b (kind p) (insertionThreshold p) (SHCT p).

(** [SHCT[s]++] and [SHCT[s]--]. *)
Definition train {rng} (f : GenericSatCounter -> GenericSatCounter * GenericSatCounter) (s : Z) (p : SHiP rng) :
    outcome (SHiP rng) :=
  let? c := vget (SHCT p) s in
  let? t := vset (SHCT p) s (f c).2 in
  Ok (with_SHCT t p).

(** What the operations do to the policy and the data. *)
Definition ship_invalidate_data {rng} (p : SHiP rng) (d : SHiPReplData) : outcome (SHiP rng * SHiPReplData) :=
  let? p' := (if wasReReferenced d then train post_decr (signature d) p else Ok p) in
  Ok (p', with_brrip (invalidate_data (brrip_data d)) d).

Definition ship_touch_data {rng} (p : SHiP rng) (d : SHiPReplData) (pkt : Packet) :
    outcome (SHiP rng * SHiPReplData) :=
  let? s := getSignature p pkt in
  let? p' := train post_incr s p in
  let d := setReReferenced d in
  Ok (p', with_brrip (touch_data (brrip p') (brrip_data d)) d).

Definition ship_reset_data {rng} (random : draw rng) (p : SHiP rng) (d : SHiPReplData) (pkt : Packet) :
    outcome (SHiP rng * SHiPReplData) :=
  let? s := getSignature p pkt in
  let d := setSignature s d in
  let '(b', bd) := reset_data random (brrip p) (brrip_data d) in
  let p' := with_base b' p in
  let? c := vget (SHCT p') s in
  let bd := if dge (calcSaturation c) (insertionThreshold p')
    then mkBRRIPReplData (post_decr (rrpv bd)).2 (valid bd) else bd in
  Ok (p', with_brrip bd d).

Section Ops.
Context {rng X : Type} (random : draw rng).
#[local] Abbreviation W := (world (SHiP rng) SHiPReplData X).

Definition update_fallible (f : SHiP rng -> SHiPReplData -> outcome (SHiP rng * SHiPReplData)) (r : loc) :
    M W unit :=
  let* d := get_data r in
  let* w := getS in
  let* pd := lift (f (policy w) d) in
  do* putS (set_policy pd.1 w) ;; put_data r pd.2.

Definition ship_invalidate (r : loc) : M W unit := update_fallible ship_invalidate_data r.
Definition ship_touch_pkt (r : loc) (pkt : Packet) : M W unit :=
  update_fallible (fun p d => ship_touch_data p d pkt) r.
Definition ship_touch (r : loc) : M W unit := throw Panic.
Definition ship_reset_pkt (r : loc) (pkt : Packet) : M W unit :=
  update_fallible (fun p d => ship_reset_data random p d pkt) r.
Definition ship_reset (r : loc) : M W unit := throw Panic.
Definition ship_getVictim (candidates : list loc) : M W (option loc) :=
  getVictim brrip_data with_brrip candidates.

End Ops.

Definition ship_instantiateEntry {rng} (p : SHiP rng) : outcome (SHiPReplData * SHiP rng) :=
  let? d := new_SHiPReplData (numRRPVBits (brrip p)) in Ok (d, p).

Definition SHiP_policy {rng} (random : draw rng) : ReplacementPolicy (SHiP rng) SHiPReplData := {|
  rp_instantiateEntry := ship_instantiateEntry;
  rp_invalidate X := ship_invalidate (X := X);
  rp_touch X := ship_touch (X := X);
  rp_reset X := ship_reset (X := X);
  rp_getVictim X := ship_getVictim (X := X) |}.

(** ** The invariant *)

(** The table is not empty, its counters are in range and of the RRPV's width. *)
Record ship_wf {rng} (p : SHiP rng) : Prop := {
  wf_size : SHCT p <> [];
  wf_counters : Forall (fun c => sat_ok 8 c) (SHCT p) }.

(** The signature of an entry is an index of the table. *)
Definition sig_ok {rng} (p : SHiP rng) (d : SHiPReplData) : Prop := 0 <= signature d < vsize (SHCT p).

Lemma vsize_pos {A} (l : list A) : l <> [] -> 0 < vsize l.
Proof. destruct l; [done|]. unfold vsize. simpl. lia. Qed.

Lemma getSignature_Ok {rng} (p : SHiP rng) pkt :
  ship_wf p -> exists s, getSignature p pkt = Ok s /\ 0 <= s < vsize (SHCT p).
Proof.
  intros [Hs _]. apply vsize_pos in Hs. unfold getSignature, umod.
  destruct (kind p), (Z.eqb_spec (vsize (SHCT p)) 0); try lia;
    (eexists; split; [done|]; apply Z.mod_pos_bound; lia).
Qed.

(** Training moves one counter, within its range. *)
Lemma train_Ok {rng} f s (p : SHiP rng) :
  ship_wf p -> 0 <= s < vsize (SHCT p) -> (forall c, sat_ok 8 c -> sat_ok 8 (f c).2) ->
  exists c, SHCT p !! Z.to_nat s = Some c /\ sat_ok 8 c /\
    train f s p = Ok (with_SHCT (<[Z.to_nat s := (f c).2]> (SHCT p)) p) /\
    ship_wf (with_SHCT (<[Z.to_nat s := (f c).2]> (SHCT p)) p).
Proof.
  intros [Hs HC] Hr Hf. destruct (lookup_Z (SHCT p) s Hr) as [c Hc]. exists c.
  assert (sat_ok 8 c) as Ok1 by (rewrite Forall_lookup in HC; by eapply HC).
  split; [done|]. split; [done|]. split.
  - unfold train. rewrite (vget_Ok _ _ c) by (lia || done). cbn [obind]. by rewrite vset_Ok.
  - split; simpl; [|by apply Forall_insert; [|apply Hf]].
    intros E. apply (f_equal length) in E. rewrite length_insert in E. by destruct (SHCT p).
Qed.

Lemma post_incr_ok c : sat_ok 8 c -> sat_ok 8 (post_incr c).2.
Proof. intros H. simpl. erewrite incr_clamp by done. by apply clamp_ok. Qed.
Lemma post_decr_ok c : sat_ok 8 c -> sat_ok 8 (post_decr c).2.
Proof. intros H. simpl. erewrite decr_clamp by done. by apply clamp_ok. Qed.

Lemma update_fallible_Ok {rng X} f (w : world (SHiP rng) SHiPReplData X) r rd pd :
  rds w !! r = Some rd -> f (policy w) (data rd) = Ok pd ->
  update_fallible f r w = Ok (tt, updated w r rd pd).
Proof.
  intros Hr Ef. unfold update_fallible. rewrite (bind_Ok _ _ _ _ _ (get_data_Ok _ _ _ Hr)).
  unfold bind at 1, getS. rewrite (bind_Ok _ _ w pd w) by (by rewrite Ef). unfold bind, putS.
  by rewrite (put_data_Ok _ r rd).
Qed.

(** ** The insertion threshold *)

(** With two-bit counters, the default, the comparison of doubles is the exact
    one at every percentage. *)
Lemma threshold_exact t c : 0 <= t <= 100 -> 0 <= c <= 3 ->
  dge (ddiv (double_of_Z c) (double_of_Z 3)) (ddiv (double_of_Z t) (double_of_Z 100)) = (3 * t <=? 100 * c).
Proof.
  intros Ht Hc. apply eqb_prop.
  pose proof (all_below_spec 101 (fun t => all_below 4 (fun c => Bool.eqb
    (dge (ddiv (double_of_Z c) (double_of_Z 3)) (ddiv (double_of_Z t) (double_of_Z 100))) (3 * t <=? 100 * c)))
    t ltac:(vm_compute; reflexivity) ltac:(lia)) as H. cbv beta in H.
  exact (all_below_spec 4 _ c H ltac:(lia)).
Qed.

(** [SHCT[signature].calcSaturation() >= insertionThreshold]. *)
Definition reached {rng} (p : SHiP rng) (c : GenericSatCounter) : bool :=
  dge (calcSaturation c) (insertionThreshold p).

(** ** The operations *)

(** A counter of [b] bits, as the constructors make it. *)
Definition counter_of (b : Z) (c : GenericSatCounter) : Prop :=
  initialVal c = 0 /\ maxVal c = 2 ^ b - 1 /\ 0 <= counter c <= 2 ^ b - 1.

Lemma counter_of_ok b c : 1 <= b <= 8 -> counter_of b c -> sat_ok 8 c.
Proof.
  intros Hb (Hi & Hm & Hc). assert (0 < 2 ^ b <= 2 ^ 8) by (split; [apply Z.pow_pos_nonneg|apply Z.pow_le_mono_r]; lia).
  split; lia.
Qed.

Lemma decr_counter c : 0 <= counter c -> counter (post_decr c).2 = Z.max 0 (counter c - 1).
Proof. intros H. simpl. unfold decr. destruct (Z.ltb_spec 0 (counter c)); simpl; lia. Qed.

Section Trained.
Context {rng X : Type} (random : draw rng) (w : world (SHiP rng) SHiPReplData X) (r : loc) (rd : ReplacementData SHiPReplData).
Context (b : Z) (Hb : 1 <= b <= 8).
Context (HS : SHCT (policy w) <> []) (HC : Forall (counter_of b) (SHCT (policy w))).
Context (Hr : rds w !! r = Some rd).

Lemma trained_wf : ship_wf (policy w).
Proof. split; [done|]. eapply Forall_impl; [exact HC|]. intros c. by apply counter_of_ok. Qed.

(** The RRPV of a new entry, when the generator has drawn [n] and the counter of
    its signature is [c]. *)
Definition inserted_rrpv (n : Z) (c : GenericSatCounter) : Z :=
  Z.max 0 (2 ^ b - 1 - (if n <=? btp (brrip (policy w)) then 1 else 0) - (if reached (policy w) c then 1 else 0)).

Lemma reset_trains pkt s c : counter_of b (rrpv (brrip_data (data rd))) ->
  getSignature (policy w) pkt = Ok s -> 0 <= s -> SHCT (policy w) !! Z.to_nat s = Some c ->
  exists w', ship_reset_pkt random r pkt w = Ok (tt, w') /\ SHCT (policy w') = SHCT (policy w) /\
    exists d, rp_data w' !! r = Some d /\ signature d = s /\ wasReReferenced d = false /\ valid (brrip_data d) = true /\
      counter (rrpv (brrip_data d)) = inserted_rrpv (random (gen (brrip (policy w))) 1 100).1 c.
Proof.
  intros (_ & Hm & _) Es Bs Hc. assert (0 < 2 ^ b) by (apply Z.pow_pos_nonneg; lia).
  destruct (random (gen (brrip (policy w))) 1 100) as [n g] eqn:Er.
  assert (ship_reset_data random (policy w) (data rd) pkt =
    let bd := mkBRRIPReplData (if n <=? btp (brrip (policy w)) then (post_decr (saturate (rrpv (brrip_data (data rd)))).2).2
      else (saturate (rrpv (brrip_data (data rd)))).2) true in
    Ok (with_base (mkBRRIP (numRRPVBits (brrip (policy w))) (hitPriority (brrip (policy w))) (btp (brrip (policy w))) g) (policy w),
      mkSHiPReplData (if reached (policy w) c then mkBRRIPReplData (post_decr (rrpv bd)).2 true else bd) s false)) as E.
  { unfold ship_reset_data. rewrite Es. cbn [obind]. unfold reset_data. cbn [brrip_data setSignature]. rewrite Er.
    cbn [SHCT with_base insertionThreshold]. rewrite (vget_Ok _ _ c) by (lia || done). done. }
  eexists. split; [eapply update_fallible_Ok; [exact Hr|exact E]|].
  split; [done|]. rewrite updated_data, lookup_insert_eq. eexists. split; [done|]. split; [done|]. split; [done|].
  split; [by cbn; destruct (reached _ _)|]. unfold inserted_rrpv. cbn [fst snd brrip_data].
  destruct (reached _ _), (n <=? _); cbn [rrpv];
    rewrite ?decr_counter; cbn [saturate snd counter with_counter]; rewrite ?decr_counter; cbn; rewrite ?Hm; lia.
Qed.

Lemma touch_trains pkt s : counter_of b (rrpv (brrip_data (data rd))) -> getSignature (policy w) pkt = Ok s -> 0 <= s < vsize (SHCT (policy w)) ->
  exists w' c, ship_touch_pkt r pkt w = Ok (tt, w') /\ SHCT (policy w) !! Z.to_nat s = Some c /\
    SHCT (policy w') = <[Z.to_nat s := clamp c (counter c + 1)]> (SHCT (policy w)) /\
    exists d, rp_data w' !! r = Some d /\ signature d = signature (data rd) /\ wasReReferenced d = true /\
      valid (brrip_data d) = valid (brrip_data (data rd)) /\
      counter (rrpv (brrip_data d)) = (if hitPriority (brrip (policy w)) then 0 else Z.max 0 (counter (rrpv (brrip_data (data rd))) - 1)).
Proof.
  intros (Hi & _ & Bc) Es Bs. destruct (train_Ok post_incr s (policy w) trained_wf Bs post_incr_ok) as (c & Hc & Okc & Et & _).
  assert (ship_touch_data (policy w) (data rd) pkt = Ok (with_SHCT (<[Z.to_nat s := (post_incr c).2]>
    (SHCT (policy w))) (policy w), with_brrip (touch_data (brrip (policy w)) (brrip_data (data rd)))
    (setReReferenced (data rd)))) as E.
  { unfold ship_touch_data. rewrite Es. cbn [obind]. rewrite Et. done. }
  eexists _, c. split; [eapply update_fallible_Ok; [exact Hr|exact E]|]. split; [done|].
  split; [by erewrite <- incr_clamp by done|]. rewrite updated_data, lookup_insert_eq. eexists. split; [done|].
  split; [done|]. split; [done|]. split; [done|]. cbn. unfold touch_data. destruct (hitPriority _); cbn [rrpv]; [done|].
  apply decr_counter. lia.
Qed.

Lemma invalidate_trains : sig_ok (policy w) (data rd) ->
  exists w' c, ship_invalidate r w = Ok (tt, w') /\ SHCT (policy w) !! Z.to_nat (signature (data rd)) = Some c /\
    SHCT (policy w') = (if wasReReferenced (data rd)
      then <[Z.to_nat (signature (data rd)) := clamp c (counter c - 1)]> (SHCT (policy w)) else SHCT (policy w)) /\
    exists d, rp_data w' !! r = Some d /\ valid (brrip_data d) = false.
Proof.
  intros Hs. destruct (train_Ok post_decr _ (policy w) trained_wf Hs post_decr_ok) as (c' & Hc' & Okc & Ed & _).
  assert (ship_invalidate_data (policy w) (data rd) = Ok (if wasReReferenced (data rd) then
    with_SHCT (<[Z.to_nat (signature (data rd)) := (post_decr c').2]> (SHCT (policy w))) (policy w)
    else policy w, with_brrip (invalidate_data (brrip_data (data rd))) (data rd))) as E.
  { unfold ship_invalidate_data. destruct (wasReReferenced _); [by rewrite Ed|done]. }
  eexists _, c'. split; [eapply update_fallible_Ok; [exact Hr|exact E]|]. split; [done|]. split.
  - simpl. destruct (wasReReferenced _); [|done]. by erewrite <- decr_clamp by done.
  - rewrite updated_data, lookup_insert_eq. by eexists.
Qed.
End Trained.

(** ** Properties *)

(** C39 (functional). [SHiP] with counters of any width from one to eight bits, any
    threshold, any bimodal throttle and with or without hit priority.  An
    insertion makes the entry valid and not re-referenced, remembers the
    signature of the access, and gives it the maximal RRPV, one less when the
    generator draws at most the throttle, and one less again when the saturation
    of the counter of the signature has reached the threshold; for two-bit
    counters, the default, this comparison of doubles is the exact one at every
    percentage.  A hit counts the signature of the access up, marks the entry as
    re-referenced and sets its RRPV to zero, or without hit priority one lower.
    An invalidation counts the signature of an entry down when the entry was
    re-referenced; this diverges from the comment at [ship_rp.cc:84], which says
    that the predictor is detrained when it was not.  All three stay within the
    table, and saturate. *)
Theorem ship_trains {rng X} (random : draw rng) (w : world (SHiP rng) SHiPReplData X) r rd pkt b :
  1 <= b <= 8 -> SHCT (policy w) <> [] -> Forall (counter_of b) (SHCT (policy w)) ->
  rds w !! r = Some rd -> sig_ok (policy w) (data rd) -> counter_of b (rrpv (brrip_data (data rd))) ->
  exists s c, getSignature (policy w) pkt = Ok s /\ SHCT (policy w) !! Z.to_nat s = Some c /\
  (forall t, b = 2 -> 0 <= t <= 100 -> insertionThreshold (policy w) = ddiv (double_of_Z t) (double_of_Z 100) ->
     reached (policy w) c = (3 * t <=? 100 * counter c)) /\
  (exists w', ship_reset_pkt random r pkt w = Ok (tt, w') /\ SHCT (policy w') = SHCT (policy w) /\
     exists d, rp_data w' !! r = Some d /\ signature d = s /\ wasReReferenced d = false /\
       valid (brrip_data d) = true /\
       counter (rrpv (brrip_data d)) = inserted_rrpv w b (random (gen (brrip (policy w))) 1 100).1 c) /\
  (exists w', ship_touch_pkt r pkt w = Ok (tt, w') /\
     SHCT (policy w') = <[Z.to_nat s := clamp c (counter c + 1)]> (SHCT (policy w)) /\
     exists d, rp_data w' !! r = Some d /\ signature d = signature (data rd) /\ wasReReferenced d = true /\
       valid (brrip_data d) = valid (brrip_data (data rd)) /\
       counter (rrpv (brrip_data d)) =
         if hitPriority (brrip (policy w)) then 0 else Z.max 0 (counter (rrpv (brrip_data (data rd))) - 1)) /\
  (exists w' c', ship_invalidate r w = Ok (tt, w') /\
     SHCT (policy w) !! Z.to_nat (signature (data rd)) = Some c' /\
     SHCT (policy w') = (if wasReReferenced (data rd)
       then <[Z.to_nat (signature (data rd)) := clamp c' (counter c' - 1)]> (SHCT (policy w)) else SHCT (policy w)) /\
     exists d, rp_data w' !! r = Some d /\ valid (brrip_data d) = false).
Proof.
  intros Hb HS HC Hr Hs Hd. destruct (getSignature_Ok _ pkt (trained_wf w b Hb HS HC)) as (s & Es & Bs).
  destruct (touch_trains w r rd b Hb HS HC Hr pkt s Hd Es Bs) as (w' & c & Et & Hc & Ht').
  exists s, c. split; [done|]. split; [done|]. split.
  { intros t -> Ht Hth. pose proof (proj1 (Forall_lookup _ _) HC _ _ Hc) as (_ & Mc & Bc).
    unfold reached, calcSaturation. rewrite Hth, Mc. apply threshold_exact; [done|]. cbn in Bc. lia. }
  split; [by eapply reset_trains; try done; apply Bs|].
  split; [by exists w'|]. by eapply invalidate_trains.
Qed.

(** A policy of four counters, and one entry that has been hit. *)
Definition demo_world : world (SHiP unit) SHiPReplData unit :=
  let c := mkSatCounter 0 3 in
  mkWorld (mkSHiP (mkBRRIP 2 true 0 tt) SHiPMem (ddiv (double_of_Z 1) (double_of_Z 100)) [c 0; c 1; c 3; c 0])
    {[1%positive := mkObject (mkReplaceableEntry 0 0 (Some 1%positive)) tt]}
    {[1%positive := mkReplacementData Null (mkSHiPReplData (mkBRRIPReplData (c 1) true) 2 true)]} 0.

(** A generator that always draws the lower bound. *)
Definition low_draw : draw unit := fun g lo _ => (lo, g).

Lemma ship_trains_witness :
  let pkt := mkPacket 5 None in
  (exists w', ship_reset_pkt low_draw 1%positive pkt demo_world = Ok (tt, w') /\
    exists d, rp_data w' !! 1%positive = Some d /\ signature d = 1 /\ counter (rrpv (brrip_data d)) = 2) /\
  (exists w', ship_touch_pkt 1%positive pkt demo_world = Ok (tt, w') /\ counter <$> SHCT (policy w') = [0; 2; 3; 0] /\
    exists d, rp_data w' !! 1%positive = Some d /\ counter (rrpv (brrip_data d)) = 0) /\
  exists w', ship_invalidate 1%positive demo_world = Ok (tt, w') /\ counter <$> SHCT (policy w') = [0; 1; 2; 0].
Proof.
  intros pkt. destruct (ship_trains low_draw demo_world 1%positive
    (mkReplacementData Null (mkSHiPReplData (mkBRRIPReplData (mkSatCounter 0 3 1) true) 2 true))
    pkt 2) as (s & c & Es & Hc & _ & (w1 & E1 & _ & d1 & Hd1 & Hs & _ & _ & Hv1) & (w2 & E2 & T2 & d2 & Hd2 & _ & _ & _ & Hv2) &
    (w3 & c' & E3 & Hc' & T3 & _)).
  - lia.
  - done.
  - repeat constructor; cbn; lia.
  - reflexivity.
  - split; [simpl; lia|vm_compute; reflexivity].
  - repeat split; cbn; lia.
  - vm_compute in Es. injection Es as <-. vm_compute in Hc, Hc'. injection Hc as <-. injection Hc' as <-.
    split; [|split].
    + exists w1. split; [done|]. exists d1. split; [done|]. split; [done|]. rewrite Hv1. reflexivity.
    + exists w2. split; [done|]. rewrite T2. split; [reflexivity|]. exists d2. split; [done|]. rewrite Hv2. reflexivity.
    + exists w3. split; [done|]. rewrite T3. reflexivity.
Defined.
