(* ===== verification/DuelingMonitor.v ===== *)
(** Set dueling, [mem/cache/tags/dueling.hh] and [dueling.cc]: which entries are
    samples of which team, and which team is winning.

    Every monitor has its own bit in the samples' masks; the number of monitors
    made so far is the argument of its constructor. *)
From stdpp Require Import base list.
From Stdlib Require Import ZArith Lia.
From S2P Require Import Prelude Bitfield SatCounter Double.

(** ** Definitions *)
Record Dueler := mkDueler { _isSample : Z; _team : Z }.
Definition new_Dueler : Dueler := mkDueler 0 0.

Definition setSample (id : Z) (team : bool) (d : Dueler) : outcome Dueler :=
  let? _ := ocheck (popCount true id =? 1) Panic in
  let? _ := ocheck (Z.land (_isSample d) id =? 0) Panic in
  Ok (mkDueler (Z.lor (_isSample d) id) (if team then Z.lor (_team d) id else _team d)).

(** The result and the team the call reports. *)
Definition isSample_id (id : Z) (d : Dueler) : bool * bool :=
  (negb (Z.land (_isSample d) id =? 0), negb (Z.land (_team d) id =? 0)).

Definition NUM_DUELERS : Z := 2.

Record DuelingMonitor := mkDuelingMonitor {
  id : Z;                          (* const uint64_t *)
  constituencySize : Z;            (* const size_t *)
  teamSize : Z;                    (* const size_t *)
  lowThreshold : double;
  highThreshold : double;
  selector : GenericSatCounter;    (* SatCounter32 *)
  regionCounter : Z;               (* int *)
  winner : bool }.

(** [1 << n] on [int], converted to [uint64_t]. *)
Definition int_bit (n : Z) : outcome Z :=
  if 32 <=? n then Fault BadShift else Ok (u64 (i32 (Z.shiftl 1 n))).

Definition new_DuelingMonitor (numInstances constituency_size team_size num_bits : Z)
    (low_threshold high_threshold : double) : outcome DuelingMonitor :=
  let? id := int_bit numInstances in
  let? sel := new_GenericSatCounter 32 num_bits 0 in
  let? _ := ocheck (negb (constituency_size <? u64 (NUM_DUELERS * team_size))) Fatal in
  let? _ := ocheck (negb (63 <? numInstances)) Fatal in
  let? _ := ocheck (negb (dle low_threshold d_zero || dge high_threshold d_one)) Fatal in
  let? _ := ocheck (negb (dle high_threshold d_zero || dge high_threshold d_one)) Fatal in
  let? _ := ocheck (negb (dlt high_threshold low_threshold)) Fatal in
  let sel := (saturate sel).2 in
  let? sel := shift_right 32 1 sel in
  Ok (mkDuelingMonitor id constituency_size team_size low_threshold high_threshold sel 0
    (if dlt (calcSaturation sel) low_threshold then false else true)).

Definition with_duel (sel : GenericSatCounter) (win : bool) (m : DuelingMonitor) : DuelingMonitor :=
  mkDuelingMonitor (id m) (constituencySize m) (teamSize m) (lowThreshold m) (highThreshold m) sel
    (regionCounter m) win.

Definition sample (d : Dueler) (m : DuelingMonitor) : DuelingMonitor :=
  let '(is_sample, team) := isSample_id (id m) d in
  if is_sample then
    if team then
      let sel := (post_incr (selector m)).2 in
      with_duel sel (if dge (calcSaturation sel) (highThreshold m) then true else winner m) m
    else
      let sel := (post_decr (selector m)).2 in
      with_duel sel (if dlt (calcSaturation sel) (lowThreshold m) then false else winner m) m
  else m.

Definition isSample (d : Dueler) (m : DuelingMonitor) : bool * bool := isSample_id (id m) d.
Definition getWinner (m : DuelingMonitor) : bool := winner m.

(** [regionCounter] is an [int]; compared with a [size_t] it is converted. *)
Definition initEntry (d : Dueler) (m : DuelingMonitor) : outcome (Dueler * DuelingMonitor) :=
  let? d' :=
    (if u64 (regionCounter m) <? teamSize m then setSample (id m) false d
     else if u64 (constituencySize m - teamSize m) <=? u64 (regionCounter m) then setSample (id m) true d
     else Ok d) in
  let? n := int_of (regionCounter m + 1) in
  let n := if constituencySize m <=? u64 n then 0 else n in
  Ok (d', mkDuelingMonitor (id m) (constituencySize m) (teamSize m) (lowThreshold m) (highThreshold m)
    (selector m) n (winner m)).

(** Entries initialised one after the other. *)
Fixpoint initEntries (k : nat) (m : DuelingMonitor) : outcome (list Dueler * DuelingMonitor) :=
  match k with
  | O => Ok ([], m)
  | S k' =>
      let? dm := initEntry new_Dueler m in
      let? dsm := initEntries k' dm.2 in
      Ok (dm.1 :: dsm.1, dsm.2)
  end.

(** ** The samples *)

(** The kind of entry [i] of a constituency of [c] entries with teams of [t]. *)
Definition sample_kind (c t i : Z) : bool * bool :=
  if i <? t then (true, false) else if c - t <=? i then (true, true) else (false, false).

(** A monitor whose parameters the constructor accepts. *)
Record monitor_wf (m : DuelingMonitor) : Prop := {
  wf_id : exists k, 0 <= k < 31 /\ id m = 2 ^ k;
  wf_team : 0 < teamSize m;
  wf_const : 2 * teamSize m <= constituencySize m < 2 ^ 31;
  wf_region : 0 <= regionCounter m < constituencySize m }.

Lemma popcount_pow2 k : 0 <= k -> builtin_popcount (2 ^ k) = 1.
Proof.
  intros Hk. rewrite <- Z.shiftl_1_l. revert k Hk. apply natlike_ind; [done|].
  intros k Hk IH. rewrite Z.shiftl_1_l in *. rewrite Z.pow_succ_r by lia.
  destruct (2 ^ k) as [|p|p] eqn:E; [|exact IH|]; pose proof (Z.pow_pos_nonneg 2 k); lia.
Qed.

Lemma int_bit_pow2 n : 0 <= n < 31 -> int_bit n = Ok (2 ^ n).
Proof.
  intros Hn. unfold int_bit. replace (32 <=? n) with false by lia. rewrite Z.shiftl_1_l.
  assert (0 < 2 ^ n < 2 ^ 31) by (split; [apply Z.pow_pos_nonneg|apply Z.pow_lt_mono_r]; lia).
  rewrite swrap_small, uwrap_small by lia. done.
Qed.

(** A new sample reads back as the team it was given. *)
Lemma setSample_new i team : (exists k, 0 <= k < 31 /\ i = 2 ^ k) ->
  exists d, setSample i team new_Dueler = Ok d /\ isSample_id i d = (true, team).
Proof.
  intros (k & Hk & ->). unfold setSample. rewrite popcount_pow2 by lia.
  assert (2 ^ k <> 0) by (pose proof (Z.pow_pos_nonneg 2 k); lia).
  eexists. split; [done|]. unfold isSample_id. cbn [_isSample _team new_Dueler].
  assert (forall x, Z.lor 0 x = x) as L by (intros; apply Z.lor_0_l).
  destruct team; rewrite ?L, ?Z.land_diag, ?Z.land_0_l;
    destruct (Z.eqb_spec (2 ^ k) 0); done.
Qed.

Lemma initEntry_Ok m : monitor_wf m ->
  exists d m', initEntry new_Dueler m = Ok (d, m') /\ monitor_wf m' /\
    isSample_id (id m) d = sample_kind (constituencySize m) (teamSize m) (regionCounter m) /\
    regionCounter m' = (regionCounter m + 1) mod constituencySize m /\
    id m' = id m /\ constituencySize m' = constituencySize m /\ teamSize m' = teamSize m.
Proof.
  intros [Hid Ht Hc Hr]. unfold initEntry, sample_kind.
  rewrite (uwrap_small 64 (regionCounter m)), (uwrap_small 64 (_ - _)) by lia.
  assert (exists d, (if regionCounter m <? teamSize m then setSample (id m) false new_Dueler
     else if constituencySize m - teamSize m <=? regionCounter m then setSample (id m) true new_Dueler
     else Ok new_Dueler) = Ok d /\ isSample_id (id m) d =
       if regionCounter m <? teamSize m then (true, false)
       else if constituencySize m - teamSize m <=? regionCounter m then (true, true) else (false, false))
    as (d & -> & Hd).
  { destruct (_ <? _); [by apply setSample_new|]. destruct (_ <=? _); [by apply setSample_new|].
    exists new_Dueler. split; [done|]. unfold isSample_id. by rewrite !Z.land_0_l. }
  cbn [obind]. rewrite int_of_Ok by lia. cbn [obind]. rewrite (uwrap_small 64) by lia.
  eexists d, _. split; [done|]. cbn [id constituencySize teamSize regionCounter].
  destruct (Z.leb_spec (constituencySize m) (regionCounter m + 1)) as [L|L].
  - assert (regionCounter m + 1 = constituencySize m) as E by lia.
    split; [split; cbn; [done|lia|lia|lia]|]. split_and!; try done. by rewrite E, Z.mod_same by lia.
  - split; [split; cbn; [done|lia|lia|lia]|]. split_and!; try done. by rewrite Z.mod_small by lia.
Qed.

(** ** Properties *)

(** The entries a monitor initialises repeat the same pattern in
    every constituency: the first [teamSize] entries are samples of team
    "false", the last [teamSize] of team "true", the others follow. *)
Theorem dueling_samples_pattern k m :
  monitor_wf m ->
  exists ds m', initEntries k m = Ok (ds, m') /\ length ds = k /\
    forall j d, ds !! j = Some d -> isSample d m =
      sample_kind (constituencySize m) (teamSize m) ((regionCounter m + Z.of_nat j) mod constituencySize m).
Proof.
  revert m. induction k as [|k IH]; intros m HW; [by exists [], m|].
  destruct (initEntry_Ok m HW) as (d & m1 & E1 & HW1 & Hd & Hr & Hi & Hc & Ht).
  destruct (IH m1 HW1) as (ds & m2 & E2 & Hl & HF). exists (d :: ds), m2.
  cbn [initEntries]. rewrite E1. cbn [obind fst snd]. rewrite E2. cbn [obind fst snd].
  split; [done|]. split; [simpl; lia|]. destruct HW as [_ Ht0 Hc0 Hr0].
  intros [|j] d' Hj; simplify_eq/=.
  - rewrite Z.add_0_r, Z.mod_small by lia. done.
  - specialize (HF j d' Hj). unfold isSample in *. rewrite Hi, Hc, Ht, Hr in HF. rewrite HF. f_equal.
    rewrite Z.add_mod_idemp_l by lia. f_equal. lia.
Qed.

(** *** The winner *)

(** With a ten-bit selector, half of the maximum is between 511 and 512. *)
Lemma half_exact c : 0 <= c <= 1023 ->
  dge (calcSaturation (mkSatCounter 0 1023 c)) d_half = (512 <=? c) /\
  dlt (calcSaturation (mkSatCounter 0 1023 c)) d_half = (c <=? 511).
Proof.
  intros Hc.
  pose proof (all_below_spec 1024 (fun c =>
    Bool.eqb (dge (calcSaturation (mkSatCounter 0 1023 c)) d_half) (512 <=? c) &&
    Bool.eqb (dlt (calcSaturation (mkSatCounter 0 1023 c)) d_half) (c <=? 511)) c
    ltac:(vm_compute; reflexivity) ltac:(lia)) as H.
  apply andb_prop in H as [H1 H2]. by split; apply eqb_prop.
Qed.

Definition default_monitor (numInstances constituency_size team_size : Z) : outcome DuelingMonitor :=
  new_DuelingMonitor numInstances constituency_size team_size 10 d_half d_half.

(** The points of a sequence of samples, one for team "true" and minus one for
    team "false", kept between 0 and 1023. *)
Fixpoint score (i : Z) (ds : list Dueler) (s : Z) : Z :=
  match ds with
  | [] => s
  | d :: ds' =>
      score i ds' (match isSample_id i d with
        | (true, true) => Z.min 1023 (s + 1)
        | (true, false) => Z.max 0 (s - 1)
        | _ => s
        end)
  end.

Definition samples (ds : list Dueler) (m : DuelingMonitor) : DuelingMonitor :=
  fold_left (fun m d => sample d m) ds m.

(** C38 (invariant). With the default parameters, after any sequence of samples the
    selector is the clamped count of the points, starting at 511, and team
    "true" is winning exactly when it is above 511. *)
Theorem dueling_winner_majority n c t m ds :
  default_monitor n c t = Ok m ->
  let m' := samples ds m in
  counter (selector m') = score (id m) ds 511 /\ getWinner m' = (512 <=? score (id m) ds 511).
Proof.
  intros H m'. subst m'.
  assert (exists i, m = mkDuelingMonitor i c t d_half d_half (mkSatCounter 0 1023 511) 0 false) as [i ->].
  { unfold default_monitor, new_DuelingMonitor in H. inv_ok H.
    assert (a0 = mkSatCounter 0 1023 0) as -> by (vm_compute in Hrun0; by injection Hrun0).
    change (saturate (mkSatCounter 0 1023 0)).2 with (mkSatCounter 0 1023 1023) in H.
    assert (a6 = mkSatCounter 0 1023 511) as -> by (vm_compute in Hrun6; by injection Hrun6).
    exists a. injection H as <-. f_equal. }
  cbn [id].
  assert (forall s win, 0 <= s <= 1023 -> win = (512 <=? s) ->
    let m' := samples ds (mkDuelingMonitor i c t d_half d_half (mkSatCounter 0 1023 s) 0 win) in
    counter (selector m') = score i ds s /\ getWinner m' = (512 <=? score i ds s)) as G; [|by apply G].
  induction ds as [|d ds IH]; intros s win Hs Hw; [done|]. cbn [samples fold_left score].
  unfold sample at 2 4. cbn [id selector highThreshold lowThreshold winner].
  destruct (isSample_id i d) as [[|] [|]]; try (by apply IH).
  - change (post_incr (mkSatCounter 0 1023 s)).2 with (incr (mkSatCounter 0 1023 s)).
    erewrite (incr_clamp 32) by (split; simpl; lia). unfold clamp, with_counter, with_duel. simpl.
    replace (Z.max 0 (Z.min 1023 (s + 1))) with (Z.min 1023 (s + 1)) by lia.
    apply IH; [lia|]. destruct (half_exact (Z.min 1023 (s + 1)) ltac:(lia)) as [-> _].
    subst win. destruct (Z.leb_spec 512 (Z.min 1023 (s + 1))), (Z.leb_spec 512 s); lia.
  - change (post_decr (mkSatCounter 0 1023 s)).2 with (decr (mkSatCounter 0 1023 s)).
    erewrite (decr_clamp 32) by (split; simpl; lia). unfold clamp, with_counter, with_duel. simpl.
    replace (Z.max 0 (Z.min 1023 (s - 1))) with (Z.max 0 (s - 1)) by lia.
    apply IH; [lia|]. destruct (half_exact (Z.max 0 (s - 1)) ltac:(lia)) as [_ ->].
    subst win. destruct (Z.leb_spec (Z.max 0 (s - 1)) 511), (Z.leb_spec 512 s),
      (Z.leb_spec 512 (Z.max 0 (s - 1))); lia.
Qed.

Lemma dueling_winner_majority_witness :
  exists m, default_monitor 0 4 1 = Ok m /\ getWinner (samples [mkDueler 1 1] m) = true.
Proof.
  assert (exists m, default_monitor 0 4 1 = Ok m) as [m Hm] by (eexists; vm_compute; reflexivity).
  exists m. split; [done|]. destruct (dueling_winner_majority 0 4 1 m [mkDueler 1 1] Hm) as [_ ->].
  vm_compute in Hm. injection Hm as <-. vm_compute. reflexivity.
Defined.

(** The thirty-second monitor has an id of 33 bits set: its first sample stops. *)
Lemma monitor_31_cannot_sample t c m :
  default_monitor 31 c t = Ok m -> forall team d, setSample (id m) team d = Fault Panic.
Proof.
  intros H team d. unfold default_monitor, new_DuelingMonitor in H. inv_ok H. vm_compute in Hrun.
  injection Hrun as <-. injection H as <-. done.
Qed.
