(* ===== verification/DuelingRP.v ===== *)
(** The dueling replacement policy, [mem/cache/replacement_policies/dueling_rp.hh]
    and [dueling_rp.cc], over any two policies.

    The data of an entry holds the data of both sub-policies, which live in
    stores of their own.  To find a victim the code points every candidate at the
    chosen sub-policy's data, asks that policy, and points the candidates back.
    The theorems are proved against the interface of ReplBase. *)
From stdpp Require Import base gmap list.
From Stdlib Require Import ZArith Lia.
From S2P Require Import LRU FIFO.
From S2P Require Import Prelude ReplBase ReplScan DuelingMonitor.

(** ** Definitions *)
Record DuelerReplData := mkDuelerReplData { dueler : Dueler; replDataA : loc; replDataB : loc }.

(** The members, the parameter [team_size] [getVictim] reads again, the two
    counters of the statistics, and the stores of the sub-policies' data. *)
Record Dueling (PA DA PB DB : Type) := mkDueling {
  replPolicyA : PA;
  replPolicyB : PB;
  duelingMonitor : DuelingMonitor;
  p_team_size : Z;
  selectedA : Z;
  selectedB : Z;
  rdsA : gmap loc (ReplacementData DA);
  rdsB : gmap loc (ReplacementData DB) }.
Arguments mkDueling {PA DA PB DB} _ _ _ _ _ _ _ _.
Arguments replPolicyA {PA DA PB DB} _.
Arguments replPolicyB {PA DA PB DB} _.
Arguments duelingMonitor {PA DA PB DB} _.
Arguments p_team_size {PA DA PB DB} _.
Arguments selectedA {PA DA PB DB} _.
Arguments selectedB {PA DA PB DB} _.
Arguments rdsA {PA DA PB DB} _.
Arguments rdsB {PA DA PB DB} _.

Definition new_Dueling {PA DA PB DB} (numInstances constituency_size team_size : Z)
    (a : option PA) (b : option PB) : outcome (Dueling PA DA PB DB) :=
  let? m := default_monitor numInstances constituency_size team_size in
  let? a := oget Fatal a in
  let? b := oget Fatal b in
  Ok (mkDueling a b m team_size 0 0 ∅ ∅).

Section Ops.
Context {PA DA PB DB X : Type} `{!ReplacementPolicy PA DA} `{!ReplacementPolicy PB DB}.
#[local] Abbreviation P := (Dueling PA DA PB DB).
#[local] Abbreviation W := (world P DuelerReplData X).

(** A call of a sub-policy: its members, its data, the same entries and clock. *)
Definition world_A (w : W) : world PA DA X :=
  mkWorld (replPolicyA (policy w)) (entries w) (rdsA (policy w)) (curTick w).
Definition world_B (w : W) : world PB DB X :=
  mkWorld (replPolicyB (policy w)) (entries w) (rdsB (policy w)) (curTick w).

Definition put_A (wa : world PA DA X) (w : W) : W :=
  let p := policy w in
  mkWorld (mkDueling (policy wa) (replPolicyB p) (duelingMonitor p) (p_team_size p) (selectedA p) (selectedB p)
    (rds wa) (rdsB p)) (entries wa) (rds w) (curTick wa).
Definition put_B (wb : world PB DB X) (w : W) : W :=
  let p := policy w in
  mkWorld (mkDueling (replPolicyA p) (policy wb) (duelingMonitor p) (p_team_size p) (selectedA p) (selectedB p)
    (rdsA p) (rds wb)) (entries wb) (rds w) (curTick wb).

Definition on_A {T} (m : M (world PA DA X) T) : M W T :=
  fun w => match m (world_A w) with Ok (x, wa) => Ok (x, put_A wa w) | Fault f => Fault f end.
Definition on_B {T} (m : M (world PB DB X) T) : M W T :=
  fun w => match m (world_B w) with Ok (x, wb) => Ok (x, put_B wb w) | Fault f => Fault f end.

Definition set_monitor (m : DuelingMonitor) (p : P) : P :=
  mkDueling (replPolicyA p) (replPolicyB p) m (p_team_size p) (selectedA p) (selectedB p) (rdsA p) (rdsB p).

Definition count_selection (team_a : bool) (p : P) : P :=
  if team_a then mkDueling (replPolicyA p) (replPolicyB p) (duelingMonitor p) (p_team_size p)
    (selectedA p + 1) (selectedB p) (rdsA p) (rdsB p)
  else mkDueling (replPolicyA p) (replPolicyB p) (duelingMonitor p) (p_team_size p)
    (selectedA p) (selectedB p + 1) (rdsA p) (rdsB p).

Definition invalidate (r : loc) : M W unit :=
  let* d := get_data r in
  do* on_A (rp_invalidate (replDataA d)) ;;
  on_B (rp_invalidate (replDataB d)).

Definition touch (r : loc) : M W unit :=
  let* d := get_data r in
  do* on_A (rp_touch (replDataA d)) ;;
  on_B (rp_touch (replDataB d)).

(** A reset is a miss: it is a sample of the duel. *)
Definition reset (r : loc) : M W unit :=
  let* d := get_data r in
  do* on_A (rp_reset (replDataA d)) ;;
  do* on_B (rp_reset (replDataB d)) ;;
  modifyS (fun w => set_policy (set_monitor (sample (dueler d) (duelingMonitor (policy w))) (policy w)) w).

(** Points a candidate to the data of the chosen team, and keeps its own pointer. *)
Definition reroute_body (team team_a : bool) (saved : list loc) (candidate : loc) : M W (step (list loc)) :=
  let* r := rd_ptr candidate in
  let* d := get_data r in
  let* w := getS in
  let '(is_sample, candidate_team) := isSample (dueler d) (duelingMonitor (policy w)) in
  do* checkM (negb (is_sample && negb (Bool.eqb team candidate_team))) Panic ;;
  do* set_replacementData candidate (if team_a then replDataA d else replDataB d) ;;
  ret (Continue (saved ++ [r])).

(** [candidates[i]->replacementData = dueling_replacement_data[i]]. *)
Definition restore_body (_ : unit) (er : loc * loc) : M W (step unit) :=
  do* set_replacementData er.1 er.2 ;; ret (Continue tt).

Definition getVictim (candidates : list loc) : M W (option loc) :=
  let* w := getS in
  do* checkM (vsize candidates =? p_team_size (policy w)) Panic ;;
  let winner := negb (getWinner (duelingMonitor (policy w))) in
  let* c0 := lift (vget candidates 0) in
  let* d0 := cand_get c0 in
  let '(is_sample, team) := isSample (dueler d0) (duelingMonitor (policy w)) in
  let team_a := (is_sample && negb team) || (negb is_sample && negb winner) in
  do* modifyS (fun w => set_policy (count_selection team_a (policy w)) w) ;;
  let* saved := foreach candidates (reroute_body team team_a) [] in
  let* victim :=
    (if team_a then on_A (rp_getVictim candidates) else on_B (rp_getVictim candidates)) in
  do* foreach (zip candidates saved) restore_body tt ;;
  ret victim.

End Ops.

(** New data: both sub-policies instantiate theirs, and the monitor places it. *)
Definition instantiateEntry {PA DA PB DB} `{!ReplacementPolicy PA DA} `{!ReplacementPolicy PB DB}
    (p : Dueling PA DA PB DB) : outcome (DuelerReplData * Dueling PA DA PB DB) :=
  let? a := rp_instantiateEntry (replPolicyA p) in
  let? b := rp_instantiateEntry (replPolicyB p) in
  let ra := fresh (dom (rdsA p)) in
  let rb := fresh (dom (rdsB p)) in
  let? dm := initEntry new_Dueler (duelingMonitor p) in
  Ok (mkDuelerReplData dm.1 ra rb,
      mkDueling a.2 b.2 dm.2 (p_team_size p) (selectedA p) (selectedB p)
        (<[ra := mkReplacementData Uninit a.1]> (rdsA p)) (<[rb := mkReplacementData Uninit b.1]> (rdsB p))).

#[export] Instance Dueling_policy {PA DA PB DB} `{!ReplacementPolicy PA DA} `{!ReplacementPolicy PB DB} :
    ReplacementPolicy (Dueling PA DA PB DB) DuelerReplData := {|
  rp_instantiateEntry := instantiateEntry;
  rp_invalidate X := invalidate (X := X);
  rp_touch X := touch (X := X);
  rp_reset X := reset (X := X);
  rp_getVictim X := getVictim (X := X) |}.

(** ** Pointing entries at other data *)
Section Assign.
Context {X : Type}.
Implicit Types m : gmap loc (object X).

(** The entry with its pointer set to [r]. *)
Definition rd_to (r : loc) (o : object X) : object X :=
  mkObject (mkReplaceableEntry (_set (base o)) (_way (base o)) (Some r)) (ext o).

Definition assign_all (l : list (loc * loc)) m : gmap loc (object X) :=
  fold_left (fun m er => alter (rd_to er.2) er.1 m) l m.

Lemma assign_all_other l m e : e ∉ l.*1 -> assign_all l m !! e = m !! e.
Proof.
  revert m. induction l as [|[e' r] l IH]; intros m He; [done|]. simpl in He.
  unfold assign_all in *. cbn [fold_left fst snd]. rewrite IH by set_solver.
  apply lookup_alter_ne. set_solver.
Qed.

Lemma assign_all_lookup l m j e r :
  NoDup l.*1 -> l !! j = Some (e, r) -> assign_all l m !! e = rd_to r <$> m !! e.
Proof.
  revert m j. induction l as [|[e' r'] l IH]; intros m j HN Hj; [done|].
  apply NoDup_cons in HN as [Hn HN]. unfold assign_all. cbn [fold_left fst snd].
  fold (assign_all l (alter (rd_to r') e' m)). destruct j as [|j]; simplify_eq/=.
  - rewrite assign_all_other by done. apply lookup_alter_eq.
  - rewrite (IH _ j HN Hj). rewrite lookup_alter_ne; [done|]. intros ->. apply Hn.
    apply list_elem_of_fmap. exists (e, r). split; [done|by eapply list_elem_of_lookup_2].
Qed.

(** Positions stay. *)
Lemma assign_all_set l m e o : assign_all l m !! e = Some o ->
  exists o', m !! e = Some o' /\ _set (base o) = _set (base o').
Proof.
  revert m. induction l as [|[e' r] l IH]; intros m H; [eauto|]. unfold assign_all in H.
  cbn [fold_left fst snd] in H. apply IH in H as (o1 & H1 & E1).
  destruct (decide (e = e')) as [->|].
  - rewrite lookup_alter_eq in H1. apply fmap_Some in H1 as (o2 & H2 & ->). eauto.
  - rewrite lookup_alter_ne in H1; eauto.
Qed.

(** Pointing candidates elsewhere and back. *)
Lemma assign_all_back cands subs rs m :
  NoDup cands -> length subs = length cands ->
  Forall2 (fun e r => exists o, m !! e = Some o /\ replacementData (base o) = Some r) cands rs ->
  assign_all (zip cands rs) (assign_all (zip cands subs) m) = m.
Proof.
  intros HN Hl HF. pose proof (Forall2_length _ _ _ HF) as Hl'.
  assert ((zip cands rs).*1 = cands) as E1 by (apply fst_zip; lia).
  assert ((zip cands subs).*1 = cands) as E2 by (apply fst_zip; lia).
  apply map_eq. intros e. destruct (decide (e ∈ cands)) as [He|He].
  - apply list_elem_of_lookup_1 in He as [j Hj].
    destruct (Forall2_lookup_l _ _ _ _ _ HF Hj) as (r & Hr & o & Ho & Hor).
    destruct (lookup_lt_is_Some_2 subs j) as [s Hs]; [apply lookup_lt_Some in Hj; lia|].
    rewrite (assign_all_lookup _ _ j e r); [|by rewrite E1|by rewrite lookup_zip_with, Hj; simpl; rewrite Hr].
    rewrite (assign_all_lookup _ _ j e s); [|by rewrite E2|by rewrite lookup_zip_with, Hj; simpl; rewrite Hs].
    rewrite Ho. simpl. destruct o as [[st wy rd] ext]. simpl in Hor. by subst.
  - by rewrite !assign_all_other by (rewrite ?E1, ?E2; done).
Qed.

End Assign.

Section Victim.
Context {PA DA PB DB X : Type} `{!ReplacementPolicy PA DA} `{!ReplacementPolicy PB DB}.
Implicit Types w : world (Dueling PA DA PB DB) DuelerReplData X.

Lemma set_replacementData_alter w e r o :
  entries w !! e = Some o ->
  set_replacementData e r w = Ok (tt, set_entries (alter (rd_to r) e (entries w)) w).
Proof.
  intros He. unfold set_replacementData. rewrite (bind_Ok _ _ _ _ _ (deref_entry_Ok _ _ _ He)).
  unfold write_entry, modifyS. do 2 f_equal. unfold set_entries. f_equal.
  apply map_eq. intros e'. destruct (decide (e' = e)) as [->|].
  - rewrite lookup_insert_eq, lookup_alter_eq, He. done.
  - by rewrite lookup_insert_ne, lookup_alter_ne.
Qed.

Lemma restore_loop l w :
  Forall (fun er => is_Some (entries w !! er.1)) l ->
  foreach l restore_body tt w = Ok (tt, set_entries (assign_all l (entries w)) w).
Proof.
  revert w. induction l as [|[e r] l IH]; intros w HF; [by destruct w|].
  apply Forall_cons in HF as [[o Ho] HF]. cbn [foreach]. unfold restore_body at 1. cbn [fst snd] in *.
  rewrite (bind_Ok _ _ w (Continue tt) (set_entries (alter (rd_to r) e (entries w)) w)).
  2:{ by rewrite (bind_Ok _ _ _ _ _ (set_replacementData_alter w e r o Ho)). }
  rewrite IH; [done|]. eapply Forall_impl; [exact HF|]. intros [e' r'] [o' Ho']. simpl in *.
  destruct (decide (e' = e)) as [->|]; [rewrite lookup_alter_eq, Ho; eauto|].
  rewrite lookup_alter_ne by done. eauto.
Qed.

(** The sub-policy's data of an entry. *)
Definition sub_of (team_a : bool) (d : DuelerReplData) : loc := if team_a then replDataA d else replDataB d.

Lemma reroute_loop team team_a cands rs ds saved w :
  NoDup cands -> cands_rds w cands rs -> Forall2 (fun r d => rp_data w !! r = Some d) rs ds ->
  Forall (fun d => let '(s, t) := isSample (dueler d) (duelingMonitor (policy w)) in s = true -> t = team) ds ->
  foreach cands (reroute_body team team_a) saved w =
    Ok (saved ++ rs, set_entries (assign_all (zip cands (sub_of team_a <$> ds)) (entries w)) w).
Proof.
  intros HN HC. revert ds saved w HC. revert rs.
  induction cands as [|e cands IH]; intros rs ds saved w HC HD HS; inversion HC as [|? r ? rs' He HC']; subst.
  { inversion HD; subst. rewrite app_nil_r. by destruct w. }
  inversion HD as [|? d ? ds' Hd HD']; subst. apply NoDup_cons in HN as [Hn HN].
  apply Forall_cons in HS as [Hs HS]. cbn [foreach].
  pose proof He as He'. unfold cand_rd in He'. destruct (entries w !! e) as [o|] eqn:Eo; [|done].
  apply rp_data_Some in Hd as (rd & Hrd & Ed).
  rewrite (bind_Ok _ _ w (Continue (saved ++ [r])) (set_entries (alter (rd_to (sub_of team_a d)) e (entries w)) w)).
  2:{ unfold reroute_body. rewrite (bind_Ok _ _ _ _ _ (rd_ptr_Ok _ _ _ He)).
      rewrite (bind_Ok _ _ _ _ _ (get_data_Ok _ _ _ Hrd)), Ed. unfold bind at 1, getS.
      destruct (isSample (dueler d) _) as [s t].
      assert (negb (s && negb (Bool.eqb team t)) = true) as Ek.
      { destruct s; [|done]. rewrite (Hs eq_refl). by destruct team. }
      unfold bind at 1, checkM, lift, ocheck. rewrite Ek.
      by rewrite (bind_Ok _ _ _ _ _ (set_replacementData_alter w e _ o Eo)). }
  rewrite (IH HN rs' ds'); try done.
  - rewrite <- app_assoc. done.
  - unfold cands_rds in *. clear -HC' Hn. induction HC' as [|e' r' cs rs' He' _ IH]; constructor; [|apply IH; set_solver].
    unfold cand_rd in *. simpl. rewrite lookup_alter_ne by set_solver. done.
Qed.

(** What the caller of [getVictim] provides: distinct candidates, as many as a
    team, whose data is live for both sub-policies and which are all samples of
    one team or all followers. *)
Record duel_ok w (cands rs : list loc) (ds : list DuelerReplData) (s t : bool) : Prop := {
  do_nodup : NoDup cands;
  do_nonempty : cands <> [];
  do_size : vsize cands = p_team_size (policy w);
  do_rds : cands_rds w cands rs;
  do_data : Forall2 (fun r d => rp_data w !! r = Some d) rs ds;
  do_kind : Forall (fun d => isSample (dueler d) (duelingMonitor (policy w)) = (s, t)) ds;
  do_sets : sets_bounded w }.

(** Policy A is used on its samples, and on the followers when team "true" -
    B's team - has missed more. *)
Definition uses_A w (s t : bool) : bool := if s then negb t else getWinner (duelingMonitor (policy w)).

(** The world the chosen policy sees. *)
Definition rerouted w (cands : list loc) (ds : list DuelerReplData) (team_a : bool) :=
  set_entries (assign_all (zip cands (sub_of team_a <$> ds)) (entries w))
    (set_policy (count_selection team_a (policy w)) w).

Lemma rerouted_bounded w cands ds a :
  sets_bounded w -> map_Forall (fun _ o => 0 <= _set (base o) < max_sets) (entries (rerouted w cands ds a)).
Proof.
  intros HB e o Ho. apply assign_all_set in Ho as (o' & Ho' & ->). exact (HB e o' Ho').
Qed.

(** The prefix of [getVictim] up to the sub-policy's call, and its suffix. *)
Lemma getVictim_split w cands rs ds s t :
  duel_ok w cands rs ds s t ->
  let a := uses_A w s t in
  let w1 := rerouted w cands ds a in
  getVictim cands w =
    match (if a then on_A (rp_getVictim cands) else on_B (rp_getVictim cands)) w1 with
    | Ok (v, w2) => bind (foreach (zip cands rs) restore_body tt) (fun _ => ret v) w2
    | Fault f => Fault f
    end.
Proof.
  intros [HN Hne Hsz HC HD HK HB] a w1. destruct cands as [|c0 cands]; [done|].
  inversion HC as [|? r0 ? rs' He HC']; subst. inversion HD as [|? d0 ? ds' Hd HD']; subst.
  assert (cand_data w c0 = Some d0) as Hcd.
  { unfold cand_data. rewrite He. simpl. unfold rp_data in Hd. by rewrite lookup_fmap in Hd. }
  apply Forall_cons in HK as [HK0 HK]. unfold getVictim. unfold bind at 1, getS.
  unfold bind at 1, checkM, lift, ocheck. rewrite Hsz, Z.eqb_refl.
  rewrite (bind_Ok _ _ w c0 w) by done.
  rewrite (bind_Ok _ _ _ _ _ (cand_get_Ok _ _ _ Hcd)), HK0.
  assert ((s && negb t) || (negb s && negb (negb (getWinner (duelingMonitor (policy w))))) = a) as ->
    by (unfold a, uses_A; destruct s, t, (getWinner _); done).
  unfold bind at 1, modifyS.
  set (w0 := set_policy (count_selection a (policy w)) w).
  rewrite (bind_Ok _ _ w0 (r0 :: rs') w1).
  - unfold bind at 1. destruct a; by case_match.
  - assert (duelingMonitor (policy w0) = duelingMonitor (policy w)) as Em by (simpl; by destruct a).
    rewrite (reroute_loop t a (c0 :: cands) (r0 :: rs') (d0 :: ds') [] w0); try done.
    rewrite Em. constructor; [by rewrite HK0|]. eapply Forall_impl; [exact HK|].
    intros d ->. done.
Qed.

(** Once the sub-policy has answered and left the entries alone, the candidates
    get their own data back. *)
Lemma getVictim_restores w cands rs ds s t a (v : option loc) w2 :
  duel_ok w cands rs ds s t -> entries w2 = entries (rerouted w cands ds a) ->
  bind (foreach (zip cands rs) restore_body tt) (fun _ => ret v) w2 = Ok (v, set_entries (entries w) w2).
Proof.
  intros [HN Hne Hsz HC HD HK HB] E2.
  assert (Forall2 (fun e r => exists o, entries w !! e = Some o /\ replacementData (base o) = Some r) cands rs) as HF.
  { eapply Forall2_impl; [exact HC|]. intros e r He. unfold cand_rd in He.
    destruct (entries w !! e) as [o|]; [|done]. eauto. }
  pose proof (Forall2_length _ _ _ HD) as L1. pose proof (Forall2_length _ _ _ HC) as L2.
  rewrite (bind_Ok _ _ w2 tt (set_entries (entries w) w2)); [done|].
  rewrite restore_loop.
  - rewrite E2. cbn [entries rerouted set_entries set_policy].
    by rewrite (assign_all_back cands (sub_of a <$> ds) rs (entries w)) by (done || rewrite length_fmap; lia).
  - apply Forall_lookup. intros j [e r] Hj. rewrite lookup_zip_with in Hj. simpl. rewrite E2.
    destruct (cands !! j) as [e'|] eqn:Ej; [|done]. simpl in Hj.
    destruct (rs !! j) as [r'|] eqn:Er; [|done]. simpl in Hj. injection Hj as -> ->.
    destruct (lookup_lt_is_Some_2 ds j) as [d Hd]; [apply lookup_lt_Some in Er; lia|].
    destruct (Forall2_lookup_l _ _ _ _ _ HF Ej) as (? & _ & o & Ho & _).
    cbn [entries rerouted set_entries set_policy]. rewrite (assign_all_lookup _ _ j e (sub_of a d)).
    + rewrite Ho. eauto.
    + by rewrite fst_zip by (rewrite length_fmap; lia).
    + rewrite lookup_zip_with, Ej. simpl. by rewrite list_lookup_fmap, Hd.
Qed.

(** In the rerouted world the candidates carry the chosen policy's data. *)
Lemma rerouted_cands w cands rs ds s t a :
  duel_ok w cands rs ds s t ->
  Forall2 (fun e d => (o ← entries (rerouted w cands ds a) !! e; replacementData (base o)) = Some (sub_of a d))
    cands ds.
Proof.
  intros [HN Hne Hsz HC HD HK HB]. pose proof (Forall2_length _ _ _ HD) as L1.
  pose proof (Forall2_length _ _ _ HC) as L2. apply Forall2_same_length_lookup_2; [lia|].
  intros j e d He Hd. destruct (Forall2_lookup_l _ _ _ _ _ HC He) as (r & _ & Hr).
  unfold cand_rd in Hr. destruct (entries w !! e) as [o|] eqn:Eo; [|done].
  cbn [entries rerouted set_entries set_policy]. rewrite (assign_all_lookup _ _ j e (sub_of a d)).
  - by rewrite Eo.
  - by rewrite fst_zip by (rewrite length_fmap; lia).
  - rewrite lookup_zip_with, He. simpl. by rewrite list_lookup_fmap, Hd.
Qed.

End Victim.

(** Candidates that point to live data are live candidates. *)
Lemma sub_cands {P' D' X} (w' : world P' D' X) (sub : DuelerReplData -> loc) (live : D' -> bool) cands ds :
  Forall2 (fun e d => (o ← entries w' !! e; replacementData (base o)) = Some (sub d)) cands ds ->
  Forall (fun d => exists x, data <$> rds w' !! sub d = Some x /\ live x = true) ds ->
  exists ds', cands_data w' cands ds' /\ Forall (fun d => live d = true) ds'.
Proof.
  induction 1 as [|e d cs ds He _ IH]; intros HF; [exists []; split; constructor|].
  apply Forall_cons in HF as [(x & Hx & Hl) HF]. destruct (IH HF) as (ds' & H1 & H2).
  exists (x :: ds'). split; constructor; try done. unfold cand_data, cand_rd. by rewrite He.
Qed.

(** ** Properties *)
Section Properties.
Context {PA DA PB DB X : Type} `{HA : !ReplacementPolicy PA DA} `{HB : !ReplacementPolicy PB DB}.
Context `{LA : !ReplacementPolicyLaws PA DA} `{LB : !ReplacementPolicyLaws PB DB}.

(** C37 (refinement). On the candidates of one set, whatever the two policies as long
    as they keep the promises of the interface, [Dueling::getVictim] returns a
    candidate, the one its policy A chooses on A's samples and, on followers,
    when B's team has missed more, and policy B's choice otherwise; the
    candidates' own data pointers are restored, the duel and the policy that was
    not asked are untouched, and the statistics count the choice. *)
Theorem dueling_asks_one_policy (w : world (Dueling PA DA PB DB) DuelerReplData X) cands rs ds s t :
  duel_ok w cands rs ds s t ->
  Forall (fun d => exists x, data <$> rdsA (policy w) !! replDataA d = Some x /\ rp_live x = true) ds ->
  Forall (fun d => exists x, data <$> rdsB (policy w) !! replDataB d = Some x /\ rp_live x = true) ds ->
  rp_inv (replPolicyA (policy w)) (data <$> rdsA (policy w)) ->
  rp_inv (replPolicyB (policy w)) (data <$> rdsB (policy w)) ->
  exists e w', getVictim cands w = Ok (Some e, w') /\ e ∈ cands /\
    entries w' = entries w /\ rds w' = rds w /\ curTick w' = curTick w /\
    duelingMonitor (policy w') = duelingMonitor (policy w) /\
    let p := policy w in let p' := policy w' in
    if uses_A w s t then
      (exists wa, rp_getVictim cands (world_A (rerouted w cands ds true)) = Ok (Some e, wa)) /\
      replPolicyB p' = replPolicyB p /\ rdsB p' = rdsB p /\
      selectedA p' = selectedA p + 1 /\ selectedB p' = selectedB p
    else
      (exists wb, rp_getVictim cands (world_B (rerouted w cands ds false)) = Ok (Some e, wb)) /\
      replPolicyA p' = replPolicyA p /\ rdsA p' = rdsA p /\
      selectedB p' = selectedB p + 1 /\ selectedA p' = selectedA p.
Proof.
  intros HO FA FB IA IB. rewrite (getVictim_split w cands rs ds s t HO). cbv zeta.
  destruct (uses_A w s t) eqn:EU.
  - destruct (sub_cands (world_A (rerouted w cands ds true)) replDataA rp_live cands ds)
      as (dsA & HD & HV); [exact (rerouted_cands w cands rs ds s t true HO)|exact FA|].
    destruct (rp_victim_some X (world_A (rerouted w cands ds true)) cands dsA) as (e & wa & E & _); try done.
    { by apply rerouted_bounded, HO. }
    { apply HO. }
    destruct (rp_victim_frame _ _ _ _ _ E) as ((Fe & _ & Ft) & He & _).
    unfold on_A. rewrite E.
    rewrite (getVictim_restores w cands rs ds s t true); [|done|done].
    eexists e, _. split; [done|]. split; [by apply He|]. split_and!; try done. by exists wa.
  - destruct (sub_cands (world_B (rerouted w cands ds false)) replDataB rp_live cands ds)
      as (dsB & HD & HV); [exact (rerouted_cands w cands rs ds s t false HO)|exact FB|].
    destruct (rp_victim_some X (world_B (rerouted w cands ds false)) cands dsB) as (e & wb & E & _); try done.
    { by apply rerouted_bounded, HO. }
    { apply HO. }
    destruct (rp_victim_frame _ _ _ _ _ E) as ((Fe & _ & Ft) & He & _).
    unfold on_B. rewrite E.
    rewrite (getVictim_restores w cands rs ds s t false); [|done|done].
    eexists e, _. split; [done|]. split; [by apply He|]. split_and!; try done. by exists wb.
Qed.

End Properties.

(** LRU against FIFO, on the two samples of LRU's team. *)
Definition demo_world : world (Dueling LRU.LRU LRU.LRUReplData FIFO.FIFO FIFO.FIFOReplData) DuelerReplData unit :=
  let e n := mkObject (mkReplaceableEntry 0 0 (Some n)) tt in
  let d n := mkReplacementData Null (mkDuelerReplData (mkDueler 1 0) n n) in
  let a n := mkReplacementData Null (LRU.mkLRUReplData n) in
  let b n := mkReplacementData Null (FIFO.mkFIFOReplData n) in
  let m := mkDuelingMonitor 1 4 2 Double.d_half Double.d_half (SatCounter.mkSatCounter 0 1023 511) 0 false in
  mkWorld (mkDueling LRU.mkLRU (FIFO.mkFIFO 2) m 2 0 0 {[1%positive := a 20; 2%positive := a 10]}
      {[1%positive := b 1; 2%positive := b 2]})
    {[1%positive := e 1%positive; 2%positive := e 2%positive]}
    {[1%positive := d 1%positive; 2%positive := d 2%positive]} 30.

Lemma dueling_asks_one_policy_witness :
  exists e w', getVictim [1; 2]%positive demo_world = Ok (Some e, w') /\ entries w' = entries demo_world /\
    selectedA (policy w') = 1.
Proof.
  destruct (dueling_asks_one_policy demo_world [1; 2]%positive [1; 2]%positive
    [mkDuelerReplData (mkDueler 1 0) 1 1; mkDuelerReplData (mkDueler 1 0) 2 2] true false)
    as (e & w' & E & _ & Ee & _ & _ & _ & Hs).
  - split; try done.
    + repeat constructor; set_solver.
    + repeat constructor.
    + repeat constructor.
    + repeat constructor.
    + intros k o Hk. unfold demo_world in Hk. simpl in Hk.
      apply lookup_insert_Some in Hk as [[_ <-]|[_ Hk]]; [vm_compute; split; [discriminate|reflexivity]|].
      apply lookup_singleton_Some in Hk as [_ <-]. vm_compute. split; [discriminate|reflexivity].
  - repeat (apply Forall_cons; split; [eexists; split; vm_compute; reflexivity|]). by apply Forall_nil_2.
  - repeat (apply Forall_cons; split; [eexists; split; vm_compute; reflexivity|]). by apply Forall_nil_2.
  - done.
  - done.
  - exists e, w'. split; [done|]. split; [done|]. cbv zeta in Hs.
    change (uses_A demo_world true false) with true in Hs. destruct Hs as (_ & _ & _ & -> & _). done.
Defined.
