(* ===== verification/RubyAddress.v ===== *)
(** Addresses of the Ruby memory system, [mem/ruby/common/Address.cc]: a 64-bit
    address is a line address and an offset within its line. *)
From Stdlib Require Import ZArith Lia Bool.
From stdpp Require Import base list.
From S2P Require Import Prelude Bitfield Intmath.
Local Open Scope Z_scope.

(** ** Definitions *)

(** [small] and [big] are [unsigned int]. *)
Definition bitSelect (addr small big : Z) : outcome Z :=
  let? _ := ocheck (small <=? big) AssertFailed in
  bits addr big small.

Definition maskLowOrderBits (addr number : Z) : Z := mbits addr 63 number.

(** The line bits are an [int], converted to [unsigned int] in the calls. *)
Definition getOffset (addr cacheLineBits : Z) : outcome Z :=
  let? _ := ocheck (cacheLineBits <? 64) AssertFailed in
  bitSelect addr 0 (u32 (cacheLineBits - 1)).

Definition makeLineAddress (addr cacheLineBits : Z) : outcome Z :=
  let? _ := ocheck (cacheLineBits <? 64) AssertFailed in
  Ok (maskLowOrderBits addr (u32 cacheLineBits)).

Definition makeNextStrideAddress (addr stride cacheLineBytes : Z) : outcome Z :=
  let? lineBits := floorLog2 32 cacheLineBytes in
  let? line := makeLineAddress addr lineBits in
  let? product := int_of (cacheLineBytes * stride) in
  Ok (u64 (line + product)).

(** ** Lemmas *)

Lemma makeLineAddress_spec addr k : 0 <= addr < 2 ^ 64 -> 0 <= k < 64 ->
  makeLineAddress addr k = Ok (addr - addr mod 2 ^ k).
Proof.
  intros Ha Hk. unfold makeLineAddress. replace (k <? 64) with true by lia. cbn [ocheck obind].
  f_equal. unfold maskLowOrderBits, mbits.
  rewrite (uwrap_small 32 k) by lia. change (u32 (63 + 1)) with 64.
  assert (addr - addr mod 2 ^ k = Z.ldiff addr (Z.ones k)) as ->.
  { rewrite Z.ldiff_ones_r, Z.shiftl_mul_pow2, Z.shiftr_div_pow2 by lia.
    pose proof (Z.div_mod addr (2 ^ k)). lia. }
  apply Z.bits_inj'. intros i Hi.
  rewrite !Z.land_spec, testbit_lnot64, !testbit_mask, Z.ldiff_spec, Z.testbit_ones_nonneg by lia.
  destruct (Z.ltb_spec i 64).
  - replace (i <? 64) with true by lia. by destruct (i <? k), (Z.testbit addr i).
  - rewrite (testbit_high 64 addr) by lia. done.
Qed.

Lemma bitSelect_field addr small big : 0 <= addr < 2 ^ 64 -> 0 <= small <= big -> big < 64 ->
  bitSelect addr small big = Ok (field addr big small).
Proof.
  intros Ha Hs Hb. unfold bitSelect. replace (small <=? big) with true by lia.
  cbn [ocheck obind]. apply bits_field; lia.
Qed.

Lemma getOffset_spec addr k : 0 <= addr < 2 ^ 64 -> 0 <= k < 64 ->
  getOffset addr k = Ok (addr mod 2 ^ k).
Proof.
  intros Ha Hk. unfold getOffset. replace (k <? 64) with true by lia. cbn [ocheck obind].
  destruct (Z.eq_dec k 0) as [->|].
  - unfold bitSelect, bits. change (u32 (0 - 1)) with (2 ^ 32 - 1).
    cbn [ocheck obind Z.leb Z.compare]. vm_compute (i32 _). rewrite shr64_Ok by lia.
    cbn [obind]. f_equal. vm_compute (mask _). by rewrite Z.land_0_r, Z.mod_1_r.
  - rewrite (uwrap_small 32) by lia. rewrite bitSelect_field by lia.
    f_equal. unfold field. rewrite Z.pow_0_r, Z.div_1_r. do 2 f_equal. lia.
Qed.

Lemma line_facts addr k line : 0 <= addr < 2 ^ 64 -> 0 <= k < 64 ->
  makeLineAddress addr k = Ok line ->
  0 <= line < 2 ^ 64 /\ line mod 2 ^ k = 0 /\ line <= addr < line + 2 ^ k.
Proof.
  intros Ha Hk. rewrite makeLineAddress_spec by lia. intros [= <-].
  assert (0 < 2 ^ k) by (apply Z.pow_pos_nonneg; lia).
  pose proof (Z.mod_pos_bound addr (2 ^ k)). pose proof (Z.mod_le addr (2 ^ k)).
  split; [lia|]. split; [|lia].
  rewrite Zminus_mod, Zmod_mod, Z.sub_diag, Z.mod_0_l; lia.
Qed.

(** A line address is the address of its own line. *)
Lemma makeLineAddress_fixed addr k : 0 <= addr < 2 ^ 64 -> 0 <= k < 64 ->
  makeLineAddress addr k = Ok addr <-> addr mod 2 ^ k = 0.
Proof.
  intros Ha Hk. rewrite makeLineAddress_spec by lia. split.
  - intros [=]. lia.
  - intros ->. f_equal. lia.
Qed.

(** ** Properties *)

(** Line address and offset make up the address: the offset is below
    the line size, the line address is its own line address and has offset
    zero, and the next stride address is that many lines away, wrapping at 64
    bits, and again a line address. *)
Theorem line_and_offset addr k stride :
  0 <= addr < 2 ^ 64 -> 0 <= k < 31 -> - 2 ^ 31 <= 2 ^ k * stride < 2 ^ 31 ->
  exists line off next,
    makeLineAddress addr k = Ok line /\ getOffset addr k = Ok off /\
    addr = line + off /\ 0 <= off < 2 ^ k /\
    makeLineAddress line k = Ok line /\ getOffset line k = Ok 0 /\
    makeNextStrideAddress addr stride (2 ^ k) = Ok next /\
    next = u64 (line + stride * 2 ^ k) /\ makeLineAddress next k = Ok next.
Proof.
  intros Ha Hk Hs. pose proof (makeLineAddress_spec addr k Ha ltac:(lia)) as El.
  destruct (line_facts addr k _ Ha ltac:(lia) El) as (Hl & Hm & _).
  assert (0 < 2 ^ k) by (apply Z.pow_pos_nonneg; lia).
  assert (2 ^ k < 2 ^ 31) by (apply Z.pow_lt_mono_r; lia).
  set (line := addr - addr mod 2 ^ k) in *.
  exists line, (addr mod 2 ^ k), (u64 (line + stride * 2 ^ k)).
  split; [done|]. split; [by rewrite getOffset_spec by lia|].
  split; [unfold line; lia|]. split; [by apply Z.mod_pos_bound|].
  split; [by apply makeLineAddress_fixed; [|lia|]|].
  split; [rewrite getOffset_spec by lia; by rewrite Hm|].
  split; [|split; [done|]].
  - unfold makeNextStrideAddress. rewrite floorLog2_log2 by (try lia; auto). cbn [obind].
    rewrite Z.log2_pow2 by lia. rewrite El. cbn [obind]. rewrite int_of_Ok by lia. cbn [obind].
    by rewrite (Z.mul_comm (2 ^ k)).
  - apply makeLineAddress_fixed; [by apply uwrap_range|lia|]. unfold uwrap.
    rewrite Z.mod_mod_divide; [by rewrite Z.mod_add by lia|].
    exists (2 ^ (64 - k)). rewrite <- Z.pow_add_r by lia. f_equal. lia.
Qed.
