(* ===== verification/BankedArray.v ===== *)
(** The banked tag and data arrays of a Ruby cache,
    [mem/ruby/structures/BankedArray.cc]: an access occupies its bank for the
    access latency, and the controller asks [tryAccess] before it calls
    [reserve].  The clock [curTick()] is an argument of the operations. *)
From Stdlib Require Import ZArith Lia Bool.
From stdpp Require Import base list.
From S2P Require Import Prelude Intmath.
Local Open Scope Z_scope.

(** ** Definitions *)
Record AccessRecord := mkAccessRecord {
  idx : Z;                         (* int64_t *)
  startAccess : Z;                 (* Tick *)
  endAccess : Z;                   (* Tick *)
}.

Definition new_AccessRecord : AccessRecord := mkAccessRecord 0 0 0.

Record BankedArray := mkBankedArray {
  banks : Z;                       (* unsigned int *)
  accessLatency : Z;               (* Cycles *)
  clockPeriod : Z;                 (* Tick *)
  bankBits : option Z;             (* not initialised when there is no bank *)
  startIndexBit : Z;
  busyBanks : list AccessRecord;
}.

Definition new_BankedArray (banks accessLatency startIndexBit : Z) : outcome BankedArray :=
  let? bankBits :=
    if banks =? 0 then Ok None else let? b := floorLog2 32 banks in Ok (Some b) in
  let? busyBanks := vresize [] banks new_AccessRecord in
  Ok (mkBankedArray banks accessLatency 0 bankBits startIndexBit busyBanks).

Definition setClockPeriod (clockPeriod : Z) (b : BankedArray) : BankedArray :=
  mkBankedArray (banks b) (accessLatency b) clockPeriod (bankBits b) (startIndexBit b) (busyBanks b).

Definition with_busyBanks (l : list AccessRecord) (b : BankedArray) : BankedArray :=
  mkBankedArray (banks b) (accessLatency b) (clockPeriod b) (bankBits b) (startIndexBit b) l.

(** [int64_t % unsigned int]: the remainder has the sign of the index. *)
Definition mapIndexToBank (b : BankedArray) (idx : Z) : outcome Z :=
  if banks b =? 1 then Ok 0
  else let? _ := ocheck (negb (banks b =? 0)) DivByZero in
  Ok (u32 (Z.rem idx (banks b))).

Definition tryAccess (curTick : Z) (b : BankedArray) (idx : Z) : outcome bool :=
  if accessLatency b =? 0 then Ok true else
  let? bank := mapIndexToBank b idx in
  let? _ := ocheck (bank <? banks b) AssertFailed in
  let? r := vget (busyBanks b) bank in
  Ok (negb (curTick <=? endAccess r)).

Definition reserve (curTick : Z) (b : BankedArray) (i : Z) : outcome BankedArray :=
  if accessLatency b =? 0 then Ok b else
  let? _ := ocheck (0 <? clockPeriod b) AssertFailed in
  let? bank := mapIndexToBank b i in
  let? _ := ocheck (bank <? banks b) AssertFailed in
  let? r := vget (busyBanks b) bank in
  if curTick <=? endAccess r then
    if (startAccess r =? curTick) && (idx r =? i) then Ok b else Fault Panic
  else
    let r' := mkAccessRecord i curTick
      (u64 (curTick + u64 ((accessLatency b - 1) * clockPeriod b))) in
    let? l := vset (busyBanks b) bank r' in
    Ok (with_busyBanks l b).

Definition getLatency (b : BankedArray) : Z := accessLatency b.

(** ** A controller that asks before it reserves *)
Definition guarded (t : Z) (b : BankedArray) (i : Z) : outcome (bool * BankedArray) :=
  let? ok := tryAccess t b i in
  if ok then let? b' := reserve t b i in Ok (true, b') else Ok (false, b).

Fixpoint serve (b : BankedArray) (reqs : list (Z * Z)) : outcome (list bool * BankedArray) :=
  match reqs with
  | [] => Ok ([], b)
  | (t, i) :: reqs' =>
      let? r := guarded t b i in
      let? r' := serve r.2 reqs' in
      Ok (r.1 :: r'.1, r'.2)
  end.

(** The bank of an index and the ticks an access keeps it busy after its own. *)
Definition bank_of (b : BankedArray) (i : Z) : nat := Z.to_nat (i mod banks b).
Definition occupancy (b : BankedArray) : Z := (accessLatency b - 1) * clockPeriod b.

Definition banks_ok (b : BankedArray) : Prop :=
  0 < banks b < 2 ^ 32 /\ vsize (busyBanks b) = banks b /\
  0 < accessLatency b /\ 0 < clockPeriod b.

(** The first tick a bank is free at is one above this. *)
Definition busy_until (b : BankedArray) (k : nat) : Z :=
  default 0 (endAccess <$> busyBanks b !! k).

(** The specification: a request is granted unless a granted one before it still
    occupies its bank. *)
Fixpoint spec_serve (bank : Z -> nat) (occ : Z) (past : list (Z * Z)) (reqs : list (Z * Z)) : list bool :=
  match reqs with
  | [] => []
  | (t, i) :: reqs' =>
      let free := forallb (fun p => negb (Nat.eqb (bank p.2) (bank i)) || (p.1 + occ <? t)) past in
      free :: spec_serve bank occ (if free then (t, i) :: past else past) reqs'
  end.

(** ** Lemmas *)
Lemma mapIndexToBank_Ok b i : banks_ok b -> 0 <= i -> mapIndexToBank b i = Ok (i mod banks b).
Proof.
  intros (Hb & _) Hi. unfold mapIndexToBank. destruct (Z.eqb_spec (banks b) 1) as [->|].
  - by rewrite Z.mod_1_r.
  - replace (banks b =? 0) with false by lia. cbn [ocheck negb obind]. f_equal.
    rewrite Z.rem_mod_nonneg by lia. apply uwrap_small.
    pose proof (Z.mod_pos_bound i (banks b)). lia.
Qed.

Lemma bank_lookup b i : banks_ok b -> 0 <= i ->
  exists r, vget (busyBanks b) (i mod banks b) = Ok r /\ endAccess r = busy_until b (bank_of b i).
Proof.
  intros (Hb & Hl & _) Hi. pose proof (Z.mod_pos_bound i (banks b)).
  destruct (lookup_Z (busyBanks b) (i mod banks b)) as [r Hr]; [lia|].
  exists r. split; [apply vget_Ok; [lia|done]|]. unfold busy_until, bank_of. by rewrite Hr.
Qed.

Lemma tryAccess_Ok t b i : banks_ok b -> 0 <= i ->
  tryAccess t b i = Ok (busy_until b (bank_of b i) <? t).
Proof.
  intros Hb Hi. unfold tryAccess. pose proof Hb as (Hn & _ & Hlat & _).
  replace (accessLatency b =? 0) with false by lia.
  rewrite mapIndexToBank_Ok by done. cbn [obind]. pose proof (Z.mod_pos_bound i (banks b)).
  replace (i mod banks b <? banks b) with true by lia. cbn [ocheck obind].
  destruct (bank_lookup b i) as (r & -> & Er); [done..|]. cbn [obind]. rewrite Er. f_equal.
  rewrite Z.ltb_antisym. done.
Qed.

Lemma guarded_Ok t b i : banks_ok b -> 0 <= i -> 0 <= t -> t + occupancy b < 2 ^ 64 ->
  exists b', guarded t b i = Ok (busy_until b (bank_of b i) <? t, b') /\ banks_ok b' /\
    banks b' = banks b /\ occupancy b' = occupancy b /\
    forall k, busy_until b' k =
      if (busy_until b (bank_of b i) <? t) && Nat.eqb k (bank_of b i) then t + occupancy b
      else busy_until b k.
Proof.
  intros Hb Hi Ht Hov. unfold guarded. rewrite tryAccess_Ok by done. cbn [obind].
  destruct (busy_until b (bank_of b i) <? t) eqn:E; [|by exists b].
  pose proof Hb as (Hn & Hl & Hlat & Hc). pose proof (Z.mod_pos_bound i (banks b)).
  unfold reserve. replace (accessLatency b =? 0) with false by lia.
  replace (0 <? clockPeriod b) with true by lia. cbn [ocheck obind].
  rewrite mapIndexToBank_Ok by done. cbn [obind].
  replace (i mod banks b <? banks b) with true by lia. cbn [ocheck obind].
  destruct (bank_lookup b i) as (r & -> & Er); [done..|]. cbn [obind]. rewrite Er.
  replace (t <=? busy_until b (bank_of b i)) with false by lia.
  assert (0 <= occupancy b) by (unfold occupancy; nia).
  rewrite vset_Ok by lia. cbn [obind]. eexists. split; [done|].
  fold (occupancy b). rewrite (uwrap_small 64 (occupancy b)), uwrap_small by lia.
  split; [|split; [done|split; [done|]]].
  { split; [done|]. split; [cbn; by rewrite vsize_insert|done]. }
  intros k. unfold busy_until at 1. cbn [busyBanks with_busyBanks]. fold (bank_of b i).
  destruct (Nat.eqb_spec k (bank_of b i)) as [->|Hne]; cbn [andb].
  - rewrite list_lookup_insert_eq; [done|]. unfold bank_of, vsize in *. lia.
  - by rewrite list_lookup_insert_ne.
Qed.

(** Each record is the last granted access of its bank. *)
Definition tracks (b : BankedArray) (past : list (Z * Z)) : Prop :=
  forall k t, 0 < t ->
    (busy_until b k < t <-> forall p, p ∈ past -> bank_of b p.2 = k -> p.1 + occupancy b < t).

Lemma tracks_free b past t i : tracks b past -> 0 < t ->
  forallb (fun p => negb (Nat.eqb (bank_of b p.2) (bank_of b i)) || (p.1 + occupancy b <? t)) past
  = (busy_until b (bank_of b i) <? t).
Proof.
  intros Htr Ht. apply eq_true_iff_eq. rewrite Z.ltb_lt, (Htr _ _ Ht), forallb_forall. split.
  - intros Hall p Hp E. apply list_elem_of_In in Hp. apply Hall in Hp.
    rewrite E, Nat.eqb_refl in Hp. cbn in Hp. lia.
  - intros Hall p Hp. apply list_elem_of_In in Hp. specialize (Hall p Hp).
    destruct (Nat.eqb_spec (bank_of b p.2) (bank_of b i)); [|done]. cbn. specialize (Hall e). lia.
Qed.

Lemma serve_spec b past reqs : banks_ok b -> tracks b past ->
  Forall (fun p => 0 < p.1 /\ p.1 + occupancy b < 2 ^ 64 /\ 0 <= p.2) reqs ->
  exists b', serve b reqs = Ok (spec_serve (bank_of b) (occupancy b) past reqs, b') /\ banks_ok b'.
Proof.
  revert b past. induction reqs as [|[t i] reqs IH]; intros b past Hb Htr Hr; [by exists b|].
  apply Forall_cons in Hr as [(Ht & Hov & Hi) Hr]. cbn in Ht, Hov, Hi.
  destruct (guarded_Ok t b i) as (b1 & Hg & Hb1 & En & Eo & Hu); [done|lia..|].
  assert (bank_of b1 = bank_of b) as Ebk by (unfold bank_of; by rewrite En).
  cbn [serve spec_serve]. rewrite Hg. cbn [obind fst snd].
  rewrite tracks_free by done. destruct (busy_until b (bank_of b i) <? t) eqn:Efree.
  - destruct (IH b1 ((t, i) :: past)) as (b' & -> & ?); [done| |by rewrite Eo|].
    + intros k u Hpos. rewrite Hu, Ebk, Eo. cbn [andb].
      assert (0 <= occupancy b) by (destruct Hb as (_ & _ & ? & ?); unfold occupancy; nia).
      destruct (Nat.eqb_spec k (bank_of b i)) as [->|Hne].
      * split.
        -- intros Hlt p [->|Hp]%elem_of_cons E; [done|]. apply (Htr (bank_of b i) u Hpos); [lia|done..].
        -- intros Hall. apply (Hall (t, i)); [left|done].
      * rewrite (Htr k u Hpos). split; intros Hall p Hp E; apply Hall; try done.
        -- apply elem_of_cons in Hp as [->|]; [by cbn in E|done].
        -- by right.
    + cbn [obind fst snd]. rewrite Ebk, Eo. by exists b'.
  - destruct (IH b1 past) as (b' & -> & ?); [done| |by rewrite Eo|].
    + intros k u Hpos. rewrite Hu, Ebk, Eo. cbn [andb]. by apply Htr.
    + cbn [obind fst snd]. rewrite Ebk, Eo. by exists b'.
Qed.

(** ** Properties *)

(** C21 (refinement). A controller that calls [reserve] only when [tryAccess] allows
    it never runs into the reservation panic, and an access of a new array is
    granted exactly when no granted access before it still occupies its bank:
    each occupies its own tick and the access latency less one cycle after it.
    (At tick zero a new array already refuses, its records ending at zero.) *)
Theorem banked_array_serialises banks lat start period reqs b :
  0 < banks < 2 ^ 32 -> 0 < lat -> 0 < period ->
  new_BankedArray banks lat start = Ok b ->
  Forall (fun p => 0 < p.1 /\ p.1 + (lat - 1) * period < 2 ^ 64 /\ 0 <= p.2) reqs ->
  exists b', serve (setClockPeriod period b) reqs =
    Ok (spec_serve (fun i => Z.to_nat (i mod banks)) ((lat - 1) * period) [] reqs, b').
Proof.
  intros Hn Hl Hp Hnew Hr. unfold new_BankedArray in Hnew. inv_ok Hnew.
  rewrite vresize_grow in Hrun0 by (change (vsize []) with 0; lia). injection Hrun0 as <-. injection Hnew as <-.
  set (b := setClockPeriod period _).
  assert (banks_ok b) as Hb.
  { split; [done|]. split; [|done]. unfold vsize, b. cbn. rewrite length_replicate. lia. }
  destruct (serve_spec b [] reqs) as (b' & E & _); [done| |done|by exists b'].
  intros k t Ht. split; [by intros _ p ?%not_elem_of_nil|]. intros _.
  unfold busy_until, b. cbn [busyBanks setClockPeriod app].
  destruct (_ !! k) as [r|] eqn:E; [|done].
  apply lookup_replicate in E as [-> _]. done.
Qed.

Lemma banked_array_serialises_witness :
  exists b b', new_BankedArray 2 3 6 = Ok b /\
    serve (setClockPeriod 500 b) [(100, 4); (600, 5); (1100, 4); (1101, 6)] =
      Ok ([true; true; false; true], b').
Proof.
  destruct (new_BankedArray 2 3 6) as [b|] eqn:E; [|vm_compute in E; discriminate].
  destruct (banked_array_serialises 2 3 6 500 [(100, 4); (600, 5); (1100, 4); (1101, 6)] b)
    as (b' & E'); [lia..|done| |].
  - repeat (apply Forall_cons; split; [cbn; lia|]). by apply Forall_nil_2.
  - exists b, b'. split; [done|]. rewrite E'. reflexivity.
Defined.
