(* ===== verification/ALUFreeList.v ===== *)
(** The pipelined atomic ALUs of a Ruby cache,
    [mem/ruby/structures/ALUFreeListArray.cc]: a queue of the accesses of the
    last [accessLatency] ticks, newest at the front.  The clock [curTick()] is an
    argument of the operations. *)
From Stdlib Require Import ZArith Lia Bool Sorting.Sorted.
From stdpp Require Import base list.
From S2P Require Import Prelude Intmath RubyAddress.
Local Open Scope Z_scope.

(** ** Definitions *)
Record ALUAccessRecord := mkALUAccessRecord { lineAddr : Z; startTick : Z }.

Record ALUFreeListArray := mkALUFreeListArray {
  numALUs : Z;                     (* unsigned int *)
  accessClocks : Z;                (* Cycles *)
  alu_accessLatency : Z;           (* Tick *)
  accessQueue : list ALUAccessRecord;
  m_block_size_bits : Z;           (* int *)
}.

Definition new_ALUFreeListArray (num_ALUs access_clocks : Z) : ALUFreeListArray :=
  mkALUFreeListArray num_ALUs access_clocks 0 [] 0.

Definition alu_setClockPeriod (clockPeriod : Z) (a : ALUFreeListArray) : ALUFreeListArray :=
  mkALUFreeListArray (numALUs a) (accessClocks a) (u64 (accessClocks a * clockPeriod))
    (accessQueue a) (m_block_size_bits a).

Definition alu_setBlockSize (block_size : Z) (a : ALUFreeListArray) : outcome ALUFreeListArray :=
  let? b := floorLog2 32 block_size in
  Ok (mkALUFreeListArray (numALUs a) (accessClocks a) (alu_accessLatency a) (accessQueue a) b).

Definition with_queue (q : list ALUAccessRecord) (a : ALUFreeListArray) : ALUFreeListArray :=
  mkALUFreeListArray (numALUs a) (accessClocks a) (alu_accessLatency a) q (m_block_size_bits a).

Definition alu_getLatency (a : ALUFreeListArray) : outcome Z :=
  let? _ := ocheck (0 <? alu_accessLatency a) AssertFailed in Ok (alu_accessLatency a).

(** [while (size() > 0 && back().startTick < oldest) pop_back();] on the queue
    from its back. *)
Fixpoint pop_old (oldest : Z) (back : list ALUAccessRecord) : list ALUAccessRecord :=
  match back with
  | [] => []
  | r :: back' => if startTick r <? oldest then pop_old oldest back' else r :: back'
  end.

(** The loop over the queue; [n] is [accesses_this_tick], a [uint32_t]. *)
Fixpoint queue_loop (curTick addr : Z) (a : ALUFreeListArray) (n : Z) (q : list ALUAccessRecord) :
    outcome bool :=
  match q with
  | [] => Ok true
  | r :: q' =>
      let n := if startTick r =? curTick then u32 (n + 1) else n in
      if (startTick r =? curTick) && (numALUs a <? n) then Ok false else
      let? line := makeLineAddress addr (m_block_size_bits a) in
      if lineAddr r =? line then Ok false else queue_loop curTick addr a n q'
  end.

Definition alu_tryAccess (curTick addr : Z) (a : ALUFreeListArray) : outcome (bool * ALUFreeListArray) :=
  let oldestValidRecordStart := u64 (curTick - alu_accessLatency a) in
  let a := with_queue (rev (pop_old oldestValidRecordStart (rev (accessQueue a)))) a in
  let? ok := queue_loop curTick addr a 0 (accessQueue a) in
  Ok (ok, a).

Definition alu_reserve (curTick addr : Z) (a : ALUFreeListArray) : outcome ALUFreeListArray :=
  let? line := makeLineAddress addr (m_block_size_bits a) in
  Ok (with_queue (mkALUAccessRecord line curTick :: accessQueue a) a).

(** ** A controller that asks before it reserves *)
Definition alu_guarded (t addr : Z) (a : ALUFreeListArray) : outcome (bool * ALUFreeListArray) :=
  let? r := alu_tryAccess t addr a in
  if r.1 then let? a' := alu_reserve t addr r.2 in Ok (true, a') else Ok r.

Fixpoint alu_serve (a : ALUFreeListArray) (reqs : list (Z * Z)) : outcome (list bool) :=
  match reqs with
  | [] => Ok []
  | (t, addr) :: reqs' =>
      let? r := alu_guarded t addr a in
      let? gs := alu_serve r.2 reqs' in
      Ok (r.1 :: gs)
  end.

(** The specification: [past] lists the granted accesses, newest first.  Two
    things differ from what the comments of the code say.  An access is granted
    while at most [num] were granted at its tick, so [num + 1] start together.
    And at a tick below the latency [curTick() - accessLatency] wraps: every
    access so far is taken for an old one and forgotten. *)
Definition count_tick (t : Z) (past : list ALUAccessRecord) : Z :=
  Z.of_nat (length (base.filter (fun r => startTick r = t) past)).
Definition line_busy (lat t line : Z) (past : list ALUAccessRecord) : bool :=
  existsb (fun r => (lineAddr r =? line) && (t <=? startTick r + lat)) past.

Definition remembered (lat t : Z) (past : list ALUAccessRecord) : list ALUAccessRecord :=
  if t <? lat then [] else past.

Fixpoint alu_spec (num lat k : Z) (past : list ALUAccessRecord) (reqs : list (Z * Z)) : list bool :=
  match reqs with
  | [] => []
  | (t, addr) :: reqs' =>
      let line := addr - addr mod 2 ^ k in
      let past := remembered lat t past in
      let ok := (count_tick t past <=? num) && negb (line_busy lat t line past) in
      ok :: alu_spec num lat k (if ok then mkALUAccessRecord line t :: past else past) reqs'
  end.

(** ** Lemmas *)
Definition newest_first (q : list ALUAccessRecord) : Prop :=
  StronglySorted (fun r s => startTick s <= startTick r) q.

Lemma filter_nil_old o q : Forall (fun r => startTick r < o) q ->
  base.filter (fun r => o <= startTick r) q = [].
Proof.
  induction 1 as [|r q Hr _ IH]; [done|]. rewrite filter_cons_False by lia. done.
Qed.

(** Popping old records off the back keeps the recent ones. *)
Lemma pop_old_filter o q : newest_first q ->
  rev (pop_old o (rev q)) = base.filter (fun r => o <= startTick r) q.
Proof.
  induction q as [|r q IH] using rev_ind; intros Hs; [done|].
  rewrite rev_app_distr. cbn [rev app pop_old]. rewrite filter_app.
  assert (newest_first q /\ Forall (fun s => startTick r <= startTick s) q) as [Hq Hr].
  { clear IH. induction q as [|s q IHq]; [split; constructor|].
    apply StronglySorted_inv in Hs as [Hs Hall]. destruct (IHq Hs) as [? ?].
    apply Forall_app in Hall as [Hall1 Hall2%Forall_inv]. split; constructor; done. }
  destruct (Z.ltb_spec (startTick r) o).
  - rewrite IH by done. rewrite filter_cons_False by lia. by rewrite filter_nil, app_nil_r.
  - cbn [rev]. rewrite rev_involutive. rewrite filter_cons_True by lia. rewrite filter_nil. f_equal.
    clear -Hr H. induction Hr as [|s q Hs _ IH]; [done|]. rewrite filter_cons_True by lia. by f_equal.
Qed.

Lemma queue_loop_spec t addr a k n q :
  0 <= addr < 2 ^ 64 -> m_block_size_bits a = k -> 0 <= k < 64 ->
  0 <= n <= numALUs a -> n + Z.of_nat (length q) < 2 ^ 32 ->
  queue_loop t addr a n q = Ok ((n + count_tick t q <=? numALUs a) &&
    negb (existsb (fun r => lineAddr r =? addr - addr mod 2 ^ k) q)).
Proof.
  intros Ha Hk Hk' Hn Hq. revert n Hn Hq. induction q as [|r q IH]; intros n Hn Hq; cbn [queue_loop].
  { f_equal. replace (n + count_tick t [] <=? numALUs a) with true; [done|].
    change (count_tick t []) with 0. lia. }
  cbn [length] in Hq. rewrite Hk, makeLineAddress_spec by done. cbn [obind existsb].
  unfold count_tick. rewrite filter_cons.
  destruct (Z.eqb_spec (startTick r) t) as [E|E].
  - rewrite decide_True by done. cbn [length andb]. rewrite (uwrap_small 32) by lia.
    destruct (Z.ltb_spec (numALUs a) (n + 1)).
    + destruct (Z.leb_spec (n + Z.of_nat (S (length (base.filter (fun r => startTick r = t) q)))) (numALUs a)); [lia|done].
    + destruct (lineAddr r =? _) eqn:El; cbn [orb negb]; [by rewrite andb_false_r|].
      rewrite IH by lia. unfold count_tick. do 3 f_equal. lia.
  - rewrite decide_False by done. cbn [andb].
    destruct (lineAddr r =? _) eqn:El; cbn [orb negb]; [by rewrite andb_false_r|].
    rewrite IH by lia. done.
Qed.

Lemma count_tick_recent t o q : o <= t ->
  count_tick t (base.filter (fun r => o <= startTick r) q) = count_tick t q.
Proof.
  intros Ho. unfold count_tick. do 2 f_equal. induction q as [|r q IH]; [done|].
  rewrite !filter_cons. repeat case_decide; rewrite ?filter_cons; try rewrite decide_True by done;
    try rewrite decide_False by done; rewrite ?IH; done || lia.
Qed.

Lemma existsb_recent lat t line q :
  existsb (fun r => lineAddr r =? line) (base.filter (fun r => t - lat <= startTick r) q)
  = line_busy lat t line q.
Proof.
  unfold line_busy. induction q as [|r q IH]; [done|]. cbn [existsb]. rewrite filter_cons.
  case_decide as E; cbn [existsb]; rewrite IH.
  - replace (t <=? startTick r + lat) with true by lia. by rewrite andb_true_r.
  - replace (t <=? startTick r + lat) with false by lia. by rewrite andb_false_r.
Qed.

Lemma filter_filter_recent o o' (q : list ALUAccessRecord) : o <= o' ->
  base.filter (fun r => o' <= startTick r) (base.filter (fun r => o <= startTick r) q)
  = base.filter (fun r => o' <= startTick r) q.
Proof.
  intros Ho. induction q as [|r q IH]; [done|].
  rewrite (filter_cons _ r q). case_decide.
  - rewrite !filter_cons, IH. done.
  - rewrite IH. rewrite filter_cons_False by lia. done.
Qed.

Lemma newest_first_filter o q : newest_first q -> newest_first (base.filter (fun r => o <= startTick r) q).
Proof.
  induction 1 as [|r q Hs IH Hall]; [constructor|]. rewrite filter_cons.
  case_decide; [|done]. constructor; [done|].
  apply Forall_forall. intros s Hs'%list_elem_of_filter. rewrite Forall_forall in Hall. naive_solver.
Qed.

Definition alu_ok (k : Z) (a : ALUFreeListArray) : Prop :=
  0 <= numALUs a /\ m_block_size_bits a = k /\ 0 <= k < 64 /\ 0 <= alu_accessLatency a < 2 ^ 64.

(** The queue holds the granted accesses that may still be in the pipeline. *)
Definition alu_tracks (a : ALUFreeListArray) (last : Z) (past : list ALUAccessRecord) : Prop :=
  newest_first past /\ Forall (fun r => startTick r <= last) past /\
  accessQueue a = base.filter (fun r => last - alu_accessLatency a <= startTick r) past.

(** What [tryAccess] leaves in the queue. *)
Lemma alu_pop a last past t : alu_tracks a last past -> last <= t < 2 ^ 64 -> 0 <= t -> 0 <= alu_accessLatency a < 2 ^ 64 ->
  rev (pop_old (u64 (t - alu_accessLatency a)) (rev (accessQueue a))) =
    base.filter (fun r => t - alu_accessLatency a <= startTick r) (remembered (alu_accessLatency a) t past).
Proof.
  intros (Hs & Hle & ->) Ht H0 Hlat. unfold remembered. rewrite pop_old_filter by (by apply newest_first_filter).
  destruct (Z.ltb_spec t (alu_accessLatency a)).
  - assert (u64 (t - alu_accessLatency a) = t - alu_accessLatency a + 2 ^ 64) as ->.
    { unfold u64, uwrap. symmetry. apply (Z.mod_unique _ _ (-1)); lia. }
    rewrite filter_filter_recent by lia. apply filter_nil_old. eapply Forall_impl; [exact Hle|]. cbn. lia.
  - rewrite (uwrap_small 64) by lia. apply filter_filter_recent. lia.
Qed.

Lemma remembered_Forall (P : ALUAccessRecord -> Prop) lat t past : Forall P past -> Forall P (remembered lat t past).
Proof. intros H. unfold remembered. by destruct (t <? lat). Qed.

Lemma remembered_sorted lat t past : newest_first past -> newest_first (remembered lat t past).
Proof. intros H. unfold remembered. destruct (t <? lat); [constructor|done]. Qed.

Lemma remembered_length lat t past : (length (remembered lat t past) <= length past)%nat.
Proof. unfold remembered. destruct (t <? lat); cbn; lia. Qed.

Lemma alu_guarded_Ok k a last past t addr :
  alu_ok k a -> alu_tracks a last past -> last <= t -> 0 <= t < 2 ^ 64 ->
  0 <= addr < 2 ^ 64 -> Z.of_nat (length past) < 2 ^ 32 ->
  let line := addr - addr mod 2 ^ k in
  let known := remembered (alu_accessLatency a) t past in
  let ok := (count_tick t known <=? numALUs a) && negb (line_busy (alu_accessLatency a) t line known) in
  exists a', alu_guarded t addr a = Ok (ok, a') /\ alu_ok k a' /\ numALUs a' = numALUs a /\
    alu_accessLatency a' = alu_accessLatency a /\
    alu_tracks a' t (if ok then mkALUAccessRecord line t :: known else known).
Proof.
  intros Hok Htr Hl Ht Ha Hlen line known ok. pose proof Hok as (Hn & Hk & Hk' & Hlat).
  unfold alu_guarded, alu_tryAccess. rewrite (alu_pop a last past) by (done || lia). fold known.
  set (q := base.filter _ known). cbv zeta. cbn [accessQueue with_queue].
  assert (length q <= length known)%nat by apply length_filter.
  assert (length known <= length past)%nat by apply remembered_length.
  rewrite (queue_loop_spec t addr _ k) by (cbn; done || lia). cbn [numALUs with_queue].
  unfold q at 1 2. rewrite Z.add_0_l, count_tick_recent, existsb_recent by lia. cbn [obind fst snd].
  fold line. fold ok.
  assert (newest_first known /\ Forall (fun r => startTick r <= t) known) as [Hs Hle].
  { destruct Htr as (Hs & Hle & _). split; [by apply remembered_sorted|]. apply remembered_Forall.
    eapply Forall_impl; [exact Hle|]. intros r Hr. cbn in Hr |- *. lia. }
  destruct ok.
  - unfold alu_reserve. cbn [m_block_size_bits with_queue]. rewrite Hk, makeLineAddress_spec by done.
    cbn [obind]. eexists. split; [done|]. split; [done|]. split; [done|]. split; [done|].
    split; [by constructor|].
    split; [by constructor|]. cbn [accessQueue with_queue alu_accessLatency].
    rewrite filter_cons_True by (cbn; lia). done.
  - eexists. split; [done|]. done.
Qed.

Lemma alu_serve_spec k a last past reqs :
  alu_ok k a -> alu_tracks a last past ->
  StronglySorted (fun p q => p.1 <= q.1) reqs ->
  Forall (fun p => last <= p.1 /\ 0 <= p.1 < 2 ^ 64 /\ 0 <= p.2 < 2 ^ 64) reqs ->
  Z.of_nat (length past + length reqs) < 2 ^ 32 ->
  alu_serve a reqs = Ok (alu_spec (numALUs a) (alu_accessLatency a) k past reqs).
Proof.
  revert a last past. induction reqs as [|[t addr] reqs IH]; intros a last past Hok Htr Hs Hr Hlen; [done|].
  apply Forall_cons in Hr as [(Hl & Ht & Ha) Hr]. apply StronglySorted_inv in Hs as [Hs Hhd].
  cbn in Hl, Ht, Ha, Hlen. cbn [alu_serve alu_spec]. cbv zeta.
  destruct (alu_guarded_Ok k a last past t addr) as (a' & -> & Hok' & En & El & Htr'); [done..|lia|].
  cbn [obind fst snd]. erewrite IH; [cbn [obind]; by rewrite En, El|done|exact Htr'|done| |].
  - rewrite Forall_forall in *. intros p Hp. specialize (Hr p Hp). specialize (Hhd p Hp).
    cbn in Hhd. lia.
  - pose proof (remembered_length (alu_accessLatency a) t past). case_match; cbn [length]; lia.
Qed.

(** ** Properties *)

(** C22 (refinement). From a new array, a controller that reserves only what
    [tryAccess] grants, at ticks that do not decrease, is granted an access
    exactly when at most [numALUs] accesses were granted at the same tick before
    it and its line was not granted within the last [accessLatency] ticks; at a
    tick below the latency all earlier accesses are forgotten first.  This
    diverges from the comments of the code on two points: they say that access
    is blocked when more ALUs would be used than there are, but [numALUs + 1]
    accesses start in one tick; and that a line in the pipeline is blocked, but
    it is granted again at ticks below the latency, where
    [curTick() - accessLatency] wraps. *)
Theorem alu_list_grants num clocks period bytes reqs a :
  0 <= num < 2 ^ 32 -> 0 <= clocks -> 0 <= period -> clocks * period < 2 ^ 64 -> 0 < bytes < 2 ^ 31 ->
  alu_setBlockSize bytes (alu_setClockPeriod period (new_ALUFreeListArray num clocks)) = Ok a ->
  StronglySorted (fun p q => p.1 <= q.1) reqs ->
  Forall (fun p => 0 <= p.1 < 2 ^ 64 /\ 0 <= p.2 < 2 ^ 64) reqs ->
  Z.of_nat (length reqs) < 2 ^ 32 ->
  alu_serve a reqs = Ok (alu_spec num (clocks * period) (Z.log2 bytes) [] reqs).
Proof.
  intros Hn Hc Hp Hov Hb Ha Hs Hr Hlen. unfold alu_setBlockSize in Ha.
  rewrite floorLog2_log2 in Ha by (auto; lia). cbn [obind] in Ha. injection Ha as <-. cbn [alu_setClockPeriod
    new_ALUFreeListArray numALUs accessClocks alu_accessLatency accessQueue m_block_size_bits].
  rewrite (uwrap_small 64) by nia. set (a := mkALUFreeListArray _ _ _ _ _).
  change (alu_serve a reqs = Ok (alu_spec (numALUs a) (alu_accessLatency a) (Z.log2 bytes) [] reqs)).
  assert (Z.log2 bytes < 31) by (apply Z.log2_lt_pow2; lia). pose proof (Z.log2_nonneg bytes).
  apply (alu_serve_spec (Z.log2 bytes) a 0 []); [| |done| |done].
  - repeat split; cbn; lia || nia.
  - repeat split; constructor.
  - eapply Forall_impl; [exact Hr|]. cbn. intros p ?. nia.
Qed.

Lemma alu_list_grants_witness :
  exists a, alu_setBlockSize 64 (alu_setClockPeriod 10 (new_ALUFreeListArray 1 2)) = Ok a /\
    alu_serve a [(7, 0); (9, 0); (22, 0); (100, 0); (100, 64); (100, 128); (110, 8); (121, 0)]
      = Ok [true; true; false; true; true; false; false; true].
Proof.
  destruct (alu_setBlockSize 64 (alu_setClockPeriod 10 (new_ALUFreeListArray 1 2))) as [a|] eqn:E;
    [|vm_compute in E; discriminate].
  exists a. split; [done|].
  rewrite (alu_list_grants 1 2 10 64 [(7, 0); (9, 0); (22, 0); (100, 0); (100, 64); (100, 128); (110, 8); (121, 0)] a);
    [reflexivity|lia..|exact E| | |cbn; lia].
  - repeat (constructor; [|repeat (constructor; [cbn; lia|]); constructor]). constructor.
  - repeat (constructor; [cbn; lia|]). constructor.
Defined.
