(* ===== verification/CacheMemory.v ===== *)
(** The cache array of the Ruby memory system, [src/CacheMemory.cc], with the
    entries of [AbstractCacheEntry.cc].

    A [CacheMemory] holds pointers to entries and replacement data that live in
    the stores of [ReplBase]; the replacement policy is any instance of the
    policy interface.  The state of the model is the cache object together with
    the stores.  The members and virtual functions that the protocol compiler
    adds to an entry are not part of the sources: they are the type [Y] and the
    class [ProtocolEntry]. *)
From stdpp Require Import base gmap list numbers.
From Stdlib Require Import ZArith Lia.
From S2P Require Import Prelude ReplBase.
From S2P Require Import Intmath RubyAddress BankedArray ALUFreeList.
Local Open Scope Z_scope.

(** ** Entries *)
Inductive AccessPermission :=
| Read_Only | Read_Write | Maybe_Stale | Backing_Store | Backing_Store_Busy
| Invalid | NotPresent | Busy.

#[export] Instance AccessPermission_eq_dec : EqDecision AccessPermission.
Proof. solve_decision. Defined.

Record AbstractCacheEntry (Y : Type) := mkAbstractCacheEntry {
  m_last_touch_tick : Z;           (* Tick *)
  validBlocks : option Z;          (* int, not initialised *)
  m_Address : Z;                   (* Addr *)
  m_locked : Z;                    (* int *)
  m_Permission : AccessPermission;
  m_htmInReadSet : bool;
  m_htmInWriteSet : bool;
  members : Y;                     (* of the generated subclass *)
}.
Arguments mkAbstractCacheEntry {Y} _ _ _ _ _ _ _ _.
Arguments m_last_touch_tick {Y} _.
Arguments validBlocks {Y} _.
Arguments m_Address {Y} _.
Arguments m_locked {Y} _.
Arguments m_Permission {Y} _.
Arguments m_htmInReadSet {Y} _.
Arguments m_htmInWriteSet {Y} _.
Arguments members {Y} _.

(** What the generated subclass overrides. *)
Class ProtocolEntry (Y : Type) := {
  pe_initBlockSize : Z -> Y -> Y;
  pe_setRubySystem : Y -> Y;
  pe_has_DataBlk : bool;
  pe_invalidateEntry : Y -> Y;
}.

Section Entry.
Context {Y : Type}.
Implicit Types o : AbstractCacheEntry Y.

Definition new_AbstractCacheEntry (y : Y) : AbstractCacheEntry Y :=
  mkAbstractCacheEntry 0 None 0 (-1) NotPresent false false y.

Definition setLastAccess (tick : Z) o : AbstractCacheEntry Y :=
  mkAbstractCacheEntry tick (validBlocks o) (m_Address o) (m_locked o) (m_Permission o)
    (m_htmInReadSet o) (m_htmInWriteSet o) (members o).
Definition with_Address (a : Z) o : AbstractCacheEntry Y :=
  mkAbstractCacheEntry (m_last_touch_tick o) (validBlocks o) a (m_locked o) (m_Permission o)
    (m_htmInReadSet o) (m_htmInWriteSet o) (members o).
Definition with_locked (c : Z) o : AbstractCacheEntry Y :=
  mkAbstractCacheEntry (m_last_touch_tick o) (validBlocks o) (m_Address o) c (m_Permission o)
    (m_htmInReadSet o) (m_htmInWriteSet o) (members o).
Definition with_Permission (p : AccessPermission) o : AbstractCacheEntry Y :=
  mkAbstractCacheEntry (m_last_touch_tick o) (validBlocks o) (m_Address o) (m_locked o) p
    (m_htmInReadSet o) (m_htmInWriteSet o) (members o).
Definition with_members (y : Y) o : AbstractCacheEntry Y :=
  mkAbstractCacheEntry (m_last_touch_tick o) (validBlocks o) (m_Address o) (m_locked o)
    (m_Permission o) (m_htmInReadSet o) (m_htmInWriteSet o) y.

Definition changePermission (new_perm : AccessPermission) o : AbstractCacheEntry Y :=
  let o := with_Permission new_perm o in
  if bool_decide (new_perm = Invalid) || bool_decide (new_perm = NotPresent)
  then with_locked (-1) o else o.

Definition entry_setLocked (context : Z) o : AbstractCacheEntry Y := with_locked context o.
Definition entry_clearLocked o : AbstractCacheEntry Y := with_locked (-1) o.
Definition entry_isLocked (context : Z) o : bool := m_locked o =? context.

Definition setInHtmReadSet (val : bool) o : AbstractCacheEntry Y :=
  mkAbstractCacheEntry (m_last_touch_tick o) (validBlocks o) (m_Address o) (m_locked o)
    (m_Permission o) val (m_htmInWriteSet o) (members o).
Definition setInHtmWriteSet (val : bool) o : AbstractCacheEntry Y :=
  mkAbstractCacheEntry (m_last_touch_tick o) (validBlocks o) (m_Address o) (m_locked o)
    (m_Permission o) (m_htmInReadSet o) val (members o).
End Entry.

(** ** The cache object *)
Inductive RubyRequestType :=
| LD | ST | ATOMIC | ATOMIC_RETURN | ATOMIC_NO_RETURN | IFETCH | IO | REPLACEMENT
| Load_Linked | Store_Conditional | RMW_Read | RMW_Write | Locked_RMW_Read | Locked_RMW_Write
| COMMIT | NULL | FLUSH | InvL2 | Release | Acquire | AcquireRelease
| HTM_Start | HTM_Commit | HTM_Cancel | HTM_Abort
| TLBI | TLBI_SYNC | TLBI_EXT_SYNC | TLBI_EXT_SYNC_COMP | hasNoAddr.

Inductive CacheRequestType :=
| DataArrayRead | DataArrayWrite | TagArrayRead | TagArrayWrite | AtomicALUOperation.

Inductive CacheResourceType := DataArray | TagArray | AtomicALUArray.

Record CacheMemoryStats := mkStats {
  numDataArrayReads : Z;
  numDataArrayWrites : Z;
  numTagArrayReads : Z;
  numTagArrayWrites : Z;
  numTagArrayStalls : Z;
  numDataArrayStalls : Z;
  numAtomicALUOperations : Z;
  numAtomicALUArrayStalls : Z;
  htmTransCommitReadSet : list Z;  (* the samples of the histograms *)
  htmTransCommitWriteSet : list Z;
  htmTransAbortReadSet : list Z;
  htmTransAbortWriteSet : list Z;
  m_demand_hits : Z;
  m_demand_misses : Z;
  m_prefetch_hits : Z;
  m_prefetch_misses : Z;
}.

Definition new_Stats : CacheMemoryStats := mkStats 0 0 0 0 0 0 0 0 [] [] [] [] 0 0 0 0.

Record CacheMemory := mkCacheMemory {
  m_is_instruction_only_cache : bool;
  m_tag_index : gmap Z Z;
  m_cache : list (list (option loc));
  dataArray : BankedArray;
  tagArray : BankedArray;
  atomicALUArray : ALUFreeListArray;
  m_cache_size : Z;                (* int *)
  m_cache_num_sets : Z;            (* int *)
  m_cache_num_set_bits : Z;        (* int *)
  m_cache_assoc : Z;               (* int *)
  m_start_index_bit : Z;           (* int *)
  m_resource_stalls : bool;
  m_block_size : Z;                (* int *)
  replacement_data : list (list (option loc));
  m_use_occupancy : bool;
  cacheMemoryStats : CacheMemoryStats;
}.

(** The parameters of [RubyCache]. *)
Record RubyCacheParams := mkRubyCacheParams {
  p_size : Z; p_assoc : Z; p_start_index_bit : Z; p_is_icache : bool; p_block_size : Z;
  p_dataArrayBanks : Z; p_dataAccessLatency : Z; p_tagArrayBanks : Z; p_tagAccessLatency : Z;
  p_atomicALUs : Z; p_atomicLatency : Z; p_resourceStalls : bool;
}.

(** The constructor leaves the number of sets and its logarithm indeterminate. *)
Definition new_CacheMemory (p : RubyCacheParams) (weighted : bool) (junk junk_bits : Z) : outcome CacheMemory :=
  let? dataArray := new_BankedArray (p_dataArrayBanks p) (p_dataAccessLatency p) (p_start_index_bit p) in
  let? tagArray := new_BankedArray (p_tagArrayBanks p) (p_tagAccessLatency p) (p_start_index_bit p) in
  let atomicALUArray := new_ALUFreeListArray (p_atomicALUs p) (p_atomicLatency p) in
  Ok (mkCacheMemory (p_is_icache p) ∅ [] dataArray tagArray atomicALUArray (i32 (p_size p)) junk junk_bits
    (p_assoc p) (p_start_index_bit p) (p_resourceStalls p) (i32 (p_block_size p)) [] weighted new_Stats).

(** [setRubySystem], with the clock period and the block size of the system. *)
Definition setRubySystem (clockPeriod block_size : Z) (c : CacheMemory) : outcome CacheMemory :=
  let dataArray := setClockPeriod clockPeriod (dataArray c) in
  let tagArray := setClockPeriod clockPeriod (tagArray c) in
  let alu := alu_setClockPeriod clockPeriod (atomicALUArray c) in
  let? alu := alu_setBlockSize (i32 block_size) alu in
  let m_block_size := if m_block_size c =? 0 then i32 block_size else m_block_size c in
  Ok (mkCacheMemory (m_is_instruction_only_cache c) (m_tag_index c) (m_cache c) dataArray tagArray alu
    (m_cache_size c) (m_cache_num_sets c) (m_cache_num_set_bits c) (m_cache_assoc c) (m_start_index_bit c)
    (m_resource_stalls c) m_block_size (replacement_data c) (m_use_occupancy c) (cacheMemoryStats c)).

Definition with_tags (t : gmap Z Z) (c : CacheMemory) : CacheMemory :=
  mkCacheMemory (m_is_instruction_only_cache c) t (m_cache c) (dataArray c) (tagArray c) (atomicALUArray c)
    (m_cache_size c) (m_cache_num_sets c) (m_cache_num_set_bits c) (m_cache_assoc c) (m_start_index_bit c)
    (m_resource_stalls c) (m_block_size c) (replacement_data c) (m_use_occupancy c) (cacheMemoryStats c).
Definition with_cells (l : list (list (option loc))) (c : CacheMemory) : CacheMemory :=
  mkCacheMemory (m_is_instruction_only_cache c) (m_tag_index c) l (dataArray c) (tagArray c) (atomicALUArray c)
    (m_cache_size c) (m_cache_num_sets c) (m_cache_num_set_bits c) (m_cache_assoc c) (m_start_index_bit c)
    (m_resource_stalls c) (m_block_size c) (replacement_data c) (m_use_occupancy c) (cacheMemoryStats c).
Definition with_repl (l : list (list (option loc))) (c : CacheMemory) : CacheMemory :=
  mkCacheMemory (m_is_instruction_only_cache c) (m_tag_index c) (m_cache c) (dataArray c) (tagArray c)
    (atomicALUArray c) (m_cache_size c) (m_cache_num_sets c) (m_cache_num_set_bits c) (m_cache_assoc c)
    (m_start_index_bit c) (m_resource_stalls c) (m_block_size c) l (m_use_occupancy c) (cacheMemoryStats c).
Definition with_geometry (sets bits : Z) (c : CacheMemory) : CacheMemory :=
  mkCacheMemory (m_is_instruction_only_cache c) (m_tag_index c) (m_cache c) (dataArray c) (tagArray c)
    (atomicALUArray c) (m_cache_size c) sets bits (m_cache_assoc c) (m_start_index_bit c)
    (m_resource_stalls c) (m_block_size c) (replacement_data c) (m_use_occupancy c) (cacheMemoryStats c).
Definition with_resources (d t : BankedArray) (a : ALUFreeListArray) (st : CacheMemoryStats) (c : CacheMemory) :
    CacheMemory :=
  mkCacheMemory (m_is_instruction_only_cache c) (m_tag_index c) (m_cache c) d t a
    (m_cache_size c) (m_cache_num_sets c) (m_cache_num_set_bits c) (m_cache_assoc c) (m_start_index_bit c)
    (m_resource_stalls c) (m_block_size c) (replacement_data c) (m_use_occupancy c) st.
Definition with_stats (st : CacheMemoryStats) (c : CacheMemory) : CacheMemory :=
  with_resources (dataArray c) (tagArray c) (atomicALUArray c) st c.

(** [v[i][j]] and [v[i][j] = x] on a vector of vectors. *)
Definition vget2 {A} (v : list (list A)) (i j : Z) : outcome A :=
  let? row := vget v i in vget row j.
Definition vset2 {A} (v : list (list A)) (i j : Z) (x : A) : outcome (list (list A)) :=
  let? row := vget v i in let? row' := vset row j x in vset v i row'.

(** [CacheMemory::makeLineAddress] and [addressToCacheSet]. *)
Definition cm_makeLineAddress (c : CacheMemory) (addr : Z) : outcome Z :=
  let? b := floorLog2 32 (m_block_size c) in makeLineAddress addr b.

Definition assert_line (c : CacheMemory) (address : Z) : outcome unit :=
  let? line := cm_makeLineAddress c address in ocheck (address =? line) AssertFailed.

Definition addressToCacheSet (c : CacheMemory) (address : Z) : outcome Z :=
  let? _ := assert_line c address in
  let? hi := int_of (m_start_index_bit c + m_cache_num_set_bits c - 1) in
  let? s := bitSelect address (u32 (m_start_index_bit c)) (u32 hi) in
  Ok (i64 s).

(** The operation of [WeightedLRU] that the other policies do not have. *)
Class OccupancyPolicy (P D : Type) :=
  occupancy_touch : option (forall X, loc -> Z -> M (world P D X) unit).

(** The cache and the stores it points into. *)
Record cache_sys (P D Y : Type) := mkSys {
  cm : CacheMemory;
  wd : world P D (AbstractCacheEntry Y);
}.
Arguments mkSys {P D Y} _ _.
Arguments cm {P D Y} _.
Arguments wd {P D Y} _.

(** A record of [CacheRecorder::addRecord]; the data are those of the entry. *)
Record TraceRecord := mkTraceRecord {
  m_cntrl_id : Z; m_time : Z; m_data_address : Z; m_pc_address : Z;
  m_type : RubyRequestType; m_data_of : loc;
}.

Section Operations.
Context {P D Y : Type} `{ReplacementPolicy P D} `{OccupancyPolicy P D} `{ProtocolEntry Y}.
#[local] Abbreviation W := (world P D (AbstractCacheEntry Y)).
#[local] Abbreviation S := (cache_sys P D Y).

Definition onW {A} (m : M W A) : M S A :=
  fun s => match m (wd s) with
    | Ok (a, w') => Ok (a, mkSys (cm s) w')
    | Fault f => Fault f
    end.
Definition ask {A} (f : CacheMemory -> outcome A) : M S A := let* s := getS in lift (f (cm s)).
Definition change (f : CacheMemory -> outcome CacheMemory) : M S unit :=
  fun s => match f (cm s) with Ok c => Ok (tt, mkSys c (wd s)) | Fault e => Fault e end.

(** The members of the entry [e] points to. *)
Definition read_entry (e : loc) : M S (AbstractCacheEntry Y) :=
  onW (let* o := deref_entry e in ret (ext o)).
Definition modify_entry (e : loc) (f : AbstractCacheEntry Y -> AbstractCacheEntry Y) : M S unit :=
  onW (let* o := deref_entry e in write_entry e (mkObject (base o) (f (ext o)))).
Definition touch_lastAccess (e : loc) : M S unit :=
  let* s := getS in modify_entry e (setLastAccess (curTick (wd s))).

Definition cell (set way : Z) : M S (option loc) := ask (fun c => vget2 (m_cache c) set way).

(** [m_replacementPolicy_ptr->instantiateEntry()]. *)
Definition instantiate : M S loc :=
  onW (let* w := getS in
       let* r := lift (rp_instantiateEntry (policy w)) in
       do* modifyS (set_policy r.2) ;;
       alloc_rd r.1).

Definition init : M S unit :=
  let* c := gets cm in
  do* checkM (negb (m_block_size c =? 0)) AssertFailed ;;
  do* checkM (negb (m_cache_assoc c =? 0)) DivByZero ;;
  let* q := lift (int_of (Z.quot (m_cache_size c) (m_cache_assoc c))) in
  let* num_sets := lift (int_of (Z.quot q (m_block_size c))) in
  do* checkM (1 <? num_sets) AssertFailed ;;
  let* num_set_bits := lift (floorLog2 32 num_sets) in
  do* checkM (0 <? num_set_bits) AssertFailed ;;
  let* row := lift (vresize [] (u64 (m_cache_assoc c)) None) in
  let* cells := lift (vresize (m_cache c) num_sets row) in
  let* repl := lift (vresize (replacement_data c) num_sets row) in
  do* change (fun c => Ok (with_repl repl (with_cells cells (with_geometry num_sets num_set_bits c)))) ;;
  foreach (seqZ 0 num_sets) (fun _ i =>
    do* foreach (seqZ 0 (m_cache_assoc c)) (fun _ j =>
      let* r := instantiate in
      do* change (fun c => let? l := vset2 (replacement_data c) i j (Some r) in Ok (with_repl l c)) ;;
      ret (Continue tt)) tt ;;
    ret (Continue tt)) tt.

Definition findTagInSet (cacheSet tag : Z) : M S Z :=
  do* ask (fun c => assert_line c tag) ;;
  let* c := gets cm in
  match m_tag_index c !! tag with
  | Some i =>
      let* p := cell cacheSet i in
      let* e := lift (oget NullDeref p) in
      let* o := read_entry e in
      if bool_decide (m_Permission o = NotPresent) then ret (-1) else ret i
  | None => ret (-1)
  end.

Definition findTagInSetIgnorePermissions (cacheSet tag : Z) : M S Z :=
  do* ask (fun c => assert_line c tag) ;;
  let* c := gets cm in
  match m_tag_index c !! tag with Some i => ret i | None => ret (-1) end.

Definition getAddressAtIdx (idx : Z) : M S Z :=
  let* c := gets cm in
  do* checkM (negb (m_cache_assoc c =? 0)) DivByZero ;;
  let* set := lift (int_of (Z.quot idx (m_cache_assoc c))) in
  do* checkM (set <? m_cache_num_sets c) AssertFailed ;;
  let way := idx - set * m_cache_assoc c in
  do* checkM (way <? m_cache_assoc c) AssertFailed ;;
  let* p := cell set way in
  match p with
  | None => ret 0
  | Some e =>
      let* o := read_entry e in
      if bool_decide (m_Permission o = Invalid) || bool_decide (m_Permission o = NotPresent)
      then ret 0 else ret (m_Address o)
  end.

Definition lookup (address : Z) : M S (option loc) :=
  do* ask (fun c => assert_line c address) ;;
  let* cacheSet := ask (fun c => addressToCacheSet c address) in
  let* l := findTagInSet cacheSet address in
  if l =? -1 then ret None else cell cacheSet l.

(** [&(entry->getDataBlk())]: the block is a member of the entry. *)
Definition getDataBlk (e : loc) : M S loc := if pe_has_DataBlk then ret e else throw Panic.

Definition policy_touch (e : loc) : M S unit :=
  onW (let* o := deref_entry e in
       let* r := lift (oget NullDeref (replacementData (ReplBase.base o))) in rp_touch r).

(** The accesses return their result and the [data_ptr] they set. *)
Definition tryCacheAccess (address : Z) (type : RubyRequestType) : M S (bool * option loc) :=
  let* p := lookup address in
  match p with
  | Some e =>
      do* policy_touch e ;;
      do* touch_lastAccess e ;;
      let* data_ptr := getDataBlk e in
      let* o := read_entry e in
      match m_Permission o, type with
      | Read_Write, _ => ret (true, Some data_ptr)
      | Read_Only, LD | Read_Only, IFETCH => ret (true, Some data_ptr)
      | _, _ => ret (false, None)
      end
  | None => ret (false, None)
  end.

Definition testCacheAccess (address : Z) (type : RubyRequestType) : M S (bool * option loc) :=
  let* p := lookup address in
  match p with
  | Some e =>
      do* policy_touch e ;;
      do* touch_lastAccess e ;;
      let* data_ptr := getDataBlk e in
      let* o := read_entry e in
      ret (negb (bool_decide (m_Permission o = NotPresent)), Some data_ptr)
  | None => ret (false, None)
  end.

Definition isTagPresent (address : Z) : M S bool :=
  let* p := lookup address in ret (bool_decide (is_Some p)).

Definition cacheAvail (address : Z) : M S bool :=
  do* ask (fun c => assert_line c address) ;;
  let* cacheSet := ask (fun c => addressToCacheSet c address) in
  let* c := gets cm in
  foreach (seqZ 0 (m_cache_assoc c)) (fun _ i =>
    let* p := cell cacheSet i in
    match p with
    | Some e =>
        let* o := read_entry e in
        if (m_Address o =? address) || bool_decide (m_Permission o = NotPresent)
        then ret (Break true) else ret (Continue false)
    | None => ret (Break true)
    end) false.

(** Whether the slot is open: null, or an entry that is not present. *)
Definition slot_open (p : option loc) : M S bool :=
  match p with
  | None => ret true
  | Some e => let* o := read_entry e in ret (bool_decide (m_Permission o = NotPresent))
  end.

(** The body of the loop of [allocate], once a slot was found. *)
Definition fill_slot (address : Z) (entry : loc) (cacheSet i : Z) : M S unit :=
  do* change (fun c => let? l := vset2 (m_cache c) cacheSet i (Some entry) in Ok (with_cells l c)) ;;
  do* modify_entry entry (with_Address address) ;;
  do* modify_entry entry (with_Permission Invalid) ;;
  do* modify_entry entry (with_locked (-1)) ;;
  do* change (fun c => Ok (with_tags (<[address := i]> (m_tag_index c)) c)) ;;
  let* r := ask (fun c => vget2 (replacement_data c) cacheSet i) in
  do* onW (let* o := deref_entry entry in
           write_entry entry (mkObject (mkReplaceableEntry (_set (base o)) (_way (base o)) r) (ext o))) ;;
  do* onW (setPosition entry (u32 cacheSet) (u32 i)) ;;
  do* touch_lastAccess entry ;;
  onW (let* r := rd_ptr entry in rp_reset r).

Definition allocate (address : Z) (entry : loc) : M S loc :=
  do* ask (fun c => assert_line c address) ;;
  let* present := isTagPresent address in
  do* checkM (negb present) AssertFailed ;;
  let* avail := cacheAvail address in
  do* checkM avail AssertFailed ;;
  let* c := gets cm in
  do* modify_entry entry (fun o => with_members (pe_initBlockSize (m_block_size c) (members o)) o) ;;
  do* modify_entry entry (fun o => with_members (pe_setRubySystem (members o)) o) ;;
  let* cacheSet := ask (fun c => addressToCacheSet c address) in
  let* found := foreach (seqZ 0 (m_cache_assoc c)) (fun _ i =>
    let* p := cell cacheSet i in
    let* open := slot_open p in
    if open then do* fill_slot address entry cacheSet i ;; ret (Break (Some entry))
    else ret (Continue None)) None in
  lift (oget Panic found).

Definition allocateVoid (address : Z) (entry : loc) : M S unit :=
  do* allocate address entry ;; ret tt.

Definition deallocate (address : Z) : M S unit :=
  let* p := lookup address in
  let* entry := lift (oget AssertFailed p) in
  do* onW (let* r := rd_ptr entry in rp_invalidate r) ;;
  let* cache_set := onW (getSet entry) in
  let* way := onW (getWay entry) in
  do* onW (modifyS (fun w => set_entries (delete entry (entries w)) w)) ;;
  do* change (fun c => let? l := vset2 (m_cache c) cache_set way None in Ok (with_cells l c)) ;;
  change (fun c => Ok (with_tags (delete address (m_tag_index c)) c)).

(** No candidate is null here, after the assertion. *)
Definition cacheProbe (address : Z) : M S Z :=
  do* ask (fun c => assert_line c address) ;;
  let* avail := cacheAvail address in
  do* checkM (negb avail) AssertFailed ;;
  let* cacheSet := ask (fun c => addressToCacheSet c address) in
  let* c := gets cm in
  let* candidates := foreach (seqZ 0 (m_cache_assoc c)) (fun candidates i =>
    let* p := cell cacheSet i in
    let* e := lift (oget NullDeref p) in
    ret (Continue (candidates ++ [e]))) [] in
  let* v := onW (rp_getVictim candidates) in
  let* v := lift (oget NullDeref v) in
  let* way := onW (getWay v) in
  let* p := cell cacheSet way in
  let* e := lift (oget NullDeref p) in
  let* o := read_entry e in
  ret (m_Address o).

Definition setMRU_entry (entry : loc) : M S unit :=
  do* policy_touch entry ;; touch_lastAccess entry.

Definition setMRU (address : Z) : M S unit :=
  let* line := ask (fun c => cm_makeLineAddress c address) in
  let* p := lookup line in
  match p with
  | Some e => do* policy_touch e ;; touch_lastAccess e
  | None => ret tt
  end.

(** Without the member function, the [static_cast] calls into another class. *)
Definition setMRU_occupancy (address occupancy : Z) : M S unit :=
  let* line := ask (fun c => cm_makeLineAddress c address) in
  let* p := lookup line in
  match p with
  | Some e =>
      let* c := gets cm in
      do* (if m_use_occupancy c then
             match occupancy_touch with
             | Some touch => onW (let* r := rd_ptr e in touch _ r occupancy)
             | None => throw Panic
             end
           else policy_touch e) ;;
      touch_lastAccess e
  | None => ret tt
  end.

Definition getReplacementWeight (set loc : Z) : M S Z :=
  let* c := gets cm in
  do* checkM (set <? m_cache_num_sets c) AssertFailed ;;
  do* checkM (loc <? m_cache_assoc c) AssertFailed ;;
  let* p := cell set loc in
  match p with
  | Some e =>
      let* o := read_entry e in
      let* n := lift (oget UninitRead (validBlocks o)) in
      do* checkM (0 <=? n) AssertFailed ;;
      ret n
  | None => ret 0
  end.

(** The kind of request a line is recorded as, if it is. *)
Definition record_type (c : CacheMemory) (perm : AccessPermission) : RubyRequestType :=
  match perm with
  | Read_Only => if m_is_instruction_only_cache c then IFETCH else LD
  | Read_Write => ST
  | _ => NULL
  end.

Definition recordCacheContents (cntrl : Z) : M S (list TraceRecord) :=
  let* c := gets cm in
  foreach (seqZ 0 (m_cache_num_sets c)) (fun recs i =>
    let* recs := foreach (seqZ 0 (m_cache_assoc c)) (fun recs j =>
      let* p := cell i j in
      match p with
      | Some e =>
          let* o := read_entry e in
          match record_type c (m_Permission o) with
          | NULL => ret (Continue recs)
          | t =>
              let* d := getDataBlk e in
              ret (Continue (recs ++ [mkTraceRecord cntrl (m_last_touch_tick o) (m_Address o) 0 t d]))
          end
      | None => ret (Continue recs)
      end) recs in
    ret (Continue recs)) [].

Definition setLocked (address context : Z) : M S unit :=
  let* p := lookup address in
  let* e := lift (oget AssertFailed p) in
  modify_entry e (entry_setLocked context).

Definition clearLocked (address : Z) : M S unit :=
  let* p := lookup address in
  let* e := lift (oget AssertFailed p) in
  modify_entry e entry_clearLocked.

Definition isLocked (address context : Z) : M S bool :=
  let* p := lookup address in
  let* e := lift (oget AssertFailed p) in
  let* o := read_entry e in
  ret (entry_isLocked context o).

(** The loops over every set and way of [m_cache]. *)
Definition foreach_line {A} (body : A -> loc -> M S A) (a : A) : M S A :=
  let* c := gets cm in
  foreach (m_cache c) (fun a set =>
    let* a := foreach set (fun a line =>
      match line with
      | Some e => let* a := body a e in ret (Continue a)
      | None => ret (Continue a)
      end) a in
    ret (Continue a)) a.

Definition clearLockedAll (context : Z) : M S unit :=
  foreach_line (fun _ line =>
    let* o := read_entry line in
    if entry_isLocked context o then modify_entry line entry_clearLocked else ret tt) tt.

(** ** Hardware transactional memory *)
Definition htmAbort_line (sizes : Z * Z) (line : loc) : M S (Z * Z) :=
  let* o := read_entry line in
  let reads := u64 (sizes.1 + if m_htmInReadSet o then 1 else 0) in
  let writes := u64 (sizes.2 + if m_htmInWriteSet o then 1 else 0) in
  do* (if m_htmInWriteSet o
       then modify_entry line (fun o => with_members (pe_invalidateEntry (members o)) o) else ret tt) ;;
  do* modify_entry line (setInHtmWriteSet false) ;;
  do* modify_entry line (setInHtmReadSet false) ;;
  do* modify_entry line entry_clearLocked ;;
  ret (reads, writes).

Definition htmCommit_line (sizes : Z * Z) (line : loc) : M S (Z * Z) :=
  let* o := read_entry line in
  let reads := u64 (sizes.1 + if m_htmInReadSet o then 1 else 0) in
  let writes := u64 (sizes.2 + if m_htmInWriteSet o then 1 else 0) in
  do* modify_entry line (setInHtmWriteSet false) ;;
  do* modify_entry line (setInHtmReadSet false) ;;
  do* modify_entry line entry_clearLocked ;;
  ret (reads, writes).
End Operations.

(** ** Statistics and resources *)
Definition sample_abort (sizes : Z * Z) (st : CacheMemoryStats) : CacheMemoryStats :=
  mkStats (numDataArrayReads st) (numDataArrayWrites st) (numTagArrayReads st) (numTagArrayWrites st)
    (numTagArrayStalls st) (numDataArrayStalls st) (numAtomicALUOperations st) (numAtomicALUArrayStalls st)
    (htmTransCommitReadSet st) (htmTransCommitWriteSet st)
    (htmTransAbortReadSet st ++ [sizes.1]) (htmTransAbortWriteSet st ++ [sizes.2])
    (m_demand_hits st) (m_demand_misses st) (m_prefetch_hits st) (m_prefetch_misses st).
Definition sample_commit (sizes : Z * Z) (st : CacheMemoryStats) : CacheMemoryStats :=
  mkStats (numDataArrayReads st) (numDataArrayWrites st) (numTagArrayReads st) (numTagArrayWrites st)
    (numTagArrayStalls st) (numDataArrayStalls st) (numAtomicALUOperations st) (numAtomicALUArrayStalls st)
    (htmTransCommitReadSet st ++ [sizes.1]) (htmTransCommitWriteSet st ++ [sizes.2])
    (htmTransAbortReadSet st) (htmTransAbortWriteSet st)
    (m_demand_hits st) (m_demand_misses st) (m_prefetch_hits st) (m_prefetch_misses st).
Definition count_request (t : CacheRequestType) (st : CacheMemoryStats) : CacheMemoryStats :=
  mkStats
    (numDataArrayReads st + match t with DataArrayRead => 1 | _ => 0 end)
    (numDataArrayWrites st + match t with DataArrayWrite => 1 | _ => 0 end)
    (numTagArrayReads st + match t with TagArrayRead => 1 | _ => 0 end)
    (numTagArrayWrites st + match t with TagArrayWrite => 1 | _ => 0 end)
    (numTagArrayStalls st) (numDataArrayStalls st)
    (numAtomicALUOperations st + match t with AtomicALUOperation => 1 | _ => 0 end)
    (numAtomicALUArrayStalls st)
    (htmTransCommitReadSet st) (htmTransCommitWriteSet st)
    (htmTransAbortReadSet st) (htmTransAbortWriteSet st)
    (m_demand_hits st) (m_demand_misses st) (m_prefetch_hits st) (m_prefetch_misses st).
Definition count_stall (t : CacheResourceType) (st : CacheMemoryStats) : CacheMemoryStats :=
  mkStats (numDataArrayReads st) (numDataArrayWrites st) (numTagArrayReads st) (numTagArrayWrites st)
    (numTagArrayStalls st + match t with TagArray => 1 | _ => 0 end)
    (numDataArrayStalls st + match t with DataArray => 1 | _ => 0 end)
    (numAtomicALUOperations st)
    (numAtomicALUArrayStalls st + match t with AtomicALUArray => 1 | _ => 0 end)
    (htmTransCommitReadSet st) (htmTransCommitWriteSet st)
    (htmTransAbortReadSet st) (htmTransAbortWriteSet st)
    (m_demand_hits st) (m_demand_misses st) (m_prefetch_hits st) (m_prefetch_misses st).
Definition count_profile (dh dm ph pm : Z) (st : CacheMemoryStats) : CacheMemoryStats :=
  mkStats (numDataArrayReads st) (numDataArrayWrites st) (numTagArrayReads st) (numTagArrayWrites st)
    (numTagArrayStalls st) (numDataArrayStalls st) (numAtomicALUOperations st) (numAtomicALUArrayStalls st)
    (htmTransCommitReadSet st) (htmTransCommitWriteSet st)
    (htmTransAbortReadSet st) (htmTransAbortWriteSet st)
    (m_demand_hits st + dh) (m_demand_misses st + dm) (m_prefetch_hits st + ph) (m_prefetch_misses st + pm).

Section Resources.
Context {P D Y : Type} `{ReplacementPolicy P D} `{OccupancyPolicy P D} `{ProtocolEntry Y}.
#[local] Abbreviation S := (cache_sys P D Y).

Definition on_stats (f : CacheMemoryStats -> CacheMemoryStats) : M S unit :=
  change (fun c => Ok (with_stats (f (cacheMemoryStats c)) c)).

Definition htmAbortTransaction : M S unit :=
  let* sizes := foreach_line htmAbort_line (0, 0) in on_stats (sample_abort sizes).
Definition htmCommitTransaction : M S unit :=
  let* sizes := foreach_line htmCommit_line (0, 0) in on_stats (sample_commit sizes).

Definition profileDemandHit : M S unit := on_stats (count_profile 1 0 0 0).
Definition profileDemandMiss : M S unit := on_stats (count_profile 0 1 0 0).
Definition profilePrefetchHit : M S unit := on_stats (count_profile 0 0 1 0).
Definition profilePrefetchMiss : M S unit := on_stats (count_profile 0 0 0 1).

Definition reserve_data (t addr : Z) (c : CacheMemory) : outcome CacheMemory :=
  let? set := addressToCacheSet c addr in
  let? d := BankedArray.reserve t (dataArray c) set in
  Ok (with_resources d (tagArray c) (atomicALUArray c) (cacheMemoryStats c) c).
Definition reserve_tag (t addr : Z) (c : CacheMemory) : outcome CacheMemory :=
  let? set := addressToCacheSet c addr in
  let? d := BankedArray.reserve t (tagArray c) set in
  Ok (with_resources (dataArray c) d (atomicALUArray c) (cacheMemoryStats c) c).
Definition reserve_alu (t addr : Z) (c : CacheMemory) : outcome CacheMemory :=
  let? a := alu_reserve t addr (atomicALUArray c) in
  Ok (with_resources (dataArray c) (tagArray c) a (cacheMemoryStats c) c).

Definition recordRequestType (requestType : CacheRequestType) (addr : Z) : M S unit :=
  let* s := getS in
  do* (if m_resource_stalls (cm s) then
         change (match requestType with
                 | DataArrayRead | DataArrayWrite => reserve_data (curTick (wd s)) addr
                 | TagArrayRead | TagArrayWrite => reserve_tag (curTick (wd s)) addr
                 | AtomicALUOperation => reserve_alu (curTick (wd s)) addr
                 end)
       else ret tt) ;;
  on_stats (count_request requestType).

Definition checkResourceAvailable (res : CacheResourceType) (addr : Z) : M S bool :=
  let* s := getS in
  if negb (m_resource_stalls (cm s)) then ret true else
  let* ok :=
    match res with
    | TagArray =>
        ask (fun c => let? set := addressToCacheSet c addr in tryAccess (curTick (wd s)) (tagArray c) set)
    | DataArray =>
        ask (fun c => let? set := addressToCacheSet c addr in tryAccess (curTick (wd s)) (dataArray c) set)
    | AtomicALUArray =>
        let* r := ask (fun c => alu_tryAccess (curTick (wd s)) addr (atomicALUArray c)) in
        do* change (fun c => Ok (with_resources (dataArray c) (tagArray c) r.2 (cacheMemoryStats c) c)) ;;
        ret r.1
    end in
  if ok then ret true else do* on_stats (count_stall res) ;; ret false.

Definition isBlockInvalid (cache_set way : Z) : M S bool :=
  let* p := cell cache_set way in
  let* e := lift (oget NullDeref p) in
  let* o := read_entry e in ret (bool_decide (m_Permission o = Invalid)).

Definition isBlockNotBusy (cache_set way : Z) : M S bool :=
  let* p := cell cache_set way in
  let* e := lift (oget NullDeref p) in
  let* o := read_entry e in ret (negb (bool_decide (m_Permission o = Busy))).
End Resources.
