(* ===== verification/CacheMemoryInv.v ===== *)
(** The invariant of the Ruby cache array, and the behaviour of its look-ups.

    A cache in the states its operations leave it in is a finite map from line
    addresses to entries: [contents] reads it off the tag index and the cells.
    The lemmas are proved for any replacement policy that keeps the promises of
    [ReplacementPolicyLaws]. *)
From stdpp Require Import base gmap list numbers.
From Stdlib Require Import ZArith Lia.
From S2P Require Import Prelude ReplBase.
From S2P Require Import Bitfield Intmath RubyAddress BankedArray ALUFreeList CacheMemory.
Local Open Scope Z_scope.

(** ** Vectors of vectors *)
Definition gl {A} (v : list (list A)) (i j : nat) : option A := row ← v !! i; row !! j.
Definition dims {A} (v : list (list A)) (n m : nat) : Prop :=
  length v = n /\ Forall (fun r => length r = m) v.

Section Grids.
Context {A : Type}.
Implicit Types v : list (list A).

Lemma gl_lt v n m i j x : dims v n m -> gl v i j = Some x -> (i < n)%nat /\ (j < m)%nat.
Proof.
  intros [Hn Hm] Hg. unfold gl in Hg. destruct (v !! i) as [row|] eqn:E; [|done]. simpl in Hg.
  apply lookup_lt_Some in Hg. rewrite (Forall_lookup_1 _ _ _ _ Hm E) in Hg.
  apply lookup_lt_Some in E. lia.
Qed.

Lemma gl_is_Some v n m i j : dims v n m -> (i < n)%nat -> (j < m)%nat -> exists x, gl v i j = Some x.
Proof.
  intros [Hn Hm] Hi Hj. destruct (lookup_lt_is_Some_2 v i) as [row E]; [lia|].
  unfold gl. rewrite E. simpl. apply lookup_lt_is_Some_2. by rewrite (Forall_lookup_1 _ _ _ _ Hm E).
Qed.

Lemma vget2_Ok v i j x : gl v i j = Some x -> vget2 v (Z.of_nat i) (Z.of_nat j) = Ok x.
Proof.
  unfold gl, vget2. destruct (v !! i) as [row|] eqn:E; [|done]. simpl. intros Hx.
  rewrite (vget_Ok _ _ row) by (lia || by rewrite Nat2Z.id). cbn [obind].
  apply vget_Ok; [lia|]. by rewrite Nat2Z.id.
Qed.

Definition gset v (i j : nat) (x : A) : list (list A) :=
  match v !! i with Some row => <[i := <[j := x]> row]> v | None => v end.

Lemma gset_dims v n m i j x : dims v n m -> dims (gset v i j x) n m.
Proof.
  intros [Hn Hm]. unfold gset. destruct (v !! i) as [row|] eqn:E; [|done].
  split; [by rewrite length_insert|]. apply Forall_insert; [done|]. rewrite length_insert.
  by eapply (Forall_lookup_1 _ _ _ _ Hm E).
Qed.

Lemma gset_eq v n m i j x : dims v n m -> (i < n)%nat -> (j < m)%nat -> gl (gset v i j x) i j = Some x.
Proof.
  intros Hd Hi Hj. destruct (gl_is_Some v n m i j) as [y Hy]; [done..|].
  unfold gl, gset in *. destruct (v !! i) as [row|] eqn:E; [|done]. simpl in Hy.
  rewrite list_lookup_insert_eq by (by eapply lookup_lt_Some). simpl.
  apply list_lookup_insert_eq. by eapply lookup_lt_Some.
Qed.

Lemma gset_ne v i j i' j' x : i' <> i \/ j' <> j -> gl (gset v i j x) i' j' = gl v i' j'.
Proof.
  intros Hne. unfold gl, gset. destruct (v !! i) as [row|] eqn:E; [|done].
  destruct (decide (i' = i)) as [->|]; [|by rewrite list_lookup_insert_ne].
  rewrite list_lookup_insert_eq by (by eapply lookup_lt_Some). rewrite E. simpl.
  destruct Hne as [?|?]; [done|]. by rewrite list_lookup_insert_ne.
Qed.

Lemma vset2_Ok v n m i j x : dims v n m -> (i < n)%nat -> (j < m)%nat ->
  vset2 v (Z.of_nat i) (Z.of_nat j) x = Ok (gset v i j x).
Proof.
  intros Hd Hi Hj. destruct (gl_is_Some v n m i j) as [y Hy]; [done..|].
  unfold vset2, gset, gl in *. destruct (v !! i) as [row|] eqn:E; [|done]. simpl in Hy.
  rewrite (vget_Ok _ _ row) by (lia || by rewrite Nat2Z.id). cbn [obind].
  apply lookup_lt_Some in Hy, E. rewrite vset_Ok by (unfold vsize; lia). cbn [obind].
  rewrite vset_Ok by (unfold vsize; lia). by rewrite !Nat2Z.id.
Qed.

Lemma gl_replicate n m (x : A) i j y : gl (replicate n (replicate m x)) i j = Some y -> y = x.
Proof.
  unfold gl. destruct (_ !! i) as [row|] eqn:E; [|done]. simpl.
  apply lookup_replicate in E as [-> _]. by intros [-> _]%lookup_replicate.
Qed.
Lemma dims_replicate n m (x : A) : dims (replicate n (replicate m x)) n m.
Proof. split; [by rewrite length_replicate|]. apply Forall_replicate. by rewrite length_replicate. Qed.
End Grids.

(** ** Counted loops *)
(** A loop that only reads and stops at the first index that satisfies [p]. *)
Lemma foreach_exists {S} (n : Z) (body : bool -> Z -> M S (step bool)) (p : nat -> bool) s :
  (forall b j, (j < Z.to_nat n)%nat ->
     body b (Z.of_nat j) s = Ok (if p j then Break true else Continue false, s)) ->
  foreach (seqZ 0 n) body false s = Ok (existsb p (seq 0 (Z.to_nat n)), s).
Proof.
  intros Hb. unfold seqZ.
  assert (forall j, j ∈ seq 0 (Z.to_nat n) -> (j < Z.to_nat n)%nat) as Hl by (intros j; rewrite elem_of_seq; lia).
  revert Hl. generalize (seq 0 (Z.to_nat n)) as l. intros l Hl. induction l as [|j l IH]; [done|].
  cbn [fmap list_fmap foreach existsb]. rewrite Z.add_0_r.
  rewrite (bind_Ok _ _ _ _ _ (Hb false j (Hl j ltac:(left)))).
  destruct (p j); [done|]. apply IH. intros i Hi. apply Hl. by right.
Qed.

(** ** Geometry *)
Definition line_bits (c : CacheMemory) : Z := Z.log2 (m_block_size c).

Record geometry (c : CacheMemory) : Prop := {
  geo_block : 0 < m_block_size c < 2 ^ 31;
  geo_assoc : 0 < m_cache_assoc c < 2 ^ 31;
  geo_sets : 1 < m_cache_num_sets c <= max_sets;
  geo_bits : m_cache_num_set_bits c = Z.log2 (m_cache_num_sets c);
  geo_start : 0 <= m_start_index_bit c /\ m_start_index_bit c + m_cache_num_set_bits c <= 64;
}.

(** A line address, and the set it maps to. *)
Definition is_line (c : CacheMemory) (a : Z) : Prop := 0 <= a < 2 ^ 64 /\ a mod 2 ^ line_bits c = 0.
Definition set_of (c : CacheMemory) (a : Z) : nat :=
  Z.to_nat (field a (m_start_index_bit c + m_cache_num_set_bits c - 1) (m_start_index_bit c)).
Definition ways (c : CacheMemory) : nat := Z.to_nat (m_cache_assoc c).
Definition sets (c : CacheMemory) : nat := Z.to_nat (m_cache_num_sets c).

(** Operations never change the shape of the cache. *)
Definition same_shape (c c' : CacheMemory) : Prop :=
  m_block_size c' = m_block_size c /\ m_cache_assoc c' = m_cache_assoc c /\
  m_cache_num_sets c' = m_cache_num_sets c /\ m_cache_num_set_bits c' = m_cache_num_set_bits c /\
  m_start_index_bit c' = m_start_index_bit c.

Lemma same_shape_views c c' a : same_shape c c' ->
  set_of c' a = set_of c a /\ ways c' = ways c /\ sets c' = sets c /\ (is_line c' a <-> is_line c a).
Proof.
  intros (E1 & E2 & E3 & E4 & E5). unfold set_of, ways, sets, is_line, line_bits. by rewrite E1, E2, E3, E4, E5.
Qed.

#[export] Instance is_line_dec c a : Decision (is_line c a).
Proof. unfold is_line. apply _. Defined.

Section Geometry.
Context (c : CacheMemory) (G : geometry c).

Lemma line_bits_range : 0 <= line_bits c < 31.
Proof.
  destruct G as [Hb _ _ _ _]. unfold line_bits. split; [apply Z.log2_nonneg|].
  apply Z.log2_lt_pow2; lia.
Qed.

Lemma cm_makeLineAddress_Ok a : 0 <= a < 2 ^ 64 ->
  cm_makeLineAddress c a = Ok (a - a mod 2 ^ line_bits c).
Proof.
  intros Ha. pose proof line_bits_range. unfold cm_makeLineAddress. destruct G as [Hb _ _ _ _].
  rewrite floorLog2_log2 by (auto; lia). cbn [obind]. apply makeLineAddress_spec; [done|].
  unfold line_bits in *. lia.
Qed.

Lemma line_of_is_line a : 0 <= a < 2 ^ 64 -> is_line c (a - a mod 2 ^ line_bits c).
Proof.
  intros Ha. pose proof line_bits_range.
  destruct (line_facts a (line_bits c) (a - a mod 2 ^ line_bits c)) as (? & ? & _); [done|lia| |done].
  by rewrite makeLineAddress_spec by lia.
Qed.

Lemma assert_line_Ok a : is_line c a -> assert_line c a = Ok tt.
Proof.
  intros [Ha Hm]. unfold assert_line. rewrite cm_makeLineAddress_Ok by done. cbn [obind].
  rewrite Hm, Z.sub_0_r, Z.eqb_refl. done.
Qed.

Lemma bits_range : 0 < m_cache_num_set_bits c < 30 /\ 2 ^ m_cache_num_set_bits c <= m_cache_num_sets c.
Proof.
  destruct G as [_ _ Hs -> _]. unfold max_sets in Hs. split.
  - split; [apply Z.log2_pos; lia|]. apply Z.log2_lt_pow2; lia.
  - apply Z.log2_spec. lia.
Qed.

Lemma set_of_lt a : (set_of c a < sets c)%nat.
Proof.
  pose proof bits_range. unfold set_of, sets.
  pose proof (field_range a (m_start_index_bit c + m_cache_num_set_bits c - 1) (m_start_index_bit c)) as F.
  replace (m_start_index_bit c + m_cache_num_set_bits c - 1 - m_start_index_bit c + 1)
    with (m_cache_num_set_bits c) in F by lia. lia.
Qed.

Lemma sets_max : Z.of_nat (sets c) <= max_sets.
Proof. destruct G as [_ _ ? _ _]. unfold sets. lia. Qed.

Lemma ways_assoc : Z.of_nat (ways c) = m_cache_assoc c.
Proof. destruct G as [_ ? _ _ _]. unfold ways. lia. Qed.

Lemma addressToCacheSet_Ok a : is_line c a -> addressToCacheSet c a = Ok (Z.of_nat (set_of c a)).
Proof.
  intros Hl. unfold addressToCacheSet. rewrite assert_line_Ok by done. cbn [obind].
  pose proof bits_range. pose proof (set_of_lt a). pose proof sets_max as Hm. unfold max_sets in Hm.
  destruct G as [_ _ _ _ Hs]. rewrite int_of_Ok by lia. cbn [obind].
  rewrite !(uwrap_small 32) by lia. destruct Hl as [Ha _]. rewrite bitSelect_field by lia.
  cbn [obind]. f_equal. unfold set_of in *.
  rewrite Z2Nat.id; [|apply field_range; lia].
  apply swrap_small; [lia|]. split; [|lia]. transitivity 0; [lia|]. apply field_range; lia.
Qed.
End Geometry.

(** ** The invariant *)
Section Invariant.
Context {P D Y : Type} `{RP : ReplacementPolicy P D} {RL : ReplacementPolicyLaws P D}.
Context {OP : OccupancyPolicy P D} {PE : ProtocolEntry Y}.
#[local] Abbreviation S := (cache_sys P D Y).
Implicit Types s : S.

(** The entry of a cell: its position, its replacement data, its address, and
    the tag index agree. *)
Record line_ok s (i j : nat) (e : loc) (o : object (AbstractCacheEntry Y)) (r : loc)
    (rd : ReplacementData D) : Prop := {
  lo_entry : entries (wd s) !! e = Some o;
  lo_base : base o = mkReplaceableEntry (Z.of_nat i) (Z.of_nat j) (Some r);
  lo_repl : gl (replacement_data (cm s)) i j = Some (Some r);
  lo_rd : rds (wd s) !! r = Some rd;
  lo_back : entry rd = Ptr e;
  lo_live : rp_live (data rd) = true;
  lo_line : is_line (cm s) (m_Address (ext o));
  lo_set : set_of (cm s) (m_Address (ext o)) = i;
  lo_tag : m_tag_index (cm s) !! m_Address (ext o) = Some (Z.of_nat j);
  lo_perm : m_Permission (ext o) <> NotPresent;
}.

Record cm_inv s : Prop := {
  inv_geo : geometry (cm s);
  inv_cells : dims (m_cache (cm s)) (sets (cm s)) (ways (cm s));
  inv_repl : dims (replacement_data (cm s)) (sets (cm s)) (ways (cm s));
  inv_rd : forall i j p, gl (replacement_data (cm s)) i j = Some p ->
    exists r, p = Some r /\ is_Some (rds (wd s) !! r);
  inv_inj : forall i j i' j' r, gl (replacement_data (cm s)) i j = Some (Some r) ->
    gl (replacement_data (cm s)) i' j' = Some (Some r) -> i = i' /\ j = j';
  inv_line : forall i j e, gl (m_cache (cm s)) i j = Some (Some e) -> exists o r rd, line_ok s i j e o r rd;
  inv_tag : forall a k, m_tag_index (cm s) !! a = Some k ->
    is_line (cm s) a /\ exists j e o, k = Z.of_nat j /\
      gl (m_cache (cm s)) (set_of (cm s) a) j = Some (Some e) /\
      entries (wd s) !! e = Some o /\ m_Address (ext o) = a;
  inv_bounded : sets_bounded (wd s);
  inv_policy : rp_inv (policy (wd s)) (rp_data (wd s));
}.

(** The finite map a cache stands for. *)
Definition contents s : gmap Z loc :=
  map_imap (fun a k => mjoin (gl (m_cache (cm s)) (set_of (cm s) a) (Z.to_nat k))) (m_tag_index (cm s)).

(** The part of it in one set. *)
Definition lines_of_set s (i : nat) : gmap Z loc :=
  filter (fun p => set_of (cm s) p.1 = i) (contents s).

Lemma contents_Some s a e : cm_inv s ->
  contents s !! a = Some e <->
  exists i j o r rd, gl (m_cache (cm s)) i j = Some (Some e) /\ line_ok s i j e o r rd /\
    m_Address (ext o) = a.
Proof.
  intros I. unfold contents. rewrite map_lookup_imap. split.
  - destruct (m_tag_index (cm s) !! a) as [k|] eqn:Ek; [|done].
    destruct (inv_tag _ I _ _ Ek) as (Hl & j & e' & o & -> & Hg & He & Ha).
    cbn. rewrite Nat2Z.id, Hg. cbn. intros [= <-].
    destruct (inv_line _ I _ _ _ Hg) as (o' & r & rd & L).
    pose proof (lo_entry _ _ _ _ _ _ _ L) as He'. rewrite He in He'. injection He' as <-.
    by eauto 10.
  - intros (i & j & o & r & rd & Hg & L & <-). rewrite (lo_tag _ _ _ _ _ _ _ L). cbn.
    rewrite Nat2Z.id, (lo_set _ _ _ _ _ _ _ L), Hg. done.
Qed.

Lemma contents_line s a e : cm_inv s -> contents s !! a = Some e -> is_line (cm s) a.
Proof.
  intros I (i & j & o & r & rd & _ & L & <-)%contents_Some; [|done]. by eapply lo_line.
Qed.

(** ** Steps of the monad *)
Lemma ask_Ok {A} (f : CacheMemory -> outcome A) s a : f (cm s) = Ok a -> ask f s = Ok (a, s).
Proof. intros E. unfold ask, bind, getS, lift. by rewrite E. Qed.

Lemma onW_Ok {A} (m : M (world P D (AbstractCacheEntry Y)) A) s a w' :
  m (wd s) = Ok (a, w') -> onW m s = Ok (a, mkSys (cm s) w').
Proof. intros E. unfold onW. by rewrite E. Qed.

Lemma onW_read {A} (m : M (world P D (AbstractCacheEntry Y)) A) s a :
  m (wd s) = Ok (a, wd s) -> onW m s = Ok (a, s).
Proof. intros E. rewrite (onW_Ok _ _ _ _ E). by destruct s. Qed.

Lemma read_entry_Ok s e o : entries (wd s) !! e = Some o -> read_entry e s = Ok (ext o, s).
Proof.
  intros E. apply onW_read. by rewrite (bind_Ok _ _ _ _ _ (deref_entry_Ok _ _ _ E)).
Qed.

(** The store with the members of one entry changed. *)
Definition set_ext (e : loc) (o : object (AbstractCacheEntry Y)) (x : AbstractCacheEntry Y)
    (w : world P D (AbstractCacheEntry Y)) : world P D (AbstractCacheEntry Y) :=
  set_entries (<[e := mkObject (base o) x]> (entries w)) w.

Lemma modify_entry_Ok s e o f : entries (wd s) !! e = Some o ->
  modify_entry e f s = Ok (tt, mkSys (cm s) (set_ext e o (f (ext o)) (wd s))).
Proof.
  intros E. apply onW_Ok. by rewrite (bind_Ok _ _ _ _ _ (deref_entry_Ok _ _ _ E)).
Qed.

Lemma cell_Ok s i j p : gl (m_cache (cm s)) i j = Some p -> cell (Z.of_nat i) (Z.of_nat j) s = Ok (p, s).
Proof. intros E. apply ask_Ok. by apply vget2_Ok. Qed.

(** ** Look-ups *)
Lemma findTagInSet_Ok s a : cm_inv s -> is_line (cm s) a ->
  findTagInSet (Z.of_nat (set_of (cm s) a)) a s =
    Ok (match m_tag_index (cm s) !! a with Some k => k | None => -1 end, s).
Proof.
  intros I Hl. unfold findTagInSet.
  rewrite (bind_Ok _ _ _ _ _ (ask_Ok _ s tt (assert_line_Ok _ (inv_geo _ I) _ Hl))).
  rewrite (bind_Ok _ _ s (cm s) s) by done.
  destruct (m_tag_index (cm s) !! a) as [k|] eqn:Ek; [|done].
  destruct (inv_tag _ I _ _ Ek) as (_ & j & e & o & -> & Hg & He & _).
  rewrite (bind_Ok _ _ _ _ _ (cell_Ok _ _ _ _ Hg)). rewrite (bind_Ok _ _ s e s) by done.
  rewrite (bind_Ok _ _ _ _ _ (read_entry_Ok _ _ _ He)).
  destruct (inv_line _ I _ _ _ Hg) as (o' & r & rd & [He' _ _ _ _ _ _ _ _ Hp]).
  rewrite He in He'. injection He' as <-. by rewrite bool_decide_false.
Qed.

Lemma lookup_Ok s a : cm_inv s -> is_line (cm s) a -> lookup a s = Ok (contents s !! a, s).
Proof.
  intros I Hl. pose proof (inv_geo _ I) as G. unfold lookup.
  rewrite (bind_Ok _ _ _ _ _ (ask_Ok _ s tt (assert_line_Ok _ G _ Hl))).
  rewrite (bind_Ok _ _ _ _ _ (ask_Ok _ s _ (addressToCacheSet_Ok _ G _ Hl))).
  rewrite (bind_Ok _ _ _ _ _ (findTagInSet_Ok _ _ I Hl)).
  unfold contents. rewrite map_lookup_imap.
  destruct (m_tag_index (cm s) !! a) as [k|] eqn:Ek; [|done]. cbn [mbind option_bind].
  destruct (inv_tag _ I _ _ Ek) as (_ & j & e & o & -> & Hg & _).
  destruct (Z.eqb_spec (Z.of_nat j) (-1)); [lia|]. rewrite Nat2Z.id, Hg. by apply cell_Ok.
Qed.

Lemma isTagPresent_Ok s a : cm_inv s -> is_line (cm s) a ->
  isTagPresent a s = Ok (bool_decide (is_Some (contents s !! a)), s).
Proof. intros I Hl. unfold isTagPresent. by rewrite (bind_Ok _ _ _ _ _ (lookup_Ok _ _ I Hl)). Qed.

(** Whether some way of a set is empty. *)
Definition has_room s (i : nat) : bool :=
  existsb (fun j => bool_decide (gl (m_cache (cm s)) i j = Some None)) (seq 0 (ways (cm s))).

Lemma has_room_spec s i : has_room s i = true <-> exists j, (j < ways (cm s))%nat /\ gl (m_cache (cm s)) i j = Some None.
Proof.
  unfold has_room. rewrite existsb_exists. split.
  - intros (j & Hj%in_seq & E%bool_decide_eq_true). exists j. split; [lia|done].
  - intros (j & Hj & E). exists j. split; [apply in_seq; lia|]. by apply bool_decide_eq_true.
Qed.

Lemma contents_cell s i j e o : cm_inv s -> gl (m_cache (cm s)) i j = Some (Some e) ->
  entries (wd s) !! e = Some o -> contents s !! m_Address (ext o) = Some e.
Proof.
  intros I Hg He. destruct (inv_line _ I _ _ _ Hg) as (o' & r & rd & L).
  pose proof (lo_entry _ _ _ _ _ _ _ L) as He'. rewrite He in He'. injection He' as <-.
  apply contents_Some; eauto 10.
Qed.

Lemma contents_address s a e o : cm_inv s -> contents s !! a = Some e ->
  entries (wd s) !! e = Some o -> m_Address (ext o) = a.
Proof.
  intros I (i & j & o' & r & rd & _ & L & <-)%contents_Some He; [|done].
  pose proof (lo_entry _ _ _ _ _ _ _ L) as He'. rewrite He in He'. by injection He' as <-.
Qed.

(** An entry is in one cell only. *)
Lemma cell_unique s i j i' j' e : cm_inv s -> gl (m_cache (cm s)) i j = Some (Some e) ->
  gl (m_cache (cm s)) i' j' = Some (Some e) -> i = i' /\ j = j'.
Proof.
  intros I H1 H2. destruct (inv_line _ I _ _ _ H1) as (o & r & rd & [He Hb _ _ _ _ _ _ _ _]).
  destruct (inv_line _ I _ _ _ H2) as (o' & r' & rd' & [He' Hb' _ _ _ _ _ _ _ _]).
  rewrite He in He'. injection He' as <-. rewrite Hb in Hb'. injection Hb'. lia.
Qed.

Lemma cacheAvail_Ok s a : cm_inv s -> is_line (cm s) a ->
  cacheAvail a s = Ok (bool_decide (is_Some (contents s !! a)) || has_room s (set_of (cm s) a), s).
Proof.
  intros I Hl. pose proof (inv_geo _ I) as G. unfold cacheAvail.
  rewrite (bind_Ok _ _ _ _ _ (ask_Ok _ s tt (assert_line_Ok _ G _ Hl))).
  rewrite (bind_Ok _ _ _ _ _ (ask_Ok _ s _ (addressToCacheSet_Ok _ G _ Hl))).
  rewrite (bind_Ok _ _ s (cm s) s) by done. set (i := set_of (cm s) a).
  set (p := fun j => match gl (m_cache (cm s)) i j with
    | Some (Some e) => bool_decide (contents s !! a = Some e) | _ => true end).
  rewrite (foreach_exists _ _ p).
  - f_equal. f_equal. apply eq_true_iff_eq. rewrite orb_true_iff, bool_decide_eq_true, has_room_spec, existsb_exists.
    fold (ways (cm s)). split.
    + intros (j & Hj%in_seq & Hp). unfold p in Hp.
      destruct (gl_is_Some _ _ _ i j (inv_cells _ I)) as [c Hc]; [by apply set_of_lt|lia|].
      rewrite Hc in Hp. destruct c as [e|].
      * left. apply bool_decide_eq_true in Hp. eauto.
      * right. exists j. split; [lia|done].
    + intros [[e He]|(j & Hj & Hn)].
      * pose proof He as (i' & j & o & r & rd & Hg & L & Ea)%contents_Some; [|done].
        exists j. destruct (gl_lt _ _ _ _ _ _ (inv_cells _ I) Hg). split; [apply in_seq; lia|].
        unfold p, i. rewrite <- Ea at 1. rewrite (lo_set _ _ _ _ _ _ _ L), Hg. by apply bool_decide_eq_true.
      * exists j. split; [apply in_seq; lia|]. unfold p. by rewrite Hn.
  - intros b j Hj. fold (ways (cm s)) in Hj.
    destruct (gl_is_Some _ _ _ i j (inv_cells _ I)) as [c Hc]; [by apply set_of_lt|done|].
    rewrite (bind_Ok _ _ _ _ _ (cell_Ok _ _ _ _ Hc)). unfold p. rewrite Hc. destruct c as [e|]; [|done].
    destruct (inv_line _ I _ _ _ Hc) as (o & r & rd & L). pose proof (lo_entry _ _ _ _ _ _ _ L) as He.
    rewrite (bind_Ok _ _ _ _ _ (read_entry_Ok _ _ _ He)).
    rewrite (bool_decide_false _ (lo_perm _ _ _ _ _ _ _ L)), orb_false_r.
    destruct (Z.eqb_spec (m_Address (ext o)) a) as [E|E].
    + rewrite bool_decide_true; [done|]. rewrite <- E. by eapply contents_cell.
    + rewrite bool_decide_false; [done|]. intros E'. apply E. by eapply contents_address.
Qed.

(** The entries of a set, in the order of its ways. *)
Definition row_entries s (i : nat) : list loc := omap id (default [] (m_cache (cm s) !! i)).

Lemma elem_of_row s i e : e ∈ row_entries s i <-> exists j, gl (m_cache (cm s)) i j = Some (Some e).
Proof.
  unfold row_entries, gl. rewrite list_elem_of_omap. destruct (m_cache (cm s) !! i) as [row|]; cbn.
  - split.
    + intros (x & [j Hj]%list_elem_of_lookup_1 & E). exists j. by rewrite Hj; unfold id in E; subst.
    + intros [j Hj]. exists (Some e). split; [by eapply list_elem_of_lookup_2|done].
  - split; [intros (x & ?%not_elem_of_nil & _); done|]. by intros [j ?].
Qed.

Lemma row_NoDup s i : cm_inv s -> NoDup (row_entries s i).
Proof.
  intros I. unfold row_entries.
  assert (forall j j' e, default [] (m_cache (cm s) !! i) !! j = Some (Some e) ->
    default [] (m_cache (cm s) !! i) !! j' = Some (Some e) -> j = j') as Hu.
  { intros j j' e H1 H2. eapply (cell_unique s i j i j' e I); unfold gl;
      destruct (m_cache (cm s) !! i); done. }
  revert Hu. generalize (default [] (m_cache (cm s) !! i)) as row. clear I.
  induction row as [|[e|] row IH]; intros Hu; cbn; [constructor| |].
  - constructor.
    + intros ([e'|] & [j Hj]%list_elem_of_lookup_1 & E)%list_elem_of_omap; [|done]. injection E as ->.
      by specialize (Hu 0%nat (Datatypes.S j) e eq_refl Hj).
    + apply IH. intros j j' e' H1 H2. by specialize (Hu (Datatypes.S j) (Datatypes.S j') e' H1 H2); injection Hu.
  - apply IH. intros j j' e' H1 H2. by specialize (Hu (Datatypes.S j) (Datatypes.S j') e' H1 H2); injection Hu.
Qed.

Lemma lines_of_set_Some s i a e :
  lines_of_set s i !! a = Some e <-> contents s !! a = Some e /\ set_of (cm s) a = i.
Proof. unfold lines_of_set. by rewrite map_lookup_filter_Some. Qed.

Lemma size_lines_of_set s i : cm_inv s -> size (lines_of_set s i) = length (row_entries s i).
Proof.
  intros I. rewrite <- (length_map_to_list (lines_of_set s i)), <- (length_fmap snd).
  apply Permutation_length, NoDup_Permutation; [|by apply row_NoDup|].
  - apply NoDup_fmap_2_strong; [|apply NoDup_map_to_list].
    intros [a e] [a' e'] H1%elem_of_map_to_list H2%elem_of_map_to_list E. cbn in E. subst e'.
    apply lines_of_set_Some in H1 as [H1 _], H2 as [H2 _]. f_equal.
    pose proof H1 as (? & ? & o & ? & ? & _ & L & <-)%contents_Some; [|done].
    eapply contents_address; [done|exact H2|]. by eapply lo_entry.
  - intros e. rewrite elem_of_row, list_elem_of_fmap. split.
    + intros ([a e'] & -> & H1%elem_of_map_to_list). cbn. apply lines_of_set_Some in H1 as [H1 Hs].
      apply contents_Some in H1 as (i' & j & o & r & rd & Hg & L & <-); [|done].
      rewrite (lo_set _ _ _ _ _ _ _ L) in Hs. subst i'. eauto.
    + intros [j Hg]. destruct (inv_line _ I _ _ _ Hg) as (o & r & rd & L).
      exists (m_Address (ext o), e). split; [done|]. apply elem_of_map_to_list, lines_of_set_Some.
      split; [|by eapply lo_set]. eapply contents_cell; [done..|]. by eapply lo_entry.
Qed.

Lemma omap_id_lt {A} (row : list (option A)) : (length (omap id row) < length row)%nat <-> None ∈ row.
Proof.
  assert (forall r : list (option A), length (omap id r) <= length r)%nat as Hle.
  { intros r. induction r as [|[a|] r IH]; cbn; lia. }
  induction row as [|[a|] row IH]; cbn; [split; [lia|by intros ?%not_elem_of_nil]| |].
  - rewrite elem_of_cons, <- IH. split; [right; lia|]. intros [?|?]; [done|lia].
  - split; [intros _; left|]. intros _. specialize (Hle row). lia.
Qed.

Lemma has_room_count s i : cm_inv s -> (i < sets (cm s))%nat ->
  has_room s i = bool_decide (size (lines_of_set s i) < ways (cm s))%nat.
Proof.
  intros I Hi. rewrite size_lines_of_set by done. apply eq_true_iff_eq.
  rewrite has_room_spec, bool_decide_eq_true. destruct (inv_cells _ I) as [Hn Hm].
  destruct (lookup_lt_is_Some_2 (m_cache (cm s)) i) as [row Hr]; [lia|].
  unfold row_entries, gl. rewrite Hr. cbn [default mbind option_bind].
  rewrite <- (Forall_lookup_1 _ _ _ _ Hm Hr), omap_id_lt. split.
  - intros (j & _ & Hj). by eapply list_elem_of_lookup_2.
  - intros [j Hj]%list_elem_of_lookup_1. exists j. split; [by eapply lookup_lt_Some|done].
Qed.

End Invariant.
