(* ===== verification/CacheMemoryOps.v ===== *)
(** The state-changing operations of the Ruby cache array: what each does to the
    finite map of [CacheMemoryInv] and that it keeps the invariant.

    [deallocate], [cacheProbe] and the accesses always return; [allocate] returns
    exactly when the [reset] of the policy does (the one of ARC may stop). *)
From stdpp Require Import base gmap list numbers.
From Stdlib Require Import ZArith Lia.
From S2P Require Import Prelude ReplBase.
From S2P Require Import Bitfield Intmath RubyAddress BankedArray ALUFreeList CacheMemory CacheMemoryInv.
Local Open Scope Z_scope.

(** ** Loops that act at the first index that satisfies a test *)
Lemma foreach_first {S A} (n : Z) (body : A -> Z -> M S (step A)) (p : nat -> bool) (a0 : A) s j0 :
  (forall j, (j < Z.to_nat n)%nat -> p j = false -> body a0 (Z.of_nat j) s = Ok (Continue a0, s)) ->
  (j0 < Z.to_nat n)%nat -> (forall j, (j < j0)%nat -> p j = false) ->
  match body a0 (Z.of_nat j0) s with
  | Ok (Break b, s') => foreach (seqZ 0 n) body a0 s = Ok (b, s')
  | Ok (Continue _, _) => True
  | Fault f => foreach (seqZ 0 n) body a0 s = Fault f
  end.
Proof.
  intros Hc Hj Hp. unfold seqZ.
  assert (seq 0 (Z.to_nat n) = seq 0 j0 ++ j0 :: seq (Datatypes.S j0) (Z.to_nat n - j0 - 1)) as ->.
  { replace (Z.to_nat n) with (j0 + Datatypes.S (Z.to_nat n - j0 - 1))%nat at 1 by lia. by rewrite seq_app. }
  assert (forall m l, (m + length l <= j0)%nat -> l = seq m (length l) -> forall rest,
    foreach ((fun i : nat => Z.of_nat i + 0) <$> (l ++ rest)) body a0 s =
    foreach ((fun i : nat => Z.of_nat i + 0) <$> rest) body a0 s) as Hskip.
  { intros m l. revert m. induction l as [|j l IH]; intros m Hm El rest; [done|].
    cbn [length seq] in *. injection El as -> El. cbn [app fmap list_fmap foreach].
    rewrite Z.add_0_r. rewrite (bind_Ok _ _ _ _ _ (Hc m ltac:(lia) (Hp m ltac:(lia)))).
    apply (IH (Datatypes.S m)); [lia|done]. }
  rewrite (Hskip 0%nat (seq 0 j0)) by (rewrite ?length_seq; done || lia).
  cbn [fmap list_fmap foreach]. rewrite Z.add_0_r. unfold bind.
  destruct (body a0 (Z.of_nat j0) s) as [[[b|b] s']|f]; done.
Qed.

(** Loops that collect a list. *)
Lemma foreach_collect {S A} (n : Z) (body : list A -> Z -> M S (step (list A))) (f : nat -> A) s acc :
  (forall acc j, (j < Z.to_nat n)%nat -> body acc (Z.of_nat j) s = Ok (Continue (acc ++ [f j]), s)) ->
  foreach (seqZ 0 n) body acc s = Ok (acc ++ (f <$> seq 0 (Z.to_nat n)), s).
Proof.
  intros Hb. unfold seqZ.
  assert (forall j, j ∈ seq 0 (Z.to_nat n) -> (j < Z.to_nat n)%nat) as Hl by (intros j; rewrite elem_of_seq; lia).
  revert acc Hl. generalize (seq 0 (Z.to_nat n)) as l.
  induction l as [|j l IH]; intros acc Hl; [by rewrite app_nil_r|].
  cbn [fmap list_fmap foreach]. rewrite Z.add_0_r.
  rewrite (bind_Ok _ _ _ _ _ (Hb acc j (Hl j ltac:(left)))).
  rewrite IH by (intros i Hi; apply Hl; by right). by rewrite <- app_assoc.
Qed.

Lemma first_index (p : nat -> bool) n : existsb p (seq 0 n) = true ->
  exists j, (j < n)%nat /\ p j = true /\ forall j', (j' < j)%nat -> p j' = false.
Proof.
  induction n as [|n IH]; [done|]. rewrite seq_S, existsb_app. cbn.
  destruct (existsb p (seq 0 n)) eqn:E.
  - intros _. destruct (IH eq_refl) as (j & ? & ? & ?). exists j. split; [lia|done].
  - rewrite orb_false_r. cbn. intros Hp. exists n. split; [lia|]. split; [done|]. intros j' Hj'.
    destruct (p j') eqn:Ep; [|done]. exfalso. rewrite <- not_true_iff_false in E. apply E.
    apply existsb_exists. exists j'. split; [apply in_seq; lia|done].
Qed.

Section Operations.
Context {P D Y : Type} `{RP : ReplacementPolicy P D} {RL : ReplacementPolicyLaws P D}.
Context {OP : OccupancyPolicy P D} {PE : ProtocolEntry Y}.
#[local] Abbreviation S := (cache_sys P D Y).
#[local] Abbreviation W := (world P D (AbstractCacheEntry Y)).
Implicit Types (s : S) (w : W).

(** ** Steps of the policy *)

Lemma rp_data_inv w r d : rp_data w !! r = Some d -> exists rd, rds w !! r = Some rd /\ data rd = d.
Proof.
  unfold rp_data. rewrite lookup_fmap. destruct (rds w !! r) as [rd|]; [|done]. intros [= <-]. eauto.
Qed.

Lemma frame_rd w w' r rd : frame w w' -> rds w !! r = Some rd ->
  exists rd', rds w' !! r = Some rd' /\ entry rd' = entry rd.
Proof.
  intros (_ & He & _) Hr. apply (f_equal (fun m => m !! r)) in He. rewrite !lookup_fmap, Hr in He.
  destruct (rds w' !! r) as [rd'|]; [|done]. injection He as He. eauto.
Qed.

Lemma frame_bounded w w' : frame w w' -> sets_bounded w -> sets_bounded w'.
Proof. intros (He & _ & _). unfold sets_bounded. by rewrite He. Qed.

(** The data of the cached lines are live after the step. *)
Definition keeps_lines s w' : Prop :=
  forall i j e o r rd, gl (m_cache (cm s)) i j = Some (Some e) -> line_ok s i j e o r rd ->
    exists d', rp_data w' !! r = Some d' /\ rp_live d' = true.

Lemma inv_frame s w' : cm_inv s -> frame (wd s) w' -> rp_inv (policy w') (rp_data w') ->
  keeps_lines s w' -> cm_inv (mkSys (cm s) w').
Proof.
  intros I F HP HK. pose proof F as (He & _ & _). destruct I as [G C R Hrd Hinj Hline Htag Hb _].
  constructor; cbn; try done.
  - intros i j p Hp. destruct (Hrd _ _ _ Hp) as (r & -> & [rd Hr]).
    exists r. split; [done|]. destruct (frame_rd _ _ _ _ F Hr) as (rd' & ? & _). eauto.
  - intros i j e Hg. destruct (Hline _ _ _ Hg) as (o & r & rd & L).
    destruct (HK _ _ _ _ _ _ Hg L) as (d' & Hd' & Hl).
    apply rp_data_inv in Hd' as (rd' & Hr' & <-).
    destruct L as [? ? ? Hr ? ? ? ? ? ?]. destruct (frame_rd _ _ _ _ F Hr) as (rd'' & Hr'' & Eb).
    rewrite Hr' in Hr''. injection Hr'' as <-. exists o, r, rd'.
    constructor; cbn; try done; [by rewrite He|by rewrite Eb].
  - intros a k Hk. rewrite He. eauto.
  - by eapply frame_bounded.
Qed.

(** [touch] on the data of a cached line. *)
Lemma policy_touch_Ok s i j e : cm_inv s -> gl (m_cache (cm s)) i j = Some (Some e) ->
  exists w', policy_touch e s = Ok (tt, mkSys (cm s) w') /\ frame (wd s) w' /\ cm_inv (mkSys (cm s) w').
Proof.
  intros I Hg. destruct (inv_line _ I _ _ _ Hg) as (o & r & rd & L).
  destruct (rp_touch_total _ (wd s) r) as [w' Hw]; [by rewrite (lo_rd _ _ _ _ _ _ _ L)|].
  assert (rp_update r (wd s) w') as U by (by apply upd_touch).
  destruct (rp_frame _ _ _ _ U) as [F Ho]. exists w'. split; [|split; [done|]].
  - apply onW_Ok. rewrite (bind_Ok _ _ _ _ _ (deref_entry_Ok _ _ _ (lo_entry _ _ _ _ _ _ _ L))).
    rewrite (lo_base _ _ _ _ _ _ _ L). done.
  - apply inv_frame; [done..| |].
    + eapply rp_inv_pres; [by apply inv_bounded|by apply inv_policy|exact U].
    + intros i' j' e' o' r' rd' Hg' L'. destruct (decide (r' = r)) as [->|Hne].
      * eapply rp_touch_live; [exact Hw|apply rp_data_lookup, (lo_rd _ _ _ _ _ _ _ L')|by eapply lo_live].
      * exists (data rd'). split; [|by eapply lo_live].
        unfold rp_data. rewrite lookup_fmap, Ho by done. by rewrite (lo_rd _ _ _ _ _ _ _ L').
Qed.

(** ** Writes to a cached entry that keep its address *)
Lemma set_ext_inv s i j e o x : cm_inv s -> gl (m_cache (cm s)) i j = Some (Some e) ->
  entries (wd s) !! e = Some o -> m_Address x = m_Address (ext o) -> m_Permission x <> NotPresent ->
  cm_inv (mkSys (cm s) (set_ext e o x (wd s))).
Proof.
  intros I Hg He Ha Hp. pose proof (fun i' j' => cell_unique s i' j' i j e I) as Hu.
  destruct I as [G C R Hrd Hinj Hline Htag Hb HP].
  constructor; cbn; try done.
  - intros i' j' e' Hg'. destruct (Hline _ _ _ Hg') as (o' & r & rd & L). destruct (decide (e' = e)) as [->|Hne].
    + exists (mkObject (base o) x), r, rd. destruct L as [He' ? ? ? ? ? ? ? ? ?].
      rewrite He in He'. injection He' as <-.
      constructor; cbn; rewrite ?Ha; try done. by rewrite lookup_insert_eq.
    + exists o', r, rd. destruct L. constructor; cbn; try done. by rewrite lookup_insert_ne.
  - intros a k Hk. destruct (Htag _ _ Hk) as (Hl & j' & e' & o' & -> & Hg' & He' & Ea). split; [done|].
    destruct (decide (e' = e)) as [->|Hne].
    + exists j', e, (mkObject (base o) x). rewrite lookup_insert_eq. rewrite He in He'. injection He' as <-.
      cbn. rewrite Ha. done.
    + exists j', e', o'. by rewrite lookup_insert_ne.
  - apply map_Forall_insert_2; [|done]. cbn. by apply (Hb e o).
Qed.

Lemma contents_set_ext s e o x : contents (mkSys (cm s) (set_ext e o x (wd s))) = contents s.
Proof. done. Qed.

(** ** [deallocate] *)
Lemma geometry_cells c t l : geometry c -> geometry (with_tags t (with_cells l c)).
Proof. intros []. by constructor. Qed.

Lemma change_Ok (f : CacheMemory -> outcome CacheMemory) s c :
  f (cm s) = Ok c -> change (P := P) (D := D) (Y := Y) f s = Ok (tt, mkSys c (wd s)).
Proof. intros E. unfold change. by rewrite E. Qed.

Lemma rd_ptr_line s i j e o r rd : line_ok s i j e o r rd -> rd_ptr e (wd s) = Ok (r, wd s).
Proof.
  intros L. unfold rd_ptr. rewrite (bind_Ok _ _ _ _ _ (deref_entry_Ok _ _ _ (lo_entry _ _ _ _ _ _ _ L))).
  by rewrite (lo_base _ _ _ _ _ _ _ L).
Qed.

(** The state with one line taken out. *)
Definition removed s (a : Z) (i j : nat) (e : loc) w1 : S :=
  mkSys (with_tags (delete a (m_tag_index (cm s))) (with_cells (gset (m_cache (cm s)) i j None) (cm s)))
    (set_entries (delete e (entries w1)) w1).

Lemma removed_inv s a i j e o r rd w1 :
  cm_inv s -> gl (m_cache (cm s)) i j = Some (Some e) -> line_ok s i j e o r rd -> m_Address (ext o) = a ->
  rp_update r (wd s) w1 ->
  cm_inv (removed s a i j e w1) /\ contents (removed s a i j e w1) = delete a (contents s).
Proof.
  intros I Hg L Ea U. destruct (rp_frame _ _ _ _ U) as [F Ho]. pose proof F as (Een & _ & _).
  assert (forall i' j' e' o' r' rd', gl (gset (m_cache (cm s)) i j None) i' j' = Some (Some e') ->
    gl (m_cache (cm s)) i' j' = Some (Some e') /\ (i' <> i \/ j' <> j) /\ e' <> e /\
    (line_ok s i' j' e' o' r' rd' -> r' <> r /\ m_Address (ext o') <> a)) as Hcell.
  { intros i' j' e' o' r' rd' Hg'. destruct (gl_lt _ _ _ _ _ _ (inv_cells _ I) Hg).
    assert (i' <> i \/ j' <> j) as Hne.
    { destruct (decide (i' = i)) as [->|]; [|by left]. destruct (decide (j' = j)) as [->|]; [|by right].
      rewrite (gset_eq _ (sets (cm s)) (ways (cm s))) in Hg'; [done|apply I|done..]. }
    rewrite gset_ne in Hg' by done. split; [done|]. split; [done|]. split.
    - intros ->. destruct (cell_unique _ _ _ _ _ _ I Hg Hg'). lia.
    - intros L'. split.
      + intros ->. destruct (inv_inj _ I _ _ _ _ _ (lo_repl _ _ _ _ _ _ _ L) (lo_repl _ _ _ _ _ _ _ L')). lia.
      + intros E. pose proof (lo_tag _ _ _ _ _ _ _ L) as T. pose proof (lo_tag _ _ _ _ _ _ _ L') as T'.
        pose proof (lo_set _ _ _ _ _ _ _ L) as T2. pose proof (lo_set _ _ _ _ _ _ _ L') as T2'.
        rewrite E in T', T2'. rewrite Ea in T, T2. rewrite T in T'. injection T'. lia. }
  split.
  - pose proof I as [G C R Hrd Hinj Hline Htag Hb HP]. constructor; cbn; try done.
    + by apply geometry_cells.
    + by apply gset_dims.
    + intros i' j' p Hp. destruct (Hrd _ _ _ Hp) as (r' & -> & [rd' Hr']). exists r'. split; [done|].
      destruct (frame_rd _ _ _ _ F Hr') as (? & ? & _). eauto.
    + intros i' j' e' Hg'. destruct (Hcell _ _ _ o r rd Hg') as (Hg0 & _ & Hne & _).
      destruct (Hline _ _ _ Hg0) as (o' & r' & rd' & L').
      destruct (Hcell _ _ _ o' r' rd' Hg') as (_ & _ & _ & HL). destruct (HL L') as [Hr Ha].
      exists o', r', rd'. destruct L' as [? ? ? ? ? ? ? ? ? ?].
      constructor; cbn; try done; [by rewrite lookup_delete_ne, Een|by rewrite Ho|by rewrite lookup_delete_ne].
    + intros a' k [Hne Hk]%lookup_delete_Some. destruct (Htag _ _ Hk) as (Hl & j' & e' & o' & -> & Hg' & He' & Ea').
      split; [done|]. assert (e' <> e) as Hee.
      { intros ->. rewrite (lo_entry _ _ _ _ _ _ _ L) in He'. injection He' as <-. by subst. }
      exists j', e', o'. split; [done|]. split; [|by rewrite lookup_delete_ne, Een].
      rewrite gset_ne; [done|]. destruct (decide (set_of (cm s) a' = i)) as [<-|]; [|by left].
      right. intros ->. rewrite Hg in Hg'. by injection Hg' as <-.
    + apply map_Forall_delete. rewrite Een. done.
    + eapply rp_inv_pres; [exact Hb|exact HP|exact U].
  - apply map_eq. intros a'. unfold contents, removed. cbn. rewrite map_lookup_imap.
    destruct (decide (a' = a)) as [->|Hne]; [by rewrite !lookup_delete_eq|].
    rewrite !lookup_delete_ne, map_lookup_imap by done.
    destruct (m_tag_index (cm s) !! a') as [k|] eqn:Ek; [|done]. cbn.
    destruct (inv_tag _ I _ _ Ek) as (_ & j' & e' & o' & -> & Hg' & He' & Ea'). rewrite Nat2Z.id.
    f_equal. apply gset_ne. destruct (decide (set_of (cm s) a' = i)) as [<-|]; [|by left].
    right. intros ->. rewrite Hg in Hg'. injection Hg' as <-.
    rewrite (lo_entry _ _ _ _ _ _ _ L) in He'. injection He' as <-. by subst.
Qed.

Lemma deallocate_Ok s a e : cm_inv s -> contents s !! a = Some e ->
  exists s', deallocate a s = Ok (tt, s') /\ cm_inv s' /\ contents s' = delete a (contents s) /\
    entries (wd s') = delete e (entries (wd s)) /\
    (exists r, cand_rd (wd s) e = Some r /\ exists w1, rp_invalidate r (wd s) = Ok (tt, w1) /\
       policy (wd s') = policy w1 /\ rds (wd s') = rds w1) /\ same_shape (cm s) (cm s').
Proof.
  intros I Hc. pose proof (contents_line _ _ _ I Hc) as Hl.
  pose proof Hc as (i & j & o & r & rd & Hg & L & Ea)%contents_Some; [|done].
  destruct (rp_invalidate_total _ (wd s) r) as [w1 Hw]; [by rewrite (lo_rd _ _ _ _ _ _ _ L)|].
  assert (rp_update r (wd s) w1) as U by (by apply upd_invalidate).
  destruct (rp_frame _ _ _ _ U) as [(Een & _ & _) _].
  destruct (gl_lt _ _ _ _ _ _ (inv_cells _ I) Hg) as [Hi Hj].
  destruct (removed_inv _ _ _ _ _ _ _ _ _ I Hg L Ea U) as [I' C'].
  exists (removed s a i j e w1). split; [|split; [done|split; [done|]]].
  - unfold deallocate. rewrite (bind_Ok _ _ _ _ _ (lookup_Ok _ _ I Hl)), Hc.
    rewrite (bind_Ok _ _ s e s) by done.
    rewrite (bind_Ok _ _ s tt (mkSys (cm s) w1)).
    2:{ apply onW_Ok. by rewrite (bind_Ok _ _ _ _ _ (rd_ptr_line _ _ _ _ _ _ _ L)). }
    assert (entries (wd (mkSys (cm s) w1)) !! e = Some o) as He'
      by (cbn; rewrite Een; by eapply lo_entry).
    rewrite (bind_Ok _ _ _ (Z.of_nat i) (mkSys (cm s) w1)).
    2:{ apply onW_read. rewrite (getSet_Ok _ _ _ He'), (lo_base _ _ _ _ _ _ _ L). done. }
    rewrite (bind_Ok _ _ _ (Z.of_nat j) (mkSys (cm s) w1)).
    2:{ apply onW_read. unfold getWay. rewrite (bind_Ok _ _ _ _ _ (deref_entry_Ok _ _ _ He')).
        by rewrite (lo_base _ _ _ _ _ _ _ L). }
    rewrite (bind_Ok _ _ _ _ _ (onW_Ok _ _ tt _ eq_refl)). cbn.
    erewrite bind_Ok; [|apply change_Ok; cbn; erewrite vset2_Ok; [reflexivity|apply I|done..]].
    erewrite change_Ok; [|reflexivity]. done.
  - split; [by cbn; rewrite Een|]. split; [|done]. exists r. split; [|by exists w1].
    unfold cand_rd. rewrite (lo_entry _ _ _ _ _ _ _ L). cbn. by rewrite (lo_base _ _ _ _ _ _ _ L).
Qed.

(** ** [allocate] *)

(** The members of an entry put in a slot, and the cache and stores with it,
    before the policy is told. *)
Definition placed_ext (t a : Z) (x : AbstractCacheEntry Y) : AbstractCacheEntry Y :=
  setLastAccess t (with_locked (-1) (with_Permission Invalid (with_Address a x))).
Definition placed_cm (c : CacheMemory) (a : Z) (e : loc) (i j : nat) : CacheMemory :=
  with_tags (<[a := Z.of_nat j]> (m_tag_index c)) (with_cells (gset (m_cache c) i j (Some e)) c).
Definition placed_wd w (a : Z) (e : loc) (x : AbstractCacheEntry Y) (i j : nat) (r : loc)
    (rd : ReplacementData D) : W :=
  mkWorld (policy w)
    (<[e := mkObject (mkReplaceableEntry (Z.of_nat i) (Z.of_nat j) (Some r)) (placed_ext (curTick w) a x)]> (entries w))
    (<[r := mkReplacementData (Ptr e) (data rd)]> (rds w)) (curTick w).

Lemma fill_slot_run s a e o i j r rd :
  dims (m_cache (cm s)) (sets (cm s)) (ways (cm s)) -> (i < sets (cm s))%nat -> (j < ways (cm s))%nat ->
  Z.of_nat i < 2 ^ 32 -> Z.of_nat j < 2 ^ 32 ->
  entries (wd s) !! e = Some o -> gl (replacement_data (cm s)) i j = Some (Some r) ->
  rds (wd s) !! r = Some rd ->
  fill_slot a e (Z.of_nat i) (Z.of_nat j) s =
    match rp_reset r (placed_wd (wd s) a e (ext o) i j r rd) with
    | Ok (_, w2) => Ok (tt, mkSys (placed_cm (cm s) a e i j) w2)
    | Fault f => Fault f
    end.
Proof.
  intros Hd Hi Hj Hi' Hj' He Hr Hrd. unfold fill_slot.
  erewrite bind_Ok; [|apply change_Ok; erewrite vset2_Ok by done; reflexivity].
  do 3 (erewrite bind_Ok; [|apply modify_entry_Ok; first [exact He|cbn; apply lookup_insert_eq]]).
  erewrite bind_Ok; [|apply change_Ok; reflexivity].
  erewrite bind_Ok; [|apply ask_Ok; apply vget2_Ok; exact Hr].
  erewrite bind_Ok.
  2:{ apply onW_Ok. rewrite (bind_Ok _ _ _ _ _ (deref_entry_Ok _ _ _ (lookup_insert_eq _ _ _))). reflexivity. }
  rewrite !(uwrap_small 32) by lia.
  erewrite bind_Ok.
  2:{ apply onW_Ok. unfold setPosition.
      erewrite bind_Ok; [|apply deref_entry_Ok; cbn; apply lookup_insert_eq]. cbn [base replacementData ext].
      erewrite bind_Ok; [|reflexivity].
      erewrite bind_Ok; [|apply deref_rd_Ok; cbn; exact Hrd]. reflexivity. }
  erewrite bind_Ok.
  2:{ unfold touch_lastAccess. rewrite (bind_Ok _ _ _ _ _ eq_refl).
      apply modify_entry_Ok. cbn. apply lookup_insert_eq. }
  unfold onW, rd_ptr. cbn [wd cm].
  erewrite bind_Ok; [|erewrite bind_Ok; [|apply deref_entry_Ok; cbn; apply lookup_insert_eq]; reflexivity].
  assert (forall w w' : W, w = w' -> rp_reset r w = rp_reset r w') as Hcong by (by intros ? ? ->).
  rewrite (Hcong _ (placed_wd (wd s) a e (ext o) i j r rd)); [by destruct (rp_reset _ _) as [[[] ?]|]|].
  unfold placed_wd, set_ext, set_entries, set_rds. cbn. by rewrite !insert_insert_eq.
Qed.

Lemma contents_None_tag s a : cm_inv s -> contents s !! a = None -> m_tag_index (cm s) !! a = None.
Proof.
  intros I Hn. destruct (m_tag_index (cm s) !! a) as [k|] eqn:Ek; [|done]. exfalso.
  destruct (inv_tag _ I _ _ Ek) as (_ & j & e & o & -> & Hg & He & <-).
  by rewrite (contents_cell _ _ _ _ _ I Hg He) in Hn.
Qed.

Lemma placed_bounded s a e x j r rd : cm_inv s ->
  sets_bounded (placed_wd (wd s) a e x (set_of (cm s) a) j r rd).
Proof.
  intros I. apply map_Forall_insert_2; [|by apply inv_bounded]. cbn.
  pose proof (set_of_lt (cm s) (inv_geo _ I) a). pose proof (sets_max (cm s) (inv_geo _ I)). lia.
Qed.

Lemma placed_policy s a e x i j r rd : cm_inv s -> rds (wd s) !! r = Some rd ->
  rp_inv (policy (placed_wd (wd s) a e x i j r rd)) (rp_data (placed_wd (wd s) a e x i j r rd)).
Proof.
  intros I Hrd. unfold placed_wd, rp_data. cbn. rewrite fmap_insert. cbn.
  rewrite insert_id; [by apply inv_policy|]. by rewrite lookup_fmap, Hrd.
Qed.

Section Placed.
Context s (a : Z) (e : loc) (x : AbstractCacheEntry Y) (j : nat) (r : loc) (rd : ReplacementData D) (w2 : W).
#[local] Abbreviation i := (set_of (cm s) a).
#[local] Abbreviation w1 := (placed_wd (wd s) a e x i j r rd).
Context (I : cm_inv s) (Hl : is_line (cm s) a) (Hnone : contents s !! a = None) (Hg : gl (m_cache (cm s)) i j = Some None)
  (Hfresh : forall i' j', gl (m_cache (cm s)) i' j' <> Some (Some e)) (Hr : gl (replacement_data (cm s)) i j = Some (Some r)) (Hrd : rds (wd s) !! r = Some rd)
  (Hw : rp_reset r w1 = Ok (tt, w2)).

(** The cells are the new one and the old ones. *)
Lemma placed_cell i' j' e' : gl (gset (m_cache (cm s)) i j (Some e)) i' j' = Some (Some e') ->
  (i' = i /\ j' = j /\ e' = e) \/ ((i' <> i \/ j' <> j) /\ gl (m_cache (cm s)) i' j' = Some (Some e')).
Proof.
  intros Hg'. destruct (gl_lt _ _ _ _ _ _ (inv_cells _ I) Hg) as [Hi Hj]. destruct (decide (i' = i /\ j' = j)) as [[-> ->]|Hne].
  - rewrite (gset_eq _ _ _ _ _ _ (inv_cells _ I)) in Hg' by done. injection Hg' as <-. by left.
  - assert (i' <> i \/ j' <> j) by lia. rewrite gset_ne in Hg' by done. by right.
Qed.

(** Another line is in another cell. *)
Lemma placed_other a' j' e' : gl (m_cache (cm s)) (set_of (cm s) a') j' = Some (Some e') -> set_of (cm s) a' <> i \/ j' <> j.
Proof. intros Hg'. destruct (decide (set_of (cm s) a' = i)) as [Ei|]; [|by left]. right. intros ->. rewrite Ei, Hg in Hg'. done. Qed.

Lemma placed_line i' j' e' : gl (gset (m_cache (cm s)) i j (Some e)) i' j' = Some (Some e') ->
  exists o r' rd', line_ok (mkSys (placed_cm (cm s) a e i j) w2) i' j' e' o r' rd'.
Proof.
  assert (rp_update r w1 w2) as U by (by apply upd_reset). destruct (rp_frame _ _ _ _ U) as [F Ho]. pose proof F as (Een & _ & _).
  intros [(-> & -> & ->)|[Hne Hg']]%placed_cell.
  - destruct (rp_reset_live _ _ _ _ Hw) as (d & Hd & Hlive). apply rp_data_inv in Hd as (rd2 & Hr2 & <-).
    assert (rds w1 !! r = Some (mkReplacementData (Ptr e) (data rd))) as Hr1 by apply lookup_insert_eq.
    destruct (frame_rd _ _ _ _ F Hr1) as (rd2' & Hr2' & Eb). rewrite Hr2 in Hr2'. injection Hr2' as <-.
    eexists _, r, rd2. constructor; cbn; try done; [rewrite Een; apply lookup_insert_eq|done|done|done|apply lookup_insert_eq|done].
  - destruct (inv_line _ I _ _ _ Hg') as (o' & r' & rd' & L'). assert (e' <> e) as Hee by (by intros ->; eapply Hfresh).
    assert (r' <> r) as Hrr by (intros ->; destruct (inv_inj _ I _ _ _ _ _ Hr (lo_repl _ _ _ _ _ _ _ L')); lia).
    exists o', r', rd'. destruct L' as [? ? ? ? ? ? ? ? Ht' ?]. constructor; cbn; try done.
    + rewrite Een. cbn. by rewrite lookup_insert_ne.
    + rewrite Ho by done. cbn. by rewrite lookup_insert_ne.
    + rewrite lookup_insert_ne; [done|]. intros E. by rewrite <- E, (contents_None_tag _ _ I Hnone) in Ht'.
Qed.

Lemma placed_contents : contents (mkSys (placed_cm (cm s) a e i j) w2) = <[a := e]> (contents s).
Proof.
  destruct (gl_lt _ _ _ _ _ _ (inv_cells _ I) Hg) as [Hi Hj]. apply map_eq. intros a'. unfold contents, placed_cm. cbn. rewrite map_lookup_imap.
  destruct (decide (a' = a)) as [->|Hne].
  - rewrite !lookup_insert_eq. cbn. rewrite Nat2Z.id. change (set_of _ a) with i at 1. by rewrite (gset_eq _ _ _ _ _ _ (inv_cells _ I)).
  - rewrite !lookup_insert_ne, map_lookup_imap by done. destruct (m_tag_index (cm s) !! a') as [k|] eqn:Ek; [|done]. cbn.
    destruct (inv_tag _ I _ _ Ek) as (_ & j' & e' & o' & -> & Hg' & He' & Ea'). rewrite Nat2Z.id.
    f_equal. change (set_of (with_tags _ _) a') with (set_of (cm s) a'). apply gset_ne. by eapply placed_other.
Qed.

Lemma placed_inv : cm_inv (mkSys (placed_cm (cm s) a e i j) w2) /\ contents (mkSys (placed_cm (cm s) a e i j) w2) = <[a := e]> (contents s).
Proof.
  split; [|exact placed_contents]. assert (rp_update r w1 w2) as U by (by apply upd_reset).
  destruct (rp_frame _ _ _ _ U) as [F _]. pose proof F as (Een & _ & _). destruct (gl_lt _ _ _ _ _ _ (inv_cells _ I) Hg) as [Hi Hj].
  pose proof (placed_bounded s a e x j r rd I) as B1. pose proof I as [G C R Hrds Hinj Hline Htag Hb HP]. constructor; cbn; try done.
  - by apply geometry_cells.
  - by apply gset_dims.
  - intros i' j' p Hp. destruct (Hrds _ _ _ Hp) as (r' & -> & [rd' Hr']). exists r'. split; [done|].
    assert (is_Some (rds w1 !! r')) as [rd1 Hr1] by (cbn; destruct (decide (r' = r)) as [->|]; [rewrite lookup_insert_eq|rewrite lookup_insert_ne]; eauto).
    destruct (frame_rd _ _ _ _ F Hr1) as (? & ? & _). eauto.
  - apply placed_line.
  - intros a' k [[<- <-]|[Hne Hk]]%lookup_insert_Some.
    + split; [done|]. eexists j, e, _. split; [done|]. split; [by eapply gset_eq|]. rewrite Een. split; [apply lookup_insert_eq|done].
    + destruct (Htag _ _ Hk) as (Hl' & j' & e' & o' & -> & Hg' & He' & Ea'). split; [done|]. exists j', e', o'. split; [done|]. split.
      * rewrite gset_ne; [done|]. by eapply placed_other.
      * rewrite Een. cbn. rewrite lookup_insert_ne; [done|]. by intros ->; eapply Hfresh.
  - eapply frame_bounded; [exact F|exact B1].
  - eapply rp_inv_pres; [exact B1|by apply placed_policy|exact U].
Qed.
End Placed.

(** The members of the generated subclass after [initBlockSize], [setRubySystem]. *)
Definition prepared (c : CacheMemory) (x : AbstractCacheEntry Y) : AbstractCacheEntry Y :=
  let x := with_members (pe_initBlockSize (m_block_size c) (members x)) x in
  with_members (pe_setRubySystem (members x)) x.

(** Of the ways of a set, [allocate] takes the first empty one. *)
Definition first_empty s (i j : nat) : Prop :=
  gl (m_cache (cm s)) i j = Some None /\ forall j', (j' < j)%nat -> gl (m_cache (cm s)) i j' <> Some None.

Lemma allocate_run s a e o :
  cm_inv s -> is_line (cm s) a -> contents s !! a = None -> has_room s (set_of (cm s) a) = true ->
  entries (wd s) !! e = Some o -> (forall i j, gl (m_cache (cm s)) i j <> Some (Some e)) ->
  let i := set_of (cm s) a in
  exists j r rd, first_empty s i j /\ gl (replacement_data (cm s)) i j = Some (Some r) /\
    rds (wd s) !! r = Some rd /\
    allocate a e s =
      match rp_reset r (placed_wd (wd s) a e (prepared (cm s) (ext o)) i j r rd) with
      | Ok (_, w2) => Ok (e, mkSys (placed_cm (cm s) a e i j) w2)
      | Fault f => Fault f
      end.
Proof.
  intros I Hl Hnone Hroom He Hfresh i. pose proof (inv_geo _ I) as G.
  unfold has_room in Hroom. destruct (first_index _ _ Hroom) as (j & Hj & Hg%bool_decide_eq_true & Hfirst).
  assert (i < sets (cm s))%nat as Hi by (by apply set_of_lt).
  destruct (gl_is_Some _ _ _ i j (inv_repl _ I) Hi Hj) as [p Hp].
  destruct (inv_rd _ I _ _ _ Hp) as (r & -> & [rd Hrd]). exists j, r, rd.
  split; [split; [done|]; intros j' Hj'; by apply (bool_decide_eq_false (gl _ _ _ = _)), Hfirst|].
  split; [done|]. split; [done|]. unfold allocate.
  rewrite (bind_Ok _ _ _ _ _ (ask_Ok _ s tt (assert_line_Ok _ G _ Hl))).
  rewrite (bind_Ok _ _ _ _ _ (isTagPresent_Ok _ _ I Hl)), Hnone. rewrite (bind_Ok _ _ s tt s) by done.
  rewrite (bind_Ok _ _ _ _ _ (cacheAvail_Ok _ _ I Hl)). unfold has_room. rewrite Hroom, orb_true_r.
  rewrite (bind_Ok _ _ s tt s) by done. rewrite (bind_Ok _ _ s (cm s) s) by done.
  do 2 (erewrite bind_Ok; [|apply modify_entry_Ok; first [exact He|cbn; apply lookup_insert_eq]]).
  match goal with |- _ ?st = _ => set (s1 := st) end.
  erewrite (bind_Ok _ _ s1); [|apply ask_Ok; by apply addressToCacheSet_Ok].
  change (set_of (cm s1) a) with i.
  set (body := fun (_ : option loc) (k : Z) => _).
  pose proof (foreach_first (m_cache_assoc (cm s)) body
    (fun j => bool_decide (gl (m_cache (cm s)) i j = Some None)) None s1 j) as Hloop.
  assert (body None (Z.of_nat j) s1 = match rp_reset r (placed_wd (wd s) a e (prepared (cm s) (ext o)) i j r rd) with
      | Ok (_, w2) => Ok (Break (Some e), mkSys (placed_cm (cm s) a e i j) w2)
      | Fault f => Fault f end) as Hbody.
  { unfold body. rewrite (bind_Ok _ _ _ _ _ (cell_Ok s1 _ _ _ Hg)). rewrite (bind_Ok _ _ s1 true s1) by done.
    pose proof (sets_max _ G). unfold max_sets in *. destruct G as [_ ? _ _ _].
    cbv iota. unfold bind. rewrite (fill_slot_run s1 a e (mkObject (base o) (prepared (cm s) (ext o))) i j r rd);
      [|apply I|done|done|lia|unfold ways in Hj; lia|apply lookup_insert_eq|done|done].
    assert (placed_wd (wd s1) a e (prepared (cm s) (ext o)) i j r rd =
      placed_wd (wd s) a e (prepared (cm s) (ext o)) i j r rd) as E.
    { unfold placed_wd, s1, set_ext, set_entries. cbn. by rewrite !insert_insert_eq. }
    cbn [ext]. rewrite E. by destruct (rp_reset _ _) as [[[] ?]|]. }
  rewrite Hbody in Hloop. unfold bind at 1.
  destruct (rp_reset r _) as [[[] w2]|f]; rewrite Hloop; try done; clear Hloop Hbody.
  all: intros j' Hj' Hn%bool_decide_eq_false; unfold body;
    destruct (gl_is_Some _ _ _ i j' (inv_cells _ I) Hi Hj') as [[e'|] Hg']; [|done];
    rewrite (bind_Ok _ _ _ _ _ (cell_Ok s1 _ _ _ Hg')); unfold slot_open;
    destruct (inv_line _ I _ _ _ Hg') as (o' & r' & rd' & L');
    (rewrite (bind_Ok _ _ s1 false s1); [done|]);
    (rewrite (bind_Ok _ _ _ _ _ (read_entry_Ok s1 e' o' ltac:(cbn;
       rewrite !lookup_insert_ne by (intros <-; by eapply Hfresh); by eapply lo_entry))));
    by rewrite (bool_decide_false _ (lo_perm _ _ _ _ _ _ _ L')).
Qed.

(** ** [cacheProbe] *)

(** The entries of a full set, by way. *)
Definition way_entry s (i j : nat) : loc := default 1%positive (mjoin (gl (m_cache (cm s)) i j)).
Definition set_entries_of s (i : nat) : list loc := way_entry s i <$> seq 0 (ways (cm s)).

Lemma full_set s i j : cm_inv s -> has_room s i = false -> (i < sets (cm s))%nat -> (j < ways (cm s))%nat ->
  gl (m_cache (cm s)) i j = Some (Some (way_entry s i j)).
Proof.
  intros I Hf Hi Hj. destruct (gl_is_Some _ _ _ i j (inv_cells _ I) Hi Hj) as [[e|] Hg].
  - unfold way_entry. by rewrite Hg.
  - exfalso. rewrite <- not_true_iff_false in Hf. apply Hf, has_room_spec. eauto.
Qed.

Lemma set_entries_elem s i e : e ∈ set_entries_of s i -> exists j, (j < ways (cm s))%nat /\ e = way_entry s i j.
Proof.
  unfold set_entries_of. rewrite list_elem_of_fmap. intros (j & -> & Hj%elem_of_seq). exists j. split; [lia|done].
Qed.

Lemma full_set_data s i : cm_inv s -> has_room s i = false -> (i < sets (cm s))%nat ->
  exists ds, cands_data (wd s) (set_entries_of s i) ds /\ Forall (fun d => rp_live d = true) ds.
Proof.
  intros I Hf Hi.
  assert (forall e, e ∈ set_entries_of s i -> exists d, cand_data (wd s) e = Some d /\ rp_live d = true) as Hall.
  { intros e (j & Hj & ->)%set_entries_elem. pose proof (full_set s i j I Hf Hi Hj) as Hg.
    destruct (inv_line _ I _ _ _ Hg) as (o & r & rd & L). exists (data rd). split; [|by eapply lo_live].
    apply cand_data_Some. exists o, r, rd. rewrite (lo_base _ _ _ _ _ _ _ L). destruct L. done. }
  revert Hall. generalize (set_entries_of s i) as l. induction l as [|e l IH]; intros Hall.
  - exists []. split; constructor.
  - destruct (Hall e) as (d & Hd & Hl); [by left|]. destruct IH as (ds & H1 & H2); [intros; apply Hall; by right|].
    exists (d :: ds). split; constructor; done.
Qed.

Lemma cacheProbe_Ok s a :
  cm_inv s -> is_line (cm s) a -> contents s !! a = None -> has_room s (set_of (cm s) a) = false ->
  exists b v w', rp_getVictim (set_entries_of s (set_of (cm s) a)) (wd s) = Ok (Some v, w') /\
    cacheProbe a s = Ok (b, mkSys (cm s) w') /\ contents s !! b = Some v /\
    set_of (cm s) b = set_of (cm s) a /\ frame (wd s) w' /\ cm_inv (mkSys (cm s) w').
Proof.
  intros I Hl Hnone Hfull. pose proof (inv_geo _ I) as G. set (i := set_of (cm s) a).
  assert (i < sets (cm s))%nat as Hi by (by apply set_of_lt).
  destruct (full_set_data s i I Hfull Hi) as (ds & Hds & Hlive).
  destruct (rp_victim_some _ (wd s) (set_entries_of s i) ds) as (v & w' & Hv & HP); try done.
  1: by apply inv_bounded. 1: by apply inv_policy.
  { unfold set_entries_of. destruct G as [_ ? _ _ _]. unfold ways.
    destruct (Z.to_nat (m_cache_assoc (cm s))) eqn:E; [lia|done]. }
  destruct (rp_victim_frame _ _ _ _ _ Hv) as (F & Hin & Hkeep). pose proof F as (Een & _ & _).
  destruct (set_entries_elem s i v (Hin v eq_refl)) as (j & Hj & Ev).
  pose proof (full_set s i j I Hfull Hi Hj) as Hg. rewrite <- Ev in Hg.
  destruct (inv_line _ I _ _ _ Hg) as (o & r & rd & L). pose proof (lo_entry _ _ _ _ _ _ _ L) as He.
  exists (m_Address (ext o)), v, w'. split; [done|]. split; [|split; [by eapply contents_cell|]].
  - unfold cacheProbe. rewrite (bind_Ok _ _ _ _ _ (ask_Ok _ s tt (assert_line_Ok _ G _ Hl))).
    rewrite (bind_Ok _ _ _ _ _ (cacheAvail_Ok _ _ I Hl)), Hnone, Hfull.
    rewrite (bind_Ok _ _ s tt s) by done.
    rewrite (bind_Ok _ _ _ _ _ (ask_Ok _ s _ (addressToCacheSet_Ok _ G _ Hl))). fold i.
    rewrite (bind_Ok _ _ s (cm s) s) by done.
    rewrite (bind_Ok _ _ s (set_entries_of s i) s).
    2:{ rewrite (foreach_collect _ _ (way_entry s i)); [done|]. intros acc k Hk.
        rewrite (bind_Ok _ _ _ _ _ (cell_Ok _ _ _ _ (full_set s i k I Hfull Hi Hk))). done. }
    rewrite (bind_Ok _ _ _ _ _ (onW_Ok _ _ _ _ Hv)). set (s' := mkSys (cm s) w').
    rewrite (bind_Ok _ _ s' v s') by done.
    assert (entries (wd s') !! v = Some o) as He' by (cbn; by rewrite Een).
    rewrite (bind_Ok _ _ s' (Z.of_nat j) s').
    2:{ apply onW_read. unfold getWay. rewrite (bind_Ok _ _ _ _ _ (deref_entry_Ok _ _ _ He')).
        by rewrite (lo_base _ _ _ _ _ _ _ L). }
    rewrite (bind_Ok _ _ _ _ _ (cell_Ok s' _ _ _ Hg)). rewrite (bind_Ok _ _ s' v s') by done.
    by rewrite (bind_Ok _ _ _ _ _ (read_entry_Ok _ _ _ He')).
  - split; [by eapply lo_set|]. split; [done|]. apply inv_frame; [done..|].
    intros i' j' e' o' r' rd' _ L'. eapply Hkeep; [apply rp_data_lookup, (lo_rd _ _ _ _ _ _ _ L')|by eapply lo_live].
Qed.

End Operations.
