(* ===== verification/CacheMemoryLoops.v ===== *)
(** The loops of the Ruby cache array over every set and way: [init], the
    hardware transactions and the release of locks; and the accesses to one
    cached line. *)
From Stdlib Require Import ZArith Lia.
From stdpp Require Import base numbers gmap list.
From S2P Require Import Prelude ReplBase.
From S2P Require Import Bitfield Intmath RubyAddress BankedArray ALUFreeList CacheMemory CacheMemoryInv CacheMemoryOps.
Local Open Scope Z_scope.

(** A counted loop whose iterations run and lead from one stage to the next. *)
Lemma foreach_stages {S} (n : Z) (body : unit -> Z -> M S (step unit)) (J : nat -> S -> Prop) s :
  (forall k s, (k < Z.to_nat n)%nat -> J k s ->
     exists s', body tt (Z.of_nat k) s = Ok (Continue tt, s') /\ J (Datatypes.S k) s') ->
  J 0%nat s -> exists s', foreach (seqZ 0 n) body tt s = Ok (tt, s') /\ J (Z.to_nat n) s'.
Proof.
  intros Hstep H0. unfold seqZ.
  assert (forall m k s, (k + m = Z.to_nat n)%nat -> J k s -> exists s',
    foreach ((fun i : nat => Z.of_nat i + 0) <$> seq k m) body tt s = Ok (tt, s') /\ J (Z.to_nat n) s') as Hgen.
  { induction m as [|m IH]; intros k s0 Hk HJ.
    - exists s0. split; [done|]. by replace (Z.to_nat n) with k by lia.
    - cbn [seq fmap list_fmap foreach]. rewrite Z.add_0_r.
      destruct (Hstep k s0 ltac:(lia) HJ) as (s1 & Hs1 & HJ1). rewrite (bind_Ok _ _ _ _ _ Hs1).
      apply (IH (Datatypes.S k)); [lia|done]. }
  by apply (Hgen (Z.to_nat n) 0%nat).
Qed.

Section Init.
Context {P D Y : Type} `{RP : ReplacementPolicy P D} {RL : ReplacementPolicyLaws P D}.
Context {OP : OccupancyPolicy P D} {PE : ProtocolEntry Y}.
#[local] Abbreviation S := (cache_sys P D Y).
Implicit Types s : S.

(** A policy that always gives new replacement data. *)
Definition instantiates : Prop := forall (p : P) (m : gmap loc D), rp_inv p m ->
  exists d p', rp_instantiateEntry p = Ok (d, p').

(** The cache [init] builds: its cells are empty; the replacement data are
    instantiated up to a position in the order of the loops. *)
Record init_stage (c0 : CacheMemory) (E : gmap loc (object (AbstractCacheEntry Y))) (n m : nat) (i0 j0 : nat) s : Prop := {
  st_cm : exists l, cm s = with_repl l c0;
  st_dims : dims (replacement_data (cm s)) n m;
  st_done : forall i j, (i < i0 \/ i = i0 /\ j < j0)%nat -> (i < n)%nat -> (j < m)%nat ->
    exists r, gl (replacement_data (cm s)) i j = Some (Some r);
  st_rd : forall i j r, gl (replacement_data (cm s)) i j = Some (Some r) -> is_Some (rds (wd s) !! r);
  st_inj : forall i j i' j' r, gl (replacement_data (cm s)) i j = Some (Some r) ->
    gl (replacement_data (cm s)) i' j' = Some (Some r) -> i = i' /\ j = j';
  st_entries : entries (wd s) = E;
  st_policy : rp_inv (policy (wd s)) (rp_data (wd s));
}.

Lemma instantiate_Ok s : instantiates -> rp_inv (policy (wd s)) (rp_data (wd s)) ->
  exists r w', instantiate s = Ok (r, mkSys (cm s) w') /\ rds (wd s) !! r = None /\
    entries w' = entries (wd s) /\ curTick w' = curTick (wd s) /\
    (exists rd, rds w' = <[r := rd]> (rds (wd s))) /\ rp_inv (policy w') (rp_data w').
Proof.
  intros HI HP. destruct (HI _ _ HP) as (d & p' & Hd). set (r := fresh (dom (rds (wd s)))).
  assert (rds (wd s) !! r = None) as Hr by (apply not_elem_of_dom, is_fresh).
  eexists r, _. split.
  - apply onW_Ok. rewrite (bind_Ok _ _ (wd s) (wd s) (wd s)) by done.
    rewrite (bind_Ok _ _ _ (d, p') (wd s)) by (unfold lift; by rewrite Hd). cbn [fst snd].
    rewrite (bind_Ok _ _ _ tt (set_policy p' (wd s))) by done. unfold alloc_rd.
    rewrite (bind_Ok _ _ _ _ _ eq_refl). reflexivity.
  - cbn. split; [done|]. split; [done|]. split; [done|]. split; [by eexists|].
    unfold rp_data. cbn. rewrite fmap_insert. cbn. eapply rp_instantiate_inv; [exact HP|exact Hd|].
    change ((data <$> rds (wd s)) !! r = None). by rewrite lookup_fmap, Hr.
Qed.

Lemma init_step c0 E n m i0 j0 s :
  instantiates -> init_stage c0 E n m i0 j0 s -> (i0 < n)%nat -> (j0 < m)%nat ->
  exists s', (let* r := instantiate in
      do* change (fun c => let? l := vset2 (replacement_data c) (Z.of_nat i0) (Z.of_nat j0) (Some r) in
                           Ok (with_repl l c)) ;;
      ret (Continue tt)) s = Ok (Continue tt, s') /\ init_stage c0 E n m i0 (Datatypes.S j0) s'.
Proof.
  intros HI [[l Ec] Hd Hdone Hrd Hinj He HP] Hi Hj.
  destruct (instantiate_Ok s HI HP) as (r & w' & Hrun & Hr & Een & _ & [rd Erd] & HP').
  rewrite (bind_Ok _ _ _ _ _ Hrun). eexists. split.
  - erewrite bind_Ok; [|apply change_Ok; cbn; rewrite (vset2_Ok _ _ _ _ _ _ Hd Hi Hj); reflexivity].
    reflexivity.
  - assert (forall i j r', gl (gset (replacement_data (cm s)) i0 j0 (Some r)) i j = Some (Some r') ->
      (i = i0 /\ j = j0 /\ r' = r) \/ (gl (replacement_data (cm s)) i j = Some (Some r') /\ r' <> r)) as Hcell.
    { intros i j r' Hg. destruct (decide (i = i0 /\ j = j0)) as [[-> ->]|Hne].
      - rewrite (gset_eq _ _ _ _ _ _ Hd) in Hg by done. injection Hg as <-. by left.
      - rewrite gset_ne in Hg by lia. right. split; [done|]. intros ->. destruct (Hrd _ _ _ Hg) as [? E'].
        by rewrite Hr in E'. }
    constructor; cbn; try done.
    + rewrite Ec. eexists. destruct c0. cbn. done.
    + by apply gset_dims.
    + intros i j Hij Hi' Hj'. destruct (decide (i = i0 /\ j = j0)) as [[-> ->]|Hne].
      * exists r. by apply (gset_eq _ _ _ _ _ _ Hd).
      * rewrite gset_ne by lia. apply Hdone; lia.
    + intros i j r' [(_ & _ & ->)|[Hg Hne]]%Hcell; rewrite Erd; [rewrite lookup_insert_eq; eauto|].
      rewrite lookup_insert_ne by done. eauto.
    + intros i j i' j' r' [(-> & -> & Er)|[Hg Hne]]%Hcell [(-> & -> & Er')|[Hg' Hne']]%Hcell; try done. eauto.
    + by rewrite Een.
Qed.

Lemma init_stage_next c0 E n m i0 s : init_stage c0 E n m i0 m s -> init_stage c0 E n m (Datatypes.S i0) 0 s.
Proof.
  intros [? ? Hdone ? ? ? ?]. constructor; try done. intros i j Hij Hi Hj. apply Hdone; [|done..]. lia.
Qed.
Lemma init_loops c0 E (n m : Z) s : instantiates -> init_stage c0 E (Z.to_nat n) (Z.to_nat m) 0 0 s ->
  exists s', foreach (seqZ 0 n) (fun _ i =>
    do* foreach (seqZ 0 m) (fun _ j =>
      let* r := instantiate in
      do* change (fun c => let? l := vset2 (replacement_data c) i j (Some r) in Ok (with_repl l c)) ;;
      ret (Continue tt)) tt ;;
    ret (Continue tt)) tt s = Ok (tt, s') /\ init_stage c0 E (Z.to_nat n) (Z.to_nat m) (Z.to_nat n) 0 s'.
Proof.
  intros HI H0.
  apply (foreach_stages n _ (fun i => init_stage c0 E (Z.to_nat n) (Z.to_nat m) i 0)); [|done].
  intros i s1 Hi H1.
  destruct (foreach_stages m (fun _ j => let* r := instantiate in
      do* change (fun c => let? l := vset2 (replacement_data c) (Z.of_nat i) j (Some r) in Ok (with_repl l c)) ;;
      ret (Continue tt)) (fun j => init_stage c0 E (Z.to_nat n) (Z.to_nat m) i j) s1) as (s2 & Hrun & H2);
    [|done|].
  - intros j s2 Hj H2. by apply init_step.
  - exists s2. split; [by rewrite (bind_Ok _ _ _ _ _ Hrun)|]. by apply init_stage_next.
Qed.

(** A cache object as the constructor and [setRubySystem] leave it, with usable
    parameters. *)
Record constructed (c : CacheMemory) : Prop := {
  con_tags : m_tag_index c = ∅;
  con_cells : m_cache c = [];
  con_repl : replacement_data c = [];
  con_size : 0 <= m_cache_size c < 2 ^ 31;
  con_assoc : 0 < m_cache_assoc c < 2 ^ 31;
  con_block : 0 < m_block_size c < 2 ^ 31;
  con_sets : 1 < m_cache_size c / m_cache_assoc c / m_block_size c <= max_sets;
  con_start : 0 <= m_start_index_bit c /\
    m_start_index_bit c + Z.log2 (m_cache_size c / m_cache_assoc c / m_block_size c) <= 64;
}.

(** After the loops, a cache with empty cells satisfies the invariant. *)
Lemma init_stage_inv c0 E s : geometry c0 -> m_tag_index c0 = ∅ ->
  m_cache c0 = replicate (sets c0) (replicate (ways c0) None) ->
  init_stage c0 E (sets c0) (ways c0) (sets c0) 0 s -> sets_bounded (wd s) ->
  cm_inv s /\ contents s = ∅.
Proof.
  intros G Ht Hc [[l Ec] Hd Hdone Hrd Hinj He HP] HB. destruct s as [c w]. cbn in *. subst c.
  assert (forall i j e, gl (m_cache c0) i j <> Some (Some e)) as Hnone.
  { intros i j e Hg. rewrite Hc in Hg. by apply gl_replicate in Hg. }
  split.
  - constructor; cbn; try done.
    + destruct G. by constructor.
    + rewrite Hc. apply dims_replicate.
    + intros i j p Hp. destruct (gl_lt _ _ _ _ _ _ Hd Hp). destruct (Hdone i j) as [r Hr]; [lia..|].
      assert (Some p = Some (Some r)) as [= ->] by (rewrite <- Hp; exact Hr). exists r. split; [done|]. eauto.
    + intros i j e Hg. by apply Hnone in Hg.
    + intros a k Hk. by rewrite Ht, lookup_empty in Hk.
  - unfold contents. cbn. by rewrite Ht.
Qed.

Lemma init_Ok s : instantiates -> constructed (cm s) ->
  rp_inv (policy (wd s)) (rp_data (wd s)) -> sets_bounded (wd s) ->
  exists s', init s = Ok (tt, s') /\ cm_inv s' /\ contents s' = ∅ /\
    sets (cm s') = Z.to_nat (m_cache_size (cm s) / m_cache_assoc (cm s) / m_block_size (cm s)) /\
    ways (cm s') = Z.to_nat (m_cache_assoc (cm s)) /\ entries (wd s') = entries (wd s).
Proof.
  intros HI [Ht Hc Hr Hsz Has Hbl Hset Hst] HP HB. set (c := cm s) in *.
  set (n := m_cache_size c / m_cache_assoc c / m_block_size c) in *.
  assert (0 <= m_cache_size c / m_cache_assoc c < 2 ^ 31).
  { split; [apply Z.div_pos; lia|]. apply Z.div_lt_upper_bound; nia. }
  assert (0 < Z.log2 n) by (apply Z.log2_pos; lia). unfold max_sets in Hset.
  unfold init. rewrite (bind_Ok _ _ s c s) by done.
  rewrite (bind_Ok _ _ s tt s) by (replace (m_block_size c =? 0) with false by lia; done).
  rewrite (bind_Ok _ _ s tt s) by (replace (m_cache_assoc c =? 0) with false by lia; done).
  rewrite Z.quot_div_nonneg by lia. rewrite int_of_Ok by lia. rewrite (bind_Ok _ _ s _ s eq_refl).
  rewrite Z.quot_div_nonneg by lia. fold n. rewrite int_of_Ok by lia. rewrite (bind_Ok _ _ s _ s eq_refl).
  rewrite (bind_Ok _ _ s tt s) by (replace (1 <? n) with true by lia; done).
  rewrite floorLog2_log2 by (auto; lia). rewrite (bind_Ok _ _ s _ s eq_refl).
  rewrite (bind_Ok _ _ s tt s) by (replace (0 <? Z.log2 n) with true by lia; done).
  rewrite (uwrap_small 64) by lia.
  rewrite vresize_grow by (change (vsize []) with 0; lia). rewrite (bind_Ok _ _ s _ s eq_refl).
  rewrite Hc, Hr. rewrite vresize_grow by (change (vsize []) with 0; lia). rewrite !(bind_Ok _ _ s _ s eq_refl).
  erewrite bind_Ok; [|apply change_Ok; reflexivity]. cbn [length app]. rewrite !Nat.sub_0_r.
  match goal with |- context [foreach _ _ tt ?st] => set (s1 := st) end.
  assert (geometry (cm s1)) as G1 by (by constructor).
  destruct (init_loops (cm s1) (entries (wd s)) n (m_cache_assoc c) s1) as (s' & Hrun & Hfin); [done| |].
  { constructor; try done.
    - eexists. done.
    - apply dims_replicate.
    - lia.
    - intros i j r Hg. by apply gl_replicate in Hg.
    - intros i j i' j' r Hg. by apply gl_replicate in Hg. }
  exists s'. split; [exact Hrun|]. pose proof (st_cm _ _ _ _ _ _ _ Hfin) as [l El].
  destruct (init_stage_inv (cm s1) (entries (wd s)) s') as [I' C']; [done|done|done|done| |].
  { unfold sets_bounded. by rewrite (st_entries _ _ _ _ _ _ _ Hfin). }
  split; [done|]. split; [done|]. rewrite El. split; [done|]. split; [done|].
  by eapply st_entries.
Qed.
End Init.

(** ** Loops over the cached lines *)
Lemma foreach_continue_app {S A B} (f : A -> B -> M S A) l1 l2 a s :
  foreach (l1 ++ l2) (fun a b => let* a := f a b in ret (Continue a)) a s =
  bind (foreach l1 (fun a b => let* a := f a b in ret (Continue a)) a)
    (foreach l2 (fun a b => let* a := f a b in ret (Continue a))) s.
Proof.
  revert a s. induction l1 as [|b l1 IH]; intros a s; [done|]. cbn [app foreach]. unfold bind in *.
  destruct (f a b s) as [[a' s']|]; [|done]. cbn. apply IH.
Qed.

Lemma grid_NoDup {A} (v : list (list (option A))) :
  (forall i j i' j' e, gl v i j = Some (Some e) -> gl v i' j' = Some (Some e) -> i = i' /\ j = j') ->
  NoDup (omap id (concat v)).
Proof.
  induction v as [|row v IH]; intros Hu; [constructor|]. cbn [concat]. rewrite omap_app. apply NoDup_app.
  split; [|split].
  - assert (forall j j' e, row !! j = Some (Some e) -> row !! j' = Some (Some e) -> j = j') as Hr.
    { intros j j' e H1 H2. by destruct (Hu 0%nat j 0%nat j' e H1 H2). }
    clear IH Hu. induction row as [|[e|] row IH]; cbn; [constructor| |].
    + constructor.
      * intros ([e'|] & [j Hj]%list_elem_of_lookup_1 & E)%list_elem_of_omap; [|done]. injection E as ->.
        by specialize (Hr 0%nat (Datatypes.S j) e eq_refl Hj).
      * apply IH. intros j j' e' H1 H2. by specialize (Hr (Datatypes.S j) (Datatypes.S j') e' H1 H2); injection Hr.
    + apply IH. intros j j' e' H1 H2. by specialize (Hr (Datatypes.S j) (Datatypes.S j') e' H1 H2); injection Hr.
  - intros e (x & [j Hj]%list_elem_of_lookup_1 & Ex)%list_elem_of_omap
      (y & Hy & Ey)%list_elem_of_omap. unfold id in Ex, Ey. subst.
    apply list_elem_of_In, in_concat in Hy as (row' & H1 & H2). apply list_elem_of_In in H1, H2.
    apply list_elem_of_lookup_1 in H1 as [i Hi]. apply list_elem_of_lookup_1 in H2 as [j' Hj'].
    destruct (Hu 0%nat j (Datatypes.S i) j' e); [done| |done]. change (gl v i j' = Some (Some e)). unfold gl. by rewrite Hi.
  - apply IH. intros i j i' j' e H1 H2. destruct (Hu (Datatypes.S i) j (Datatypes.S i') j' e H1 H2). split; lia.
Qed.

Section Lines.
Context {P D Y : Type} `{RP : ReplacementPolicy P D} {RL : ReplacementPolicyLaws P D}.
Context {OP : OccupancyPolicy P D} {PE : ProtocolEntry Y}.
#[local] Abbreviation S := (cache_sys P D Y).
#[local] Abbreviation E := (gmap loc (object (AbstractCacheEntry Y))).
Implicit Types (s : S) (m : E).

(** The cached entries, in the order of the sets and ways. *)
Definition all_lines s : list loc := omap id (concat (m_cache (cm s))).

Lemma elem_of_all_lines s e : e ∈ all_lines s <-> exists i j, gl (m_cache (cm s)) i j = Some (Some e).
Proof.
  unfold all_lines, gl. rewrite list_elem_of_omap. split.
  - intros (x & Hx & Ex). unfold id in Ex. subst. apply list_elem_of_In, in_concat in Hx as (row & H1 & H2).
    apply list_elem_of_In in H1, H2. apply list_elem_of_lookup_1 in H1 as [i Hi].
    apply list_elem_of_lookup_1 in H2 as [j Hj]. exists i, j. by rewrite Hi.
  - intros (i & j & Hg). destruct (m_cache (cm s) !! i) as [row|] eqn:Hi; [|done]. cbn in Hg.
    exists (Some e). split; [|done]. apply list_elem_of_In, in_concat. exists row.
    split; apply list_elem_of_In; by eapply list_elem_of_lookup_2.
Qed.

Lemma all_lines_NoDup s : cm_inv s -> NoDup (all_lines s).
Proof. intros I. apply grid_NoDup. intros. by eapply cell_unique. Qed.

Lemma all_lines_contents s e : cm_inv s -> e ∈ all_lines s <-> exists a, contents s !! a = Some e.
Proof.
  intros I. rewrite elem_of_all_lines. split.
  - intros (i & j & Hg). destruct (inv_line _ I _ _ _ Hg) as (o & r & rd & L).
    exists (m_Address (ext o)). eapply contents_cell; [done..|]. by eapply lo_entry.
  - intros (a & (i & j & o & r & rd & Hg & _)%contents_Some); [|done]. eauto.
Qed.

(** The store with [g] applied to the listed entries. *)
Definition update_lines (g : AbstractCacheEntry Y -> AbstractCacheEntry Y) (ls : list loc) m : E :=
  map_imap (fun e o => Some (if bool_decide (e ∈ ls) then mkObject (base o) (g (ext o)) else o)) m.

Lemma update_lines_cons g e ls m o : e ∉ ls -> m !! e = Some o ->
  update_lines g ls (<[e := mkObject (base o) (g (ext o))]> m) = update_lines g (e :: ls) m.
Proof.
  intros Hn Ho. apply map_eq. intros e'. unfold update_lines. rewrite !map_lookup_imap.
  destruct (decide (e' = e)) as [->|Hne].
  - rewrite lookup_insert_eq, Ho. cbn. rewrite bool_decide_false by done. rewrite bool_decide_true by left. done.
  - rewrite lookup_insert_ne by done. destruct (m !! e') as [o'|]; [|done]. cbn. do 2 f_equal.
    rewrite (bool_decide_ext (e' ∈ ls) (e' ∈ e :: ls)); [done|]. rewrite elem_of_cons. naive_solver.
Qed.

(** A body that reads the members of its line and replaces them. *)
Definition line_body {A} (body : A -> loc -> M S A) (h : A -> AbstractCacheEntry Y -> A)
    (g : AbstractCacheEntry Y -> AbstractCacheEntry Y) : Prop :=
  forall a e s o, entries (wd s) !! e = Some o ->
    body a e s = Ok (h a (ext o), mkSys (cm s) (set_ext e o (g (ext o)) (wd s))).

Lemma foreach_entries {A} (body : A -> loc -> M S A) h g ls xs a s :
  line_body body h g -> NoDup ls ->
  Forall2 (fun e x => ext <$> entries (wd s) !! e = Some x) ls xs ->
  foreach ls (fun a e => let* a := body a e in ret (Continue a)) a s =
    Ok (foldl h a xs, mkSys (cm s) (set_entries (update_lines g ls (entries (wd s))) (wd s))).
Proof.
  intros HB. revert xs a s. induction ls as [|e ls IH]; intros xs a s Hnd Hxs.
  - apply Forall2_nil_inv_l in Hxs as ->. cbn [foreach foldl]. destruct s as [c [p en rd t]].
    unfold ret, update_lines, set_entries. cbn. repeat f_equal. apply map_eq. intros e.
    rewrite map_lookup_imap. by destruct (en !! e).
  - apply Forall2_cons_inv_l in Hxs as (x & xs' & Hx & Hxs & ->). apply NoDup_cons in Hnd as [Hn Hnd].
    destruct (entries (wd s) !! e) as [o|] eqn:Ho; [|done]. injection Hx as <-. cbn [foreach foldl].
    erewrite bind_Ok; [|rewrite (bind_Ok _ _ _ _ _ (HB a e s o Ho)); reflexivity].
    cbv beta iota. rewrite (IH xs'); [|done|].
    + cbn. by rewrite update_lines_cons.
    + cbn. clear -Hn Hxs. induction Hxs as [|e' x' ls' xs Hx' _ IH']; [constructor|].
      apply not_elem_of_cons in Hn as [Hne Hn]. constructor; [by rewrite lookup_insert_ne|by apply IH'].
Qed.

Lemma foreach_line_Ok {A} (body : A -> loc -> M S A) h g a s :
  line_body body h g -> cm_inv s ->
  exists xs, Forall2 (fun e x => ext <$> entries (wd s) !! e = Some x) (all_lines s) xs /\
    foreach_line body a s = Ok (foldl h a xs,
      mkSys (cm s) (set_entries (update_lines g (all_lines s) (entries (wd s))) (wd s))).
Proof.
  intros HB I.
  assert (exists xs, Forall2 (fun e x => ext <$> entries (wd s) !! e = Some x) (all_lines s) xs) as [xs Hxs].
  { assert (forall e, e ∈ all_lines s -> exists x, ext <$> entries (wd s) !! e = Some x) as Hall.
    { intros e (i & j & Hg)%elem_of_all_lines. destruct (inv_line _ I _ _ _ Hg) as (o & r & rd & L).
      exists (ext o). by rewrite (lo_entry _ _ _ _ _ _ _ L). }
    revert Hall. generalize (all_lines s) as l. induction l as [|e l IH]; intros Hall; [by exists []|].
    destruct (Hall e) as [x Hx]; [by left|]. destruct IH as [xs Hxs]; [intros; apply Hall; by right|].
    exists (x :: xs). by constructor. }
  exists xs. split; [done|]. unfold foreach_line. rewrite (bind_Ok _ _ s (cm s) s) by done.
  rewrite <- (foreach_entries body h g (all_lines s) xs a s) by (try done; by apply all_lines_NoDup).
  unfold all_lines. generalize (m_cache (cm s)) as v. intros v. clear I Hxs xs.
  revert a s. induction v as [|row v IH]; intros a s; [done|]. cbn [concat foreach]. rewrite omap_app.
  rewrite foreach_continue_app.
  assert (forall a s, foreach row (fun (a : A) (line : option loc) => match line with
      | Some e => let* a := body a e in ret (Continue a) | None => ret (Continue a) end) a s =
    foreach (omap id row) (fun a e => let* a := body a e in ret (Continue a)) a s) as Hrow.
  { clear. induction row as [|[e|] row IH]; intros a s; [done| |]; cbn [omap list_omap id foreach].
    - unfold bind. destruct (body a e s) as [[a' s']|]; [|done]. apply IH.
    - apply IH. }
  destruct (foreach (omap id row) (fun a e => let* a := body a e in ret (Continue a)) a s) as [[a' s']|f] eqn:Er.
  - erewrite bind_Ok; [|erewrite bind_Ok by (rewrite Hrow; exact Er); reflexivity]. cbv beta iota.
    rewrite (bind_Ok _ _ _ _ _ Er). apply IH.
  - rewrite (bind_Fault _ _ _ _ Er). apply bind_Fault. erewrite bind_Fault; [done|]. by rewrite Hrow.
Qed.

(** Changes that keep positions, addresses and presence keep the invariant. *)
Lemma update_lines_inv s g ls : cm_inv s ->
  (forall x, m_Address (g x) = m_Address x) ->
  (forall x, m_Permission x <> NotPresent -> m_Permission (g x) <> NotPresent) ->
  cm_inv (mkSys (cm s) (set_entries (update_lines g ls (entries (wd s))) (wd s))).
Proof.
  intros I Ha Hp. set (f := fun e (o : object (AbstractCacheEntry Y)) =>
    if bool_decide (e ∈ ls) then mkObject (base o) (g (ext o)) else o).
  assert (forall e, update_lines g ls (entries (wd s)) !! e = f e <$> entries (wd s) !! e) as Hlk.
  { intros e. unfold update_lines. rewrite map_lookup_imap. by destruct (entries (wd s) !! e). }
  assert (forall e o, base (f e o) = base o /\ m_Address (ext (f e o)) = m_Address (ext o)) as Hf.
  { intros e o. unfold f. case_bool_decide; [cbn; by rewrite Ha|done]. }
  destruct I as [G C R Hrd Hinj Hline Htag Hb HP]. constructor; cbn; try done.
  - intros i j e Hg. destruct (Hline _ _ _ Hg) as (o & r & rd & L). destruct (Hf e o) as [Eb Ea].
    exists (f e o), r, rd. destruct L as [He ? ? ? ? ? ? ? ? Hperm].
    constructor; cbn; rewrite ?Eb, ?Ea; try done; [by rewrite Hlk, He|].
    unfold f. case_bool_decide; [by apply Hp|done].
  - intros a k Hk. destruct (Htag _ _ Hk) as (Hl & j & e & o & -> & Hg & He & Ea). split; [done|].
    destruct (Hf e o) as [_ Ea']. exists j, e, (f e o). rewrite Hlk, He, Ea'. done.
  - intros e o' Ho'. rewrite Hlk in Ho'. destruct (entries (wd s) !! e) as [o|] eqn:He; [|done].
    injection Ho' as <-. destruct (Hf e o) as [Eb _]. rewrite Eb. by apply (Hb e o).
Qed.

(** ** Hardware transactions *)
Definition count_sets (sizes : Z * Z) (x : AbstractCacheEntry Y) : Z * Z :=
  (u64 (sizes.1 + if m_htmInReadSet x then 1 else 0), u64 (sizes.2 + if m_htmInWriteSet x then 1 else 0)).

(** What the end of a transaction leaves of a line. *)
Definition released (x : AbstractCacheEntry Y) : AbstractCacheEntry Y :=
  entry_clearLocked (setInHtmReadSet false (setInHtmWriteSet false x)).
Definition rolled_back (x : AbstractCacheEntry Y) : AbstractCacheEntry Y :=
  released (if m_htmInWriteSet x then with_members (pe_invalidateEntry (members x)) x else x).

Lemma set_ext_set_ext e (o : object (AbstractCacheEntry Y)) x y (w : world P D (AbstractCacheEntry Y)) :
  set_ext e (mkObject (base o) x) y (set_ext e o x w) = set_ext e o y w.
Proof. unfold set_ext, set_entries. cbn. by rewrite insert_insert_eq. Qed.

(** Two writes to the members of one entry are one. *)
Lemma modify_entry_after s e o x f : entries (wd s) !! e = Some o ->
  modify_entry e f (mkSys (cm s) (set_ext e o x (wd s))) = Ok (tt, mkSys (cm s) (set_ext e o (f x) (wd s))).
Proof.
  intros He. rewrite (modify_entry_Ok _ e (mkObject (base o) x)) by apply lookup_insert_eq.
  cbn [cm wd ext]. by rewrite set_ext_set_ext.
Qed.

Lemma release_line s e o x (sizes : Z * Z) : entries (wd s) !! e = Some o ->
  (do* modify_entry e (setInHtmWriteSet false) ;;
   do* modify_entry e (setInHtmReadSet false) ;;
   do* modify_entry e entry_clearLocked ;; ret sizes) (mkSys (cm s) (set_ext e o x (wd s))) =
  Ok (sizes, mkSys (cm s) (set_ext e o (released x) (wd s))).
Proof.
  intros He. rewrite (bind_Ok _ _ _ _ _ (modify_entry_after s e o _ _ He)).
  rewrite (bind_Ok _ _ _ _ _ (modify_entry_after s e o _ _ He)).
  by rewrite (bind_Ok _ _ _ _ _ (modify_entry_after s e o _ _ He)).
Qed.

Lemma set_ext_id s e o : entries (wd s) !! e = Some o -> mkSys (cm s) (set_ext e o (ext o) (wd s)) = s.
Proof.
  intros He. destruct s as [c [p en rd t]], o as [b x]. unfold set_ext, set_entries. cbn in *.
  by rewrite insert_id.
Qed.

Lemma htmAbort_body : line_body htmAbort_line count_sets rolled_back.
Proof.
  intros a e s o He. unfold htmAbort_line. rewrite (bind_Ok _ _ _ _ _ (read_entry_Ok _ _ _ He)).
  set (x := if m_htmInWriteSet (ext o) then with_members (pe_invalidateEntry (members (ext o))) (ext o) else ext o).
  rewrite (bind_Ok _ _ _ tt (mkSys (cm s) (set_ext e o x (wd s)))).
  - by apply release_line.
  - unfold x. destruct (m_htmInWriteSet (ext o)); [by rewrite (modify_entry_Ok _ _ _ _ He)|]. by rewrite set_ext_id.
Qed.

Lemma htmCommit_body : line_body htmCommit_line count_sets released.
Proof.
  intros a e s o He. unfold htmCommit_line. rewrite (bind_Ok _ _ _ _ _ (read_entry_Ok _ _ _ He)).
  rewrite <- (set_ext_id s e o He) at 1. by apply release_line.
Qed.

Lemma count_sets_fold xs a b : 0 <= a -> 0 <= b -> a + Z.of_nat (length xs) < 2 ^ 64 ->
  b + Z.of_nat (length xs) < 2 ^ 64 ->
  foldl count_sets (a, b) xs =
    (a + Z.of_nat (length (filter (fun x => m_htmInReadSet x = true) xs)),
     b + Z.of_nat (length (filter (fun x => m_htmInWriteSet x = true) xs))).
Proof.
  revert a b. induction xs as [|x xs IH]; intros a b Ha Hb Ha' Hb'; cbn [foldl].
  - cbn. f_equal; lia.
  - cbn [length] in *. rewrite !filter_cons. unfold count_sets at 2. cbn [fst snd].
    rewrite !(uwrap_small 64) by (destruct (m_htmInReadSet x), (m_htmInWriteSet x); lia).
    rewrite IH by (destruct (m_htmInReadSet x), (m_htmInWriteSet x); lia).
    f_equal; [destruct (m_htmInReadSet x)|destruct (m_htmInWriteSet x)]; rewrite ?decide_True, ?decide_False by done;
      cbn [length]; lia.
Qed.

Lemma all_lines_length s : cm_inv s -> Z.of_nat (length (all_lines s)) < 2 ^ 64.
Proof.
  intros I. destruct (inv_geo _ I) as [_ Ha Hs _ _]. destruct (inv_cells _ I) as [Hn Hm].
  assert (length (all_lines s) <= sets (cm s) * ways (cm s))%nat as Hle.
  { unfold all_lines. rewrite <- Hn. clear Hn. induction Hm as [|row v Hrow _ IH]; [done|].
    cbn [concat length]. rewrite omap_app, length_app.
    assert (forall r : list (option loc), length (omap id r) <= length r)%nat as Ho.
    { clear. intros r. induction r as [|[x|] r IHr]; cbn; lia. }
    specialize (Ho row). lia. }
  unfold sets, ways, max_sets in *. nia.
Qed.

(** ** Release of the locks of one context *)
Definition unlocked (context : Z) (x : AbstractCacheEntry Y) : AbstractCacheEntry Y :=
  if entry_isLocked context x then entry_clearLocked x else x.

Lemma clearLocked_body context : line_body (fun (_ : unit) line =>
    let* o := read_entry line in
    if entry_isLocked context o then modify_entry line entry_clearLocked else ret tt)
  (fun _ _ => tt) (unlocked context).
Proof.
  intros a e s o He. rewrite (bind_Ok _ _ _ _ _ (read_entry_Ok _ _ _ He)). unfold unlocked.
  destruct (entry_isLocked context (ext o)); [by apply modify_entry_Ok|]. by rewrite set_ext_id.
Qed.

(** ** One cached line *)
Lemma line_entry s a e : cm_inv s -> contents s !! a = Some e -> exists i j o,
  gl (m_cache (cm s)) i j = Some (Some e) /\ entries (wd s) !! e = Some o /\
  m_Address (ext o) = a /\ m_Permission (ext o) <> NotPresent.
Proof.
  intros I (i & j & o & r & rd & Hg & L & <-)%contents_Some; [|done]. exists i, j, o. by destruct L.
Qed.

Lemma modify_line s a e o f : cm_inv s -> contents s !! a = Some e -> entries (wd s) !! e = Some o ->
  (forall x, m_Address (f x) = m_Address x) -> m_Permission (f (ext o)) <> NotPresent ->
  modify_entry e f s = Ok (tt, mkSys (cm s) (set_ext e o (f (ext o)) (wd s))) /\
  cm_inv (mkSys (cm s) (set_ext e o (f (ext o)) (wd s))).
Proof.
  intros I Hc He Ha Hp. destruct (line_entry s a e I Hc) as (i & j & o' & Hg & He' & _).
  split; [by apply modify_entry_Ok|]. eapply set_ext_inv; [done|exact Hg|done|by rewrite Ha|done].
Qed.

(** [touch] and [setLastAccess], as every access does them. *)
Lemma touch_line s a e o : cm_inv s -> contents s !! a = Some e -> entries (wd s) !! e = Some o ->
  exists w', policy_touch e s = Ok (tt, mkSys (cm s) w') /\
    (do* policy_touch e ;; touch_lastAccess e) s =
      Ok (tt, mkSys (cm s) (set_ext e o (setLastAccess (curTick (wd s)) (ext o)) w')) /\
    frame (wd s) w' /\ cm_inv (mkSys (cm s) (set_ext e o (setLastAccess (curTick (wd s)) (ext o)) w')).
Proof.
  intros I Hc He. destruct (line_entry s a e I Hc) as (i & j & o' & Hg & He' & Ea & Hp).
  rewrite He in He'. injection He' as <-.
  destruct (policy_touch_Ok s i j e I Hg) as (w' & Hrun & F & I'). pose proof F as (Een & _ & Et).
  exists w'. split; [done|]. rewrite (bind_Ok _ _ _ _ _ Hrun). unfold touch_lastAccess. rewrite (bind_Ok _ _ _ _ _ eq_refl).
  cbn [wd]. rewrite Et. assert (entries (wd (mkSys (cm s) w')) !! e = Some o) as He1 by (cbn; by rewrite Een).
  split; [by rewrite (modify_entry_Ok _ _ _ _ He1)|]. split; [done|].
  apply (set_ext_inv (mkSys (cm s) w') i j e o); done.
Qed.
End Lines.
