(* ===== verification/CacheMemoryProps.v ===== *)
(** The correctness of the Ruby cache array: it implements a finite map from
    line addresses to entries with a bounded number of lines per set, whatever
    the replacement policy, in every state its operations can reach. *)
From Stdlib Require Import ZArith Lia.
From stdpp Require Import base numbers gmap list.
From S2P Require Import ARC.
From S2P Require Import Prelude ReplBase.
From S2P Require Import Bitfield Intmath RubyAddress BankedArray ALUFreeList.
From S2P Require Import CacheMemory CacheMemoryInv CacheMemoryOps CacheMemoryLoops.
Local Open Scope Z_scope.

(** What the operation of the weighted policy promises. *)
Class OccupancyLaws (P D : Type) `{ReplacementPolicyLaws P D} `{OccupancyPolicy P D} := {
  occ_touch_ok : forall touch, occupancy_touch = Some touch ->
    forall X (w : world P D X) r n rd, rds w !! r = Some rd -> rp_inv (policy w) (rp_data w) ->
    exists w', touch X r n w = Ok (tt, w') /\ frame w w' /\
      (forall r', r' <> r -> rds w' !! r' = rds w !! r') /\
      rp_inv (policy w') (rp_data w') /\
      (rp_live (data rd) = true -> exists d', rp_data w' !! r = Some d' /\ rp_live d' = true);
}.

Section Reachable.
Context {P D Y : Type} `{RP : ReplacementPolicy P D} {RL : ReplacementPolicyLaws P D}.
Context {OP : OccupancyPolicy P D} {OL : OccupancyLaws P D} {PE : ProtocolEntry Y}.
#[local] Abbreviation S := (cache_sys P D Y).
Implicit Types s : S.

(** An entry the controller is about to allocate is in no cell. *)
Definition uncached s (e : loc) : Prop := forall i j, gl (m_cache (cm s)) i j <> Some (Some e).

(** Any call of a controller, with what the code asks of it: addresses are 64-bit,
    an entry is allocated once, and a cached entry does not become [NotPresent]. *)
Inductive cache_step : S -> S -> Prop :=
| step_new s e y : entries (wd s) !! e = None ->
    cache_step s (mkSys (cm s) (set_entries (<[e := mkObject new_ReplaceableEntry (new_AbstractCacheEntry y)]>
      (entries (wd s))) (wd s)))
| step_allocate s a e e' s' : 0 <= a < 2 ^ 64 -> uncached s e -> allocate a e s = Ok (e', s') -> cache_step s s'
| step_deallocate s a s' : 0 <= a < 2 ^ 64 -> deallocate a s = Ok (tt, s') -> cache_step s s'
| step_probe s a b s' : 0 <= a < 2 ^ 64 -> cacheProbe a s = Ok (b, s') -> cache_step s s'
| step_try s a t r s' : 0 <= a < 2 ^ 64 -> tryCacheAccess a t s = Ok (r, s') -> cache_step s s'
| step_test s a t r s' : 0 <= a < 2 ^ 64 -> testCacheAccess a t s = Ok (r, s') -> cache_step s s'
| step_setMRU s a s' : 0 <= a < 2 ^ 64 -> setMRU a s = Ok (tt, s') -> cache_step s s'
| step_setMRU_entry s e s' : e ∈ all_lines s -> setMRU_entry e s = Ok (tt, s') -> cache_step s s'
| step_setMRU_occupancy s a n s' : 0 <= a < 2 ^ 64 -> setMRU_occupancy a n s = Ok (tt, s') -> cache_step s s'
| step_changePermission s e p s' : e ∈ all_lines s -> p <> NotPresent ->
    modify_entry e (changePermission p) s = Ok (tt, s') -> cache_step s s'
| step_htm_read s e b s' : e ∈ all_lines s -> modify_entry e (setInHtmReadSet b) s = Ok (tt, s') -> cache_step s s'
| step_htm_write s e b s' : e ∈ all_lines s -> modify_entry e (setInHtmWriteSet b) s = Ok (tt, s') -> cache_step s s'
| step_setLocked s a n s' : 0 <= a < 2 ^ 64 -> setLocked a n s = Ok (tt, s') -> cache_step s s'
| step_clearLocked s a s' : 0 <= a < 2 ^ 64 -> clearLocked a s = Ok (tt, s') -> cache_step s s'
| step_clearLockedAll s n s' : clearLockedAll n s = Ok (tt, s') -> cache_step s s'
| step_abort s s' : htmAbortTransaction s = Ok (tt, s') -> cache_step s s'
| step_commit s s' : htmCommitTransaction s = Ok (tt, s') -> cache_step s s'
| step_record s t a s' : recordRequestType t a s = Ok (tt, s') -> cache_step s s'
| step_check s t a b s' : checkResourceAvailable t a s = Ok (b, s') -> cache_step s s'
| step_time s t : cache_step s (mkSys (cm s) (mkWorld (policy (wd s)) (entries (wd s)) (rds (wd s)) t)).

(** ** Operations on one address *)

(** A call with an address that is no line address stops at its assertion. *)
Lemma assert_line_inv c a : geometry c -> 0 <= a < 2 ^ 64 -> assert_line c a = Ok tt -> is_line c a.
Proof.
  intros G Ha E. split; [done|]. unfold assert_line in E. rewrite cm_makeLineAddress_Ok in E by done.
  cbn [obind] in E. apply ocheck_Ok_inv in E. lia.
Qed.

Lemma ask_Ok_inv {A} (f : CacheMemory -> outcome A) s a s' :
  ask f s = Ok (a, s') -> f (cm s) = Ok a /\ s' = s.
Proof. unfold ask, bind, getS. apply lift_Ok_inv. Qed.

Lemma lookup_Ok_inv s a p s' : cm_inv s -> 0 <= a < 2 ^ 64 -> lookup a s = Ok (p, s') ->
  is_line (cm s) a /\ p = contents s !! a /\ s' = s.
Proof.
  intros I Ha Hrun. assert (is_line (cm s) a) as Hl.
  { unfold lookup in Hrun. apply bind_Ok_inv in Hrun as ([] & s1 & [E _]%ask_Ok_inv & _).
    eapply assert_line_inv; [apply I|done|exact E]. }
  rewrite lookup_Ok in Hrun by done. by injection Hrun as <- <-.
Qed.

Lemma touch_line_inv s a e u s' : cm_inv s -> contents s !! a = Some e ->
  (do* policy_touch e ;; touch_lastAccess e) s = Ok (u, s') -> cm_inv s' /\ cm s' = cm s.
Proof.
  intros I Hc Hrun. destruct (line_entry s a e I Hc) as (i & j & o & _ & He & _).
  destruct (touch_line s a e o I Hc He) as (w' & _ & E & _ & I'). rewrite E in Hrun. by injection Hrun as <- <-.
Qed.

Lemma occ_touch_inv s a e touch n u s' : cm_inv s -> contents s !! a = Some e -> occupancy_touch = Some touch ->
  onW (let* r := rd_ptr e in touch (AbstractCacheEntry Y) r n) s = Ok (u, s') ->
  cm_inv s' /\ cm s' = cm s /\ entries (wd s') = entries (wd s).
Proof.
  intros I (i & j & o & r & rd & Hg & L & Ea)%contents_Some Ht Hrun; [|done].
  destruct (occ_touch_ok touch Ht _ (wd s) r n rd (lo_rd _ _ _ _ _ _ _ L) (inv_policy _ I))
    as (w' & Hw & F & Ho & HP & Hl).
  erewrite onW_Ok in Hrun; [|rewrite (bind_Ok _ _ _ _ _ (rd_ptr_line _ _ _ _ _ _ _ L)); exact Hw].
  injection Hrun as <- <-. split; [|split; [done|apply F]].
  apply inv_frame; [done..|]. intros i' j' e' o' r' rd' Hg' L'. destruct (decide (r' = r)) as [->|Hne].
  - apply Hl. by eapply lo_live.
  - exists (data rd'). split; [|by eapply lo_live].
    unfold rp_data. rewrite lookup_fmap, Ho by done. by rewrite (lo_rd _ _ _ _ _ _ _ L').
Qed.

Lemma modify_cached s e f u s' : cm_inv s -> e ∈ all_lines s ->
  (forall x, m_Address (f x) = m_Address x) -> (forall x, m_Permission x <> NotPresent -> m_Permission (f x) <> NotPresent) ->
  modify_entry e f s = Ok (u, s') -> cm_inv s'.
Proof.
  intros I (a & Hc)%all_lines_contents Ha Hp Hrun; [|done].
  destruct (line_entry s a e I Hc) as (i & j & o & _ & He & _ & Hperm).
  destruct (modify_line s a e o f I Hc He Ha (Hp _ Hperm)) as [E I']. rewrite E in Hrun. by injection Hrun as <- <-.
Qed.

Lemma contents_all_lines s a e : cm_inv s -> contents s !! a = Some e -> e ∈ all_lines s.
Proof. intros I Hc. apply all_lines_contents; eauto. Qed.

(** The array and statistics members do not enter the invariant. *)
Lemma resources_inv s d t al st : cm_inv s -> cm_inv (mkSys (with_resources d t al st (cm s)) (wd s)).
Proof.
  intros [G C R Hrd Hinj Hline Htag Hb HP]. constructor; cbn; try done.
  - destruct G. by constructor.
  - intros i j e Hg. destruct (Hline _ _ _ Hg) as (o & r & rd & []). exists o, r, rd. by constructor.
Qed.

Lemma assert_step_inv {A} (k : unit -> M S A) s a r : cm_inv s -> 0 <= a < 2 ^ 64 ->
  bind (ask (fun c => assert_line c a)) k s = Ok r -> is_line (cm s) a /\ k tt s = Ok r.
Proof.
  intros I Ha Hrun. destruct r as [x s']. apply bind_Ok_inv in Hrun as ([] & s1 & [E ->]%ask_Ok_inv & Hk).
  split; [|done]. eapply assert_line_inv; [apply I|done|exact E].
Qed.

Lemma check_step_inv {A} b f (k : unit -> M S A) s r : bind (checkM b f) k s = Ok r -> b = true /\ k tt s = Ok r.
Proof.
  destruct r as [x s']. intros ([] & s1 & [E ->]%lift_Ok_inv & Hk)%bind_Ok_inv.
  split; [by eapply ocheck_Ok_inv|done].
Qed.

Lemma allocate_Ok_inv s a e e' s' : cm_inv s -> 0 <= a < 2 ^ 64 -> uncached s e ->
  allocate a e s = Ok (e', s') ->
  is_line (cm s) a /\ contents s !! a = None /\ cm_inv s' /\ e' = e /\ contents s' = <[a := e]> (contents s).
Proof.
  intros I Ha Hun Hrun. pose proof Hrun as Hall. unfold allocate in Hrun.
  apply (assert_step_inv _ _ _ _ I Ha) in Hrun as [Hl Hrun].
  rewrite (bind_Ok _ _ _ _ _ (isTagPresent_Ok _ _ I Hl)) in Hrun. apply check_step_inv in Hrun as [Hp Hrun].
  rewrite (bind_Ok _ _ _ _ _ (cacheAvail_Ok _ _ I Hl)) in Hrun. apply check_step_inv in Hrun as [Hv Hrun].
  assert (contents s !! a = None) as Hn.
  { destruct (contents s !! a) as [x|]; [|done]. exfalso. rewrite bool_decide_true in Hp; [done|eauto]. }
  rewrite Hn in Hv. rewrite bool_decide_false in Hv by (by intros []). cbn in Hv.
  rewrite (bind_Ok _ _ s (cm s) s) in Hrun by done.
  apply bind_Ok_inv in Hrun as (u & s1 & Hm & _).
  assert (exists o, entries (wd s) !! e = Some o) as [o He].
  { unfold modify_entry, onW, bind, deref_entry, getS, lift in Hm. cbn in Hm.
    destruct (entries (wd s) !! e); [eauto|done]. }
  destruct (allocate_run s a e o I Hl Hn Hv He Hun) as (j & r & rd & [Hg _] & Hr & Hrd & E).
  rewrite E in Hall. destruct (rp_reset r _) as [[[] w2]|] eqn:Ew; [|done]. injection Hall as <- <-.
  destruct (placed_inv s a e _ j r rd w2 I Hl Hn Hg Hun Hr Hrd Ew). done.
Qed.

Lemma deallocate_Ok_inv s a s' : cm_inv s -> 0 <= a < 2 ^ 64 -> deallocate a s = Ok (tt, s') -> cm_inv s'.
Proof.
  intros I Ha Hrun. pose proof Hrun as Hall. unfold deallocate in Hrun.
  apply bind_Ok_inv in Hrun as (p & s1 & (Hl & -> & ->)%lookup_Ok_inv & Hrun); [|done..].
  apply bind_Ok_inv in Hrun as (e & s1 & [Hc%oget_Ok_inv _]%lift_Ok_inv & _).
  destruct (deallocate_Ok s a e I Hc) as (s2 & E & I2 & _). rewrite E in Hall. by injection Hall as <-.
Qed.

Lemma cacheProbe_Ok_inv s a b s' : cm_inv s -> 0 <= a < 2 ^ 64 -> cacheProbe a s = Ok (b, s') -> cm_inv s'.
Proof.
  intros I Ha Hrun. pose proof Hrun as Hall. unfold cacheProbe in Hrun.
  apply (assert_step_inv _ _ _ _ I Ha) in Hrun as [Hl Hrun].
  rewrite (bind_Ok _ _ _ _ _ (cacheAvail_Ok _ _ I Hl)) in Hrun. apply check_step_inv in Hrun as [Hv _].
  apply negb_true_iff, orb_false_iff in Hv as [Hn%bool_decide_eq_false Hroom].
  destruct (cacheProbe_Ok s a I Hl) as (b' & v & w' & _ & E & _ & _ & _ & I'); [by apply eq_None_not_Some|done|].
  rewrite E in Hall. by injection Hall as <- <-.
Qed.

Lemma read_only {A} (m : M S A) s a s' : (forall s, match m s with Ok (_, s') => s' = s | Fault _ => True end) ->
  m s = Ok (a, s') -> s' = s.
Proof. intros H E. specialize (H s). by rewrite E in H. Qed.

Lemma read_entry_same e s a s' : read_entry e s = Ok (a, s') -> s' = s.
Proof.
  unfold read_entry, onW, bind, deref_entry, getS, lift. cbn. destruct (entries (wd s) !! e); [|done].
  cbn. destruct s. by intros [= _ <-].
Qed.

(** The part the two accesses share. *)
Lemma access_inv {A} (s s' : S) a (k : loc -> AbstractCacheEntry Y -> A) (none : A) r :
  cm_inv s -> 0 <= a < 2 ^ 64 ->
  (let* p := lookup a in
   match p with
   | Some e =>
       do* policy_touch e ;;
       do* touch_lastAccess e ;;
       let* d := getDataBlk e in
       let* o := read_entry e in
       ret (k d o)
   | None => ret none
   end) s = Ok (r, s') -> cm_inv s'.
Proof.
  intros I Ha Hrun. apply bind_Ok_inv in Hrun as (p & s1 & (Hl & -> & ->)%lookup_Ok_inv & Hrun); [|done..].
  destruct (contents s !! a) as [e|] eqn:Hc; [|by injection Hrun as _ <-].
  apply bind_Ok_inv in Hrun as (u & s1 & H1 & Hrun). apply bind_Ok_inv in Hrun as (u2 & s2 & H2 & Hrun).
  apply bind_Ok_inv in Hrun as (d & s3 & H3 & Hrun). apply bind_Ok_inv in Hrun as (o & s4 & H4 & Hrun).
  injection Hrun as _ <-. apply read_entry_same in H4 as ->.
  assert (s3 = s2) as -> by (unfold getDataBlk in H3; destruct pe_has_DataBlk; [by injection H3|done]).
  eapply (touch_line_inv s a e u2); [done|exact Hc|]. by rewrite (bind_Ok _ _ _ _ _ H1).
Qed.

(** Whether a request may use a line with the given permission. *)
Definition access_allowed (perm : AccessPermission) (type : RubyRequestType) : bool :=
  match perm, type with
  | Read_Write, _ | Read_Only, LD | Read_Only, IFETCH => true
  | _, _ => false
  end.

Lemma tryCacheAccess_eq a type s :
  tryCacheAccess a type s =
  (let* p := lookup a in
   match p with
   | Some e =>
       do* policy_touch e ;;
       do* touch_lastAccess e ;;
       let* d := getDataBlk e in
       let* o := read_entry e in
       ret (if access_allowed (m_Permission o) type then (true, Some d) else (false, None))
   | None => ret (false, None)
   end) s.
Proof.
  unfold tryCacheAccess, bind. destruct (lookup a s) as [[[e|] s1]|]; [|done..].
  destruct (policy_touch e s1) as [[u s2]|]; [|done]. destruct (touch_lastAccess e s2) as [[u2 s3]|]; [|done].
  destruct (getDataBlk e s3) as [[d s4]|]; [|done]. destruct (read_entry e s4) as [[o s5]|]; [|done].
  by destruct (m_Permission o), type.
Qed.

Lemma setMRU_inv s a u s' : cm_inv s -> 0 <= a < 2 ^ 64 -> setMRU a s = Ok (u, s') -> cm_inv s'.
Proof.
  intros I Ha Hrun. unfold setMRU in Hrun. apply bind_Ok_inv in Hrun as (l & s1 & [El ->]%ask_Ok_inv & Hrun).
  rewrite (cm_makeLineAddress_Ok _ (inv_geo _ I)) in El by done. injection El as <-.
  pose proof (line_of_is_line _ (inv_geo _ I) _ Ha) as [Hr _].
  apply bind_Ok_inv in Hrun as (p & s1 & (Hl & -> & ->)%lookup_Ok_inv & Hrun); [|done..].
  destruct (contents s !! _) as [e|] eqn:Hc; [|by injection Hrun as _ <-].
  eapply touch_line_inv; [done|exact Hc|exact Hrun].
Qed.

Lemma setMRU_occupancy_inv s a n u s' : cm_inv s -> 0 <= a < 2 ^ 64 ->
  setMRU_occupancy a n s = Ok (u, s') -> cm_inv s'.
Proof.
  intros I Ha Hrun. unfold setMRU_occupancy in Hrun.
  apply bind_Ok_inv in Hrun as (l & s1 & [El ->]%ask_Ok_inv & Hrun).
  rewrite (cm_makeLineAddress_Ok _ (inv_geo _ I)) in El by done. injection El as <-.
  pose proof (line_of_is_line _ (inv_geo _ I) _ Ha) as [Hr _].
  apply bind_Ok_inv in Hrun as (p & s1 & (Hl & -> & ->)%lookup_Ok_inv & Hrun); [|done..].
  destruct (contents s !! _) as [e|] eqn:Hc; [|by injection Hrun as _ <-].
  rewrite (bind_Ok _ _ s (cm s) s) in Hrun by done.
  destruct (m_use_occupancy (cm s)); [|eapply touch_line_inv; [done|exact Hc|exact Hrun]].
  apply bind_Ok_inv in Hrun as (u1 & s1 & H1 & Hrun).
  destruct occupancy_touch as [touch|] eqn:Ht; [|done].
  destruct (occ_touch_inv s _ e touch n u1 s1 I Hc Ht H1) as (I1 & Ec & Een).
  assert (contents s1 = contents s) as Ecs by (unfold contents; by rewrite Ec).
  eapply (modify_cached s1 e (setLastAccess (curTick (wd s1))) u); [done| |done|done|exact Hrun].
  eapply contents_all_lines; [done|]. rewrite Ecs. exact Hc.
Qed.

Lemma locked_inv s a f u s' : cm_inv s -> 0 <= a < 2 ^ 64 ->
  (forall x, m_Address (f x) = m_Address x) -> (forall x, m_Permission (f x) = m_Permission x) ->
  (let* p := lookup a in let* e := lift (oget AssertFailed p) in modify_entry e f) s = Ok (u, s') -> cm_inv s'.
Proof.
  intros I Ha Hfa Hfp Hrun. apply bind_Ok_inv in Hrun as (p & s1 & (Hl & -> & ->)%lookup_Ok_inv & Hrun); [|done..].
  apply bind_Ok_inv in Hrun as (e & s1 & [Hc%oget_Ok_inv ->]%lift_Ok_inv & Hrun).
  eapply (modify_cached s e f); [done|by eapply contents_all_lines|done|intros x; by rewrite Hfp|exact Hrun].
Qed.

Lemma changePermission_keeps p (x : AbstractCacheEntry Y) : p <> NotPresent ->
  m_Address (changePermission p x) = m_Address x /\ m_Permission (changePermission p x) <> NotPresent.
Proof. intros Hp. unfold changePermission. destruct (_ || _); done. Qed.

Lemma rolled_back_keeps (x : AbstractCacheEntry Y) :
  m_Address (rolled_back x) = m_Address x /\ m_Permission (rolled_back x) = m_Permission x.
Proof. unfold rolled_back. by destruct (m_htmInWriteSet x). Qed.

Lemma unlocked_keeps n (x : AbstractCacheEntry Y) :
  m_Address (unlocked n x) = m_Address x /\ m_Permission (unlocked n x) = m_Permission x.
Proof. unfold unlocked. by destruct (entry_isLocked n x). Qed.

Lemma on_stats_inv f s u s' : cm_inv s -> on_stats f s = Ok (u, s') -> cm_inv s'.
Proof. intros I. unfold on_stats, change. intros [= _ <-]. by apply resources_inv. Qed.

Lemma lines_loop_inv {A} (body : A -> loc -> M S A) h g a s b s' : line_body body h g -> cm_inv s ->
  (forall x, m_Address (g x) = m_Address x) -> (forall x, m_Permission (g x) = m_Permission x) ->
  foreach_line body a s = Ok (b, s') -> cm_inv s'.
Proof.
  intros HB I Ha Hp Hrun. destruct (foreach_line_Ok body h g a s HB I) as (xs & _ & E).
  rewrite E in Hrun. injection Hrun as _ <-. apply update_lines_inv; [done..|]. intros x. by rewrite Hp.
Qed.

Lemma recordRequestType_inv t a s u s' : cm_inv s -> recordRequestType t a s = Ok (u, s') -> cm_inv s'.
Proof.
  intros I Hrun. unfold recordRequestType in Hrun. rewrite (bind_Ok _ _ s s s) in Hrun by done.
  apply bind_Ok_inv in Hrun as (u1 & s1 & H1 & Hrun). eapply on_stats_inv; [|exact Hrun]. clear Hrun.
  destruct (m_resource_stalls (cm s)); [|by injection H1 as _ <-]. unfold change in H1.
  destruct t; cbn in H1;
    [unfold reserve_data in H1|unfold reserve_data in H1|unfold reserve_tag in H1|unfold reserve_tag in H1|
     unfold reserve_alu in H1];
    repeat match type of H1 with
    | context [obind ?m _] => destruct m; cbn [obind] in H1; [|done]
    end; injection H1 as _ <-; by apply resources_inv.
Qed.

Lemma checkResourceAvailable_inv t a s b s' : cm_inv s -> checkResourceAvailable t a s = Ok (b, s') -> cm_inv s'.
Proof.
  intros I Hrun. unfold checkResourceAvailable in Hrun. rewrite (bind_Ok _ _ s s s) in Hrun by done.
  destruct (m_resource_stalls (cm s)); cbn [negb] in Hrun; [|by injection Hrun as _ <-].
  apply bind_Ok_inv in Hrun as (ok & s1 & H1 & Hrun).
  assert (cm_inv s1) as I1.
  { destruct t; [by apply ask_Ok_inv in H1 as [_ ->]..|].
    apply bind_Ok_inv in H1 as (r & s2 & [_ ->]%ask_Ok_inv & H1).
    apply bind_Ok_inv in H1 as (u & s2 & H2 & H1). injection H1 as _ <-.
    unfold change in H2. injection H2 as _ <-. by apply resources_inv. }
  destruct ok; [by injection Hrun as _ <-|]. apply bind_Ok_inv in Hrun as (u & s2 & H2 & Hrun).
  injection Hrun as _ <-. by eapply on_stats_inv.
Qed.

(** ** Every step keeps the invariant *)
Lemma new_entry_inv s e y : cm_inv s -> entries (wd s) !! e = None ->
  cm_inv (mkSys (cm s) (set_entries (<[e := mkObject new_ReplaceableEntry (new_AbstractCacheEntry y)]>
    (entries (wd s))) (wd s))).
Proof.
  intros [G C R Hrd Hinj Hline Htag Hb HP] Hn. constructor; cbn; try done.
  - intros i j e' Hg. destruct (Hline _ _ _ Hg) as (o & r & rd & []). exists o, r, rd.
    constructor; cbn; try done. rewrite lookup_insert_ne; [done|]. intros <-. congruence.
  - intros a k Hk. destruct (Htag _ _ Hk) as (Hl & j & e' & o & -> & Hg & He & Ea). split; [done|].
    exists j, e', o. rewrite lookup_insert_ne; [done|]. intros <-. congruence.
  - apply map_Forall_insert_2; [|done]. cbn. unfold max_sets. lia.
Qed.

Lemma tick_inv s t : cm_inv s -> cm_inv (mkSys (cm s) (mkWorld (policy (wd s)) (entries (wd s)) (rds (wd s)) t)).
Proof.
  intros [G C R Hrd Hinj Hline Htag Hb HP]. constructor; cbn; try done.
  intros i j e Hg. destruct (Hline _ _ _ Hg) as (o & r & rd & []). exists o, r, rd. by constructor.
Qed.

Lemma cache_step_inv s s' : cm_inv s -> cache_step s s' -> cm_inv s'.
Proof.
  intros I Hstep. destruct Hstep as
    [s e y Hn|s a e e' s' Ha Hu Hr|s a s' Ha Hr|s a b s' Ha Hr|s a t r s' Ha Hr|s a t r s' Ha Hr|s a s' Ha Hr
    |s e s' He Hr|s a n s' Ha Hr|s e p s' He Hp Hr|s e b s' He Hr|s e b s' He Hr|s a n s' Ha Hr|s a s' Ha Hr
    |s n s' Hr|s s' Hr|s s' Hr|s t a s' Hr|s t a b s' Hr|s t].
  - by apply new_entry_inv.
  - by apply (allocate_Ok_inv s a e e' s').
  - by apply (deallocate_Ok_inv s a).
  - by apply (cacheProbe_Ok_inv s a b).
  - rewrite tryCacheAccess_eq in Hr. by apply access_inv in Hr.
  - by apply access_inv in Hr.
  - by apply setMRU_inv in Hr.
  - apply all_lines_contents in He as [a Hc]; [|done]. by apply (touch_line_inv s a e tt).
  - by apply setMRU_occupancy_inv in Hr.
  - eapply (modify_cached s e); [done|done| | |exact Hr]; intros x; by destruct (changePermission_keeps p x Hp).
  - by eapply (modify_cached s e); [..|exact Hr].
  - by eapply (modify_cached s e); [..|exact Hr].
  - by eapply (locked_inv s a (entry_setLocked n)); [..|exact Hr].
  - by eapply (locked_inv s a entry_clearLocked); [..|exact Hr].
  - eapply lines_loop_inv; [apply (clearLocked_body n)|done| | |exact Hr]; intros x; by apply unlocked_keeps.
  - apply bind_Ok_inv in Hr as (z & s1 & H1 & Hr). eapply on_stats_inv; [|exact Hr].
    eapply lines_loop_inv; [apply htmAbort_body|done| | |exact H1]; intros x; by apply rolled_back_keeps.
  - apply bind_Ok_inv in Hr as (z & s1 & H1 & Hr). eapply on_stats_inv; [|exact Hr].
    by eapply lines_loop_inv; [apply htmCommit_body|..|exact H1].
  - by apply recordRequestType_inv in Hr.
  - by apply checkResourceAvailable_inv in Hr.
  - by apply tick_inv.
Qed.

End Reachable.

(** ** A concrete cache: two sets of two ways of 64-byte lines, with ARC *)
#[local] Instance arc_no_occupancy : OccupancyPolicy ARC ARCReplData := None.
#[local] Instance arc_no_occupancy_laws : OccupancyLaws ARC ARCReplData.
Proof. by constructor. Qed.
#[local] Instance plain_entry : ProtocolEntry unit :=
  {| pe_initBlockSize := fun _ y => y; pe_setRubySystem := fun y => y; pe_has_DataBlk := true;
     pe_invalidateEntry := fun y => y |}.

Definition demo_array : BankedArray := mkBankedArray 1 1 500 (Some 0) 6 [new_AccessRecord].
Definition demo_object : CacheMemory :=
  mkCacheMemory false ∅ [] demo_array demo_array (mkALUFreeListArray 64 0 0 [] 6) 256 0 0 2 6 false 64 [] false
    new_Stats.
Definition demo_start : cache_sys ARC ARCReplData unit := mkSys demo_object (mkWorld new_ARC ∅ ∅ 0).

Definition result {A B} (d : B) (o : outcome (A * B)) : B :=
  match o with Ok (_, b) => b | Fault _ => d end.

(** The cache after [init], with four entries made by the controller, and after
    two allocations in the first set. *)
Definition demo_entries : gmap loc (object (AbstractCacheEntry unit)) :=
  let o := mkObject new_ReplaceableEntry (new_AbstractCacheEntry tt) in
  {[1%positive := o; 2%positive := o; 3%positive := o; 4%positive := o]}.
Definition demo_init : cache_sys ARC ARCReplData unit :=
  let s := result demo_start (init demo_start) in mkSys (cm s) (mkWorld (policy (wd s)) demo_entries (rds (wd s)) 10).
Definition demo_one : cache_sys ARC ARCReplData unit := result demo_init (allocate 0x0 1%positive demo_init).
Definition demo_two : cache_sys ARC ARCReplData unit :=
  let s := result demo_one (allocate 0x80 2%positive demo_one) in
  mkSys (cm s) (mkWorld (policy (wd s)) (entries (wd s)) (rds (wd s)) 20).

Lemma arc_instantiates : instantiates (P := ARC) (D := ARCReplData).
Proof. intros p m _. by eexists _, _. Qed.

Lemma demo_constructed : constructed (cm demo_start).
Proof. split; vm_compute; repeat split; congruence. Qed.

Lemma demo_policy : rp_inv (policy (wd demo_start)) (rp_data (wd demo_start)).
Proof.
  split; [split; try (by constructor); vm_compute; congruence|]. unfold rp_data. cbn. rewrite fmap_empty.
  apply map_Forall_empty.
Qed.

Lemma demo_init_inv : cm_inv demo_init /\ contents demo_init = ∅.
Proof.
  destruct (init_Ok demo_start arc_instantiates demo_constructed demo_policy) as (s & E & I & C & _ & _ & Een);
    [apply map_Forall_empty|].
  unfold demo_init. rewrite E. cbv zeta. cbn [result]. destruct s as [c [p en rd t]]. cbn in Een. subst en. split; [|exact C].
  set (o := mkObject new_ReplaceableEntry (new_AbstractCacheEntry tt)).
  apply (tick_inv (mkSys c (mkWorld p demo_entries rd t))).
  refine (new_entry_inv (mkSys c (mkWorld p {[2%positive := o; 3%positive := o; 4%positive := o]} rd t)) 1 tt _ _); [|done].
  refine (new_entry_inv (mkSys c (mkWorld p {[3%positive := o; 4%positive := o]} rd t)) 2 tt _ _); [|done].
  refine (new_entry_inv (mkSys c (mkWorld p {[4%positive := o]} rd t)) 3 tt _ _); [|done].
  by refine (new_entry_inv (mkSys c (mkWorld p ∅ rd t)) 4 tt _ _).
Qed.

(** The entries of a concrete cache are read off its cells. *)
Definition cells_have (s : cache_sys ARC ARCReplData unit) (e : loc) : bool :=
  existsb (existsb (fun p => bool_decide (p = Some e))) (m_cache (cm s)).
Lemma cells_have_uncached s e : cells_have s e = false -> uncached s e.
Proof.
  intros Hn i j Hg. rewrite <- not_true_iff_false in Hn. apply Hn. unfold gl in Hg.
  destruct (m_cache (cm s) !! i) as [row|] eqn:Hi; [|done]. cbn in Hg. unfold cells_have.
  apply existsb_exists. exists row. split; [by eapply list_elem_of_In, list_elem_of_lookup_2|].
  apply existsb_exists. exists (Some e). split; [by eapply list_elem_of_In, list_elem_of_lookup_2|].
  by apply bool_decide_eq_true.
Qed.

Lemma demo_one_inv : cm_inv demo_one /\ contents demo_one = {[0 := 1%positive]}.
Proof.
  destruct demo_init_inv as [I C].
  destruct (allocate 0x0 1%positive demo_init) as [[e s]|f] eqn:E; [|vm_compute in E; discriminate].
  destruct (allocate_Ok_inv demo_init 0x0 1%positive e s I) as (_ & _ & I' & _ & C'); [lia| |exact E|].
  - by apply cells_have_uncached.
  - unfold demo_one. rewrite E. cbn [result]. split; [done|]. rewrite C', C. done.
Qed.

Lemma demo_two_inv : cm_inv demo_two /\ contents demo_two = {[0x80 := 2%positive; 0x0 := 1%positive]}.
Proof.
  destruct demo_one_inv as [I C].
  destruct (allocate 0x80 2%positive demo_one) as [[e s]|f] eqn:E; [|vm_compute in E; discriminate].
  destruct (allocate_Ok_inv demo_one 0x80 2%positive e s I) as (_ & _ & I' & _ & C'); [lia| |exact E|].
  - by apply cells_have_uncached.
  - unfold demo_two. rewrite E. cbn [result]. split; [by apply tick_inv|]. unfold contents in *. cbn.
    rewrite C', C. done.
Qed.

Section Properties.
Context {P D Y : Type} `{RP : ReplacementPolicy P D} {RL : ReplacementPolicyLaws P D}.
Context {OP : OccupancyPolicy P D} {OL : OccupancyLaws P D} {PE : ProtocolEntry Y}.
#[local] Abbreviation S := (cache_sys P D Y).
Implicit Types s : S.

(** C14 (refinement). On a cache in a valid state the look-ups read the finite map it
    implements: [lookup] and [isTagPresent] by line address, [cacheAvail] whether
    the address is in the map or its set holds fewer lines than ways; no set
    ever holds more, and each entry carries the address it is found at. *)
Theorem cache_lookups_read_map s a : cm_inv s -> is_line (cm s) a ->
  lookup a s = Ok (contents s !! a, s) /\
  isTagPresent a s = Ok (bool_decide (is_Some (contents s !! a)), s) /\
  cacheAvail a s = Ok (bool_decide (is_Some (contents s !! a) \/
    (size (lines_of_set s (set_of (cm s) a)) < ways (cm s))%nat), s) /\
  (size (lines_of_set s (set_of (cm s) a)) <= ways (cm s))%nat /\
  (forall b e, contents s !! b = Some e ->
     exists o, entries (wd s) !! e = Some o /\ m_Address (ext o) = b).
Proof.
  intros I Hl. split; [by apply lookup_Ok|]. split; [by apply isTagPresent_Ok|].
  assert (set_of (cm s) a < sets (cm s))%nat as Hi by (apply set_of_lt, I).
  split; [|split].
  - rewrite cacheAvail_Ok, has_room_count by done. do 2 f_equal.
    apply eq_true_iff_eq. rewrite orb_true_iff, !bool_decide_eq_true. done.
  - rewrite size_lines_of_set by done. unfold row_entries. destruct (inv_cells _ I) as [Hn Hm].
    destruct (lookup_lt_is_Some_2 (m_cache (cm s)) (set_of (cm s) a)) as [row Hr]; [lia|]. rewrite Hr. cbn.
    rewrite <- (Forall_lookup_1 _ _ _ _ Hm Hr). clear. induction row as [|[x|] row IH]; cbn; lia.
  - intros b e Hc. destruct (line_entry s b e I Hc) as (_ & _ & o & _ & He & Ea & _). eauto.
Qed.

(** C15 (refinement). [allocate] of an absent line address in a set with room: the
    entry takes the first empty way with the replacement data of that way, and
    the call returns exactly when the policy's [reset] does.  Then the map has
    gained the address and the invariant holds again. *)
Theorem allocate_inserts s a e o :
  cm_inv s -> is_line (cm s) a -> contents s !! a = None ->
  (size (lines_of_set s (set_of (cm s) a)) < ways (cm s))%nat ->
  entries (wd s) !! e = Some o -> uncached s e ->
  let i := set_of (cm s) a in
  exists j r rd, first_empty s i j /\ gl (replacement_data (cm s)) i j = Some (Some r) /\
    rds (wd s) !! r = Some rd /\
    let w1 := placed_wd (wd s) a e (prepared (cm s) (ext o)) i j r rd in
    match rp_reset r w1 with
    | Ok (_, w2) => exists s', allocate a e s = Ok (e, s') /\ wd s' = w2 /\ cm_inv s' /\
        contents s' = <[a := e]> (contents s)
    | Fault f => allocate a e s = Fault f
    end.
Proof.
  intros I Hl Hn Hroom He Hu i. assert (i < sets (cm s))%nat as Hi by (apply set_of_lt, I).
  assert (has_room s i = true) as Hr by (rewrite has_room_count by done; by apply bool_decide_eq_true).
  destruct (allocate_run s a e o I Hl Hn Hr He Hu) as (j & r & rd & Hfirst & Hg & Hrd & E).
  exists j, r, rd. split; [done|]. split; [done|]. split; [done|]. cbv zeta. fold i in E.
  destruct (rp_reset r _) as [[[] w2]|f] eqn:Ew; [|done].
  destruct (placed_inv s a e _ j r rd w2 I Hl Hn (proj1 Hfirst) Hu Hg Hrd Ew) as [I' C'].
  eexists. split; [exact E|]. done.
Qed.

(** C16 (refinement). [deallocate] of a cached line always returns: the policy is told
    through [invalidate] on the data of the line, the entry is deleted, and the
    map has lost the address. *)
Theorem deallocate_removes s a e : cm_inv s -> contents s !! a = Some e ->
  exists s' r w1, deallocate a s = Ok (tt, s') /\ cand_rd (wd s) e = Some r /\
    rp_invalidate r (wd s) = Ok (tt, w1) /\ policy (wd s') = policy w1 /\ rds (wd s') = rds w1 /\
    entries (wd s') = delete e (entries (wd s)) /\
    cm_inv s' /\ contents s' = delete a (contents s).
Proof.
  intros I Hc. destruct (deallocate_Ok s a e I Hc) as (s' & E & I' & C' & Een & (r & Hr & w1 & Hw & Hp & Hd) & _).
  exists s', r, w1. done.
Qed.

(** C17 (safety). A miss in a full set can always be served: [cacheProbe] returns the
    address of the line the policy chooses among the ways of the set, in their
    order - a cached line of the same set - and once it is deallocated,
    [cacheAvail] holds for the address that missed. *)
Theorem probe_and_deallocate_make_room s a :
  cm_inv s -> is_line (cm s) a -> contents s !! a = None ->
  size (lines_of_set s (set_of (cm s) a)) = ways (cm s) ->
  exists b v s1 s2, cacheProbe a s = Ok (b, s1) /\
    (exists w', rp_getVictim (set_entries_of s (set_of (cm s) a)) (wd s) = Ok (Some v, w')) /\
    contents s !! b = Some v /\ set_of (cm s) b = set_of (cm s) a /\ contents s1 = contents s /\
    deallocate b s1 = Ok (tt, s2) /\ contents s2 = delete b (contents s) /\ cm_inv s2 /\
    cacheAvail a s2 = Ok (true, s2).
Proof.
  intros I Hl Hn Hfull. assert (set_of (cm s) a < sets (cm s))%nat as Hi by (apply set_of_lt, I).
  assert (has_room s (set_of (cm s) a) = false) as Hr.
  { rewrite has_room_count by done. apply bool_decide_eq_false. lia. }
  destruct (cacheProbe_Ok s a I Hl Hn Hr) as (b & v & w' & Hv & Hp & Hb & Hs & F & I1).
  destruct (deallocate_Ok (mkSys (cm s) w') b v I1 Hb) as (s2 & Hd & I2 & C2 & _ & _ & Hsh).
  exists b, v, (mkSys (cm s) w'), s2. do 6 (split; [by eauto|]). split; [done|]. split; [done|].
  destruct (same_shape_views _ _ a Hsh) as (Es & Ew & _ & El). cbn [cm] in Es, Ew, El.
  rewrite (cacheAvail_Ok s2 a I2 (proj2 El Hl)), (has_room_count s2 _ I2 (set_of_lt _ (inv_geo _ I2) a)). do 2 f_equal.
  apply orb_true_iff. right. apply bool_decide_eq_true. rewrite Ew, Es, <- Hfull.
  assert (lines_of_set s2 (set_of (cm s) a) = delete b (lines_of_set s (set_of (cm s) a))) as ->.
  { unfold lines_of_set. rewrite C2, <- map_filter_delete. apply map_filter_ext. intros x e _. cbn.
    destruct (same_shape_views _ _ x Hsh) as (-> & _). done. }
  rewrite map_size_delete_Some by (exists v; by apply lines_of_set_Some).
  rewrite Hfull. destruct (inv_geo _ I) as [_ ? _ _ _]. unfold ways. lia.
Qed.

(** C13 (invariant). From [init] on, whatever calls a controller makes and in whatever
    order, in every state the calls that return lead to, the invariant holds:
    tag index, cells, positions, replacement data and policy agree. *)
Theorem cache_reachable_invariant s0 s1 s :
  instantiates (P := P) (D := D) -> constructed (cm s0) ->
  rp_inv (policy (wd s0)) (rp_data (wd s0)) -> sets_bounded (wd s0) ->
  init s0 = Ok (tt, s1) -> rtc cache_step s1 s -> cm_inv s.
Proof.
  intros HI Hc HP HB Hi Hsteps. destruct (init_Ok s0 HI Hc HP HB) as (s1' & E & I & _).
  rewrite E in Hi. injection Hi as <-. clear E. induction Hsteps as [|x y z Hxy _ IH]; [done|].
  apply IH. by eapply cache_step_inv.
Qed.

(** [init] of a cache with usable parameters returns, and leaves an
    empty cache of the size the parameters give, with replacement data of its
    own for every way. *)
Lemma init_gives_empty_cache s :
  instantiates (P := P) (D := D) -> constructed (cm s) ->
  rp_inv (policy (wd s)) (rp_data (wd s)) -> sets_bounded (wd s) ->
  exists s', init s = Ok (tt, s') /\ cm_inv s' /\ contents s' = ∅ /\
    Z.of_nat (sets (cm s')) = m_cache_size (cm s) / m_cache_assoc (cm s) / m_block_size (cm s) /\
    Z.of_nat (ways (cm s')) = m_cache_assoc (cm s).
Proof.
  intros HI Hc HP HB. destruct (init_Ok s HI Hc HP HB) as (s' & E & I & C & Hn & Hm & _).
  exists s'. destruct Hc. split; [done|]. split; [done|]. split; [done|]. rewrite Hn, Hm. lia.
Qed.

(** C19 (functional). The end of a transaction returns, keeps the map, clears the
    read-set and write-set marks and the lock of every cached line and of no
    other entry, and records how many lines had each mark; an abort also
    invalidates exactly the lines of the write set. *)
Theorem transactions_end s : cm_inv s ->
  exists s1 s2 xs,
    htmAbortTransaction s = Ok (tt, s1) /\ htmCommitTransaction s = Ok (tt, s2) /\
    cm_inv s1 /\ cm_inv s2 /\ contents s1 = contents s /\ contents s2 = contents s /\
    (forall e o, entries (wd s) !! e = Some o ->
       entries (wd s1) !! e = Some (if bool_decide (e ∈ all_lines s)
         then mkObject (base o) (rolled_back (ext o)) else o) /\
       entries (wd s2) !! e = Some (if bool_decide (e ∈ all_lines s)
         then mkObject (base o) (released (ext o)) else o)) /\
    Forall2 (fun e x => ext <$> entries (wd s) !! e = Some x) (all_lines s) xs /\
    let sizes := (Z.of_nat (length (filter (fun x => m_htmInReadSet x = true) xs)),
                  Z.of_nat (length (filter (fun x => m_htmInWriteSet x = true) xs))) in
    cacheMemoryStats (cm s1) = sample_abort sizes (cacheMemoryStats (cm s)) /\
    cacheMemoryStats (cm s2) = sample_commit sizes (cacheMemoryStats (cm s)).
Proof.
  intros I. destruct (foreach_line_Ok _ _ _ (0, 0) s htmAbort_body I) as (xs & Hxs & E1).
  destruct (foreach_line_Ok _ _ _ (0, 0) s htmCommit_body I) as (xs' & Hxs' & E2).
  assert (xs' = xs) as ->.
  { clear -Hxs Hxs'. revert xs' Hxs'. induction Hxs as [|e x l xs Hx _ IH]; intros xs' Hxs'.
    - by apply Forall2_nil_inv_l in Hxs' as ->.
    - apply Forall2_cons_inv_l in Hxs' as (x' & l' & Hx' & Hl & ->). rewrite Hx in Hx'. injection Hx' as <-.
      f_equal. by apply IH. }
  pose proof (all_lines_length s I). pose proof (Forall2_length _ _ _ Hxs) as Hlen.
  rewrite count_sets_fold, !Z.add_0_l in E1, E2 by lia.
  eexists _, _, xs. split; [unfold htmAbortTransaction; rewrite (bind_Ok _ _ _ _ _ E1); reflexivity|].
  split; [unfold htmCommitTransaction; rewrite (bind_Ok _ _ _ _ _ E2); reflexivity|].
  split; [apply (resources_inv (mkSys (cm s) _)), update_lines_inv; [done|..]; intros x;
    destruct (rolled_back_keeps x) as [Ea Ep]; rewrite ?Ea, ?Ep; done|].
  split; [by apply (resources_inv (mkSys (cm s) _)), update_lines_inv|].
  split; [done|]. split; [done|]. split; [|done].
  intros e o He. unfold update_lines. cbn. rewrite !map_lookup_imap, He. done.
Qed.

(** C20 (functional). An access finds the line of its address and always returns: it
    is granted, with the data block of the entry, when the permission of the
    entry allows the request; on a hit, granted or not, the policy sees a touch
    and the last access is the current tick; on a miss nothing changes. *)
Theorem access_needs_permission s a type : cm_inv s -> is_line (cm s) a -> pe_has_DataBlk = true ->
  match contents s !! a with
  | Some e => exists o s' w', entries (wd s) !! e = Some o /\
      tryCacheAccess a type s =
        Ok (if access_allowed (m_Permission (ext o)) type then (true, Some e) else (false, None), s') /\
      policy_touch e s = Ok (tt, mkSys (cm s) w') /\
      s' = mkSys (cm s) (set_ext e o (setLastAccess (curTick (wd s)) (ext o)) w') /\ cm_inv s' /\
      contents s' = contents s
  | None => tryCacheAccess a type s = Ok ((false, None), s)
  end.
Proof.
  intros I Hl Hd. rewrite tryCacheAccess_eq. rewrite (bind_Ok _ _ _ _ _ (lookup_Ok _ _ I Hl)).
  destruct (contents s !! a) as [e|] eqn:Hc; [|done].
  destruct (line_entry s a e I Hc) as (i & j & o & Hg & He & _).
  destruct (touch_line s a e o I Hc He) as (w' & Ht & E & F & I'). exists o. eexists _, w'. split; [done|].
  split; [|done].
  apply bind_Ok_inv in E as (u1 & s1 & H1 & H2). rewrite (bind_Ok _ _ _ _ _ H1), (bind_Ok _ _ _ _ _ H2).
  unfold getDataBlk. rewrite Hd. set (s' := mkSys (cm s) _). rewrite (bind_Ok _ _ s' e s') by done.
  rewrite (bind_Ok _ _ s' (setLastAccess (curTick (wd s)) (ext o)) s'); [reflexivity|].
  apply (read_entry_Ok s' e (mkObject (base o) _)). apply lookup_insert_eq.
Qed.

Lemma with_cached_line {A} (k : loc -> M S A) s a e : cm_inv s -> contents s !! a = Some e ->
  (let* p := lookup a in let* e := lift (oget AssertFailed p) in k e) s = k e s.
Proof.
  intros I Hc. rewrite (bind_Ok _ _ _ _ _ (lookup_Ok s a I (contents_line s a e I Hc))), Hc.
  by rewrite (bind_Ok _ _ s e s).
Qed.

Lemma isLocked_Ok s a e o m : cm_inv s -> contents s !! a = Some e -> entries (wd s) !! e = Some o ->
  isLocked a m s = Ok (m_locked (ext o) =? m, s).
Proof.
  intros I Hc He. unfold isLocked. rewrite (with_cached_line _ s a e I Hc).
  by rewrite (bind_Ok _ _ _ _ _ (read_entry_Ok _ _ _ He)).
Qed.

(** A lock taken on a cached line is seen by the context that took it
    and by no other until it is cleared; releasing the locks of all lines of
    another context leaves it. *)
Lemma locks_by_context s a n : cm_inv s -> is_Some (contents s !! a) ->
  exists s1 s2, setLocked a n s = Ok (tt, s1) /\
    (forall m, isLocked a m s1 = Ok (n =? m, s1)) /\
    clearLocked a s1 = Ok (tt, s2) /\ (forall m, isLocked a m s2 = Ok (-1 =? m, s2)) /\
    (forall k, exists s3, clearLockedAll k s1 = Ok (tt, s3) /\
       forall m, isLocked a m s3 = Ok ((if n =? k then -1 else n) =? m, s3)).
Proof.
  intros I [e Hc]. destruct (line_entry s a e I Hc) as (i & j & o & Hg & He & _ & Hp).
  destruct (modify_line s a e o (entry_setLocked n) I Hc He) as [E1 I1]; [done..|].
  set (s1 := mkSys _ _) in *. set (o1 := mkObject (base o) (entry_setLocked n (ext o))).
  assert (entries (wd s1) !! e = Some o1) as He1 by apply lookup_insert_eq.
  destruct (modify_line s1 a e o1 entry_clearLocked I1 Hc He1) as [E2 I2]; [done..|].
  set (s2 := mkSys (cm s1) (set_ext e o1 (entry_clearLocked (ext o1)) (wd s1))) in *. exists s1, s2.
  split; [exact (eq_trans (with_cached_line (fun e => modify_entry e (entry_setLocked n)) s a e I Hc) E1)|].
  split; [intros m; by rewrite (isLocked_Ok s1 a e o1 m I1 Hc He1)|].
  split; [exact (eq_trans (with_cached_line (fun e => modify_entry e entry_clearLocked) s1 a e I1 Hc) E2)|].
  split; [intros m; by rewrite (isLocked_Ok s2 a e (mkObject (base o1) (entry_clearLocked (ext o1))) m I2 Hc (lookup_insert_eq _ _ _))|].
  intros k. destruct (foreach_line_Ok _ _ _ tt s1 (clearLocked_body k) I1) as (xs & _ & E3).
  destruct (foldl _ tt xs). eexists. split; [exact E3|]. intros m.
  set (s3 := mkSys _ _). assert (cm_inv s3) as I3.
  { apply update_lines_inv; [done|..]; intros x; destruct (unlocked_keeps k x) as [Ea Ep]; by rewrite ?Ea, ?Ep. }
  rewrite (isLocked_Ok s3 a e (mkObject (base o1) (unlocked k (ext o1))) m I3 Hc).
  - do 2 f_equal. unfold unlocked, entry_isLocked. cbn. by destruct (n =? k).
  - change (entries (wd s3)) with (update_lines (unlocked k) (all_lines s1) (entries (wd s1))).
    unfold update_lines. rewrite map_lookup_imap, He1. cbn [mbind option_bind].
    rewrite bool_decide_true; [done|]. by apply (contents_all_lines s1 a).
Qed.

End Properties.

Lemma cache_lookups_read_map_witness :
  lookup 0x80 demo_two = Ok (Some 2%positive, demo_two) /\ cacheAvail 0x100 demo_two = Ok (false, demo_two).
Proof.
  destruct demo_two_inv as [I C].
  destruct (cache_lookups_read_map demo_two 0x80 I) as (E & _); [vm_compute; repeat split; congruence|].
  destruct (cache_lookups_read_map demo_two 0x100 I) as (_ & _ & E' & _); [vm_compute; repeat split; congruence|].
  split; [refine (eq_trans E _)|refine (eq_trans E' _)]; do 2 f_equal; vm_compute; reflexivity.
Defined.

Lemma allocate_inserts_witness : exists s', allocate 0x40 3%positive demo_two = Ok (3%positive, s') /\
  contents s' = {[0x40 := 3%positive; 0x80 := 2%positive; 0x0 := 1%positive]}.
Proof.
  destruct demo_two_inv as [I C].
  destruct (entries (wd demo_two) !! 3%positive) as [o|] eqn:He; [|vm_compute in He; discriminate].
  destruct (allocate_inserts demo_two 0x40 3%positive o I) as (j & r & rd & _ & _ & _ & Hrun);
    [vm_compute; repeat split; congruence|by rewrite C|vm_compute; lia|done|by apply cells_have_uncached|].
  cbv zeta in Hrun. destruct (rp_reset r _) as [[[] w2]|f].
  - destruct Hrun as (s' & E & _ & _ & C'). exists s'. split; [exact E|]. by rewrite C', C.
  - vm_compute in Hrun. discriminate.
Defined.

Lemma deallocate_removes_witness : exists s', deallocate 0x80 demo_two = Ok (tt, s') /\
  contents s' = {[0x0 := 1%positive]}.
Proof.
  destruct demo_two_inv as [I C].
  destruct (deallocate_removes demo_two 0x80 2%positive I) as (s' & r & w1 & E & _ & _ & _ & _ & _ & _ & C');
    [by rewrite C|]. exists s'. split; [exact E|]. by rewrite C', C.
Defined.

Lemma probe_and_deallocate_make_room_witness : exists b s1 s2, cacheProbe 0x100 demo_two = Ok (b, s1) /\
  deallocate b s1 = Ok (tt, s2) /\ cacheAvail 0x100 s2 = Ok (true, s2).
Proof.
  destruct demo_two_inv as [I C].
  destruct (probe_and_deallocate_make_room demo_two 0x100 I)
    as (b & v & s1 & s2 & E1 & _ & _ & _ & _ & E2 & _ & _ & E3);
    [vm_compute; repeat split; congruence|by rewrite C|vm_compute; reflexivity|].
  exists b, s1, s2. exact (conj E1 (conj E2 E3)).
Defined.

Lemma cache_reachable_invariant_witness : exists s1, init demo_start = Ok (tt, s1) /\ cm_inv s1.
Proof.
  destruct (init demo_start) as [[[] s1]|f] eqn:E; [|vm_compute in E; discriminate].
  exists s1. split; [reflexivity|].
  apply (cache_reachable_invariant demo_start s1 s1 arc_instantiates demo_constructed demo_policy);
    [apply map_Forall_empty|exact E|apply rtc_refl].
Defined.

Lemma init_gives_empty_cache_witness : exists s, init demo_start = Ok (tt, s) /\ contents s = ∅ /\
  Z.of_nat (sets (cm s)) = 2.
Proof.
  destruct (init_gives_empty_cache demo_start arc_instantiates demo_constructed demo_policy)
    as (s & E & _ & C & Hn & _); [apply map_Forall_empty|].
  exists s. split; [exact E|]. split; [exact C|]. rewrite Hn. reflexivity.
Defined.

Lemma transactions_end_witness : exists s1, htmAbortTransaction demo_two = Ok (tt, s1) /\
  contents s1 = {[0x80 := 2%positive; 0x0 := 1%positive]}.
Proof.
  destruct demo_two_inv as [I C].
  destruct (transactions_end demo_two I) as (s1 & s2 & xs & E & _ & _ & _ & C1 & _).
  exists s1. split; [exact E|]. by rewrite C1.
Defined.

Lemma access_needs_permission_witness : exists e o s', entries (wd demo_two) !! e = Some o /\
  tryCacheAccess 0x80 LD demo_two =
    Ok (if access_allowed (m_Permission (ext o)) LD then (true, Some e) else (false, None), s').
Proof.
  destruct demo_two_inv as [I C].
  pose proof (access_needs_permission demo_two 0x80 LD I) as H. rewrite C in H.
  destruct H as (o & s' & w' & He & E & _); [vm_compute; repeat split; congruence|reflexivity|].
  exists 2%positive, o, s'. exact (conj He E).
Defined.

Lemma locks_by_context_witness : exists s1, setLocked 0x80 7 demo_two = Ok (tt, s1) /\
  isLocked 0x80 7 s1 = Ok (true, s1) /\ isLocked 0x80 3 s1 = Ok (false, s1).
Proof.
  destruct demo_two_inv as [I C].
  destruct (locks_by_context demo_two 0x80 7 I) as (s1 & s2 & E & El & _); [rewrite C; by eexists|].
  exists s1. split; [exact E|]. split; [exact (El 7)|exact (El 3)].
Defined.

(** ** ARC behind the cache array *)

(** Both lines of the first set are probed for eviction, used, and probed again. *)
Definition at_tick (t : Z) (s : cache_sys ARC ARCReplData unit) : cache_sys ARC ARCReplData unit :=
  mkSys (cm s) (mkWorld (policy (wd s)) (entries (wd s)) (rds (wd s)) t).
Definition probed : cache_sys ARC ARCReplData unit := result demo_two (cacheProbe 0x100 demo_two).
Definition used_0 : cache_sys ARC ARCReplData unit := result probed (setMRU 0x0 probed).
Definition used_1 : cache_sys ARC ARCReplData unit := result used_0 (setMRU 0x80 used_0).
Definition probed_again : cache_sys ARC ARCReplData unit :=
  result used_1 (cacheProbe 0x100 (at_tick 30 used_1)).
Definition evicted : cache_sys ARC ARCReplData unit := result probed_again (deallocate 0x0 probed_again).

(** C18 (error). With ARC as its policy, the cache reaches a state, through [cacheProbe],
    [setMRU] and [deallocate] alone, where a line with room in its set cannot be
    allocated: [ARC::adjustP] divides by zero. *)
Theorem arc_stops_an_allocation :
  rtc cache_step demo_two evicted /\ cm_inv evicted /\ is_line (cm evicted) 0x100 /\
  cacheAvail 0x100 evicted = Ok (true, evicted) /\ allocate 0x100 3%positive evicted = Fault DivByZero.
Proof.
  assert (rtc cache_step demo_two evicted) as Hsteps.
  { eapply rtc_l; [apply (step_probe demo_two 0x100 0x0 probed); [lia|vm_compute; reflexivity]|].
    eapply rtc_l; [apply (step_setMRU probed 0x0 used_0); [lia|vm_compute; reflexivity]|].
    eapply rtc_l; [apply (step_setMRU used_0 0x80 used_1); [lia|vm_compute; reflexivity]|].
    eapply rtc_l; [apply (step_time used_1 30)|].
    eapply rtc_l; [apply (step_probe (at_tick 30 used_1) 0x100 0x0 probed_again); [lia|vm_compute; reflexivity]|].
    eapply rtc_l; [apply (step_deallocate probed_again 0x0 evicted); [lia|vm_compute; reflexivity]|].
    apply rtc_refl. }
  split; [done|]. split.
  - clear -Hsteps. destruct demo_two_inv as [I _]. induction Hsteps as [|x y z Hxy _ IH]; [done|].
    apply IH. by eapply cache_step_inv.
  - split; [vm_compute; repeat split; congruence|]. split; vm_compute; reflexivity.
Qed.
