(* ===== verification/CacheWeighted.v ===== *)
(** The Ruby cache array with the weighted LRU policy: the occupancy variant of
    [setMRU] calls [WeightedLRU::touch] with the occupancy, which keeps the
    promises the cache relies on. *)
From Stdlib Require Import ZArith Lia.
From stdpp Require Import base numbers gmap list.
From S2P Require Import Prelude ReplBase ReplScan.
From S2P Require Import LRU WeightedLRU.
From S2P Require Import CacheMemory CacheMemoryProps.

#[export] Instance WeightedLRU_occupancy : OccupancyPolicy WeightedLRU WeightedLRUReplData :=
  Some (fun X r n => touch_occupancy r n).

#[export] Instance WeightedLRU_occupancy_laws : OccupancyLaws WeightedLRU WeightedLRUReplData.
Proof.
  constructor. intros touch [= <-] X w r n rd Hr _.
  destruct (update_data_total (fun p now d => (p, with_lru d (LRU.touch_data now (lru d)))) w r) as [w1 H1]; [eauto|].
  pose proof (update_data_frame _ _ _ _ _ H1) as [F1 O1].
  destruct (update_data_stores _ _ _ _ _ H1) as [d1 Hd1].
  assert (is_Some (rds w1 !! r)) as Hr1.
  { unfold rp_data in Hd1. rewrite lookup_fmap in Hd1. destruct (rds w1 !! r); [eauto|done]. }
  destruct (update_data_total (fun p _ d => (p, mkWeightedLRUReplData (lru d) n)) w1 r Hr1) as [w2 H2].
  pose proof (update_data_frame _ _ _ _ _ H2) as [F2 O2].
  destruct (update_data_stores _ _ _ _ _ H2) as [d2 Hd2].
  exists w2. split; [unfold touch_occupancy, wlru_touch; by rewrite (bind_Ok _ _ _ _ _ H1)|].
  split; [by transitivity w1|]. split; [intros r' Hne; by rewrite O2, O1|]. split; [done|].
  intros _. exists d2. done.
Qed.
