(* ===== verification/Indexing.v ===== *)
(** Indexing policies, [mem/cache/tags/indexing_policies/base.hh],
    [set_associative.hh/.cc] and [TaggedSetAssociative] of
    [mem/cache/tags/tagged_entry.hh]: where the blocks of an address may be.

    The members of a policy other than [sets] are constants, kept in the record
    [Geometry]; [sets] is the mutable table of entry pointers.  The class
    [IndexingPolicy] is the virtual interface, [IndexingLaws] what a tag store
    relies on. *)
From Stdlib Require Import ZArith Lia Bool.
From stdpp Require Import base numbers gmap list.
From S2P Require Import Prelude ReplBase Bitfield Intmath.
Local Open Scope Z_scope.

(** ** The common part *)
Record Geometry := mkGeometry {
  assoc : Z;        (* unsigned *)
  numSets : Z;      (* uint32_t *)
  setShift : Z;     (* int *)
  setMask : Z;      (* unsigned *)
  tagShift : Z;     (* int *)
}.

(** [std::vector<std::vector<ReplaceableEntry*>>]. *)
Abbreviation Sets := (list (list (option loc))).

Definition new_Geometry (p_assoc num_entries set_shift : Z) : outcome (Geometry * Sets) :=
  let assoc := u32 p_assoc in
  let? numSets := udiv num_entries assoc in
  let? lg := floorLog2 32 numSets in
  let? tagShift := int_of (set_shift + lg) in
  let? _ := ocheck (isPowerOf2 32 numSets) Fatal in
  let? _ := ocheck (negb (assoc <=? 0)) Fatal in
  Ok (mkGeometry assoc numSets set_shift (u32 (numSets - 1)) tagShift,
      replicate (Z.to_nat numSets) (replicate (Z.to_nat assoc) None)).

(** [p.size / p.entry_size] and [floorLog2(p.entry_size)] of the subclasses. *)
Definition geometry_of_params (size entry_size p_assoc : Z) : outcome (Geometry * Sets) :=
  let? num_entries := udiv size (u64 entry_size) in
  let? set_shift := floorLog2 32 entry_size in
  new_Geometry p_assoc (u32 num_entries) set_shift.

Definition getEntry (s : Sets) (set way : Z) : outcome (option loc) :=
  let? row := vget s set in vget row way.

Definition put_slot (s : Sets) (set way : Z) (e : loc) : outcome Sets :=
  let? row := vget s set in
  let? row := vset row way (Some e) in
  vset s set row.

Definition extractTag (g : Geometry) (addr : Z) : outcome Z := shr64 addr (tagShift g).

Section SetEntry.
Context {P D X : Type}.

(** [std::div((long long)index, assoc)] truncates towards zero. *)
Definition setEntry (g : Geometry) (entry : loc) (index : Z) : M (Sets * world P D X) unit :=
  let set := u32 (Z.quot (i64 index) (assoc g)) in
  let way := u32 (Z.rem (i64 index) (assoc g)) in
  do* checkM (set <? numSets g) AssertFailed ;;
  let* st := getS in
  let* s := lift (put_slot st.1 set way entry) in
  let* r := lift (setPosition entry set way st.2) in
  putS (s, r.2).
End SetEntry.

(** The virtual functions of a policy object [I]. *)
Class IndexingPolicy (I : Type) := {
  ip_geometry : I -> Geometry;
  getPossibleEntries : I -> Sets -> Z -> outcome (list (option loc));
  (* tag, then the set and way of the entry *)
  regenerateAddr : I -> Z -> Z -> Z -> outcome Z;
}.

(** ** [SetAssociative] and [TaggedSetAssociative]

    The secure bit of a tagged key is not used for indexing. *)
Record SetAssociative := mkSetAssociative { sa_geometry : Geometry }.

(** [uint32_t] shifted left. *)
Definition shl32 (x n : Z) : outcome Z :=
  if (0 <=? n) && (n <? 32) then Ok (u32 (Z.shiftl x n)) else Fault BadShift.

Definition new_SetAssociative (size entry_size p_assoc : Z) : outcome (SetAssociative * Sets) :=
  let? r := geometry_of_params size entry_size p_assoc in
  Ok (mkSetAssociative r.1, r.2).

Definition sa_extractSet (i : SetAssociative) (addr : Z) : outcome Z :=
  let? a := shr64 addr (setShift (sa_geometry i)) in
  Ok (u32 (Z.land a (setMask (sa_geometry i)))).

Definition sa_regenerateAddr (i : SetAssociative) (tag set way : Z) : outcome Z :=
  let? t := shl64 tag (tagShift (sa_geometry i)) in
  let? s := shl32 set (setShift (sa_geometry i)) in
  Ok (Z.lor t s).

Definition sa_getPossibleEntries (i : SetAssociative) (s : Sets) (addr : Z) :
    outcome (list (option loc)) :=
  let? set := sa_extractSet i addr in vget s set.

#[export] Instance SetAssociative_policy : IndexingPolicy SetAssociative := {|
  ip_geometry := sa_geometry;
  getPossibleEntries := sa_getPossibleEntries;
  regenerateAddr := sa_regenerateAddr;
|}.

(** ** What a tag store relies on *)

(** Geometries made by the constructor: powers of two, and addresses that have
    tag bits. *)
Definition geometry_ok (g : Geometry) : Prop :=
  exists n, 0 <= n /\ numSets g = 2 ^ n /\ setMask g = numSets g - 1 /\ tagShift g = setShift g + n /\
    0 <= setShift g /\ setShift g + n < 64 /\ n < 32 /\ 0 < assoc g < 2 ^ 32.

Definition sets_ok (g : Geometry) (s : Sets) : Prop :=
  vsize s = numSets g /\ Forall (fun row => vsize row = assoc g) s.

(** The first byte of the block of an address. *)
Definition block_of (g : Geometry) (addr : Z) : Z := addr - addr mod 2 ^ setShift g.

Definition slot (s : Sets) (set way : Z) : option (option loc) :=
  row ← s !! Z.to_nat set; row !! Z.to_nat way.

Class IndexingLaws (I : Type) `{IndexingPolicy I} := {
  ip_ok : I -> Prop;
  (* the set in which a way may hold the address *)
  ip_set : I -> Z -> Z -> Z;
  ip_geometry_ok : forall i, ip_ok i -> geometry_ok (ip_geometry i);
  ip_set_range : forall i addr way, ip_ok i -> 0 <= addr < 2 ^ 64 -> 0 <= way < assoc (ip_geometry i) ->
    0 <= ip_set i addr way < numSets (ip_geometry i);
  ip_set_block : forall i a b way, ip_ok i -> block_of (ip_geometry i) a = block_of (ip_geometry i) b ->
    ip_set i a way = ip_set i b way;
  ip_possible : forall i s addr, ip_ok i -> sets_ok (ip_geometry i) s -> 0 <= addr < 2 ^ 64 ->
    exists l, getPossibleEntries i s addr = Ok l /\ vsize l = assoc (ip_geometry i) /\
      forall way, 0 <= way < assoc (ip_geometry i) -> l !! Z.to_nat way = slot s (ip_set i addr way) way;
  ip_regenerates : forall i addr way tag, ip_ok i -> 0 <= addr < 2 ^ 64 ->
    0 <= way < assoc (ip_geometry i) -> extractTag (ip_geometry i) addr = Ok tag ->
    regenerateAddr i tag (ip_set i addr way) way = Ok (block_of (ip_geometry i) addr);
}.

(** ** Lemmas *)
Lemma extractTag_div g addr : geometry_ok g -> extractTag g addr = Ok (addr / 2 ^ tagShift g).
Proof.
  intros (n & ? & ? & ? & Ht & ? & ? & ? & ?). unfold extractTag. rewrite shr64_Ok by lia.
  by rewrite Z.shiftr_div_pow2 by lia.
Qed.

(** The tag, the set and the offset make up the address. *)
Lemma address_parts addr k n : 0 <= k -> 0 <= n ->
  addr = addr / 2 ^ (k + n) * 2 ^ (k + n) + (addr / 2 ^ k) mod 2 ^ n * 2 ^ k + addr mod 2 ^ k.
Proof.
  intros Hk Hn. rewrite Z.pow_add_r by lia.
  assert (0 < 2 ^ k) by (by apply Z.pow_pos_nonneg). assert (0 < 2 ^ n) by (by apply Z.pow_pos_nonneg).
  rewrite <- Z.div_div by lia.
  pose proof (Z.div_mod addr (2 ^ k) ltac:(lia)). pose proof (Z.div_mod (addr / 2 ^ k) (2 ^ n) ltac:(lia)). nia.
Qed.

(** Gluing tag and index back together. *)
Lemma block_of_parts g n addr : 0 <= n -> 0 <= setShift g ->
  block_of g addr =
    addr / 2 ^ (setShift g + n) * 2 ^ (setShift g + n) + (addr / 2 ^ setShift g) mod 2 ^ n * 2 ^ setShift g.
Proof.
  intros. unfold block_of. rewrite (address_parts addr (setShift g) n) at 1 by lia. lia.
Qed.

Lemma block_of_div g a b : 0 <= setShift g -> block_of g a = block_of g b ->
  a / 2 ^ setShift g = b / 2 ^ setShift g.
Proof.
  intros Hs E. unfold block_of in E. assert (0 < 2 ^ setShift g) by (by apply Z.pow_pos_nonneg).
  pose proof (Z.div_mod a (2 ^ setShift g)). pose proof (Z.div_mod b (2 ^ setShift g)). nia.
Qed.

Lemma glue_block g n addr : 0 <= addr < 2 ^ 64 -> 0 <= n -> 0 <= setShift g -> setShift g + n < 64 ->
  Z.lor (u64 (Z.shiftl (addr / 2 ^ (setShift g + n)) (setShift g + n)))
    ((addr / 2 ^ setShift g) mod 2 ^ n * 2 ^ setShift g) = block_of g addr.
Proof.
  intros Ha Hn Hs Hb. rewrite (block_of_parts g n) by lia. rewrite Z.shiftl_mul_pow2 by lia.
  assert (0 < 2 ^ setShift g) by (by apply Z.pow_pos_nonneg).
  assert (0 < 2 ^ (setShift g + n)) by (apply Z.pow_pos_nonneg; lia).
  rewrite uwrap_small.
  - apply lor_disjoint; [lia|]. pose proof (Z.mod_pos_bound (addr / 2 ^ setShift g) (2 ^ n)) as B.
    rewrite Z.pow_add_r by lia. assert (0 < 2 ^ n) by (by apply Z.pow_pos_nonneg). nia.
  - pose proof (Z.div_mod addr (2 ^ (setShift g + n)) ltac:(lia)).
    pose proof (Z.mod_pos_bound addr (2 ^ (setShift g + n)) ltac:(lia)).
    pose proof (Z.div_pos addr (2 ^ (setShift g + n)) ltac:(lia) ltac:(lia)). nia.
Qed.

Lemma slot_row s set row way : 0 <= set -> s !! Z.to_nat set = Some row -> slot s set way = row !! Z.to_nat way.
Proof. intros _ H. unfold slot. by rewrite H. Qed.

Lemma sets_ok_row g s set : sets_ok g s -> 0 <= set < numSets g ->
  exists row, s !! Z.to_nat set = Some row /\ vget s set = Ok row /\ vsize row = assoc g.
Proof.
  intros [Hl HF] Hs. destruct (lookup_Z s set) as [row Hr]; [lia|]. exists row. split; [done|].
  split; [apply vget_Ok; [lia|done]|]. by apply (Forall_lookup_1 _ _ _ _ HF Hr).
Qed.

Lemma slot_Some g s set way : sets_ok g s -> 0 <= set < numSets g -> 0 <= way < assoc g ->
  exists e, slot s set way = Some e /\ getEntry s set way = Ok e.
Proof.
  intros Hok Hs Hw. destruct (sets_ok_row g s set Hok Hs) as (row & Hr & Hv & Hz).
  destruct (lookup_Z row way) as [e He]; [lia|]. exists e.
  unfold slot, getEntry. rewrite Hr, Hv. cbn [obind]. split; [done|]. apply vget_Ok; [lia|done].
Qed.

(** ** The constructor and the table *)
Lemma new_Geometry_ok p_assoc num_entries set_shift g s :
  0 <= num_entries < 2 ^ 32 -> 0 <= set_shift < 32 ->
  new_Geometry p_assoc num_entries set_shift = Ok (g, s) ->
  geometry_ok g /\ sets_ok g s /\ setShift g = set_shift /\ assoc g = u32 p_assoc /\
  numSets g = num_entries / u32 p_assoc /\ Forall (Forall (fun e => e = None)) s.
Proof.
  intros Hn Hs H. unfold new_Geometry in H. inv_ok H. pose proof (uwrap_range 32 p_assoc) as Ba.
  unfold udiv in Hrun. destruct (Z.eqb_spec (u32 p_assoc) 0) as [|Hne]; [done|]. injection Hrun as <-.
  set (n := num_entries / u32 p_assoc) in *. apply ocheck_Ok_inv in Hrun2, Hrun3.
  assert (0 <= n < 2 ^ 32) as Bn.
  { split; [apply Z.div_pos; lia|]. apply Z.div_lt_upper_bound; [lia|]. nia. }
  apply isPowerOf2_spec in Hrun2 as (k & Hk & En); [|lia].
  assert (0 < n) by (rewrite En; by apply Z.pow_pos_nonneg).
  assert (k < 32). { apply (Z.pow_lt_mono_r_iff 2); lia. }
  rewrite floorLog2_log2 in Hrun0 by lia. injection Hrun0 as <-. rewrite En, Z.log2_pow2 in Hrun1 by lia.
  rewrite int_of_Ok in Hrun1 by lia. injection Hrun1 as <-. injection H as <- <-.
  split; [|split; [|do 3 (split; [done|])]].
  - exists k. cbn. rewrite (uwrap_small 32 (n - 1)) by lia. lia.
  - split; cbn; [unfold vsize; rewrite length_replicate; lia|].
    apply Forall_replicate. unfold vsize. rewrite length_replicate. lia.
  - by do 2 apply Forall_replicate.
Qed.

Lemma geometry_of_params_ok size entry_size p_assoc g s :
  0 <= size < 2 ^ 64 -> entry_size < 2 ^ 31 ->
  geometry_of_params size entry_size p_assoc = Ok (g, s) ->
  geometry_ok g /\ sets_ok g s /\ setShift g = Z.log2 entry_size /\ assoc g = u32 p_assoc /\
  0 < entry_size /\ Forall (Forall (fun e => e = None)) s.
Proof.
  intros Hs He H. unfold geometry_of_params in H. inv_ok H.
  assert (0 < entry_size) as Hp.
  { unfold floorLog2 in Hrun0. inv_ok Hrun0. apply ocheck_Ok_inv in Hrun1. lia. }
  rewrite floorLog2_log2 in Hrun0 by lia. injection Hrun0 as <-.
  assert (0 <= Z.log2 entry_size < 32).
  { split; [apply Z.log2_nonneg|]. apply Z.log2_lt_pow2; lia. }
  apply new_Geometry_ok in H as (? & ? & ? & ? & _ & ?); [done|apply uwrap_range; lia|done].
Qed.

Lemma put_slot_Ok g s set way e : sets_ok g s -> 0 <= set < numSets g -> 0 <= way < assoc g ->
  exists s', put_slot s set way e = Ok s' /\ sets_ok g s' /\
    forall set' way', 0 <= set' -> 0 <= way' ->
      slot s' set' way' = if decide (set' = set /\ way' = way) then Some (Some e) else slot s set' way'.
Proof.
  intros Hok Hs Hw. destruct (sets_ok_row g s set Hok Hs) as (row & Hr & Hv & Hz).
  unfold put_slot. rewrite Hv. cbn [obind]. rewrite vset_Ok by lia. cbn [obind].
  destruct Hok as [Hl HF]. rewrite vset_Ok by lia. eexists. split; [done|].
  set (row' := <[Z.to_nat way := Some e]> row). split.
  { split; [by rewrite vsize_insert|]. apply Forall_insert; [done|]. unfold row'. by rewrite vsize_insert. }
  intros set' way' Hs' Hw'. unfold slot. destruct (decide (set' = set)) as [->|].
  - rewrite list_lookup_insert_eq by (unfold vsize in Hl; lia). cbn. rewrite Hr. cbn. unfold row'.
    destruct (decide (way' = way)) as [->|].
    + rewrite list_lookup_insert_eq by (unfold vsize in Hz; lia). by rewrite decide_True.
    + rewrite list_lookup_insert_ne by lia. by rewrite decide_False by naive_solver.
  - rewrite list_lookup_insert_ne by lia. by rewrite decide_False by naive_solver.
Qed.

(** ** Set associative indexing *)
Definition sa_ok (i : SetAssociative) : Prop :=
  geometry_ok (sa_geometry i) /\ tagShift (sa_geometry i) <= 32 /\ setShift (sa_geometry i) < 32.

Definition sa_set (i : SetAssociative) (addr way : Z) : Z :=
  (addr / 2 ^ setShift (sa_geometry i)) mod numSets (sa_geometry i).

Lemma sa_extractSet_Ok i addr : geometry_ok (sa_geometry i) -> 0 <= addr < 2 ^ 64 ->
  sa_extractSet i addr = Ok (sa_set i addr 0) /\ 0 <= sa_set i addr 0 < numSets (sa_geometry i).
Proof.
  intros (n & ? & En & Em & Et & ? & ? & ? & ?) Ha. unfold sa_extractSet, sa_set.
  rewrite shr64_Ok by lia. cbn [obind]. rewrite Em, En.
  assert (0 < 2 ^ n < 2 ^ 32) by (split; [by apply Z.pow_pos_nonneg|apply Z.pow_lt_mono_r; lia]).
  rewrite Z.sub_1_r, <- Z.ones_equiv, Z.land_ones, Z.shiftr_div_pow2 by lia.
  pose proof (Z.mod_pos_bound (addr / 2 ^ setShift (sa_geometry i)) (2 ^ n) ltac:(lia)).
  by rewrite uwrap_small by lia.
Qed.

#[export] Instance SetAssociative_laws : IndexingLaws SetAssociative.
Proof.
  refine {| ip_ok := sa_ok; ip_set := sa_set |}.
  - by intros i [? _].
  - intros i addr way [Hg _] Ha _. by apply sa_extractSet_Ok.
  - intros i a b way [(n & _ & _ & _ & _ & Hs & _) _] E. unfold sa_set. by rewrite (block_of_div _ a b Hs E).
  - intros i s addr [Hg _] Hs Ha. destruct (sa_extractSet_Ok i addr Hg Ha) as [E R]. cbn.
    destruct (sets_ok_row _ _ _ Hs R) as (row & Hr & Hv & Hz). exists row.
    unfold sa_getPossibleEntries. rewrite E. cbn [obind]. split; [done|]. split; [done|].
    intros way Hw. symmetry. apply slot_row; [apply R|exact Hr].
  - intros i addr way tag (Hg & H32 & H32') Ha Hw Ht. cbn in *. rewrite extractTag_div in Ht by done.
    injection Ht as <-. unfold sa_regenerateAddr, sa_set.
    destruct Hg as (n & ? & En & Em & Et & ? & ? & ? & ?). rewrite Et in *. rewrite shl64_Ok by lia. cbn [obind].
    unfold shl32. replace (0 <=? _) with true by lia. replace (_ <? 32) with true by lia. cbn [andb obind].
    rewrite (Z.shiftl_mul_pow2 (_ mod _)) by lia. rewrite En. rewrite (uwrap_small 32).
    + f_equal. by apply glue_block.
    + pose proof (Z.mod_pos_bound (addr / 2 ^ setShift (sa_geometry i)) (2 ^ n)) as B.
      assert (0 < 2 ^ n) by (by apply Z.pow_pos_nonneg). assert (0 < 2 ^ setShift (sa_geometry i)) by (by apply Z.pow_pos_nonneg).
      assert (2 ^ (setShift (sa_geometry i) + n) <= 2 ^ 32) as LE by (apply Z.pow_le_mono_r; lia).
      rewrite Z.pow_add_r in LE by lia. nia.
Defined.

(** ** Consequences of the laws *)
Section Laws.
Context {I : Type} `{IndexingLaws I}.
Implicit Types i : I.

(** Two addresses that may be in one slot and have one tag are of one block:
    comparing tags decides which block the slot holds. *)
Lemma same_slot_same_tag i a b way tag : ip_ok i -> 0 <= a < 2 ^ 64 -> 0 <= b < 2 ^ 64 ->
  0 <= way < assoc (ip_geometry i) -> ip_set i a way = ip_set i b way ->
  extractTag (ip_geometry i) a = Ok tag -> extractTag (ip_geometry i) b = Ok tag ->
  block_of (ip_geometry i) a = block_of (ip_geometry i) b.
Proof.
  intros Hi Ha Hb Hw Es Ta Tb. pose proof (ip_regenerates i a way tag Hi Ha Hw Ta) as R.
  rewrite Es, (ip_regenerates i b way tag Hi Hb Hw Tb) in R. by injection R.
Qed.
End Laws.
