(* ===== verification/Skewed.v ===== *)
(** Skewed associative indexing,
    [mem/cache/tags/indexing_policies/skewed_associative.hh/.cc].

    The hash of [n]-bit numbers is a linear feedback shift register: a linear
    map [H] over bits that satisfies [H^n + H^(n-1) = 1].  The deskewing
    functions undo the skewing functions because of that equation. *)
From Stdlib Require Import ZArith Lia Bool.
From stdpp Require Import base numbers gmap list.
From S2P Require Import Prelude ReplBase Bitfield Intmath Indexing.
Local Open Scope Z_scope.

Record SkewedAssociative := mkSkewedAssociative {
  sk_geometry : Geometry;
  msbShift : Z;     (* int *)
}.

Definition NUM_SKEWING_FUNCTIONS : Z := 8.

Definition new_SkewedAssociative (size entry_size p_assoc : Z) : outcome (SkewedAssociative * Sets) :=
  let? r := geometry_of_params size entry_size p_assoc in
  let g := r.1 in
  let? lg := floorLog2 32 (numSets g) in
  let msbShift := lg - 1 in
  let? _ := ocheck (negb (64 <? setShift g + 2 * (msbShift + 1))) Panic in
  let? _ := ocheck (negb (numSets g <=? 2)) Fatal in
  Ok (mkSkewedAssociative g msbShift, r.2).

Definition hash (i : SkewedAssociative) (addr : Z) : outcome Z :=
  let? lsb := bit addr 0 in
  let? msb := bit addr (msbShift i) in
  let xor_bit := Z.lxor (u8 msb) (u8 lsb) in
  insertBit (Z.shiftr addr 1) (msbShift i) xor_bit.

Definition dehash (i : SkewedAssociative) (addr : Z) : outcome Z :=
  let? msb := bit addr (msbShift i - 1) in
  let? xor_bit := bit addr (msbShift i) in
  let lsb := Z.lxor (u8 msb) (u8 xor_bit) in
  let addr_no_msb := mbits addr (msbShift i - 1) 0 in
  insertBit (u64 (Z.shiftl addr_no_msb 1)) 0 lsb.

(** [for (i = 0; i < n; i++) addr = f(addr)]. *)
Fixpoint repeatO (n : nat) (f : Z -> outcome Z) (x : Z) : outcome Z :=
  match n with
  | O => Ok x
  | S n' => let? y := f x in repeatO n' f y
  end.

(** The xor of three terms, the first two of which are hashes. *)
Definition xor3 (a b : outcome Z) (c : Z) : outcome Z :=
  let? x := a in let? y := b in Ok (Z.lxor (Z.lxor x y) c).

Definition skew (i : SkewedAssociative) (addr way : Z) : outcome Z :=
  let n := msbShift i + 1 in
  let? addr1 := bits addr (msbShift i) 0 in
  let? addr2 := bits addr (2 * n - 1) n in
  let? addr1 :=
    match way mod NUM_SKEWING_FUNCTIONS with
    | 0 => xor3 (hash i addr1) (hash i addr2) addr2
    | 1 => xor3 (hash i addr1) (hash i addr2) addr1
    | 2 => xor3 (hash i addr1) (dehash i addr2) addr2
    | 3 => xor3 (hash i addr1) (dehash i addr2) addr1
    | 4 => xor3 (dehash i addr1) (hash i addr2) addr2
    | 5 => xor3 (dehash i addr1) (hash i addr2) addr1
    | 6 => xor3 (dehash i addr1) (dehash i addr2) addr2
    | 7 => xor3 (dehash i addr1) (dehash i addr2) addr1
    | _ => Fault Panic
    end in
  repeatO (Z.to_nat (way / NUM_SKEWING_FUNCTIONS)) (hash i) addr1.

Definition deskew (i : SkewedAssociative) (addr way : Z) : outcome Z :=
  let n := msbShift i + 1 in
  let? addr1 := bits addr (msbShift i) 0 in
  let? addr2 := bits addr (2 * n - 1) n in
  let? addr1 :=
    if NUM_SKEWING_FUNCTIONS <=? way
    then repeatO (Z.to_nat (way / NUM_SKEWING_FUNCTIONS)) (dehash i) addr1 else Ok addr1 in
  match way mod 8 with
  | 0 => let? h := hash i addr2 in dehash i (Z.lxor (Z.lxor addr1 h) addr2)
  | 1 => let? h := hash i addr2 in repeatO (Z.to_nat (msbShift i)) (hash i) (Z.lxor addr1 h)
  | 2 => let? h := dehash i addr2 in dehash i (Z.lxor (Z.lxor addr1 h) addr2)
  | 3 => let? h := dehash i addr2 in repeatO (Z.to_nat (msbShift i)) (hash i) (Z.lxor addr1 h)
  | 4 => let? h := hash i addr2 in hash i (Z.lxor (Z.lxor addr1 h) addr2)
  | 5 => let? h := hash i addr2 in repeatO (Z.to_nat (msbShift i + 1)) (hash i) (Z.lxor addr1 h)
  | 6 => let? h := dehash i addr2 in hash i (Z.lxor (Z.lxor addr1 h) addr2)
  | 7 => let? h := dehash i addr2 in repeatO (Z.to_nat (msbShift i + 1)) (hash i) (Z.lxor addr1 h)
  | _ => Fault Panic
  end.

Definition sk_extractSet (i : SkewedAssociative) (addr way : Z) : outcome Z :=
  let? a := shr64 addr (setShift (sk_geometry i)) in
  let? s := skew i a way in
  Ok (u32 (Z.land s (setMask (sk_geometry i)))).

Definition sk_regenerateAddr (i : SkewedAssociative) (tag set way : Z) : outcome Z :=
  let? t := shl64 tag (msbShift i + 1) in
  let addr_set := Z.lor t set in
  let? t := shl64 tag (tagShift (sk_geometry i)) in
  let? d := deskew i addr_set way in
  let? s := shl64 (Z.land d (setMask (sk_geometry i))) (setShift (sk_geometry i)) in
  Ok (Z.lor t s).

Definition possible_entry (i : SkewedAssociative) (s : Sets) (addr way : Z) : outcome (option loc) :=
  let? set := sk_extractSet i addr way in
  getEntry s set way.

Definition push_entry (i : SkewedAssociative) (s : Sets) (addr : Z) (entries : outcome (list (option loc)))
    (way : Z) : outcome (list (option loc)) :=
  let? l := entries in
  let? e := possible_entry i s addr way in
  Ok (l ++ [e]).

Definition sk_getPossibleEntries (i : SkewedAssociative) (s : Sets) (addr : Z) :
    outcome (list (option loc)) :=
  fold_left (push_entry i s addr) (seqZ 0 (assoc (sk_geometry i))) (Ok []).

#[export] Instance SkewedAssociative_policy : IndexingPolicy SkewedAssociative := {|
  ip_geometry := sk_geometry;
  getPossibleEntries := sk_getPossibleEntries;
  regenerateAddr := sk_regenerateAddr;
|}.

(** ** The shift register *)

(** Case analysis on positions. *)
Ltac by_position :=
  repeat match goal with
  | |- context [?a <? ?b] => destruct (Z.ltb_spec a b)
  | |- context [?a =? ?b] => destruct (Z.eqb_spec a b)
  end; subst; try lia; try done.

Section Register.
Variable n : Z.
Hypothesis n_ok : 2 <= n <= 32.

Definition reg (x : Z) : Prop := 0 <= x < 2 ^ n.

Definition Hb (x j : Z) : bool :=
  if j <? n - 1 then Z.testbit x (j + 1)
  else if j =? n - 1 then xorb (Z.testbit x (n - 1)) (Z.testbit x 0) else false.

Definition Db (x j : Z) : bool :=
  if j =? 0 then xorb (Z.testbit x (n - 2)) (Z.testbit x (n - 1))
  else if j <? n then Z.testbit x (j - 1) else false.

Definition H (x : Z) : Z :=
  Z.lor (Z.shiftr x 1) (Z.shiftl (Z.b2z (xorb (Z.testbit x (n - 1)) (Z.testbit x 0))) (n - 1)).
Definition Dh (x : Z) : Z :=
  Z.lor (Z.shiftl (x mod 2 ^ (n - 1)) 1) (Z.b2z (xorb (Z.testbit x (n - 2)) (Z.testbit x (n - 1)))).

Lemma testbit_b2z b j : 0 <= j -> Z.testbit (Z.b2z b) j = (j =? 0) && b.
Proof.
  intros Hj. destruct (Z.eqb_spec j 0) as [->|]; [by destruct b|].
  destruct b; [|apply Z.bits_0]. apply (testbit_high 1); [cbn; lia|lia].
Qed.

Lemma reg_high x j : reg x -> n <= j -> Z.testbit x j = false.
Proof. intros Hx Hj. by apply (testbit_high n). Qed.

Lemma reg_bits x : 0 <= x -> (forall j, n <= j -> Z.testbit x j = false) -> reg x.
Proof.
  intros Hx Hb. split; [done|]. destruct (Z.eq_dec x 0) as [->|]; [apply Z.pow_pos_nonneg; lia|].
  apply Z.log2_lt_pow2; [lia|]. destruct (Z.ltb_spec (Z.log2 x) n); [done|].
  specialize (Hb (Z.log2 x)). rewrite Z.bit_log2 in Hb by lia. by discriminate Hb.
Qed.

Lemma H_bits x j : reg x -> 0 <= j -> Z.testbit (H x) j = Hb x j.
Proof.
  intros Hx Hj. unfold H, Hb. rewrite Z.lor_spec, Z.shiftr_spec, Z.shiftl_spec by lia.
  destruct (Z.ltb_spec j (n - 1)); [rewrite (Z.testbit_neg_r _ (j - (n - 1))) by lia; apply orb_false_r|].
  rewrite testbit_b2z by lia. rewrite (reg_high x) by (done || lia). cbn [orb].
  replace (j - (n - 1) =? 0) with (j =? n - 1) by lia. by destruct (j =? n - 1).
Qed.

Lemma Dh_bits x j : reg x -> 0 <= j -> Z.testbit (Dh x) j = Db x j.
Proof.
  intros Hx Hj. unfold Dh, Db. rewrite Z.lor_spec, Z.shiftl_spec by lia. rewrite testbit_b2z by lia.
  destruct (Z.eqb_spec j 0) as [->|]; [by rewrite Z.testbit_neg_r by lia|]. rewrite andb_false_l, orb_false_r.
  change (x mod 2 ^ (n - 1)) with (uwrap (n - 1) x). rewrite testbit_uwrap by lia.
  replace (j - 1 <? n - 1) with (j <? n) by lia. by destruct (j <? n).
Qed.

Lemma H_reg x : reg x -> reg (H x).
Proof.
  intros Hx. apply reg_bits.
  - unfold H. apply Z.lor_nonneg. split; [apply Z.shiftr_nonneg; by destruct Hx|].
    apply Z.shiftl_nonneg. by destruct (xorb _ _).
  - intros j Hj. rewrite H_bits by (done || lia). unfold Hb.
    replace (j <? n - 1) with false by lia. by replace (j =? n - 1) with false by lia.
Qed.

Lemma Dh_reg x : reg x -> reg (Dh x).
Proof.
  intros Hx. apply reg_bits.
  - unfold Dh. apply Z.lor_nonneg. split; [|by destruct (xorb _ _)].
    apply Z.shiftl_nonneg, Z.mod_pos_bound, Z.pow_pos_nonneg; lia.
  - intros j Hj. rewrite Dh_bits by (done || lia). unfold Db.
    replace (j =? 0) with false by lia. by replace (j <? n) with false by lia.
Qed.

Lemma lxor_reg x y : reg x -> reg y -> reg (Z.lxor x y).
Proof.
  intros Hx Hy. apply reg_bits; [apply Z.lxor_nonneg; unfold reg in *; lia|].
  intros j Hj. by rewrite Z.lxor_spec, !reg_high.
Qed.

Lemma reg_ext x y : reg x -> reg y -> (forall j, 0 <= j < n -> Z.testbit x j = Z.testbit y j) -> x = y.
Proof.
  intros Hx Hy E. apply Z.bits_inj'. intros j Hj. destruct (Z.ltb_spec j n); [apply E; lia|].
  by rewrite !reg_high.
Qed.

Lemma Dh_H x : reg x -> Dh (H x) = x.
Proof.
  intros Hx. pose proof (H_reg x Hx) as Hr. apply reg_ext; [by apply Dh_reg|done|].
  intros j Hj. rewrite Dh_bits by (done || lia). unfold Db.
  destruct (Z.eqb_spec j 0) as [->|]; rewrite !H_bits by (done || lia); unfold Hb;
    by_position; try (f_equal; lia). replace (n - 2 + 1) with (n - 1) by lia.
  by destruct (Z.testbit x (n - 1)), (Z.testbit x 0).
Qed.

Lemma H_Dh x : reg x -> H (Dh x) = x.
Proof.
  intros Hx. pose proof (Dh_reg x Hx) as Hr. apply reg_ext; [by apply H_reg|done|].
  intros j Hj. rewrite H_bits by (done || lia). unfold Hb. rewrite !Dh_bits by (done || lia). unfold Db.
  by_position; try (f_equal; lia). replace (n - 1 - 1) with (n - 2) by lia.
  by destruct (Z.testbit x (n - 2)), (Z.testbit x (n - 1)).
Qed.

Lemma H_lxor x y : reg x -> reg y -> H (Z.lxor x y) = Z.lxor (H x) (H y).
Proof.
  intros Hx Hy. assert (reg (Z.lxor x y)) by (by apply lxor_reg).
  apply reg_ext; [by apply H_reg|by apply lxor_reg; apply H_reg|].
  intros j Hj. rewrite Z.lxor_spec, !H_bits by (done || lia). unfold Hb. rewrite !Z.lxor_spec.
  by_position. by destruct (Z.testbit x (n - 1)), (Z.testbit x 0), (Z.testbit y (n - 1)), (Z.testbit y 0).
Qed.

Lemma Dh_inj x y : reg x -> reg y -> Dh x = Dh y -> x = y.
Proof. intros Hx Hy E. by rewrite <- (H_Dh x), <- (H_Dh y), E. Qed.

(** Running the register on [H x + x]: after [k] steps it holds the sums of
    neighbours from [k] on, then the first bits of [x] itself. *)
Lemma register_run x k : reg x -> Z.of_nat k <= n - 1 ->
  reg (Nat.iter k H (Z.lxor (H x) x)) /\
  forall j, 0 <= j < n -> Z.testbit (Nat.iter k H (Z.lxor (H x) x)) j =
    if j + Z.of_nat k <? n - 1 then xorb (Z.testbit x (j + Z.of_nat k)) (Z.testbit x (j + Z.of_nat k + 1))
    else Z.testbit x (j + Z.of_nat k - (n - 1)).
Proof.
  intros Hx. induction k as [|k IH]; intros Hk.
  - split; [by apply lxor_reg; [apply H_reg|]|]. intros j Hj. cbn [Nat.iter nat_rect].
    rewrite Z.lxor_spec, H_bits by (done || lia). unfold Hb. rewrite !Z.add_0_r. by_position.
    + apply xorb_comm.
    + replace (n - 1 - (n - 1)) with 0 by lia. by destruct (Z.testbit x (n - 1)), (Z.testbit x 0).
  - destruct IH as [Hr IH]; [lia|]. change (Nat.iter (S k) H ?z) with (H (Nat.iter k H z)).
    split; [by apply H_reg|]. intros j Hj. rewrite H_bits by (done || lia). unfold Hb. by_position.
    + rewrite IH by lia. by_position. f_equal; f_equal; lia.
    + rewrite IH by lia. by_position. f_equal; lia.
    + rewrite !IH by lia. by_position. replace (n - 1 + Z.of_nat k - (n - 1)) with (Z.of_nat k) by lia.
      replace (n - 1 + Z.of_nat (S k) - (n - 1)) with (0 + Z.of_nat k + 1) by lia. rewrite Z.add_0_l.
      by destruct (Z.testbit x (Z.of_nat k)), (Z.testbit x (Z.of_nat k + 1)).
Qed.

(** [H^(n-1) (H x + x) = x]. *)
Lemma register_equation x : reg x -> Nat.iter (Z.to_nat (n - 1)) H (Z.lxor (H x) x) = x.
Proof.
  intros Hx. destruct (register_run x (Z.to_nat (n - 1)) Hx) as [Hr E]; [lia|].
  apply reg_ext; [done..|]. intros j Hj. rewrite E by lia. by_position. f_equal. lia.
Qed.

(** [H^n (D x + x) = x]. *)
Lemma register_equation_inverse x : reg x -> Nat.iter (Z.to_nat n) H (Z.lxor (Dh x) x) = x.
Proof.
  intros Hx. replace (Z.to_nat n) with (S (Z.to_nat (n - 1))) by lia. rewrite Nat.iter_succ_r.
  rewrite H_lxor, H_Dh by (done || by apply Dh_reg). rewrite Z.lxor_comm. by apply register_equation.
Qed.

Lemma iter_H_reg k x : reg x -> reg (Nat.iter k H x).
Proof. intros Hx. induction k; [done|]. by apply H_reg. Qed.

Lemma iter_Dh_H k x : reg x -> Nat.iter k Dh (Nat.iter k H x) = x.
Proof.
  intros Hx. induction k as [|k IH]; [done|]. rewrite Nat.iter_succ_r.
  change (Nat.iter (S k) H x) with (H (Nat.iter k H x)). by rewrite Dh_H by by apply iter_H_reg.
Qed.
End Register.

(** ** The code computes the register *)
Lemma bit_b2z val b : 0 <= val < 2 ^ 64 -> 0 <= b < 64 -> bit val b = Ok (Z.b2z (Z.testbit val b)).
Proof.
  intros Hv Hb. unfold bit. rewrite bits_field by lia. f_equal. apply Z.bits_inj'. intros j Hj.
  rewrite testbit_field, testbit_b2z by lia. replace (j <=? b - b) with (j =? 0) by lia.
  by destruct (Z.eqb_spec j 0) as [->|].
Qed.

Lemma lxor_bits a b : Z.lxor (u8 (Z.b2z a)) (u8 (Z.b2z b)) = Z.b2z (xorb a b).
Proof. by destruct a, b. Qed.

Section Code.
Variable i : SkewedAssociative.
#[local] Abbreviation n := (msbShift i + 1).
Hypothesis n_ok : 2 <= n <= 32.

Lemma reg_64 x : reg n x -> 0 <= x < 2 ^ 64.
Proof. intros [? ?]. assert (2 ^ n < 2 ^ 64) by (apply Z.pow_lt_mono_r; lia). lia. Qed.

Lemma hash_H x : reg n x -> hash i x = Ok (H n x).
Proof.
  intros Hx. pose proof (reg_64 x Hx) as H64. unfold hash. rewrite !bit_b2z by lia. cbn [obind].
  rewrite lxor_bits. unfold insertBit.
  destruct (insertBits_spec (Z.shiftr x 1) (msbShift i) (msbShift i)
    (Z.b2z (xorb (Z.testbit x (msbShift i)) (Z.testbit x 0)))) as (r & -> & Hr & E); [|lia..|].
  { split; [apply Z.shiftr_nonneg; lia|]. rewrite Z.shiftr_div_pow2 by lia. apply Z.div_lt_upper_bound; lia. }
  f_equal. apply Z.bits_inj'. intros j Hj. rewrite E, (H_bits n) by (done || lia). unfold Hb.
  replace (n - 1) with (msbShift i) by lia. rewrite Z.shiftr_spec by lia.
  destruct (Z.leb_spec (msbShift i) j), (Z.leb_spec j (msbShift i)); cbn [andb]; by_position.
  - rewrite Z.sub_diag. by destruct (xorb _ _).
  - by apply (reg_high (msbShift i + 1)); [|lia].
Qed.

Lemma dehash_Dh x : reg n x -> dehash i x = Ok (Dh n x).
Proof.
  intros Hx. pose proof (reg_64 x Hx) as H64. unfold dehash. rewrite !bit_b2z by lia. cbn [obind].
  rewrite lxor_bits. unfold insertBit.
  destruct (insertBits_spec (u64 (Z.shiftl (mbits x (msbShift i - 1) 0) 1)) 0 0
    (Z.b2z (xorb (Z.testbit x (msbShift i - 1)) (Z.testbit x (msbShift i))))) as (r & -> & Hr & E);
    [apply uwrap_range; lia|lia..|].
  f_equal. apply Z.bits_inj'. intros j Hj. rewrite E, (Dh_bits n) by (done || lia). unfold Db.
  replace (n - 1) with (msbShift i) by lia. replace (n - 2) with (msbShift i - 1) by lia.
  destruct (Z.leb_spec j 0) as [|Hj0].
  { assert (j = 0) as -> by lia. cbn [andb Z.eqb Z.leb Z.ltb Z.compare]. rewrite Z.sub_diag. by destruct (xorb _ _). }
  rewrite andb_false_r. cbn [andb]. replace (j =? 0) with false by lia.
  rewrite testbit_uwrap, Z.shiftl_spec by lia. unfold mbits. rewrite !Z.land_spec, testbit_lnot64 by lia.
  rewrite uwrap_small, !testbit_mask by lia.
  replace (j - 1 <? 0) with false by lia. destruct (Z.ltb_spec j n).
  - replace (j <? 64) with true by lia. replace (j - 1 <? msbShift i - 1 + 1) with true by lia.
    replace (j - 1 <? 64) with true by lia. cbn. by rewrite andb_true_r.
  - replace (j - 1 <? msbShift i - 1 + 1) with false by lia. by rewrite !andb_false_r.
Qed.

Lemma repeatO_pure f F k x : (forall y, reg n y -> f y = Ok (F y) /\ reg n (F y)) -> reg n x ->
  repeatO k f x = Ok (Nat.iter k F x).
Proof.
  intros HF. revert x. induction k as [|k IH]; intros x Hx; [done|]. cbn [repeatO].
  destruct (HF x Hx) as [-> Hr]. cbn [obind]. rewrite IH by done. by rewrite Nat.iter_succ_r.
Qed.

Lemma repeat_hash k x : reg n x -> repeatO k (hash i) x = Ok (Nat.iter k (H n) x).
Proof. apply repeatO_pure. intros y Hy. split; [by apply hash_H|by apply H_reg]. Qed.

Lemma repeat_dehash k x : reg n x -> repeatO k (dehash i) x = Ok (Nat.iter k (Dh n) x).
Proof. apply repeatO_pure. intros y Hy. split; [by apply dehash_Dh|by apply Dh_reg]. Qed.

(** ** Deskewing undoes skewing *)
Lemma xor3_Ok a b c : xor3 (Ok a) (Ok b) c = Ok (Z.lxor (Z.lxor a b) c).
Proof. done. Qed.

Lemma lxor_cancel2 a b c : Z.lxor (Z.lxor (Z.lxor (Z.lxor a b) c) b) c = a.
Proof.
  apply Z.bits_inj'. intros j _. rewrite !Z.lxor_spec.
  by destruct (Z.testbit a j), (Z.testbit b j), (Z.testbit c j).
Qed.

Lemma lxor_cancel1 a b c : Z.lxor (Z.lxor (Z.lxor a b) c) b = Z.lxor a c.
Proof.
  apply Z.bits_inj'. intros j _. rewrite !Z.lxor_spec.
  by destruct (Z.testbit a j), (Z.testbit b j), (Z.testbit c j).
Qed.

Lemma fields_reg a : reg n (field a (msbShift i) 0) /\ reg n (field a (2 * n - 1) n).
Proof.
  split; unfold reg.
  - replace n with (msbShift i - 0 + 1) by lia. apply field_range. lia.
  - pose proof (field_range a (2 * n - 1) n ltac:(lia)) as B.
    by replace (2 * n - 1 - n + 1) with n in B by lia.
Qed.

(** What the ways mix, before the piled up hashes. *)
Definition mix (w x y : Z) : Z :=
  let f := if w <? 4 then H n x else Dh n x in
  let g := if Z.testbit w 1 then Dh n y else H n y in
  Z.lxor (Z.lxor f g) (if Z.testbit w 0 then x else y).

Lemma mix_reg w x y : reg n x -> reg n y -> reg n (mix w x y).
Proof.
  intros Hx Hy. unfold mix.
  apply lxor_reg; [lia|apply lxor_reg; [lia|..]|]; repeat case_match;
    try done; by (apply H_reg || apply Dh_reg).
Qed.

Lemma eight way : 0 <= way -> let w := way mod 8 in
  w = 0 \/ w = 1 \/ w = 2 \/ w = 3 \/ w = 4 \/ w = 5 \/ w = 6 \/ w = 7.
Proof. intros Hw w. pose proof (Z.mod_pos_bound way 8). lia. Qed.

Lemma skew_Ok a way : 0 <= a < 2 ^ 64 -> 0 <= way ->
  skew i a way = Ok (Nat.iter (Z.to_nat (way / 8)) (H n)
    (mix (way mod 8) (field a (msbShift i) 0) (field a (2 * n - 1) n))).
Proof.
  intros Ha Hw. destruct (fields_reg a) as [Hx Hy]. unfold skew. rewrite !bits_field by lia. cbn [obind].
  unfold NUM_SKEWING_FUNCTIONS. set (x := field a (msbShift i) 0) in *. set (y := field a _ n) in *.
  rewrite !hash_H, !dehash_Dh, !xor3_Ok by done.
  pose proof (mix_reg (way mod 8) x y Hx Hy) as Hm.
  destruct (eight way Hw) as [E|[E|[E|[E|[E|[E|[E|E]]]]]]]; rewrite E in Hm |- *; by apply repeat_hash.
Qed.

Lemma unmix w x y : reg n x -> reg n y ->
  w = 0 \/ w = 1 \/ w = 2 \/ w = 3 \/ w = 4 \/ w = 5 \/ w = 6 \/ w = 7 ->
  match w with
  | 0 => dehash i (Z.lxor (Z.lxor (mix w x y) (H n y)) y)
  | 1 => repeatO (Z.to_nat (msbShift i)) (hash i) (Z.lxor (mix w x y) (H n y))
  | 2 => dehash i (Z.lxor (Z.lxor (mix w x y) (Dh n y)) y)
  | 3 => repeatO (Z.to_nat (msbShift i)) (hash i) (Z.lxor (mix w x y) (Dh n y))
  | 4 => hash i (Z.lxor (Z.lxor (mix w x y) (H n y)) y)
  | 5 => repeatO (Z.to_nat n) (hash i) (Z.lxor (mix w x y) (H n y))
  | 6 => hash i (Z.lxor (Z.lxor (mix w x y) (Dh n y)) y)
  | 7 => repeatO (Z.to_nat n) (hash i) (Z.lxor (mix w x y) (Dh n y))
  | _ => Fault Panic
  end = Ok x.
Proof.
  intros Hx Hy Hw. assert (reg n (H n x)) by by apply H_reg. assert (reg n (Dh n x)) by by apply Dh_reg.
  destruct Hw as [->|[->|[->|[->|[->|[->|[->| ->]]]]]]]; unfold mix;
    change (Z.testbit 0 0) with false; change (Z.testbit 1 0) with true; change (Z.testbit 2 0) with false;
    change (Z.testbit 3 0) with true; change (Z.testbit 4 0) with false; change (Z.testbit 5 0) with true;
    change (Z.testbit 6 0) with false; change (Z.testbit 7 0) with true; cbn -[H Dh dehash hash repeatO Z.to_nat];
    rewrite ?lxor_cancel2, ?lxor_cancel1;
    try (rewrite dehash_Dh by done; f_equal; by apply Dh_H);
    try (rewrite hash_H by done; f_equal; by apply H_Dh);
    rewrite repeat_hash by (by apply lxor_reg); f_equal.
  1,2: pose proof (register_equation n n_ok x Hx) as E; by replace (n - 1) with (msbShift i) in E by lia.
  all: by apply register_equation_inverse.
Qed.
End Code.

Section Deskew.
Variable i : SkewedAssociative.
#[local] Abbreviation n := (msbShift i + 1).
Hypothesis n_ok : 2 <= n <= 32.

Lemma skew_deskew a b way s : 0 <= a < 2 ^ 64 -> 0 <= b < 2 ^ 64 -> 0 <= way ->
  skew i a way = Ok s -> field b (msbShift i) 0 = s -> field b (2 * n - 1) n = field a (2 * n - 1) n ->
  deskew i b way = Ok (field a (msbShift i) 0).
Proof.
  intros Ha Hb Hw Hs Es Ey. rewrite skew_Ok in Hs by done. injection Hs as Hs. rewrite <- Hs in Es. clear s Hs.
  destruct (fields_reg i n_ok a) as [Hx Hy]. unfold deskew. rewrite !bits_field by lia. cbn [obind].
  rewrite Es, Ey. unfold NUM_SKEWING_FUNCTIONS.
  set (x := field a (msbShift i) 0) in *. set (y := field a _ n) in *.
  pose proof (mix_reg i n_ok (way mod 8) x y Hx Hy) as Hm.
  set (m := mix i (way mod 8) x y) in *. set (k := Z.to_nat (way / 8)).
  assert ((if 8 <=? way then repeatO k (dehash i) (Nat.iter k (H n) m) else Ok (Nat.iter k (H n) m)) = Ok m) as ->.
  { destruct (Z.leb_spec 8 way).
    - rewrite (repeat_dehash i n_ok) by (by apply iter_H_reg). f_equal. by apply iter_Dh_H.
    - replace k with 0%nat; [done|]. unfold k. by rewrite Z.div_small by lia. }
  cbn [obind]. rewrite !(hash_H i n_ok y), !(dehash_Dh i n_ok y) by done. cbn [obind].
  exact (unmix i n_ok (way mod 8) x y Hx Hy (eight way Hw)).
Qed.
End Deskew.

(** ** The interface *)
Definition sk_ok (i : SkewedAssociative) : Prop :=
  let n := msbShift i + 1 in
  geometry_ok (sk_geometry i) /\ numSets (sk_geometry i) = 2 ^ n /\ 2 <= n /\
  setShift (sk_geometry i) + 2 * n <= 64.

Definition sk_set (i : SkewedAssociative) (addr way : Z) : Z :=
  match sk_extractSet i addr way with Ok s => s | Fault _ => 0 end.

Lemma sk_ok_parts i : sk_ok i ->
  let n := msbShift i + 1 in let g := sk_geometry i in
  2 <= n <= 32 /\ numSets g = 2 ^ n /\ setMask g = Z.ones n /\ tagShift g = setShift g + n /\
  0 <= setShift g /\ setShift g + n < 64 /\ setShift g + 2 * n <= 64.
Proof.
  intros ((m & Hm & En & Em & Et & Hs & Hb & H32 & Ha) & E2 & H2 & H64). cbn.
  assert (m = msbShift i + 1) as ->.
  { apply (Z.pow_inj_r 2); [lia..|]. by rewrite <- En, <- E2. }
  rewrite Z.ones_equiv, <- Z.sub_1_r, Em, En. lia.
Qed.

(** The set of a way, as the code computes it. *)
Lemma sk_extractSet_Ok i addr way : sk_ok i -> 0 <= addr < 2 ^ 64 -> 0 <= way ->
  sk_extractSet i addr way = Ok (sk_set i addr way) /\ reg (msbShift i + 1) (sk_set i addr way) /\
  skew i (addr / 2 ^ setShift (sk_geometry i)) way = Ok (sk_set i addr way).
Proof.
  intros Hi Ha Hw. destruct (sk_ok_parts i Hi) as (Hn & En & Em & Et & Hs & Hb & H64).
  unfold sk_set, sk_extractSet. rewrite shr64_Ok by lia. cbn [obind]. rewrite Z.shiftr_div_pow2 by lia.
  set (a := addr / 2 ^ setShift (sk_geometry i)).
  assert (0 <= a < 2 ^ 64) as Ba.
  { assert (0 < 2 ^ setShift (sk_geometry i)) by (by apply Z.pow_pos_nonneg).
    split; [apply Z.div_pos; lia|]. apply Z.div_lt_upper_bound; [lia|]. nia. }
  rewrite skew_Ok by done. cbn [obind]. rewrite Em.
  set (s := Nat.iter _ _ _). assert (reg (msbShift i + 1) s) as Hr.
  { apply iter_H_reg; [done|]. apply mix_reg; [done|apply fields_reg; done..]. }
  rewrite Z.land_ones, (Z.mod_small s) by (lia || exact Hr).
  rewrite uwrap_small; [done|]. destruct Hr. assert (2 ^ (msbShift i + 1) <= 2 ^ 32) by (apply Z.pow_le_mono_r; lia). lia.
Qed.

Lemma push_entries i s addr g l : sk_ok i -> g = sk_geometry i -> sets_ok g s -> 0 <= addr < 2 ^ 64 ->
  forall k, 0 <= k -> k + Z.of_nat l <= assoc g ->
  exists es, (forall acc, fold_left (push_entry i s addr) (seqZ k (Z.of_nat l)) (Ok acc) = Ok (acc ++ es)) /\
    length es = l /\
    forall j, (j < l)%nat -> es !! j = slot s (sk_set i addr (k + Z.of_nat j)) (k + Z.of_nat j).
Proof.
  intros Hi -> Hs Ha. destruct (sk_ok_parts i Hi) as (Hn & En & _).
  induction l as [|l IH]; intros k Hk Hl.
  { exists []. split; [intros acc; cbn; by rewrite app_nil_r|]. split; [done|]. intros; lia. }
  destruct (sk_extractSet_Ok i addr k Hi Ha Hk) as (E & [R1 R2] & _).
  destruct (slot_Some _ s (sk_set i addr k) k Hs) as (e & He & Hg); [lia..|].
  destruct (IH (k + 1)) as (es & Ef & El & Es); [lia..|]. exists (e :: es).
  split; [|split; [cbn; lia|]].
  - intros acc. rewrite (seqZ_cons k) by lia. cbn [fold_left]. unfold push_entry at 2. cbn [obind].
    unfold possible_entry. rewrite E. cbn [obind]. rewrite Hg. cbn [obind].
    replace (Z.pred (Z.of_nat (S l))) with (Z.of_nat l) by lia.
    change (Z.succ k) with (k + 1). rewrite Ef. by rewrite <- app_assoc.
  - intros [|j] Hj; [by rewrite Z.add_0_r|].
    change ((e :: es) !! S j) with (es !! j). rewrite Es by lia. by replace (k + Z.of_nat (S j)) with (k + 1 + Z.of_nat j) by lia.
Qed.

(** The fields of the address that deskewing is given. *)
Lemma regenerated_fields tag set n : 2 <= n <= 32 -> 0 <= tag < 2 ^ (64 - n) -> reg n set ->
  let b := Z.lor (u64 (Z.shiftl tag n)) set in
  0 <= b < 2 ^ 64 /\ field b (n - 1) 0 = set /\ field b (2 * n - 1) n = tag mod 2 ^ n.
Proof.
  intros Hn Ht [Hs1 Hs2] b. assert (0 < 2 ^ n) by (apply Z.pow_pos_nonneg; lia).
  assert (2 ^ 64 = 2 ^ (64 - n) * 2 ^ n) as E64 by (rewrite <- Z.pow_add_r by lia; f_equal; lia).
  assert (b = tag * 2 ^ n + set) as ->.
  { unfold b. rewrite Z.shiftl_mul_pow2 by lia. rewrite uwrap_small by nia. apply lor_disjoint; lia. }
  split; [nia|]. unfold field. replace (n - 1 - 0 + 1) with n by lia. replace (2 * n - 1 - n + 1) with n by lia.
  rewrite Z.div_1_r, Z.add_comm, Z.mod_add, Z.div_add, (Z.div_small set), Z.mod_small by lia. done.
Qed.

Lemma address_fields addr k n : 0 <= k -> 0 <= n ->
  field (addr / 2 ^ k) (n - 1) 0 = (addr / 2 ^ k) mod 2 ^ n /\
  field (addr / 2 ^ k) (2 * n - 1) n = (addr / 2 ^ (k + n)) mod 2 ^ n.
Proof.
  intros Hk Hn. unfold field. replace (n - 1 - 0 + 1) with n by lia. replace (2 * n - 1 - n + 1) with n by lia.
  rewrite Z.div_1_r, Z.pow_add_r, Z.div_div; [done|..]; try apply Z.pow_nonzero; try apply Z.pow_pos_nonneg; lia.
Qed.

Lemma sk_regenerates i addr way tag : sk_ok i -> 0 <= addr < 2 ^ 64 -> 0 <= way ->
  extractTag (sk_geometry i) addr = Ok tag ->
  sk_regenerateAddr i tag (sk_set i addr way) way = Ok (block_of (sk_geometry i) addr).
Proof.
  intros Hi Ha Hw Ht. destruct (sk_ok_parts i Hi) as (Hn & En & Em & Et & Hs & Hb & H64).
  destruct (sk_extractSet_Ok i addr way Hi Ha Hw) as (_ & Hr & Hk).
  rewrite extractTag_div in Ht by apply Hi. injection Ht as <-. rewrite Et.
  unfold sk_regenerateAddr. rewrite Et, !shl64_Ok by lia. cbn [obind].
  set (n := msbShift i + 1) in *. set (g := sk_geometry i) in *.
  destruct (regenerated_fields (addr / 2 ^ (setShift g + n)) (sk_set i addr way) n) as (B & F1 & F2); [done| |done|].
  { assert (2 ^ 64 = 2 ^ (64 - n) * 2 ^ n) as E64 by (rewrite <- Z.pow_add_r by lia; f_equal; lia).
    assert (0 < 2 ^ setShift g) by (by apply Z.pow_pos_nonneg). assert (0 < 2 ^ n) by (apply Z.pow_pos_nonneg; lia).
    rewrite Z.pow_add_r by lia. split; [apply Z.div_pos; nia|]. apply Z.div_lt_upper_bound; nia. }
  destruct (address_fields addr (setShift g) n Hs) as [A1 A2]; [lia|].
  assert (0 <= addr / 2 ^ setShift g < 2 ^ 64) as Ba.
  { assert (0 < 2 ^ setShift g) by (by apply Z.pow_pos_nonneg).
    split; [apply Z.div_pos; lia|]. apply Z.div_lt_upper_bound; [lia|]. nia. }
  rewrite (skew_deskew i Hn (addr / 2 ^ setShift g) _ way (sk_set i addr way)); [|done..| |].
  - cbn [obind]. rewrite shl64_Ok by lia. cbn [obind]. f_equal. replace (msbShift i) with (n - 1) by lia.
    rewrite A1, Em, Z.land_ones, Z.mod_mod by (apply Z.pow_nonzero || idtac; lia).
    rewrite (Z.shiftl_mul_pow2 (_ mod _)), (uwrap_small 64 (_ mod _ * _)) by
      (try lia; pose proof (Z.mod_pos_bound (addr / 2 ^ setShift g) (2 ^ n) ltac:(apply Z.pow_pos_nonneg; lia));
       assert (2 ^ (setShift g + n) < 2 ^ 64) as L by (apply Z.pow_lt_mono_r; lia);
       rewrite Z.pow_add_r in L by lia; assert (0 < 2 ^ setShift g) by (by apply Z.pow_pos_nonneg); nia).
    apply glue_block; lia.
  - by replace (msbShift i) with (n - 1) by lia.
  - etrans; [exact F2|symmetry; exact A2].
Qed.

#[export] Instance SkewedAssociative_laws : IndexingLaws SkewedAssociative.
Proof.
  refine {| ip_ok := sk_ok; ip_set := sk_set |}.
  - by intros i [? _].
  - intros i addr way Hi Ha Hw. destruct (sk_ok_parts i Hi) as (_ & En & _).
    destruct (sk_extractSet_Ok i addr way Hi Ha) as (_ & Hr & _); [lia|]. cbn. by rewrite En.
  - intros i a b way [(n & Hn & _ & _ & _ & Hs & Hb & _) _] E. unfold sk_set, sk_extractSet.
    rewrite !shr64_Ok by lia. cbn [obind]. rewrite !Z.shiftr_div_pow2 by lia. by rewrite (block_of_div _ a b Hs E).
  - intros i s addr Hi Hs Ha. cbn. unfold sk_getPossibleEntries.
    destruct (proj1 Hi) as (? & _ & _ & _ & _ & _ & _ & _ & Has).
    destruct (push_entries i s addr _ (Z.to_nat (assoc (sk_geometry i))) Hi eq_refl Hs Ha 0)
      as (es & Ef & El & Es); [lia..|].
    rewrite Z2Nat.id in Ef by lia. exists es. split; [apply (Ef [])|]. split; [unfold vsize; lia|].
    intros way Hw. rewrite Es by lia. by rewrite Z2Nat.id by lia.
  - intros i addr way tag Hi Ha Hw Ht. apply sk_regenerates; [done..|lia|done].
Defined.

Lemma new_SkewedAssociative_ok size entry_size p_assoc i s :
  0 <= size < 2 ^ 64 -> entry_size < 2 ^ 31 ->
  new_SkewedAssociative size entry_size p_assoc = Ok (i, s) ->
  sk_ok i /\ sets_ok (sk_geometry i) s /\ setShift (sk_geometry i) = Z.log2 entry_size.
Proof.
  intros Hs He H. unfold new_SkewedAssociative in H. inv_ok H. destruct a as [g s0]. cbn in *.
  apply geometry_of_params_ok in Hrun as (Hg & Hso & Hsh & _ & _ & _); [|done..].
  apply ocheck_Ok_inv in Hrun1, Hrun2. injection H as <- <-. split; [|done].
  pose proof Hg as (n & Hn & En & _ & _ & Hs0 & _ & Hn32 & _).
  assert (0 < numSets g < 2 ^ 32) by (rewrite En; split; [by apply Z.pow_pos_nonneg|apply Z.pow_lt_mono_r; lia]).
  rewrite floorLog2_log2 in Hrun0 by lia. rewrite En, Z.log2_pow2 in Hrun0 by lia. injection Hrun0 as <-.
  split; [done|]. cbn. replace (n - 1 + 1) with n in * by lia.
  destruct (Z.ltb_spec n 2); [|lia]. assert (n = 0 \/ n = 1) as [-> | ->] by lia; rewrite En in Hrun2; done.
Qed.

(** ** Properties *)

(** C27 (roundtrip). For every skewed associative policy the constructor accepts,
    every address and every way: [extractSet] gives a set of the table, the
    candidate of that way is the entry in that set, and [regenerateAddr] of the
    tag at that position gives back the address of the block.  So deskewing
    inverts each of the eight skewing functions and the piled up hashes. *)
Theorem skewed_indexing_inverts size entry_size p_assoc i s table addr way :
  0 <= size < 2 ^ 64 -> entry_size < 2 ^ 31 ->
  new_SkewedAssociative size entry_size p_assoc = Ok (i, s) ->
  sets_ok (sk_geometry i) table -> 0 <= addr < 2 ^ 64 -> 0 <= way < assoc (sk_geometry i) ->
  exists set tag l, sk_extractSet i addr way = Ok set /\ 0 <= set < numSets (sk_geometry i) /\
    sk_getPossibleEntries i table addr = Ok l /\ l !! Z.to_nat way = slot table set way /\
    extractTag (sk_geometry i) addr = Ok tag /\
    sk_regenerateAddr i tag set way = Ok (addr - addr mod 2 ^ Z.log2 entry_size).
Proof.
  intros Hs He H Ht Ha Hw. destruct (new_SkewedAssociative_ok _ _ _ _ _ Hs He H) as (Hi & _ & Hsh).
  assert (ip_ok i) as Hok by exact Hi.
  destruct (ip_possible i table addr Hok Ht Ha) as (l & El & _ & Hl).
  pose proof (extractTag_div _ addr (proj1 Hi)) as Et.
  exists (sk_set i addr way), (addr / 2 ^ tagShift (sk_geometry i)), l.
  split; [apply sk_extractSet_Ok; [done..|lia]|].
  split; [by apply (ip_set_range i addr way Hok)|]. split; [done|]. split; [by apply Hl|]. split; [done|].
  rewrite <- Hsh. by apply (ip_regenerates i addr way _ Hok Ha Hw).
Qed.

Lemma skewed_indexing_inverts_witness :
  exists i s set tag, new_SkewedAssociative 65536 64 16 = Ok (i, s) /\
    sk_extractSet i 0x12345678 13 = Ok set /\ sk_regenerateAddr i tag set 13 = Ok 0x12345640.
Proof.
  destruct (new_SkewedAssociative 65536 64 16) as [[i s]|] eqn:E; [|vm_compute in E; discriminate].
  destruct (skewed_indexing_inverts 65536 64 16 i s s 0x12345678 13) as (set & tag & l & E1 & _ & _ & _ & _ & E2);
    [lia..|exact E| |lia| |].
  - vm_compute in E. injection E as <- <-. split; [reflexivity|]. apply (bool_decide_unpack _). vm_compute. exact I.
  - vm_compute in E. injection E as <- <-. vm_compute. split; [discriminate|reflexivity].
  - exists i, s, set, tag. split; [reflexivity|]. split; [exact E1|]. exact E2.
Defined.
