(* ===== verification/CacheBlk.v ===== *)
(** Cache blocks: [TaggedEntry] of [mem/cache/tags/tagged_entry.hh] and
    [CacheBlk], [TempCacheBlk] of [mem/cache/cache_blk.hh], [cache_blk.cc].

    A block is the record of the members the two classes add to
    [ReplaceableEntry]; the tag extractor registered with it is the one of the
    tag store's indexing policy, so a block only remembers whether it has one. *)
From Stdlib Require Import ZArith Lia Bool.
From stdpp Require Import base numbers list.
From S2P Require Import Prelude Indexing.
Local Open Scope Z_scope.

Definition MaxTick : Z := 2 ^ 64 - 1.
Definition MaxAddr : Z := 2 ^ 64 - 1.
Definition Unknown_task : Z := 1024.          (* context_switch_task_id::Unknown *)
Definition invldRequestorId : Z := 2 ^ 16 - 1.

(** [TaggedTypes::KeyType]. *)
Record KeyType := mkKey { key_address : Z; key_secure : bool }.

(** What the blocks read of a request and of its packet. *)
Record Request := mkRequest { getPaddr : Z; getSize : Z; contextId : Z }.

(** [CacheBlk::Lock]. *)
Record Lock := mkLock { lock_context : Z; lowAddr : Z; highAddr : Z }.

Definition req_high (req : Request) : Z := u64 (u64 (getPaddr req + getSize req) - 1).

Definition new_Lock (req : Request) : Lock :=
  mkLock (contextId req) (getPaddr req) (req_high req).

Definition matches (l : Lock) (req : Request) : bool :=
  (lock_context l =? contextId req) && (lowAddr l <=? getPaddr req) && (req_high req <=? highAddr l).

Definition intersects (l : Lock) (req : Request) : bool :=
  (getPaddr req <=? highAddr l) && (lowAddr l <=? req_high req).

Definition WritableBit : Z := 0x02.
Definition ReadableBit : Z := 0x04.
Definition DirtyBit : Z := 0x08.
Definition AllBits : Z := 0x0E.

Record CacheBlk := mkCacheBlk {
  _valid : bool;
  _secure : bool;
  _tag : Z;
  has_extractor : bool;        (* std::function extractTag is not empty *)
  blk_data : option Z;         (* data, an offset into the data blocks; null when None *)
  whenReady : Z;
  lockList : list Lock;
  coherence : Z;               (* unsigned *)
  _taskId : Z;                 (* uint32_t *)
  _srcRequestorId : Z;         (* int *)
  _partitionId : Z;            (* uint64_t *)
  _refCount : Z;               (* unsigned *)
  _tickInserted : Z;
  _prefetched : bool;
}.

#[global] Instance Lock_eq_dec : EqDecision Lock.
Proof. solve_decision. Defined.
#[global] Instance CacheBlk_eq_dec : EqDecision CacheBlk.
Proof. solve_decision. Defined.

(** ** [TaggedEntry] *)
Definition with_tagging (v s : bool) (t : Z) (b : CacheBlk) : CacheBlk :=
  mkCacheBlk v s t (has_extractor b) (blk_data b) (whenReady b) (lockList b) (coherence b) (_taskId b)
    (_srcRequestorId b) (_partitionId b) (_refCount b) (_tickInserted b) (_prefetched b).

Definition isValid (b : CacheBlk) : bool := _valid b.

Definition registerTagExtractor (b : CacheBlk) : CacheBlk :=
  mkCacheBlk (_valid b) (_secure b) (_tag b) true (blk_data b) (whenReady b) (lockList b) (coherence b)
    (_taskId b) (_srcRequestorId b) (_partitionId b) (_refCount b) (_tickInserted b) (_prefetched b).

(** [extractTag(addr)], through the registered function. *)
Definition call_extractor (g : Geometry) (b : CacheBlk) (addr : Z) : outcome Z :=
  if has_extractor b then extractTag g addr else Fault BadFunctionCall.

Definition match_key (g : Geometry) (key : KeyType) (b : CacheBlk) : outcome bool :=
  if negb (isValid b) then Ok false else
  let? t := call_extractor g b (key_address key) in
  Ok ((_tag b =? t) && eqb (_secure b) (key_secure key)).

Definition setValid (b : CacheBlk) : outcome CacheBlk :=
  let? _ := ocheck (negb (isValid b)) AssertFailed in
  Ok (with_tagging true (_secure b) (_tag b) b).

Definition insert_key (g : Geometry) (key : KeyType) (b : CacheBlk) : outcome CacheBlk :=
  let? b := setValid b in
  let? t := call_extractor g b (key_address key) in
  let b := with_tagging (_valid b) (_secure b) t b in
  Ok (if key_secure key then with_tagging (_valid b) true (_tag b) b else b).

Definition tagged_invalidate (b : CacheBlk) : CacheBlk := with_tagging false false MaxAddr b.

(** ** [CacheBlk] *)
Definition with_state (ready : Z) (locks : list Lock) (coh : Z) (pref : bool) (b : CacheBlk) : CacheBlk :=
  mkCacheBlk (_valid b) (_secure b) (_tag b) (has_extractor b) (blk_data b) ready locks coh (_taskId b)
    (_srcRequestorId b) (_partitionId b) (_refCount b) (_tickInserted b) pref.

Definition with_ids (task src part refs tick : Z) (b : CacheBlk) : CacheBlk :=
  mkCacheBlk (_valid b) (_secure b) (_tag b) (has_extractor b) (blk_data b) (whenReady b) (lockList b)
    (coherence b) task src part refs tick (_prefetched b).

Definition set_data (d : Z) (b : CacheBlk) : CacheBlk :=
  mkCacheBlk (_valid b) (_secure b) (_tag b) (has_extractor b) (Some d) (whenReady b) (lockList b)
    (coherence b) (_taskId b) (_srcRequestorId b) (_partitionId b) (_refCount b) (_tickInserted b) (_prefetched b).

Definition setWhenReady (tick : Z) (b : CacheBlk) : outcome CacheBlk :=
  let? _ := ocheck (_tickInserted b <=? tick) AssertFailed in
  Ok (with_state tick (lockList b) (coherence b) (_prefetched b) b).

Definition getWhenReady (b : CacheBlk) : outcome Z :=
  let? _ := ocheck (negb (whenReady b =? MaxTick)) AssertFailed in Ok (whenReady b).

Definition clearCoherenceBits (bits : Z) (b : CacheBlk) : CacheBlk :=
  with_state (whenReady b) (lockList b) (Z.land (coherence b) (u32 (Z.lnot bits))) (_prefetched b) b.

Definition setCoherenceBits (bits : Z) (b : CacheBlk) : outcome CacheBlk :=
  let? _ := ocheck (isValid b) AssertFailed in
  Ok (with_state (whenReady b) (lockList b) (Z.lor (coherence b) bits) (_prefetched b) b).

Definition isSet (bits : Z) (b : CacheBlk) : bool :=
  isValid b && negb (Z.land (coherence b) bits =? 0).

Definition setPrefetched (b : CacheBlk) : CacheBlk :=
  with_state (whenReady b) (lockList b) (coherence b) true b.
Definition clearPrefetched (b : CacheBlk) : CacheBlk :=
  with_state (whenReady b) (lockList b) (coherence b) false b.

Definition increaseRefCount (b : CacheBlk) : CacheBlk :=
  with_ids (_taskId b) (_srcRequestorId b) (_partitionId b) (u32 (_refCount b + 1)) (_tickInserted b) b.

Definition getAge (curTick : Z) (b : CacheBlk) : outcome Z :=
  let? _ := ocheck (_tickInserted b <=? curTick) AssertFailed in
  Ok (curTick - _tickInserted b).

Definition invalidate (b : CacheBlk) : outcome CacheBlk :=
  let b := tagged_invalidate b in
  let b := clearPrefetched b in
  let b := clearCoherenceBits AllBits b in
  let b := with_ids Unknown_task (_srcRequestorId b) (2 ^ 64 - 1) (_refCount b) (_tickInserted b) b in
  let? b := setWhenReady MaxTick b in
  let b := with_ids (_taskId b) (i32 invldRequestorId) (_partitionId b) 0 (_tickInserted b) b in
  Ok (with_state (whenReady b) [] (coherence b) (_prefetched b) b).

(** The members before the constructor's call of [invalidate]; the partition
    id has no initialiser. *)
Definition raw_CacheBlk (junk : Z) : CacheBlk :=
  mkCacheBlk false false MaxAddr false None 0 [] 0 0 0 junk 0 0 false.

Definition new_CacheBlk (junk : Z) : outcome CacheBlk := invalidate (raw_CacheBlk junk).

Definition insert (g : Geometry) (curTick : Z) (tag : KeyType) (src_requestor_ID task_ID partition_id : Z)
    (b : CacheBlk) : outcome CacheBlk :=
  let? _ := ocheck (negb (isValid b)) AssertFailed in
  let? b := insert_key g tag b in
  let b := with_ids task_ID (i32 src_requestor_ID) partition_id (_refCount b) curTick b in
  Ok (increaseRefCount b).

(** [*this = std::move(other)]: the new members of both. *)
Definition move_assign (g : Geometry) (curTick : Z) (this other : CacheBlk) : outcome (CacheBlk * CacheBlk) :=
  let? _ := ocheck (negb (isValid this)) AssertFailed in
  let? _ := ocheck (isValid other) AssertFailed in
  let? b := insert_key g (mkKey (_tag other) (_secure other)) this in
  let b := if _prefetched other then setPrefetched b else b in
  let? b := setCoherenceBits (coherence other) b in
  let b := with_ids (_taskId other) (_srcRequestorId b) (_partitionId other) (_refCount b) (_tickInserted b) b in
  let? b := setWhenReady curTick b in
  let b := with_ids (_taskId b) (i32 (u32 (_srcRequestorId other))) (_partitionId b) (_refCount other) (_tickInserted b) b in
  let o := with_state (whenReady other) (lockList b) (coherence other) (_prefetched other) other in
  let b := with_state (whenReady b) (lockList other) (coherence b) (_prefetched b) b in
  let? o := invalidate o in
  Ok (b, o).

(** ** Load locks *)
Definition set_locks (l : list Lock) (b : CacheBlk) : CacheBlk :=
  with_state (whenReady b) l (coherence b) (_prefetched b) b.

(** The iterator loop of [trackLoadLocked]: erase or step. *)
Fixpoint erase_if (f : Lock -> bool) (l : list Lock) : list Lock :=
  match l with
  | [] => []
  | x :: l' => if f x then erase_if f l' else x :: erase_if f l'
  end.

Definition trackLoadLocked (isLLSC : bool) (req : Request) (b : CacheBlk) : outcome CacheBlk :=
  let? _ := ocheck isLLSC AssertFailed in
  Ok (set_locks (new_Lock req :: erase_if (fun l => intersects l req) (lockList b)) b).

Definition clearLoadLocks (req : Request) (b : CacheBlk) : CacheBlk :=
  set_locks (erase_if (fun l => intersects l req && negb (lock_context l =? contextId req)) (lockList b)) b.

(** [while (!success && l != end)]: the first matching lock goes. *)
Fixpoint take_match (req : Request) (l : list Lock) : bool * list Lock :=
  match l with
  | [] => (false, [])
  | x :: l' =>
      if matches x req then (true, l')
      else let r := take_match req l' in (r.1, x :: r.2)
  end.

(** Whether the write proceeds, the extra data a store conditional leaves in
    the request, and the block. *)
Definition checkWrite (isWrite isLLSC : bool) (req : Request) (b : CacheBlk) :
    outcome (bool * option Z * CacheBlk) :=
  let? _ := ocheck isWrite AssertFailed in
  if negb isLLSC && (match lockList b with [] => true | _ => false end) then Ok (true, None, b) else
  if isLLSC then
    let r := take_match req (lockList b) in
    let b := clearLoadLocks req (set_locks r.2 b) in
    Ok (r.1, Some (if r.1 then 1 else 0), b)
  else Ok (true, None, clearLoadLocks req b).

(** ** [TempCacheBlk] *)
Record TempCacheBlk := mkTempCacheBlk { temp_blk : CacheBlk; _addr : Z; temp_set : Z }.

(** The address is not initialised. *)
Definition new_TempCacheBlk (junk junk_addr : Z) : outcome TempCacheBlk :=
  let? b := new_CacheBlk junk in
  Ok (mkTempCacheBlk (registerTagExtractor (set_data 0 b)) junk_addr (-1)).

Definition temp_invalidate (t : TempCacheBlk) : outcome TempCacheBlk :=
  let? b := invalidate (temp_blk t) in Ok (mkTempCacheBlk b MaxAddr (temp_set t)).

Definition temp_insert (g : Geometry) (key : KeyType) (t : TempCacheBlk) : outcome TempCacheBlk :=
  let? b := insert_key g key (temp_blk t) in Ok (mkTempCacheBlk b (key_address key) (temp_set t)).

Lemma invalidate_locks b b' : invalidate b = Ok b' -> lockList b' = [].
Proof. unfold invalidate. intros H. inv_ok H. by injection H as <-. Qed.

(** ** Locks as reservations *)

(** Accesses of a block, in order: load-locked, plain store, store conditional. *)
Inductive access := LL (req : Request) | Store (req : Request) | SC (req : Request).

Definition request_of (a : access) : Request := match a with LL r | Store r | SC r => r end.

(** One access: whether it proceeds, and the block. *)
Definition do_access (a : access) (b : CacheBlk) : outcome (bool * CacheBlk) :=
  match a with
  | LL r => let? b := trackLoadLocked true r b in Ok (true, b)
  | Store r => let? x := checkWrite true false r b in Ok (x.1.1, x.2)
  | SC r => let? x := checkWrite true true r b in Ok (x.1.1, x.2)
  end.

Fixpoint do_accesses (h : list access) (b : CacheBlk) : outcome (list bool * CacheBlk) :=
  match h with
  | [] => Ok ([], b)
  | a :: h' =>
      let? x := do_access a b in
      let? y := do_accesses h' x.2 in
      Ok (x.1 :: y.1, y.2)
  end.

(** A request of at least one byte that does not wrap around. *)
Definition req_ok (r : Request) : Prop := 0 <= getPaddr r /\ 1 <= getSize r /\ getPaddr r + getSize r <= 2 ^ 64.
Definition last_byte (r : Request) : Z := getPaddr r + getSize r - 1.

Definition overlap (r r' : Request) : Prop := getPaddr r <= last_byte r' /\ getPaddr r' <= last_byte r.
Definition covers (r r' : Request) : Prop := getPaddr r <= getPaddr r' /\ last_byte r' <= last_byte r.

(** What ends the reservation a load-locked [r0] made. *)
Definition ends_reservation (r0 : Request) (a : access) : Prop :=
  match a with
  | LL r => overlap r0 r
  | Store r => contextId r <> contextId r0 /\ overlap r0 r
  | SC r => (contextId r <> contextId r0 /\ overlap r0 r) \/ (contextId r = contextId r0 /\ covers r0 r)
  end.

(** [r0] was reserved in the history and nothing ended it. *)
Definition reserved (h : list access) (r0 : Request) : Prop :=
  exists h1 h2, h = h1 ++ LL r0 :: h2 /\ Forall (fun a => ~ ends_reservation r0 a) h2.

Lemma req_high_ok r : req_ok r -> req_high r = last_byte r.
Proof.
  intros (H0 & H1 & H2). unfold req_high, last_byte. destruct (Z.eq_dec (getPaddr r + getSize r) (2 ^ 64)) as [->|].
  - done.
  - rewrite (uwrap_small 64 (getPaddr r + getSize r)), uwrap_small by lia. done.
Qed.

Lemma intersects_ok r0 r : req_ok r0 -> req_ok r -> intersects (new_Lock r0) r = true <-> overlap r0 r.
Proof.
  intros H0 H. unfold intersects, new_Lock, overlap. cbn. rewrite !req_high_ok by done.
  rewrite andb_true_iff, !Z.leb_le. tauto.
Qed.

Lemma matches_ok r0 r : req_ok r0 -> req_ok r ->
  matches (new_Lock r0) r = true <-> contextId r = contextId r0 /\ covers r0 r.
Proof.
  intros H0 H. unfold matches, new_Lock, covers. cbn. rewrite !req_high_ok by done.
  rewrite !andb_true_iff, !Z.leb_le, Z.eqb_eq. naive_solver.
Qed.

Lemma elem_of_erase_if f l x : x ∈ erase_if f l <-> x ∈ l /\ f x = false.
Proof.
  induction l as [|y l IH]; cbn; [by rewrite elem_of_nil; naive_solver|].
  destruct (f y) eqn:E; rewrite ?elem_of_cons, IH; naive_solver congruence.
Qed.

(** The locks of a block are of disjoint ranges. *)
Definition apart (x y : Lock) : Prop := highAddr x < lowAddr y \/ highAddr y < lowAddr x.

Fixpoint locks_apart (l : list Lock) : Prop :=
  match l with
  | [] => True
  | x :: l' => Forall (apart x) l' /\ locks_apart l'
  end.

Lemma erase_if_apart f l : locks_apart l -> locks_apart (erase_if f l).
Proof.
  induction l as [|x l IH]; [done|]. intros [HF Hl]. cbn. destruct (f x); [by apply IH|].
  split; [|by apply IH]. apply Forall_forall. intros y [Hy _]%elem_of_erase_if.
  rewrite Forall_forall in HF. by apply HF.
Qed.

Lemma matches_not_apart x y r : req_ok r -> matches x r = true -> matches y r = true -> ~ apart x y.
Proof.
  intros Hr. unfold matches, apart. rewrite !andb_true_iff, !Z.leb_le, req_high_ok by done.
  destruct Hr. unfold last_byte. lia.
Qed.

(** The one matching lock goes. *)
Lemma take_match_spec r l : req_ok r -> locks_apart l ->
  (take_match r l).1 = existsb (fun x => matches x r) l /\
  locks_apart (take_match r l).2 /\
  forall x, x ∈ (take_match r l).2 <-> x ∈ l /\ matches x r = false.
Proof.
  intros Hr. induction l as [|y l IH]; cbn [locks_apart take_match existsb].
  { intros _. do 2 (split; [done|]). intros x. rewrite !elem_of_nil. tauto. }
  intros [HF Hl]. destruct (IH Hl) as (E1 & Ha & E2). destruct (matches y r) eqn:E; cbn [fst snd orb].
  - do 2 (split; [done|]). intros x. rewrite elem_of_cons. split.
    + intros Hx. split; [by right|]. destruct (matches x r) eqn:Ex; [|done].
      destruct (matches_not_apart y x r Hr E Ex). rewrite Forall_forall in HF. by apply HF.
    + intros [[->|Hx] Hn]; [congruence|done].
  - split; [done|]. split.
    + split; [|done]. apply Forall_forall. intros x [Hx _]%E2. rewrite Forall_forall in HF. by apply HF.
    + intros x. rewrite !elem_of_cons, E2. naive_solver.
Qed.

Lemma reserved_snoc h a r0 :
  reserved (h ++ [a]) r0 <-> a = LL r0 \/ (reserved h r0 /\ ~ ends_reservation r0 a).
Proof.
  split.
  - intros (h1 & h2 & E & HF). destruct h2 as [|x h2 _] using rev_ind.
    + apply app_inj_tail in E as [_ ->]. by left.
    + rewrite app_comm_cons, app_assoc in E. apply app_inj_tail in E as [-> ->].
      apply Forall_app in HF as [HF [Hx _]%Forall_cons]. right. split; [|done]. by exists h1, h2.
  - intros [->|[(h1 & h2 & -> & HF) Hn]].
    + by exists h, [].
    + exists h1, (h2 ++ [a]). split; [by rewrite <- app_assoc|]. apply Forall_app. split; [done|].
      by apply Forall_singleton.
Qed.

Lemma reserved_ok h r0 : Forall (fun a => req_ok (request_of a)) h -> reserved h r0 -> req_ok r0.
Proof. intros HF (h1 & h2 & -> & _). apply Forall_app in HF as [_ [H _]%Forall_cons]. exact H. Qed.

(** The lock list of a block is the list of the reservations. *)
Definition locks_of (h : list access) (b : CacheBlk) : Prop :=
  locks_apart (lockList b) /\ forall l, l ∈ lockList b <-> exists r0, l = new_Lock r0 /\ reserved h r0.

(** Keeping the locks that [a] does not end. *)
Lemma locks_kept h a (locks locks' : list Lock) :
  (forall l, l ∈ locks <-> exists r0, l = new_Lock r0 /\ reserved h r0) ->
  (forall r0, reserved h r0 -> new_Lock r0 ∈ locks' <-> ~ ends_reservation r0 a) ->
  (forall l, l ∈ locks' -> l ∈ locks) -> (forall r, a <> LL r) ->
  forall l, l ∈ locks' <-> exists r0, l = new_Lock r0 /\ reserved (h ++ [a]) r0.
Proof.
  intros H1 H2 H3 Ha l. split.
  - intros Hl. destruct (proj1 (H1 l) (H3 l Hl)) as (r0 & -> & Hr). exists r0. split; [done|].
    apply reserved_snoc. right. split; [done|]. by apply H2.
  - intros (r0 & -> & [->|[Hr Hn]]%reserved_snoc); [by destruct (Ha r0)|]. by apply H2.
Qed.

Lemma clear_keeps r0 r : req_ok r0 -> req_ok r ->
  intersects (new_Lock r0) r && negb (lock_context (new_Lock r0) =? contextId r) = false <->
  ~ (contextId r <> contextId r0 /\ overlap r0 r).
Proof.
  intros H0 H. pose proof (intersects_ok r0 r H0 H) as E. cbn [lock_context new_Lock].
  destruct (intersects _ r), (Z.eqb_spec (contextId r0) (contextId r)); cbn; naive_solver.
Qed.

Lemma LL_step h b r : Forall (fun a => req_ok (request_of a)) h -> req_ok r -> locks_of h b ->
  locks_of (h ++ [LL r]) (set_locks (new_Lock r :: erase_if (fun l => intersects l r) (lockList b)) b).
Proof.
  intros HF Hr [Ha Hl]. split; cbn.
  - split; [|by apply erase_if_apart]. apply Forall_forall. intros l [Hin Hn]%elem_of_erase_if.
    unfold intersects in Hn. unfold apart. cbn. rewrite andb_false_iff, !Z.leb_gt in Hn. lia.
  - intros l. rewrite elem_of_cons, elem_of_erase_if, Hl. split.
    + intros [->|[(r0 & -> & Hr0) Hn]]; [exists r; split; [done|]; apply reserved_snoc; by left|].
      exists r0. split; [done|]. apply reserved_snoc. right. split; [done|]. cbn.
      rewrite <- intersects_ok by eauto using reserved_ok. by rewrite Hn.
    + intros (r0 & -> & [[= ->]|[Hr0 Hn]]%reserved_snoc); [by left|]. right. split; [by exists r0|].
      apply not_true_iff_false. rewrite intersects_ok by eauto using reserved_ok. exact Hn.
Qed.

Lemma Store_step h b r : Forall (fun a => req_ok (request_of a)) h -> req_ok r -> locks_of h b ->
  locks_of (h ++ [Store r]) (clearLoadLocks r b).
Proof.
  intros HF Hr [Ha Hl]. split; cbn; [by apply erase_if_apart|].
  eapply locks_kept; [exact Hl| | |done].
  - intros r0 Hr0. rewrite elem_of_erase_if, Hl. cbn [ends_reservation].
    rewrite clear_keeps by eauto using reserved_ok. naive_solver.
  - intros l [? _]%elem_of_erase_if. done.
Qed.

Lemma SC_step h b r : Forall (fun a => req_ok (request_of a)) h -> req_ok r -> locks_of h b ->
  locks_of (h ++ [SC r]) (clearLoadLocks r (set_locks (take_match r (lockList b)).2 b)) /\
  ((take_match r (lockList b)).1 = true <->
    exists r0, reserved h r0 /\ contextId r = contextId r0 /\ covers r0 r).
Proof.
  intros HF Hr [Ha Hl]. destruct (take_match_spec r (lockList b) Hr Ha) as (E1 & Ha' & E2). split.
  - split; cbn; [by apply erase_if_apart|]. eapply locks_kept; [exact Hl| | |done].
    + intros r0 Hr0. assert (req_ok r0) by eauto using reserved_ok.
      rewrite elem_of_erase_if, E2, Hl, clear_keeps by done. cbn [ends_reservation].
      rewrite <- not_true_iff_false, matches_ok by done. naive_solver.
    + intros l [[? _]%E2 _]%elem_of_erase_if. done.
  - rewrite E1, existsb_exists. split.
    + intros (l & Hin & Hm). apply list_elem_of_In, Hl in Hin as (r0 & -> & Hr0). exists r0. split; [done|].
      apply matches_ok; eauto using reserved_ok.
    + intros (r0 & Hr0 & Hc). exists (new_Lock r0). split; [apply list_elem_of_In, Hl; eauto|].
      apply matches_ok; eauto using reserved_ok.
Qed.

(** Whether an access of a block proceeds after a history. *)
Definition proceeds (h : list access) (a : access) : Prop :=
  match a with
  | SC r => exists r0, reserved h r0 /\ contextId r = contextId r0 /\ covers r0 r
  | _ => True
  end.

Lemma access_step h b a : Forall (fun a => req_ok (request_of a)) h -> req_ok (request_of a) -> locks_of h b ->
  exists ok b', do_access a b = Ok (ok, b') /\ locks_of (h ++ [a]) b' /\ (ok = true <-> proceeds h a).
Proof.
  intros HF Hr Hb. destruct a as [r|r|r]; cbn in Hr |- *.
  - eexists _, _. split; [done|]. split; [by apply LL_step|done].
  - pose proof (Store_step h b r HF Hr Hb) as Hs. unfold checkWrite. cbn. destruct (lockList b) eqn:E; cbn;
      (eexists _, _; split; [done|]; split; [|done]); [|done].
    unfold clearLoadLocks in Hs. rewrite E in Hs. cbn in Hs. destruct Hs as [H1 H2]. split; rewrite E; [done|exact H2].
  - destruct (SC_step h b r HF Hr Hb) as [H1 H2]. eexists _, _. split; [done|]. by split.
Qed.

Lemma accesses_run h h' b : Forall (fun a => req_ok (request_of a)) (h' ++ h) -> locks_of h' b ->
  exists oks b', do_accesses h b = Ok (oks, b') /\ length oks = length h /\
    forall i a ok, h !! i = Some a -> oks !! i = Some ok -> ok = true <-> proceeds (h' ++ take i h) a.
Proof.
  revert h' b. induction h as [|a h IH]; intros h' b HF Hb.
  { exists [], b. split; [done|]. by split. }
  pose proof HF as [HF' [Ha _]%Forall_cons]%Forall_app.
  destruct (access_step h' b a HF' Ha Hb) as (ok & b1 & E & Hb1 & Hok).
  destruct (IH (h' ++ [a]) b1) as (oks & b2 & E2 & El & Hi); [by rewrite <- app_assoc|done|].
  exists (ok :: oks), b2. cbn. rewrite E. cbn. rewrite E2. cbn. split; [done|]. split; [lia|].
  intros [|i] x ok' Hx Ho; cbn in Hx, Ho; simplify_eq.
  - by rewrite app_nil_r.
  - rewrite (Hi i x ok') by done. by rewrite <- app_assoc.
Qed.

(** ** Properties *)

(** C28 (refinement). Load-locked and store-conditional accesses of a block:
    in any sequence of accesses from a block without locks, every load and plain
    store proceeds, and a store conditional proceeds exactly when an earlier
    load-locked of the same context covers its range and no access in between
    ended that reservation: a load-locked of an overlapping range, a store of
    another context to it, or a store conditional that used it. *)
Theorem llsc_reservations h b :
  lockList b = [] -> Forall (fun a => req_ok (request_of a)) h ->
  exists oks b', do_accesses h b = Ok (oks, b') /\ length oks = length h /\
    forall i a ok, h !! i = Some a -> oks !! i = Some ok -> ok = true <-> proceeds (take i h) a.
Proof.
  intros Hb HF. apply (accesses_run h [] b); [done|]. split; rewrite Hb; [done|].
  intros l. rewrite elem_of_nil. split; [done|]. intros (r0 & _ & h1 & h2 & E & _). by destruct h1.
Qed.

(** Two contexts: the second loses its reservation to a store of the first. *)
Definition demo_accesses : list access :=
  [LL (mkRequest 64 8 0); LL (mkRequest 80 8 1); Store (mkRequest 80 4 0);
   SC (mkRequest 68 4 0); SC (mkRequest 80 8 1)].

Lemma llsc_reservations_witness :
  exists b oks b', new_CacheBlk 0 = Ok b /\ do_accesses demo_accesses b = Ok (oks, b') /\
    length oks = 5%nat.
Proof.
  destruct (new_CacheBlk 0) as [b|] eqn:Eb; [|discriminate Eb].
  destruct (llsc_reservations demo_accesses b) as (oks & b' & E & L & H).
  - exact (invalidate_locks _ _ Eb).
  - repeat (apply Forall_cons; split; [cbn; unfold req_ok; cbn; lia|]). by apply Forall_nil_2.
  - exists b, oks, b'. split; [reflexivity|]. split; [exact E|exact L].
Defined.
