(* ===== verification/Partition.v ===== *)
(** Cache partitioning, [mem/cache/tags/partitioning_policies]: the manager, the
    way policy and the maximum capacity policy.

    The policies read the way and the partition id of a candidate; [read] stands
    for these two reads of the block the pointer leads to. *)
From Stdlib Require Import ZArith Lia Bool Floats.SpecFloat.
From stdpp Require Import base numbers gmap list.
From S2P Require Import Prelude ReplBase Double.
Local Open Scope Z_scope.

Definition dmul (a b : double) : double := SFmul 53 1024 a b.

(** [(uint64_t)d]: truncation, undefined outside the type. *)
Definition u64_of_double (d : double) : outcome Z :=
  match d with
  | S754_zero _ => Ok 0
  | S754_finite s m e =>
      let z := Z.shiftl (Zpos m) e in
      if (s && negb (z =? 0)) || (2 ^ 64 <=? z) then Fault SignedOverflow else Ok z
  | _ => Fault SignedOverflow
  end.

(** [std::remove_if] and [erase], for a test that reads the entry. *)
Fixpoint keep_entries (f : loc -> outcome bool) (l : list loc) : outcome (list loc) :=
  match l with
  | [] => Ok []
  | e :: l' =>
      let? k := f e in
      let? r := keep_entries f l' in
      Ok (if k : bool then e :: r else r)
  end.

Record BlockView := mkView { view_way : Z; view_partition : Z }.

(** ** [WayPartitioningPolicy] *)

(** [WayPolicyAllocation]. *)
Record WayPolicyAllocation := mkAllocation { _ways : list Z; alloc_partitionId : Z }.

Definition addWayToPartition (partition_id way : Z) (m : gmap Z (gset Z)) : gmap Z (gset Z) :=
  <[partition_id := default ∅ (m !! partition_id) ∪ {[u32 way]}]> m.

Definition removeWayToPartition (partition_id way : Z) (m : gmap Z (gset Z)) : gmap Z (gset Z) :=
  <[partition_id := default ∅ (m !! partition_id) ∖ {[u32 way]}]> m.

(** The loops of the constructor. [operator[]] makes the entry of the id. *)
Definition add_allocation_way (cache_assoc alloc_id : Z) (acc : outcome (gmap Z (gset Z))) (way : Z) :
    outcome (gmap Z (gset Z)) :=
  let? m := acc in
  let? _ := ocheck (negb (cache_assoc <=? way)) Fatal in
  let ws := default ∅ (m !! alloc_id) in
  let m := <[alloc_id := ws]> m in
  Ok (if bool_decide (u32 way ∈ ws) then m else addWayToPartition alloc_id way m).

Definition add_allocation (cache_assoc : Z) (acc : outcome (gmap Z (gset Z))) (a : WayPolicyAllocation) :
    outcome (gmap Z (gset Z)) :=
  fold_left (add_allocation_way cache_assoc (alloc_partitionId a)) (_ways a) acc.

Definition new_WayPartitioningPolicy (cache_assoc : Z) (allocations : list WayPolicyAllocation) :
    outcome (gmap Z (gset Z)) :=
  let? _ := ocheck (0 <? cache_assoc) AssertFailed in
  fold_left (add_allocation cache_assoc) allocations (Ok ∅).

Definition way_filterByPartition (read : loc -> outcome BlockView) (partitionIdWays : gmap Z (gset Z))
    (entries : list loc) (partition_id : Z) : outcome (list loc) :=
  match entries, partitionIdWays !! partition_id with
  | [], _ | _, None => Ok entries
  | _, Some ways =>
      keep_entries (fun e => let? v := read e in Ok (bool_decide (view_way v ∈ ways))) entries
  end.

(** ** [MaxCapacityPartitioningPolicy] *)
Record MaxCapacity := mkMaxCapacity {
  totalBlockCount : Z;
  partitionIdMaxCapacity : gmap Z Z;
  partitionIdCurCapacity : gmap Z Z;
}.

(** [emplace] keeps an entry that is there already. *)
Definition configurePartition (partition_id : Z) (cap_frac : double) (p : MaxCapacity) : outcome MaxCapacity :=
  let? _ := ocheck (dge cap_frac d_zero && dle cap_frac d_one) Panic in
  let? cnt := u64_of_double (dmul cap_frac (double_of_Z (totalBlockCount p))) in
  Ok (mkMaxCapacity (totalBlockCount p)
    (match partitionIdMaxCapacity p !! partition_id with
     | Some _ => partitionIdMaxCapacity p
     | None => <[partition_id := cnt]> (partitionIdMaxCapacity p)
     end) (partitionIdCurCapacity p)).

Definition configure_next (acc : outcome MaxCapacity) (c : Z * double) : outcome MaxCapacity :=
  let? p := acc in configurePartition c.1 c.2 p.

Definition new_MaxCapacity (cache_size blk_size : Z) (partition_ids : list Z) (capacities : list double) :
    outcome MaxCapacity :=
  let? n := udiv cache_size blk_size in
  let? _ := ocheck (vsize partition_ids =? vsize capacities) Fatal in
  fold_left configure_next (zip partition_ids capacities) (Ok (mkMaxCapacity n ∅ ∅)).

Definition mc_filterByPartition (read : loc -> outcome BlockView) (p : MaxCapacity)
    (entries : list loc) (id : Z) : outcome (list loc) :=
  match entries, partitionIdMaxCapacity p !! id, partitionIdCurCapacity p !! id with
  | [], _, _ | _, None, _ | _, _, None => Ok entries
  | _, Some max, Some cur =>
      if cur <? max then Ok entries else
      keep_entries (fun e => let? v := read e in Ok (view_partition v =? id)) entries
  end.

(** [operator[]] in the assertions makes the entries it does not find. *)
Definition at0 (m : gmap Z Z) (id : Z) : Z := default 0 (m !! id).

Definition mc_notifyAcquire (partition_id : Z) (p : MaxCapacity) : outcome MaxCapacity :=
  let cur := at0 (partitionIdCurCapacity p) partition_id in
  let max := at0 (partitionIdMaxCapacity p) partition_id in
  let? _ := ocheck (cur <=? max) AssertFailed in
  Ok (mkMaxCapacity (totalBlockCount p) (<[partition_id := max]> (partitionIdMaxCapacity p))
    (<[partition_id := u64 (cur + 1)]> (partitionIdCurCapacity p))).

Definition mc_notifyRelease (partition_id : Z) (p : MaxCapacity) : outcome MaxCapacity :=
  let cur := at0 (partitionIdCurCapacity p) partition_id in
  let? _ := ocheck (0 <? cur) AssertFailed in
  Ok (mkMaxCapacity (totalBlockCount p) (partitionIdMaxCapacity p)
    (<[partition_id := u64 (cur - 1)]> (partitionIdCurCapacity p))).

(** ** [PartitionManager] *)
Inductive PartitioningPolicy :=
| WayPP (partitionIdWays : gmap Z (gset Z))
| MaxCapacityPP (p : MaxCapacity).

Definition pp_filterByPartition (read : loc -> outcome BlockView) (pp : PartitioningPolicy) :
    list loc -> Z -> outcome (list loc) :=
  match pp with
  | WayPP ways => way_filterByPartition read ways
  | MaxCapacityPP p => mc_filterByPartition read p
  end.

Definition pp_notifyAcquire (partition_id : Z) (pp : PartitioningPolicy) : outcome PartitioningPolicy :=
  match pp with
  | WayPP ways => Ok (WayPP ways)
  | MaxCapacityPP p => let? p := mc_notifyAcquire partition_id p in Ok (MaxCapacityPP p)
  end.

Definition pp_notifyRelease (partition_id : Z) (pp : PartitioningPolicy) : outcome PartitioningPolicy :=
  match pp with
  | WayPP ways => Ok (WayPP ways)
  | MaxCapacityPP p => let? p := mc_notifyRelease partition_id p in Ok (MaxCapacityPP p)
  end.

Definition PartitionManager : Type := list PartitioningPolicy.

Fixpoint notify_all (f : PartitioningPolicy -> outcome PartitioningPolicy) (pm : PartitionManager) :
    outcome PartitionManager :=
  match pm with
  | [] => Ok []
  | pp :: pm' => let? pp := f pp in let? pm' := notify_all f pm' in Ok (pp :: pm')
  end.

Definition notifyAcquire (partition_id : Z) : PartitionManager -> outcome PartitionManager :=
  notify_all (pp_notifyAcquire partition_id).
Definition notifyRelease (partition_id : Z) : PartitionManager -> outcome PartitionManager :=
  notify_all (pp_notifyRelease partition_id).

Fixpoint filterByPartition (read : loc -> outcome BlockView) (pm : PartitionManager) (entries : list loc)
    (partition_id : Z) : outcome (list loc) :=
  match pm with
  | [] => Ok entries
  | pp :: pm' =>
      let? entries := pp_filterByPartition read pp entries partition_id in
      filterByPartition read pm' entries partition_id
  end.

(** ** The quota of a partition *)

(** The owners of the valid blocks; an invalid block reads as owned by the
    partition id [2^64 - 1] its invalidation leaves. *)
Abbreviation Owners := (gmap loc Z).

Definition no_partition : Z := 2 ^ 64 - 1.

Definition read_owner (way : loc -> Z) (owners : Owners) (e : loc) : outcome BlockView :=
  Ok (mkView (way e) (default no_partition (owners !! e))).

Definition owned (owners : Owners) (id : Z) : Z := Z.of_nat (size (filter (fun kv => kv.2 = id) owners)).

(** A victim gives up its block, if it has one. *)
Definition release_block (e : loc) (st : MaxCapacity * Owners) : outcome (MaxCapacity * Owners) :=
  match st.2 !! e with
  | Some o => let? p := mc_notifyRelease o st.1 in Ok (p, delete e st.2)
  | None => Ok st
  end.

(** A new block of a partition takes the place of a victim. *)
Definition acquire_block (id : Z) (e : loc) (st : MaxCapacity * Owners) : outcome (MaxCapacity * Owners) :=
  let? st := release_block e st in
  let? p := mc_notifyAcquire id st.1 in
  Ok (p, <[e := id]> st.2).

(** The tag store's use of the policy: a fill with a victim among the candidates
    that pass the filter, and the invalidation of a block. *)
Inductive quota_step : MaxCapacity * Owners -> MaxCapacity * Owners -> Prop :=
| q_fill p o way cands es id e st' :
    is_Some (partitionIdMaxCapacity p !! id) -> id <> no_partition ->
    mc_filterByPartition (read_owner way o) p cands id = Ok es -> e ∈ es ->
    acquire_block id e (p, o) = Ok st' -> quota_step (p, o) st'
| q_release p o e st' :
    is_Some (o !! e) -> release_block e (p, o) = Ok st' -> quota_step (p, o) st'.

Record quota_inv (st : MaxCapacity * Owners) : Prop := {
  qi_count : forall id, at0 (partitionIdCurCapacity st.1) id = owned st.2 id;
  qi_limit : forall id max, partitionIdMaxCapacity st.1 !! id = Some max -> owned st.2 id <= Z.max 1 max;
  qi_max : map_Forall (fun _ max => 0 <= max < 2 ^ 63) (partitionIdMaxCapacity st.1);
  qi_policed : map_Forall (fun _ id => is_Some (partitionIdMaxCapacity st.1 !! id)) st.2;
}.

Lemma owned_insert o e id id' : o !! e = None ->
  owned (<[e := id]> o) id' = owned o id' + (if decide (id = id') then 1 else 0).
Proof.
  intros He. unfold owned. destruct (decide (id = id')) as [->|Hne].
  - rewrite map_filter_insert_True by done. rewrite map_size_insert_None; [lia|].
    apply map_lookup_filter_None. by left.
  - rewrite map_filter_insert_False by done. rewrite delete_id by done. lia.
Qed.

Lemma owned_delete o e id id' : o !! e = Some id ->
  owned (delete e o) id' = owned o id' - (if decide (id = id') then 1 else 0).
Proof.
  intros He. rewrite <- (insert_delete_id o e id He) at 2. rewrite owned_insert by apply lookup_delete_eq. lia.
Qed.

Lemma owned_nonneg o id : 0 <= owned o id.
Proof. unfold owned. lia. Qed.

Lemma owned_pos o e id : o !! e = Some id -> 0 < owned o id.
Proof.
  intros He. pose proof (owned_delete o e id id He) as E. rewrite decide_True in E by done.
  pose proof (owned_nonneg (delete e o) id). lia.
Qed.

Lemma at0_insert m id v id' : at0 (<[id := v]> m) id' = if decide (id = id') then v else at0 m id'.
Proof.
  unfold at0. destruct (decide (id = id')) as [->|].
  - by rewrite lookup_insert_eq.
  - by rewrite lookup_insert_ne.
Qed.

Lemma owned_bound st id : quota_inv st -> owned st.2 id < 2 ^ 63.
Proof.
  intros Hq. destruct (decide (owned st.2 id = 0)) as [->|Hz]; [lia|].
  assert (filter (fun kv => kv.2 = id) st.2 <> ∅) as Hne.
  { intros E. apply Hz. unfold owned. by rewrite E, map_size_empty. }
  apply map_choose in Hne as (e & x & [Hx <-]%map_lookup_filter_Some). cbn in *.
  destruct (qi_policed _ Hq _ _ Hx) as [max Hm]. pose proof (qi_limit _ Hq _ _ Hm).
  pose proof (qi_max _ Hq _ _ Hm) as B. cbn beta in B. lia.
Qed.

(** A release never trips its assertion. *)
Lemma release_ok p o e : quota_inv (p, o) ->
  exists p', release_block e (p, o) = Ok (p', delete e o) /\ quota_inv (p', delete e o) /\
    partitionIdMaxCapacity p' = partitionIdMaxCapacity p.
Proof.
  intros Hq. unfold release_block. cbn. destruct (o !! e) as [id|] eqn:He.
  2:{ exists p. by rewrite delete_id. }
  pose proof (owned_pos o e id He). pose proof (owned_bound _ id Hq) as Hb. cbn in Hb.
  unfold mc_notifyRelease. pose proof (qi_count _ Hq id) as Hc. cbn in Hc. rewrite Hc.
  replace (0 <? owned o id) with true by lia. cbn. eexists. split; [done|]. split; [|done].
  constructor; cbn.
  - intros id'. rewrite at0_insert, (owned_delete o e id) by done.
    destruct (decide (id = id')) as [<-|]; [rewrite uwrap_small; lia|]. pose proof (qi_count _ Hq id') as C'. cbn in C'. lia.
  - intros id' max Hm. rewrite (owned_delete o e id) by done. pose proof (qi_limit _ Hq _ _ Hm) as L. cbn in L.
    destruct (decide (id = id')); lia.
  - apply (qi_max _ Hq).
  - intros e' id' [_ He']%lookup_delete_Some. by apply (qi_policed _ Hq e' id').
Qed.

Lemma keep_entries_elem f l l' e : keep_entries f l = Ok l' -> e ∈ l' -> e ∈ l /\ f e = Ok true.
Proof.
  revert l'. induction l as [|x l IH]; intros l' H; cbn in H.
  { injection H as <-. by intros ?%not_elem_of_nil. }
  inv_ok H. injection H as <-. destruct a; [|intros He; destruct (IH _ Hrun0 He); split; [by right|done]].
  intros [->|He]%elem_of_cons; [split; [left|done]|]. destruct (IH _ Hrun0 He). split; [by right|done].
Qed.

(** The filters only remove candidates. *)
Lemma pp_filter_subset read pp l id l' : pp_filterByPartition read pp l id = Ok l' -> l' ⊆ l.
Proof.
  assert (forall f, keep_entries f l = Ok l' -> l' ⊆ l) as K by (intros f H e He; by eapply keep_entries_elem).
  destruct pp as [ways|p]; cbn; [unfold way_filterByPartition|unfold mc_filterByPartition]; intros H.
  - destruct l, (ways !! id); try (by injection H as <-). by eapply K.
  - destruct l, (partitionIdMaxCapacity p !! id), (partitionIdCurCapacity p !! id); try (by injection H as <-).
    destruct (_ <? _); [by injection H as <-|by eapply K].
Qed.

Lemma filter_subset read pm l id l' : filterByPartition read pm l id = Ok l' -> l' ⊆ l.
Proof.
  revert l. induction pm as [|pp pm IH]; intros l H; cbn in H; [by injection H as <-|].
  inv_ok H. etrans; [by apply IH|by eapply pp_filter_subset].
Qed.

(** A victim the filter lets through leaves room for the acquisition. *)
Lemma filter_makes_room way p o cands es id e max : quota_inv (p, o) ->
  partitionIdMaxCapacity p !! id = Some max -> id <> no_partition ->
  mc_filterByPartition (read_owner way o) p cands id = Ok es -> e ∈ es ->
  owned (delete e o) id <= max /\ owned (delete e o) id + 1 <= Z.max 1 max.
Proof.
  intros Hq Hm Hid Hf He. pose proof (qi_limit _ Hq _ _ Hm) as L. pose proof (qi_count _ Hq id) as C.
  pose proof (qi_max _ Hq _ _ Hm) as B. cbn in L, C, B. unfold at0 in C.
  assert (owned (delete e o) id <= owned o id) as Hle.
  { destruct (o !! e) as [x|] eqn:Ex; [|by rewrite delete_id]. rewrite (owned_delete o e x) by done. case_decide; lia. }
  unfold mc_filterByPartition in Hf. rewrite Hm in Hf. destruct cands as [|c0 cands].
  { injection Hf as <-. by apply not_elem_of_nil in He. }
  destruct (partitionIdCurCapacity p !! id) as [cur|]; cbn in C; [|lia].
  destruct (Z.ltb_spec cur max); [lia|]. apply (keep_entries_elem _ _ _ e) in Hf as [_ Hf]; [|done].
  cbn in Hf. injection Hf as Hf. apply Z.eqb_eq in Hf. destruct (o !! e) as [x|] eqn:Ex; cbn in Hf; [|done].
  subst x. rewrite (owned_delete o e id) by done. rewrite decide_True by done. lia.
Qed.

Lemma acquire_ok way p o cands es id e : quota_inv (p, o) ->
  is_Some (partitionIdMaxCapacity p !! id) -> id <> no_partition ->
  mc_filterByPartition (read_owner way o) p cands id = Ok es -> e ∈ es ->
  exists p', acquire_block id e (p, o) = Ok (p', <[e := id]> (delete e o)) /\
    quota_inv (p', <[e := id]> (delete e o)).
Proof.
  intros Hq [max Hm] Hid Hf He. destruct (filter_makes_room way p o cands es id e max) as [R1 R2]; [done..|].
  destruct (release_ok p o e Hq) as (p1 & E & Hq1 & Em). unfold acquire_block. rewrite E. cbn.
  unfold mc_notifyAcquire. pose proof (qi_count _ Hq1 id) as C. cbn in C. rewrite C, Em.
  assert (at0 (partitionIdMaxCapacity p) id = max) as -> by (unfold at0; by rewrite Hm).
  replace (owned (delete e o) id <=? max) with true by lia. cbn. eexists. split; [done|].
  rewrite (insert_id _ _ _ Hm). pose proof (owned_bound _ id Hq1) as Hb. cbn in Hb.
  assert ((delete e o) !! e = None) as Hn by apply lookup_delete_eq. pose proof (owned_nonneg (delete e o) id).
  constructor; cbn.
  - intros id'. rewrite at0_insert, owned_insert by done.
    destruct (decide (id = id')) as [<-|]; [rewrite uwrap_small; lia|]. pose proof (qi_count _ Hq1 id') as C'. cbn in C'. lia.
  - intros id' max' Hm'. rewrite owned_insert by done. destruct (decide (id = id')) as [<-|].
    + rewrite Hm in Hm'. injection Hm' as <-. done.
    + rewrite <- Em in Hm'. pose proof (qi_limit _ Hq1 _ _ Hm') as L. cbn in L. lia.
  - rewrite <- Em. apply (qi_max _ Hq1).
  - intros e' id' [[<- <-]|[_ He']]%lookup_insert_Some; [done|].
    rewrite <- Em. by apply (qi_policed _ Hq1 e' id').
Qed.

Lemma quota_step_inv st st' : quota_inv st -> quota_step st st' -> quota_inv st'.
Proof.
  intros Hq H. destruct H as [p o way cands es id e st' Hm Hid Hf He Ha|p o e st' _ Hr].
  - destruct (acquire_ok way p o cands es id e Hq Hm Hid Hf He) as (p' & E & Hq').
    rewrite E in Ha. by injection Ha as <-.
  - destruct (release_ok p o e Hq) as (p' & E & Hq' & _). rewrite E in Hr. by injection Hr as <-.
Qed.

Lemma quota_inv_start p : partitionIdCurCapacity p = ∅ ->
  map_Forall (fun _ max => 0 <= max < 2 ^ 63) (partitionIdMaxCapacity p) -> quota_inv (p, ∅).
Proof.
  intros Hc Hm. constructor; cbn.
  - intros id. unfold at0, owned. by rewrite Hc, lookup_empty, map_filter_empty, map_size_empty.
  - intros id max _. unfold owned. rewrite map_filter_empty, map_size_empty. lia.
  - done.
  - apply map_Forall_empty.
Qed.

(** ** Properties *)

(** C29 (invariant). Under the maximum capacity policy, in every state reached by
    fills of policed partitions and invalidations from an empty cache: the
    policy's count of a partition is the number of blocks it owns; a policed
    partition owns at most its capacity, or one block when that is zero; and
    a fill with any victim that passes the filter completes, no assertion of
    [notifyRelease] or [notifyAcquire] failing. *)
Theorem max_capacity_quota p p' o :
  partitionIdCurCapacity p = ∅ -> map_Forall (fun _ max => 0 <= max < 2 ^ 63) (partitionIdMaxCapacity p) ->
  rtc quota_step (p, ∅) (p', o) ->
  (forall id, at0 (partitionIdCurCapacity p') id = owned o id) /\
  (forall id max, partitionIdMaxCapacity p' !! id = Some max -> owned o id <= Z.max 1 max) /\
  (forall way cands es id e, is_Some (partitionIdMaxCapacity p' !! id) -> id <> no_partition ->
    mc_filterByPartition (read_owner way o) p' cands id = Ok es -> e ∈ es ->
    exists p'', acquire_block id e (p', o) = Ok (p'', <[e := id]> (delete e o))).
Proof.
  intros Hc Hm H. assert (quota_inv (p', o)) as Hq.
  { remember (p', o) as st' eqn:E. clear E. remember (p, ∅) as st eqn:E.
    assert (quota_inv st) as Hq by (rewrite E; by apply quota_inv_start). clear E.
    induction H as [|st st1 st2 Hs _ IH]; [done|]. apply IH. by eapply quota_step_inv. }
  split; [apply (qi_count _ Hq)|]. split; [apply (qi_limit _ Hq)|].
  intros way cands es id e Hid Hn Hf He. destruct (acquire_ok way p' o cands es id e Hq) as (p'' & E & _); eauto.
Qed.

(** Partition 7 may own two of the blocks. *)
Definition demo_capacity : MaxCapacity := mkMaxCapacity 4 {[7 := 2]} ∅.

Lemma max_capacity_quota_witness :
  exists p', rtc quota_step (demo_capacity, ∅) (p', {[1%positive := 7]}) /\ owned {[1%positive := 7]} 7 <= 2.
Proof.
  destruct (acquire_block 7 1%positive (demo_capacity, ∅)) as [[p' o]|] eqn:E; [|discriminate E].
  assert (o = {[1%positive := 7]}) as -> by (vm_compute in E; by injection E as _ <-).
  assert (rtc quota_step (demo_capacity, ∅) (p', {[1%positive := 7]})) as H.
  { eapply rtc_l; [|apply rtc_refl].
    apply (q_fill demo_capacity ∅ (fun _ => 0) [1%positive] [1%positive] 7 1%positive);
      [eexists; reflexivity|discriminate|reflexivity|left|exact E]. }
  destruct (max_capacity_quota demo_capacity p' {[1%positive := 7]}) as (_ & L & _); [reflexivity| |exact H|].
  - intros i x Hx. cbn in Hx. apply lookup_singleton_Some in Hx as [_ <-]. lia.
  - exists p'. split; [exact H|]. apply (L 7 2). vm_compute in E. injection E as <-. reflexivity.
Defined.

(** A partition that is not policed: its second block trips the assertion. *)
Lemma unpoliced_partition_asserts p id : partitionIdMaxCapacity p !! id = None ->
  partitionIdCurCapacity p !! id = None ->
  exists p', mc_notifyAcquire id p = Ok p' /\ mc_notifyAcquire id p' = Fault AssertFailed.
Proof.
  intros Hm Hc. unfold mc_notifyAcquire, at0. rewrite Hm, Hc. cbn. eexists. split; [done|]. cbn.
  by rewrite !lookup_insert_eq.
Qed.
