(* ===== verification/Tags.v ===== *)
(** The set associative tag store of the classic caches: [BaseTags] of
    [mem/cache/tags/base.hh], [base.cc] and [BaseSetAssoc] of
    [mem/cache/tags/base_set_assoc.hh], [base_set_assoc.cc], over any indexing
    policy and any replacement policy.

    The blocks live in the store of replaceable entries, the [i]-th block of the
    vector [blks] at [blk_loc i].  Statistics are kept as numbers. *)
From Stdlib Require Import ZArith Lia Bool.
From stdpp Require Import base numbers gmap list.
From S2P Require Import Prelude ReplBase Bitfield Intmath Double Indexing CacheBlk Partition.
Local Open Scope Z_scope.

(** What the tags read of a packet; [pkt_partition] is what the partition
    manager's [readPacketPartitionID] says of it. *)
Record Packet := mkPacket {
  pkt_addr : Z; pkt_secure : bool; pkt_requestor : Z; pkt_task : Z; pkt_partition : Z;
}.

Record BaseTagStats := mkTagStats {
  tagsInUse : Z; totalRefs : Z; sampledRefs : Z; warmupTick : Z;
  occupancies : list Z; occupanciesTaskId : list Z; ageTaskId : list (list Z);
  tagAccesses : Z; dataAccesses : Z;
}.

Record BaseSetAssoc (I : Type) := mkBaseSetAssoc {
  blkSize : Z;                (* unsigned *)
  blkMask : Z;                (* Addr *)
  lookupLatency : Z;
  maxRequestors : Z;          (* of the system *)
  indexingPolicy : I;
  partitionManager : option PartitionManager;
  warmupBound : Z;            (* unsigned *)
  warmedUp : bool;
  numBlocks : Z;              (* unsigned *)
  allocAssoc : Z;             (* unsigned *)
  sequentialAccess : bool;
  stats : BaseTagStats;
}.
Arguments mkBaseSetAssoc {I}.
Arguments blkSize {I}. Arguments blkMask {I}. Arguments lookupLatency {I}. Arguments maxRequestors {I}.
Arguments indexingPolicy {I}. Arguments partitionManager {I}. Arguments warmupBound {I}.
Arguments warmedUp {I}. Arguments numBlocks {I}. Arguments allocAssoc {I}. Arguments sequentialAccess {I}.
Arguments stats {I}.

Record BaseSetAssocParams := mkTagParams {
  p_size : Z; p_block_size : Z; p_entry_size : Z; p_assoc : Z; p_tag_latency : Z; p_warmup_percentage : Z;
  p_sequential_access : bool; p_max_requestors : Z;
}.

Definition NumTaskId : Z := 1025.

Definition new_TagStats (max_requestors : Z) : BaseTagStats :=
  mkTagStats 0 0 0 0 (replicate (Z.to_nat max_requestors) 0) (replicate (Z.to_nat NumTaskId) 0)
    (replicate (Z.to_nat NumTaskId) (replicate 5 0)) 0 0.

(** Conversion of a double to [unsigned]. *)
Definition u32_of_double (d : double) : outcome Z :=
  let? z := u64_of_double d in if 2 ^ 32 <=? z then Fault SignedOverflow else Ok z.

Definition new_BaseSetAssoc {I} (p : BaseSetAssocParams) (i : I) (pm : option PartitionManager) :
    outcome (BaseSetAssoc I) :=
  let bs := u32 (p_block_size p) in
  let? n := udiv (p_size p) (u64 (p_block_size p)) in
  let? bound := u32_of_double
    (dmul (ddiv (double_of_Z (p_warmup_percentage p)) (double_of_Z 100)) (double_of_Z n)) in
  let? _ := ocheck (negb ((bs <? 4) || negb (isPowerOf2 32 bs))) Fatal in
  Ok (mkBaseSetAssoc bs (u32 (bs - 1)) (p_tag_latency p) (p_max_requestors p) i pm bound false (u32 n)
    (u32 (p_assoc p)) (p_sequential_access p) (new_TagStats (p_max_requestors p))).

Definition blkAlign {I} (t : BaseSetAssoc I) (addr : Z) : Z := Z.land addr (lnot64 (blkMask t)).
Definition extractBlkOffset {I} (t : BaseSetAssoc I) (addr : Z) : Z := i32 (Z.land addr (blkMask t)).

Definition with_tag_stats {I} (st : BaseTagStats) (t : BaseSetAssoc I) : BaseSetAssoc I :=
  mkBaseSetAssoc (blkSize t) (blkMask t) (lookupLatency t) (maxRequestors t) (indexingPolicy t)
    (partitionManager t) (warmupBound t) (warmedUp t) (numBlocks t) (allocAssoc t) (sequentialAccess t) st.
Definition with_manager {I} (pm : option PartitionManager) (t : BaseSetAssoc I) : BaseSetAssoc I :=
  mkBaseSetAssoc (blkSize t) (blkMask t) (lookupLatency t) (maxRequestors t) (indexingPolicy t)
    pm (warmupBound t) (warmedUp t) (numBlocks t) (allocAssoc t) (sequentialAccess t) (stats t).
Definition with_warm {I} (w : bool) (t : BaseSetAssoc I) : BaseSetAssoc I :=
  mkBaseSetAssoc (blkSize t) (blkMask t) (lookupLatency t) (maxRequestors t) (indexingPolicy t)
    (partitionManager t) (warmupBound t) w (numBlocks t) (allocAssoc t) (sequentialAccess t) (stats t).

Definition setWayAllocationMax {I} (ways : Z) (t : BaseSetAssoc I) : outcome (BaseSetAssoc I) :=
  let? _ := ocheck (negb (ways <? 1)) Fatal in
  Ok (mkBaseSetAssoc (blkSize t) (blkMask t) (lookupLatency t) (maxRequestors t) (indexingPolicy t)
    (partitionManager t) (warmupBound t) (warmedUp t) (numBlocks t) (u32 ways) (sequentialAccess t) (stats t)).
Definition getWayAllocationMax {I} (t : BaseSetAssoc I) : Z := i32 (allocAssoc t).

Definition st_tagsInUse (d : Z) (s : BaseTagStats) : BaseTagStats :=
  mkTagStats (tagsInUse s + d) (totalRefs s) (sampledRefs s) (warmupTick s) (occupancies s)
    (occupanciesTaskId s) (ageTaskId s) (tagAccesses s) (dataAccesses s).
Definition st_refs (refs samples : Z) (s : BaseTagStats) : BaseTagStats :=
  mkTagStats (tagsInUse s) (totalRefs s + refs) (sampledRefs s + samples) (warmupTick s) (occupancies s)
    (occupanciesTaskId s) (ageTaskId s) (tagAccesses s) (dataAccesses s).
Definition st_warmup (t : Z) (s : BaseTagStats) : BaseTagStats :=
  mkTagStats (tagsInUse s) (totalRefs s) (sampledRefs s) t (occupancies s)
    (occupanciesTaskId s) (ageTaskId s) (tagAccesses s) (dataAccesses s).
Definition st_accesses (tags data : Z) (s : BaseTagStats) : BaseTagStats :=
  mkTagStats (tagsInUse s) (totalRefs s) (sampledRefs s) (warmupTick s) (occupancies s)
    (occupanciesTaskId s) (ageTaskId s) (tagAccesses s + tags) (dataAccesses s + data).
Definition st_tasks (occ : list Z) (ages : list (list Z)) (s : BaseTagStats) : BaseTagStats :=
  mkTagStats (tagsInUse s) (totalRefs s) (sampledRefs s) (warmupTick s) (occupancies s)
    occ ages (tagAccesses s) (dataAccesses s).
(** [stats.occupancies[id] += d]. *)
Definition st_occupancy (id d : Z) (s : BaseTagStats) : outcome BaseTagStats :=
  let? n := vget (occupancies s) id in
  let? l := vset (occupancies s) id (n + d) in
  Ok (mkTagStats (tagsInUse s) (totalRefs s) (sampledRefs s) (warmupTick s) l
    (occupanciesTaskId s) (ageTaskId s) (tagAccesses s) (dataAccesses s)).

(** [&blks[i]]. *)
Definition blk_loc (i : Z) : loc := Pos.of_succ_nat (Z.to_nat i).

(** The loops of [anyBlk] and [forEachBlk] over a vector of [n] blocks; a
    visitor may work on more than the tag store. *)
Definition visit_blks {St} (n : Z) (visitor : loc -> M St bool) : M St bool :=
  foreach (seqZ 0 n) (fun _ i =>
    let* r := visitor (blk_loc i) in ret (if r : bool then Break true else Continue false)) false.
Definition visit_each {St} (n : Z) (visitor : loc -> M St unit) : M St unit :=
  do* visit_blks n (fun e => do* visitor e ;; ret false) ;; ret tt.

(** The tag store, its indexing table and the stores it points into. *)
Record tag_sys (P D I : Type) := mkTagSys {
  tags : BaseSetAssoc I;
  table : Sets;
  wld : world P D CacheBlk;
}.
Arguments mkTagSys {P D I}.
Arguments tags {P D I}. Arguments table {P D I}. Arguments wld {P D I}.

Section Operations.
Context {P D I : Type} `{ReplacementPolicy P D} `{IndexingPolicy I}.
#[local] Abbreviation W := (world P D CacheBlk).
#[local] Abbreviation S := (tag_sys P D I).

Definition onW {A} (m : M W A) : M S A :=
  fun s => match m (wld s) with
    | Ok (a, w') => Ok (a, mkTagSys (tags s) (table s) w')
    | Fault f => Fault f
    end.
Definition on_tags (f : BaseSetAssoc I -> outcome (BaseSetAssoc I)) : M S unit :=
  fun s => match f (tags s) with
    | Ok t => Ok (tt, mkTagSys t (table s) (wld s))
    | Fault e => Fault e
    end.
Definition on_stats (f : BaseTagStats -> BaseTagStats) : M S unit :=
  on_tags (fun t => Ok (with_tag_stats (f (stats t)) t)).

(** The geometry of the indexing policy. *)
Definition geom (s : S) : Geometry := ip_geometry (indexingPolicy (tags s)).

Definition read_blk (e : loc) : M S CacheBlk := onW (let* o := deref_entry e in ret (ext o)).
(** A call on the block that changes it. *)
Definition modify_blk (e : loc) (f : CacheBlk -> outcome CacheBlk) : M S unit :=
  onW (let* o := deref_entry e in
       let* b := lift (f (ext o)) in
       write_entry e (mkObject (base o) b)).

(** [replacementPolicy->instantiateEntry()]. *)
Definition instantiate : M S loc :=
  onW (let* w := getS in
       let* r := lift (rp_instantiateEntry (policy w)) in
       do* modifyS (set_policy r.2) ;;
       alloc_rd r.1).

Definition link_entry (blk : loc) (index : Z) : M S unit :=
  fun s => match setEntry (geom s) blk index (table s, wld s) with
    | Ok (_, (t, w)) => Ok (tt, mkTagSys (tags s) t w)
    | Fault f => Fault f
    end.

Definition init_blk (blk_index : Z) : M S unit :=
  let blk := blk_loc blk_index in
  let* s := getS in
  do* link_entry blk blk_index ;;
  do* modify_blk blk (fun b => Ok (set_data (u32 (blkSize (tags s) * blk_index)) b)) ;;
  let* r := instantiate in
  do* onW (set_replacementData blk r) ;;
  modify_blk blk (fun b => Ok (registerTagExtractor b)).

Definition tagsInit : M S unit :=
  let* s := getS in
  foreach (seqZ 0 (numBlocks (tags s))) (fun _ i => do* init_blk i ;; ret (Continue tt)) tt.

Definition findBlock (key : KeyType) : M S (option loc) :=
  let* s := getS in
  let* entries := lift (getPossibleEntries (indexingPolicy (tags s)) (table s) (key_address key)) in
  foreach entries (fun _ location =>
    let* blk := lift (oget NullDeref location) in
    let* b := read_blk blk in
    let* m := lift (match_key (geom s) key b) in
    ret (if m : bool then Break (Some blk) else Continue None)) None.

Definition findBlockBySetAndWay (set way : Z) : M S (option loc) :=
  let* s := getS in lift (getEntry (table s) (u32 set) (u32 way)).

Definition accessBlock (pkt : Packet) : M S (option loc * Z) :=
  let* blk := findBlock (mkKey (pkt_addr pkt) (pkt_secure pkt)) in
  let* s := getS in
  do* on_stats (st_accesses (allocAssoc (tags s)) 0) ;;
  do* (if sequentialAccess (tags s)
       then match blk with Some _ => on_stats (st_accesses 0 1) | None => ret tt end
       else on_stats (st_accesses 0 (allocAssoc (tags s)))) ;;
  do* match blk with
      | Some b =>
          do* modify_blk b (fun x => Ok (increaseRefCount x)) ;;
          onW (let* r := rd_ptr b in touch_pkt r pkt)
      | None => ret tt
      end ;;
  ret (blk, lookupLatency (tags s)).

(** What the partitioning policies read of a candidate. *)
Definition view (w : W) (e : loc) : outcome BlockView :=
  let? o := oget DanglingDeref (entries w !! e) in
  Ok (mkView (_way (base o)) (_partitionId (ext o))).

(** The victim, and what is pushed on [evict_blks]. *)
Definition findVictim (key : KeyType) (partition_id : Z) : M S (option loc * list (option loc)) :=
  let* s := getS in
  let* ptrs := lift (getPossibleEntries (indexingPolicy (tags s)) (table s) (key_address key)) in
  let* entries := lift (oget NullDeref (mapM id ptrs)) in
  let* entries := lift (match partitionManager (tags s) with
    | Some pm => filterByPartition (view (wld s)) pm entries partition_id
    | None => Ok entries
    end) in
  let* victim := match entries with [] => ret None | _ => onW (rp_getVictim entries) end in
  ret (victim, [victim]).

(** [BaseTags::insertBlock]. *)
Definition base_insertBlock (pkt : Packet) (blk : loc) : M S unit :=
  let* b := read_blk blk in
  do* checkM (negb (isValid b)) AssertFailed ;;
  let* s := getS in
  do* checkM (pkt_requestor pkt <? maxRequestors (tags s)) AssertFailed ;;
  do* on_tags (fun t => let? st := st_occupancy (pkt_requestor pkt) 1 (stats t) in Ok (with_tag_stats st t)) ;;
  let partition_id := match partitionManager (tags s) with Some _ => pkt_partition pkt | None => 0 end in
  do* modify_blk blk (insert (geom s) (curTick (wld s)) (mkKey (pkt_addr pkt) (pkt_secure pkt))
    (pkt_requestor pkt) (pkt_task pkt) partition_id) ;;
  do* (if negb (warmedUp (tags s)) && (warmupBound (tags s) <=? tagsInUse (stats (tags s)))
       then on_tags (fun t => Ok (with_warm true (with_tag_stats (st_warmup (curTick (wld s)) (stats t)) t)))
       else ret tt) ;;
  on_stats (st_accesses 1 1).

Definition notify (f : PartitionManager -> outcome PartitionManager) : M S unit :=
  on_tags (fun t => match partitionManager t with
    | Some pm => let? pm := f pm in Ok (with_manager (Some pm) t)
    | None => Ok t
    end).

Definition insertBlock (pkt : Packet) (blk : loc) : M S unit :=
  do* base_insertBlock pkt blk ;;
  do* on_stats (st_tagsInUse 1) ;;
  do* notify (notifyAcquire (pkt_partition pkt)) ;;
  onW (let* r := rd_ptr blk in reset_pkt r pkt).

(** [BaseTags::invalidate]. *)
Definition base_invalidate (blk : loc) : M S unit :=
  let* b := read_blk blk in
  do* checkM (isValid b) AssertFailed ;;
  do* on_tags (fun t => let? st := st_occupancy (u32 (_srcRequestorId b)) (-1) (stats t) in Ok (with_tag_stats st t)) ;;
  do* on_stats (st_refs (_refCount b) 1) ;;
  modify_blk blk CacheBlk.invalidate.

Definition invalidateBlk (blk : loc) : M S unit :=
  let* b := read_blk blk in
  do* notify (notifyRelease (_partitionId b)) ;;
  do* base_invalidate blk ;;
  do* on_stats (st_tagsInUse (-1)) ;;
  onW (let* r := rd_ptr blk in rp_invalidate r).

(** [BaseTags::moveBlock]. *)
Definition base_moveBlock (src_blk dest_blk : loc) : M S unit :=
  let* d := read_blk dest_blk in
  do* checkM (negb (isValid d)) AssertFailed ;;
  let* b := read_blk src_blk in
  do* checkM (isValid b) AssertFailed ;;
  let* s := getS in
  let* r := lift (move_assign (geom s) (curTick (wld s)) d b) in
  do* modify_blk dest_blk (fun _ => Ok r.1) ;;
  do* modify_blk src_blk (fun _ => Ok r.2) ;;
  do* checkM (isValid r.1) AssertFailed ;;
  checkM (negb (isValid r.2)) AssertFailed.

Definition moveBlock (src_blk dest_blk : loc) : M S unit :=
  do* base_moveBlock src_blk dest_blk ;;
  do* onW (let* r := rd_ptr src_blk in rp_invalidate r) ;;
  onW (let* r := rd_ptr dest_blk in rp_reset r).

Definition regenerateBlkAddr (blk : loc) : M S Z :=
  let* s := getS in
  let* b := read_blk blk in
  let* set := onW (getSet blk) in
  let* way := onW (getWay blk) in
  lift (regenerateAddr (indexingPolicy (tags s)) (_tag b) set way).

(** [anyBlk] over the vector of blocks, and [forEachBlk]. *)
Definition anyBlk (visitor : loc -> M S bool) : M S bool :=
  let* s := getS in visit_blks (numBlocks (tags s)) visitor.

Definition forEachBlk (visitor : loc -> M S unit) : M S unit :=
  let* s := getS in visit_each (numBlocks (tags s)) visitor.

Definition cleanupRefsVisitor (e : loc) : M S unit :=
  let* b := read_blk e in
  if isValid b then on_stats (st_refs (_refCount b) 1) else ret tt.

Definition cleanupRefs : M S unit := forEachBlk cleanupRefsVisitor.

(** [us] and [ms] are the ticks of a micro- and of a millisecond. *)
Definition age_index (us ms age : Z) : Z :=
  if age / us <? 10 then 0 else if age / us <? 100 then 1
  else if age / ms <? 1 then 2 else if age / ms <? 10 then 3 else 4.

Definition computeStatsVisitor (us ms : Z) (e : loc) : M S unit :=
  let* b := read_blk e in
  if isValid b then
    let task_id := _taskId b in
    do* checkM (task_id <? NumTaskId) AssertFailed ;;
    let* s := getS in
    let* age := lift (getAge (curTick (wld s)) b) in
    on_tags (fun t =>
      let? n := vget (occupanciesTaskId (stats t)) task_id in
      let? occ := vset (occupanciesTaskId (stats t)) task_id (n + 1) in
      let? row := vget (ageTaskId (stats t)) task_id in
      let? k := vget row (age_index us ms age) in
      let? row := vset row (age_index us ms age) (k + 1) in
      let? ages := vset (ageTaskId (stats t)) task_id row in
      Ok (with_tag_stats (st_tasks occ ages (stats t)) t))
  else ret tt.

Definition computeStats (us ms : Z) : M S unit :=
  do* on_stats (st_tasks (replicate (Z.to_nat NumTaskId) 0) (replicate (Z.to_nat NumTaskId) (replicate 5 0))) ;;
  forEachBlk (computeStatsVisitor us ms).

End Operations.
