(* ===== verification/TagsInv.v ===== *)
(** The invariant of the tag store, and what its lookups compute: a map from
    block addresses and secure bits to the blocks that hold them. *)
From Stdlib Require Import ZArith Lia Bool.
From stdpp Require Import base numbers gmap list.
From S2P Require Import Prelude ReplBase Bitfield Indexing CacheBlk Partition Tags.
Local Open Scope Z_scope.

(** The number of a block, from its set and way. *)
Definition blk_index (g : Geometry) (set way : Z) : Z := set * assoc g + way.
Definition home (g : Geometry) (set way : Z) : loc := blk_loc (blk_index g set way).

Lemma home_inj g set way set' way' : 0 <= set -> 0 <= way < assoc g -> 0 <= set' -> 0 <= way' < assoc g ->
  home g set way = home g set' way' -> set = set' /\ way = way'.
Proof.
  unfold home, blk_loc, blk_index. intros H1 H2 H3 H4 E%SuccNat2Pos.inj. apply Z2Nat.inj in E; [|nia..].
  destruct (Z.lt_trichotomy set set') as [?|[->|?]]; nia.
Qed.

Section Inv.
Context {P D I : Type} {RP : ReplacementPolicy P D} {RPL : ReplacementPolicyLaws P D}
  {IP : IndexingPolicy I} {IPL : IndexingLaws I}.
Implicit Types st : tag_sys P D I.

Abbreviation ip st := (indexingPolicy (tags st)).

(** The address and secure bit a valid block stands for. *)
Definition key_of (i : I) (o : object CacheBlk) : option (Z * bool) :=
  if isValid (ext o) then
    match regenerateAddr i (_tag (ext o)) (_set (base o)) (_way (base o)) with
    | Ok a => Some (a, _secure (ext o))
    | Fault _ => None
    end
  else None.

Definition contents st : gmap (Z * bool) loc := index_by (key_of (ip st)) (entries (wld st)).

(** The block is where its address may be. *)
Definition placed (i : I) (o : object CacheBlk) (addr : Z) : Prop :=
  0 <= addr < 2 ^ 64 /\ extractTag (ip_geometry i) addr = Ok (_tag (ext o)) /\
  ip_set i addr (_way (base o)) = _set (base o).

(** One block of the store. *)
Record blk_ok (i : I) (w : world P D CacheBlk) (e : loc) (o : object CacheBlk) : Prop := {
  bo_set : 0 <= _set (base o) < numSets (ip_geometry i);
  bo_way : 0 <= _way (base o) < assoc (ip_geometry i);
  bo_home : e = home (ip_geometry i) (_set (base o)) (_way (base o));
  bo_extractor : has_extractor (ext o) = true;
  bo_clean : isValid (ext o) = false -> _secure (ext o) = false;
  bo_placed : isValid (ext o) = true -> exists addr, placed i o addr;
  bo_rd : exists r rd, replacementData (base o) = Some r /\ rds w !! r = Some rd /\
    (isValid (ext o) = true -> rp_live (data rd) = true);
}.

Record tags_inv st : Prop := {
  ti_ip : ip_ok (ip st);
  ti_sets : sets_ok (geom st) (table st);
  ti_max : numSets (geom st) <= max_sets;
  ti_num : numBlocks (tags st) = numSets (geom st) * assoc (geom st);
  ti_slot : forall set way, 0 <= set < numSets (geom st) -> 0 <= way < assoc (geom st) ->
    slot (table st) set way = Some (Some (home (geom st) set way)) /\
    is_Some (entries (wld st) !! home (geom st) set way);
  ti_blk : forall e o, entries (wld st) !! e = Some o -> blk_ok (ip st) (wld st) e o;
  ti_rd_inj : forall e e' o o' r, entries (wld st) !! e = Some o -> entries (wld st) !! e' = Some o' ->
    replacementData (base o) = Some r -> replacementData (base o') = Some r -> e = e';
  ti_unique : keys_distinct (key_of (ip st)) (entries (wld st));
  ti_rp : rp_inv (policy (wld st)) (rp_data (wld st));
}.

Lemma ti_bounded st : tags_inv st -> sets_bounded (wld st).
Proof.
  intros Hst e o He. pose proof (bo_set _ _ _ _ (ti_blk _ Hst e o He)). pose proof (ti_max _ Hst).
  unfold geom in *. lia.
Qed.

Lemma ti_geometry st : tags_inv st -> geometry_ok (geom st).
Proof. intros Hst. apply ip_geometry_ok, (ti_ip _ Hst). Qed.

Lemma assoc_pos st : tags_inv st -> 0 < assoc (geom st) < 2 ^ 32.
Proof. intros Hst. by destruct (ti_geometry st Hst) as (n & _ & _ & _ & _ & _ & _ & _ & ?). Qed.

Lemma placed_key i o addr : ip_ok i -> isValid (ext o) = true -> placed i o addr ->
  0 <= _way (base o) < assoc (ip_geometry i) ->
  key_of i o = Some (block_of (ip_geometry i) addr, _secure (ext o)).
Proof.
  intros Hi Hv (Ha & Ht & Hs) Hw. unfold key_of. rewrite Hv, <- Hs.
  by rewrite (ip_regenerates i addr _ _ Hi Ha Hw Ht).
Qed.

Lemma same_block_same_tag g a b : geometry_ok g -> block_of g a = block_of g b -> extractTag g a = extractTag g b.
Proof.
  intros Hg E. rewrite !extractTag_div by done. destruct Hg as (n & ? & _ & _ & -> & ? & _).
  apply block_of_div in E; [|done]. rewrite Z.pow_add_r, <- !Z.div_div, E;
    try apply Z.pow_nonzero; try apply Z.pow_pos_nonneg; lia || done.
Qed.

(** [match] on a block where the address may be compares block addresses. *)
Lemma match_key_Ok i w e o addr s : ip_ok i -> blk_ok i w e o -> 0 <= addr < 2 ^ 64 ->
  ip_set i addr (_way (base o)) = _set (base o) ->
  match_key (ip_geometry i) (mkKey addr s) (ext o) =
    Ok (bool_decide (key_of i o = Some (block_of (ip_geometry i) addr, s))).
Proof.
  intros Hi Ho Ha Hs. unfold match_key. destruct (isValid (ext o)) eqn:Hv; cbn [negb].
  2:{ unfold key_of. by rewrite Hv. }
  unfold call_extractor. rewrite (bo_extractor _ _ _ _ Ho). cbn [key_address key_secure].
  pose proof (ip_geometry_ok i Hi) as Hg. pose proof (extractTag_div _ addr Hg) as Et. rewrite Et. cbn [obind].
  destruct (bo_placed _ _ _ _ Ho Hv) as (a & Hpl). pose proof (bo_way _ _ _ _ Ho) as Hw.
  rewrite (placed_key i o a Hi Hv Hpl Hw). destruct Hpl as (Ha' & Ht & Hs').
  f_equal. apply eq_true_iff_eq. rewrite bool_decide_eq_true, andb_true_iff, Z.eqb_eq, eqb_true_iff. split.
  - intros [E ->]. do 2 f_equal.
    apply (same_slot_same_tag i a addr (_way (base o)) (_tag (ext o)) Hi Ha' Ha Hw); [congruence|done|by rewrite Et, E].
  - intros [= E ->]. split; [|done]. pose proof (same_block_same_tag _ _ _ Hg E) as Et'. rewrite Ht, Et in Et'.
    by injection Et' as ->.
Qed.

(** ** Candidates *)
Definition cands st (addr : Z) : list loc :=
  (fun way => home (geom st) (ip_set (ip st) addr way) way) <$> seqZ 0 (assoc (geom st)).

Lemma elem_of_cands st addr e : e ∈ cands st addr <->
  exists way, 0 <= way < assoc (geom st) /\ e = home (geom st) (ip_set (ip st) addr way) way.
Proof.
  unfold cands. rewrite list_elem_of_fmap. setoid_rewrite elem_of_seqZ. split.
  - intros (way & -> & ?). exists way. split; [lia|done].
  - intros (way & ? & ->). exists way. split; [done|lia].
Qed.

Lemma possible_cands st addr : tags_inv st -> 0 <= addr < 2 ^ 64 ->
  getPossibleEntries (ip st) (table st) addr = Ok (Some <$> cands st addr).
Proof.
  intros Hst Ha. destruct (ip_possible (ip st) (table st) addr (ti_ip _ Hst) (ti_sets _ Hst) Ha) as (l & -> & Hl & El).
  f_equal. pose proof (assoc_pos st Hst) as Hp. unfold geom in Hp. apply list_eq. intros k.
  destruct (decide (Z.of_nat k < assoc (geom st))) as [Hk|Hk].
  - assert (0 <= Z.of_nat k < assoc (ip_geometry (ip st))) as Hw by (unfold geom in Hk; lia).
    pose proof (ip_set_range _ _ _ (ti_ip _ Hst) Ha Hw) as Hs.
    specialize (El (Z.of_nat k) Hw). rewrite Nat2Z.id in El.
    rewrite El, (proj1 (ti_slot _ Hst _ _ Hs Hw)).
    unfold cands. rewrite !list_lookup_fmap, lookup_seqZ_lt by (unfold geom; lia). cbn. by rewrite Z.add_0_l.
  - rewrite lookup_ge_None_2 by (unfold vsize, geom in *; lia). symmetry. apply lookup_ge_None_2.
    unfold cands. rewrite !length_fmap, length_seqZ. lia.
Qed.

Lemma cand_entry st addr e : tags_inv st -> 0 <= addr < 2 ^ 64 -> e ∈ cands st addr ->
  exists o, entries (wld st) !! e = Some o /\ ip_set (ip st) addr (_way (base o)) = _set (base o).
Proof.
  intros Hst Ha (way & Hw & ->)%elem_of_cands.
  pose proof (ip_set_range _ _ _ (ti_ip _ Hst) Ha Hw) as Hs. pose proof (ti_slot _ Hst _ _ Hs Hw) as [_ [o Ho]].
  exists o. split; [done|]. pose proof (ti_blk _ Hst _ _ Ho) as B.
  destruct (home_inj (geom st) _ way (_set (base o)) (_way (base o))
    (proj1 Hs) Hw (proj1 (bo_set _ _ _ _ B)) (bo_way _ _ _ _ B) (bo_home _ _ _ _ B)) as [E1 E2].
  by rewrite <- E2, <- E1.
Qed.

(** A block that holds an address is among its candidates. *)
Lemma holder_is_cand st addr s e o : tags_inv st -> entries (wld st) !! e = Some o ->
  key_of (ip st) o = Some (block_of (geom st) addr, s) -> e ∈ cands st addr.
Proof.
  intros Hst He Hk. pose proof (ti_blk _ Hst _ _ He) as B. apply elem_of_cands.
  exists (_way (base o)). split; [apply (bo_way _ _ _ _ B)|].
  assert (isValid (ext o) = true) as Hv by (unfold key_of in Hk; by destruct (isValid (ext o))).
  destruct (bo_placed _ _ _ _ B Hv) as (a & Hpl).
  rewrite (placed_key _ _ a (ti_ip _ Hst) Hv Hpl (bo_way _ _ _ _ B)) in Hk. injection Hk as Hk _.
  destruct Hpl as (_ & _ & Hs). rewrite <- (ip_set_block _ a addr _ (ti_ip _ Hst) Hk), Hs.
  apply (bo_home _ _ _ _ B).
Qed.

Lemma contents_entry st k e : tags_inv st ->
  contents st !! k = Some e <-> exists o, entries (wld st) !! e = Some o /\ key_of (ip st) o = Some k.
Proof. intros Hst. apply index_by_Some, (ti_unique _ Hst). Qed.

Lemma contents_None st k : tags_inv st ->
  contents st !! k = None <-> forall e o, entries (wld st) !! e = Some o -> key_of (ip st) o <> Some k.
Proof. intros Hst. apply index_by_None, (ti_unique _ Hst). Qed.

(** ** Reading the store *)
Lemma read_blk_Ok st e o : entries (wld st) !! e = Some o -> read_blk e st = Ok (ext o, st).
Proof.
  intros He. unfold read_blk, onW. rewrite (bind_Ok _ _ _ _ _ (deref_entry_Ok _ _ _ He)). by destruct st.
Qed.

Definition has_key st (k : Z * bool) (e : loc) : bool :=
  match entries (wld st) !! e with Some o => bool_decide (key_of (ip st) o = Some k) | None => false end.

Lemma findBlock_Ok st addr s : tags_inv st -> 0 <= addr < 2 ^ 64 ->
  findBlock (mkKey addr s) st = Ok (contents st !! (block_of (geom st) addr, s), st).
Proof.
  intros Hst Ha. unfold findBlock. rewrite (bind_Ok getS _ st st st eq_refl). cbn [key_address].
  rewrite (possible_cands st addr Hst Ha). rewrite (bind_Ok _ _ st (Some <$> cands st addr) st eq_refl).
  set (k := (block_of (geom st) addr, s)).
  rewrite (foreach_find (Some <$> cands st addr) _ (fun p => match p with Some e => has_key st k e | None => false end)
    (fun p => match p with Some e => e | None => 1%positive end)).
  2:{ intros a p (e & -> & He)%list_elem_of_fmap. destruct (cand_entry st addr e Hst Ha He) as (o & Ho & Hs).
      rewrite (bind_Ok _ _ st e st eq_refl), (bind_Ok _ _ _ _ _ (read_blk_Ok st e o Ho)).
      unfold geom. rewrite (match_key_Ok _ _ e o addr s (ti_ip _ Hst) (ti_blk _ Hst e o Ho) Ha Hs).
      unfold has_key. rewrite Ho. fold (geom st). by destruct (bool_decide _). }
  f_equal. f_equal. destruct (List.find _ _) as [p|] eqn:Ef.
  - apply List.find_some in Ef as [Hin Hp]. apply list_elem_of_In, list_elem_of_fmap in Hin as (e & -> & He).
    cbn. symmetry. apply contents_entry; [done|]. unfold has_key in Hp.
    destruct (entries (wld st) !! e) as [o|]; [|done]. apply bool_decide_eq_true in Hp. eauto.
  - cbn. symmetry. apply contents_None; [done|]. intros e o Ho Hk.
    pose proof (holder_is_cand st addr s e o Hst Ho Hk) as Hc.
    apply (List.find_none _ _) with (x := Some e) in Ef.
    + unfold has_key in Ef. rewrite Ho in Ef. by apply bool_decide_eq_false in Ef.
    + apply list_elem_of_In, list_elem_of_fmap. eauto.
Qed.
End Inv.
