(* ===== verification/TagsOps.v ===== *)
(** The operations of the tag store preserve its invariant and do to the map of
    its contents what their names say. *)
From Stdlib Require Import ZArith Lia Bool.
From stdpp Require Import base numbers gmap list.
From S2P Require Import Prelude ReplBase Bitfield Indexing CacheBlk Partition Tags TagsInv.
Local Open Scope Z_scope.

Section Ops.
Context {P D I : Type} {RP : ReplacementPolicy P D} {RPL : ReplacementPolicyLaws P D}
  {IP : IndexingPolicy I} {IPL : IndexingLaws I}.
Implicit Types st : tag_sys P D I.

(** What no operation changes. *)
Definition same_shape st st' : Prop :=
  indexingPolicy (tags st') = indexingPolicy (tags st) /\ numBlocks (tags st') = numBlocks (tags st) /\
  table st' = table st.

#[global] Instance same_shape_preorder : PreOrder same_shape.
Proof. split; [done|]. intros a b c (?&?&?) (?&?&?). unfold same_shape. naive_solver congruence. Qed.

(** The map of contents when one block changes. *)
Definition rekey (old new : option (Z * bool)) (e : loc) (m : gmap (Z * bool) loc) : gmap (Z * bool) loc :=
  let m := match old with Some k => delete k m | None => m end in
  match new with Some k => <[k := e]> m | None => m end.

Lemma rekey_Some old new e m k e' :
  (forall k, old = Some k -> m !! k = Some e) -> (forall k, m !! k = Some e -> old = Some k) ->
  (forall k, new = Some k -> m !! k = None \/ m !! k = Some e) ->
  rekey old new e m !! k = Some e' <-> (e' = e /\ new = Some k) \/ (e' <> e /\ m !! k = Some e').
Proof.
  intros H1 H2 H3. unfold rekey.
  assert (forall x, (match old with Some k => delete k m | None => m end) !! k = Some x <->
    x <> e /\ m !! k = Some x) as Hd.
  { intros x. destruct old as [k0|].
    - rewrite lookup_delete_Some. specialize (H1 k0 eq_refl). split; [|naive_solver].
      intros [Hne Hx]. split; [|done]. intros ->. apply H2 in Hx. congruence.
    - split; [|naive_solver]. intros Hx. split; [|done]. intros ->. by apply H2 in Hx. }
  destruct new as [k1|]; [|rewrite Hd; naive_solver].
  destruct (decide (k1 = k)) as [->|Hne].
  - rewrite lookup_insert_eq. specialize (H3 k eq_refl). naive_solver.
  - rewrite lookup_insert_ne by done. rewrite Hd. naive_solver.
Qed.

Section Update.
Context st st' (e : loc) (o : object CacheBlk) (b : CacheBlk) (r : loc) (rd : ReplacementData D).
Hypothesis Hst : tags_inv st.
Hypothesis He : entries (wld st) !! e = Some o.
Hypothesis Hr : replacementData (base o) = Some r.
Hypothesis Hshape : same_shape st st'.
Hypothesis He' : entries (wld st') = <[e := mkObject (base o) b]> (entries (wld st)).
Hypothesis Hrds : forall r', r' <> r -> rds (wld st') !! r' = rds (wld st) !! r'.
Hypothesis Hrd : rds (wld st') !! r = Some rd.
Hypothesis Hext : has_extractor b = true.
Hypothesis Hclean : isValid b = false -> _secure b = false.
Hypothesis Hpl : isValid b = true -> exists addr, placed (indexingPolicy (tags st)) (mkObject (base o) b) addr.
Hypothesis Hlive : isValid b = true -> rp_live (data rd) = true.
Hypothesis Hnew : forall k, key_of (indexingPolicy (tags st)) (mkObject (base o) b) = Some k ->
  contents st !! k = None \/ contents st !! k = Some e.
Hypothesis Hrp : rp_inv (policy (wld st')) (rp_data (wld st')).

#[local] Abbreviation i := (indexingPolicy (tags st)).
#[local] Abbreviation old := (key_of i o).
#[local] Abbreviation new := (key_of i (mkObject (base o) b)).

Lemma update_distinct : keys_distinct (key_of i) (entries (wld st')).
Proof.
  intros e1 e2 o1 o2 k H1 H2 K1 K2. rewrite He' in H1, H2.
  apply lookup_insert_Some in H1 as [[<- <-]|[N1 H1]]; apply lookup_insert_Some in H2 as [[<- <-]|[N2 H2]]; [done|..].
  - destruct (Hnew k K1) as [E|E].
    + rewrite (contents_None st k Hst) in E. by destruct (E e2 o2 H2).
    + apply (contents_entry st k e Hst) in E as (x & Hx & Kx). by eapply (ti_unique _ Hst).
  - destruct (Hnew k K2) as [E|E].
    + rewrite (contents_None st k Hst) in E. by destruct (E e1 o1 H1).
    + apply (contents_entry st k e Hst) in E as (x & Hx & Kx). by eapply (ti_unique _ Hst).
  - by eapply (ti_unique _ Hst).
Qed.

Lemma update_blk e1 o1 : entries (wld st') !! e1 = Some o1 -> blk_ok i (wld st') e1 o1.
Proof.
  rewrite He'. intros [[<- <-]|[N1 H1]]%lookup_insert_Some.
  - destruct (ti_blk _ Hst e o He) as [B1 B2 B3 B4 B4' B5 B6]. constructor; cbn; try done.
    exists r, rd. done.
  - destruct (ti_blk _ Hst e1 o1 H1) as [B1 B2 B3 B4 B4' B5 (r1 & rd1 & R1 & R2 & R3)].
    constructor; try done. exists r1, rd1. split; [done|]. split; [|done]. rewrite Hrds; [done|].
    intros ->. destruct N1. by eapply (ti_rd_inj _ Hst).
Qed.

Lemma update_inv : tags_inv st'.
Proof.
  destruct Hshape as (Ei & En & Et).
  constructor; unfold geom in *; rewrite ?Ei, ?En, ?Et; try apply Hst; try done.
  - intros set way Hs Hw. destruct (ti_slot _ Hst set way Hs Hw) as [S1 S2]. split; [done|].
    rewrite He'. unfold geom in S2. destruct (decide (e = home (ip_geometry i) set way)) as [<-|].
    + rewrite lookup_insert_eq. eauto.
    + by rewrite lookup_insert_ne.
  - apply update_blk.
  - intros e1 e2 o1 o2 r0 H1 H2 R1 R2. rewrite He' in H1, H2.
    apply lookup_insert_Some in H1 as [[<- <-]|[N1 H1]]; apply lookup_insert_Some in H2 as [[<- <-]|[N2 H2]];
      [done|..]; cbn in *; by eapply (ti_rd_inj _ Hst).
  - apply update_distinct.
Qed.

Lemma update_contents : contents st' = rekey old new e (contents st).
Proof.
  apply map_eq. intros k. apply option_eq. intros e1.
  rewrite rekey_Some; [| | |exact Hnew].
  - rewrite (contents_entry st' k e1 update_inv). destruct Hshape as (-> & _ & _). rewrite He'. split.
    + intros (o1 & [[<- <-]|[N1 H1]]%lookup_insert_Some & K1); [by left|right]. split; [done|].
      apply contents_entry; eauto.
    + intros [[-> K]|[N (o1 & H1 & K1)%contents_entry]]; [| |done].
      * eexists. rewrite lookup_insert_eq. done.
      * exists o1. by rewrite lookup_insert_ne.
  - intros k0 K0. apply contents_entry; eauto.
  - intros k0 (o1 & H1 & K1)%contents_entry; [|done]. by simplify_eq.
Qed.

Lemma update_spec : tags_inv st' /\ contents st' = rekey old new e (contents st).
Proof. split; [exact update_inv|exact update_contents]. Qed.
End Update.

(** Only the policy and the data of the entries change, and no live data dies. *)
Lemma update_policy st st' : tags_inv st -> same_shape st st' -> frame (wld st) (wld st') ->
  (forall r d, rp_data (wld st) !! r = Some d -> rp_live d = true ->
     exists d', rp_data (wld st') !! r = Some d' /\ rp_live d' = true) ->
  rp_inv (policy (wld st')) (rp_data (wld st')) ->
  tags_inv st' /\ contents st' = contents st.
Proof.
  intros Hst (Ei & En & Et) (Ee & Er & _) Hl Hrp. split.
  2:{ unfold contents. by rewrite Ei, Ee. }
  constructor; unfold geom; rewrite ?Ei, ?En, ?Et, ?Ee; try apply Hst; [|done].
  intros e o He. destruct (ti_blk _ Hst e o He) as [B1 B2 B3 B4 B4' B5 (r & rd & R1 & R2 & R3)]. constructor; try done.
  assert (is_Some (rds (wld st') !! r)) as [rd' R'].
  { assert ((entry <$> rds (wld st')) !! r = Some (entry rd)) as E by by rewrite Er, lookup_fmap, R2.
    rewrite lookup_fmap in E. by destruct (rds (wld st') !! r). }
  exists r, rd'. split; [done|]. split; [done|]. intros V. specialize (R3 V).
  destruct (Hl r (data rd)) as (d' & E & L); [by apply rp_data_lookup|done|].
  rewrite (rp_data_lookup _ _ _ R') in E. by injection E as ->.
Qed.

(** ** Taking runs apart *)
Lemma onW_Ok_inv {A} (m : M (world P D CacheBlk) A) st a st' :
  onW m st = Ok (a, st') -> exists w, m (wld st) = Ok (a, w) /\ st' = mkTagSys (tags st) (table st) w.
Proof. unfold onW. destruct (m (wld st)) as [[? w]|]; naive_solver. Qed.

(** Only statistics, the warm-up flag or the partition manager change. *)
Definition only_tags st st' : Prop :=
  same_shape st st' /\ wld st' = wld st /\ maxRequestors (tags st') = maxRequestors (tags st).

#[global] Instance only_tags_preorder : PreOrder only_tags.
Proof.
  split; [done|]. intros a b c (?&?&?) (?&?&?). split; [by etrans|]. split; congruence.
Qed.

Lemma on_tags_Ok_inv f st u st' : on_tags f st = Ok (u, st') ->
  exists t, f (tags st) = Ok t /\ st' = mkTagSys t (table st) (wld st).
Proof. unfold on_tags. destruct (f (tags st)) as [t|]; naive_solver. Qed.

Lemma on_stats_only f st u st' : on_stats f st = Ok (u, st') -> only_tags st st'.
Proof. unfold on_stats. intros (t & [= <-] & ->)%on_tags_Ok_inv. done. Qed.

Lemma occupancy_only id d st u st' :
  on_tags (fun t => let? s := st_occupancy id d (stats t) in Ok (with_tag_stats s t)) st = Ok (u, st') ->
  only_tags st st'.
Proof. intros (t & H & ->)%on_tags_Ok_inv. inv_ok H. by injection H as <-. Qed.

Lemma notify_only f st u st' : notify f st = Ok (u, st') -> only_tags st st'.
Proof.
  unfold notify. intros (t & H & ->)%on_tags_Ok_inv. destruct (partitionManager (tags st)); [inv_ok H|]; by injection H as <-.
Qed.

Lemma read_blk_Ok_inv e st b st' : read_blk e st = Ok (b, st') ->
  exists o, entries (wld st) !! e = Some o /\ b = ext o /\ st' = st.
Proof.
  unfold read_blk. intros (w & H & ->)%onW_Ok_inv. inv_ok H. apply deref_entry_Ok_inv in Hrun as [He ->].
  injection H as <- <-. exists a. by destruct st.
Qed.

Lemma modify_blk_Ok_inv e f st u st' : modify_blk e f st = Ok (u, st') ->
  exists o b, entries (wld st) !! e = Some o /\ f (ext o) = Ok b /\
    st' = mkTagSys (tags st) (table st) (set_entries (<[e := mkObject (base o) b]> (entries (wld st))) (wld st)).
Proof.
  unfold modify_blk. intros (w & H & ->)%onW_Ok_inv. inv_ok H. apply deref_entry_Ok_inv in Hrun as [He ->].
  apply lift_Ok_inv in Hrun0 as [Hf ->]. injection H as _ <-. eauto.
Qed.

Lemma blk_rd_ptr_inv (w w' : world P D CacheBlk) e r : rd_ptr e w = Ok (r, w') ->
  exists o, entries w !! e = Some o /\ replacementData (base o) = Some r /\ w' = w.
Proof.
  unfold rd_ptr. intros H. inv_ok H. apply deref_entry_Ok_inv in Hrun as [He ->].
  apply lift_Ok_inv in H as [Hr%oget_Ok_inv ->]. eauto.
Qed.

Lemma policy_call_Ok_inv e (op : loc -> M (world P D CacheBlk) unit) st u st' :
  onW (let* r := rd_ptr e in op r) st = Ok (u, st') ->
  exists o r w, entries (wld st) !! e = Some o /\ replacementData (base o) = Some r /\
    op r (wld st) = Ok (tt, w) /\ st' = mkTagSys (tags st) (table st) w.
Proof.
  intros (w & H & ->)%onW_Ok_inv. inv_ok H. apply blk_rd_ptr_inv in Hrun as (o & He & Hr & ->).
  destruct u. eauto 10.
Qed.

(** ** Inserting *)
Lemma insert_Ok_inv g tick key src task part b b' : _secure b = false ->
  insert g tick key src task part b = Ok b' ->
  isValid b = false /\ isValid b' = true /\ _secure b' = key_secure key /\ has_extractor b' = has_extractor b /\
  call_extractor g b (key_address key) = Ok (_tag b').
Proof.
  intros Hs Hi. unfold insert, insert_key, setValid in Hi. inv_ok Hi. inv_ok Hrun0. inv_ok Hrun1.
  apply ocheck_Ok_inv in Hrun. destruct (isValid b) eqn:V; [done|]. injection Hrun1 as <-.
  injection Hrun0 as <-. injection Hi as <-. split; [done|]. by destruct (key_secure key).
Qed.

Lemma base_insertBlock_Ok_inv pkt e st u st' : base_insertBlock pkt e st = Ok (u, st') ->
  exists o b part, entries (wld st) !! e = Some o /\
    insert (geom st) (curTick (wld st)) (mkKey (pkt_addr pkt) (pkt_secure pkt)) (pkt_requestor pkt)
      (pkt_task pkt) part (ext o) = Ok b /\ same_shape st st' /\
    wld st' = set_entries (<[e := mkObject (base o) b]> (entries (wld st))) (wld st).
Proof.
  unfold base_insertBlock. intros Hi. inv_ok Hi.
  apply read_blk_Ok_inv in Hrun as (o & He & -> & ->). apply lift_Ok_inv in Hrun0 as [_ ->].
  injection Hrun1 as <- <-. apply lift_Ok_inv in Hrun2 as [_ ->].
  apply occupancy_only in Hrun3 as (S3 & W3 & _). apply modify_blk_Ok_inv in Hrun4 as (o' & b & He' & Hb & ->).
  rewrite W3 in *. rewrite He in He'. injection He' as <-.
  eexists o, b, _. split; [done|]. split; [exact Hb|].
  apply on_stats_only in Hi as (S5 & W5 & _). rewrite W5.
  set (st3 := mkTagSys _ _ _) in Hrun5.
  assert (only_tags st3 s5) as (S4 & W4 & _).
  { destruct (negb _ && _); [|by injection Hrun5 as _ <-]. by apply on_tags_Ok_inv in Hrun5 as (t & [= <-] & ->). }
  split; [|by rewrite W4]. etrans; [exact S3|]. by etrans; [exact S4|].
Qed.

(** The keys of the candidates: inserting the address makes its key. *)
Lemma inserted_placed st o b addr : tags_inv st -> 0 <= addr < 2 ^ 64 ->
  has_extractor (ext o) = true -> ip_set (indexingPolicy (tags st)) addr (_way (base o)) = _set (base o) ->
  call_extractor (geom st) (ext o) addr = Ok (_tag b) ->
  placed (indexingPolicy (tags st)) (mkObject (base o) b) addr.
Proof.
  intros Hst Ha Hx Hs Hc. unfold call_extractor in Hc. rewrite Hx in Hc. split; [done|]. split; [exact Hc|exact Hs].
Qed.

Lemma sets_bounded_write st e o b : tags_inv st -> entries (wld st) !! e = Some o ->
  sets_bounded (set_entries (<[e := mkObject (base o) b]> (entries (wld st))) (wld st)).
Proof.
  intros Hst He e' o'. cbn. intros [[<- <-]|[_ H']]%lookup_insert_Some;
    [exact (ti_bounded st Hst e o He)|exact (ti_bounded st Hst e' o' H')].
Qed.

Lemma insertBlock_spec pkt e st u st' : tags_inv st -> 0 <= pkt_addr pkt < 2 ^ 64 ->
  e ∈ cands st (pkt_addr pkt) -> contents st !! (block_of (geom st) (pkt_addr pkt), pkt_secure pkt) = None ->
  insertBlock pkt e st = Ok (u, st') ->
  tags_inv st' /\ same_shape st st' /\
  contents st' = <[(block_of (geom st) (pkt_addr pkt), pkt_secure pkt) := e]> (contents st).
Proof.
  intros Hst Ha Hc Hn Hi. unfold insertBlock in Hi. inv_ok Hi.
  apply base_insertBlock_Ok_inv in Hrun as (o & b & part & He & Hb & S1 & W1).
  apply on_stats_only in Hrun0 as (S2 & W2 & _). apply notify_only in Hrun1 as (S3 & W3 & _).
  apply policy_call_Ok_inv in Hi as (o' & r & w & He' & Hr & Hreset & ->).
  rewrite W3, W2, W1 in He', Hreset. cbn in He'. rewrite lookup_insert_eq in He'. injection He' as <-. cbn in Hr.
  destruct (cand_entry st _ e Hst Ha Hc) as (o' & He' & Hs). rewrite He in He'. injection He' as <-.
  pose proof (ti_blk _ Hst e o He) as B.
  assert (isValid (ext o) = false) as V0.
  { unfold insert in Hb. inv_ok Hb. apply ocheck_Ok_inv in Hrun. by destruct (isValid (ext o)). }
  apply insert_Ok_inv in Hb as (_ & V & Sec & Ex & Tag); [|by apply (bo_clean _ _ _ _ B)]. cbn [key_secure key_address] in *.
  destruct (rp_frame _ _ _ r (upd_reset _ _ _ Hreset)) as ((Fe & Fr & _) & Fo).
  destruct (rp_reset_live _ _ _ r Hreset) as (d & Hd & Hl).
  unfold rp_data in Hd. rewrite lookup_fmap in Hd. destruct (rds w !! r) as [rd|] eqn:Hrd; [|done]. injection Hd as <-.
  pose proof (inserted_placed st o b _ Hst Ha (bo_extractor _ _ _ _ B) Hs Tag) as Hpl.
  assert (key_of (indexingPolicy (tags st)) (mkObject (base o) b) =
    Some (block_of (geom st) (pkt_addr pkt), pkt_secure pkt)) as Hk.
  { rewrite <- Sec. exact (placed_key _ (mkObject (base o) b) _ (ti_ip _ Hst) V Hpl (bo_way _ _ _ _ B)). }
  assert (same_shape st (mkTagSys (tags s1) (table s1) w)) as Hsh by (etrans; [exact S1|]; etrans; [exact S2|exact S3]).
  assert (rp_inv (policy w) (rp_data w)) as Hrp.
  { eapply rp_inv_pres; [| |exact (upd_reset _ _ _ Hreset)]; [by apply sets_bounded_write|exact (ti_rp _ Hst)]. }
  destruct (update_spec st (mkTagSys (tags s1) (table s1) w) e o b r rd) as [Hinv Hcon];
    [done|done|done|done|exact Fe|exact Fo|done| |congruence|eauto|done| |exact Hrp|].
  - rewrite Ex. apply (bo_extractor _ _ _ _ B).
  - intros k. rewrite Hk. intros [= <-]. by left.
  - split; [done|]. split; [done|]. rewrite Hcon, Hk. unfold key_of at 1. by rewrite V0.
Qed.

(** ** Invalidating *)
Lemma blk_invalidate_Ok_inv b b' : CacheBlk.invalidate b = Ok b' ->
  isValid b' = false /\ _secure b' = false /\ has_extractor b' = has_extractor b.
Proof. unfold CacheBlk.invalidate. intros Hi. inv_ok Hi. unfold setWhenReady in Hrun. inv_ok Hrun.
  injection Hrun as <-. by injection Hi as <-.
Qed.

Lemma base_invalidate_Ok_inv e st u st' : base_invalidate e st = Ok (u, st') ->
  exists o b, entries (wld st) !! e = Some o /\ isValid (ext o) = true /\ CacheBlk.invalidate (ext o) = Ok b /\
    same_shape st st' /\ wld st' = set_entries (<[e := mkObject (base o) b]> (entries (wld st))) (wld st).
Proof.
  unfold base_invalidate. intros Hi. inv_ok Hi.
  apply read_blk_Ok_inv in Hrun as (o & He & -> & ->). apply lift_Ok_inv in Hrun0 as [V%ocheck_Ok_inv ->].
  apply occupancy_only in Hrun1 as (S1 & W1 & _). apply on_stats_only in Hrun2 as (S2 & W2 & _).
  apply modify_blk_Ok_inv in Hi as (o' & b & He' & Hb & ->). rewrite W2, W1 in He' |- *.
  rewrite He in He'. injection He' as <-. exists o, b. split_and!; try done. etrans; [exact S1|exact S2].
Qed.

Lemma invalidateBlk_spec e st u st' : tags_inv st -> invalidateBlk e st = Ok (u, st') ->
  exists o k, entries (wld st) !! e = Some o /\ key_of (indexingPolicy (tags st)) o = Some k /\
    tags_inv st' /\ same_shape st st' /\ contents st' = delete k (contents st).
Proof.
  intros Hst Hi. unfold invalidateBlk in Hi. inv_ok Hi.
  apply read_blk_Ok_inv in Hrun as (o & He & -> & ->). apply notify_only in Hrun0 as (S1 & W1 & _).
  apply base_invalidate_Ok_inv in Hrun1 as (o' & b & He' & V & Hb & S2 & W2). rewrite W1 in He', W2.
  rewrite He in He'. injection He' as <-. apply on_stats_only in Hrun2 as (S3 & W3 & _).
  apply policy_call_Ok_inv in Hi as (o' & r & w & He' & Hr & Hinv & ->).
  rewrite W3, W2 in He', Hinv. cbn in He'. rewrite lookup_insert_eq in He'. injection He' as <-. cbn in Hr.
  pose proof (ti_blk _ Hst e o He) as B. apply blk_invalidate_Ok_inv in Hb as (V' & Sec & Ex).
  destruct (bo_rd _ _ _ _ B) as (r' & rd0 & Hr' & Hrd0 & _). rewrite Hr in Hr'. injection Hr' as <-.
  destruct (rp_frame _ _ _ r (upd_invalidate _ _ _ Hinv)) as ((Fe & Fr & _) & Fo).
  assert (is_Some (rds w !! r)) as [rd Hrd].
  { assert ((entry <$> rds w) !! r = Some (entry rd0)) as E by (rewrite Fr; cbn; by rewrite lookup_fmap, Hrd0).
    rewrite lookup_fmap in E. by destruct (rds w !! r). }
  assert (rp_inv (policy w) (rp_data w)) as Hrp.
  { eapply rp_inv_pres; [| |exact (upd_invalidate _ _ _ Hinv)]; [by apply sets_bounded_write|exact (ti_rp _ Hst)]. }
  assert (same_shape st (mkTagSys (tags s2) (table s2) w)) as Hsh by (etrans; [exact S1|]; etrans; [exact S2|exact S3]).
  destruct (bo_placed _ _ _ _ B V) as (addr & Hpl).
  pose proof (placed_key _ o addr (ti_ip _ Hst) V Hpl (bo_way _ _ _ _ B)) as Hk.
  assert (key_of (indexingPolicy (tags st)) (mkObject (base o) b) = None) as Hk' by (unfold key_of; cbn; by rewrite V').
  destruct (update_spec st (mkTagSys (tags s2) (table s2) w) e o b r rd) as [Hi Hcon];
    [done|done|done|done|exact Fe|exact Fo|done| |done|congruence|congruence|congruence|exact Hrp|].
  - rewrite Ex. apply (bo_extractor _ _ _ _ B).
  - exists o, (block_of (ip_geometry (indexingPolicy (tags st))) addr, _secure (ext o)). split_and!; try done.
    by rewrite Hcon, Hk', Hk.
Qed.

(** ** Accessing *)
Lemma accessBlock_spec pkt st r st' : tags_inv st -> 0 <= pkt_addr pkt < 2 ^ 64 ->
  accessBlock pkt st = Ok (r, st') ->
  r = (contents st !! (block_of (geom st) (pkt_addr pkt), pkt_secure pkt), lookupLatency (tags st)) /\
  tags_inv st' /\ same_shape st st' /\ contents st' = contents st.
Proof.
  intros Hst Ha Hi. unfold accessBlock in Hi. rewrite (bind_Ok _ _ _ _ _ (findBlock_Ok st _ _ Hst Ha)) in Hi.
  set (hit := contents st !! _) in *. inv_ok Hi. injection Hrun as <- <-. injection Hi as <- <-.
  apply on_stats_only in Hrun0 as (S1 & W1 & _).
  assert (only_tags s0 s1) as (S2 & W2 & _).
  { destruct (sequentialAccess (tags st)); [destruct hit|]; try (by eapply on_stats_only). by injection Hrun1 as _ <-. }
  split; [done|]. destruct hit as [e|] eqn:Ehit.
  2:{ injection Hrun2 as _ <-. assert (same_shape st s1) as Hsh by (etrans; [exact S1|exact S2]).
      destruct (update_policy st s1) as [? ?]; [done|done|by rewrite W2, W1| | |by split_and!].
      - intros r d. rewrite W2, W1. eauto.
      - rewrite W2, W1. apply (ti_rp _ Hst). }
  inv_ok Hrun2. apply modify_blk_Ok_inv in Hrun as (o & b & He & [= <-] & ->). rewrite W2, W1 in *.
  apply policy_call_Ok_inv in Hrun2 as (o' & r & w & He' & Hr & Htouch & ->). cbn in He', Htouch |- *.
  rewrite lookup_insert_eq in He'. injection He' as <-. cbn in Hr.
  apply contents_entry in Ehit as (o' & He' & Hk); [|done]. rewrite He in He'. injection He' as <-.
  pose proof (ti_blk _ Hst e o He) as B. destruct (bo_rd _ _ _ _ B) as (r' & rd0 & Hr' & Hrd0 & Hl).
  rewrite Hr in Hr'. injection Hr' as <-.
  assert (isValid (ext o) = true) as V by (unfold key_of in Hk; by destruct (isValid (ext o))).
  destruct (rp_frame _ _ _ r (upd_touch _ _ _ Htouch)) as ((Fe & Fr & _) & Fo).
  destruct (rp_touch_live _ _ _ r (data rd0) Htouch) as (d' & Hd & Hl');
    [by apply rp_data_lookup|by apply Hl|].
  unfold rp_data in Hd. rewrite lookup_fmap in Hd. destruct (rds w !! r) as [rd|] eqn:Hrd; [|done]. injection Hd as <-.
  assert (rp_inv (policy w) (rp_data w)) as Hrp.
  { eapply rp_inv_pres; [| |exact (upd_touch _ _ _ Htouch)]; [by apply sets_bounded_write|exact (ti_rp _ Hst)]. }
  assert (same_shape st (mkTagSys (tags s1) (table s1) w)) as Hsh by (etrans; [exact S1|exact S2]).
  destruct (update_spec st (mkTagSys (tags s1) (table s1) w) e o (increaseRefCount (ext o)) r rd) as [Hi Hcon];
    [done|done|done|done|exact Fe|exact Fo|done|apply (bo_extractor _ _ _ _ B)|apply (bo_clean _ _ _ _ B)|
     apply (bo_placed _ _ _ _ B)|done| |exact Hrp|].
  - intros k Hk2. right. apply contents_entry; eauto.
  - split_and!; [done..|]. rewrite Hcon. unfold rekey. change (key_of _ (mkObject (base o) _)) with (key_of (indexingPolicy (tags st)) o).
    rewrite Hk. rewrite insert_delete_eq. apply insert_id. apply contents_entry; eauto.
Qed.

(** ** Choosing a victim *)
Lemma mapM_Some {A} (l : list A) : mapM id (Some <$> l) = Some l.
Proof. induction l as [|x l IH]; [done|]. cbn. by rewrite IH. Qed.

Lemma cands_have_data st addr l : tags_inv st -> 0 <= addr < 2 ^ 64 -> l ⊆ cands st addr ->
  exists ds, cands_data (wld st) l ds.
Proof.
  intros Hst Ha. induction l as [|e l IH]; intros Hs; [exists []; constructor|].
  destruct IH as [ds Hds]; [set_solver|].
  destruct (cand_entry st addr e Hst Ha) as (o & He & _); [set_solver|].
  destruct (bo_rd _ _ _ _ (ti_blk _ Hst e o He)) as (r & rd & Hr & Hrd & _).
  exists (data rd :: ds). constructor; [|done]. apply cand_data_Some. eauto 10.
Qed.

(** What [findVictim] hands to the replacement policy. *)
Definition victim_cands st (addr pid : Z) : outcome (list loc) :=
  match partitionManager (tags st) with
  | Some pm => filterByPartition (view (wld st)) pm (cands st addr) pid
  | None => Ok (cands st addr)
  end.

Lemma findVictim_run addr sec pid st l : tags_inv st -> 0 <= addr < 2 ^ 64 ->
  victim_cands st addr pid = Ok l ->
  findVictim (mkKey addr sec) pid st =
    (let* v := match l with [] => ret None | _ => onW (rp_getVictim l) end in ret (v, [v])) st.
Proof.
  intros Hst Ha Hl. unfold findVictim. rewrite (bind_Ok getS _ st st st eq_refl). cbn [key_address].
  rewrite (possible_cands st addr Hst Ha). rewrite (bind_Ok _ _ st (Some <$> cands st addr) st eq_refl).
  rewrite mapM_Some. rewrite (bind_Ok _ _ st (cands st addr) st eq_refl).
  unfold victim_cands in Hl. rewrite Hl. by rewrite (bind_Ok _ _ st l st eq_refl).
Qed.

Lemma victim_cands_subset st addr pid l : victim_cands st addr pid = Ok l -> l ⊆ cands st addr.
Proof.
  unfold victim_cands. destruct (partitionManager (tags st)); [apply filter_subset|by intros [= <-]].
Qed.

(** A victim is always chosen, or there is none to choose: the state stays
    sound and the contents do not change. *)
Lemma findVictim_spec addr sec pid st l : tags_inv st -> 0 <= addr < 2 ^ 64 ->
  victim_cands st addr pid = Ok l ->
  exists v st', findVictim (mkKey addr sec) pid st = Ok ((v, [v]), st') /\
    tags_inv st' /\ same_shape st st' /\ contents st' = contents st /\ tags st' = tags st /\
    entries (wld st') = entries (wld st) /\ curTick (wld st') = curTick (wld st) /\
    (l = [] /\ v = None /\ st' = st \/
     exists w, l <> [] /\ rp_getVictim l (wld st) = Ok (v, w) /\ wld st' = w) /\
    (forall e, v = Some e -> e ∈ l).
Proof.
  intros Hst Ha Hl. rewrite (findVictim_run addr sec pid st l Hst Ha Hl).
  pose proof (victim_cands_subset _ _ _ _ Hl) as Hsub.
  destruct l as [|c l]; [exists None, st; split_and!; try done; by left|].
  destruct (cands_have_data st addr (c :: l) Hst Ha Hsub) as [ds Hds].
  destruct (rp_victim_ok _ (wld st) (c :: l) ds (ti_bounded _ Hst) (ti_rp _ Hst)) as (v & w & E & Hrp); [done..|].
  destruct (rp_victim_frame _ _ _ _ _ E) as (F & Hin & Hlive).
  exists v, (mkTagSys (tags st) (table st) w). unfold bind, onW. rewrite E. split; [done|].
  destruct (update_policy st (mkTagSys (tags st) (table st) w)) as [Hi Hc]; [done..|].
  destruct F as (Fe & _ & Ft). split_and!; try done. right. by exists w.
Qed.

(** ** Changes that leave the block what it is *)
Definition same_identity (b b' : CacheBlk) : Prop :=
  isValid b' = isValid b /\ _secure b' = _secure b /\ _tag b' = _tag b /\ has_extractor b' = has_extractor b.

Lemma modify_blk_spec e f st u st' : tags_inv st ->
  (forall o b, entries (wld st) !! e = Some o -> f (ext o) = Ok b -> same_identity (ext o) b) ->
  modify_blk e f st = Ok (u, st') ->
  tags_inv st' /\ contents st' = contents st /\ tags st' = tags st /\ table st' = table st /\
  exists o b, entries (wld st) !! e = Some o /\ f (ext o) = Ok b /\
    wld st' = set_entries (<[e := mkObject (base o) b]> (entries (wld st))) (wld st).
Proof.
  intros Hst Hf (o & b & He & Hb & ->)%modify_blk_Ok_inv. destruct (Hf _ _ He Hb) as (V & Sec & Tag & Ex).
  pose proof (ti_blk _ Hst e o He) as B. destruct (bo_rd _ _ _ _ B) as (r & rd & Hr & Hrd & Hl).
  assert (key_of (indexingPolicy (tags st)) (mkObject (base o) b) = key_of (indexingPolicy (tags st)) o) as Hk.
  { unfold key_of. cbn. by rewrite V, Sec, Tag. }
  destruct (update_spec st (mkTagSys (tags st) (table st)
    (set_entries (<[e := mkObject (base o) b]> (entries (wld st))) (wld st))) e o b r rd) as [Hi Hcon]; try done.
  - rewrite Ex. apply (bo_extractor _ _ _ _ B).
  - rewrite V, Sec. apply (bo_clean _ _ _ _ B).
  - rewrite V. intros Hv. destruct (bo_placed _ _ _ _ B Hv) as (addr & Ha & Ht & Hs). exists addr.
    split; [done|]. split; [cbn; by rewrite Tag|done].
  - by rewrite V.
  - intros k. rewrite Hk. intros Hk'. right. apply contents_entry; eauto.
  - apply (ti_rp _ Hst).
  - split; [done|]. split; [|split; [done|split; [done|eauto]]]. rewrite Hcon, Hk. unfold rekey.
    destruct (key_of _ o) as [k|] eqn:E; [|done]. rewrite insert_delete_eq. apply insert_id, contents_entry; eauto.
Qed.
End Ops.
