(* ===== verification/TagsInit.v ===== *)
(** Setting up the tag store: [tagsInit] establishes the invariant, with no
    block in the store.  The replacement data it hands out do not point back to
    their blocks: [setPosition] runs before the block has any. *)
From Stdlib Require Import ZArith Lia Bool.
From stdpp Require Import base numbers gmap list.
From S2P Require Import Prelude ReplBase Bitfield Indexing CacheBlk Partition Tags TagsInv TagsOps.
Local Open Scope Z_scope.

(** The vector [blks] before [tagsInit]. *)
Definition raw_blks (n : Z) (b : CacheBlk) : gmap loc (object CacheBlk) :=
  list_to_map ((fun k => (blk_loc k, mkObject new_ReplaceableEntry b)) <$> seqZ 0 n).

Lemma blk_loc_inj k k' : 0 <= k -> 0 <= k' -> blk_loc k = blk_loc k' -> k = k'.
Proof. unfold blk_loc. intros ? ? E%SuccNat2Pos.inj. by apply Z2Nat.inj. Qed.

Lemma raw_blks_lookup n b e o : raw_blks n b !! e = Some o <->
  exists k, 0 <= k < n /\ e = blk_loc k /\ o = mkObject new_ReplaceableEntry b.
Proof.
  unfold raw_blks. rewrite <- elem_of_list_to_map.
  - rewrite list_elem_of_fmap. setoid_rewrite elem_of_seqZ. split.
    + intros (k & [= -> ->] & Hk). exists k. split; [lia|done].
    + intros (k & Hk & -> & ->). exists k. split; [done|lia].
  - rewrite <- list_fmap_compose. apply NoDup_fmap_2_strong; [|apply NoDup_seqZ].
    intros x y Hx%elem_of_seqZ Hy%elem_of_seqZ. cbn. apply blk_loc_inj; lia.
Qed.

Section Init.
Context {P D I : Type} {RP : ReplacementPolicy P D} {RPL : ReplacementPolicyLaws P D}
  {IP : IndexingPolicy I} {IPL : IndexingLaws I}.
Implicit Types st : tag_sys P D I.

(** What [tagsInit] makes of the block [k]. *)
Definition set_up (size k : Z) (b : CacheBlk) : CacheBlk := registerTagExtractor (set_data (u32 (size * k)) b).

Context (b0 : CacheBlk).

(** The block [k] when the blocks below [j] are set up; [b0] is what they were before. *)
Record blk_stage (size : Z) (g : Geometry) (w : world P D CacheBlk) (j k : Z) (o : object CacheBlk) : Prop := {
  bs_invalid : isValid (ext o) = false;
  bs_clean : _secure (ext o) = false;
  bs_ext : ext o = if decide (k < j) then set_up size k b0 else b0;
  bs_raw : j <= k -> replacementData (base o) = None;
  bs_done : k < j -> _set (base o) = k / assoc g /\ _way (base o) = k mod assoc g /\
    has_extractor (ext o) = true /\
    exists r rd, replacementData (base o) = Some r /\ rds w !! r = Some rd;
}.

Record init_inv st (j : Z) : Prop := {
  ii_ip : ip_ok (indexingPolicy (tags st));
  ii_sets : sets_ok (geom st) (table st);
  ii_max : numSets (geom st) <= max_sets;
  ii_num : numBlocks (tags st) = numSets (geom st) * assoc (geom st);
  ii_small : numBlocks (tags st) <= 2 ^ 32;
  ii_all : forall k, 0 <= k < numBlocks (tags st) ->
    exists o, entries (wld st) !! blk_loc k = Some o /\ blk_stage (blkSize (tags st)) (geom st) (wld st) j k o;
  ii_only : forall e o, entries (wld st) !! e = Some o -> exists k, 0 <= k < numBlocks (tags st) /\ e = blk_loc k;
  ii_slot : forall k, 0 <= k < j ->
    slot (table st) (k / assoc (geom st)) (k mod assoc (geom st)) = Some (Some (blk_loc k));
  ii_rd_inj : forall e e' o o' r, entries (wld st) !! e = Some o -> entries (wld st) !! e' = Some o' ->
    replacementData (base o) = Some r -> replacementData (base o') = Some r -> e = e';
  ii_rd_known : forall e o r, entries (wld st) !! e = Some o -> replacementData (base o) = Some r ->
    is_Some (rds (wld st) !! r);
  ii_uninit : map_Forall (fun _ rd => entry rd = Uninit) (rds (wld st));
  ii_rp : rp_inv (policy (wld st)) (rp_data (wld st));
}.

(** The invariant of the store holds when all blocks are set up. *)
Lemma index_split g k : 0 < assoc g -> 0 <= k -> blk_index g (k / assoc g) (k mod assoc g) = k.
Proof. intros. unfold blk_index. pose proof (Z.div_mod k (assoc g)). lia. Qed.

Lemma init_done st : init_inv st (numBlocks (tags st)) -> tags_inv st /\ contents st = ∅.
Proof.
  intros Hi. pose proof (ip_geometry_ok _ (ii_ip _ _ Hi)) as (n & _ & En & _ & _ & _ & _ & _ & Ha).
  assert (forall e o, entries (wld st) !! e = Some o -> isValid (ext o) = false) as Hinv.
  { intros e o He. destruct (ii_only _ _ Hi e o He) as (k & Hk & ->).
    destruct (ii_all _ _ Hi k Hk) as (o' & He' & B). rewrite He in He'. injection He' as <-. apply (bs_invalid _ _ _ _ _ _ B). }
  assert (forall e o, entries (wld st) !! e = Some o -> key_of (indexingPolicy (tags st)) o = None) as Hkey.
  { intros e o He. unfold key_of. by rewrite (Hinv e o He). }
  assert (tags_inv st) as Hst.
  { constructor; try apply Hi.
    - intros set way Hs Hw. unfold geom in Hw, Hs. pose proof (ii_num _ _ Hi) as Hn. unfold geom in Hn.
      assert (0 <= blk_index (geom st) set way < numBlocks (tags st)) as Hk by (unfold blk_index, geom; nia).
      assert (blk_index (geom st) set way / assoc (geom st) = set) as E1
        by (unfold blk_index, geom; rewrite Z.div_add_l, Z.div_small; lia).
      assert (blk_index (geom st) set way mod assoc (geom st) = way) as E2
        by (unfold blk_index, geom; rewrite Z.add_comm, Z.mod_add, Z.mod_small; lia).
      split; [pose proof (ii_slot _ _ Hi _ Hk) as E; by rewrite E1, E2 in E|].
      destruct (ii_all _ _ Hi _ Hk) as (o & He & _). by exists o.
    - intros e o He. destruct (ii_only _ _ Hi e o He) as (k & Hk & ->).
      destruct (ii_all _ _ Hi k Hk) as (o' & He' & B). rewrite He in He'. injection He' as <-.
      destruct (bs_done _ _ _ _ _ _ B ltac:(lia)) as (Es & Ew & Ex & r & rd & Hr & Hrd). unfold geom in *.
      pose proof (ii_num _ _ Hi) as Hn. unfold geom in Hn.
      constructor; rewrite ?Es, ?Ew; try done.
      + split; [apply Z.div_pos; lia|]. apply Z.div_lt_upper_bound; lia.
      + apply Z.mod_pos_bound. lia.
      + unfold home. by rewrite index_split by lia.
      + intros _. apply (bs_clean _ _ _ _ _ _ B).
      + rewrite (bs_invalid _ _ _ _ _ _ B). done.
      + exists r, rd. rewrite (bs_invalid _ _ _ _ _ _ B). done.
    - intros e e' o o' k He _ K. by rewrite (Hkey e o He) in K. }
  split; [done|]. apply map_eq. intros k. rewrite lookup_empty. apply contents_None; [done|].
  intros e o He. by rewrite (Hkey e o He).
Qed.

(** ** One block *)
Lemma setPosition_raw (w : world P D CacheBlk) e o set way :
  entries w !! e = Some o -> replacementData (base o) = None ->
  setPosition e set way w =
    Ok (tt, set_entries (<[e := mkObject (mkReplaceableEntry set way None) (ext o)]> (entries w)) w).
Proof.
  intros He Hr. unfold setPosition. rewrite (bind_Ok _ _ _ _ _ (deref_entry_Ok _ _ _ He)). rewrite Hr. done.
Qed.

Lemma link_entry_Ok_inv st e o k u st' : entries (wld st) !! e = Some o -> replacementData (base o) = None ->
  0 <= k < 2 ^ 32 -> 0 < assoc (geom st) -> link_entry e k st = Ok (u, st') ->
  exists t, put_slot (table st) (k / assoc (geom st)) (k mod assoc (geom st)) e = Ok t /\
    st' = mkTagSys (tags st) t (set_entries (<[e := mkObject (mkReplaceableEntry (k / assoc (geom st))
      (k mod assoc (geom st)) None) (ext o)]> (entries (wld st))) (wld st)).
Proof.
  intros He Hr Hk Ha Hl. unfold link_entry, setEntry in Hl.
  rewrite (swrap_small 64 k) in Hl by lia. rewrite Z.quot_div_nonneg, Z.rem_mod_nonneg in Hl by lia.
  assert (0 <= k / assoc (geom st) < 2 ^ 32) as B1.
  { split; [apply Z.div_pos; lia|]. apply Z.div_lt_upper_bound; [lia|]. nia. }
  assert (0 <= k mod assoc (geom st) < 2 ^ 32) as B2.
  { pose proof (Z.mod_pos_bound k (assoc (geom st)) Ha). pose proof (Z.mod_le k (assoc (geom st))). lia. }
  rewrite (uwrap_small 32 _ B1), (uwrap_small 32 _ B2) in Hl.
  destruct (bind _ _ _) as [[v [t w]]|] eqn:E; [|done]. injection Hl as _ <-. inv_ok E.
  apply lift_Ok_inv in Hrun as [_ ->]. injection Hrun0 as <- <-. apply lift_Ok_inv in Hrun1 as [Hp ->]. cbn in Hp.
  apply lift_Ok_inv in Hrun2 as [Hs ->]. cbn in Hs. rewrite (setPosition_raw _ _ o) in Hs by done.
  injection Hs as <-. injection E as _ <- <-. eauto.
Qed.

Lemma instantiate_Ok_inv st r st' : instantiate st = Ok (r, st') ->
  exists d p, rp_instantiateEntry (policy (wld st)) = Ok (d, p) /\ rds (wld st) !! r = None /\
    st' = mkTagSys (tags st) (table st)
      (mkWorld p (entries (wld st)) (<[r := mkReplacementData Uninit d]> (rds (wld st))) (curTick (wld st))).
Proof.
  unfold instantiate. intros (w & Hw & ->)%onW_Ok_inv. inv_ok Hw. injection Hrun as <- <-.
  apply lift_Ok_inv in Hrun0 as [Hd ->]. injection Hrun1 as _ <-. destruct a0 as [d p].
  unfold alloc_rd in Hw. inv_ok Hw. injection Hrun as <- <-. injection Hrun0 as _ <-. injection Hw as <- <-.
  exists d, p. split; [done|]. split; [|done]. cbn. apply not_elem_of_dom, is_fresh.
Qed.

(** The state after one block. *)
Lemma init_blk_Ok_inv st o k u st' : entries (wld st) !! blk_loc k = Some o -> replacementData (base o) = None ->
  0 <= k < 2 ^ 32 -> 0 < assoc (geom st) -> init_blk k st = Ok (u, st') ->
  exists t d p r, put_slot (table st) (k / assoc (geom st)) (k mod assoc (geom st)) (blk_loc k) = Ok t /\
    rp_instantiateEntry (policy (wld st)) = Ok (d, p) /\ rds (wld st) !! r = None /\
    let b := set_up (blkSize (tags st)) k (ext o) in
    st' = mkTagSys (tags st) t (mkWorld p
      (<[blk_loc k := mkObject (mkReplaceableEntry (k / assoc (geom st)) (k mod assoc (geom st)) (Some r)) b]>
        (entries (wld st))) (<[r := mkReplacementData Uninit d]> (rds (wld st))) (curTick (wld st))).
Proof.
  intros He Hr Hk Ha Hi. unfold init_blk in Hi. inv_ok Hi. injection Hrun as <- <-.
  destruct (link_entry_Ok_inv _ _ o k _ _ He Hr Hk Ha Hrun0) as (t & Ht & ->).
  apply modify_blk_Ok_inv in Hrun1 as (o1 & b1 & He1 & [= <-] & ->). cbn in *.
  rewrite lookup_insert_eq in He1. injection He1 as <-.
  apply instantiate_Ok_inv in Hrun2 as (d & p & Hd & Hn & ->). cbn in *.
  apply onW_Ok_inv in Hrun3 as (w & Hs & ->). cbn in Hs. unfold set_replacementData in Hs. inv_ok Hs.
  apply deref_entry_Ok_inv in Hrun as [He2 ->]. cbn in He2. rewrite !insert_insert_eq, lookup_insert_eq in He2.
  injection He2 as <-. injection Hs as _ <-.
  apply modify_blk_Ok_inv in Hi as (o2 & b2 & He2 & [= <-] & ->). cbn in *.
  rewrite !insert_insert_eq, lookup_insert_eq in He2. injection He2 as <-. cbn.
  eexists t, d, p, _. split; [done|]. split; [done|]. split; [exact Hn|]. by rewrite !insert_insert_eq.
Qed.

Lemma div_mod_pair a k k' : 0 < a -> k / a = k' / a -> k mod a = k' mod a -> k = k'.
Proof. intros Ha E1 E2. rewrite (Z.div_mod k a), (Z.div_mod k' a) by lia. by rewrite E1, E2. Qed.

Lemma init_blk_step st k u st' : init_inv st k -> 0 <= k < numBlocks (tags st) ->
  init_blk k st = Ok (u, st') -> init_inv st' (k + 1) /\ tags st' = tags st /\ curTick (wld st') = curTick (wld st).
Proof.
  intros Hi Hk Hb. destruct (ii_all _ _ Hi k Hk) as (o & He & B). pose proof (ii_small _ _ Hi) as Hsm.
  pose proof (ip_geometry_ok _ (ii_ip _ _ Hi)) as (n & _ & _ & _ & _ & _ & _ & _ & Ha).
  destruct (init_blk_Ok_inv st o k u st' He (bs_raw _ _ _ _ _ _ B ltac:(lia)) ltac:(lia) (proj1 Ha) Hb)
    as (t & d & p & r & Ht & Hd & Hn & ->).
  pose proof (ii_num _ _ Hi) as Hnum. unfold geom in Hnum.
  destruct (put_slot_Ok (geom st) (table st) (k / assoc (geom st)) (k mod assoc (geom st)) (blk_loc k) (ii_sets _ _ Hi))
    as (t' & Ht' & Hok & Hslot).
  { split; [apply Z.div_pos; unfold geom; lia|]. apply Z.div_lt_upper_bound; unfold geom; lia. }
  { apply Z.mod_pos_bound. unfold geom. lia. }
  rewrite Ht in Ht'. injection Ht' as <-. split; [|done].
  constructor; cbn; try apply Hi; try done.
  - intros k' Hk'. destruct (decide (k' = k)) as [->|Hne].
    + eexists. rewrite lookup_insert_eq. split; [done|]. destruct B as [B1 B2 B3 B4 B5].
      constructor; cbn; try done; [|lia|].
      { rewrite decide_True, B3, decide_False by lia. done. }
      intros _. do 3 (split; [done|]). eexists r, _. split; [done|]. apply lookup_insert_eq.
    + destruct (ii_all _ _ Hi k' Hk') as (o' & He' & [B1 B2 Bx B3 B4]). exists o'.
      rewrite lookup_insert_ne by (intros E%blk_loc_inj; lia). split; [done|].
      constructor; try done; [rewrite Bx; repeat destruct (decide _); done || lia|intros; apply B3; lia|].
      intros Hlt. destruct B4 as (? & ? & ? & r' & rd' & R1 & R2); [lia|]. split_and!; try done. exists r', rd'. split; [done|].
      cbn [rds]. rewrite lookup_insert_ne; [done|]. intros ->. congruence.
  - intros e o' [[<- <-]|[_ He']]%lookup_insert_Some; [by exists k|by eapply (ii_only _ _ Hi)].
  - intros k' Hk'. change (geom _) with (geom st). rewrite Hslot.
    + case_decide as Hd'.
      { destruct Hd' as [E1 E2]. assert (k' = k) as -> by (apply (div_mod_pair (assoc (geom st))); [unfold geom; lia|done..]). done. }
      apply (ii_slot _ _ Hi). destruct (decide (k' = k)) as [->|]; [by destruct Hd'|lia].
    + apply Z.div_pos; unfold geom; lia.
    + apply Z.mod_pos_bound. unfold geom. lia.
  - assert (forall e' o' , entries (wld st) !! e' = Some o' -> replacementData (base o') <> Some r) as Hfr.
    { intros e' o' He' Hr'. destruct (ii_rd_known _ _ Hi e' o' r He' Hr'). congruence. }
    intros e e' o1 o2 r1 [[<- <-]|[_ H1]]%lookup_insert_Some [[<- <-]|[_ H2]]%lookup_insert_Some R1 R2; cbn in *; try done.
    + injection R1 as <-. by destruct (Hfr _ _ H2).
    + injection R2 as <-. by destruct (Hfr _ _ H1).
    + by eapply (ii_rd_inj _ _ Hi).
  - intros e o1 r1 [[<- <-]|[_ H1]]%lookup_insert_Some R1; cbn in *.
    + injection R1 as <-. rewrite lookup_insert_eq. eauto.
    + destruct (ii_rd_known _ _ Hi _ _ _ H1 R1) as [rd Hrd]. rewrite lookup_insert_ne by congruence. eauto.
  - apply map_Forall_insert_2; [done|apply (ii_uninit _ _ Hi)].
  - unfold rp_data. cbn. rewrite fmap_insert. cbn. eapply rp_instantiate_inv; [apply (ii_rp _ _ Hi)|done|].
    by rewrite lookup_fmap, Hn.
Qed.

Lemma tagsInit_loop m st k u st' : 0 <= k -> k + Z.of_nat m = numBlocks (tags st) -> init_inv st k ->
  foreach (seqZ k (Z.of_nat m)) (fun _ i => do* init_blk i ;; ret (Continue tt)) tt st = Ok (u, st') ->
  init_inv st' (numBlocks (tags st')) /\ tags st' = tags st /\ curTick (wld st') = curTick (wld st).
Proof.
  revert st k. induction m as [|m IH]; intros st k Hk Em Hi Hrun.
  - injection Hrun as _ <-. by replace (numBlocks (tags st)) with k by lia.
  - rewrite seqZ_cons in Hrun by lia. cbn [foreach] in Hrun. inv_ok Hrun. inv_ok Hrun0. injection Hrun0 as <- <-.
    destruct (init_blk_step st k _ _ Hi ltac:(lia) Hrun1) as (Hi1 & E1 & C1).
    replace (Z.pred (Z.of_nat (S m))) with (Z.of_nat m) in Hrun by lia. change (Z.succ k) with (k + 1) in Hrun.
    destruct (IH s0 (k + 1)) as (Hi2 & E2 & C2); [lia|rewrite E1; lia|done|done|]. split; [done|]. split; congruence.
Qed.

(** Where [tagsInit] starts: no data, no pointers in the table, invalid blocks. *)
Record fresh_tags st : Prop := {
  ft_ip : ip_ok (indexingPolicy (tags st));
  ft_sets : sets_ok (geom st) (table st);
  ft_max : numSets (geom st) <= max_sets;
  ft_num : numBlocks (tags st) = numSets (geom st) * assoc (geom st);
  ft_small : numBlocks (tags st) <= 2 ^ 32;
  ft_blks : entries (wld st) = raw_blks (numBlocks (tags st)) b0 /\ isValid b0 = false /\ _secure b0 = false;
  ft_rds : rds (wld st) = ∅;
  ft_rp : rp_inv (policy (wld st)) ∅;
}.

Lemma fresh_init st : fresh_tags st -> init_inv st 0.
Proof.
  intros Hf. destruct (ft_blks _ Hf) as (Eb & V & Sec).
  assert (forall e o, entries (wld st) !! e = Some o -> replacementData (base o) = None) as Hnone.
  { intros e o He. rewrite Eb in He. by apply raw_blks_lookup in He as (k & _ & _ & ->). }
  constructor; try apply Hf.
  - intros k Hk. exists (mkObject new_ReplaceableEntry b0). rewrite Eb. split; [apply raw_blks_lookup; by exists k|].
    constructor; try done; [cbn; by rewrite decide_False by lia|lia].
  - intros e o He. rewrite Eb in He. apply raw_blks_lookup in He as (k & Hk & -> & _). eauto.
  - intros; lia.
  - intros e e' o o' r He _ R. by rewrite (Hnone _ _ He) in R.
  - intros e o r He R. by rewrite (Hnone _ _ He) in R.
  - rewrite (ft_rds _ Hf). apply map_Forall_empty.
  - unfold rp_data. rewrite (ft_rds _ Hf), fmap_empty. apply (ft_rp _ Hf).
Qed.

Lemma tagsInit_spec st u st' : fresh_tags st -> tagsInit st = Ok (u, st') ->
  tags_inv st' /\ contents st' = ∅ /\ tags st' = tags st /\
  map_Forall (fun _ rd => entry rd = Uninit) (rds (wld st')) /\ curTick (wld st') = curTick (wld st) /\
  forall e o, entries (wld st') !! e = Some o -> exists k, 0 <= k < numBlocks (tags st') /\ e = blk_loc k /\
    ext o = set_up (blkSize (tags st')) k b0.
Proof.
  intros Hf Hrun. unfold tagsInit in Hrun. inv_ok Hrun. injection Hrun0 as <- <-.
  assert (0 <= numBlocks (tags st)) as Hn.
  { destruct (ip_geometry_ok _ (ft_ip _ Hf)) as (n & ? & En & _ & _ & _ & _ & _ & ?). rewrite (ft_num _ Hf). unfold geom.
    rewrite En. pose proof (Z.pow_pos_nonneg 2 n). nia. }
  rewrite <- (Z2Nat.id (numBlocks (tags st))) in Hrun by done.
  destruct (tagsInit_loop (Z.to_nat (numBlocks (tags st))) st 0 u st') as (Hi & E & Ec); [done|lia|by apply fresh_init|done|].
  destruct (init_done st' Hi). split_and!; try done; [apply (ii_uninit _ _ Hi)|].
  intros e o He. destruct (ii_only _ _ Hi e o He) as (k & Hk & ->). exists k. split; [done|]. split; [done|].
  destruct (ii_all _ _ Hi k Hk) as (o' & He' & B). rewrite He in He'. injection He' as <-.
  rewrite (bs_ext _ _ _ _ _ _ B). by rewrite decide_True by lia.
Qed.
End Init.
