(* ===== verification/FALRU.v ===== *)
(** The fully associative LRU tag store: [mem/cache/tags/fa_lru.hh], [fa_lru.cc],
    with its tracking of the smaller caches that would have hit.

    A pointer to a block is its index in the array [blks]; [fa_geometry] is the
    geometry of the extractor a block would have, were one registered.
    Statistics are kept as numbers. *)
From Stdlib Require Import ZArith Lia Bool.
From stdpp Require Import base numbers gmap list.
From S2P Require Import Prelude ReplBase Bitfield Intmath Double Indexing CacheBlk Partition Tags.
Local Open Scope Z_scope.

Record FALRUBlk := mkFALRUBlk {
  fa_blk : CacheBlk;
  fa_set : Z; fa_way : Z;
  fa_prev : option Z; fa_next : option Z;
  inCachesMask : Z;
}.

Record CacheTracking := mkTracking {
  ct_blkSize : Z; minTrackedSize : Z; numTrackedCaches : Z; inAllCachesMask : Z;
  boundaries : list (option Z);
  hits : list Z; misses : list Z; accesses : Z;
}.

Record FALRU := mkFALRU {
  fa_blkSize : Z; fa_blkMask : Z; fa_size : Z; fa_lookupLatency : Z; fa_maxRequestors : Z;
  fa_warmupBound : Z; fa_warmedUp : bool; fa_numBlocks : Z; fa_stats : BaseTagStats;
  fa_blks : list FALRUBlk; fa_head : option Z; fa_tail : option Z;
  tagHash : gmap (Z * bool) Z;
  cacheTracking : CacheTracking;
  fa_curTick : Z;
}.

Definition with_fa_blk (c : CacheBlk) (b : FALRUBlk) : FALRUBlk := mkFALRUBlk c (fa_set b) (fa_way b) (fa_prev b) (fa_next b) (inCachesMask b).
Definition with_position (set way : Z) (b : FALRUBlk) : FALRUBlk := mkFALRUBlk (fa_blk b) set way (fa_prev b) (fa_next b) (inCachesMask b).
Definition with_prev (p : option Z) (b : FALRUBlk) : FALRUBlk := mkFALRUBlk (fa_blk b) (fa_set b) (fa_way b) p (fa_next b) (inCachesMask b).
Definition with_next (p : option Z) (b : FALRUBlk) : FALRUBlk := mkFALRUBlk (fa_blk b) (fa_set b) (fa_way b) (fa_prev b) p (inCachesMask b).
Definition with_mask (m : Z) (b : FALRUBlk) : FALRUBlk := mkFALRUBlk (fa_blk b) (fa_set b) (fa_way b) (fa_prev b) (fa_next b) m.

Definition with_blks (l : list FALRUBlk) (s : FALRU) : FALRU :=
  mkFALRU (fa_blkSize s) (fa_blkMask s) (fa_size s) (fa_lookupLatency s) (fa_maxRequestors s) (fa_warmupBound s) (fa_warmedUp s) (fa_numBlocks s) (fa_stats s)
    l (fa_head s) (fa_tail s) (tagHash s) (cacheTracking s) (fa_curTick s).
Definition with_ends (h t : option Z) (s : FALRU) : FALRU :=
  mkFALRU (fa_blkSize s) (fa_blkMask s) (fa_size s) (fa_lookupLatency s) (fa_maxRequestors s) (fa_warmupBound s) (fa_warmedUp s) (fa_numBlocks s) (fa_stats s)
    (fa_blks s) h t (tagHash s) (cacheTracking s) (fa_curTick s).
Definition with_hash (h : gmap (Z * bool) Z) (s : FALRU) : FALRU :=
  mkFALRU (fa_blkSize s) (fa_blkMask s) (fa_size s) (fa_lookupLatency s) (fa_maxRequestors s) (fa_warmupBound s) (fa_warmedUp s) (fa_numBlocks s) (fa_stats s)
    (fa_blks s) (fa_head s) (fa_tail s) h (cacheTracking s) (fa_curTick s).
Definition with_tracking (c : CacheTracking) (s : FALRU) : FALRU :=
  mkFALRU (fa_blkSize s) (fa_blkMask s) (fa_size s) (fa_lookupLatency s) (fa_maxRequestors s) (fa_warmupBound s) (fa_warmedUp s) (fa_numBlocks s) (fa_stats s)
    (fa_blks s) (fa_head s) (fa_tail s) (tagHash s) c (fa_curTick s).
Definition with_fa_stats (w : bool) (st : BaseTagStats) (s : FALRU) : FALRU :=
  mkFALRU (fa_blkSize s) (fa_blkMask s) (fa_size s) (fa_lookupLatency s) (fa_maxRequestors s) (fa_warmupBound s) w (fa_numBlocks s) st
    (fa_blks s) (fa_head s) (fa_tail s) (tagHash s) (cacheTracking s) (fa_curTick s).
Definition with_boundaries (l : list (option Z)) (c : CacheTracking) : CacheTracking :=
  mkTracking (ct_blkSize c) (minTrackedSize c) (numTrackedCaches c) (inAllCachesMask c) l (hits c) (misses c) (accesses c).

(** ** Construction *)
Definition new_CacheTracking (min_size max_size block_size : Z) : outcome CacheTracking :=
  let? n := (if min_size <? max_size then
    let? a := floorLog2 32 max_size in let? b := floorLog2 32 min_size in Ok (a - b) else Ok 0) in
  let? _ := ocheck (n <=? 32) Fatal in
  let zeros := replicate (Z.to_nat (n + 1)) 0 in
  Ok (mkTracking block_size min_size n (u32 (mask n)) (replicate (Z.to_nat n) None) zeros zeros 0).

(** [junk] is what the members without initialiser hold. *)
Definition new_FALRU (p : BaseSetAssocParams) (min_tracked_cache_size : Z) (manager : bool) (junk : Z) (tick : Z) : outcome FALRU :=
  let bs := u32 (p_block_size p) in
  let size := u32 (p_size p) in
  let? n := udiv (p_size p) (u64 (p_block_size p)) in
  let? bound := u32_of_double
    (dmul (ddiv (double_of_Z (p_warmup_percentage p)) (double_of_Z 100)) (double_of_Z n)) in
  let? ct := new_CacheTracking (u32 min_tracked_cache_size) size bs in
  let? _ := ocheck (isPowerOf2 32 bs) Fatal in
  let? _ := ocheck (isPowerOf2 32 size) Fatal in
  let? _ := ocheck (negb manager) Fatal in
  let? b := new_CacheBlk junk in
  Ok (mkFALRU bs (u32 (bs - 1)) size (p_tag_latency p) (p_max_requestors p) bound false (u32 n) (new_TagStats (p_max_requestors p))
    (replicate (Z.to_nat (u32 n)) (mkFALRUBlk b 0 0 None None 0)) None None ∅ ct tick).

(** ** Blocks through pointers *)
Definition get_block (p : option Z) (s : FALRU) : outcome FALRUBlk :=
  let? i := oget NullDeref p in vget (fa_blks s) i.
Definition set_block (p : option Z) (f : FALRUBlk -> FALRUBlk) (s : FALRU) : outcome FALRU :=
  let? i := oget NullDeref p in
  let? b := vget (fa_blks s) i in
  let? l := vset (fa_blks s) i (f b) in Ok (with_blks l s).
(** [&blks[i]], which may be one past the end. *)
Definition address_of (i : Z) (s : FALRU) : outcome (option Z) :=
  let? _ := ocheck ((0 <=? i) && (i <=? vsize (fa_blks s))) IndexOutOfRange in Ok (Some i).

Definition same_ptr (p q : option Z) : bool := bool_decide (p = q).

(** ** The caches that are tracked *)

(** The loop of [init]. *)
Fixpoint track_loop (fuel : nat) (blk tail : option Z) (curr_size tracked_cache_size in_caches_mask j : Z) (s : FALRU) : outcome FALRU :=
  match fuel, blk with
  | _, None => Ok s
  | O, _ => Fault OutOfFuel
  | Datatypes.S fuel', Some _ =>
      let? s := set_block blk (with_mask in_caches_mask) s in
      let curr_size := u32 (curr_size + ct_blkSize (cacheTracking s)) in
      let? t := (if (curr_size =? tracked_cache_size) && negb (same_ptr blk tail) then
        let? l := vset (boundaries (cacheTracking s)) j blk in
        let? bit := shl32 1 j in
        Ok (u32 (Z.shiftl tracked_cache_size 1), Z.land in_caches_mask (u32 (Z.lnot bit)), j + 1, with_tracking (with_boundaries l (cacheTracking s)) s)
      else Ok (tracked_cache_size, in_caches_mask, j, s)) in
      let '(tracked_cache_size, in_caches_mask, j, s) := t in
      let? b := get_block blk s in
      track_loop fuel' (fa_next b) tail curr_size tracked_cache_size in_caches_mask j s
  end.

Definition track_init (head tail : option Z) (s : FALRU) : outcome FALRU :=
  let c := cacheTracking s in
  track_loop (length (fa_blks s)) (if negb (numTrackedCaches c =? 0) then head else None) tail 0 (minTrackedSize c) (inAllCachesMask c) 0 s.

(** The loop of [check], which is there in a debug build. *)
Fixpoint check_loop (fuel : nat) (blk tail : option Z) (curr_size tracked_cache_size in_caches_mask j : Z) (s : FALRU) : outcome unit :=
  match fuel, blk with
  | _, None => Ok tt
  | O, _ => Fault OutOfFuel
  | Datatypes.S fuel', Some _ =>
      let? b := get_block blk s in
      let? _ := ocheck (inCachesMask b =? in_caches_mask) Panic in
      let curr_size := u32 (curr_size + ct_blkSize (cacheTracking s)) in
      let? t := (if (curr_size =? tracked_cache_size) && negb (same_ptr blk tail) then
        let? d := vget (boundaries (cacheTracking s)) j in
        let? _ := ocheck (same_ptr d blk) Panic in
        let? bit := shl32 1 j in
        Ok (u32 (Z.shiftl tracked_cache_size 1), Z.land in_caches_mask (u32 (Z.lnot bit)), j + 1)
      else Ok (tracked_cache_size, in_caches_mask, j)) in
      check_loop fuel' (fa_next b) tail curr_size t.1.1 t.1.2 t.2 s
  end.

Definition check (head tail : option Z) (s : FALRU) : outcome unit :=
  let c := cacheTracking s in check_loop (length (fa_blks s)) head tail 0 (minTrackedSize c) (inAllCachesMask c) 0 s.

(** One cache of [moveBlockToHead], and of [moveBlockToTail]. *)
Definition head_step (blk : option Z) (update_caches_mask : Z) (i : Z) (s : FALRU) : outcome FALRU :=
  let? current_cache_mask := shl32 1 i in
  let? d := vget (boundaries (cacheTracking s)) i in
  if negb (Z.land current_cache_mask update_caches_mask =? 0) then
    let? s := set_block d (fun b => with_mask (Z.land (inCachesMask b) (u32 (Z.lnot current_cache_mask))) b) s in
    let? b := get_block d s in
    let? l := vset (boundaries (cacheTracking s)) i (fa_prev b) in Ok (with_tracking (with_boundaries l (cacheTracking s)) s)
  else if same_ptr d blk then
    let? b := get_block blk s in
    let? l := vset (boundaries (cacheTracking s)) i (fa_prev b) in Ok (with_tracking (with_boundaries l (cacheTracking s)) s)
  else Ok s.

Definition tail_step (blk : option Z) (update_caches_mask : Z) (i : Z) (s : FALRU) : outcome FALRU :=
  let? current_cache_mask := shl32 1 i in
  if negb (Z.land current_cache_mask update_caches_mask =? 0) then
    let? d := vget (boundaries (cacheTracking s)) i in
    let? b := get_block d s in
    let? e := (if same_ptr (fa_next b) blk then let? b := get_block blk s in Ok (fa_next b) else Ok (fa_next b)) in
    let? l := vset (boundaries (cacheTracking s)) i e in
    set_block e (fun b => with_mask (Z.lor (inCachesMask b) current_cache_mask) b) (with_tracking (with_boundaries l (cacheTracking s)) s)
  else Ok s.

Fixpoint each_cache (step : Z -> FALRU -> outcome FALRU) (l : list Z) (s : FALRU) : outcome FALRU :=
  match l with
  | [] => Ok s
  | i :: l' => let? s := step i s in each_cache step l' s
  end.

Definition moveBlockToHead (blk : option Z) (s : FALRU) : outcome FALRU :=
  let? b := get_block blk s in
  let update_caches_mask := Z.lxor (inAllCachesMask (cacheTracking s)) (inCachesMask b) in
  let? s := each_cache (head_step blk update_caches_mask) (seqZ 0 (numTrackedCaches (cacheTracking s))) s in
  set_block blk (with_mask (inAllCachesMask (cacheTracking s))) s.

Definition moveBlockToTail (blk : option Z) (s : FALRU) : outcome FALRU :=
  let? b := get_block blk s in
  let? s := each_cache (tail_step blk (inCachesMask b)) (seqZ 0 (numTrackedCaches (cacheTracking s))) s in
  set_block blk (with_mask 0) s.

(** [hits[i]++]. *)
Definition count (l : list Z) (i : Z) : outcome (list Z) := let? n := vget l i in vset l i (n + 1).

Definition record_in (hit : bool) (i : Z) (c : CacheTracking) : outcome CacheTracking :=
  let? h := (if hit then count (hits c) i else Ok (hits c)) in
  let? m := (if hit then Ok (misses c) else count (misses c) i) in
  Ok (mkTracking (ct_blkSize c) (minTrackedSize c) (numTrackedCaches c) (inAllCachesMask c) (boundaries c) h m (accesses c)).

Fixpoint record_each (b : option FALRUBlk) (l : list Z) (c : CacheTracking) : outcome CacheTracking :=
  match l with
  | [] => Ok c
  | i :: l' =>
      let? bit := shl32 1 i in
      let? c := record_in (match b with Some b => negb (Z.land bit (inCachesMask b) =? 0) | None => false end) i c in
      record_each b l' c
  end.

Definition recordAccess (blk : option Z) (s : FALRU) : outcome FALRU :=
  let c := cacheTracking s in
  let? b := match blk with Some _ => let? b := get_block blk s in Ok (Some b) | None => Ok None end in
  let? c := record_each b (seqZ 0 (numTrackedCaches c)) c in
  let? c := record_in (match b with Some b => isValid (fa_blk b) | None => false end) (numTrackedCaches c) c in
  Ok (with_tracking (mkTracking (ct_blkSize c) (minTrackedSize c) (numTrackedCaches c) (inAllCachesMask c) (boundaries c) (hits c) (misses c)
    (accesses c + 1)) s).

(** ** The list of the blocks *)
(** The neighbours of a block in the middle hear that it leaves. *)
Definition unlink (blk : option Z) (s : FALRU) : outcome FALRU :=
  let? b := get_block blk s in
  let? s := set_block (fa_prev b) (with_next (fa_next b)) s in
  let? b := get_block blk s in
  set_block (fa_next b) (with_prev (fa_prev b)) s.

Definition link_head (blk : option Z) (s : FALRU) : outcome FALRU :=
  let? s := (if same_ptr blk (fa_tail s) then
    let? b := get_block blk s in
    let? _ := ocheck (same_ptr (fa_next b) None) AssertFailed in
    let s := with_ends (fa_head s) (fa_prev b) s in
    set_block (fa_tail s) (with_next None) s
  else unlink blk s) in
  let? s := set_block blk (with_next (fa_head s)) s in
  let? s := set_block blk (with_prev None) s in
  let? s := set_block (fa_head s) (with_prev blk) s in
  Ok (with_ends blk (fa_tail s) s).

Definition link_tail (blk : option Z) (s : FALRU) : outcome FALRU :=
  let? s := (if same_ptr blk (fa_head s) then
    let? b := get_block blk s in
    let? _ := ocheck (same_ptr (fa_prev b) None) AssertFailed in
    let s := with_ends (fa_next b) (fa_tail s) s in
    set_block (fa_head s) (with_prev None) s
  else unlink blk s) in
  let? s := set_block blk (with_prev (fa_tail s)) s in
  let? s := set_block blk (with_next None) s in
  let? s := set_block (fa_tail s) (with_next blk) s in
  Ok (with_ends (fa_head s) blk s).

Definition moveToHead (blk : option Z) (s : FALRU) : outcome FALRU :=
  if same_ptr blk (fa_head s) then Ok s else let? s := moveBlockToHead blk s in link_head blk s.

Definition moveToTail (blk : option Z) (s : FALRU) : outcome FALRU :=
  if same_ptr blk (fa_tail s) then Ok s else let? s := moveBlockToTail blk s in link_tail blk s.

(** ** [tagsInit] *)
Definition place_block (blk : option Z) (prev next : option Z) (i : Z) (s : FALRU) : outcome FALRU :=
  set_block blk (fun b => with_fa_blk (set_data (u32 (fa_blkSize s * i)) (fa_blk b)) (with_position 0 i (with_next next (with_prev prev b)))) s.

Fixpoint place_blocks (l : list Z) (s : FALRU) : outcome FALRU :=
  match l with
  | [] => Ok s
  | i :: l' =>
      let? p := address_of (i - 1) s in
      let? n := address_of (i + 1) s in
      let? s := place_block (Some i) p n i s in place_blocks l' s
  end.

Definition fa_tagsInit (s : FALRU) : outcome FALRU :=
  let n := fa_numBlocks s in
  let? h := address_of 0 s in
  let s := with_ends h (fa_tail s) s in
  let? p := address_of 1 s in
  let? s := place_block h None p 0 s in
  let? s := place_blocks (seqZ 1 (u32 (n - 1) - 1)) s in
  let? t := address_of (u32 (n - 1)) s in
  let s := with_ends h t s in
  let? p := address_of (u32 (n - 2)) s in
  let? s := place_block t p None (u32 (n - 1)) s in
  track_init (fa_head s) (fa_tail s) s.

(** ** The tag store *)
Definition fa_extractTag (addr : Z) (s : FALRU) : Z := Z.land addr (lnot64 (fa_blkMask s)).
Definition fa_regenerateBlkAddr (blk : option Z) (s : FALRU) : outcome Z := let? b := get_block blk s in Ok (_tag (fa_blk b)).

Definition fa_findBlock (key : KeyType) (s : FALRU) : outcome (option Z) :=
  let tag := fa_extractTag (key_address key) s in
  let blk := tagHash s !! (tag, key_secure key) in
  match blk with
  | None => Ok None
  | Some _ =>
      let? b := get_block blk s in
      let? _ := ocheck (negb (isValid (fa_blk b)) || (_tag (fa_blk b) =? tag)) AssertFailed in
      let? _ := ocheck (negb (isValid (fa_blk b)) || eqb (_secure (fa_blk b)) (key_secure key)) AssertFailed in
      Ok blk
  end.

(** The block, the latency and the mask. *)
Definition fa_accessBlock (pkt : Packet) (s : FALRU) : outcome (option Z * Z * Z * FALRU) :=
  let? blk := fa_findBlock (mkKey (pkt_addr pkt) (pkt_secure pkt)) s in
  let? r := match blk with
    | Some _ =>
        let? b := get_block blk s in
        if isValid (fa_blk b) then let? s := moveToHead blk s in Ok (inCachesMask b, s) else Ok (0, s)
    | None => Ok (0, s)
    end in
  let? s := recordAccess blk r.2 in Ok (blk, fa_lookupLatency s, r.1, s).

Definition fa_findBlockBySetAndWay (set way : Z) (s : FALRU) : outcome (option Z) :=
  let? _ := ocheck (set =? 0) AssertFailed in address_of way s.

Definition fa_findVictim (s : FALRU) : option Z * list (option Z) := (fa_tail s, [fa_tail s]).

Definition fa_moveBlock (src_blk dest_blk : option Z) (s : FALRU) : outcome FALRU := Fault Panic.

Section Store.
Context (fa_geometry : Geometry).

(** [BaseTags::insertBlock]. *)
Definition fa_base_insertBlock (pkt : Packet) (blk : option Z) (s : FALRU) : outcome FALRU :=
  let? b := get_block blk s in
  let? _ := ocheck (negb (isValid (fa_blk b))) AssertFailed in
  let? _ := ocheck (pkt_requestor pkt <? fa_maxRequestors s) AssertFailed in
  let? st := st_occupancy (pkt_requestor pkt) 1 (fa_stats s) in
  let s := with_fa_stats (fa_warmedUp s) st s in
  let? c := CacheBlk.insert fa_geometry (fa_curTick s) (mkKey (pkt_addr pkt) (pkt_secure pkt)) (pkt_requestor pkt) (pkt_task pkt) 0 (fa_blk b) in
  let? s := set_block blk (with_fa_blk c) s in
  let s := if negb (fa_warmedUp s) && (fa_warmupBound s <=? tagsInUse (fa_stats s))
    then with_fa_stats true (st_warmup (fa_curTick s) (fa_stats s)) s else s in
  Ok (with_fa_stats (fa_warmedUp s) (st_accesses 1 1 (fa_stats s)) s).

Definition fa_insertBlock (pkt : Packet) (blk : option Z) (s : FALRU) : outcome FALRU :=
  let? b := get_block blk s in
  let? _ := ocheck (inCachesMask b =? 0) AssertFailed in
  let? s := fa_base_insertBlock pkt blk s in
  let s := with_fa_stats (fa_warmedUp s) (st_tagsInUse 1 (fa_stats s)) s in
  let? s := moveToHead blk s in
  let? b := get_block blk s in
  let? i := oget NullDeref blk in
  Ok (with_hash (<[(_tag (fa_blk b), _secure (fa_blk b)) := i]> (tagHash s)) s).

(** [BaseTags::invalidate]. *)
Definition fa_base_invalidate (blk : option Z) (s : FALRU) : outcome FALRU :=
  let? b := get_block blk s in
  let? _ := ocheck (isValid (fa_blk b)) AssertFailed in
  let? st := st_occupancy (u32 (_srcRequestorId (fa_blk b))) (-1) (fa_stats s) in
  let? c := CacheBlk.invalidate (fa_blk b) in
  set_block blk (with_fa_blk c) (with_fa_stats (fa_warmedUp s) (st_refs (_refCount (fa_blk b)) 1 st) s).

Definition fa_invalidate (blk : option Z) (s : FALRU) : outcome FALRU :=
  let? b := get_block blk s in
  let key := (_tag (fa_blk b), _secure (fa_blk b)) in
  let? _ := ocheck (bool_decide (is_Some (tagHash s !! key))) AssertFailed in
  let? s := fa_base_invalidate blk (with_hash (delete key (tagHash s)) s) in
  moveToTail blk (with_fa_stats (fa_warmedUp s) (st_tagsInUse (-1) (fa_stats s)) s).
End Store.
