(* ===== verification/FALRUInv.v ===== *)
(** The list of the blocks of the fully associative LRU tag store, and the caches
    tracked with it: its moves, [tagsInit] and the check of a debug build. *)
From Stdlib Require Import ZArith Lia Bool.
From stdpp Require Import base numbers gmap list.
From S2P Require Import Prelude ReplBase Bitfield Intmath Double Indexing CacheBlk Partition Tags FALRU.
Local Open Scope Z_scope.

(** ** Lists without repetition *)

(** What comes after an element. *)
Fixpoint next_in (l : list Z) (x : Z) : option Z :=
  match l with
  | [] => None
  | y :: l' => if decide (x = y) then head l' else next_in l' x
  end.
Definition prev_in (l : list Z) (x : Z) : option Z := next_in (reverse l) x.

Lemma next_in_app l l' x : next_in (l ++ l') x = if decide (x ∈ l) then (if decide (last l = Some x /\ next_in l x = None) then head l' else next_in l x) else next_in l' x.
Proof.
  induction l as [|y l IH]; [by rewrite decide_False by apply not_elem_of_nil|]. cbn [app next_in]. destruct (decide (x = y)) as [->|Hne].
  - rewrite decide_True by (by left). destruct l as [|z l]; cbn.
    + by rewrite decide_True.
    + rewrite decide_False; [done|]. by intros [_ ?].
  - rewrite IH. destruct (decide (x ∈ l)) as [Hx|Hx].
    + rewrite (decide_True (P := x ∈ y :: l)) by (by right). destruct l as [|z l]; [by apply not_elem_of_nil in Hx|]. done.
    + rewrite (decide_False (P := x ∈ y :: l)); [done|]. rewrite elem_of_cons. tauto.
Qed.

Lemma next_in_None l x : NoDup l -> x ∈ l -> next_in l x = None <-> last l = Some x.
Proof.
  induction l as [|y l IH]; intros Hn Hx; [by apply not_elem_of_nil in Hx|]. apply NoDup_cons in Hn as [Hy Hn]. cbn [next_in].
  destruct l as [|z l]; [apply list_elem_of_singleton in Hx as ->; by rewrite decide_True|]. change (last (y :: z :: l)) with (last (z :: l)).
  apply elem_of_cons in Hx as [->|Hx].
  - rewrite decide_True by done. cbn [head]. split; [done|]. intros E. exfalso. by apply Hy, last_Some_elem_of.
  - rewrite decide_False by (by intros ->). by apply IH.
Qed.

(** In two parts. *)
Lemma next_in_parts l l' x : NoDup l -> next_in (l ++ l') x = if decide (last l = Some x) then head l' else if decide (x ∈ l) then next_in l x else next_in l' x.
Proof.
  intros Hn. rewrite next_in_app. destruct (decide (x ∈ l)) as [Hx|Hx].
  - destruct (decide (last l = Some x)) as [E|E].
    + rewrite decide_True; [done|]. split; [done|]. by apply next_in_None.
    + by rewrite decide_False by tauto.
  - rewrite decide_False; [done|]. intros E. by apply Hx, last_Some_elem_of.
Qed.

(** An element is taken out. *)
Lemma next_in_remove l1 b l2 x : NoDup (l1 ++ b :: l2) -> x <> b ->
  next_in (l1 ++ l2) x = if decide (last l1 = Some x) then head l2 else next_in (l1 ++ b :: l2) x.
Proof.
  intros Hn Hx. apply NoDup_app in Hn as (H1 & _ & _). rewrite !next_in_parts by done. destruct (decide (last l1 = Some x)); [done|].
  destruct (decide (x ∈ l1)); [done|]. cbn [next_in]. by rewrite decide_False.
Qed.

(** An element is appended. *)
Lemma next_in_snoc l b x : NoDup l -> b ∉ l -> next_in (l ++ [b]) x = if decide (last l = Some x) then Some b else next_in l x.
Proof.
  intros Hn Hb. rewrite next_in_parts by done. destruct (decide (last l = Some x)); [done|]. destruct (decide (x ∈ l)) as [|Hx]; [done|].
  cbn. assert (next_in l x = None) as ->; [|by destruct (decide (x = b))]. clear -Hx. induction l as [|y l IH]; [done|]. cbn.
  apply not_elem_of_cons in Hx as [? ?]. rewrite decide_False by done. auto.
Qed.

Lemma next_in_self l1 b l2 : NoDup (l1 ++ b :: l2) -> next_in (l1 ++ b :: l2) b = head l2.
Proof.
  intros Hn. apply NoDup_app in Hn as (H1 & H2 & _). rewrite next_in_parts by done.
  assert (b ∉ l1) as Hb by (intros Hb; apply (H2 b Hb); by left). rewrite decide_False by (intros E; by apply Hb, last_Some_elem_of).
  rewrite decide_False by done. cbn. by rewrite decide_True.
Qed.

Lemma last_reverse {A} (l : list A) : last (reverse l) = head l.
Proof. rewrite <- head_reverse. by rewrite reverse_involutive. Qed.

Lemma NoDup_reverse {A} (l : list A) : NoDup l -> NoDup (reverse l).
Proof. by rewrite reverse_Permutation. Qed.

Lemma prev_in_self l1 b l2 : NoDup (l1 ++ b :: l2) -> prev_in (l1 ++ b :: l2) b = last l1.
Proof.
  intros Hn. unfold prev_in. rewrite reverse_app, reverse_cons, <- app_assoc. cbn [app]. rewrite next_in_self; [apply head_reverse|].
  apply NoDup_reverse in Hn. by rewrite reverse_app, reverse_cons, <- app_assoc in Hn.
Qed.

Lemma prev_in_remove l1 b l2 x : NoDup (l1 ++ b :: l2) -> x <> b ->
  prev_in (l1 ++ l2) x = if decide (head l2 = Some x) then last l1 else prev_in (l1 ++ b :: l2) x.
Proof.
  intros Hn Hx. unfold prev_in. apply NoDup_reverse in Hn. rewrite reverse_app, reverse_cons, <- app_assoc in Hn. cbn [app] in Hn.
  rewrite !reverse_app, reverse_cons, <- app_assoc. cbn [app]. rewrite (next_in_remove _ b) by done. by rewrite last_reverse, head_reverse.
Qed.

Lemma prev_in_cons b l x : NoDup l -> b ∉ l -> prev_in (b :: l) x = if decide (head l = Some x) then Some b else prev_in l x.
Proof.
  intros Hn Hb. unfold prev_in. rewrite reverse_cons, next_in_snoc; [by rewrite last_reverse|by apply NoDup_reverse|by rewrite elem_of_reverse].
Qed.

Lemma prev_in_snoc l b x : prev_in (l ++ [b]) x = if decide (x = b) then last l else prev_in l x.
Proof. unfold prev_in. rewrite reverse_snoc. cbn. by rewrite head_reverse. Qed.

(** ** Blocks *)
Definition null_blk : FALRUBlk := mkFALRUBlk (raw_CacheBlk 0) 0 0 None None 0.
Definition blk_at (s : FALRU) (x : Z) : FALRUBlk := default null_blk (fa_blks s !! Z.to_nat x).
Definition upd (x : Z) (f : FALRUBlk -> FALRUBlk) (s : FALRU) : FALRU := with_blks (<[Z.to_nat x := f (blk_at s x)]> (fa_blks s)) s.
#[local] Abbreviation inside s x := (0 <= x < vsize (fa_blks s)).

Lemma blk_found s x : inside s x -> fa_blks s !! Z.to_nat x = Some (blk_at s x).
Proof. intros Hx. destruct (lookup_Z _ _ Hx) as [b Hb]. unfold blk_at. by rewrite Hb. Qed.

Lemma get_run s x : inside s x -> get_block (Some x) s = Ok (blk_at s x).
Proof. intros Hx. unfold get_block. cbn [oget obind]. apply vget_Ok; [lia|by apply blk_found]. Qed.

Lemma set_run s x f : inside s x -> set_block (Some x) f s = Ok (upd x f s).
Proof.
  intros Hx. unfold set_block. cbn [oget obind]. rewrite (vget_Ok _ _ (blk_at s x)) by (lia || by apply blk_found). cbn [obind]. by rewrite vset_Ok.
Qed.

Lemma size_upd s x f : vsize (fa_blks (upd x f s)) = vsize (fa_blks s).
Proof. unfold upd, vsize. cbn. by rewrite length_insert. Qed.

Lemma at_upd s x y f : inside s x -> 0 <= y -> blk_at (upd x f s) y = if decide (y = x) then f (blk_at s x) else blk_at s y.
Proof.
  intros Hx Hy. unfold blk_at at 1, upd. cbn [fa_blks with_blks]. destruct (decide (y = x)) as [->|Hne].
  - rewrite list_lookup_insert_eq; [done|]. unfold vsize in Hx. lia.
  - rewrite list_lookup_insert_ne by lia. done.
Qed.

Lemma at_ends s h t x : blk_at (with_ends h t s) x = blk_at s x.
Proof. done. Qed.

(** The list of the blocks, from the most to the least recent. *)
Record linked (l : list Z) (s : FALRU) : Prop := {
  lk_nodup : NoDup l;
  lk_all : forall x, x ∈ l <-> inside s x;
  lk_ends : fa_head s = head l /\ fa_tail s = last l;
  lk_next : forall x, x ∈ l -> fa_next (blk_at s x) = next_in l x;
  lk_prev : forall x, x ∈ l -> fa_prev (blk_at s x) = prev_in l x;
}.

(** Nothing but the links changes. *)
Definition relinks (s s' : FALRU) : Prop := (exists h t bl, s' = with_ends h t (with_blks bl s)) /\ vsize (fa_blks s') = vsize (fa_blks s) /\
  forall x, inside s x -> inCachesMask (blk_at s' x) = inCachesMask (blk_at s x) /\ fa_blk (blk_at s' x) = fa_blk (blk_at s x).

Lemma relinks_refl s : relinks s s.
Proof. split; [exists (fa_head s), (fa_tail s), (fa_blks s); by destruct s|done]. Qed.

Lemma relinks_trans s1 s2 s3 : relinks s1 s2 -> relinks s2 s3 -> relinks s1 s3.
Proof.
  intros ((h & t & bl & ->) & E1 & H1) ((h' & t' & bl' & ->) & E2 & H2). split; [by exists h', t', bl'|]. split; [congruence|].
  intros x Hx. rewrite <- E1 in Hx. destruct (H2 x Hx) as [-> ->]. apply H1. by rewrite <- E1.
Qed.

Lemma relinks_ends s h t : relinks s (with_ends h t s).
Proof. split; [exists h, t, (fa_blks s); by destruct s|done]. Qed.

Lemma relinks_upd s x f : inside s x -> (forall b, inCachesMask (f b) = inCachesMask b /\ fa_blk (f b) = fa_blk b) -> relinks s (upd x f s).
Proof.
  intros Hx Hf. split; [exists (fa_head s), (fa_tail s), (<[Z.to_nat x := f (blk_at s x)]> (fa_blks s)); by destruct s|]. split; [apply size_upd|].
  intros y Hy. rewrite at_upd by (done || lia). destruct (decide (y = x)) as [->|]; [apply Hf|done].
Qed.

(** The list without [b], which is where it was. *)
Record cut (l1 : list Z) (b : Z) (l2 : list Z) (s : FALRU) : Prop := {
  ct_nodup : NoDup (l1 ++ b :: l2);
  ct_all : forall x, x ∈ l1 ++ b :: l2 <-> inside s x;
  ct_ends : fa_head s = head (l1 ++ l2) /\ fa_tail s = last (l1 ++ l2);
  ct_next : forall x, x ∈ l1 ++ l2 -> fa_next (blk_at s x) = next_in (l1 ++ l2) x;
  ct_prev : forall x, x ∈ l1 ++ l2 -> fa_prev (blk_at s x) = prev_in (l1 ++ l2) x;
}.

Lemma cut_intro l1 b l2 s s1 : linked (l1 ++ b :: l2) s -> relinks s s1 -> fa_head s1 = head (l1 ++ l2) /\ fa_tail s1 = last (l1 ++ l2) ->
  (forall x, inside s x -> x <> b -> fa_next (blk_at s1 x) = (if decide (last l1 = Some x) then head l2 else fa_next (blk_at s x)) /\
     fa_prev (blk_at s1 x) = (if decide (head l2 = Some x) then last l1 else fa_prev (blk_at s x))) ->
  cut l1 b l2 s1.
Proof.
  intros [L1 L2 L3 L4 L5] (_ & Hz & _) He Hf.
  assert (forall x, x ∈ l1 ++ l2 -> x ∈ l1 ++ b :: l2 /\ x <> b) as Hin.
  { intros x Hx. assert (x ∈ b :: l1 ++ l2) as Hx' by (by right). split; [by rewrite <- Permutation_middle|].
    intros ->. rewrite <- Permutation_middle in L1. by apply NoDup_cons in L1 as [? _]. }
  constructor; [done|intros x; rewrite Hz; apply L2|done| |]; intros x [Hx Hne]%Hin; destruct (Hf x (proj1 (L2 x) Hx) Hne) as [E1 E2].
  - rewrite E1, L4 by done. by rewrite (next_in_remove l1 b l2).
  - rewrite E2, L5 by done. by rewrite (prev_in_remove l1 b l2).
Qed.

Lemma mid_ptr l1 b l2 s : linked (l1 ++ b :: l2) s -> inside s b /\ fa_next (blk_at s b) = head l2 /\ fa_prev (blk_at s b) = last l1.
Proof.
  intros [L1 L2 L3 L4 L5]. assert (b ∈ l1 ++ b :: l2) as Hb by (apply elem_of_app; right; by left).
  split; [by apply L2|]. rewrite L4, L5 by done. split; [by apply next_in_self|by apply prev_in_self].
Qed.

Lemma other_inside l1 b l2 s x : linked (l1 ++ b :: l2) s -> x ∈ l1 \/ x ∈ l2 -> inside s x /\ x <> b.
Proof.
  intros [L1 L2 _ _ _] Hx. split; [apply L2; rewrite elem_of_app, elem_of_cons; tauto|]. intros ->.
  rewrite <- Permutation_middle in L1. apply NoDup_cons in L1 as [H _]. apply H, elem_of_app. done.
Qed.

(** A block leaves from the middle. *)
Lemma unlink_run l1 b l2 s : linked (l1 ++ b :: l2) s -> l1 <> [] -> l2 <> [] -> exists s1, unlink (Some b) s = Ok s1 /\ cut l1 b l2 s1 /\ relinks s s1.
Proof.
  intros L H1 H2. destruct (mid_ptr _ _ _ _ L) as (Hb & En & Ep). destruct (last l1) as [a|] eqn:Ea; [|by apply last_None in Ea].
  destruct l2 as [|c l2]; [done|]. cbn [head] in En. destruct (other_inside _ _ _ _ a L) as [Ha Hab]; [left; by apply last_Some_elem_of|].
  destruct (other_inside _ _ _ _ c L) as [Hc Hcb]; [right; by left|].
  unfold unlink. rewrite get_run by done. cbn [obind]. rewrite Ep, En, set_run by done. cbn [obind].
  rewrite get_run by (by rewrite size_upd). cbn [obind]. rewrite at_upd, decide_False, En, Ep by (done || lia). rewrite set_run by (by rewrite size_upd).
  eexists. split; [done|]. set (s1 := upd a _ s). assert (relinks s s1) as R1 by (by apply relinks_upd).
  assert (relinks s1 (upd c (with_prev (Some a)) s1)) as R2 by (apply relinks_upd; [by unfold s1; rewrite size_upd|done]).
  assert (relinks s (upd c (with_prev (Some a)) s1)) as R by (by eapply relinks_trans). split; [|done].
  destruct (lk_ends _ _ L) as [Eh Et]. apply (cut_intro l1 b (c :: l2) s); [done|done| |].
  - split.
    + change (fa_head s = head (l1 ++ c :: l2)). rewrite Eh. by destruct l1.
    + change (fa_tail s = last (l1 ++ c :: l2)). by rewrite Et, !last_app.
  - intros x Hx Hne. rewrite at_upd by (lia || (unfold s1; by rewrite size_upd)). unfold s1. rewrite !at_upd by (done || lia). rewrite Ea. cbn [head].
    repeat case_decide; simplify_eq; done.
Qed.

(** The tail leaves, and the head. *)
Lemma cut_tail l1 b s a : linked (l1 ++ [b]) s -> last l1 = Some a -> let s0 := with_ends (fa_head s) (Some a) s in
  set_block (Some a) (with_next None) s0 = Ok (upd a (with_next None) s0) /\ cut l1 b [] (upd a (with_next None) s0) /\ relinks s (upd a (with_next None) s0).
Proof.
  intros L Ea s0. destruct (other_inside _ _ _ _ a L) as [Ha Hab]; [left; by apply last_Some_elem_of|].
  assert (relinks s (upd a (with_next None) s0)) as R by (eapply relinks_trans; [apply relinks_ends|by apply relinks_upd]).
  split; [by apply set_run|]. split; [|exact R]. destruct (lk_ends _ _ L) as [Eh Et]. apply (cut_intro l1 b [] s); [done|done| |].
  - rewrite app_nil_r. split; [|done]. change (fa_head s = head l1). rewrite Eh. by destruct l1.
  - intros x Hx Hne. rewrite at_upd by (done || (cbn; lia)). rewrite Ea. cbn [head]. destruct (decide (x = a)) as [->|Hxa]; cbn; repeat case_decide; simplify_eq; done.
Qed.

Lemma cut_head b l2 s c : linked (b :: l2) s -> head l2 = Some c -> let s0 := with_ends (Some c) (fa_tail s) s in
  set_block (Some c) (with_prev None) s0 = Ok (upd c (with_prev None) s0) /\ cut [] b l2 (upd c (with_prev None) s0) /\ relinks s (upd c (with_prev None) s0).
Proof.
  intros L Ec s0. destruct l2 as [|c' l2]; [done|]. injection Ec as ->. destruct (other_inside [] b (c :: l2) s c L) as [Hc Hcb]; [right; by left|].
  assert (relinks s (upd c (with_prev None) s0)) as R by (eapply relinks_trans; [apply relinks_ends|by apply relinks_upd]).
  split; [by apply set_run|]. split; [|exact R]. destruct (lk_ends _ _ L) as [Eh Et]. apply (cut_intro [] b (c :: l2) s); [done|done| |].
  - split; [done|]. change (fa_tail s = last ([] ++ c :: l2)). rewrite Et. done.
  - intros x Hx Hne. rewrite at_upd by (done || (cbn; lia)). cbn [head last]. destruct (decide (x = c)) as [->|Hxc]; cbn; repeat case_decide; simplify_eq; done.
Qed.

Lemma cut_out l1 b l2 s : cut l1 b l2 s -> inside s b /\ NoDup (l1 ++ l2) /\ (b ∉ l1 ++ l2) /\ forall x, x ∈ l1 ++ l2 -> inside s x /\ x <> b.
Proof.
  intros [C1 C2 _ _ _]. rewrite <- Permutation_middle in C1. apply NoDup_cons in C1 as [Hb Hn].
  assert (forall x, x = b \/ x ∈ l1 ++ l2 -> inside s x) as Hi by (intros x Hx; apply C2; rewrite <- Permutation_middle; by apply elem_of_cons).
  split; [by apply Hi; left|]. split; [done|]. split; [done|]. intros x Hx. split; [by apply Hi; right|by intros ->].
Qed.

Lemma put_head l1 b l2 s h : cut l1 b l2 s -> head (l1 ++ l2) = Some h ->
  let s1 := upd b (with_prev None) (upd b (with_next (Some h)) s) in let s2 := with_ends (Some b) (fa_tail s) (upd h (with_prev (Some b)) s1) in
  linked (b :: l1 ++ l2) s2 /\ relinks s s2.
Proof.
  intros C Eh s1 s2. destruct (cut_out _ _ _ _ C) as (Hb & Hn & Hnb & Hin). pose proof C as [C1 C2 [_ C3] C4 C5].
  assert (h ∈ l1 ++ l2) as Hh by (destruct (l1 ++ l2); [done|]; injection Eh as ->; by left). destruct (Hin h Hh) as [Ih Hhb].
  assert (vsize (fa_blks s1) = vsize (fa_blks s)) as Z1 by (unfold s1; by rewrite !size_upd).
  assert (forall x, 0 <= x -> blk_at s2 x = if decide (x = h) then with_prev (Some b) (blk_at s h) else if decide (x = b) then with_prev None (with_next (Some h) (blk_at s b)) else blk_at s x) as At.
  { intros x Hx. unfold s2. rewrite at_ends, at_upd by (rewrite ?Z1; done). unfold s1. rewrite !at_upd by (rewrite ?size_upd; done || lia).
    repeat case_decide; simplify_eq; done. }
  split.
  - constructor.
    + by apply NoDup_cons.
    + intros x. cbn [s2 fa_blks with_ends]. rewrite size_upd, Z1, <- C2. by rewrite <- Permutation_middle.
    + split; [done|]. change (fa_tail s = last (b :: l1 ++ l2)). rewrite C3. destruct (l1 ++ l2); [done|]. done.
    + intros x Hx. apply elem_of_cons in Hx as [->|Hx].
      * rewrite At, decide_False, decide_True by (done || lia). cbn. by rewrite decide_True.
      * destruct (Hin x Hx) as [Ix Hne]. rewrite At by lia. cbn [next_in]. rewrite !(decide_False (P := x = b)) by done.
        rewrite <- C4 by done.
        case_decide as E; [by rewrite E|done].
    + intros x Hx. rewrite prev_in_cons by done. apply elem_of_cons in Hx as [->|Hx].
      * rewrite At, decide_False, decide_True by (done || lia). cbn. rewrite Eh, decide_False by congruence. unfold prev_in. symmetry.
        clear -Hnb. rewrite <- elem_of_reverse in Hnb. induction (reverse (l1 ++ l2)) as [|y l IH]; [done|]. cbn. apply not_elem_of_cons in Hnb as [? ?].
        rewrite decide_False by done. auto.
      * destruct (Hin x Hx) as [Ix Hne]. rewrite At by lia. rewrite Eh, (decide_False (P := x = b)) by done. rewrite <- C5 by done.
        repeat case_decide; simplify_eq; done.
  - eapply relinks_trans; [|apply relinks_ends]. assert (relinks s s1) as R1.
    { eapply relinks_trans; [by apply (relinks_upd s b (with_next (Some h)))|]. apply relinks_upd; [by rewrite size_upd|done]. }
    eapply relinks_trans; [exact R1|]. apply relinks_upd; [by rewrite Z1|done].
Qed.

Lemma put_tail l1 b l2 s t : cut l1 b l2 s -> last (l1 ++ l2) = Some t ->
  let s1 := upd b (with_next None) (upd b (with_prev (Some t)) s) in let s2 := with_ends (fa_head s) (Some b) (upd t (with_next (Some b)) s1) in
  linked ((l1 ++ l2) ++ [b]) s2 /\ relinks s s2.
Proof.
  intros C Et s1 s2. destruct (cut_out _ _ _ _ C) as (Hb & Hn & Hnb & Hin). pose proof C as [C1 C2 [C3 _] C4 C5].
  assert (t ∈ l1 ++ l2) as Ht by (by apply last_Some_elem_of). destruct (Hin t Ht) as [It Htb].
  assert (vsize (fa_blks s1) = vsize (fa_blks s)) as Z1 by (unfold s1; by rewrite !size_upd).
  assert (forall x, 0 <= x -> blk_at s2 x = if decide (x = t) then with_next (Some b) (blk_at s t) else if decide (x = b) then with_next None (with_prev (Some t) (blk_at s b)) else blk_at s x) as At.
  { intros x Hx. unfold s2. rewrite at_ends, at_upd by (rewrite ?Z1; done). unfold s1. rewrite !at_upd by (rewrite ?size_upd; done || lia).
    repeat case_decide; simplify_eq; done. }
  split.
  - constructor.
    + rewrite (Permutation_app_comm _ [b]). by apply NoDup_cons.
    + intros x. cbn [s2 fa_blks with_ends]. rewrite size_upd, Z1, <- C2. rewrite !elem_of_app, !elem_of_cons, elem_of_nil. tauto.
    + split; [|by rewrite last_snoc]. change (fa_head s = head ((l1 ++ l2) ++ [b])). rewrite C3. by destruct (l1 ++ l2).
    + intros x Hx. rewrite next_in_snoc by done. apply elem_of_app in Hx as [Hx| ->%list_elem_of_singleton].
      * destruct (Hin x Hx) as [Ix Hne]. rewrite At by lia. rewrite Et, (decide_False (P := x = b)) by done. rewrite <- C4 by done.
        repeat case_decide; simplify_eq; done.
      * rewrite At, decide_False, decide_True by (done || lia). cbn. rewrite Et, decide_False by congruence. symmetry.
        clear -Hnb. induction (l1 ++ l2) as [|y l IH]; [done|]. cbn. apply not_elem_of_cons in Hnb as [? ?]. rewrite decide_False by done. auto.
    + intros x Hx. rewrite prev_in_snoc. apply elem_of_app in Hx as [Hx| ->%list_elem_of_singleton].
      * destruct (Hin x Hx) as [Ix Hne]. rewrite At by lia. rewrite !(decide_False (P := x = b)) by done. rewrite <- C5 by done. case_decide as E; [by rewrite E|done].
      * rewrite At, decide_False, decide_True by (done || lia). cbn. by rewrite decide_True.
  - eapply relinks_trans; [|apply relinks_ends]. assert (relinks s s1) as R1.
    { eapply relinks_trans; [by apply (relinks_upd s b (with_prev (Some t)))|]. apply relinks_upd; [by rewrite size_upd|done]. }
    eapply relinks_trans; [exact R1|]. apply relinks_upd; [by rewrite Z1|done].
Qed.

(** The block is linked in again. *)
Lemma link_head_run l1 b l2 s : linked (l1 ++ b :: l2) s -> l1 <> [] -> exists s', link_head (Some b) s = Ok s' /\ linked (b :: l1 ++ l2) s' /\ relinks s s'.
Proof.
  intros L H1. destruct (mid_ptr _ _ _ _ L) as (Hb & En & Ep). destruct (lk_ends _ _ L) as [Eh Et].
  assert (exists s1, (if same_ptr (Some b) (fa_tail s) then
      let? b := get_block (Some b) s in let? _ := ocheck (same_ptr (fa_next b) None) AssertFailed in
      set_block (fa_tail (with_ends (fa_head s) (fa_prev b) s)) (with_next None) (with_ends (fa_head s) (fa_prev b) s)
    else unlink (Some b) s) = Ok s1 /\ cut l1 b l2 s1 /\ relinks s s1) as (s1 & E1 & C & R1).
  { rewrite Et. destruct l2 as [|c l2].
    - destruct (last l1) as [a|] eqn:Ea; [|by apply last_None in Ea]. rewrite last_snoc. unfold same_ptr. rewrite bool_decide_eq_true_2, get_run by done.
      cbn [obind]. rewrite En, Ep, bool_decide_eq_true_2 by done. cbn [ocheck obind fa_tail with_ends]. destruct (cut_tail l1 b s a L Ea) as (E & ? & ?). eauto.
    - unfold same_ptr. rewrite bool_decide_eq_false_2; [by apply unlink_run|]. rewrite last_app_cons, last_cons_cons. intros E.
      assert (b ∈ c :: l2) as Hin by (by apply last_Some_elem_of). by destruct (other_inside _ _ _ _ b L (or_intror Hin)). }
  unfold link_head. rewrite E1. cbn [obind]. destruct (cut_out _ _ _ _ C) as (Hb1 & _ & _ & Hin). destruct (head (l1 ++ l2)) as [h|] eqn:Eh1; [|by destruct l1].
  assert (inside s1 h) as Hh by (apply Hin; destruct (l1 ++ l2); [done|]; injection Eh1 as ->; by left).
  rewrite (proj1 (ct_ends _ _ _ _ C)), Eh1. rewrite set_run by done. cbn [obind]. rewrite set_run by (by rewrite size_upd). cbn [obind].
  change (fa_head (upd b (with_prev None) (upd b (with_next (Some h)) s1))) with (fa_head s1). rewrite (proj1 (ct_ends _ _ _ _ C)), Eh1.
  rewrite set_run by (by rewrite !size_upd). cbn [obind]. destruct (put_head l1 b l2 s1 h C Eh1) as [L' R']. eexists. split; [done|]. split; [exact L'|by eapply relinks_trans].
Qed.

Lemma link_tail_run l1 b l2 s : linked (l1 ++ b :: l2) s -> l2 <> [] -> exists s', link_tail (Some b) s = Ok s' /\ linked ((l1 ++ l2) ++ [b]) s' /\ relinks s s'.
Proof.
  intros L H2. destruct (mid_ptr _ _ _ _ L) as (Hb & En & Ep). destruct (lk_ends _ _ L) as [Eh Et].
  assert (exists s1, (if same_ptr (Some b) (fa_head s) then
      let? b := get_block (Some b) s in let? _ := ocheck (same_ptr (fa_prev b) None) AssertFailed in
      set_block (fa_head (with_ends (fa_next b) (fa_tail s) s)) (with_prev None) (with_ends (fa_next b) (fa_tail s) s)
    else unlink (Some b) s) = Ok s1 /\ cut l1 b l2 s1 /\ relinks s s1) as (s1 & E1 & C & R1).
  { rewrite Eh. destruct l1 as [|a l1].
    - destruct (head l2) as [c|] eqn:Ec; [|by destruct l2]. cbn [app head]. unfold same_ptr. rewrite bool_decide_eq_true_2, get_run by done.
      cbn [obind]. rewrite En, Ep, bool_decide_eq_true_2 by done. cbn [ocheck obind fa_head with_ends]. destruct (cut_head b l2 s c L Ec) as (E & ? & ?). eauto.
    - cbn [app head]. unfold same_ptr. rewrite bool_decide_eq_false_2; [by apply unlink_run|]. intros [= ->].
      by destruct (other_inside (a :: l1) a l2 s a L ltac:(left; by left)). }
  unfold link_tail. rewrite E1. cbn [obind]. destruct (cut_out _ _ _ _ C) as (Hb1 & _ & _ & Hin).
  destruct (last (l1 ++ l2)) as [t|] eqn:Et1; [|by apply last_None, app_eq_nil in Et1 as [_ ?]].
  assert (inside s1 t) as Ht by (by apply Hin, last_Some_elem_of).
  rewrite (proj2 (ct_ends _ _ _ _ C)), Et1. rewrite set_run by done. cbn [obind]. rewrite set_run by (by rewrite size_upd). cbn [obind].
  change (fa_tail (upd b (with_next None) (upd b (with_prev (Some t)) s1))) with (fa_tail s1). rewrite (proj2 (ct_ends _ _ _ _ C)), Et1.
  rewrite set_run by (by rewrite !size_upd). cbn [obind]. destruct (put_tail l1 b l2 s1 t C Et1) as [L' R']. eexists. split; [done|]. split; [exact L'|by eapply relinks_trans].
Qed.

(** ** The caches that are tracked *)
Lemma bit_of i : 0 <= i < 32 -> shl32 1 i = Ok (2 ^ i).
Proof.
  intros Hi. unfold shl32. replace ((0 <=? i) && (i <? 32)) with true by lia. rewrite Z.shiftl_1_l, uwrap_small; [done|].
  split; [lia|]. apply Z.pow_lt_mono_r; lia.
Qed.

Lemma bit_test i u : 0 <= i -> negb (Z.land (2 ^ i) u =? 0) = Z.testbit u i.
Proof.
  intros Hi. destruct (Z.testbit u i) eqn:E.
  - apply negb_true_iff, Z.eqb_neq. intros H. assert (Z.testbit (Z.land (2 ^ i) u) i = true) by (by rewrite Z.land_spec, Z.pow2_bits_true, E).
    by rewrite H, Z.bits_0 in *.
  - apply negb_false_iff, Z.eqb_eq. apply Z.bits_inj'. intros j Hj. rewrite Z.land_spec, Z.bits_0, Z.pow2_bits_eqb by done.
    destruct (Z.eqb_spec i j) as [<-|]; [done|]. done.
Qed.

Lemma not_bit i j : 0 <= i < 32 -> 0 <= j < 32 -> Z.testbit (u32 (Z.lnot (2 ^ i))) j = negb (j =? i).
Proof.
  intros Hi Hj. unfold uwrap. rewrite Z.mod_pow2_bits_low by lia. rewrite Z.lnot_spec, Z.pow2_bits_eqb by lia. by rewrite Z.eqb_sym.
Qed.

Lemma not_bit_high i j : 32 <= j -> Z.testbit (u32 (Z.lnot (2 ^ i))) j = false.
Proof. intros Hj. unfold uwrap. by rewrite Z.mod_pow2_bits_high by lia. Qed.

Section Tracking.
Context (m : Z).

(** The blocks of the [i]-th cache: the first ones of the list. *)
Definition fits (i : Z) : Z := m * 2 ^ i.
Definition pre (i : Z) (l : list Z) : list Z := take (Z.to_nat (fits i)) l.
#[local] Abbreviation num s := (numTrackedCaches (cacheTracking s)).
#[local] Abbreviation bnd s := (boundaries (cacheTracking s)).
#[local] Abbreviation msk s x := (inCachesMask (blk_at s x)).

Record tracked (l : list Z) (s : FALRU) : Prop := {
  tr_num : 0 <= num s <= 32 /\ vsize (bnd s) = num s /\ inAllCachesMask (cacheTracking s) = Z.ones (num s);
  tr_fits : forall i, 0 <= i < num s -> 2 <= fits i < vsize l;
  tr_bound : forall i, 0 <= i < num s -> vget (bnd s) i = Ok (last (pre i l));
  tr_mask : forall x i, x ∈ l -> 0 <= i -> Z.testbit (msk s x) i = bool_decide (i < num s /\ x ∈ pre i l);
}.

(** Nothing but masks and boundaries changes. *)
Definition retracks (s s' : FALRU) : Prop := (exists bd bl, s' = with_tracking (with_boundaries bd (cacheTracking s)) (with_blks bl s)) /\
  vsize (fa_blks s') = vsize (fa_blks s) /\
  forall x, inside s x -> fa_next (blk_at s' x) = fa_next (blk_at s x) /\ fa_prev (blk_at s' x) = fa_prev (blk_at s x) /\ fa_blk (blk_at s' x) = fa_blk (blk_at s x).

Lemma retracks_trans s1 s2 s3 : retracks s1 s2 -> retracks s2 s3 -> retracks s1 s3.
Proof.
  intros ((bd & bl & ->) & E1 & H1) ((bd' & bl' & ->) & E2 & H2). split; [by exists bd', bl'|]. split; [congruence|].
  intros x Hx. rewrite <- E1 in Hx. destruct (H2 x Hx) as (-> & -> & ->). apply H1. by rewrite <- E1.
Qed.

Lemma retracks_refl s : retracks s s.
Proof. split; [exists (bnd s), (fa_blks s); destruct s as [? ? ? ? ? ? ? ? ? ? ? ? ? [] ?]; done|done]. Qed.

Lemma retracks_linked l s s' : retracks s s' -> linked l s -> linked l s'.
Proof.
  intros ((bd & bl & E0) & E1 & H1) [L1 L2 L3 L4 L5]. constructor; [done|intros x; rewrite E1; apply L2|by rewrite E0| |]; intros x Hx.
  - rewrite (proj1 (H1 x (proj1 (L2 x) Hx))). auto.
  - destruct (H1 x (proj1 (L2 x) Hx)) as (_ & -> & _). auto.
Qed.

Lemma relinks_tracked l s s' : relinks s s' -> (forall x, x ∈ l -> inside s x) -> tracked l s -> tracked l s'.
Proof.
  intros ((h & t & bl & E0) & E1 & H1) Hl [T1 T2 T3 T4]. assert (cacheTracking s' = cacheTracking s) as Ec by (by rewrite E0).
  constructor; rewrite ?Ec; [done|done|done|]. intros x i Hx Hi. rewrite (proj1 (H1 x (Hl x Hx))). auto.
Qed.

(** What a move leaves: the blocks, the hash table and the counters. *)
Definition same_store (s s' : FALRU) : Prop := vsize (fa_blks s') = vsize (fa_blks s) /\ tagHash s' = tagHash s /\ fa_lookupLatency s' = fa_lookupLatency s /\
  (forall x, inside s x -> fa_blk (blk_at s' x) = fa_blk (blk_at s x)) /\ exists bd, cacheTracking s' = with_boundaries bd (cacheTracking s).

Lemma same_store_refl s : same_store s s.
Proof. split_and!; try done. exists (bnd s). by destruct (cacheTracking s). Qed.

Lemma same_store_trans s1 s2 s3 : same_store s1 s2 -> same_store s2 s3 -> same_store s1 s3.
Proof.
  intros (A1 & A2 & A3 & A4 & bd & A5) (B1 & B2 & B3 & B4 & bd' & B5). split_and!; try congruence.
  - intros x Hx. rewrite B4 by (by rewrite A1). auto.
  - exists bd'. by rewrite B5, A5.
Qed.

Lemma moved_store s s1 s2 : retracks s s1 -> relinks s1 s2 -> same_store s s2.
Proof.
  intros ((bd & bl & E1) & Z1 & H1) ((h & t & bl' & E2) & Z2 & H2). apply (same_store_trans s s1 s2).
  - subst s1. split; [done|]. split; [done|]. split; [done|]. split; [|by exists bd]. intros x Hx. by destruct (H1 x Hx) as (_ & _ & ?).
  - subst s2. split; [done|]. split; [done|]. split; [done|]. split; [|exists (bnd s1); cbn; by destruct (cacheTracking s1)]. intros x Hx. by destruct (H2 x Hx) as (_ & ?).
Qed.

(** The first [i] caches go by the list [l'] already. *)
Record midway (l l' : list Z) (b i : Z) (s0 s : FALRU) : Prop := {
  md_frame : retracks s0 s;
  md_bnd : vsize (bnd s) = num s0 /\ forall j, 0 <= j < num s0 -> vget (bnd s) j = Ok (last (pre j (if j <? i then l' else l)));
  md_msk : forall x j, x ∈ l -> x <> b -> 0 <= j -> Z.testbit (msk s x) j = bool_decide (j < num s0 /\ x ∈ pre j (if j <? i then l' else l));
}.

Lemma midway_start l l' b s : tracked l s -> midway l l' b 0 s s.
Proof.
  intros [T1 T2 T3 T4]. constructor; [apply retracks_refl| |].
  - split; [apply T1|]. intros j Hj. replace (j <? 0) with false by lia. auto.
  - intros x j Hx _ Hj. replace (j <? 0) with false by lia. auto.
Qed.

(** One step: what happens to the boundary, and to at most one mask. *)
Lemma midway_step l l' b i s0 s s' : midway l l' b i s0 s -> 0 <= i < num s0 -> retracks s s' -> vset (bnd s) i (last (pre i l')) = Ok (bnd s') ->
  (forall x j, x ∈ l -> x <> b -> 0 <= j -> Z.testbit (msk s' x) j = if j =? i then bool_decide (x ∈ pre i l') else Z.testbit (msk s x) j) ->
  midway l l' b (i + 1) s0 s'.
Proof.
  intros [M1 [M2 M2'] M3] Hi R Hset Hmsk. apply vset_Ok_inv in Hset as [Hr Eb]. constructor; [by eapply retracks_trans| |].
  - split; [rewrite Eb; unfold vsize in *; by rewrite length_insert|]. intros j Hj. rewrite Eb. destruct (decide (j = i)) as [->|Hne].
    + rewrite vget_insert by done. by replace (i <? i + 1) with true by lia.
    + replace (j <? i + 1) with (j <? i) by (destruct (Z.ltb_spec j i), (Z.ltb_spec j (i + 1)); lia). rewrite <- M2' by done.
      unfold vget. destruct (Z.ltb_spec j 0); [done|]. by rewrite list_lookup_insert_ne by lia.
  - intros x j Hx Hxb Hj. rewrite Hmsk by done. destruct (Z.eqb_spec j i) as [->|Hne].
    + replace (i <? i + 1) with true by lia. apply bool_decide_ext. split; [intros; split; [lia|done]|by intros [_ ?]].
    + replace (j <? i + 1) with (j <? i) by (destruct (Z.ltb_spec j i), (Z.ltb_spec j (i + 1)); lia). auto.
Qed.

Lemma set_boundary s i e : 0 <= i < vsize (bnd s) ->
  vset (bnd s) i e = Ok (<[Z.to_nat i := e]> (bnd s)) /\ retracks s (with_tracking (with_boundaries (<[Z.to_nat i := e]> (bnd s)) (cacheTracking s)) s).
Proof. intros Hi. split; [by apply vset_Ok|]. split; [exists (<[Z.to_nat i := e]> (bnd s)), (fa_blks s); by destruct s|done]. Qed.

Lemma retracks_mask s x f : inside s x -> retracks s (upd x (fun b => with_mask (f b) b) s).
Proof.
  intros Hx. split; [exists (bnd s), (<[Z.to_nat x := with_mask (f (blk_at s x)) (blk_at s x)]> (fa_blks s)); destruct s as [? ? ? ? ? ? ? ? ? ? ? ? ? [] ?]; done|].
  split; [apply size_upd|]. intros y Hy. rewrite at_upd by (done || lia). case_decide as E; [by rewrite E|done].
Qed.

(** A cache the block is too far behind for. *)
Lemma pre_before l1 b l2 i : 2 <= fits i <= vsize l1 -> exists u y v, l1 = u ++ y :: v /\ u <> [] /\ pre i (l1 ++ b :: l2) = u ++ [y] /\
  pre i (b :: l1 ++ l2) = b :: u /\ pre i ((l1 ++ l2) ++ [b]) = u ++ [y].
Proof.
  unfold pre. intros Hi. set (k := Z.to_nat (fits i)). assert (2 <= k <= length l1)%nat as Hk by (unfold k, vsize in *; lia).
  destruct (lookup_lt_is_Some_2 l1 (k - 1)) as [y Hy]; [lia|]. exists (take (k - 1) l1), y, (drop k l1).
  assert (take k l1 = take (k - 1) l1 ++ [y]) as Et by (replace k with (S (k - 1)) at 1 by lia; by apply take_S_r).
  split; [|split; [|split; [|split]]].
  - rewrite <- (take_drop k l1) at 1. rewrite Et, <- app_assoc. done.
  - intros E. apply (f_equal length) in E. rewrite length_take in E. cbn in E. lia.
  - by rewrite take_app_le by lia.
  - replace k with (S (k - 1)) at 1 by lia. cbn [take]. by rewrite take_app_le by lia.
  - rewrite <- app_assoc, take_app_le by lia. done.
Qed.

(** A cache the block is in. *)
Lemma pre_after l1 b l2 i : vsize l1 < fits i -> exists w v, l2 = w ++ v /\ pre i (l1 ++ b :: l2) = l1 ++ b :: w /\ pre i (b :: l1 ++ l2) = b :: l1 ++ w /\
  (fits i < vsize (l1 ++ b :: l2) -> exists c v', v = c :: v' /\ pre i ((l1 ++ l2) ++ [b]) = (l1 ++ w) ++ [c]).
Proof.
  unfold pre. intros Hi. set (k := Z.to_nat (fits i)). assert (length l1 < k)%nat as Hk by (unfold k, vsize in *; lia).
  set (r := (k - length l1 - 1)%nat). exists (take r l2), (drop r l2). split; [by rewrite take_drop|].
  assert (take k (l1 ++ b :: l2) = l1 ++ b :: take r l2) as E1.
  { rewrite take_app_ge by lia. replace (k - length l1)%nat with (S r) by lia. done. }
  split; [done|]. split.
  - replace k with (S (k - 1)) at 1 by lia. cbn [take]. rewrite take_app_ge by lia. by replace (k - 1 - length l1)%nat with r by lia.
  - intros Hlt. assert (r < length l2)%nat as Hr by (unfold vsize in Hlt; rewrite length_app in Hlt; cbn [length] in Hlt; lia).
    destruct (drop r l2) as [|c v'] eqn:Ed; [apply (f_equal length) in Ed; rewrite length_drop in Ed; cbn in Ed; lia|]. exists c, v'. split; [done|].
    assert (l2 = take r l2 ++ c :: v') as E2 by (by rewrite <- Ed, take_drop). rewrite E2 at 1. rewrite (app_assoc l1 (take r l2) (c :: v')), <- app_assoc.
    rewrite take_app_ge by (rewrite length_app, length_take; lia). rewrite length_app, length_take. replace (k - _)%nat with 1%nat by lia. done.
Qed.

Lemma pre_mem l1 b l2 i : NoDup (l1 ++ b :: l2) -> 2 <= fits i -> b ∈ pre i (l1 ++ b :: l2) <-> vsize l1 < fits i.
Proof.
  intros Hn F1. destruct (Z.ltb_spec (vsize l1) (fits i)) as [H|H].
  - split; [done|]. intros _. destruct (pre_after l1 b l2 i H) as (w & v & _ & -> & _). apply elem_of_app. right. by left.
  - split; [|lia]. destruct (pre_before l1 b l2 i ltac:(lia)) as (u & y & v & E & _ & -> & _). intros Hb. exfalso.
    rewrite <- Permutation_middle in Hn. apply NoDup_cons in Hn as [Hn _]. apply Hn, elem_of_app. left. rewrite E.
    apply elem_of_app in Hb as [?|?%list_elem_of_singleton]; apply elem_of_app; [by left|right; subst; by left].
Qed.

Section Move.
Context (l1 : list Z) (b : Z) (l2 : list Z) (s0 : FALRU) (L : linked (l1 ++ b :: l2) s0) (T : tracked (l1 ++ b :: l2) s0).
#[local] Abbreviation l := (l1 ++ b :: l2).
#[local] Abbreviation up := (b :: l1 ++ l2).
#[local] Abbreviation down := ((l1 ++ l2) ++ [b]).

Lemma in_list x s : retracks s0 s -> x ∈ l -> inside s x.
Proof. intros (_ & E & _) Hx. rewrite E. by apply (lk_all _ _ L). Qed.

Lemma b_pre i : 0 <= i < num s0 -> b ∈ pre i l <-> vsize l1 < fits i.
Proof. intros Hi. apply pre_mem; [apply L|by apply (tr_fits _ _ T)]. Qed.

Lemma b_bit i : 0 <= i < num s0 -> Z.testbit (msk s0 b) i = (vsize l1 <? fits i).
Proof.
  intros Hi. rewrite (tr_mask _ _ T) by (lia || (apply elem_of_app; right; by left)). apply eq_true_iff_eq. rewrite bool_decide_eq_true, Z.ltb_lt, <- b_pre by done.
  split; [by intros [_ ?]|]. intros; split; [lia|done].
Qed.

Lemma mask_same l' i s : midway l l' b i s0 s -> 0 <= i < num s0 -> (forall x, x <> b -> x ∈ pre i l' <-> x ∈ pre i l) ->
  forall x j, x ∈ l -> x <> b -> 0 <= j -> Z.testbit (msk s x) j = if j =? i then bool_decide (x ∈ pre i l') else Z.testbit (msk s x) j.
Proof.
  intros [_ _ Hm] Hi Hs x j Hx Hne Hj. destruct (Z.eqb_spec j i) as [->|]; [|done]. rewrite Hm by done. rewrite Z.ltb_irrefl. apply bool_decide_ext.
  rewrite Hs by done. split; [by intros [_ ?]|]. intros; split; [lia|done].
Qed.

Lemma mask_at l' i s x : midway l l' b i s0 s -> 0 <= i < num s0 -> x ∈ l -> x <> b -> Z.testbit (msk s x) i = bool_decide (x ∈ pre i l).
Proof.
  intros [_ _ Hm] Hi Hx Hne. rewrite Hm by (done || lia). rewrite Z.ltb_irrefl. apply bool_decide_ext. split; [by intros [_ ?]|]. intros; split; [lia|done].
Qed.

Lemma mask_high l' i s x j : midway l l' b i s0 s -> x ∈ l -> x <> b -> 32 <= j -> Z.testbit (msk s x) j = false.
Proof. intros [_ _ Hm] Hx Hne Hj. destruct (tr_num _ _ T) as (N1 & _). rewrite Hm by (done || lia). apply bool_decide_eq_false. lia. Qed.

(** The block is in the cache and comes to its head: perhaps the boundary was the block. *)
Lemma boundary_up i s : midway l up b i s0 s -> l1 <> [] -> 0 <= i < num s0 -> vsize l1 < fits i ->
  exists s', (if same_ptr (last (pre i l)) (Some b) then
      let? b := get_block (Some b) s in let? l := vset (bnd s) i (fa_prev b) in Ok (with_tracking (with_boundaries l (cacheTracking s)) s)
    else Ok s) = Ok s' /\ midway l up b (i + 1) s0 s'.
Proof.
  intros M H1 Hi H. pose proof M as [R [Hz Hb] Hm]. assert (0 <= i < vsize (bnd s)) as Hib by (by rewrite Hz). pose proof (retracks_linked _ _ _ R L) as L'.
  destruct (pre_after l1 b l2 i H) as (w & v & E2 & P1 & P2 & _).
  assert (forall x, x <> b -> x ∈ pre i up <-> x ∈ pre i l) as Hsame by (intros x Hx; rewrite P1, P2, elem_of_cons, !elem_of_app, elem_of_cons; tauto).
  pose proof (mask_same up i s M Hi Hsame) as Hk. unfold same_ptr. case_bool_decide as Ed; rewrite P1 in Ed.
  - destruct (mid_ptr _ _ _ _ L') as (Ib & _ & Ep). rewrite get_run by done. cbn [obind]. rewrite Ep. destruct (set_boundary s i (last l1) Hib) as [Es Rs].
    rewrite Es. cbn [obind]. eexists. split; [done|]. eapply midway_step; [done|done|exact Rs| |exact Hk]. rewrite P2.
    rewrite last_app_cons in Ed. assert (w = []) as ->.
    { destruct w as [|c w]; [done|]. rewrite last_cons_cons in Ed. assert (b ∈ c :: w) as Hbw by (by apply last_Some_elem_of).
      destruct (other_inside l1 b l2 s b L'); [|done]. right. rewrite E2. apply elem_of_app. by left. }
    rewrite app_nil_r. cbn [cacheTracking with_tracking boundaries with_boundaries]. rewrite <- Es. f_equal. destruct l1; [done|]. by rewrite last_cons_cons.
  - exists s. split; [done|]. eapply midway_step; [done|done|apply retracks_refl| |exact Hk]. rewrite P2.
    replace (last (b :: l1 ++ w)) with (last (l1 ++ b :: w)).
    2:{ destruct w as [|c w]; [by rewrite last_snoc in Ed|]. rewrite last_app_cons, last_cons_cons. change (b :: l1 ++ c :: w) with ((b :: l1) ++ c :: w). by rewrite last_app_cons. }
    rewrite <- P1. rewrite vset_Ok by done. f_equal. apply list_insert_id. specialize (Hb i Hi). rewrite Z.ltb_irrefl in Hb. by apply vget_Ok_inv in Hb as [_ ?].
Qed.

(** A block leaves the cache, or enters it. *)
Lemma mask_out i s y x j : midway l up b i s0 s -> 0 <= i < num s0 -> y ∈ l -> y <> b -> x ∈ l -> x <> b -> 0 <= j ->
  Z.testbit (msk (upd y (fun c => with_mask (Z.land (inCachesMask c) (u32 (Z.lnot (2 ^ i)))) c) s) x) j =
    if (j =? i) && bool_decide (x = y) then false else Z.testbit (msk s x) j.
Proof.
  intros M Hi Hy Hyb Hx Hne Hj. pose proof (md_frame _ _ _ _ _ _ M) as R. destruct (tr_num _ _ T) as (N1 & _). pose proof (in_list y s R Hy). pose proof (in_list x s R Hx).
  rewrite at_upd by (done || lia). destruct (decide (x = y)) as [->|Hxy]; [|by rewrite bool_decide_eq_false_2, andb_false_r].
  cbn [inCachesMask with_mask]. rewrite bool_decide_eq_true_2, andb_true_r, Z.land_spec by done. destruct (Z.ltb_spec j 32).
  - rewrite not_bit by lia. destruct (j =? i); [apply andb_false_r|apply andb_true_r].
  - rewrite not_bit_high, andb_false_r by lia. rewrite (mask_high up i s y j) by done. by destruct (j =? i).
Qed.

Lemma mask_in i s y x j : midway l down b i s0 s -> 0 <= i -> y ∈ l -> x ∈ l -> 0 <= j ->
  Z.testbit (msk (upd y (fun c => with_mask (Z.lor (inCachesMask c) (2 ^ i)) c) s) x) j = if (j =? i) && bool_decide (x = y) then true else Z.testbit (msk s x) j.
Proof.
  intros M Hi Hy Hx Hj. pose proof (md_frame _ _ _ _ _ _ M) as R. pose proof (in_list y s R Hy). pose proof (in_list x s R Hx).
  rewrite at_upd by (done || lia). destruct (decide (x = y)) as [->|Hxy]; [|by rewrite bool_decide_eq_false_2, andb_false_r].
  cbn [inCachesMask with_mask]. rewrite bool_decide_eq_true_2, andb_true_r, Z.lor_spec, Z.pow2_bits_eqb, Z.eqb_sym by done. destruct (j =? i); [apply orb_true_r|apply orb_false_r].
Qed.

(** The block is not in the cache: the boundary leaves it. *)
Lemma boundary_lost i s : midway l up b i s0 s -> 0 <= i < num s0 -> fits i <= vsize l1 ->
  exists s', (let d := last (pre i l) in
    let? s := set_block d (fun c => with_mask (Z.land (inCachesMask c) (u32 (Z.lnot (2 ^ i)))) c) s in
    let? c := get_block d s in
    let? l := vset (bnd s) i (fa_prev c) in Ok (with_tracking (with_boundaries l (cacheTracking s)) s)) = Ok s' /\ midway l up b (i + 1) s0 s'.
Proof.
  intros M Hi H. pose proof M as [R [Hz Hb] Hm]. destruct (tr_fits _ _ T i Hi) as [F1 _]. pose proof (retracks_linked _ _ _ R L) as L'.
  destruct (pre_before l1 b l2 i ltac:(lia)) as (u & y & v & E1 & Hu & P1 & P2 & _). cbv zeta. rewrite P1, last_snoc.
  assert (y ∈ l1) as Hy1 by (rewrite E1; apply elem_of_app; right; by left). assert (y ∈ l) as Hy by (apply elem_of_app; by left).
  destruct (other_inside _ _ _ _ y L' (or_introl Hy1)) as [Iy Hyb].
  rewrite set_run by done. cbn [obind]. rewrite get_run by (by rewrite size_upd). cbn [obind]. rewrite at_upd, decide_True by (done || lia).
  cbn [fa_prev with_mask]. assert (fa_prev (blk_at s y) = last u) as Ep.
  { assert (l = u ++ y :: v ++ b :: l2) as El by (by rewrite E1, <- app_assoc). rewrite El in L'. by destruct (mid_ptr _ _ _ _ L') as (_ & _ & ?). }
  rewrite Ep. set (s1 := upd y _ s). assert (0 <= i < vsize (bnd s1)) as Hib1 by (change (bnd s1) with (bnd s); by rewrite Hz).
  destruct (set_boundary s1 i (last u) Hib1) as [Es Rs]. rewrite Es. cbn [obind]. eexists. split; [done|].
  eapply midway_step; [done|done|eapply retracks_trans; [by apply (retracks_mask s y (fun c => Z.land (inCachesMask c) (u32 (Z.lnot (2 ^ i)))))|exact Rs]| |].
  - cbn [cacheTracking with_tracking boundaries with_boundaries]. rewrite <- Es, P2. f_equal. destruct u; [done|]. by rewrite last_cons_cons.
  - intros x j Hx Hne Hj. etransitivity; [by apply (mask_out i s y x j)|]. destruct (Z.eqb_spec j i) as [->|]; [|done]. cbn [andb].
    rewrite (mask_at up i s x M Hi Hx Hne), P1, P2. pose proof (lk_nodup _ _ L) as Hn. rewrite E1, <- app_assoc in Hn. apply NoDup_app in Hn as (_ & Hd & _).
    case_bool_decide as Exy; [subst x|]; symmetry; [apply bool_decide_eq_false|apply bool_decide_ext].
    + rewrite elem_of_cons. intros [?|Hin]; [done|]. apply (Hd y Hin). by left.
    + rewrite elem_of_app, !elem_of_cons, elem_of_nil. tauto.
Qed.

Lemma head_step_run i s : midway l up b i s0 s -> l1 <> [] -> 0 <= i < num s0 ->
  exists s', head_step (Some b) (Z.lxor (inAllCachesMask (cacheTracking s0)) (msk s0 b)) i s = Ok s' /\ midway l up b (i + 1) s0 s'.
Proof.
  intros M H1 Hi. destruct (tr_num _ _ T) as (N1 & N2 & N3). unfold head_step. rewrite bit_of by lia. cbn [obind].
  rewrite (proj2 (md_bnd _ _ _ _ _ _ M)), Z.ltb_irrefl by done. cbn [obind]. rewrite bit_test by lia.
  rewrite N3, Z.lxor_spec, b_bit, Z.ones_spec_low by lia. rewrite xorb_true_l.
  destruct (Z.ltb_spec (vsize l1) (fits i)); cbn [negb]; [by apply boundary_up|by apply boundary_lost].
Qed.

Lemma tail_step_run i s : midway l down b i s0 s -> 0 <= i < num s0 ->
  exists s', tail_step (Some b) (msk s0 b) i s = Ok s' /\ midway l down b (i + 1) s0 s'.
Proof.
  intros M Hi. destruct (tr_num _ _ T) as (N1 & N2 & N3). destruct (tr_fits _ _ T i Hi) as [F1 F2]. pose proof M as [R [Hz Hb] Hm].
  pose proof (retracks_linked _ _ _ R L) as L'. assert (0 <= i < vsize (bnd s)) as Hib by (by rewrite Hz).
  unfold tail_step. rewrite bit_of by lia. cbn [obind]. rewrite bit_test, b_bit by lia. destruct (Z.ltb_spec (vsize l1) (fits i)) as [H|H].
  - destruct (pre_after l1 b l2 i H) as (w & v & E2 & P1 & _ & P3). destruct (P3 F2) as (c & v' & -> & P4). rewrite Hb, Z.ltb_irrefl, P1 by done. cbn [obind].
    destruct (last (l1 ++ b :: w)) as [d|] eqn:Ed; [|by apply last_None, app_eq_nil in Ed as [_ ?]].
    assert (l = (l1 ++ b :: w) ++ c :: v') as El by (by rewrite E2, <- app_assoc). assert (d ∈ l) as Hd by (rewrite El; apply elem_of_app; left; by apply last_Some_elem_of).
    assert (c ∈ l) as Hc by (rewrite El; apply elem_of_app; right; by left). pose proof (in_list c s R Hc) as Ic.
    destruct (other_inside _ _ _ _ c L') as [_ Hcb]; [right; rewrite E2; apply elem_of_app; right; by left|].
    rewrite get_run by (by apply (in_list d s R)). cbn [obind]. assert (fa_next (blk_at s d) = Some c) as ->.
    { rewrite (lk_next _ _ L' d Hd), El. pose proof (lk_nodup _ _ L) as Hn. rewrite El in Hn. apply NoDup_app in Hn as (Hn & _). by rewrite next_in_parts, Ed, decide_True. }
    unfold same_ptr. rewrite bool_decide_eq_false_2 by congruence. cbn [obind]. destruct (set_boundary s i (Some c) Hib) as [Es Rs]. rewrite Es. cbn [obind].
    set (s1 := with_tracking _ s). rewrite set_run by done. eexists. split; [done|].
    eapply midway_step; [done|done|eapply retracks_trans; [exact Rs|by apply (retracks_mask s1 c (fun b0 => Z.lor (inCachesMask b0) (2 ^ i)))]| |].
    + rewrite P4, last_snoc. exact Es.
    + intros x j Hx Hne Hj. etransitivity; [apply (mask_in i s c x j M); done || lia|]. destruct (Z.eqb_spec j i) as [->|]; [|done]. cbn [andb].
      rewrite (mask_at down i s x M Hi Hx Hne), P1, P4. case_bool_decide as Exc; [subst x; symmetry; apply bool_decide_eq_true|apply bool_decide_ext].
      * apply elem_of_app. right. by left.
      * rewrite !elem_of_app, !elem_of_cons, elem_of_nil. tauto.
  - exists s. split; [done|]. destruct (pre_before l1 b l2 i ltac:(lia)) as (u & y & v & E1 & Hu & P1 & _ & P4).
    eapply midway_step; [done|done|apply retracks_refl| |apply mask_same; [done|done|]; intros x _; by rewrite P1, P4].
    rewrite P4, <- P1. rewrite vset_Ok by done. f_equal. apply list_insert_id. specialize (Hb i Hi). rewrite Z.ltb_irrefl in Hb. by apply vget_Ok_inv in Hb as [_ ?].
Qed.

Lemma each_cache_run (Q : Z -> FALRU -> Prop) step n : (forall i s, Q i s -> 0 <= i < n -> exists s', step i s = Ok s' /\ Q (i + 1) s') ->
  0 <= n -> forall s, Q 0 s -> exists s', each_cache step (seqZ 0 n) s = Ok s' /\ Q n s'.
Proof.
  intros Hs Hn. assert (forall k i s, 0 <= i -> i + Z.of_nat k = n -> Q i s -> exists s', each_cache step (seqZ i (Z.of_nat k)) s = Ok s' /\ Q n s') as H.
  { induction k as [|k IH]; intros i s Hi Hk HQ.
    - exists s. split; [done|]. by replace n with i by lia.
    - rewrite seqZ_cons by lia. cbn [each_cache]. destruct (Hs i s HQ ltac:(lia)) as (s1 & -> & H1). cbn [obind]. replace (Z.pred (Z.of_nat (S k))) with (Z.of_nat k) by lia.
      rewrite <- Z.add_1_r. apply IH; [lia|lia|done]. }
  intros s HQ. destruct (H (Z.to_nat n) 0 s) as (s' & E & ?); [lia|lia|done|]. rewrite Z2Nat.id in E by lia. eauto.
Qed.

(** All caches go by the new list, and the mask of the block is set. *)
Lemma midway_end l' s v : midway l l' b (num s0) s0 s -> l' ≡ₚ l -> (forall i, 0 <= i -> Z.testbit v i = bool_decide (i < num s0 /\ b ∈ pre i l')) ->
  tracked l' (upd b (with_mask v) s) /\ retracks s0 (upd b (with_mask v) s).
Proof.
  intros [R [Hz Hb] Hm] Hp Hv. assert (b ∈ l) as Hbl by (apply elem_of_app; right; by left). pose proof (in_list b s R Hbl) as Ib.
  assert (retracks s0 (upd b (with_mask v) s)) as R' by (eapply retracks_trans; [exact R|by apply (retracks_mask s b (fun _ => v))]). split; [|exact R'].
  assert (num (upd b (with_mask v) s) = num s0 /\ inAllCachesMask (cacheTracking (upd b (with_mask v) s)) = inAllCachesMask (cacheTracking s0)) as [En Ea]
    by (destruct R' as ((bd & bl & ->) & _); done).
  destruct T as [T1 T2 T3 T4]. constructor; rewrite ?En, ?Ea.
  - by split_and!; try apply T1.
  - intros i Hi. unfold vsize. rewrite Hp. by apply T2.
  - intros i Hi. change (bnd (upd b (with_mask v) s)) with (bnd s). rewrite Hb by done. by replace (i <? num s0) with true by lia.
  - intros x i Hx Hi. rewrite Hp in Hx. pose proof (in_list x s R Hx). rewrite at_upd by (done || lia). destruct (decide (x = b)) as [->|Hne]; [by apply Hv|].
    rewrite Hm by done. apply bool_decide_ext. destruct (Z.ltb_spec i (num s0)); [done|]. split; intros [? _]; lia.
Qed.

Lemma b_not_down i : 0 <= i < num s0 -> b ∉ pre i down.
Proof.
  intros Hi Hin. destruct (tr_fits _ _ T i Hi) as [F1 F2]. destruct (Z.ltb_spec (vsize l1) (fits i)) as [H|H].
  - destruct (pre_after l1 b l2 i H) as (w & v & E2 & _ & _ & P3). destruct (P3 F2) as (c & v' & -> & P4). rewrite P4 in Hin.
    destruct (other_inside _ _ _ _ b L); [|done]. rewrite E2, !elem_of_app, elem_of_cons. rewrite !elem_of_app, list_elem_of_singleton in Hin. tauto.
  - destruct (pre_before l1 b l2 i ltac:(lia)) as (u & y & v & E1 & _ & _ & _ & P4). rewrite P4 in Hin. destruct (other_inside _ _ _ _ b L); [|done].
    left. rewrite E1, elem_of_app, elem_of_cons. rewrite elem_of_app, list_elem_of_singleton in Hin. tauto.
Qed.

Lemma up_run : l1 <> [] -> exists s', moveToHead (Some b) s0 = Ok s' /\ linked up s' /\ tracked up s' /\ same_store s0 s'.
Proof.
  intros H1. destruct (tr_num _ _ T) as (N1 & N2 & N3). destruct (mid_ptr _ _ _ _ L) as (Ib & _ & _).
  unfold moveToHead, same_ptr. rewrite bool_decide_eq_false_2.
  2:{ rewrite (proj1 (lk_ends _ _ L)). destruct l1 as [|h r] eqn:E; [done|]. cbn. intros [= ->]. by destruct (other_inside (h :: r) h l2 s0 h L ltac:(left; by left)). }
  unfold moveBlockToHead. rewrite get_run by done. cbn [obind].
  destruct (each_cache_run (fun i s => midway l up b i s0 s) (head_step (Some b) (Z.lxor (inAllCachesMask (cacheTracking s0)) (msk s0 b))) (num s0)) with (s := s0) as (s1 & -> & M);
    [intros i s M Hi; by apply head_step_run|lia|by apply midway_start|]. cbn [obind]. pose proof (md_frame _ _ _ _ _ _ M) as R.
  rewrite set_run by (apply (in_list b s1 R); apply elem_of_app; right; by left). cbn [obind].
  assert (inAllCachesMask (cacheTracking s1) = Z.ones (num s0)) as -> by (destruct R as ((bd & bl & ->) & _); exact N3).
  destruct (midway_end up s1 (Z.ones (num s0)) M) as [T' R']; [by rewrite Permutation_middle| |].
  { intros i Hi. rewrite Z.testbit_ones_nonneg by lia. apply eq_true_iff_eq. rewrite bool_decide_eq_true, Z.ltb_lt. split; [|by intros [? _]]. intros Hlt. split; [done|].
    destruct (tr_fits _ _ T i ltac:(lia)). unfold pre. destruct (Z.to_nat (fits i)) eqn:E; [lia|]. cbn. by left. }
  set (s2 := upd b _ s1) in *. destruct (link_head_run l1 b l2 s2 (retracks_linked _ _ _ R' L) H1) as (s3 & E3 & L3 & R3). exists s3. split; [exact E3|]. split; [exact L3|].
  split; [|by eapply moved_store]. apply (relinks_tracked up s2 s3); [done| |done]. intros x Hx. apply (in_list x s2 R'). by rewrite <- Permutation_middle.
Qed.

Lemma down_run : l2 <> [] -> exists s', moveToTail (Some b) s0 = Ok s' /\ linked down s' /\ tracked down s' /\ same_store s0 s'.
Proof.
  intros H2. destruct (tr_num _ _ T) as (N1 & N2 & N3). destruct (mid_ptr _ _ _ _ L) as (Ib & _ & _).
  unfold moveToTail, same_ptr. rewrite bool_decide_eq_false_2.
  2:{ rewrite (proj2 (lk_ends _ _ L)). destruct l2 as [|c r] eqn:E; [done|]. rewrite last_app_cons, last_cons_cons. intros Eb. symmetry in Eb.
      destruct (other_inside l1 b (c :: r) s0 b L); [right; by apply last_Some_elem_of|done]. }
  unfold moveBlockToTail. rewrite get_run by done. cbn [obind].
  destruct (each_cache_run (fun i s => midway l down b i s0 s) (tail_step (Some b) (msk s0 b)) (num s0)) with (s := s0) as (s1 & -> & M);
    [intros i s M Hi; by apply tail_step_run|lia|by apply midway_start|]. cbn [obind]. pose proof (md_frame _ _ _ _ _ _ M) as R.
  rewrite set_run by (apply (in_list b s1 R); apply elem_of_app; right; by left). cbn [obind].
  assert (down ≡ₚ l) as Hp by (etransitivity; [symmetry; apply Permutation_cons_append|apply Permutation_middle]).
  destruct (midway_end down s1 0 M Hp) as [T' R'].
  { intros i Hi. rewrite Z.bits_0. symmetry. apply bool_decide_eq_false. intros [? Hb]. by apply (b_not_down i) in Hb. }
  set (s2 := upd b _ s1) in *. destruct (link_tail_run l1 b l2 s2 (retracks_linked _ _ _ R' L) H2) as (s3 & E3 & L3 & R3). exists s3. split; [exact E3|]. split; [exact L3|].
  split; [|by eapply moved_store]. apply (relinks_tracked down s2 s3); [done| |done]. intros x Hx. apply (in_list x s2 R'). by rewrite <- Hp.
Qed.
End Move.

(** ** Moves *)
Inductive move := ToHead (x : Z) | ToTail (x : Z).
Definition moved (mv : move) : Z := match mv with ToHead x => x | ToTail x => x end.
Definition do_move (mv : move) (s : FALRU) : outcome FALRU := match mv with ToHead x => moveToHead (Some x) s | ToTail x => moveToTail (Some x) s end.

Definition without (x : Z) (l : list Z) : list Z := filter (fun y => y <> x) l.
Definition reorder (l : list Z) (mv : move) : list Z := match mv with ToHead x => x :: without x l | ToTail x => without x l ++ [x] end.

Lemma without_self x l : x ∉ l -> without x l = l.
Proof. intros Hx. unfold without. induction l as [|y l IH]; [done|]. apply not_elem_of_cons in Hx as [? ?]. rewrite filter_cons_True by done. f_equal. auto. Qed.

Lemma without_split l1 x l2 : NoDup (l1 ++ x :: l2) -> without x (l1 ++ x :: l2) = l1 ++ l2.
Proof.
  intros Hn. apply NoDup_app in Hn as (_ & H2 & H3). apply NoDup_cons in H3 as [H3 _]. unfold without. rewrite filter_app, filter_cons_False by (by intros ?).
  fold (without x l1) (without x l2).
  rewrite (without_self x l1), (without_self x l2); [done|done|]. intros Hx. apply (H2 x Hx). by left.
Qed.

Lemma move_run l s mv : linked l s -> tracked l s -> moved mv ∈ l -> exists s', do_move mv s = Ok s' /\ linked (reorder l mv) s' /\ tracked (reorder l mv) s' /\ same_store s s'.
Proof.
  intros L T Hx. pose proof (lk_nodup _ _ L) as Hn. destruct (lk_ends _ _ L) as [Eh Et].
  destruct mv as [x|x]; cbn [moved do_move reorder] in *; apply list_elem_of_split in Hx as (l1 & l2 & ->); rewrite without_split by done.
  - destruct l1 as [|h l1]; [|by apply up_run]. exists s. split; [|split_and!; [done|done|apply same_store_refl]]. unfold moveToHead, same_ptr. by rewrite bool_decide_eq_true_2.
  - destruct l2 as [|c l2]; [|by apply down_run]. rewrite app_nil_r. exists s. split; [|split_and!; [done|done|apply same_store_refl]]. unfold moveToTail, same_ptr. rewrite bool_decide_eq_true_2; [done|].
    by rewrite Et, last_snoc.
Qed.

Fixpoint run_moves (mvs : list move) (s : FALRU) : outcome FALRU :=
  match mvs with
  | [] => Ok s
  | mv :: mvs' => let? s := do_move mv s in run_moves mvs' s
  end.

Lemma reorder_elem l mv x : moved mv ∈ l -> x ∈ reorder l mv <-> x ∈ l.
Proof.
  intros Hm. assert (forall y, y ∈ without (moved mv) l <-> y ∈ l /\ y <> moved mv) as Hw by (intros y; unfold without; rewrite list_elem_of_filter; tauto).
  destruct mv as [y|y]; cbn [reorder moved] in *; [rewrite elem_of_cons, Hw|rewrite elem_of_app, Hw, list_elem_of_singleton]; (destruct (decide (x = y)) as [->|]; tauto).
Qed.

Lemma moves_run mvs : forall l s, linked l s -> tracked l s -> Forall (fun mv => moved mv ∈ l) mvs ->
  exists s', run_moves mvs s = Ok s' /\ linked (foldl reorder l mvs) s' /\ tracked (foldl reorder l mvs) s' /\ same_store s s'.
Proof.
  induction mvs as [|mv mvs IH]; intros l s L T HF; cbn [run_moves foldl]; [exists s; split_and!; [done|done|done|apply same_store_refl]|]. apply Forall_cons in HF as [Hm HF].
  destruct (move_run l s mv L T Hm) as (s1 & -> & L1 & T1 & S1). cbn [obind].
  destruct (IH _ s1 L1 T1) as (s2 & E2 & L2 & T2 & S2); [eapply Forall_impl; [exact HF|]; intros mv'; by rewrite reorder_elem|].
  exists s2. split_and!; try done. by eapply same_store_trans.
Qed.

(** ** The check of a debug build *)

(** The sizes: [n] blocks of [bs] bytes, and no tracked cache has as many. *)
Record sizes (n bs : Z) (s : FALRU) : Prop := {
  sz_blk : 0 < bs /\ 2 <= m /\ 0 <= num s <= 32 /\ n * bs < 2 ^ 32 /\ fits (num s) * bs < 2 ^ 32;
  sz_fits : n <= fits (num s);
  sz_consts : ct_blkSize (cacheTracking s) = bs /\ minTrackedSize (cacheTracking s) = m * bs;
}.

Lemma same_store_sizes n bs s s' : same_store s s' -> sizes n bs s -> sizes n bs s'.
Proof. intros (_ & _ & _ & _ & bd & E) [S1 S2 S3]. constructor; rewrite E; done. Qed.

Lemma fits_lt i j : 2 <= m -> 0 <= i < j -> 2 * fits i <= fits j.
Proof.
  intros Hm Hij. unfold fits. assert (2 ^ (i + 1) <= 2 ^ j) by (apply Z.pow_le_mono_r; lia). rewrite Z.pow_add_r in * by lia. nia.
Qed.

Lemma fits_ge i : 2 <= m -> 0 <= i -> 2 <= fits i.
Proof. intros Hm Hi. unfold fits. assert (0 < 2 ^ i) by (apply Z.pow_pos_nonneg; lia). nia. Qed.

(** The masks once [c] blocks are passed: the caches from [j] on. *)
Definition passed (c j : Z) (s : FALRU) : Prop := 0 <= j <= num s /\ c < fits j /\ forall i, 0 <= i < j -> fits i <= c.
Definition rest (j N : Z) : Z := Z.land (Z.ones N) (Z.lnot (Z.ones j)).

Lemma rest_bit j N i : 0 <= j -> 0 <= N -> 0 <= i -> Z.testbit (rest j N) i = bool_decide (j <= i < N).
Proof.
  intros Hj HN Hi. unfold rest. rewrite Z.land_spec, Z.lnot_spec, !Z.testbit_ones_nonneg by lia. apply eq_true_iff_eq.
  rewrite bool_decide_eq_true, andb_true_iff, negb_true_iff, Z.ltb_lt, Z.ltb_ge. lia.
Qed.

Lemma rest_next j N : 0 <= j < N -> N <= 32 -> Z.land (rest j N) (u32 (Z.lnot (2 ^ j))) = rest (j + 1) N.
Proof.
  intros Hj HN. apply Z.bits_inj'. intros i Hi. rewrite Z.land_spec, !rest_bit by lia. destruct (Z.ltb_spec i 32).
  - rewrite not_bit by lia. apply eq_true_iff_eq. rewrite andb_true_iff, !bool_decide_eq_true, negb_true_iff, Z.eqb_neq. lia.
  - rewrite not_bit_high, andb_false_r by lia. symmetry. apply bool_decide_eq_false. lia.
Qed.

(** The next cache, if the block after [c] others is the last of one. *)
Lemma passed_next n bs c j s : sizes n bs s -> passed c j s -> 0 <= c -> c + 1 < n ->
  (u32 (c * bs + bs) =? fits j * bs) = (c + 1 =? fits j) /\
  (c + 1 = fits j -> j < num s /\ passed (c + 1) (j + 1) s /\ u32 (Z.shiftl (fits j * bs) 1) = fits (j + 1) * bs) /\ (c + 1 <> fits j -> passed (c + 1) j s).
Proof.
  intros [(S1 & S2 & S3 & S4 & S5) S6 _] (P1 & P2 & P3) Hc Hn. split; [|split].
  - rewrite uwrap_small by nia. apply eq_true_iff_eq. rewrite !Z.eqb_eq. nia.
  - intros E. assert (j < num s) as Hj by (destruct (decide (j = num s)) as [->|]; lia). pose proof (fits_lt j (j + 1) S2 ltac:(lia)) as F1.
    assert (fits (j + 1) = 2 * fits j) as F2 by (unfold fits; rewrite Z.pow_add_r by lia; lia).
    assert (fits (j + 1) <= fits (num s)) as F3 by (destruct (decide (j + 1 = num s)) as [->|]; [lia|]; pose proof (fits_lt (j + 1) (num s) S2 ltac:(lia)); pose proof (fits_ge (j + 1) S2 ltac:(lia)); lia).
    split; [done|]. split.
    + split; [lia|]. split; [lia|]. intros i Hi. destruct (decide (i = j)) as [->|]; [lia|]. specialize (P3 i ltac:(lia)). lia.
    + rewrite Z.shiftl_mul_pow2 by lia. rewrite uwrap_small; [lia|]. nia.
  - intros E. split; [done|]. split; [lia|]. intros i Hi. specialize (P3 i Hi). lia.
Qed.

Lemma passed_mask N c j i : 2 <= m -> 0 <= i < N -> 0 <= j -> c < fits j -> (forall i, 0 <= i < j -> fits i <= c) -> c < fits i <-> j <= i < N.
Proof.
  intros Hm Hi Hj Hc Hp. split.
  - intros H. split; [|lia]. destruct (Z.leb_spec j i); [done|]. specialize (Hp i ltac:(lia)). lia.
  - intros [H _]. destruct (decide (i = j)) as [->|]; [done|]. pose proof (fits_lt j i Hm ltac:(lia)). pose proof (fits_ge j Hm Hj). lia.
Qed.

Lemma pre_last j p x q : fits j = vsize p + 1 -> pre j (p ++ x :: q) = p ++ [x].
Proof.
  intros E. unfold pre. rewrite E. replace (Z.to_nat (vsize p + 1)) with (length p + 1)%nat by (unfold vsize; lia). rewrite take_app_add. done.
Qed.

Section Walk.
Context (l : list Z) (n bs : Z) (Hn : vsize l = n).

Lemma check_loop_run s (L : linked l s) (T : tracked l s) (Z0 : sizes n bs s) : forall q p c j fuel, l = p ++ q -> vsize p = c -> (q <> [] -> passed c j s) -> (length q <= fuel)%nat ->
  check_loop fuel (head q) (last l) (c * bs) (fits j * bs) (rest j (num s)) j s = Ok tt.
Proof.
  pose proof Z0 as [(S1 & S2 & S3 & S4 & S5) S6 [S7 S8]]. induction q as [|x q IH]; intros p c j fuel El Hc Hp Hf; [by destruct fuel|].
  destruct fuel as [|fuel]; [cbn in Hf; lia|]. cbn [head check_loop]. destruct (Hp ltac:(done)) as (P1 & P2 & P3). pose proof (lk_nodup _ _ L) as Hnd.
  assert (x ∈ l) as Hx by (rewrite El; apply elem_of_app; right; by left). rewrite get_run by (by apply (lk_all _ _ L)). cbn [obind].
  assert (msk s x = rest j (num s)) as Em.
  { apply Z.bits_inj'. intros i Hi. rewrite (tr_mask _ _ T), rest_bit by (done || lia). apply bool_decide_ext. split.
    - intros [Hlt Hin]. rewrite El in Hin, Hnd. apply pre_mem in Hin; [|done|by apply fits_ge]. rewrite Hc in Hin. apply (passed_mask (num s) c j i); first [done|lia].
    - intros Hi'. split; [lia|]. rewrite El in Hnd |- *. apply pre_mem; [done|by apply fits_ge|]. rewrite Hc. apply (passed_mask (num s) c j i); first [done|lia]. }
  rewrite Em, Z.eqb_refl. cbn [ocheck obind]. rewrite S7. rewrite El in Hnd.
  assert (fa_next (blk_at s x) = head q) as -> by (rewrite (lk_next _ _ L x Hx), El; by apply next_in_self).
  assert (0 <= c) as Hc0 by (unfold vsize in Hc; lia). destruct q as [|y q].
  - unfold same_ptr. rewrite El, last_snoc, bool_decide_eq_true_2, andb_false_r by done. cbn. by destruct fuel.
  - assert (c + 1 < n) as Hlt by (rewrite <- Hn, El; unfold vsize in *; rewrite length_app; cbn [length]; lia).
    destruct (passed_next n bs c j s Z0 ltac:(by apply Hp) Hc0 Hlt) as (E1 & E2 & E3). rewrite E1. unfold same_ptr at 1. rewrite bool_decide_eq_false_2.
    2:{ rewrite El, last_app_cons, last_cons_cons. intros E. apply NoDup_app in Hnd as (_ & _ & Hd). apply NoDup_cons in Hd as [Hd _]. by apply Hd, last_Some_elem_of. }
    assert (u32 (c * bs + bs) = (c + 1) * bs) as -> by (rewrite uwrap_small; nia). assert (l = (p ++ [x]) ++ y :: q) as El' by (by rewrite <- app_assoc).
    assert (vsize (p ++ [x]) = c + 1) as Hc' by (unfold vsize in *; rewrite length_app; cbn; lia). destruct (Z.eqb_spec (c + 1) (fits j)) as [E|E]; cbn [andb negb].
    + destruct (E2 E) as (Hj & P' & Esh). rewrite (tr_bound _ _ T j) by lia. cbn [obind]. rewrite El at 1. rewrite pre_last by lia. rewrite last_snoc.
      unfold same_ptr. rewrite bool_decide_eq_true_2 by done. cbn [ocheck obind]. rewrite bit_of by lia. cbn [obind fst snd]. rewrite Esh, rest_next by lia.
      apply (IH (p ++ [x])); [done|done|done|cbn in *; lia].
    + cbn [obind fst snd]. apply (IH (p ++ [x])); [done|done|auto|cbn in *; lia].
Qed.

Lemma retracks_sizes s s' : retracks s s' -> num s' = num s /\ (sizes n bs s -> sizes n bs s').
Proof. intros ((bd & bl & ->) & _). split; [done|]. intros [S1 S2 S3]. by constructor. Qed.

(** The first [j] boundaries, and the masks of [p], are set. *)
Record begun (p : list Z) (j : Z) (s : FALRU) : Prop := {
  bg_bnd : vsize (bnd s) = num s /\ forall i, 0 <= i < j -> vget (bnd s) i = Ok (last (pre i l));
  bg_msk : forall x i, x ∈ p -> 0 <= i -> Z.testbit (msk s x) i = bool_decide (i < num s /\ x ∈ pre i l);
}.

Lemma begun_mask p x q c j s : linked l s -> sizes n bs s -> l = p ++ x :: q -> vsize p = c -> passed c j s -> begun p j s ->
  begun (p ++ [x]) j (upd x (with_mask (rest j (num s))) s).
Proof.
  intros L [(S1 & S2 & S3 & S4 & S5) S6 _] El Hc (P1 & P2 & P3) [B1 B2]. constructor; [done|]. change (num (upd x _ s)) with (num s).
  pose proof (lk_nodup _ _ L) as Hnd. assert (forall y, y ∈ p ++ [x] -> inside s y) as Hin.
  { intros y Hy. apply (lk_all _ _ L). rewrite El. apply elem_of_app. apply elem_of_app in Hy as [?| ->%list_elem_of_singleton]; [by left|right; by left]. }
  intros y i Hy Hi. pose proof (Hin y Hy). rewrite at_upd by (lia || (apply Hin, elem_of_app; right; by left)). destruct (decide (y = x)) as [->|Hne].
  - cbn [inCachesMask with_mask]. rewrite rest_bit by lia. apply bool_decide_ext. rewrite El in *. split.
    + intros Hi'. split; [lia|]. apply pre_mem; [done|by apply fits_ge|]. rewrite Hc. apply (passed_mask (num s) c j i); first [done|lia].
    + intros [Hlt Hx]. apply pre_mem in Hx; [|done|by apply fits_ge]. rewrite Hc in Hx. apply (passed_mask (num s) c j i); first [done|lia].
  - apply elem_of_app in Hy as [Hy|?%list_elem_of_singleton]; [by apply B2|done].
Qed.

Lemma begun_boundary p x q j s : 0 <= j < num s -> l = p ++ x :: q -> fits j = vsize p + 1 -> begun (p ++ [x]) j s ->
  begun (p ++ [x]) (j + 1) (with_tracking (with_boundaries (<[Z.to_nat j := Some x]> (bnd s)) (cacheTracking s)) s).
Proof.
  intros Hj El Ef [[B1 B1'] B2]. constructor; [|exact B2]. cbn [boundaries cacheTracking with_tracking with_boundaries numTrackedCaches]. split.
  - unfold vsize in *. by rewrite length_insert.
  - intros i Hi. destruct (decide (i = j)) as [->|Hne].
    + rewrite vget_insert by lia. by rewrite El, pre_last, last_snoc.
    + rewrite <- B1' by lia. unfold vget. destruct (Z.ltb_spec i 0); [done|]. by rewrite list_lookup_insert_ne by lia.
Qed.

Lemma track_loop_run : forall q p c j fuel s, linked l s -> sizes n bs s -> (forall i, 0 <= i < num s -> fits i < n) -> l = p ++ q -> vsize p = c ->
  (q <> [] -> passed c j s) -> (q = [] -> j = num s) -> begun p j s -> (length q <= fuel)%nat ->
  exists s', track_loop fuel (head q) (last l) (c * bs) (fits j * bs) (rest j (num s)) j s = Ok s' /\ retracks s s' /\ begun l (num s) s'.
Proof.
  induction q as [|x q IH]; intros p c j fuel s L Z0 HF El Hc Hp Hq B Hf.
  { exists s. split; [by destruct fuel|]. split; [apply retracks_refl|]. rewrite app_nil_r in El. subst p. by rewrite <- Hq. }
  pose proof Z0 as [(S1 & S2 & S3 & S4 & S5) S6 [S7 S8]]. destruct fuel as [|fuel]; [cbn in Hf; lia|]. cbn [head track_loop]. pose proof (Hp ltac:(done)) as P.
  assert (x ∈ l) as Hx by (rewrite El; apply elem_of_app; right; by left). pose proof (proj1 (lk_all _ _ L x) Hx) as Ix. rewrite set_run by done. cbn [obind].
  pose proof (begun_mask p x q c j s L Z0 El Hc P B) as B1. pose proof (retracks_mask s x (fun _ => rest j (num s)) Ix) as R1. set (s1 := upd x _ s) in *.
  pose proof (retracks_linked _ _ _ R1 L) as L1. destruct (retracks_sizes _ _ R1) as [En1 Z1]. specialize (Z1 Z0). change (ct_blkSize (cacheTracking s1)) with (ct_blkSize (cacheTracking s)).
  rewrite S7. pose proof (lk_nodup _ _ L) as Hnd. rewrite El in Hnd. assert (0 <= c) as Hc0 by (unfold vsize in Hc; lia). destruct P as (P1 & P2 & P3).
  assert (forall s2, retracks s s2 -> get_block (Some x) s2 = Ok (blk_at s2 x) /\ fa_next (blk_at s2 x) = head q) as Hg.
  { intros s2 R2. pose proof (retracks_linked _ _ _ R2 L) as L2. split; [apply get_run; by apply (lk_all _ _ L2)|]. rewrite (lk_next _ _ L2 x Hx), El. by apply next_in_self. }
  assert (l = (p ++ [x]) ++ q) as El' by (by rewrite <- app_assoc). assert (vsize (p ++ [x]) = c + 1) as Hc' by (unfold vsize in *; rewrite length_app; cbn; lia).
  destruct q as [|y q].
  - unfold same_ptr. rewrite bool_decide_eq_true_2 by (by rewrite El, last_snoc). rewrite andb_false_r. cbn [obind negb]. destruct (Hg s1 R1) as [-> Enx]. cbn [obind]. rewrite Enx.
    exists s1. split; [by destruct fuel|]. split; [done|]. rewrite El' at 1. rewrite app_nil_r. replace (num s) with j; [done|].
    destruct (decide (j = num s)) as [|Hne]; [done|]. specialize (HF j ltac:(lia)). rewrite <- Hn, El', app_nil_r in HF. lia.
  - assert (c + 1 < n) as Hlt by (rewrite <- Hn, El; unfold vsize in *; rewrite length_app; cbn [length]; lia).
    destruct (passed_next n bs c j s Z0 (conj P1 (conj P2 P3)) Hc0 Hlt) as (E1 & E2 & E3). rewrite E1. unfold same_ptr. rewrite bool_decide_eq_false_2.
    2:{ rewrite El, last_app_cons, last_cons_cons. intros E. apply NoDup_app in Hnd as (_ & _ & Hd). apply NoDup_cons in Hd as [Hd _]. by apply Hd, last_Some_elem_of. }
    assert (u32 (c * bs + bs) = (c + 1) * bs) as -> by (rewrite uwrap_small; nia). destruct (Z.eqb_spec (c + 1) (fits j)) as [E|E]; cbn [andb negb].
    + destruct (E2 E) as (Hj & P' & Esh). assert (0 <= j < vsize (bnd s1)) as Hjb by (rewrite (proj1 (bg_bnd _ _ _ B1)); lia).
      destruct (set_boundary s1 j (Some x) Hjb) as [Es R2]. rewrite Es. cbn [obind]. rewrite bit_of by lia. cbn [obind]. rewrite Esh, rest_next by lia.
      set (s2 := with_tracking _ s1) in *. assert (retracks s s2) as R by (by eapply retracks_trans). destruct (Hg s2 R) as [-> Enx]. cbn [obind]. rewrite Enx.
      destruct (retracks_sizes _ _ R) as [En2 Z2].
      destruct (IH (p ++ [x]) (c + 1) (j + 1) fuel s2) as (s' & E' & R' & B'); [by eapply retracks_linked|auto|by rewrite En2|done|done| |done| |cbn in *; lia|].
      * intros _. unfold passed. rewrite En2. exact P'.
      * apply (begun_boundary p x (y :: q)); [lia|done|lia|done].
      * rewrite En2 in *. exists s'. split; [exact E'|]. split; [by eapply retracks_trans|done].
    + cbn [obind]. destruct (Hg s1 R1) as [-> Enx]. cbn [obind]. rewrite Enx. destruct (IH (p ++ [x]) (c + 1) j fuel s1) as (s' & E' & R' & B'); [done|done|by rewrite En1|done|done| |done|done|cbn in *; lia|].
      * intros _. unfold passed. rewrite En1. exact (E3 E).
      * rewrite En1 in *. exists s'. split; [exact E'|]. split; [by eapply retracks_trans|done].
Qed.
End Walk.

Lemma linked_size l s : linked l s -> vsize l = vsize (fa_blks s).
Proof.
  intros L. assert (l ≡ₚ seqZ 0 (vsize (fa_blks s))) as Hp.
  { apply NoDup_Permutation; [apply L|apply NoDup_seqZ|]. intros x. rewrite (lk_all _ _ L), elem_of_seqZ. lia. }
  unfold vsize at 1. rewrite Hp, length_seqZ. unfold vsize. lia.
Qed.

Lemma rest_all N : rest 0 N = Z.ones N.
Proof. unfold rest. change (Z.lnot (Z.ones 0)) with (-1). apply Z.land_m1_r. Qed.

Lemma fits_0 : fits 0 = m.
Proof. unfold fits. lia. Qed.

Lemma check_run l n bs s : linked l s -> tracked l s -> vsize l = n -> sizes n bs s -> check (fa_head s) (fa_tail s) s = Ok tt.
Proof.
  intros L T Hn Z0. pose proof Z0 as [(S1 & S2 & S3 & S4 & S5) S6 [S7 S8]]. destruct (lk_ends _ _ L) as [-> ->]. destruct (tr_num _ _ T) as (_ & _ & Ea).
  unfold check. cbv zeta. rewrite S8, Ea, <- rest_all, <- fits_0. change 0 with (0 * bs) at 1. apply (check_loop_run l n bs Hn s L T Z0 l []); [done|done| |].
  - intros _. split; [lia|]. rewrite fits_0. split; [lia|]. intros i ?. lia.
  - pose proof (linked_size _ _ L). unfold vsize in *. lia.
Qed.

Lemma track_init_run l n bs s : linked l s -> vsize l = n -> l <> [] -> sizes n bs s -> (forall i, 0 <= i < num s -> fits i < n) ->
  vsize (bnd s) = num s -> inAllCachesMask (cacheTracking s) = Z.ones (num s) -> (forall x, x ∈ l -> msk s x = 0) ->
  exists s', track_init (fa_head s) (fa_tail s) s = Ok s' /\ retracks s s' /\ tracked l s'.
Proof.
  intros L Hn Hne Z0 HF Hb Ea Hm. pose proof Z0 as [(S1 & S2 & S3 & S4 & S5) S6 [S7 S8]]. destruct (lk_ends _ _ L) as [-> ->]. unfold track_init. cbv zeta.
  assert (forall i, 0 <= i < num s -> 2 <= fits i < vsize l) as Hfit by (intros i Hi; rewrite Hn; split; [apply fits_ge; lia|auto]).
  destruct (Z.eqb_spec (num s) 0) as [E0|E0]; cbn [negb].
  - exists s. split; [by destruct (length (fa_blks s))|]. split; [apply retracks_refl|]. constructor; [done|done|lia|]. intros x i Hx Hi. rewrite Hm, Z.bits_0 by done.
    symmetry. apply bool_decide_eq_false. lia.
  - rewrite S8, Ea, <- rest_all, <- fits_0. change 0 with (0 * bs) at 1.
    destruct (track_loop_run l n bs Hn l [] 0 0 (length (fa_blks s)) s L Z0 HF) as (s' & E & R & [[B1 B1'] B2]); [done|done| |done| | |].
    + intros _. split; [lia|]. rewrite fits_0. split; [lia|]. intros i ?. lia.
    + constructor; [split; [done|lia]|]. by intros x i ?%not_elem_of_nil.
    + pose proof (linked_size _ _ L). unfold vsize in *. lia.
    + exists s'. split; [exact E|]. split; [done|]. destruct (retracks_sizes n bs _ _ R) as [En _].
      assert (inAllCachesMask (cacheTracking s') = Z.ones (num s')) as Ea' by (destruct R as ((bd & bl & ->) & _); exact Ea).
      constructor; rewrite ?En in *; try done.
Qed.

(** ** [tagsInit] *)
Definition fresh (b : FALRUBlk) : Prop := inCachesMask b = 0 /\ has_extractor (fa_blk b) = false /\ isValid (fa_blk b) = false.

(** The first [k] blocks are linked. *)
Record placed (n k : Z) (s0 s : FALRU) : Prop := {
  pl_frame : exists bl, s = with_blks bl s0;
  pl_size : vsize (fa_blks s) = n;
  pl_links : forall x, 0 <= x < k -> fa_prev (blk_at s x) = (if x =? 0 then None else Some (x - 1)) /\ fa_next (blk_at s x) = Some (x + 1);
  pl_fresh : forall x, 0 <= x < n -> fresh (blk_at s x);
}.

Lemma place_run n k s0 s p q : placed n k s0 s -> 0 <= k < n -> p = (if k =? 0 then None else Some (k - 1)) ->
  exists s', place_block (Some k) p q k s = Ok s' /\ (exists bl, s' = with_blks bl s0) /\ vsize (fa_blks s') = n /\ (forall x, 0 <= x < n -> fresh (blk_at s' x)) /\
    (forall x, 0 <= x < k -> fa_prev (blk_at s' x) = (if x =? 0 then None else Some (x - 1)) /\ fa_next (blk_at s' x) = Some (x + 1)) /\
    fa_prev (blk_at s' k) = p /\ fa_next (blk_at s' k) = q.
Proof.
  intros [(bl & Es) P2 P3 P4] Hk Hp. unfold place_block. rewrite set_run by (by rewrite P2). eexists. split; [done|].
  split; [rewrite Es; eexists; by destruct s0|]. split; [by rewrite size_upd|].
  assert (inside s k) as Ik by (by rewrite P2). split_and!.
  - intros x Hx. rewrite at_upd by (done || lia). destruct (decide (x = k)) as [->|]; [|by apply P4]. apply (P4 k Hk).
  - intros x Hx. rewrite at_upd by (done || lia). rewrite decide_False by lia. by apply P3.
  - rewrite at_upd by (done || lia). by rewrite decide_True.
  - rewrite at_upd by (done || lia). by rewrite decide_True.
Qed.

Lemma place_next n k s0 s : placed n k s0 s -> 0 <= k -> k + 1 < n -> exists s', place_block (Some k) (if k =? 0 then None else Some (k - 1)) (Some (k + 1)) k s = Ok s' /\
  placed n (k + 1) s0 s'.
Proof.
  intros P Hk Hn. destruct (place_run n k s0 s _ (Some (k + 1)) P ltac:(lia) eq_refl) as (s' & E & F1 & F2 & F3 & F4 & F5 & F6). exists s'. split; [done|].
  constructor; try done. intros x Hx. destruct (decide (x = k)) as [->|]; [done|]. apply F4. lia.
Qed.

Lemma address_run s i : 0 <= i <= vsize (fa_blks s) -> address_of i s = Ok (Some i).
Proof. intros Hi. unfold address_of. by replace ((0 <=? i) && (i <=? vsize (fa_blks s))) with true by lia. Qed.

Lemma place_blocks_run n s0 : forall k i s, placed n i s0 s -> 1 <= i -> i + Z.of_nat k = n - 1 ->
  exists s', place_blocks (seqZ i (Z.of_nat k)) s = Ok s' /\ placed n (n - 1) s0 s'.
Proof.
  induction k as [|k IH]; intros i s P Hi Hk.
  { exists s. split; [done|]. by replace (n - 1) with i by lia. }
  rewrite seqZ_cons by lia. cbn [place_blocks]. pose proof (pl_size _ _ _ _ P) as Hz. rewrite !address_run by lia. cbn [obind].
  destruct (place_next n i s0 s P ltac:(lia) ltac:(lia)) as (s1 & E & P1). replace (i =? 0) with false in E by lia. rewrite E. cbn [obind].
  replace (Z.pred (Z.of_nat (S k))) with (Z.of_nat k) by lia. rewrite <- Z.add_1_r. apply IH; [done|lia|lia].
Qed.

Lemma seqZ_at n x : 0 <= x < n -> seqZ 0 n = seqZ 0 x ++ x :: seqZ (x + 1) (n - x - 1).
Proof.
  intros Hx. replace n with (x + (n - x)) at 1 by lia. rewrite seqZ_app by lia. f_equal. rewrite seqZ_cons by lia. rewrite Z.add_0_l. f_equal.
Qed.

Lemma head_seqZ a n : head (seqZ a n) = if 0 <? n then Some a else None.
Proof. destruct (Z.ltb_spec 0 n); [by rewrite seqZ_cons by lia|]. by rewrite seqZ_nil by lia. Qed.

Lemma last_seqZ a n : last (seqZ a n) = if 0 <? n then Some (a + n - 1) else None.
Proof.
  destruct (Z.ltb_spec 0 n); [|by rewrite seqZ_nil by lia]. replace n with ((n - 1) + 1) at 1 by lia. rewrite seqZ_app by lia. change (seqZ (a + (n - 1)) 1) with [a + (n - 1)].
  rewrite last_snoc. f_equal. lia.
Qed.

Lemma init_links n s : fa_numBlocks s = n -> 2 <= n < 2 ^ 32 -> vsize (fa_blks s) = n -> (forall x, 0 <= x < n -> fresh (blk_at s x)) ->
  exists s', fa_tagsInit s = track_init (fa_head s') (fa_tail s') s' /\ linked (seqZ 0 n) s' /\ (forall x, 0 <= x < n -> fresh (blk_at s' x)) /\
    exists bl, s' = with_ends (Some 0) (Some (n - 1)) (with_blks bl s).
Proof.
  intros En Hn Hz Hf. unfold fa_tagsInit. rewrite En. cbv zeta. rewrite address_run by lia. cbn [obind]. set (sa := with_ends (Some 0) (fa_tail s) s).
  rewrite address_run by (cbn; lia). cbn [obind].
  assert (placed n 0 sa sa) as P0 by (constructor; [exists (fa_blks sa); by destruct sa|done|lia|done]).
  destruct (place_next n 0 sa sa P0 ltac:(lia) ltac:(lia)) as (s1 & E1 & P1). change (if 0 =? 0 then None else Some (0 - 1)) with (@None Z) in E1. change (0 + 1) with 1 in E1. rewrite E1. cbn [obind].
  rewrite !uwrap_small by lia. destruct (place_blocks_run n sa (Z.to_nat (n - 2)) 1 s1 P1 ltac:(lia) ltac:(lia)) as (s2 & E2 & P2).
  rewrite Z2Nat.id in E2 by lia. replace (n - 1 - 1) with (n - 2) by lia. rewrite E2. cbn [obind]. pose proof (pl_size _ _ _ _ P2) as Hz2. rewrite address_run by lia. cbn [obind].
  rewrite address_run by (cbn; lia). cbn [obind]. set (sb := with_ends (Some 0) (Some (n - 1)) s2).
  assert (placed n (n - 1) sb sb) as Pb by (destruct P2 as [_ ? ? ?]; constructor; [exists (fa_blks sb); by destruct sb|done|done|done]).
  destruct (place_run n (n - 1) sb sb (Some (n - 2)) None Pb ltac:(lia)) as (s3 & E3 & (bl & F1) & F2 & F3 & F4 & F5 & F6); [by replace (n - 1 =? 0) with false by lia; f_equal; lia|].
  rewrite E3. cbn [obind]. exists s3. split; [done|]. split; [|split; [done|]].
  - assert (fa_head s3 = Some 0 /\ fa_tail s3 = Some (n - 1)) as [Eh Et] by (by rewrite F1). constructor.
    + apply NoDup_seqZ.
    + intros x. rewrite elem_of_seqZ, F2. lia.
    + rewrite Eh, Et, head_seqZ, last_seqZ. replace (0 <? n) with true by lia. split; [done|]. f_equal; lia.
    + intros x Hx%elem_of_seqZ. rewrite (seqZ_at n x) by lia. rewrite next_in_self by (rewrite <- seqZ_at by lia; apply NoDup_seqZ). rewrite head_seqZ.
      destruct (decide (x = n - 1)) as [->|]; [by replace (0 <? n - (n - 1) - 1) with false by lia|]. replace (0 <? n - x - 1) with true by lia. by apply F4; lia.
    + intros x Hx%elem_of_seqZ. rewrite (seqZ_at n x) by lia. rewrite prev_in_self by (rewrite <- seqZ_at by lia; apply NoDup_seqZ). rewrite last_seqZ.
      destruct (decide (x = n - 1)) as [->|]; [rewrite F5; replace (0 <? n - 1) with true by lia; f_equal; lia|]. rewrite (proj1 (F4 x ltac:(lia))).
      destruct (Z.eqb_spec x 0) as [->|]; [done|]. replace (0 <? x) with true by lia. f_equal; lia.
  - exists bl. destruct P2 as [(bl2 & Es2) _ _ _]. rewrite F1. unfold sb. rewrite Es2. by destruct s.
Qed.
End Tracking.
