(* ===== verification/FALRUProps.v ===== *)
(** The fully associative LRU tag store: its list is the order of recency and the
    caches tracked with it are prefixes of that list; but nothing can be
    inserted, and a hit counts as one in every cache. *)
From Stdlib Require Import ZArith Lia Bool.
From stdpp Require Import base numbers gmap list.
From S2P Require Import Prelude ReplBase Bitfield Intmath Double Indexing CacheBlk Partition Tags FALRU FALRUInv.
Local Open Scope Z_scope.

(** ** Construction *)

(** The number of caches tracked. *)
Lemma tracked_count size bs m n : size = 2 ^ Z.log2 size -> bs = 2 ^ Z.log2 bs -> 0 < size < 2 ^ 32 -> 0 < bs -> size = n * bs -> 2 <= m -> m * bs < 2 ^ 32 ->
  let N := if m * bs <? size then Z.log2 size - Z.log2 (m * bs) else 0 in
  0 <= N <= 32 /\ n <= fits m N /\ fits m N * bs < 2 ^ 32 /\ forall i, 0 <= i < N -> fits m i < n.
Proof.
  intros Hs Hb Hsz Hbs En Hm Hmin N. set (a := Z.log2 size) in *. set (c := Z.log2 bs) in *. pose proof (Z.log2_nonneg size : 0 <= a) as Ha0. pose proof (Z.log2_nonneg bs : 0 <= c) as Hc0.
  assert (a < 32) as Ha by (apply (Z.pow_lt_mono_r_iff 2); lia).
  assert (Z.log2 (m * bs) = Z.log2 m + c) as El by (rewrite Hb; rewrite Z.log2_mul_pow2 by lia; lia). set (d := Z.log2 m) in *.
  pose proof (Z.log2_spec m ltac:(lia)) as Hd. fold d in Hd. pose proof (Z.log2_nonneg m : 0 <= d) as Hd0. assert (0 < 2 ^ d) by (apply Z.pow_pos_nonneg; lia).
  unfold N. destruct (Z.ltb_spec (m * bs) size) as [Hlt|Hge]; [|rewrite fits_0; split_and!; nia].
  rewrite El. assert (d + c <= a) as Hdc by (rewrite <- El; apply Z.log2_le_mono; lia).
  assert (n = 2 ^ (a - c)) as En' by (apply (Z.mul_reg_r _ _ bs); [lia|]; rewrite <- En, Hs, Hb at 1; rewrite <- Z.pow_add_r by lia; f_equal; lia).
  assert (forall i, 0 <= i -> 2 ^ (d + i) <= fits m i < 2 ^ (d + 1 + i)) as Hfit.
  { intros i Hi. unfold fits. rewrite !Z.pow_add_r by lia. change (Z.succ d) with (d + 1) in Hd. rewrite Z.pow_add_r in Hd by lia. assert (0 < 2 ^ i) by (apply Z.pow_pos_nonneg; lia). nia. }
  split; [lia|]. split; [|split].
  - rewrite En'. replace (a - c) with (d + (a - (d + c))) by lia. apply Hfit. lia.
  - destruct (Hfit (a - (d + c)) ltac:(lia)) as [_ Hup]. apply (Z.lt_le_trans _ (2 ^ (d + 1 + (a - (d + c))) * bs)); [nia|]. rewrite Hb, <- Z.pow_add_r by lia.
    apply Z.pow_le_mono_r; lia.
  - intros i Hi. rewrite En'. destruct (Hfit i ltac:(lia)) as [_ Hup]. apply (Z.lt_le_trans _ _ _ Hup). apply Z.pow_le_mono_r; lia.
Qed.

(** The parameters: at least two blocks, and the smallest cache that is tracked
    has [m] of them, two or more. *)
Record reasonable (p : BaseSetAssocParams) (min m : Z) : Prop := {
  rs_size : 0 < p_size p < 2 ^ 32 /\ 0 < p_block_size p < 2 ^ 32 /\ 2 * p_block_size p <= p_size p;
  rs_min : min = m * p_block_size p /\ 2 <= m /\ min < 2 ^ 32;
}.

Lemma pow2_of w n : 0 < n < 2 ^ w -> isPowerOf2 w n = true -> n = 2 ^ Z.log2 n.
Proof. intros Hn H. apply isPowerOf2_spec in H as (k & Hk & ->); [|lia]. by rewrite Z.log2_pow2. Qed.

Lemma divide_pow2 a b : a = 2 ^ Z.log2 a -> b = 2 ^ Z.log2 b -> 0 < b <= a -> a = a / b * b.
Proof.
  intros Ea Eb H. assert (Z.log2 b <= Z.log2 a) by (apply Z.log2_le_mono; lia). pose proof (Z.log2_nonneg b).
  assert (a = 2 ^ (Z.log2 a - Z.log2 b) * b) as E by (rewrite Eb at 2; rewrite <- Z.pow_add_r by lia; rewrite Ea at 1; f_equal; lia).
  rewrite E at 2. rewrite Z.div_mul by lia. exact E.
Qed.

#[local] Abbreviation num s := (numTrackedCaches (cacheTracking s)).

Lemma new_tracking min size bs c : new_CacheTracking min size bs = Ok c -> 0 < size < 2 ^ 32 -> 0 < min < 2 ^ 32 ->
  let N := if min <? size then Z.log2 size - Z.log2 min else 0 in N <= 32 /\
  c = mkTracking bs min N (u32 (mask N)) (replicate (Z.to_nat N) None) (replicate (Z.to_nat (N + 1)) 0) (replicate (Z.to_nat (N + 1)) 0) 0.
Proof.
  intros H Hs Hm. unfold new_CacheTracking in H. inv_ok H. injection H as <-. assert (a = if min <? size then Z.log2 size - Z.log2 min else 0) as <-.
  { destruct (min <? size); [|by injection Hrun]. rewrite !floorLog2_log2 in Hrun by lia. by injection Hrun. }
  unfold ocheck in *. destruct (Z.leb_spec a 32); [done|discriminate].
Qed.

Lemma new_facts p min mgr junk tick s0 m : new_FALRU p min mgr junk tick = Ok s0 -> reasonable p min m ->
  let n := p_size p / p_block_size p in
  fa_numBlocks s0 = n /\ 2 <= n < 2 ^ 32 /\ vsize (fa_blks s0) = n /\ (forall x, 0 <= x < n -> fresh (blk_at s0 x)) /\
  sizes m n (p_block_size p) s0 /\ (forall i, 0 <= i < num s0 -> fits m i < n) /\ vsize (boundaries (cacheTracking s0)) = num s0 /\
  inAllCachesMask (cacheTracking s0) = Z.ones (num s0).
Proof.
  intros H [(R1 & R2 & R3) (R4 & R5 & R6)] n. unfold new_FALRU in H. inv_ok H. rewrite !(uwrap_small 32) in * by lia. rewrite (uwrap_small 64) in Hrun by lia.
  unfold udiv in Hrun. replace (p_block_size p =? 0) with false in Hrun by lia. injection Hrun as <-. fold n in H. injection H as <-.
  assert (isPowerOf2 32 (p_block_size p) = true /\ isPowerOf2 32 (p_size p) = true) as [Pb Ps] by (split; [destruct (isPowerOf2 32 (p_block_size p))|destruct (isPowerOf2 32 (p_size p))]; done).
  apply pow2_of in Pb, Ps; [|lia|lia]. pose proof (divide_pow2 _ _ Ps Pb ltac:(lia)) as En. fold n in En.
  destruct (new_tracking min (p_size p) (p_block_size p) _ ltac:(eassumption) ltac:(lia) ltac:(nia)) as (N1 & ->). rewrite R4 in *.
  destruct (tracked_count (p_size p) (p_block_size p) m n Ps Pb R1 ltac:(lia) En R5 R6) as (T1 & T2 & T3 & T4). set (N := if _ <? _ then _ else _) in *.
  assert (2 <= n < 2 ^ 32) as Hn by nia. rewrite (uwrap_small 32 n) by lia. cbn [fa_numBlocks fa_blks cacheTracking numTrackedCaches boundaries inAllCachesMask].
  split; [done|]. split; [done|]. split; [unfold vsize; rewrite length_replicate; lia|]. split.
  - intros x Hx. unfold blk_at. cbn [fa_blks]. rewrite lookup_replicate_2 by lia. cbn. match goal with E : new_CacheBlk junk = Ok _ |- _ => vm_compute in E; by injection E as <- end.
  - split; [|split; [done|split]].
    + constructor; cbn [cacheTracking numTrackedCaches ct_blkSize minTrackedSize]; [split_and!; lia|done|done].
    + unfold vsize. rewrite length_replicate. lia.
    + rewrite mask_ones, Z.min_l by lia. apply uwrap_small. rewrite Z.ones_equiv. assert (2 ^ N <= 2 ^ 32) by (apply Z.pow_le_mono_r; lia). assert (0 < 2 ^ N) by (apply Z.pow_pos_nonneg; lia). lia.
Qed.

(** ** The order of recency *)

(** The blocks one meets along the pointers. *)
Fixpoint follow (dir : FALRUBlk -> option Z) (fuel : nat) (p : option Z) (s : FALRU) : list Z :=
  match fuel, p with
  | Datatypes.S fuel', Some x => x :: follow dir fuel' (dir (blk_at s x)) s
  | _, _ => []
  end.

Lemma follow_run (dir : FALRUBlk -> option Z) l s : NoDup l -> (forall x, x ∈ l -> dir (blk_at s x) = next_in l x) -> follow dir (length l) (head l) s = l.
Proof.
  intros Hn Hd. assert (forall q p, l = p ++ q -> follow dir (length q) (head q) s = q) as H; [|by apply (H l [])].
  induction q as [|x q IH]; intros p El; [done|]. cbn [length head follow]. f_equal. rewrite Hd by (rewrite El; apply elem_of_app; right; by left).
  assert (next_in l x = head q) as -> by (rewrite El in *; by apply next_in_self). apply (IH (p ++ [x])). by rewrite <- app_assoc.
Qed.

Lemma init_run p min mgr junk tick s0 m : new_FALRU p min mgr junk tick = Ok s0 -> reasonable p min m -> let n := p_size p / p_block_size p in
  exists s1, fa_tagsInit s0 = Ok s1 /\ linked (seqZ 0 n) s1 /\ tracked m (seqZ 0 n) s1 /\ sizes m n (p_block_size p) s1 /\ 2 <= n.
Proof.
  intros H Hr n. destruct (new_facts _ _ _ _ _ _ _ H Hr) as (F1 & F2 & F3 & F4 & F5 & F6 & F7 & F8). fold n in F1, F2, F3, F4, F5, F6.
  destruct (init_links n s0 F1 F2 F3 F4) as (s1 & -> & L & Fr & (bl & E1)).
  assert (cacheTracking s1 = cacheTracking s0) as Ec by (by rewrite E1). assert (sizes m n (p_block_size p) s1) as Z1 by (destruct F5; constructor; rewrite Ec; done).
  destruct (track_init_run m (seqZ 0 n) n (p_block_size p) s1 L) as (s2 & E2 & R2 & T2); rewrite ?Ec; try done.
  - unfold vsize. rewrite length_seqZ. lia.
  - rewrite seqZ_cons by lia. done.
  - intros x Hx%elem_of_seqZ. apply Fr. lia.
  - exists s2. split; [done|]. split; [by eapply retracks_linked|]. split; [done|]. split; [by eapply retracks_sizes|lia].
Qed.

(** C25 (invariant). The blocks of a fully associative LRU tag store are in order
    of recency.  From [tagsInit] on, whatever blocks are moved to the head or to
    the tail and in whatever order, the moves always return; the list along the
    [next] pointers is the order those moves give, and along the [prev] pointers
    its reverse; the victim is the last block of it; [inCachesMask] has the bit
    of a tracked cache exactly for the blocks that are among the first ones its
    size allows; and the check of a debug build finds nothing wrong.  The
    smallest tracked cache must have at least two blocks. *)
Theorem falru_keeps_recency_order p min mgr junk tick s0 m : new_FALRU p min mgr junk tick = Ok s0 -> reasonable p min m ->
  let n := p_size p / p_block_size p in exists s1, fa_tagsInit s0 = Ok s1 /\
  forall mvs, Forall (fun mv => 0 <= moved mv < n) mvs -> exists s, run_moves mvs s1 = Ok s /\
    let l := foldl reorder (seqZ 0 n) mvs in
    follow fa_next (Z.to_nat n) (fa_head s) s = l /\ follow fa_prev (Z.to_nat n) (fa_tail s) s = reverse l /\ fa_findVictim s = (last l, [last l]) /\
    (forall x i, 0 <= x < n -> 0 <= i < num s -> Z.testbit (inCachesMask (blk_at s x)) i = bool_decide (x ∈ take (Z.to_nat (m * 2 ^ i)) l)) /\
    check (fa_head s) (fa_tail s) s = Ok tt.
Proof.
  intros H Hr n. destruct (init_run _ _ _ _ _ _ _ H Hr) as (s1 & E1 & L1 & T1 & Z1 & Hn). fold n in L1, T1, Z1, Hn. clearbody n. exists s1. split; [done|]. intros mvs HF.
  destruct (moves_run m mvs (seqZ 0 n) s1 L1 T1) as (s & E & L & T & S0); [eapply Forall_impl; [exact HF|]; intros mv Hm; cbn in Hm; apply elem_of_seqZ; lia|].
  exists s. split; [done|]. cbv zeta. set (l := foldl reorder (seqZ 0 n) mvs) in *. pose proof (linked_size _ _ L) as Hz. destruct S0 as (Hz' & S0). pose proof (linked_size _ _ L1) as Hz1.
  assert (vsize l = n) as Hl by (rewrite Hz, Hz', <- Hz1; unfold vsize; rewrite length_seqZ; lia). assert (Z.to_nat n = length l) as El by (unfold vsize in Hl; lia).
  destruct (lk_ends _ _ L) as [Eh Et]. split_and!.
  - rewrite El, Eh. apply follow_run; [apply L|]. intros x Hx. by apply (lk_next _ _ L).
  - rewrite El, Et, <- head_reverse, <- length_reverse. apply follow_run; [apply NoDup_reverse, L|]. intros x Hx. rewrite elem_of_reverse in Hx. exact (lk_prev _ _ L x Hx).
  - unfold fa_findVictim. by rewrite Et.
  - intros x i Hx Hi. rewrite (tr_mask _ _ _ T) by (lia || (apply (lk_all _ _ L); lia)). apply bool_decide_ext. unfold pre, fits. split; [by intros [_ ?]|]. intros; split; [lia|done].
  - apply (check_run m l n (p_block_size p)); try done. eapply same_store_sizes; [|exact Z1]. by split.
Qed.

Module DemoFALRU.
(** Sixteen blocks of 64 bytes; caches of two, four and eight blocks are tracked. *)
Definition params : BaseSetAssocParams := mkTagParams 1024 64 64 1 1 0 false 2.
Definition made : FALRU := match new_FALRU params 128 false 0 5 with Ok s => s | Fault _ => mkFALRU 0 0 0 0 0 0 false 0 (new_TagStats 2) [] None None ∅ (mkTracking 0 0 0 0 [] [] [] 0) 0 end.
Definition moves : list move := [ToHead 5; ToTail 0; ToHead 15; ToHead 5; ToTail 3; ToHead 3].
End DemoFALRU.

Lemma falru_keeps_recency_order_witness : exists s1, fa_tagsInit DemoFALRU.made = Ok s1 /\
  exists s, run_moves DemoFALRU.moves s1 = Ok s /\ follow fa_next 16 (fa_head s) s = [3; 5; 15; 1; 2; 4; 6; 7; 8; 9; 10; 11; 12; 13; 14; 0] /\
    check (fa_head s) (fa_tail s) s = Ok tt.
Proof.
  destruct (falru_keeps_recency_order DemoFALRU.params 128 false 0 5 DemoFALRU.made 2 eq_refl) as (s1 & E1 & H); [by repeat split; vm_compute|].
  exists s1. split; [exact E1|]. destruct (H DemoFALRU.moves) as (s & E & Hl & _ & _ & _ & Hc).
  - repeat constructor; cbn; vm_compute; done.
  - exists s. split; [exact E|]. split; [exact Hl|exact Hc].
Defined.

(** ** Nothing is inserted *)

(** Nothing is in the hash table, and no block can extract a tag. *)
Definition hollow (s : FALRU) : Prop := tagHash s = ∅ /\ Forall (fun b => has_extractor (fa_blk b) = false) (fa_blks s).

Lemma hollow_get p s b : hollow s -> get_block p s = Ok b -> has_extractor (fa_blk b) = false.
Proof.
  intros [_ H] E. unfold get_block in E. inv_ok E. by apply (Forall_vget _ _ _ _ H) in E.
Qed.

Lemma hollow_set p f s s' : (forall b, has_extractor (fa_blk (f b)) = has_extractor (fa_blk b)) -> set_block p f s = Ok s' -> hollow s -> hollow s'.
Proof.
  intros Hf E Hs. unfold set_block in E. inv_ok E. injection E as <-. destruct Hs as [H1 H2]. split; [done|]. cbn.
  match goal with E : vset _ _ _ = Ok _ |- _ => apply vset_Ok_inv in E as [_ ->] end. apply Forall_insert; [done|].
  rewrite Hf. match goal with E : vget _ _ = Ok _ |- _ => by apply (Forall_vget _ _ _ _ H2) in E end.
Qed.

Lemma hollow_block p a b i s s' : place_block p a b i s = Ok s' -> hollow s -> hollow s'.
Proof. intros E. by eapply hollow_set; [|exact E]. Qed.

Lemma hollow_place l : forall s s', place_blocks l s = Ok s' -> hollow s -> hollow s'.
Proof.
  induction l as [|i l IH]; intros s s' E Hs; cbn [place_blocks] in E; [by injection E as <-|]. inv_ok E. apply (IH _ _ E). by eapply hollow_block; [eassumption|].
Qed.

Lemma hollow_track fuel : forall p t c z k j s s', track_loop fuel p t c z k j s = Ok s' -> hollow s -> hollow s'.
Proof.
  induction fuel as [|fuel IH]; intros p t c z k j s s' E Hs; destruct p as [x|]; cbn [track_loop] in E; try done; try by injection E as <-.
  inv_ok E. assert (hollow a) as Ha by (by eapply (hollow_set (Some x)); [|eassumption|]). destruct a0 as [[[z' k'] j'] a0]. inv_ok E. apply (IH _ _ _ _ _ _ _ _ E).
  destruct (_ && _) in Hrun0; [inv_ok Hrun0|]; by injection Hrun0 as <- <- <- <-.
Qed.

Lemma hollow_init p min mgr junk tick s0 s1 : new_FALRU p min mgr junk tick = Ok s0 -> fa_tagsInit s0 = Ok s1 -> hollow s1.
Proof.
  intros H0 H1. assert (hollow s0) as Hs.
  { unfold new_FALRU in H0. inv_ok H0. injection H0 as <-. split; [done|]. apply Forall_replicate. cbn.
    match goal with E : new_CacheBlk junk = Ok _ |- _ => vm_compute in E; by injection E as <- end. }
  unfold fa_tagsInit in H1. inv_ok H1. unfold track_init in H1. eapply hollow_track; [exact H1|]. eapply hollow_block; [eassumption|].
  assert (forall h t s, hollow s -> hollow (with_ends h t s)) as He by (intros h t s [? ?]; by split). apply He. eapply hollow_place; [eassumption|].
  eapply hollow_block; [eassumption|]. by apply He.
Qed.

Inductive fa_op := Access (pkt : Packet) | Insert (pkt : Packet) (blk : option Z) | Invalidate (blk : option Z).

Definition fa_do (g : Geometry) (op : fa_op) (s : FALRU) : outcome FALRU :=
  match op with
  | Access pkt => let? r := fa_accessBlock pkt s in Ok r.2
  | Insert pkt blk => fa_insertBlock g pkt blk s
  | Invalidate blk => fa_invalidate blk s
  end.

Fixpoint fa_run (g : Geometry) (ops : list fa_op) (s : FALRU) : outcome FALRU :=
  match ops with
  | [] => Ok s
  | op :: ops' => let? s := fa_do g op s in fa_run g ops' s
  end.

Lemma hollow_base_insert g pkt blk s s' : hollow s -> fa_base_insertBlock g pkt blk s <> Ok s'.
Proof.
  intros Hs E. unfold fa_base_insertBlock in E. inv_ok E.
  match goal with E : CacheBlk.insert _ _ _ _ _ _ (fa_blk ?b) = Ok _, G : get_block blk s = Ok ?b |- _ => pose proof (hollow_get _ _ _ Hs G) as Hx; rename E into Ei end.
  unfold CacheBlk.insert in Ei. inv_ok Ei. unfold insert_key in *. inv_ok Hrun5. unfold setValid, call_extractor in *. inv_ok Hrun6. injection Hrun6 as <-.
  cbn [has_extractor with_tagging] in *. by rewrite Hx in *.
Qed.

Lemma hollow_insert g pkt blk s : hollow s -> exists f, fa_insertBlock g pkt blk s = Fault f.
Proof.
  intros Hs. destruct (fa_insertBlock g pkt blk s) as [s'|f] eqn:E; [|by exists f]. exfalso. unfold fa_insertBlock in E. inv_ok E.
  by eapply hollow_base_insert.
Qed.

Lemma hollow_invalidate blk s : hollow s -> exists f, fa_invalidate blk s = Fault f.
Proof.
  intros [H _]. destruct (fa_invalidate blk s) as [s'|f] eqn:E; [|by exists f]. exfalso. unfold fa_invalidate in E. inv_ok E. rewrite H, lookup_empty in *. done.
Qed.

Lemma hollow_find key s : hollow s -> fa_findBlock key s = Ok None.
Proof. intros [H _]. unfold fa_findBlock. by rewrite H, lookup_empty. Qed.

Lemma hollow_access pkt s r : hollow s -> fa_accessBlock pkt s = Ok r -> hollow r.2.
Proof.
  intros Hs E. unfold fa_accessBlock in E. rewrite hollow_find in E by done. cbn [obind fst snd] in E. unfold recordAccess in E. inv_ok E.
  match goal with E : Ok _ = Ok r |- _ => injection E as <- end. cbn [snd]. inv_ok Hrun. injection Hrun as <-. exact Hs.
Qed.

(** C26 (error). A fully associative LRU tag store never holds a block.  Its
    [tagsInit] registers no tag extractor with the blocks, as that of the set
    associative store does, so whatever it is asked, no insertion ever returns:
    the only operations that do are accesses, and all of them miss. *)
Theorem falru_never_holds_a_block g p min mgr junk tick s0 s1 ops s : new_FALRU p min mgr junk tick = Ok s0 -> fa_tagsInit s0 = Ok s1 -> fa_run g ops s1 = Ok s ->
  Forall (fun op => exists pkt, op = Access pkt) ops /\ (forall key, fa_findBlock key s = Ok None) /\
  (forall pkt blk, exists f, fa_insertBlock g pkt blk s = Fault f) /\ forall blk, exists f, fa_invalidate blk s = Fault f.
Proof.
  intros H0 H1 Hr. pose proof (hollow_init _ _ _ _ _ _ _ H0 H1) as Hs. clear H0 H1.
  assert (Forall (fun op => exists pkt, op = Access pkt) ops /\ hollow s) as [Ho Hs'].
  { revert s1 Hs Hr. induction ops as [|op ops IH]; intros s1 Hs Hr; cbn in Hr; [by injection Hr as <-|]. inv_ok Hr. destruct op as [pkt|pkt blk|blk]; cbn in Hrun.
    - inv_ok Hrun. injection Hrun as <-. pose proof (hollow_access pkt s1 _ Hs ltac:(eassumption)) as H1. destruct (IH _ H1 Hr) as [? ?]. split; [|done].
      constructor; [by exists pkt|done].
    - destruct (hollow_insert g pkt blk s1 Hs) as [f E]. congruence.
    - destruct (hollow_invalidate blk s1 Hs) as [f E]. congruence. }
  split; [done|]. split_and!; intros; [by apply hollow_find|by apply hollow_insert|by apply hollow_invalidate].
Qed.

Lemma falru_never_holds_a_block_witness : exists s1 s, fa_tagsInit DemoFALRU.made = Ok s1 /\ fa_run (mkGeometry 1 1 1 0 0) [Access (mkPacket 4096 false 0 0 0)] s1 = Ok s /\
  fa_insertBlock (mkGeometry 1 1 1 0 0) (mkPacket 4096 false 0 0 0) (fa_tail s) s = Fault BadFunctionCall /\
  exists f, fa_insertBlock (mkGeometry 1 1 1 0 0) (mkPacket 4096 false 0 0 0) (fa_tail s) s = Fault f.
Proof.
  destruct (fa_tagsInit DemoFALRU.made) as [s1|] eqn:E1; [|vm_compute in E1; discriminate E1].
  destruct (fa_run (mkGeometry 1 1 1 0 0) [Access (mkPacket 4096 false 0 0 0)] s1) as [s|] eqn:E2; [|vm_compute in E1; injection E1 as <-; vm_compute in E2; discriminate E2].
  exists s1, s. split; [reflexivity|]. split; [exact E2|]. split; [vm_compute in E1; injection E1 as <-; vm_compute in E2; injection E2 as <-; vm_compute; reflexivity|].
  destruct (falru_never_holds_a_block (mkGeometry 1 1 1 0 0) DemoFALRU.params 128 false 0 5 DemoFALRU.made s1 [Access (mkPacket 4096 false 0 0 0)] s) as (_ & _ & H & _);
    [vm_compute; reflexivity|exact E1|exact E2|]. apply H.
Defined.

(** ** The counters *)

(** Hits and misses so far, in each cache. *)
Definition counted (c c' : CacheTracking) (up : Z -> bool) : Prop := vsize (hits c') = vsize (hits c) /\ numTrackedCaches c' = numTrackedCaches c /\
  forall i v, vget (hits c) i = Ok v -> vget (hits c') i = Ok (if up i then v + 1 else v).

Lemma record_hit i c : 0 <= i < vsize (hits c) -> exists c', record_in true i c = Ok c' /\ counted c c' (fun j => j =? i).
Proof.
  intros Hi. unfold record_in, count. destruct (vget_total _ _ Hi) as [v Hv]. rewrite Hv. cbn [obind]. rewrite vset_Ok by done. cbn [obind]. eexists. split; [done|].
  split; [unfold vsize; cbn; by rewrite length_insert|]. split; [done|]. intros j w Hw. cbn [hits]. destruct (Z.eqb_spec j i) as [->|Hne]; [rewrite vget_insert by done; congruence|].
  rewrite <- Hw. unfold vget. destruct (Z.ltb_spec j 0); [done|]. by rewrite list_lookup_insert_ne by lia.
Qed.

Lemma record_hits b N : (forall i, 0 <= i < N -> Z.testbit (inCachesMask b) i = true) -> N <= 32 -> forall k a c, 0 <= a -> a + Z.of_nat k = N -> N < vsize (hits c) ->
  exists c', record_each (Some b) (seqZ a (Z.of_nat k)) c = Ok c' /\ counted c c' (fun j => (a <=? j) && (j <? N)).
Proof.
  intros Hb HN. induction k as [|k IH]; intros a c Ha Hk Hz.
  { exists c. split; [done|]. split; [done|]. split; [done|]. intros i v ->. by replace ((a <=? i) && (i <? N)) with false by lia. }
  rewrite seqZ_cons by lia. cbn [record_each]. rewrite bit_of by lia. cbn [obind]. rewrite bit_test, Hb by lia.
  destruct (record_hit a c ltac:(lia)) as (c1 & -> & Z1 & N1 & H1). cbn [obind]. replace (Z.pred (Z.of_nat (S k))) with (Z.of_nat k) by lia. rewrite <- Z.add_1_r.
  destruct (IH (a + 1) c1 ltac:(lia) ltac:(lia) ltac:(lia)) as (c2 & E & Z2 & N2 & H2). exists c2. split; [done|]. split; [lia|]. split; [lia|]. intros i v Hv.
  specialize (H1 i v Hv). cbn beta in H1. rewrite (H2 i _ H1). destruct (Z.eqb_spec i a) as [->|Hne].
  - replace ((a + 1 <=? a) && (a <? N)) with false by lia. by replace ((a <=? a) && (a <? N)) with true by lia.
  - by replace ((a + 1 <=? i) && (i <? N)) with ((a <=? i) && (i <? N)) by lia.
Qed.

(** A hit counts as a hit in every tracked cache, however small and however far
    back the block was: [recordAccess] reads [inCachesMask] after the block has
    been moved to the head. *)
Lemma falru_hit_counts_everywhere m l s pkt x : linked l s -> tracked m l s -> vsize (hits (cacheTracking s)) = num s + 1 ->
  fa_findBlock (mkKey (pkt_addr pkt) (pkt_secure pkt)) s = Ok (Some x) -> x ∈ l -> isValid (fa_blk (blk_at s x)) = true ->
  exists lat k s', fa_accessBlock pkt s = Ok (Some x, lat, k, s') /\ forall i v, 0 <= i <= num s -> vget (hits (cacheTracking s)) i = Ok v ->
    vget (hits (cacheTracking s')) i = Ok (v + 1).
Proof.
  intros L T Hz Ef Hx Hv. pose proof (proj1 (lk_all _ _ L x) Hx) as Ix. destruct (tr_num _ _ _ T) as (N1 & _). unfold fa_accessBlock. rewrite Ef. cbn [obind]. rewrite get_run by done. cbn [obind]. rewrite Hv.
  destruct (move_run m l s (ToHead x) L T Hx) as (s1 & E1 & L1 & T1 & (Z1 & _ & _ & B1 & bd & C1)). cbn [do_move reorder] in *. rewrite E1. cbn [obind fst snd].
  assert (num s1 = num s /\ hits (cacheTracking s1) = hits (cacheTracking s)) as [En Eh] by (by rewrite C1).
  unfold recordAccess. rewrite get_run by (by rewrite Z1). cbn [obind]. rewrite En.
  assert (forall i, 0 <= i < num s -> Z.testbit (inCachesMask (blk_at s1 x)) i = true) as Hb.
  { intros i Hi. rewrite (tr_mask _ _ _ T1) by (lia || by left). apply bool_decide_eq_true. split; [lia|]. destruct (tr_fits _ _ _ T1 i) as [F1 _]; [lia|].
    unfold pre. destruct (Z.to_nat (fits m i)) eqn:E; [lia|]. cbn. by left. }
  destruct (record_hits (blk_at s1 x) (num s) Hb ltac:(lia) (Z.to_nat (num s)) 0 (cacheTracking s1)) as (c1 & E2 & Z2 & N2 & H2); [lia|lia|rewrite Eh; lia|].
  rewrite Z2Nat.id in E2 by lia. rewrite E2. cbn [obind]. rewrite B1, Hv by done.
  destruct (record_hit (numTrackedCaches c1) c1) as (c2 & E3 & Z3 & N3 & H3); [rewrite N2, En, Z2, Eh; lia|]. rewrite E3. cbn [obind]. eexists _, _, _. split; [done|].
  intros i v Hi Hw. cbn [cacheTracking with_tracking hits]. rewrite <- Eh in Hw. rewrite (H3 i _ (H2 i v Hw)), N2, En. destruct (Z.eqb_spec i (num s)) as [->|Hne].
  - by replace ((0 <=? num s) && (num s <? num s)) with false by lia.
  - by replace ((0 <=? i) && (i <? num s)) with true by lia.
Qed.

(** When the smallest tracked cache has one block, the first move to the head
    leaves it without a boundary and the second one dereferences that. *)
Lemma falru_one_block_cache : let first := let? s0 := new_FALRU DemoFALRU.params 64 false 0 5 in let? s1 := fa_tagsInit s0 in moveToHead (Some 5) s1 in
  (exists s, first = Ok s) /\ (let? s := first in moveToHead (Some 6) s) = Fault NullDeref.
Proof.
  cbv zeta. split; [|vm_compute; reflexivity]. destruct (let? s0 := _ in _) as [s|f] eqn:E; [by exists s|]. vm_compute in E. discriminate E.
Qed.
