(* ===== verification/AddrRange.v ===== *)
(** Address ranges, with interleaving: [base/addr_range.hh].

    A mask selects the bits of an address whose parity must be the bit of
    [intlvMatch] with the index of the mask.  [gnu] says which body of
    [popCount] is compiled in. *)
From Stdlib Require Import ZArith Lia Bool.
From stdpp Require Import base numbers list sorting.
From S2P Require Import Prelude Bitfield.
Local Open Scope Z_scope.

Record AddrRange := mkRange {
  _start : Z;           (* Addr *)
  _end : Z;             (* Addr, not part of the range *)
  masks : list Z;       (* std::vector<Addr> *)
  intlvMatch : Z;       (* uint8_t *)
}.

#[global] Instance AddrRange_eq_dec : EqDecision AddrRange.
Proof. solve_decision. Defined.

Section Definitions.
Context (gnu : bool).

(** ** Construction *)
Definition no_range : AddrRange := mkRange 1 0 [] 0.
Definition plain_range (s e : Z) : AddrRange := mkRange s e [] 0.

Definition masked_range (s e : Z) (ms : list Z) (intlv_match : Z) : outcome AddrRange :=
  let? _ := (if bool_decide (ms = []) then Ok tt else
    let? n := shl64 1 (vsize ms) in ocheck (negb (n <=? intlv_match)) Fatal) in
  Ok (mkRange s e ms intlv_match).

(** The mask of the interleaving bit [i], counted from the highest. *)
Definition intlv_mask (intlv_high_bit xor_high_bit i : Z) : outcome Z :=
  let? m := shl64 1 (u8 (intlv_high_bit - i)) in
  if xor_high_bit =? 0 then Ok m else
  let? x := shl64 1 (u8 (xor_high_bit - i)) in Ok (Z.lor m x).

Fixpoint intlv_masks (high xor : Z) (n : nat) : outcome (list Z) :=
  match n with
  | O => Ok []
  | S n' =>
      let? m := intlv_mask high xor (Z.of_nat n') in
      let? l := intlv_masks high xor n' in Ok (m :: l)
  end.

Definition bits_range (s e intlv_high_bit xor_high_bit intlv_bits intlv_match : Z) : outcome AddrRange :=
  let? _ := (if intlv_bits =? 0 then Ok tt else
    let? n := shl64 1 intlv_bits in ocheck (negb (n <=? intlv_match)) Fatal) in
  let? _ := (if negb (intlv_bits =? 0) && negb (xor_high_bit =? 0) then
    if xor_high_bit =? intlv_high_bit then Fault Fatal
    else if intlv_high_bit <? xor_high_bit then ocheck (negb (xor_high_bit - intlv_high_bit <? intlv_bits)) Fatal
    else ocheck (negb (intlv_high_bit - xor_high_bit <? intlv_bits)) Fatal
  else Ok tt) in
  let? ms := intlv_masks intlv_high_bit xor_high_bit (Z.to_nat intlv_bits) in
  Ok (mkRange s e ms intlv_match).

Definition RangeEx (s e : Z) : AddrRange := plain_range s e.
Definition RangeIn (s e : Z) : AddrRange := plain_range s (u64 (e + 1)).
Definition RangeSize (s n : Z) : AddrRange := plain_range s (u64 (s + n)).

(** ** Queries *)
Definition interleaved (r : AddrRange) : bool := 0 <? vsize (masks r).

(** [size()]. *)
Definition range_size (r : AddrRange) : outcome Z := shr64 (u64 (_end r - _start r)) (vsize (masks r)).

(** [auto combined_mask = 0] is an [int]. *)
Definition granularity (r : AddrRange) : outcome Z :=
  if interleaved r then
    let combined_mask := foldl (fun acc m => i32 (Z.lor (u64 acc) m)) 0 (masks r) in
    shl64 1 (ctz64 (u64 combined_mask))
  else range_size r.

Definition stripes (r : AddrRange) : outcome Z := let? n := shl64 1 (vsize (masks r)) in Ok (u32 n).

Definition valid (r : AddrRange) : bool := _start r <=? _end r.

Definition mergesWith (this r : AddrRange) : bool :=
  (_start r =? _start this) && (_end r =? _end this) && bool_decide (masks r = masks this).

(** [x << i] on [int]. *)
Definition shl_int (x i : Z) : outcome Z :=
  if (0 <=? i) && (i <? 32) then Ok (i32 (Z.shiftl x i)) else Fault BadShift.

(** The selector of an address: bit [i] is the parity under mask [i]. *)
Fixpoint selector (a : Z) (ms : list Z) (i sel : Z) : outcome Z :=
  match ms with
  | [] => Ok sel
  | m :: ms' =>
      let? b := shl_int (popCount gnu (Z.land a m) mod 2) i in
      selector a ms' (i + 1) (i32 (Z.lor (u32 sel) (u32 b)))
  end.

Definition contains (r : AddrRange) (a : Z) : outcome bool :=
  if (_start r <=? a) && (a <? _end r) then
    let? sel := selector a (masks r) 0 0 in Ok (sel =? intlvMatch r)
  else Ok false.

Definition intersects (this r : AddrRange) : outcome bool :=
  if (_end r <=? _start this) || (_end this <=? _start r) then Ok false
  else if negb (interleaved this) && negb (interleaved r) then Ok true
  else
    let? n := range_size r in
    if n =? 1 then contains this (_start r)
    else if mergesWith this r then Ok (intlvMatch this =? intlvMatch r)
    else Fault Panic.

Definition isSubset (this r : AddrRange) : outcome bool :=
  if interleaved this then Fault Panic
  else if interleaved r then
    let? a := contains r (_start this) in
    if negb a then Ok false else
    let? b := contains r (u64 (_end this - 1)) in
    if negb b then Ok false else
    let? n := range_size this in
    let? g := granularity r in
    Ok (n <=? g)
  else if _end this <=? _start this then Ok ((_start r <=? _start this) && (_end r =? 0))
  else if _end r <=? _start r then Ok (_start r <=? _start this)
  else Ok ((_start r <=? _start this) && (_end this <=? _end r)).

(** ** Removing and adding the interleaving bits *)

(** [std::sort]: the sorted list is unique. *)
Fixpoint insert_sorted (x : Z) (l : list Z) : list Z :=
  match l with
  | [] => [x]
  | y :: l' => if x <=? y then x :: l else y :: insert_sorted x l'
  end.
Definition sort_bits (l : list Z) : list Z := foldr insert_sorted [] l.

Definition masks_lsb (r : AddrRange) : list Z := sort_bits (ctz64 <$> masks r).

Fixpoint remove_bits (lsbs : list Z) (i a : Z) : outcome Z :=
  match lsbs with
  | [] => Ok a
  | b :: lsbs' =>
      let? a := (if 0 <? b then insertBits (Z.shiftr a 1) (u32 (b - i - 1)) 0 a else Ok (Z.shiftr a 1)) in
      remove_bits lsbs' (i + 1) a
  end.

Definition removeIntlvBits (r : AddrRange) (a : Z) : outcome Z :=
  if negb (interleaved r) then Ok a else remove_bits (masks_lsb r) 0 a.

Fixpoint add_bits (lsbs : list Z) (a : Z) : outcome Z :=
  match lsbs with
  | [] => Ok a
  | b :: lsbs' =>
      let? a := (if 0 <? b then insertBits (u64 (Z.shiftl a 1)) (b - 1) 0 a else Ok (u64 (Z.shiftl a 1))) in
      add_bits lsbs' a
  end.

(** The last loop: the lowest bit of each mask is what the selector asks for;
    [1 << lsb] is an [int]. *)
Fixpoint select_bits (intlv_match : Z) (ms : list Z) (i a : Z) : outcome Z :=
  match ms with
  | [] => Ok a
  | m :: ms' =>
      let lsb := ctz64 m in
      let? intlv_bit := bit intlv_match i in
      let? one := shl_int 1 lsb in
      let masked := Z.land (Z.land a m) (u64 (Z.lnot one)) in
      let? a := insertBit a lsb (Z.lxor intlv_bit (popCount gnu masked)) in
      select_bits intlv_match ms' (i + 1) a
  end.

Definition addIntlvBits (r : AddrRange) (a : Z) : outcome Z :=
  if negb (interleaved r) then Ok a else
  let? a := add_bits (masks_lsb r) a in
  select_bits (intlvMatch r) (masks r) 0 a.

Definition getOffset (r : AddrRange) (a : Z) : outcome Z :=
  if negb ((_start r <=? a) && (a <? _end r)) then Ok (2 ^ 64 - 1)
  else if interleaved r then
    let? x := removeIntlvBits r a in
    let? y := removeIntlvBits r (_start r) in Ok (u64 (x - y))
  else Ok (u64 (a - _start r)).

(** ** Comparison and exclusion *)
Definition range_lt (this r : AddrRange) : bool :=
  if negb (_start this =? _start r) then _start this <? _start r
  else if interleaved this && interleaved r then intlvMatch this <? intlvMatch r
  else interleaved this.

(** [std::list::sort], which is stable. *)
Fixpoint insert_range (x : AddrRange) (l : list AddrRange) : list AddrRange :=
  match l with
  | [] => [x]
  | y :: l' => if range_lt y x then y :: insert_range x l' else x :: l
  end.
Definition sort_ranges (l : list AddrRange) : list AddrRange := foldr insert_range [] l.

(** The loop of [exclude]: the ranges so far and where the next one starts; a
    [return] from the loop carries no start. *)
Fixpoint exclude_loop (this : AddrRange) (es : list AddrRange) (ranges : list AddrRange) (next_start : Z) :
    outcome (list AddrRange) :=
  match es with
  | [] => Ok (if next_start <? _end this then ranges ++ [plain_range next_start (_end this)] else ranges)
  | e :: es' =>
      let? _ := ocheck (negb (interleaved e)) AssertFailed in
      let? i := intersects this e in
      if negb i then exclude_loop this es' ranges next_start
      else if _start e <=? next_start then
        if _end e <? _end this then
          exclude_loop this es' ranges (if next_start <? _end e then _end e else next_start)
        else Ok ranges
      else
        let ranges := ranges ++ [plain_range next_start (_start e)] in
        if _end e <? _end this then exclude_loop this es' ranges (_end e) else Ok ranges
  end.

Definition exclude (this : AddrRange) (exclude_ranges : list AddrRange) : outcome (list AddrRange) :=
  let? _ := ocheck (negb (interleaved this)) AssertFailed in
  exclude_loop this (sort_ranges exclude_ranges) [] (_start this).

(** [exclude(const AddrRangeList &, AddrRangeList)]. *)
Fixpoint exclude_each (base to_exclude : list AddrRange) : outcome (list AddrRange) :=
  match base with
  | [] => Ok []
  | r :: base' =>
      let? l := exclude r to_exclude in
      let? l' := exclude_each base' to_exclude in Ok (l ++ l')
  end.
Definition exclude_list (base to_exclude : list AddrRange) : outcome (list AddrRange) :=
  exclude_each base (sort_ranges to_exclude).

(** [operator&]. *)
Definition range_and (this r : AddrRange) : outcome AddrRange :=
  let? _ := ocheck (negb (interleaved this || interleaved r)) Panic in
  let s := Z.max (_start this) (_start r) in
  let e := Z.min (_end this) (_end r) in
  Ok (if e <=? s then plain_range 0 0 else plain_range s e).

(** The constructors that merge a vector or a list of ranges. *)
Fixpoint check_merge (this : AddrRange) (l : list AddrRange) (m : Z) : outcome unit :=
  match l with
  | [] => Ok tt
  | r :: l' =>
      let? _ := ocheck (mergesWith this r) Fatal in
      let? _ := ocheck (intlvMatch r =? m) Fatal in
      check_merge this l' (u8 (m + 1))
  end.

Definition merged_range (ranges : list AddrRange) : outcome AddrRange :=
  let this := match ranges with r :: _ => r | [] => no_range end in
  if 1 <? vsize ranges then
    let? n := shl64 1 (vsize (masks this)) in
    let? _ := ocheck (vsize ranges =? n) Fatal in
    let? _ := check_merge this ranges 0 in
    Ok (mkRange (_start this) (_end this) [] 0)
  else Ok this.
End Definitions.

(** ** Exclusion *)

(** A range without interleaving. *)
Definition plain (r : AddrRange) : Prop := masks r = [] /\ intlvMatch r = 0.
Definition within (r : AddrRange) (a : Z) : Prop := _start r <= a < _end r.

Lemma plain_not_interleaved r : plain r -> interleaved r = false.
Proof. intros [E _]. unfold interleaved. by rewrite E. Qed.

Lemma plain_contains gnu r a : plain r -> contains gnu r a = Ok (bool_decide (within r a)).
Proof.
  intros [E1 E2]. unfold contains. destruct (_ && _) eqn:E.
  - rewrite E1, E2. cbn. f_equal. symmetry. apply bool_decide_eq_true. unfold within. lia.
  - f_equal. symmetry. apply bool_decide_eq_false. unfold within. lia.
Qed.

Lemma insert_range_perm x l : insert_range x l ≡ₚ x :: l.
Proof.
  induction l as [|y l IH]; [done|]. cbn. destruct (range_lt y x); [|done]. rewrite IH. constructor.
Qed.

Lemma sort_ranges_perm l : sort_ranges l ≡ₚ l.
Proof. induction l as [|x l IH]; [done|]. cbn. by rewrite insert_range_perm, IH. Qed.

Definition by_start (x y : AddrRange) : Prop := _start x <= _start y.

Lemma range_lt_start x y : range_lt x y = true -> _start x <= _start y.
Proof. unfold range_lt. destruct (Z.eqb_spec (_start x) (_start y)); cbn; lia. Qed.
Lemma range_ge_start x y : range_lt x y = false -> _start y <= _start x.
Proof. unfold range_lt. destruct (Z.eqb_spec (_start x) (_start y)); cbn; lia. Qed.

Lemma insert_range_sorted x l : StronglySorted by_start l -> StronglySorted by_start (insert_range x l).
Proof.
  induction 1 as [|y l Hs IH Hy]; cbn; [repeat constructor|]. destruct (range_lt y x) eqn:E.
  - constructor; [done|]. rewrite insert_range_perm. constructor; [by apply range_lt_start|done].
  - apply range_ge_start in E. constructor; [by constructor|]. constructor; [done|].
    eapply Forall_impl; [exact Hy|]. unfold by_start. cbn. lia.
Qed.

Lemma sort_ranges_sorted l : StronglySorted by_start (sort_ranges l).
Proof. induction l; cbn; [constructor|by apply insert_range_sorted]. Qed.

(** The results are in order and apart. *)
Definition apart_below (l : list AddrRange) (b : Z) : Prop :=
  ForallOrdPairs (fun x y => _end x <= _start y) l /\ Forall (fun x => plain x /\ _end x <= b) l.

Lemma apart_below_le l b b' : b <= b' -> apart_below l b -> apart_below l b'.
Proof. intros Hb [H1 H2]. split; [done|]. eapply Forall_impl; [exact H2|]. cbn. intros x []. split; [done|lia]. Qed.

Lemma ForallOrdPairs_snoc {A} (R : A -> A -> Prop) l x :
  ForallOrdPairs R l -> Forall (fun y => R y x) l -> ForallOrdPairs R (l ++ [x]).
Proof.
  induction 1 as [|y l Hy Hl IH]; cbn; intros Hx; [repeat constructor|].
  inversion_clear Hx as [|? ? H1 H2]. constructor; [|by apply IH]. apply Forall_app. by split; [|repeat constructor].
Qed.

Lemma apart_below_snoc l s e : s <= e -> apart_below l s -> apart_below (l ++ [plain_range s e]) e.
Proof.
  intros Hse [H1 H2]. split.
  - apply ForallOrdPairs_snoc; [done|]. eapply Forall_impl; [exact H2|]. by intros x [].
  - apply Forall_app. split; [|repeat constructor; cbn; lia].
    eapply Forall_impl; [exact H2|]. cbn. intros x []. split; [done|lia].
Qed.

Lemma within_snoc ranges s e a : (exists y, y ∈ ranges ++ [plain_range s e] /\ within y a) <->
  (exists y, y ∈ ranges /\ within y a) \/ s <= a < e.
Proof.
  setoid_rewrite elem_of_app. setoid_rewrite list_elem_of_singleton. split.
  - intros (y & [Hy| ->] & Hw); [eauto|by right].
  - intros [(y & Hy & Hw)|Ha]; [eauto|]. eexists. split; [by right|done].
Qed.

Lemma exclude_loop_spec gnu r es ranges next : plain r ->
  Forall (fun e => plain e /\ _start e <= _end e) es -> StronglySorted by_start es ->
  _start r <= next -> apart_below ranges next ->
  exists l, exclude_loop gnu r es ranges next = Ok l /\ apart_below l (Z.max next (_end r)) /\
    forall a, (exists x, x ∈ l /\ within x a) <->
      (exists x, x ∈ ranges /\ within x a) \/ (next <= a < _end r /\ Forall (fun e => ~ within e a) es).
Proof.
  intros Hr. revert ranges next. induction es as [|e es IH]; intros ranges next Hes Hs Hn Hap; cbn [exclude_loop].
  - eexists. split; [done|]. destruct (Z.ltb_spec next (_end r)) as [Hl|Hl].
    + split; [rewrite Z.max_r by lia; apply apart_below_snoc; [lia|done]|].
      intros a. rewrite within_snoc. intuition.
    + split; [eapply apart_below_le; [|done]; lia|]. intros a. split; [by left|]. intros [?|[? _]]; [done|lia].
  - inversion_clear Hes as [|? ? [He Hv] Hes']. inversion_clear Hs as [|? ? Hs' He'].
    rewrite (plain_not_interleaved e He). cbn [negb ocheck obind].
    unfold intersects. rewrite (plain_not_interleaved r Hr), (plain_not_interleaved e He). cbn [negb andb].
    destruct (Z.leb_spec (_end e) (_start r)) as [H1|H1], (Z.leb_spec (_end r) (_start e)) as [H2|H2]; cbn [orb obind negb].
    1,2,3: destruct (IH ranges next Hes' Hs' Hn Hap) as (l & -> & Hl & Hin); exists l; split; [done|]; split; [done|];
      intros a; rewrite Hin, Forall_cons; unfold within; intuition lia.
    destruct (Z.leb_spec (_start e) next) as [H3|H3].
    + destruct (Z.ltb_spec (_end e) (_end r)) as [H4|H4].
      * destruct (IH ranges (if next <? _end e then _end e else next)) as (l & -> & Hl & Hin); try done.
        { destruct (Z.ltb_spec next (_end e)); lia. }
        { eapply apart_below_le; [|done]. destruct (Z.ltb_spec next (_end e)); lia. }
        exists l. split; [done|]. split; [eapply apart_below_le; [|done]; destruct (Z.ltb_spec next (_end e)); lia|].
        intros a. rewrite Hin, Forall_cons. unfold within. destruct (Z.ltb_spec next (_end e)); intuition lia.
      * exists ranges. split; [done|]. split; [eapply apart_below_le; [|done]; lia|].
        intros a. rewrite Forall_cons. unfold within. intuition lia.
    + assert (forall a, a < _start e -> Forall (fun e => ~ within e a) es) as Hlater.
      { intros a Ha. eapply Forall_impl; [exact He'|]. unfold by_start, within. lia. }
      destruct (Z.ltb_spec (_end e) (_end r)) as [H4|H4].
      * destruct (IH (ranges ++ [plain_range next (_start e)]) (_end e)) as (l & -> & Hl & Hin); try done; [lia| |].
        { eapply apart_below_le; [|apply apart_below_snoc; [|done]]; lia. }
        exists l. split; [done|]. split; [eapply apart_below_le; [|done]; lia|].
        intros a. rewrite Hin, within_snoc, Forall_cons. specialize (Hlater a). change (within e a) with (_start e <= a < _end e).
        destruct (Z.lt_ge_cases a (_start e)); intuition lia.
      * eexists. split; [done|]. split; [eapply apart_below_le; [|apply apart_below_snoc; [|done]]; lia|].
        intros a. rewrite within_snoc, Forall_cons. specialize (Hlater a). change (within e a) with (_start e <= a < _end e).
        destruct (Z.lt_ge_cases a (_start e)); intuition lia.
Qed.

(** C30 (functional). [AddrRange::exclude], on ranges without interleaving,
    returns ranges in order and apart that hold exactly the addresses of the
    range that no excluded range holds. *)
Theorem exclude_removes gnu r es : plain r -> Forall (fun e => plain e /\ _start e <= _end e) es ->
  exists l, exclude gnu r es = Ok l /\ Forall plain l /\ ForallOrdPairs (fun x y => _end x <= _start y) l /\
    forall a, (exists x, x ∈ l /\ contains gnu x a = Ok true) <->
      contains gnu r a = Ok true /\ Forall (fun e => contains gnu e a = Ok false) es.
Proof.
  intros Hr Hes. unfold exclude. rewrite (plain_not_interleaved r Hr). cbn [negb ocheck obind].
  pose proof (sort_ranges_perm es) as Hp.
  destruct (exclude_loop_spec gnu r (sort_ranges es) [] (_start r)) as (l & -> & [Hd Hl] & Hin); try done.
  { by rewrite Hp. } { apply sort_ranges_sorted. } { split; constructor. }
  assert (Forall plain l) as Hpl by (eapply Forall_impl; [exact Hl|]; by intros ? []).
  exists l. split_and!; try done. intros a. rewrite (plain_contains gnu r a Hr).
  transitivity (exists x, x ∈ l /\ within x a).
  { rewrite Forall_forall in Hpl. f_equiv. intros x. split; intros [Hx Hc]; (split; [done|]).
    - rewrite plain_contains in Hc by auto. injection Hc as Hc. by apply bool_decide_eq_true in Hc.
    - rewrite plain_contains by auto. by rewrite bool_decide_eq_true_2. }
  rewrite Hin, Hp, !Forall_forall.
  assert (forall e, e ∈ es -> ~ within e a <-> contains gnu e a = Ok false) as He.
  { rewrite Forall_forall in Hes. intros e Hin'. rewrite plain_contains by by apply Hes.
    case_bool_decide; split; intros; [done|done|done|done]. }
  change (_start r <= a < _end r) with (within r a). split.
  - intros [(x & Hx & _)|[Ha Hx]]; [by apply not_elem_of_nil in Hx|].
    rewrite bool_decide_eq_true_2 by done. split; [done|]. intros e Hin'. by apply He, Hx.
  - intros [[= Ha%bool_decide_eq_true] Hx]. right. split; [done|]. intros e Hin'. by apply He, Hx.
Qed.

Lemma exclude_removes_witness :
  exists l, exclude true (plain_range 0 100) [plain_range 60 80; plain_range 10 20; plain_range 15 30] = Ok l /\
    Forall plain l.
Proof.
  destruct (exclude_removes true (plain_range 0 100) [plain_range 60 80; plain_range 10 20; plain_range 15 30])
    as (l & E & Hl & _).
  - done.
  - repeat constructor; cbn; lia.
  - exists l. by split.
Defined.
