(* ===== verification/AddrRangeMap.v ===== *)
(** Maps from address ranges, with a small cache of the entries found last:
    [base/addr_range_map.hh].

    The [std::map] is the list of its entries in the order of [operator<]; an
    iterator is the key of its entry.  [max_cache_size] is the template
    parameter. *)
From Stdlib Require Import ZArith Lia Bool.
From stdpp Require Import base numbers list sorting.
From S2P Require Import Prelude Bitfield AddrRange.
Local Open Scope Z_scope.

Record AddrRangeMap (V : Type) := mkRangeMap {
  tree : list (AddrRange * V);
  range_cache : list AddrRange;
}.
Arguments mkRangeMap {V} tree range_cache.
Arguments tree {V} a.
Arguments range_cache {V} a.

Section Map.
Context {V : Type} (gnu : bool) (max_cache_size : Z).
Implicit Types m : AddrRangeMap V.

Definition empty_map : AddrRangeMap V := mkRangeMap [] [].

(** [tree.upper_bound(r)]: the entries before it, and from it on. *)
Fixpoint upper_bound (r : AddrRange) (l : list (AddrRange * V)) : list (AddrRange * V) * list (AddrRange * V) :=
  match l with
  | [] => ([], [])
  | e :: l' => if range_lt r e.1 then ([], l) else let s := upper_bound r l' in (e :: s.1, s.2)
  end.

(** The entry of a key. *)
Fixpoint deref_key (k : AddrRange) (l : list (AddrRange * V)) : outcome (AddrRange * V) :=
  match l with
  | [] => Fault DanglingDeref
  | e :: l' => if bool_decide (e.1 = k) then Ok e else deref_key k l'
  end.

(** The first cached entry for which the condition holds, and the others. *)
Fixpoint find_cached (cond : AddrRange -> outcome bool) (l : list AddrRange) : outcome (option (AddrRange * list AddrRange)) :=
  match l with
  | [] => Ok None
  | k :: l' =>
      let? b := cond k in
      if b : bool then Ok (Some (k, l'))
      else let? r := find_cached cond l' in Ok ((fun x => (x.1, k :: x.2)) <$> r)
  end.

Definition addNewEntryToCache (k : AddrRange) m : AddrRangeMap V :=
  if negb (max_cache_size =? 0) then
    if max_cache_size <=? vsize (range_cache m) then
      let rest := removelast (range_cache m) in
      mkRangeMap (tree m) (if 1 <? max_cache_size then k :: rest else rest ++ [k])
    else mkRangeMap (tree m) (k :: range_cache m)
  else m.

(** The loop back from the entry before the upper bound. *)
Fixpoint find_back (cond : AddrRange -> outcome bool) (l : list (AddrRange * V)) : outcome (option (AddrRange * V)) :=
  match l with
  | [] => Ok None
  | i :: l' =>
      let? b := cond i.1 in
      if b : bool then Ok (Some i)
      else match l' with
        | next :: _ => if mergesWith next.1 i.1 then find_back cond l' else Ok None
        | [] => Ok None
        end
  end.

Definition find (r : AddrRange) (cond : AddrRange -> outcome bool) m : outcome (option (AddrRange * V) * AddrRangeMap V) :=
  let? c := find_cached cond (range_cache m) in
  match c with
  | Some (k, rest) =>
      let? e := deref_key k (tree m) in Ok (Some e, mkRangeMap (tree m) (k :: rest))
  | None =>
      let s := upper_bound r (tree m) in
      let? hit := match s.2 with next :: _ => let? b := cond next.1 in Ok (if b : bool then Some next else None) | [] => Ok None end in
      let? hit := match hit with Some e => Ok (Some e) | None => find_back cond (reverse s.1) end in
      match hit with
      | Some e => Ok (Some e, addNewEntryToCache e.1 m)
      | None => Ok (None, m)
      end
  end.

Definition map_contains (r : AddrRange) m := find r (fun r1 => isSubset gnu r r1) m.
Definition map_intersects (r : AddrRange) m := find r (fun r1 => AddrRange.intersects gnu r r1) m.

(** [tree.insert]: an entry with an equivalent key stays. *)
Fixpoint tree_insert (r : AddrRange) (v : V) (l : list (AddrRange * V)) : list (AddrRange * V) :=
  match l with
  | [] => [(r, v)]
  | e :: l' => if range_lt r e.1 then (r, v) :: l else if range_lt e.1 r then e :: tree_insert r v l' else l
  end.

(** The boolean says whether the range does not meet another one. *)
Definition map_insert (r : AddrRange) (v : V) m : outcome (bool * AddrRangeMap V) :=
  let? s := map_intersects r m in
  Ok (match s.1 with Some _ => (false, s.2) | None => (true, mkRangeMap (tree_insert r v (tree s.2)) (range_cache s.2)) end).

(** [erase] of an entry: [cache.remove] and [tree.erase]. *)
Definition map_erase (k : AddrRange) m : AddrRangeMap V :=
  mkRangeMap (filter (fun e => e.1 <> k) (tree m)) (filter (fun k' => k' <> k) (range_cache m)).

(** ** Maps of plain ranges that do not meet *)

(** A range that is not empty nor interleaved. *)
Definition proper (r : AddrRange) : Prop := plain r /\ _start r < _end r.
Definition before (x y : AddrRange * V) : Prop := _end x.1 <= _start y.1.

Record map_ok m : Prop := {
  mo_sorted : StronglySorted before (tree m);
  mo_proper : Forall (fun e => proper e.1) (tree m);
  mo_cache : Forall (fun k => k ∈ (tree m).*1) (range_cache m);
}.

Lemma proper_lt x y : proper x -> proper y -> range_lt x y = (_start x <? _start y).
Proof.
  intros [Hx _] [Hy _]. unfold range_lt. rewrite (plain_not_interleaved x Hx), (plain_not_interleaved y Hy). cbn.
  destruct (Z.eqb_spec (_start x) (_start y)); cbn; [lia|done].
Qed.

Lemma upper_bound_app r l : (upper_bound r l).1 ++ (upper_bound r l).2 = l.
Proof. induction l as [|e l IH]; [done|]. cbn. destruct (range_lt r e.1); [done|]. cbn. by rewrite IH. Qed.

Lemma upper_bound_spec r l : proper r -> StronglySorted before l -> Forall (fun e => proper e.1) l ->
  Forall (fun e => _start e.1 <= _start r) (upper_bound r l).1 /\ Forall (fun e => _start r < _start e.1) (upper_bound r l).2.
Proof.
  intros Hr. induction 1 as [|e l Hs IH He]; intros HP; [done|]. apply Forall_cons in HP as [Pe HP]. cbn. rewrite (proper_lt r e.1) by done.
  destruct (Z.ltb_spec (_start r) (_start e.1)) as [Hlt|Hge]; cbn.
  - split; [done|]. apply Forall_cons. split; [done|]. eapply Forall_impl; [exact He|]. cbn. unfold before. intros x Hx. destruct Pe. lia.
  - destruct (IH HP) as [H1 H2]. split; [|done]. by apply Forall_cons.
Qed.

Lemma deref_key_spec k l : k ∈ l.*1 -> exists e, deref_key k l = Ok e /\ e ∈ l /\ e.1 = k.
Proof.
  induction l as [|e l IH]; [by intros ?%not_elem_of_nil|]. cbn. intros [->|Hk]%elem_of_cons.
  - exists e. rewrite bool_decide_eq_true_2 by done. split_and!; [done|by left|done].
  - case_bool_decide as E; [exists e; split_and!; [done|by left|done]|]. destruct (IH Hk) as (e' & -> & He & Ek). exists e'. split_and!; [done|by right|done].
Qed.

Section Find.
Context m (Hm : map_ok m) (cond : AddrRange -> outcome bool) (c : AddrRange -> bool) (Hc : forall k, k ∈ (tree m).*1 -> cond k = Ok (c k)).

Lemma find_cached_spec l : Forall (fun k => k ∈ (tree m).*1) l -> exists r, find_cached cond l = Ok r /\
  match r with Some (k, rest) => k ∈ (tree m).*1 /\ c k = true /\ Forall (fun k => k ∈ (tree m).*1) rest | None => True end.
Proof.
  induction 1 as [|k l Hk Hl IH]; [by exists None|]. cbn. rewrite (Hc k Hk). cbn [obind]. destruct (c k) eqn:Ek; [by exists (Some (k, l))|].
  destruct IH as (r & -> & Hr). cbn [obind]. eexists. split; [done|]. destruct r as [[k' rest]|]; [|done]. cbn. destruct Hr as (H1 & H2 & H3). split_and!; try done. by apply Forall_cons.
Qed.

Lemma find_back_spec l : Forall (fun e => e ∈ tree m) l -> exists r, find_back cond l = Ok r /\
  match r with Some e => e ∈ tree m /\ c e.1 = true | None => forall e, head l = Some e -> c e.1 = false end.
Proof.
  induction 1 as [|i l Hi Hl IH]; [by exists None|]. cbn. rewrite (Hc i.1) by (by apply list_elem_of_fmap_2). cbn [obind]. destruct (c i.1) eqn:Ei; [by exists (Some i)|].
  assert (exists r, (match l with next :: _ => if mergesWith next.1 i.1 then find_back cond l else Ok None | [] => Ok None end) = Ok r /\
    match r with Some e => e ∈ tree m /\ c e.1 = true | None => True end) as (r & -> & Hr).
  { destruct l as [|n l']; [by exists None|]. destruct (mergesWith n.1 i.1); [|by exists None]. destruct IH as (r & E & Hr). exists r. split; [exact E|]. by destruct r. }
  exists r. split; [done|]. destruct r; [done|]. by intros e [= <-].
Qed.

Lemma cache_add_ok e : e ∈ tree m -> map_ok (addNewEntryToCache e.1 m) /\ tree (addNewEntryToCache e.1 m) = tree m.
Proof.
  intros He. pose proof (mo_cache _ Hm) as Hca. assert (e.1 ∈ (tree m).*1) as Hk by (by apply list_elem_of_fmap_2).
  assert (Forall (fun k => k ∈ (tree m).*1) (removelast (range_cache m))) as Hr.
  { apply Forall_forall. intros k Hin. apply (proj1 (Forall_forall _ _) Hca). destruct (decide (range_cache m = [])) as [E|E]; [rewrite E in Hin; by apply not_elem_of_nil in Hin|].
    rewrite (app_removelast_last k E). apply elem_of_app. by left. }
  unfold addNewEntryToCache. destruct (negb _); [|done]. destruct (_ <=? _); (split; [|done]); (constructor; [apply Hm|apply Hm|]); cbn.
  - destruct (1 <? _); [by apply Forall_cons|]. apply Forall_app. split; [done|by repeat constructor].
  - by apply Forall_cons.
Qed.

(** If the condition holds of an entry it holds of one next to the upper bound. *)
Lemma find_spec r : (forall e, e ∈ (upper_bound r (tree m)).1 -> c e.1 = true -> exists e', last (upper_bound r (tree m)).1 = Some e' /\ c e'.1 = true) ->
  (forall e, e ∈ (upper_bound r (tree m)).2 -> c e.1 = true -> exists e', head (upper_bound r (tree m)).2 = Some e' /\ c e'.1 = true) ->
  exists res m', find r cond m = Ok (res, m') /\ map_ok m' /\ tree m' = tree m /\
    match res with Some e => e ∈ tree m /\ c e.1 = true | None => forall e, e ∈ tree m -> c e.1 = false end.
Proof.
  intros H1 H2. unfold find. destruct (find_cached_spec _ (mo_cache _ Hm)) as (cr & -> & Hcr). cbn [obind]. destruct cr as [[k rest]|].
  { destruct Hcr as (Hk & Hck & Hrest). destruct (deref_key_spec k (tree m) Hk) as (e & -> & He & <-). cbn [obind]. eexists _, _. split; [done|].
    split; [|done]. destruct Hm as [S1 S2 S3]. constructor; [done|done|by apply Forall_cons]. }
  pose proof (upper_bound_app r (tree m)) as Happ. set (s := upper_bound r (tree m)) in *.
  assert (forall e, e ∈ s.1 -> e ∈ tree m) as Hp1 by (intros e He; rewrite <- Happ; apply elem_of_app; by left).
  assert (forall e, e ∈ s.2 -> e ∈ tree m) as Hp2 by (intros e He; rewrite <- Happ; apply elem_of_app; by right).
  assert (exists hit, (match s.2 with next :: _ => let? b := cond next.1 in Ok (if b : bool then Some next else None) | [] => Ok None end) = Ok hit /\
    match hit with Some e => e ∈ tree m /\ c e.1 = true | None => forall e, e ∈ s.2 -> c e.1 = false end) as (hit & -> & Hhit).
  { destruct s.2 as [|nx l] eqn:E2; [exists None; split; [done|by intros e ?%not_elem_of_nil]|]. rewrite (Hc nx.1) by (apply list_elem_of_fmap_2, Hp2; by left). cbn [obind].
    destruct (c nx.1) eqn:En; [exists (Some nx); split; [done|split; [apply Hp2; by left|done]]|]. exists None. split; [done|]. intros e He.
    destruct (c e.1) eqn:Ee; [|done]. destruct (H2 e He Ee) as (e' & [= <-] & E'). congruence. }
  cbn [obind]. destruct hit as [e|].
  { cbn [obind]. destruct Hhit as [He Ee]. destruct (cache_add_ok e He) as [M1 M2]. eexists _, _. split; [done|]. by split_and!. }
  destruct (find_back_spec (reverse s.1)) as (b & -> & Hb); [apply Forall_forall; intros e He; apply Hp1; by apply elem_of_reverse|]. cbn [obind]. destruct b as [e|].
  { destruct Hb as [He Ee]. destruct (cache_add_ok e He) as [M1 M2]. eexists _, _. split; [done|]. by split_and!. }
  exists None, m. split; [done|]. split; [done|]. split; [done|]. intros e He. rewrite <- Happ in He. apply elem_of_app in He as [He|He]; [|by apply Hhit].
  destruct (c e.1) eqn:Ee; [|done]. destruct (H1 e He Ee) as (e' & El & Ee'). rewrite (Hb e') in Ee'; [done|]. rewrite <- El. apply head_reverse.
Qed.
End Find.

(** The ends of a sorted list. *)
Lemma sorted_last l e e' : StronglySorted before l -> e ∈ l -> last l = Some e' -> e = e' \/ before e e'.
Proof.
  induction 1 as [|x l Hs IH Hx]; [by intros ?%not_elem_of_nil|]. intros He Hl. destruct l as [|y l].
  { cbn in Hl. injection Hl as ->. apply list_elem_of_singleton in He. by left. }
  change (last (x :: y :: l)) with (last (y :: l)) in Hl. apply elem_of_cons in He as [->|He]; [right|by apply IH].
  apply (proj1 (Forall_forall _ _) Hx). by apply last_Some_elem_of.
Qed.

Lemma sorted_head l e e' : StronglySorted before l -> e ∈ l -> head l = Some e' -> e = e' \/ before e' e.
Proof. intros [|x l' Hs Hx]; [done|]. intros [->|He]%elem_of_cons [= <-]; [by left|right]. by apply (proj1 (Forall_forall _ _) Hx). Qed.

Lemma sorted_app l l' : StronglySorted before (l ++ l') -> StronglySorted before l /\ StronglySorted before l'.
Proof.
  induction l as [|x l IH]; cbn; [by split; [constructor|]|]. inversion_clear 1 as [|? ? Hs Hx]. destruct (IH Hs). split; [|done]. constructor; [done|].
  by apply Forall_app in Hx as [? _].
Qed.

Definition covers_range (r q : AddrRange) : Prop := _start r <= _start q /\ _end q <= _end r.
Definition meets (r q : AddrRange) : Prop := _start q < _end r /\ _start r < _end q.

#[local] Abbreviation key_in m k := (k ∈ (tree m).*1).

Lemma key_proper m k : map_ok m -> key_in m k -> proper k.
Proof. intros Hm (e & -> & He)%list_elem_of_fmap. by apply (proj1 (Forall_forall _ _) (mo_proper _ Hm)). Qed.

Lemma bound_parts m r : map_ok m -> proper r -> let s := upper_bound r (tree m) in
  StronglySorted before s.1 /\ StronglySorted before s.2 /\ (forall e, e ∈ s.1 -> proper e.1 /\ _start e.1 <= _start r) /\ (forall e, e ∈ s.2 -> proper e.1 /\ _start r < _start e.1).
Proof.
  intros Hm Hr s. destruct (upper_bound_spec r (tree m) Hr (mo_sorted _ Hm) (mo_proper _ Hm)) as [H1 H2]. pose proof (upper_bound_app r (tree m)) as Ha. fold s in H1, H2, Ha.
  pose proof (mo_sorted _ Hm) as Hs. rewrite <- Ha in Hs. apply sorted_app in Hs as [S1 S2]. pose proof (mo_proper _ Hm) as HP. rewrite <- Ha in HP. apply Forall_app in HP as [P1 P2].
  rewrite Forall_forall in H1, H2, P1, P2. split_and!; try done; intros e He; auto.
Qed.

(** The entry that covers a range is found, whatever is cached. *)
Lemma contains_spec q m : proper q -> map_ok m -> exists res m', map_contains q m = Ok (res, m') /\ map_ok m' /\ tree m' = tree m /\
  match res with Some e => e ∈ tree m /\ covers_range e.1 q | None => forall e, e ∈ tree m -> ~ covers_range e.1 q end.
Proof.
  intros Hq Hm. set (c := fun r => (_start r <=? _start q) && (_end q <=? _end r)).
  assert (forall r, c r = true <-> covers_range r q) as Hcov by (intros r; unfold c, covers_range; lia).
  destruct (bound_parts m q Hm Hq) as (S1 & S2 & H1 & H2). pose proof Hq as [Hpq Hlt].
  destruct (find_spec m Hm (fun r1 => isSubset gnu q r1) c) with (r := q) as (res & m' & E & M1 & M2 & Hres).
  - intros r Hr. destruct (key_proper m r Hm Hr) as [Hpr Hlr]. unfold isSubset. rewrite (plain_not_interleaved q Hpq), (plain_not_interleaved r Hpr).
    replace (_end q <=? _start q) with false by lia. by replace (_end r <=? _start r) with false by lia.
  - intros e He Hc. apply Hcov in Hc. destruct (last (upper_bound q (tree m)).1) as [e'|] eqn:El; [|by apply last_None in El; rewrite El in He; apply not_elem_of_nil in He].
    exists e'. split; [done|]. destruct (sorted_last _ e e' S1 He El) as [<-|Hb]; [by apply Hcov|].
    destruct (H1 e' ltac:(by apply last_Some_elem_of)) as [_ ?]. unfold before, covers_range in *. lia.
  - intros e He Hc. apply Hcov in Hc. destruct (H2 e He). unfold covers_range in Hc. lia.
  - exists res, m'. split; [done|]. split; [done|]. split; [done|]. destruct res as [e|]; [by rewrite <- Hcov|]. intros e He Hc. apply Hcov in Hc. by rewrite Hres in Hc.
Qed.

(** So is one that meets it. *)
Lemma intersects_spec q m : proper q -> map_ok m -> exists res m', map_intersects q m = Ok (res, m') /\ map_ok m' /\ tree m' = tree m /\
  match res with Some e => e ∈ tree m /\ meets e.1 q | None => forall e, e ∈ tree m -> ~ meets e.1 q end.
Proof.
  intros Hq Hm. set (c := fun r => negb ((_end r <=? _start q) || (_end q <=? _start r))).
  assert (forall r, c r = true <-> meets r q) as Hcov by (intros r; unfold c, meets; lia).
  destruct (bound_parts m q Hm Hq) as (S1 & S2 & H1 & H2). pose proof Hq as [Hpq Hlt].
  destruct (find_spec m Hm (fun r1 => AddrRange.intersects gnu q r1) c) with (r := q) as (res & m' & E & M1 & M2 & Hres).
  - intros r Hr. destruct (key_proper m r Hm Hr) as [Hpr Hlr]. unfold AddrRange.intersects, c. rewrite (plain_not_interleaved q Hpq), (plain_not_interleaved r Hpr).
    by destruct (_ || _).
  - intros e He Hc. apply Hcov in Hc. destruct (last (upper_bound q (tree m)).1) as [e'|] eqn:El; [|by apply last_None in El; rewrite El in He; apply not_elem_of_nil in He].
    exists e'. split; [done|]. destruct (sorted_last _ e e' S1 He El) as [<-|Hb]; [by apply Hcov|].
    destruct (H1 e' ltac:(by apply last_Some_elem_of)) as [_ ?]. unfold before, meets in *. lia.
  - intros e He Hc. apply Hcov in Hc. destruct (upper_bound q (tree m)).2 as [|e' l] eqn:El; [by apply not_elem_of_nil in He|].
    exists e'. split; [done|]. destruct (sorted_head _ e e' S2 He eq_refl) as [<-|Hb]; [by apply Hcov|]. destruct (H2 e' ltac:(by left)) as [[_ ?] ?].
    apply Hcov. unfold before, meets in *. lia.
  - exists res, m'. split; [done|]. split; [done|]. split; [done|]. destruct res as [e|]; [by rewrite <- Hcov|]. intros e He Hc. apply Hcov in Hc. by rewrite Hres in Hc.
Qed.

Lemma tree_insert_perm r v l : proper r -> Forall (fun e => proper e.1 /\ ~ meets e.1 r) l -> tree_insert r v l ≡ₚ (r, v) :: l.
Proof.
  intros Hr. induction 1 as [|e l [Pe He] Hl IH]; [done|]. cbn. rewrite !proper_lt by done. destruct (Z.ltb_spec (_start r) (_start e.1)); [done|].
  destruct (Z.ltb_spec (_start e.1) (_start r)); [rewrite IH; constructor|]. exfalso. apply He. destruct Hr, Pe. unfold meets. lia.
Qed.

Lemma tree_insert_sorted r v l : proper r -> StronglySorted before l -> Forall (fun e => proper e.1 /\ ~ meets e.1 r) l -> StronglySorted before (tree_insert r v l).
Proof.
  intros Hr. induction 1 as [|e l Hs IH He]; intros HF; [repeat constructor|]. apply Forall_cons in HF as [[Pe Hne] HF]. cbn. rewrite !proper_lt by done.
  destruct Hr as [Hp Hlt], Pe as [Hpe Hle]. unfold meets in Hne. destruct (Z.ltb_spec (_start r) (_start e.1)) as [H1|H1].
  - constructor; [by constructor|]. apply Forall_cons. unfold before in *. cbn. split; [lia|]. eapply Forall_impl; [exact He|]. cbn. intros x Hx. lia.
  - replace (_start e.1 <? _start r) with true by lia. constructor; [by apply IH|]. rewrite tree_insert_perm by done. apply Forall_cons. split; [unfold before; cbn; lia|done].
Qed.

Lemma insert_spec r v m : proper r -> map_ok m -> exists b m', map_insert r v m = Ok (b, m') /\ map_ok m' /\
  if b then (forall e, e ∈ tree m -> ~ meets e.1 r) /\ tree m' ≡ₚ (r, v) :: tree m else exists e, e ∈ tree m /\ meets e.1 r.
Proof.
  intros Hr Hm. destruct (intersects_spec r m Hr Hm) as (res & m1 & E & M1 & M2 & Hres). unfold map_insert. rewrite E. cbn [obind fst snd]. destruct res as [e|].
  { exists false, m1. split; [done|]. split; [done|]. by exists e. }
  assert (Forall (fun e => proper e.1 /\ ~ meets e.1 r) (tree m)) as HF.
  { apply Forall_forall. intros e He. split; [by apply (proj1 (Forall_forall _ _) (mo_proper _ Hm))|by apply Hres]. }
  eexists true, _. split; [done|]. rewrite M2. pose proof (tree_insert_perm r v (tree m) Hr HF) as Hperm. split; [|done]. destruct M1 as [_ _ M3]. rewrite M2 in M3. constructor; cbn.
  - apply tree_insert_sorted; [done|apply Hm|done].
  - rewrite Hperm. apply Forall_cons. split; [done|apply Hm].
  - eapply Forall_impl; [exact M3|]. cbn. intros k Hk. rewrite Hperm. cbn. by right.
Qed.

Lemma sorted_filter (Q : AddrRange * V -> Prop) `{!forall e, Decision (Q e)} l : StronglySorted before l -> StronglySorted before (filter Q l).
Proof.
  induction 1 as [|e l Hs IH He]; [constructor|]. destruct (decide (Q e)); [rewrite filter_cons_True by done|by rewrite filter_cons_False].
  constructor; [done|]. apply Forall_forall. intros x [_ Hx]%list_elem_of_filter. by apply (proj1 (Forall_forall _ _) He).
Qed.

Lemma erase_spec k m : map_ok m -> map_ok (map_erase k m) /\ forall e, e ∈ tree (map_erase k m) <-> e ∈ tree m /\ e.1 <> k.
Proof.
  intros [S1 S2 S3]. split; [constructor; cbn|cbn; intros e; rewrite list_elem_of_filter; tauto].
  - by apply sorted_filter.
  - apply Forall_forall. intros e [_ He]%list_elem_of_filter. by apply (proj1 (Forall_forall _ _) S2).
  - apply Forall_forall. intros k' [Hk Hin]%list_elem_of_filter. pose proof (proj1 (Forall_forall _ _) S3 k' Hin) as (e & -> & He)%list_elem_of_fmap.
    apply list_elem_of_fmap_2. by apply list_elem_of_filter.
Qed.

(** Entries whose keys are equal are equal. *)
Lemma key_unique m e e' : map_ok m -> e ∈ tree m -> e' ∈ tree m -> (exists a, within e.1 a /\ within e'.1 a) -> e = e'.
Proof.
  intros [S1 _ _]. induction S1 as [|x l Hs IH Hx]; [by intros ?%not_elem_of_nil|]. rewrite Forall_forall in Hx. unfold before, within in *.
  intros [->|He]%elem_of_cons [->|He']%elem_of_cons (a & H1 & H2); try done.
  - specialize (Hx e' He'). lia.
  - specialize (Hx e He). lia.
  - apply IH; eauto.
Qed.
End Map.
Arguments empty_map {V}.
