(* ===== verification/Interleave.v ===== *)
(** Interleaved address ranges: the ranges with the same masks share out the
    addresses, and taking the interleaving bits out of an address of a range
    loses nothing. *)
From Stdlib Require Import ZArith Lia Bool.
From stdpp Require Import base numbers list sorting.
From S2P Require Import Prelude Bitfield AddrRange.
Local Open Scope Z_scope.

(** ** Parity under a mask *)
Definition parity (a m : Z) : bool := Z.odd (bit_sum 64 (Z.land a m)).

Lemma popCount_sum gnu x : 0 <= x < 2 ^ 64 -> popCount gnu x = bit_sum 64 x.
Proof. intros Hx. destruct gnu; [by apply (popcount_bit_sum 64)|by apply popCount_portable_sum]. Qed.

Lemma popCount_parity gnu a m : 0 <= a < 2 ^ 64 -> 0 <= m -> popCount gnu (Z.land a m) mod 2 = Z.b2z (parity a m).
Proof.
  intros Ha Hm. rewrite popCount_sum by (apply land_bound; lia). unfold parity. by rewrite Zmod_odd; destruct (Z.odd _).
Qed.

(** The selector as a number. *)
Fixpoint select (a : Z) (ms : list Z) : Z :=
  match ms with [] => 0 | m :: ms' => Z.b2z (parity a m) + 2 * select a ms' end.

Lemma select_range a ms : 0 <= select a ms < 2 ^ vsize ms.
Proof.
  induction ms as [|m ms IH]; cbn [select]; unfold vsize in *; [split; done|]. cbn [length].
  rewrite Nat2Z.inj_succ, Z.pow_succ_r by lia. destruct (parity a m); cbn [Z.b2z]; lia.
Qed.

Lemma select_testbit a ms k m : ms !! k = Some m -> Z.testbit (select a ms) (Z.of_nat k) = parity a m.
Proof.
  revert k. induction ms as [|m' ms IH]; intros [|k] E; try done; cbn [select].
  - injection E as ->. rewrite Z.add_comm. apply Z.testbit_0_r.
  - rewrite Nat2Z.inj_succ, Z.add_comm, Z.testbit_succ_r by lia. by apply IH.
Qed.

Lemma selector_select gnu a ms i sel : 0 <= a < 2 ^ 64 -> Forall (fun m => 0 <= m) ms -> 0 <= i ->
  i + vsize ms <= 31 -> 0 <= sel < 2 ^ i -> selector gnu a ms i sel = Ok (sel + 2 ^ i * select a ms).
Proof.
  intros Ha. revert i sel. induction ms as [|m ms IH]; intros i sel Hm Hi Hn Hs; cbn [selector select].
  { by rewrite Z.mul_0_r, Z.add_0_r. }
  inversion_clear Hm as [|? ? Hm0 Hms]. unfold vsize in *. cbn [length] in Hn.
  assert (2 ^ (i + 1) <= 2 ^ 31) as Hp by (apply Z.pow_le_mono_r; lia). rewrite Z.pow_add_r in Hp by lia.
  rewrite popCount_parity by done. set (b := Z.b2z (parity a m)).
  assert (0 <= b <= 1) as Hb by (subst b; destruct (parity a m); cbn; lia).
  unfold shl_int. replace ((0 <=? i) && (i <? 32)) with true by lia. cbn [obind].
  rewrite Z.shiftl_mul_pow2 by lia. rewrite (swrap_small 32 (b * 2 ^ i)), !(uwrap_small 32) by nia.
  rewrite Z.lor_comm, lor_disjoint by lia. rewrite swrap_small by nia.
  rewrite IH; [f_equal; rewrite Z.pow_add_r by lia; nia|done|lia|lia|rewrite Z.pow_add_r by lia; nia].
Qed.

(** The ranges that differ only in [intlvMatch] share out the
    addresses between their bounds: each address is in exactly one of the
    [2 ^ n] of them. *)
Lemma interleaving_partitions gnu s e ms a : 0 <= a < 2 ^ 64 -> Forall (fun m => 0 <= m) ms -> vsize ms <= 31 ->
  s <= a < e ->
  exists k, 0 <= k < 2 ^ vsize ms /\ forall j, contains gnu (mkRange s e ms j) a = Ok (k =? j).
Proof.
  intros Ha Hm Hn Hs. exists (select a ms). split; [apply select_range|]. intros j. unfold contains. cbn [_start _end masks intlvMatch].
  replace ((s <=? a) && (a <? e)) with true by lia. rewrite selector_select by (done || lia). cbn [obind].
  by rewrite Z.mul_1_l.
Qed.

(** ** Taking bits out and putting them back, on the positions of bits *)
Definition up (p j : Z) : Z := if j <? p then j else j + 1.
Definition down (p j : Z) : Z := if j <? p then j else j - 1.

(** Where bit [j] of what [remove_bits] returns was. *)
Fixpoint skip (i : Z) (bs : list Z) (j : Z) : Z :=
  match bs with [] => j | b :: bs' => up (b - i) (skip (i + 1) bs' j) end.
(** Where bit [j] of what [add_bits] returns was. *)
Fixpoint place (bs : list Z) (j : Z) : Z :=
  match bs with [] => j | b :: bs' => down b (place bs' j) end.

(** The positions below [j]. *)
Fixpoint below (bs : list Z) (j : Z) : Z :=
  match bs with [] => 0 | b :: bs' => (if b <? j then 1 else 0) + below bs' j end.

(** Increasing, from [lo] on. *)
Fixpoint rising (lo : Z) (bs : list Z) : Prop :=
  match bs with [] => True | b :: bs' => lo <= b /\ rising (b + 1) bs' end.

Lemma rising_le lo lo' bs : lo' <= lo -> rising lo bs -> rising lo' bs.
Proof. destruct bs; cbn; [done|]. intros ? []. split; [lia|done]. Qed.

Lemma below_range lo bs j : rising lo bs -> 0 <= below bs j <= Z.max 0 (j - lo).
Proof.
  revert lo. induction bs as [|b bs IH]; intros lo; cbn [rising below]; [lia|]. intros [Hb Hr].
  specialize (IH _ Hr). destruct (Z.ltb_spec b j); lia.
Qed.

Lemma place_below lo bs j : rising lo bs -> j ∉ bs -> place bs j = j - below bs j.
Proof.
  revert lo. induction bs as [|b bs IH]; intros lo; cbn [rising place below]; [lia|]. intros [Hb Hr] Hj.
  rewrite not_elem_of_cons in Hj. destruct Hj as [Hne Hj]. rewrite (IH _ Hr Hj).
  pose proof (below_range _ _ j Hr). unfold down. destruct (Z.ltb_spec b j), (Z.ltb_spec (j - below bs j) b); lia.
Qed.

Lemma skip_low i bs j : rising (j + i + 1) bs -> skip i bs j = j.
Proof.
  revert i. induction bs as [|b bs IH]; intros i; cbn [rising skip]; [done|]. intros [Hb Hr].
  rewrite IH by (eapply rising_le; [|exact Hr]; lia). unfold up. by replace (j <? b - i) with true by lia.
Qed.

Lemma skip_below i bs j : rising i bs -> j ∉ bs -> i <= j -> skip i bs (j - i - below bs j) = j - i.
Proof.
  revert i. induction bs as [|b bs IH]; intros i; cbn [rising below]; [cbn; lia|]. intros [Hb Hr] Hj Hi.
  rewrite not_elem_of_cons in Hj. destruct Hj as [Hne Hj]. pose proof (below_range _ _ j Hr) as Hbel.
  destruct (Z.ltb_spec b j) as [Hl|Hl].
  - cbn [skip]. replace (j - i - (1 + below bs j)) with (j - (i + 1) - below bs j) by lia.
    rewrite IH by (done || lia || (eapply rising_le; [|exact Hr]; lia)). unfold up.
    destruct (Z.ltb_spec (j - (i + 1)) (b - i)); lia.
  - replace (below bs j) with 0 by lia. rewrite !Z.add_0_r, Z.sub_0_r. apply skip_low. cbn [rising]. split; [lia|done].
Qed.

Lemma skip_place bs j : rising 0 bs -> j ∉ bs -> 0 <= j -> skip 0 bs (place bs j) = j.
Proof.
  intros Hr Hj Hp. rewrite (place_below 0) by done. pose proof (skip_below 0 bs j Hr Hj Hp) as E.
  by rewrite !Z.sub_0_r in E.
Qed.

(** ** The loops, on bits *)
Lemma insertBits_none val b : 0 <= val < 2 ^ 64 -> insertBits val (2 ^ 32 - 1) 0 b = Ok val.
Proof.
  intros Hv. unfold insertBits. change (0 <=? 2 ^ 32 - 1) with true. replace (mask2 (2 ^ 32 - 1) 0) with 0 by done.
  cbn [ocheck obind].
  rewrite shl64_Ok by lia. cbn [obind]. rewrite Z.land_0_r, Z.lor_0_r. f_equal.
  apply Z.bits_inj'. intros i Hi.
  rewrite Z.land_spec, testbit_lnot64, Z.bits_0 by lia. destruct (Z.ltb_spec i 64); cbn [negb andb]; [apply andb_true_r|].
  symmetry. rewrite andb_false_r. by apply (testbit_high 64).
Qed.

Lemma remove_step a b i : 0 <= a < 2 ^ 64 -> 0 <= i <= b -> b < 64 ->
  exists a', (if 0 <? b then insertBits (Z.shiftr a 1) (u32 (b - i - 1)) 0 a else Ok (Z.shiftr a 1)) = Ok a' /\
    0 <= a' < 2 ^ 64 /\ forall j, 0 <= j -> Z.testbit a' j = Z.testbit a (up (b - i) j).
Proof.
  intros Ha Hi Hb. assert (0 <= Z.shiftr a 1 < 2 ^ 64) as Hs.
  { rewrite Z.shiftr_div_pow2 by lia. split; [apply Z.div_pos; lia|]. apply Z.div_lt_upper_bound; lia. }
  destruct (Z.ltb_spec 0 b) as [Hp|Hp].
  - destruct (Z.eq_dec b i) as [->|Hne].
    + replace (u32 (i - i - 1)) with (2 ^ 32 - 1) by (by rewrite Z.sub_diag). rewrite insertBits_none by done.
      eexists. split; [done|]. split; [done|]. intros j Hj. rewrite Z.shiftr_spec by lia. unfold up.
      by replace (j <? i - i) with false by lia.
    + rewrite uwrap_small by lia. destruct (insertBits_spec (Z.shiftr a 1) (b - i - 1) 0 a) as (r & -> & Hr & Hbits); try lia.
      eexists. split; [done|]. split; [done|]. intros j Hj. rewrite Hbits, Z.shiftr_spec, Z.sub_0_r by lia. unfold up.
      replace ((0 <=? j) && (j <=? b - i - 1) && (j <? 64)) with (j <? b - i) by lia. by destruct (j <? b - i).
  - eexists. split; [done|]. split; [done|]. intros j Hj. rewrite Z.shiftr_spec by lia. unfold up.
    by replace (j <? b - i) with false by lia.
Qed.

Lemma skip_nonneg i bs j : 0 <= j -> 0 <= skip i bs j.
Proof.
  intros Hj. revert i. induction bs as [|b bs IH]; intros i; cbn [skip]; [done|]. specialize (IH (i + 1)). unfold up.
  destruct (_ <? _); lia.
Qed.

Lemma remove_bits_spec bs i a : 0 <= a < 2 ^ 64 -> 0 <= i -> rising i bs -> Forall (fun b => b < 64) bs ->
  exists x, remove_bits bs i a = Ok x /\ 0 <= x < 2 ^ 64 /\ forall j, 0 <= j -> Z.testbit x j = Z.testbit a (skip i bs j).
Proof.
  revert i a. induction bs as [|b bs IH]; intros i a Ha Hi Hr Hb; cbn [remove_bits skip rising] in *; [by exists a|].
  destruct Hr as [Hib Hr]. inversion_clear Hb as [|? ? Hb0 Hbs].
  destruct (remove_step a b i) as (a' & -> & Ha' & Hbits); [done|lia|done|]. cbn [obind].
  destruct (IH (i + 1) a') as (x & Ex & Hx & Hxb); [done|lia|eapply rising_le; [|done]; lia|done|].
  exists x. split; [done|]. split; [done|]. intros j Hj. rewrite Hxb, Hbits by (done || by apply skip_nonneg). done.
Qed.

Lemma add_step a b : 0 <= a < 2 ^ 64 -> 0 <= b < 64 ->
  exists a', (if 0 <? b then insertBits (u64 (Z.shiftl a 1)) (b - 1) 0 a else Ok (u64 (Z.shiftl a 1))) = Ok a' /\
    0 <= a' < 2 ^ 64 /\ forall j, 0 <= j < 64 -> Z.testbit a' j = Z.testbit a (down b j).
Proof.
  intros Ha Hb. pose proof (uwrap_range 64 (Z.shiftl a 1) ltac:(lia)) as Hs.
  destruct (Z.ltb_spec 0 b) as [Hp|Hp].
  - destruct (insertBits_spec (u64 (Z.shiftl a 1)) (b - 1) 0 a) as (r & -> & Hr & Hbits); try lia.
    eexists. split; [done|]. split; [done|]. intros j Hj. rewrite Hbits, Z.sub_0_r by lia. unfold down.
    replace ((0 <=? j) && (j <=? b - 1) && (j <? 64)) with (j <? b) by lia. destruct (j <? b); [done|].
    rewrite testbit_uwrap, Z.shiftl_spec by lia. by replace (j <? 64) with true by lia.
  - eexists. split; [done|]. split; [done|]. intros j Hj. unfold down. replace (j <? b) with false by lia.
    rewrite testbit_uwrap, Z.shiftl_spec by lia. by replace (j <? 64) with true by lia.
Qed.

Lemma place_range lo bs j : rising lo bs -> 0 <= lo -> j ∉ bs -> 0 <= j -> 0 <= place bs j <= j.
Proof.
  intros Hr Hlo Hj Hp. rewrite (place_below lo) by done. pose proof (below_range lo bs j Hr). lia.
Qed.

Lemma add_bits_spec lo bs a : 0 <= a < 2 ^ 64 -> 0 <= lo -> rising lo bs -> Forall (fun b => b < 64) bs ->
  exists x, add_bits bs a = Ok x /\ 0 <= x < 2 ^ 64 /\
    forall j, 0 <= j < 64 -> j ∉ bs -> Z.testbit x j = Z.testbit a (place bs j).
Proof.
  revert lo a. induction bs as [|b bs IH]; intros lo a Ha Hlo Hr Hb; cbn [add_bits place rising] in *; [by exists a|].
  destruct Hr as [Hib Hr]. inversion_clear Hb as [|? ? Hb0 Hbs].
  destruct (add_step a b) as (a' & -> & Ha' & Hbits); [done|lia|]. cbn [obind].
  destruct (IH (b + 1) a') as (x & Ex & Hx & Hxb); [done|lia|done|done|].
  exists x. split; [done|]. split; [done|]. intros j Hj Hin. rewrite not_elem_of_cons in Hin. destruct Hin as [Hne Hin].
  rewrite Hxb by done. apply Hbits. pose proof (place_range (b + 1) bs j Hr ltac:(lia) Hin ltac:(lia)). lia.
Qed.

(** ** The bit the selector asks for *)
Lemma bit_sum_clearbit n x k : 0 <= x -> 0 <= k < Z.of_nat n ->
  bit_sum n x = Z.b2z (Z.testbit x k) + bit_sum n (Z.clearbit x k).
Proof.
  revert x k. induction n as [|n IH]; intros x k Hx Hk; [lia|]. cbn [bit_sum].
  assert (Z.odd (Z.clearbit x k) = negb (k =? 0) && Z.odd x) as Eo.
  { rewrite <- !Z.bit0_odd, Z.clearbit_eqb by lia. rewrite andb_comm. by destruct (Z.eqb_spec k 0). }
  assert (Z.div2 (Z.clearbit x k) = if k =? 0 then Z.div2 x else Z.clearbit (Z.div2 x) (k - 1)) as Ed.
  { apply Z.bits_inj'. intros j Hj. rewrite Z.div2_spec, Z.shiftr_spec, Z.clearbit_eqb by lia.
    destruct (Z.eqb_spec k 0) as [->|]; rewrite ?Z.clearbit_eqb, Z.div2_spec, Z.shiftr_spec by lia.
    - replace (0 =? j + 1) with false by lia. apply andb_true_r.
    - by replace (k - 1 =? j) with (k =? j + 1) by lia. }
  rewrite Eo, Ed. destruct (Z.eqb_spec k 0) as [->|Hne]; cbn [negb andb].
  - rewrite Z.bit0_odd. cbn [Z.b2z]. lia.
  - rewrite (IH (Z.div2 x) (k - 1)) by (rewrite ?Z.div2_nonneg; lia). rewrite Z.div2_spec, Z.shiftr_spec by lia.
    replace (k - 1 + 1) with k by lia. lia.
Qed.

(** What the loop computes besides the lowest bit of the mask. *)
Definition others (a m : Z) : Z := Z.clearbit (Z.land a m) (ctz64 m).

Lemma ctz64_lowest m : 0 < m -> lowest_set m (ctz64 m).
Proof. intros Hm. unfold ctz64. replace (m =? 0) with false by lia. by apply builtin_ctz_lowest. Qed.

Lemma parity_others a m : 0 <= a -> 0 < m < 2 ^ 64 ->
  parity a m = xorb (Z.testbit a (ctz64 m)) (Z.odd (bit_sum 64 (others a m))).
Proof.
  intros Ha Hm. destruct (ctz64_lowest m ltac:(lia)) as (H0 & H1 & _).
  assert (ctz64 m < 64) as Hlt.
  { destruct (Z.lt_ge_cases (ctz64 m) 64); [done|]. by rewrite (testbit_high 64 m) in H1 by lia. }
  unfold parity, others. rewrite (bit_sum_clearbit 64 _ (ctz64 m)); [|rewrite Z.land_nonneg; lia|lia].
  rewrite Z.land_spec, H1, andb_true_r, Z.odd_add. by destruct (Z.testbit a (ctz64 m)).
Qed.

Lemma masked_others a m : 0 <= a < 2 ^ 64 -> 0 <= ctz64 m <= 30 ->
  Z.land (Z.land a m) (u64 (Z.lnot (i32 (Z.shiftl 1 (ctz64 m))))) = others a m.
Proof.
  intros Ha Hl. rewrite Z.shiftl_1_l. rewrite swrap_small.
  2:lia. 2:{ split; [lia|]. apply Z.pow_lt_mono_r; lia. }
  apply Z.bits_inj'. intros j Hj. unfold others.
  rewrite Z.clearbit_eqb, !Z.land_spec, testbit_uwrap, Z.lnot_spec, Z.pow2_bits_eqb by lia.
  destruct (Z.ltb_spec j 64); [done|]. by rewrite (testbit_high 64 a j).
Qed.

Lemma bit_testbit v i : 0 <= v < 2 ^ 64 -> 0 <= i < 64 -> bit v i = Ok (Z.b2z (Z.testbit v i)).
Proof.
  intros Hv Hi. unfold bit. rewrite bits_field by lia. f_equal. unfold field.
  replace (i - i + 1) with 1 by lia. change (2 ^ 1) with 2. symmetry. apply Z.testbit_spec'. lia.
Qed.

(** Addresses that agree but for some bits. *)
Definition agree (bs : list Z) (x y : Z) : Prop :=
  forall j, 0 <= j -> j ∉ bs -> Z.testbit x j = Z.testbit y j.

(** Masks [addIntlvBits] can work with: their lowest bits fit the [int] of
    [1 << lsb], and the lowest bit of a mask is in no other. *)
Record masks_ok (ms : list Z) : Prop := {
  mo_mask : Forall (fun m => 0 < m < 2 ^ 64 /\ ctz64 m <= 30) ms;
  mo_distinct : NoDup (ctz64 <$> ms);
  mo_apart : forall m m', m ∈ ms -> m' ∈ ms -> Z.testbit m (ctz64 m') = true -> ctz64 m' = ctz64 m;
}.

Lemma masks_ok_cons m ms : masks_ok (m :: ms) -> masks_ok ms.
Proof.
  intros [H1 H2 H3]. inversion_clear H1. cbn in H2. apply NoDup_cons in H2 as [_ H2]. constructor; try done.
  intros x y Hx Hy. apply H3; by right.
Qed.

Lemma select_bits_restore gnu k ms i a A : masks_ok ms -> 0 <= k < 2 ^ 64 -> 0 <= i -> i + vsize ms <= 64 ->
  0 <= a < 2 ^ 64 -> 0 <= A < 2 ^ 64 -> agree (ctz64 <$> ms) a A ->
  (forall n m, ms !! n = Some m -> Z.testbit k (i + Z.of_nat n) = parity A m) ->
  select_bits gnu k ms i a = Ok A.
Proof.
  revert i a. induction ms as [|m ms IH]; intros i a Hm Hk Hi Hn Ha HA Hag Hpar; cbn [select_bits].
  { f_equal. apply Z.bits_inj'. intros j Hj. apply Hag; [done|]. apply not_elem_of_nil. }
  unfold vsize in Hn. cbn [length] in Hn. pose proof (mo_mask _ Hm) as Hms. inversion_clear Hms as [|? ? [Hm0 Hl] _].
  destruct (ctz64_lowest m ltac:(lia)) as (H0 & H1 & _).
  rewrite bit_testbit by lia. cbn [obind]. unfold shl_int. replace ((0 <=? ctz64 m) && (ctz64 m <? 32)) with true by lia.
  cbn [obind]. rewrite masked_others by lia.
  assert (others a m = others A m) as Eo.
  { apply Z.bits_inj'. intros j Hj. unfold others. rewrite !Z.clearbit_eqb, !Z.land_spec by lia.
    destruct (Z.eqb_spec (ctz64 m) j); [by rewrite !andb_false_r|]. rewrite !andb_true_r.
    destruct (Z.testbit m j) eqn:Em; [|by rewrite !andb_false_r]. f_equal. apply Hag; [done|].
    intros (m' & -> & Hm')%list_elem_of_fmap. by apply (mo_apart _ Hm m m') in Em; [|left|]. }
  rewrite popCount_sum by (rewrite <- masked_others by lia; repeat apply land_bound; lia || (apply uwrap_range; lia)).
  destruct (insertBits_spec a (ctz64 m) (ctz64 m) (Z.lxor (Z.b2z (Z.testbit k i)) (bit_sum 64 (others a m))))
    as (r & Er & Hr & Hbits); try lia. unfold insertBit. rewrite Er. cbn [obind].
  apply IH; try done; [by eapply masks_ok_cons|lia|unfold vsize; lia| |].
  - intros j Hj Hin. rewrite Hbits by done. destruct (Z.eq_dec j (ctz64 m)) as [->|Hne].
    + replace ((ctz64 m <=? ctz64 m) && (ctz64 m <=? ctz64 m) && (ctz64 m <? 64)) with true by lia.
      rewrite Z.sub_diag, Z.lxor_spec, Z.b2z_bit0, Z.bit0_odd, Eo.
      pose proof (Hpar 0%nat m eq_refl) as Hp. rewrite Z.add_0_r in Hp. rewrite Hp, (parity_others A m) by lia.
      by destruct (Z.testbit A (ctz64 m)), (Z.odd _).
    + replace ((ctz64 m <=? j) && (j <=? ctz64 m) && (j <? 64)) with false by lia. apply Hag; [done|].
      cbn. apply not_elem_of_cons. done.
  - intros n m' Hm'. rewrite <- (Hpar (S n) m' Hm'). f_equal. lia.
Qed.

(** ** Sorting *)
Lemma insert_sorted_perm x l : insert_sorted x l ≡ₚ x :: l.
Proof. induction l as [|y l IH]; [done|]. cbn. destruct (x <=? y); [done|]. rewrite IH. constructor. Qed.

Lemma sort_bits_perm l : sort_bits l ≡ₚ l.
Proof. induction l as [|x l IH]; [done|]. cbn. by rewrite insert_sorted_perm, IH. Qed.

Lemma insert_sorted_rising lo x l : lo <= x -> rising lo l -> x ∉ l -> rising lo (insert_sorted x l).
Proof.
  revert lo. induction l as [|y l IH]; intros lo Hx Hr Hin; [done|]. cbn [insert_sorted rising] in *.
  destruct Hr as [Hy Hr]. apply not_elem_of_cons in Hin as [Hne Hin]. destruct (Z.leb_spec x y).
  - cbn [rising]. split; [done|]. split; [lia|done].
  - cbn [rising]. split; [done|]. apply IH; [lia|done|done].
Qed.

Lemma sort_bits_rising l : Forall (fun x => 0 <= x) l -> NoDup l -> rising 0 (sort_bits l).
Proof.
  induction l as [|x l IH]; intros Hl Hd; [done|]. inversion_clear Hl. apply NoDup_cons in Hd as [Hx Hd].
  cbn. apply insert_sorted_rising; [done|by apply IH|]. by rewrite sort_bits_perm.
Qed.

Lemma lsbs_rising r : masks_ok (masks r) ->
  rising 0 (masks_lsb r) /\ Forall (fun b => b < 64) (masks_lsb r) /\
  forall j, j ∈ masks_lsb r <-> j ∈ ctz64 <$> masks r.
Proof.
  intros [Hm Hd _]. unfold masks_lsb. split; [|split].
  - apply sort_bits_rising; [|done]. apply Forall_fmap. eapply Forall_impl; [exact Hm|]. intros m [Hm0 _]. cbn.
    by destruct (ctz64_lowest m ltac:(lia)).
  - rewrite sort_bits_perm. apply Forall_fmap. eapply Forall_impl; [exact Hm|]. intros m [_ ?]. cbn. lia.
  - intros j. by rewrite sort_bits_perm.
Qed.

(** C31 (roundtrip). [addIntlvBits] undoes [removeIntlvBits] on the addresses of
    an interleaved range, for masks whose lowest bits are distinct, in no other
    mask and below bit 31. *)
Theorem interleaving_roundtrip gnu r a : masks_ok (masks r) -> masks r <> [] -> vsize (masks r) <= 31 ->
  0 <= intlvMatch r < 2 ^ 8 -> 0 <= a < 2 ^ 64 -> contains gnu r a = Ok true ->
  exists x, removeIntlvBits r a = Ok x /\ addIntlvBits gnu r x = Ok a.
Proof.
  intros Hm Hne Hn Hk Ha Hc. destruct (lsbs_rising r Hm) as (Hr & Hb & Hin).
  assert (interleaved r = true) as Hi by (apply Z.ltb_lt; unfold vsize; destruct (masks r); [done|cbn [length]; lia]).
  unfold removeIntlvBits, addIntlvBits. rewrite Hi. cbn [negb].
  destruct (remove_bits_spec (masks_lsb r) 0 a) as (x & Ex & Hx & Hxb); try done. exists x. split; [done|].
  destruct (add_bits_spec 0 (masks_lsb r) x) as (y & -> & Hy & Hyb); try done. cbn [obind].
  unfold contains in Hc. destruct (_ && _); [|done].
  rewrite selector_select in Hc; [|done| |done|lia|done].
  2:{ eapply Forall_impl; [apply (mo_mask _ Hm)|]. cbn. lia. }
  injection Hc as Hc. assert (intlvMatch r = select a (masks r)) as Ek by lia.
  apply select_bits_restore; try done; [lia|lia| |].
  - intros j Hj Hnin. rewrite <- Hin in Hnin. destruct (Z.lt_ge_cases j 64) as [Hl|Hl].
    2:{ by rewrite !(testbit_high 64) by lia. }
    rewrite Hyb, Hxb, skip_place; try done. by apply (place_range 0).
  - intros n m E. rewrite Ek. by apply select_testbit.
Qed.

Lemma interleaving_roundtrip_witness :
  exists x, removeIntlvBits (mkRange 0 4096 [0x140; 0x280] 2) 0x347 = Ok x /\
    addIntlvBits true (mkRange 0 4096 [0x140; 0x280] 2) x = Ok 0x347.
Proof.
  apply (interleaving_roundtrip true (mkRange 0 4096 [0x140; 0x280] 2) 0x347).
  - constructor.
    + repeat constructor; lia || (vm_compute; congruence).
    + apply (bool_decide_unpack _). by vm_compute.
    + intros m m' [->|[->|[]%not_elem_of_nil]%elem_of_cons]%elem_of_cons [->|[->|[]%not_elem_of_nil]%elem_of_cons]%elem_of_cons;
        by vm_compute.
  - done.
  - by vm_compute.
  - cbn. lia.
  - lia.
  - by vm_compute.
Defined.

(** Masks from bit 31 on are beyond [1 << lsb]. *)
Lemma high_interleaving_breaks :
  contains true (mkRange 0 (2 ^ 40) [2 ^ 33] 1) (2 ^ 33) = Ok true /\
  granularity (mkRange 0 (2 ^ 40) [2 ^ 33] 1) = Fault BadShift /\
  addIntlvBits true (mkRange 0 (2 ^ 40) [2 ^ 33] 1) 0 = Fault BadShift.
Proof. by vm_compute. Qed.
