(* ===== verification/Bytes.v ===== *)
(** Buffers of bytes, and what [memcpy] and [memcmp] do to them. *)
From Stdlib Require Import ZArith Lia Bool.
From stdpp Require Import base numbers list.
From S2P Require Import Prelude.
Local Open Scope Z_scope.

(** [n] bytes at [p + off]. *)
Definition read_bytes (p : list Z) (off n : Z) : outcome (list Z) :=
  if (0 <=? off) && (0 <=? n) && (off + n <=? vsize p) then Ok (take (Z.to_nat n) (drop (Z.to_nat off) p))
  else Fault IndexOutOfRange.

(** The bytes [src] written at [p + off]. *)
Definition splice (p : list Z) (off : nat) (src : list Z) : list Z :=
  take off p ++ src ++ drop (off + length src) p.
Definition write_bytes (p : list Z) (off : Z) (src : list Z) : outcome (list Z) :=
  if (0 <=? off) && (off + vsize src <=? vsize p) then Ok (splice p (Z.to_nat off) src)
  else Fault IndexOutOfRange.

(** The bytes of [src] where they are enabled, those of [old] elsewhere. *)
Fixpoint select_bytes (old src : list Z) (enable : list bool) : list Z :=
  match old, src, enable with
  | o :: old', s :: src', b :: enable' => (if b : bool then s else o) :: select_bytes old' src' enable'
  | _, _, _ => []
  end.

(** An integer of [n] bytes, as a little-endian host keeps it. *)
Fixpoint le_bytes (n : nat) (v : Z) : list Z :=
  match n with O => [] | S n' => v mod 256 :: le_bytes n' (v / 256) end.

Lemma read_bytes_Ok p off n : 0 <= off -> 0 <= n -> off + n <= vsize p ->
  read_bytes p off n = Ok (take (Z.to_nat n) (drop (Z.to_nat off) p)).
Proof. intros. unfold read_bytes. by replace ((0 <=? off) && (0 <=? n) && (off + n <=? vsize p)) with true by lia. Qed.

Lemma read_bytes_Ok_inv p off n d : read_bytes p off n = Ok d ->
  0 <= off /\ 0 <= n /\ off + n <= vsize p /\ d = take (Z.to_nat n) (drop (Z.to_nat off) p) /\ vsize d = n.
Proof.
  unfold read_bytes. destruct (_ && _) eqn:E; [|done]. intros [= <-]. split_and!; try lia; [done|].
  unfold vsize in *. rewrite length_take, length_drop. lia.
Qed.

Lemma read_bytes_all p : read_bytes p 0 (vsize p) = Ok p.
Proof.
  rewrite read_bytes_Ok by (unfold vsize; lia). unfold vsize. rewrite Nat2Z.id. change (Z.to_nat 0) with 0%nat.
  by rewrite drop_0, firstn_all.
Qed.

Lemma splice_length p off src : (off + length src <= length p)%nat -> length (splice p off src) = length p.
Proof. intros H. unfold splice. rewrite !length_app, length_take, length_drop. lia. Qed.

Lemma splice_all p src : length src = length p -> splice p 0 src = src.
Proof. intros E. unfold splice. rewrite take_0, drop_ge by lia. by rewrite app_nil_r. Qed.

Lemma splice_lookup p off src i : (off + length src <= length p)%nat ->
  splice p off src !! i =
    if decide (off <= i < off + length src)%nat then src !! (i - off)%nat else p !! i.
Proof.
  intros H. unfold splice. destruct (decide _) as [Hd|Hd].
  - rewrite lookup_app_r by (rewrite length_take; lia). rewrite length_take, Nat.min_l by lia.
    by rewrite lookup_app_l by lia.
  - destruct (decide (i < off)%nat).
    + rewrite lookup_app_l by (rewrite length_take; lia). by apply lookup_take_lt.
    + rewrite lookup_app_r by (rewrite length_take; lia). rewrite length_take, Nat.min_l by lia.
      rewrite lookup_app_r by lia. rewrite lookup_drop. f_equal. lia.
Qed.

Lemma write_bytes_Ok p off src : 0 <= off -> off + vsize src <= vsize p ->
  write_bytes p off src = Ok (splice p (Z.to_nat off) src).
Proof. intros. unfold write_bytes. by replace ((0 <=? off) && (off + vsize src <=? vsize p)) with true by lia. Qed.

Lemma write_bytes_Ok_inv p off src p' : write_bytes p off src = Ok p' ->
  0 <= off /\ off + vsize src <= vsize p /\ p' = splice p (Z.to_nat off) src /\ vsize p' = vsize p.
Proof.
  unfold write_bytes. destruct (_ && _) eqn:E; [|done]. intros [= <-]. split_and!; try lia; [done|].
  unfold vsize in *. rewrite splice_length; lia.
Qed.

Lemma select_bytes_length old src en : length src = length old -> length en = length old ->
  length (select_bytes old src en) = length old.
Proof. revert src en. induction old as [|o old IH]; intros [|s src] [|b en]; cbn; try lia. intros. f_equal. apply IH; lia. Qed.

Lemma le_bytes_length n v : length (le_bytes n v) = n.
Proof. revert v. induction n as [|n IH]; intros v; cbn; [done|]. by rewrite IH. Qed.
