(* ===== verification/MemRequest.v ===== *)
(** Memory requests: [mem/request.hh], with [base/flags.hh].

    The fields a request carries for tracing, for translation statistics and
    for GPUs are left out.  An atomic operation is the function it computes on
    the bytes it is given, and their number. *)
From Stdlib Require Import ZArith Lia Bool.
From stdpp Require Import base numbers list.
From S2P Require Import Prelude Bitfield.
Local Open Scope Z_scope.

(** ** [Flags] *)
Definition fl_isSet (flags mask : Z) : bool := negb (Z.land flags mask =? 0).
Definition fl_allSet (flags mask : Z) : bool := Z.land flags mask =? mask.
Definition fl_noneSet (flags mask : Z) : bool := Z.land flags mask =? 0.
Definition fl_clear (flags mask : Z) : Z := Z.land flags (Z.lnot mask).
Definition fl_set (flags mask : Z) : Z := Z.lor flags mask.
Definition fl_replace (old flags mask : Z) : Z := Z.lor (Z.land old (Z.lnot mask)) (Z.land flags mask).

(** ** [Request] *)
Definition INST_FETCH : Z := 0x100.
Definition UNCACHEABLE : Z := 0x400.
Definition ACQUIRE : Z := 0x20000.
Definition RELEASE : Z := 0x40000.
Definition LOCKED_RMW : Z := 0x100000.
Definition LLSC : Z := 0x200000.
Definition MEM_SWAP : Z := 0x400000.
Definition MEM_SWAP_COND : Z := 0x800000.
Definition PREFETCH : Z := 0x1000000.
Definition PF_EXCLUSIVE : Z := 0x2000000.
Definition SECURE : Z := 0x10000000.
Definition ATOMIC_RETURN_OP : Z := 0x40000000.
Definition ATOMIC_NO_RETURN_OP : Z := 0x80000000.
Definition INVALIDATE : Z := 0x100000000.
Definition CLEAN : Z := 0x200000000.
Definition DST_POU : Z := 0x1000000000.
Definition DST_POC : Z := 0x2000000000.
Definition DST_BITS : Z := 0x3000000000.
Definition HTM_START : Z := 0x10000000000.
Definition HTM_COMMIT : Z := 0x20000000000.
Definition HTM_CANCEL : Z := 0x40000000000.
Definition HTM_ABORT : Z := 0x80000000000.
Definition STICKY_FLAGS : Z := INST_FETCH.

Definition REQ_VALID_SIZE : Z := 0x1.
Definition VALID_PADDR : Z := 0x2.
Definition VALID_VADDR : Z := 0x4.
Definition VALID_PC : Z := 0x10.
Definition VALID_CONTEXT_ID : Z := 0x20.
Definition VALID_EXTRA_DATA : Z := 0x80.
Definition STICKY_PRIVATE_FLAGS : Z := VALID_CONTEXT_ID.

Definition wbRequestorId : Z := 0.
Definition funcRequestorId : Z := 1.
Definition rq_invldRequestorId : Z := 2 ^ 16 - 1.

(** [AtomicOpFunctor], through [TypedAtomicOpFunctor<T>]: [op_size] is
    [sizeof(T)]. *)
Record AtomicOp := mkAtomicOp { op_size : Z; execute : list Z -> list Z }.

Record Request := mkReq {
  rq_paddr : Z; rq_size : Z; rq_byteEnable : list bool; rq_requestorId : Z;
  rq_flags : Z; rq_coherenceFlags : Z; rq_privateFlags : Z; rq_time : Z; rq_taskId : Z;
  rq_vaddr : Z; rq_extraData : Z; rq_contextId : Z; rq_pc : Z;
  rq_atomicOp : option AtomicOp;
}.

Definition rq_default : Request :=
  mkReq 0 0 [] rq_invldRequestorId 0 0 0 (2 ^ 64 - 1) 1024 (2 ^ 64 - 1) 0 (-1) (2 ^ 64 - 1) None.

(** [Request(paddr, size, flags, id)]. *)
Definition new_Request (curTick paddr size flags id : Z) : Request :=
  mkReq paddr size (replicate (Z.to_nat size) true) id (fl_set 0 flags) 0 (fl_set 0 (Z.lor VALID_PADDR REQ_VALID_SIZE))
    curTick 1024 (2 ^ 64 - 1) 0 (-1) (2 ^ 64 - 1) None.

Definition with_rq (paddr size : Z) (be : list bool) (flags coh priv extra : Z) (r : Request) : Request :=
  mkReq paddr size be (rq_requestorId r) flags coh priv (rq_time r) (rq_taskId r) (rq_vaddr r) extra
    (rq_contextId r) (rq_pc r) (rq_atomicOp r).

Definition setVirt (curTick vaddr size flags id pc : Z) (amo_op : option AtomicOp) (r : Request) : Request :=
  mkReq (rq_paddr r) size (rq_byteEnable r) id (fl_set (fl_clear (rq_flags r) (Z.lnot STICKY_FLAGS)) flags)
    (rq_coherenceFlags r)
    (fl_set (fl_clear (rq_privateFlags r) (Z.lnot STICKY_PRIVATE_FLAGS))
       (Z.lor (Z.lor VALID_VADDR REQ_VALID_SIZE) VALID_PC))
    curTick (rq_taskId r) vaddr (rq_extraData r) (rq_contextId r) pc amo_op.

Definition setContext (context_id : Z) (r : Request) : Request :=
  mkReq (rq_paddr r) (rq_size r) (rq_byteEnable r) (rq_requestorId r) (rq_flags r) (rq_coherenceFlags r)
    (fl_set (rq_privateFlags r) VALID_CONTEXT_ID) (rq_time r) (rq_taskId r) (rq_vaddr r) (rq_extraData r)
    context_id (rq_pc r) (rq_atomicOp r).

(** [Request(vaddr, size, flags, id, pc, cid, atomic_op)]. *)
Definition new_Request_virt (curTick vaddr size flags id pc cid : Z) (amo_op : option AtomicOp) : Request :=
  let r := setContext cid (setVirt curTick vaddr size flags id pc amo_op rq_default) in
  with_rq (rq_paddr r) (rq_size r) (replicate (Z.to_nat size) true) (rq_flags r) (rq_coherenceFlags r)
    (rq_privateFlags r) (rq_extraData r) r.

Definition setPaddr (paddr : Z) (r : Request) : Request :=
  with_rq paddr (rq_size r) (rq_byteEnable r) (rq_flags r) (rq_coherenceFlags r)
    (fl_set (rq_privateFlags r) VALID_PADDR) (rq_extraData r) r.

Definition set_taskId (id : Z) (r : Request) : Request :=
  mkReq (rq_paddr r) (rq_size r) (rq_byteEnable r) (rq_requestorId r) (rq_flags r) (rq_coherenceFlags r)
    (rq_privateFlags r) (rq_time r) id (rq_vaddr r) (rq_extraData r) (rq_contextId r) (rq_pc r) (rq_atomicOp r).

Definition hasPaddr (r : Request) : bool := fl_isSet (rq_privateFlags r) VALID_PADDR.
Definition getPaddr (r : Request) : outcome Z := let? _ := ocheck (hasPaddr r) AssertFailed in Ok (rq_paddr r).
Definition hasVaddr (r : Request) : bool := fl_isSet (rq_privateFlags r) VALID_VADDR.
Definition hasSize (r : Request) : bool := fl_isSet (rq_privateFlags r) REQ_VALID_SIZE.
Definition getSize (r : Request) : outcome Z := let? _ := ocheck (hasSize r) AssertFailed in Ok (rq_size r).

Definition splitOnVaddr (split_addr : Z) (r : Request) : outcome (Request * Request) :=
  let? _ := ocheck (hasVaddr r) AssertFailed in
  let? _ := ocheck (negb (hasPaddr r)) AssertFailed in
  let? _ := ocheck ((rq_vaddr r <? split_addr) && (split_addr <? u64 (rq_vaddr r + rq_size r))) AssertFailed in
  let size1 := u32 (split_addr - rq_vaddr r) in
  let size2 := u32 (rq_size r - size1) in
  let be := rq_byteEnable r in
  let? _ := ocheck (size1 <=? vsize be) IndexOutOfRange in
  let req1 := with_rq (rq_paddr r) size1 (take (Z.to_nat size1) be) (rq_flags r) (rq_coherenceFlags r)
    (rq_privateFlags r) (rq_extraData r) r in
  let req2 := with_rq (rq_paddr r) size2 (drop (Z.to_nat size1) be) (rq_flags r) (rq_coherenceFlags r)
    (rq_privateFlags r) (rq_extraData r) r in
  Ok (req1, mkReq (rq_paddr req2) (rq_size req2) (rq_byteEnable req2) (rq_requestorId r) (rq_flags r)
    (rq_coherenceFlags r) (rq_privateFlags r) (rq_time r) (rq_taskId r) split_addr (rq_extraData r)
    (rq_contextId r) (rq_pc r) (rq_atomicOp r)).

Definition setByteEnable (be : list bool) (r : Request) : outcome Request :=
  let? _ := ocheck (vsize be =? rq_size r) AssertFailed in
  Ok (with_rq (rq_paddr r) (rq_size r) be (rq_flags r) (rq_coherenceFlags r) (rq_privateFlags r) (rq_extraData r) r).

Definition isMasked (r : Request) : bool := existsb negb (rq_byteEnable r).

Definition getAtomicOpFunctor (r : Request) : outcome AtomicOp := oget AssertFailed (rq_atomicOp r).

Definition setFlags (flags : Z) (r : Request) : outcome Request :=
  let? _ := ocheck (hasPaddr r || hasVaddr r) AssertFailed in
  Ok (with_rq (rq_paddr r) (rq_size r) (rq_byteEnable r) (fl_set (rq_flags r) flags) (rq_coherenceFlags r)
    (rq_privateFlags r) (rq_extraData r) r).
Definition clearFlags (flags : Z) (r : Request) : outcome Request :=
  let? _ := ocheck (hasPaddr r || hasVaddr r) AssertFailed in
  Ok (with_rq (rq_paddr r) (rq_size r) (rq_byteEnable r) (fl_clear (rq_flags r) flags) (rq_coherenceFlags r)
    (rq_privateFlags r) (rq_extraData r) r).
Definition setCacheCoherenceFlags (flags : Z) (r : Request) : outcome Request :=
  let? _ := ocheck (hasPaddr r || hasVaddr r) AssertFailed in
  Ok (with_rq (rq_paddr r) (rq_size r) (rq_byteEnable r) (rq_flags r) (fl_set (rq_coherenceFlags r) flags)
    (rq_privateFlags r) (rq_extraData r) r).

Definition extraDataValid (r : Request) : bool := fl_isSet (rq_privateFlags r) VALID_EXTRA_DATA.
Definition getExtraData (r : Request) : outcome Z :=
  let? _ := ocheck (extraDataValid r) AssertFailed in Ok (rq_extraData r).
Definition setExtraData (d : Z) (r : Request) : Request :=
  with_rq (rq_paddr r) (rq_size r) (rq_byteEnable r) (rq_flags r) (rq_coherenceFlags r)
    (fl_set (rq_privateFlags r) VALID_EXTRA_DATA) d r.

Definition hasContextId (r : Request) : bool := fl_isSet (rq_privateFlags r) VALID_CONTEXT_ID.
Definition contextId (r : Request) : outcome Z :=
  let? _ := ocheck (hasContextId r) AssertFailed in Ok (rq_contextId r).

Definition isUncacheable (r : Request) : bool := fl_isSet (rq_flags r) UNCACHEABLE.
Definition isInstFetch (r : Request) : bool := fl_isSet (rq_flags r) INST_FETCH.
Definition isPrefetch (r : Request) : bool := fl_isSet (rq_flags r) (Z.lor PREFETCH PF_EXCLUSIVE).
Definition isPrefetchEx (r : Request) : bool := fl_isSet (rq_flags r) PF_EXCLUSIVE.
Definition rq_isLLSC (r : Request) : bool := fl_isSet (rq_flags r) LLSC.
Definition rq_isLockedRMW (r : Request) : bool := fl_isSet (rq_flags r) LOCKED_RMW.
Definition isSwap (r : Request) : bool := fl_isSet (rq_flags r) (Z.lor MEM_SWAP MEM_SWAP_COND).
Definition isCondSwap (r : Request) : bool := fl_isSet (rq_flags r) MEM_SWAP_COND.
Definition rq_isSecure (r : Request) : bool := fl_isSet (rq_flags r) SECURE.
Definition isRelease (r : Request) : bool := fl_isSet (rq_flags r) RELEASE.
Definition isAcquire (r : Request) : bool := fl_isSet (rq_coherenceFlags r) ACQUIRE.
Definition isHTMAbort (r : Request) : bool := fl_isSet (rq_flags r) HTM_ABORT.
Definition isHTMCmd (r : Request) : bool :=
  fl_isSet (rq_flags r) HTM_START || fl_isSet (rq_flags r) HTM_COMMIT || fl_isSet (rq_flags r) HTM_CANCEL ||
  isHTMAbort r.
Definition isAtomic (r : Request) : bool :=
  fl_isSet (rq_flags r) ATOMIC_RETURN_OP || fl_isSet (rq_flags r) ATOMIC_NO_RETURN_OP.
Definition isToPOU (r : Request) : bool := fl_isSet (rq_flags r) DST_POU.
Definition isToPOC (r : Request) : bool := fl_isSet (rq_flags r) DST_POC.
Definition getDest (r : Request) : Z := Z.land (rq_flags r) DST_BITS.
Definition isCacheClean (r : Request) : bool := fl_isSet (rq_flags r) CLEAN.
Definition isCacheInvalidate (r : Request) : bool := fl_isSet (rq_flags r) INVALIDATE.
Definition isCacheMaintenance (r : Request) : bool := fl_isSet (rq_flags r) (Z.lor CLEAN INVALIDATE).

(** ** Splitting a request at a line boundary *)

(** [splitOnVaddr] cuts a request in two that follow each other
    and together ask for the same bytes under the same mask. *)
Theorem split_request r a : 0 <= rq_vaddr r < 2 ^ 64 -> 0 <= rq_size r < 2 ^ 32 -> rq_vaddr r + rq_size r < 2 ^ 64 ->
  vsize (rq_byteEnable r) = rq_size r -> hasVaddr r = true -> hasPaddr r = false ->
  rq_vaddr r < a < rq_vaddr r + rq_size r ->
  exists r1 r2, splitOnVaddr a r = Ok (r1, r2) /\
    rq_vaddr r1 = rq_vaddr r /\ rq_vaddr r1 + rq_size r1 = rq_vaddr r2 /\ rq_vaddr r2 = a /\
    rq_vaddr r2 + rq_size r2 = rq_vaddr r + rq_size r /\
    rq_byteEnable r1 ++ rq_byteEnable r2 = rq_byteEnable r /\
    vsize (rq_byteEnable r1) = rq_size r1 /\ vsize (rq_byteEnable r2) = rq_size r2 /\
    rq_flags r1 = rq_flags r /\ rq_flags r2 = rq_flags r.
Proof.
  intros Hv Hs Hend Hbe Hva Hpa Ha. unfold splitOnVaddr. rewrite Hva, Hpa. cbn [ocheck obind negb].
  rewrite (uwrap_small 64) by lia. replace ((rq_vaddr r <? a) && (a <? rq_vaddr r + rq_size r)) with true by lia.
  cbn [ocheck obind]. rewrite !(uwrap_small 32) by lia. rewrite Hbe.
  replace (a - rq_vaddr r <=? rq_size r) with true by lia. cbn [ocheck obind].
  eexists _, _. split; [done|]. cbn. split_and!; try done; try lia.
  - apply take_drop.
  - unfold vsize in *. rewrite length_take. lia.
  - unfold vsize in *. rewrite length_drop. lia.
Qed.

(** [ACQUIRE] is a value of the request flags, but [isAcquire] looks for it in
    the cache coherence flags. *)
Lemma acquire_flag_lost r r' : rq_coherenceFlags r = 0 -> setFlags ACQUIRE r = Ok r' -> isAcquire r' = false.
Proof.
  intros Hc H. unfold setFlags in H. destruct (ocheck _ _); [|done]. injection H as <-. unfold isAcquire. cbn. by rewrite Hc.
Qed.
