(* ===== verification/MemPacket.v ===== *)
(** Commands and packets: [mem/packet.hh], [mem/packet.cc].

    [pk_data] is the buffer a packet points to; the flags [STATIC_DATA] and
    [DYNAMIC_DATA] say whose it is.  [junk] is what the bytes of a new buffer
    happen to be.  Sender states, the parts for transactional memory, quality of
    service and printing are left out. *)
From Stdlib Require Import ZArith Lia Bool.
From stdpp Require Import base numbers list strings.
From S2P Require Import Prelude Bitfield AddrRange Bytes MemRequest.
Local Open Scope Z_scope.

(** ** [MemCmd] *)
Inductive Command :=
| InvalidCmd | ReadReq | ReadResp | ReadRespWithInvalidate | WriteReq | WriteResp | WriteCompleteResp
| WritebackDirty | WritebackClean | WriteClean | CleanEvict | SoftPFReq | SoftPFExReq | HardPFReq | SoftPFResp
| HardPFResp | WriteLineReq | UpgradeReq | SCUpgradeReq | UpgradeResp | SCUpgradeFailReq | UpgradeFailResp
| ReadExReq | ReadExResp | ReadCleanReq | ReadSharedReq | LoadLockedReq | StoreCondReq | StoreCondFailReq
| StoreCondResp | LockedRMWReadReq | LockedRMWReadResp | LockedRMWWriteReq | LockedRMWWriteResp | SwapReq
| SwapResp | MemFenceReq | MemSyncReq | MemSyncResp | MemFenceResp | CleanSharedReq | CleanSharedResp
| CleanInvalidReq | CleanInvalidResp | InvalidDestError | BadAddressError | ReadError | WriteError
| FunctionalReadError | FunctionalWriteError | PrintReq | FlushReq | InvalidateReq | InvalidateResp | HTMReq
| HTMReqResp | HTMAbort | TlbiExtSync.

Inductive Attribute :=
| IsRead | IsWrite | IsUpgrade | IsInvalidate | IsClean | NeedsWritable | IsRequest | IsResponse
| NeedsResponse | IsEviction | IsSWPrefetch | IsHWPrefetch | IsLlsc | IsLockedRMW | HasData | IsError | IsPrint
| IsFlush | FromCache.

#[global] Instance Command_eq_dec : EqDecision Command.
Proof. solve_decision. Defined.

(** The values of the enumerations. *)
Definition toInt (c : Command) : Z :=
  match c with
  | InvalidCmd => 0 | ReadReq => 1 | ReadResp => 2 | ReadRespWithInvalidate => 3 | WriteReq => 4
  | WriteResp => 5 | WriteCompleteResp => 6 | WritebackDirty => 7 | WritebackClean => 8 | WriteClean => 9
  | CleanEvict => 10 | SoftPFReq => 11 | SoftPFExReq => 12 | HardPFReq => 13 | SoftPFResp => 14
  | HardPFResp => 15 | WriteLineReq => 16 | UpgradeReq => 17 | SCUpgradeReq => 18 | UpgradeResp => 19
  | SCUpgradeFailReq => 20 | UpgradeFailResp => 21 | ReadExReq => 22 | ReadExResp => 23 | ReadCleanReq => 24
  | ReadSharedReq => 25 | LoadLockedReq => 26 | StoreCondReq => 27 | StoreCondFailReq => 28
  | StoreCondResp => 29 | LockedRMWReadReq => 30 | LockedRMWReadResp => 31 | LockedRMWWriteReq => 32
  | LockedRMWWriteResp => 33 | SwapReq => 34 | SwapResp => 35 | MemFenceReq => 38 | MemSyncReq => 39
  | MemSyncResp => 40 | MemFenceResp => 41 | CleanSharedReq => 42 | CleanSharedResp => 43
  | CleanInvalidReq => 44 | CleanInvalidResp => 45 | InvalidDestError => 46 | BadAddressError => 47
  | ReadError => 48 | WriteError => 49 | FunctionalReadError => 50 | FunctionalWriteError => 51
  | PrintReq => 52 | FlushReq => 53 | InvalidateReq => 54 | InvalidateResp => 55 | HTMReq => 56
  | HTMReqResp => 57 | HTMAbort => 58 | TlbiExtSync => 59
  end.

Definition attr_index (a : Attribute) : Z :=
  match a with
  | IsRead => 0 | IsWrite => 1 | IsUpgrade => 2 | IsInvalidate => 3 | IsClean => 4 | NeedsWritable => 5
  | IsRequest => 6 | IsResponse => 7 | NeedsResponse => 8 | IsEviction => 9 | IsSWPrefetch => 10
  | IsHWPrefetch => 11 | IsLlsc => 12 | IsLockedRMW => 13 | HasData => 14 | IsError => 15 | IsPrint => 16
  | IsFlush => 17 | FromCache => 18
  end.

Definition buildAttributes (attrs : list Attribute) : Z :=
  foldl (fun ret attr => Z.lor ret (Z.shiftl 1 (attr_index attr))) 0 attrs.

Record CommandInfo := mkInfo { attributes : Z; response : Command; str : string }.
Definition info (attrs : list Attribute) (resp : Command) (s : string) : CommandInfo :=
  mkInfo (buildAttributes attrs) resp s.

Definition commandInfo : list CommandInfo :=
  [info [] InvalidCmd "InvalidCmd";
   info [IsRead; IsRequest; NeedsResponse] ReadResp "ReadReq";
   info [IsRead; IsResponse; HasData] InvalidCmd "ReadResp";
   info [IsRead; IsResponse; HasData; IsInvalidate] InvalidCmd "ReadRespWithInvalidate";
   info [IsWrite; NeedsWritable; IsRequest; NeedsResponse; HasData] WriteResp "WriteReq";
   info [IsWrite; IsResponse] InvalidCmd "WriteResp";
   info [IsWrite; IsResponse] InvalidCmd "WriteCompleteResp";
   info [IsWrite; IsRequest; IsEviction; HasData; FromCache] InvalidCmd "WritebackDirty";
   info [IsWrite; IsRequest; IsEviction; HasData; FromCache] InvalidCmd "WritebackClean";
   info [IsWrite; IsRequest; HasData; FromCache] InvalidCmd "WriteClean";
   info [IsRequest; IsEviction; FromCache] InvalidCmd "CleanEvict";
   info [IsRead; IsRequest; IsSWPrefetch; NeedsResponse] SoftPFResp "SoftPFReq";
   info [IsRead; NeedsWritable; IsInvalidate; IsRequest; IsSWPrefetch; NeedsResponse] SoftPFResp "SoftPFExReq";
   info [IsRead; IsRequest; IsHWPrefetch; NeedsResponse; FromCache] HardPFResp "HardPFReq";
   info [IsRead; IsResponse; IsSWPrefetch; HasData] InvalidCmd "SoftPFResp";
   info [IsRead; IsResponse; IsHWPrefetch; HasData] InvalidCmd "HardPFResp";
   info [IsWrite; NeedsWritable; IsRequest; NeedsResponse; HasData] WriteResp "WriteLineReq";
   info [IsInvalidate; NeedsWritable; IsUpgrade; IsRequest; NeedsResponse; FromCache] UpgradeResp "UpgradeReq";
   info [IsInvalidate; NeedsWritable; IsUpgrade; IsLlsc; IsRequest; NeedsResponse; FromCache] UpgradeResp "SCUpgradeReq";
   info [IsUpgrade; IsResponse] InvalidCmd "UpgradeResp";
   info [IsRead; NeedsWritable; IsInvalidate; IsLlsc; IsRequest; NeedsResponse; FromCache] UpgradeFailResp "SCUpgradeFailReq";
   info [IsRead; IsResponse; HasData] InvalidCmd "UpgradeFailResp";
   info [IsRead; NeedsWritable; IsInvalidate; IsRequest; NeedsResponse; FromCache] ReadExResp "ReadExReq";
   info [IsRead; IsResponse; HasData] InvalidCmd "ReadExResp";
   info [IsRead; IsRequest; NeedsResponse; FromCache] ReadResp "ReadCleanReq";
   info [IsRead; IsRequest; NeedsResponse; FromCache] ReadResp "ReadSharedReq";
   info [IsRead; IsLlsc; IsRequest; NeedsResponse] ReadResp "LoadLockedReq";
   info [IsWrite; NeedsWritable; IsLlsc; IsRequest; NeedsResponse; HasData] StoreCondResp "StoreCondReq";
   info [IsWrite; NeedsWritable; IsLlsc; IsRequest; NeedsResponse; HasData] StoreCondResp "StoreCondFailReq";
   info [IsWrite; IsLlsc; IsResponse] InvalidCmd "StoreCondResp";
   info [IsRead; IsLockedRMW; NeedsWritable; IsRequest; NeedsResponse] LockedRMWReadResp "LockedRMWReadReq";
   info [IsRead; IsLockedRMW; NeedsWritable; IsResponse; HasData] InvalidCmd "LockedRMWReadResp";
   info [IsWrite; IsLockedRMW; NeedsWritable; IsRequest; NeedsResponse; HasData] LockedRMWWriteResp "LockedRMWWriteReq";
   info [IsWrite; IsLockedRMW; NeedsWritable; IsResponse] InvalidCmd "LockedRMWWriteResp";
   info [IsRead; IsWrite; NeedsWritable; IsRequest; HasData; NeedsResponse] SwapResp "SwapReq";
   info [IsRead; IsWrite; IsResponse; HasData] InvalidCmd "SwapResp";
   info [] InvalidCmd "Deprecated_MessageReq";
   info [] InvalidCmd "Deprecated_MessageResp";
   info [IsRequest; NeedsResponse] MemFenceResp "MemFenceReq";
   info [IsRequest; NeedsResponse] MemSyncResp "MemSyncReq";
   info [IsResponse] InvalidCmd "MemSyncResp";
   info [IsResponse] InvalidCmd "MemFenceResp";
   info [IsRequest; IsClean; NeedsResponse; FromCache] CleanSharedResp "CleanSharedReq";
   info [IsResponse; IsClean] InvalidCmd "CleanSharedResp";
   info [IsRequest; IsInvalidate; IsClean; NeedsResponse; FromCache] CleanInvalidResp "CleanInvalidReq";
   info [IsResponse; IsInvalidate; IsClean] InvalidCmd "CleanInvalidResp";
   info [IsResponse; IsError] InvalidCmd "InvalidDestError";
   info [IsResponse; IsError] InvalidCmd "BadAddressError";
   info [IsRead; IsResponse; IsError] InvalidCmd "ReadError";
   info [IsWrite; IsResponse; IsError] InvalidCmd "WriteError";
   info [IsRead; IsResponse; IsError] InvalidCmd "FunctionalReadError";
   info [IsWrite; IsResponse; IsError] InvalidCmd "FunctionalWriteError";
   info [IsRequest; IsPrint] InvalidCmd "PrintReq";
   info [IsRequest; IsFlush; NeedsWritable] InvalidCmd "FlushReq";
   info [IsInvalidate; IsRequest; NeedsWritable; NeedsResponse; FromCache] InvalidateResp "InvalidateReq";
   info [IsInvalidate; IsResponse] InvalidCmd "InvalidateResp";
   info [IsRead; IsRequest; NeedsResponse] HTMReqResp "HTMReq";
   info [IsRead; IsResponse] InvalidCmd "HTMReqResp";
   info [IsRead; IsRequest] InvalidCmd "HTMAbort";
   info [IsRequest] InvalidCmd "TlbiExtSync"].

(** [commandInfo[cmd]]. *)
Definition command_info (c : Command) : CommandInfo :=
  default (info [] InvalidCmd "") (commandInfo !! Z.to_nat (toInt c)).

Definition testCmdAttrib (c : Command) (a : Attribute) : bool := Z.testbit (attributes (command_info c)) (attr_index a).

Definition isRead (c : Command) : bool := testCmdAttrib c IsRead.
Definition isWrite (c : Command) : bool := testCmdAttrib c IsWrite.
Definition isUpgrade (c : Command) : bool := testCmdAttrib c IsUpgrade.
Definition isRequest (c : Command) : bool := testCmdAttrib c IsRequest.
Definition isResponse (c : Command) : bool := testCmdAttrib c IsResponse.
Definition needsWritable (c : Command) : bool := testCmdAttrib c NeedsWritable.
Definition needsResponse (c : Command) : bool := testCmdAttrib c NeedsResponse.
Definition isInvalidate (c : Command) : bool := testCmdAttrib c IsInvalidate.
Definition isEviction (c : Command) : bool := testCmdAttrib c IsEviction.
Definition isClean (c : Command) : bool := testCmdAttrib c IsClean.
Definition fromCache (c : Command) : bool := testCmdAttrib c FromCache.
Definition isWriteback (c : Command) : bool := testCmdAttrib c IsEviction && testCmdAttrib c HasData.
Definition hasData (c : Command) : bool := testCmdAttrib c HasData.
Definition isLLSC (c : Command) : bool := testCmdAttrib c IsLlsc.
Definition isLockedRMW (c : Command) : bool := testCmdAttrib c IsLockedRMW.
Definition isSWPrefetch (c : Command) : bool := testCmdAttrib c IsSWPrefetch.
Definition isHWPrefetch (c : Command) : bool := testCmdAttrib c IsHWPrefetch.
Definition isError (c : Command) : bool := testCmdAttrib c IsError.
Definition isPrint (c : Command) : bool := testCmdAttrib c IsPrint.
Definition isFlush (c : Command) : bool := testCmdAttrib c IsFlush.
Definition isDemand (c : Command) : bool :=
  bool_decide (c = ReadReq) || bool_decide (c = WriteReq) || bool_decide (c = WriteLineReq) ||
  bool_decide (c = ReadExReq) || bool_decide (c = ReadCleanReq) || bool_decide (c = ReadSharedReq).
Definition responseCommand (c : Command) : Command := response (command_info c).
Definition toString (c : Command) : string := str (command_info c).
(** [Packet::hasRespData]. *)
Definition hasRespData (c : Command) : bool := hasData (responseCommand c).

(** ** [Packet] *)
Definition COPY_FLAGS : Z := 0xFF.
Definition RESPONDER_FLAGS : Z := 0x9.
Definition HAS_SHARERS : Z := 0x1.
Definition EXPRESS_SNOOP : Z := 0x2.
Definition RESPONDER_HAD_WRITABLE : Z := 0x4.
Definition CACHE_RESPONDING : Z := 0x8.
Definition WRITE_THROUGH : Z := 0x10.
Definition SATISFIED : Z := 0x20.
Definition VALID_ADDR : Z := 0x100.
Definition VALID_SIZE : Z := 0x200.
Definition STATIC_DATA : Z := 0x1000.
Definition DYNAMIC_DATA : Z := 0x2000.
Definition ANY_DATA : Z := 0x3000.
Definition SUPPRESS_FUNC_ERROR : Z := 0x8000.
Definition BLOCK_CACHED : Z := 0x10000.

Record Packet := mkPkt {
  pk_flags : Z;
  pk_cmd : Command;
  pk_req : Request;
  pk_data : list Z;
  pk_addr : Z;
  pk_secure : bool;
  pk_size : Z;
  bytesValid : list bool;
  headerDelay : Z; snoopDelay : Z; payloadDelay : Z;
}.

Definition with_flags (f : Z) (p : Packet) : Packet :=
  mkPkt f (pk_cmd p) (pk_req p) (pk_data p) (pk_addr p) (pk_secure p) (pk_size p) (bytesValid p)
    (headerDelay p) (snoopDelay p) (payloadDelay p).
Definition with_cmd (c : Command) (p : Packet) : Packet :=
  mkPkt (pk_flags p) c (pk_req p) (pk_data p) (pk_addr p) (pk_secure p) (pk_size p) (bytesValid p)
    (headerDelay p) (snoopDelay p) (payloadDelay p).
Definition with_req (r : Request) (p : Packet) : Packet :=
  mkPkt (pk_flags p) (pk_cmd p) r (pk_data p) (pk_addr p) (pk_secure p) (pk_size p) (bytesValid p)
    (headerDelay p) (snoopDelay p) (payloadDelay p).
Definition with_bytes (d : list Z) (v : list bool) (p : Packet) : Packet :=
  mkPkt (pk_flags p) (pk_cmd p) (pk_req p) d (pk_addr p) (pk_secure p) (pk_size p) v
    (headerDelay p) (snoopDelay p) (payloadDelay p).

Definition set_flag (m : Z) (p : Packet) : Packet := with_flags (fl_set (pk_flags p) m) p.
Definition clear_flag (m : Z) (p : Packet) : Packet := with_flags (fl_clear (pk_flags p) m) p.
Definition has_flag (m : Z) (p : Packet) : bool := fl_isSet (pk_flags p) m.

(** [Packet(req, cmd)]. *)
Definition new_Packet (r : Request) (c : Command) : outcome Packet :=
  let addr := if hasPaddr r then rq_paddr r else 0 in
  let f := if hasPaddr r then VALID_ADDR else 0 in
  let? f := (if isHTMCmd r then
    let? _ := ocheck (addr =? 0) AssertFailed in Ok (fl_set f VALID_ADDR) else Ok f) in
  Ok (mkPkt (if hasSize r then fl_set f VALID_SIZE else f) c r [] addr (if hasPaddr r then rq_isSecure r else false)
    (if hasSize r then rq_size r else 0) [] 0 0 0).

(** [Packet(req, cmd, blkSize)]: [~(_blkSize - 1)] is an [int]. *)
Definition new_Packet_blk (r : Request) (c : Command) (blkSize : Z) : Packet :=
  let addr := if hasPaddr r then Z.land (rq_paddr r) (u64 (Z.lnot (blkSize - 1))) else 0 in
  mkPkt (fl_set (if hasPaddr r then VALID_ADDR else 0) VALID_SIZE) c r [] addr
    (if hasPaddr r then rq_isSecure r else false) (u32 blkSize) [] 0 0 0.

Definition getAddr (p : Packet) : outcome Z := let? _ := ocheck (has_flag VALID_ADDR p) AssertFailed in Ok (pk_addr p).
Definition setAddr (a : Z) (p : Packet) : outcome Packet :=
  let? _ := ocheck (has_flag VALID_ADDR p) AssertFailed in
  Ok (mkPkt (pk_flags p) (pk_cmd p) (pk_req p) (pk_data p) a (pk_secure p) (pk_size p) (bytesValid p)
    (headerDelay p) (snoopDelay p) (payloadDelay p)).
Definition pk_getSize (p : Packet) : outcome Z := let? _ := ocheck (has_flag VALID_SIZE p) AssertFailed in Ok (pk_size p).
Definition setSize (n : Z) (p : Packet) : outcome Packet :=
  let? _ := ocheck (negb (has_flag VALID_SIZE p)) AssertFailed in
  Ok (set_flag VALID_SIZE (mkPkt (pk_flags p) (pk_cmd p) (pk_req p) (pk_data p) (pk_addr p) (pk_secure p) n (bytesValid p)
    (headerDelay p) (snoopDelay p) (payloadDelay p))).
Definition isSecure (p : Packet) : outcome bool := let? _ := ocheck (has_flag VALID_ADDR p) AssertFailed in Ok (pk_secure p).
Definition getAddrRange (p : Packet) : outcome AddrRange :=
  let? a := getAddr p in let? n := pk_getSize p in Ok (RangeSize a n).
Definition pk_getOffset (blk_size : Z) (p : Packet) : outcome Z :=
  let? a := getAddr p in Ok (Z.land a (u32 (blk_size - 1))).
Definition getBlockAddr (blk_size : Z) (p : Packet) : outcome Z :=
  let? a := getAddr p in Ok (Z.land a (lnot64 (u32 (blk_size - 1)))).

Definition pk_needsWritable (p : Packet) : outcome bool :=
  let? _ := ocheck (isRequest (pk_cmd p)) AssertFailed in Ok (needsWritable (pk_cmd p)).
Definition isMaskedWrite (p : Packet) : bool := bool_decide (pk_cmd p = WriteReq) && isMasked (pk_req p).
Definition isWholeLineWrite (blk_size : Z) (p : Packet) : outcome bool :=
  if bool_decide (pk_cmd p = WriteReq) || bool_decide (pk_cmd p = WriteLineReq) then
    let? o := pk_getOffset blk_size p in
    let? n := pk_getSize p in
    Ok ((o =? 0) && (n =? blk_size) && negb (isMaskedWrite p))
  else Ok false.
Definition mustCheckAbove (p : Packet) : bool := bool_decide (pk_cmd p = HardPFReq) || isEviction (pk_cmd p).
Definition isCleanEviction (p : Packet) : bool :=
  bool_decide (pk_cmd p = CleanEvict) || bool_decide (pk_cmd p = WritebackClean).

(** ** The flags *)
Definition setCacheResponding (p : Packet) : outcome Packet :=
  let? _ := ocheck (isRequest (pk_cmd p)) AssertFailed in
  let? _ := ocheck (negb (has_flag CACHE_RESPONDING p)) AssertFailed in Ok (set_flag CACHE_RESPONDING p).
Definition cacheResponding (p : Packet) : bool := has_flag CACHE_RESPONDING p.
Definition setHasSharers (p : Packet) : Packet := set_flag HAS_SHARERS p.
Definition hasSharers (p : Packet) : bool := has_flag HAS_SHARERS p.
Definition setExpressSnoop (p : Packet) : Packet := set_flag EXPRESS_SNOOP p.
Definition isExpressSnoop (p : Packet) : bool := has_flag EXPRESS_SNOOP p.
Definition responderHadWritable (p : Packet) : bool := has_flag RESPONDER_HAD_WRITABLE p.
Definition setResponderHadWritable (p : Packet) : outcome Packet :=
  let? _ := ocheck (cacheResponding p) AssertFailed in
  let? _ := ocheck (negb (responderHadWritable p)) AssertFailed in Ok (set_flag RESPONDER_HAD_WRITABLE p).
Definition copyResponderFlags (other p : Packet) : outcome Packet :=
  let? _ := ocheck (isRequest (pk_cmd p)) AssertFailed in
  let? _ := ocheck (negb (cacheResponding other) || negb (cacheResponding p)) AssertFailed in
  Ok (set_flag (Z.land (pk_flags other) RESPONDER_FLAGS) p).
Definition setWriteThrough (p : Packet) : outcome Packet :=
  let? _ := ocheck (isWrite (pk_cmd p) && (isEviction (pk_cmd p) || bool_decide (pk_cmd p = WriteClean))) AssertFailed in
  Ok (set_flag WRITE_THROUGH p).
Definition clearWriteThrough (p : Packet) : Packet := clear_flag WRITE_THROUGH p.
Definition writeThrough (p : Packet) : bool := has_flag WRITE_THROUGH p.
Definition setSatisfied (p : Packet) : outcome Packet :=
  let? _ := ocheck (isClean (pk_cmd p)) AssertFailed in
  let? _ := ocheck (negb (has_flag SATISFIED p)) AssertFailed in Ok (set_flag SATISFIED p).
Definition satisfied (p : Packet) : bool := has_flag SATISFIED p.
Definition setSuppressFuncError (p : Packet) : Packet := set_flag SUPPRESS_FUNC_ERROR p.
Definition setBlockCached (p : Packet) : Packet := set_flag BLOCK_CACHED p.
Definition isBlockCached (p : Packet) : bool := has_flag BLOCK_CACHED p.
Definition clearBlockCached (p : Packet) : Packet := clear_flag BLOCK_CACHED p.

(** ** Commands of packets *)
Definition setBadAddress (p : Packet) : outcome Packet :=
  let? _ := ocheck (isResponse (pk_cmd p)) AssertFailed in Ok (with_cmd BadAddressError p).
Definition setBadCommand (p : Packet) : outcome Packet :=
  let? _ := ocheck (isResponse (pk_cmd p)) AssertFailed in
  Ok (with_cmd (if isWrite (pk_cmd p) then WriteError else ReadError) p).
Definition copyError (other p : Packet) : outcome Packet :=
  let? _ := ocheck (isError (pk_cmd other)) AssertFailed in Ok (with_cmd (pk_cmd other) p).
Definition convertScToWrite (p : Packet) : outcome Packet :=
  let? _ := ocheck (isLLSC (pk_cmd p)) AssertFailed in
  let? _ := ocheck (isWrite (pk_cmd p)) AssertFailed in Ok (with_cmd WriteReq p).
Definition convertLlToRead (p : Packet) : outcome Packet :=
  let? _ := ocheck (isLLSC (pk_cmd p)) AssertFailed in
  let? _ := ocheck (isRead (pk_cmd p)) AssertFailed in Ok (with_cmd ReadReq p).
Definition makeResponse (p : Packet) : outcome Packet :=
  let? _ := ocheck (needsResponse (pk_cmd p)) AssertFailed in
  let? _ := ocheck (isRequest (pk_cmd p)) AssertFailed in
  Ok (clear_flag EXPRESS_SNOOP (with_cmd (responseCommand (pk_cmd p)) p)).
Definition setFunctionalResponseStatus (success : bool) (p : Packet) : Packet :=
  if success then p else with_cmd (if isWrite (pk_cmd p) then FunctionalWriteError else FunctionalReadError) p.

Definition makeReadCmd (r : Request) : Command :=
  if isHTMCmd r then (if isHTMAbort r then HTMAbort else HTMReq)
  else if rq_isLLSC r then LoadLockedReq
  else if isPrefetchEx r then SoftPFExReq
  else if isPrefetch r then SoftPFReq
  else if rq_isLockedRMW r then LockedRMWReadReq
  else ReadReq.

Definition makeWriteCmd (r : Request) : Command :=
  if rq_isLLSC r then StoreCondReq
  else if isSwap r || isAtomic r then SwapReq
  else if isCacheInvalidate r then (if isCacheClean r then CleanInvalidReq else InvalidateReq)
  else if isCacheClean r then CleanSharedReq
  else if rq_isLockedRMW r then LockedRMWWriteReq
  else WriteReq.

Definition createRead (r : Request) : outcome Packet := new_Packet r (makeReadCmd r).
Definition createWrite (r : Request) : outcome Packet := new_Packet r (makeWriteCmd r).

Definition matchBlockAddr (a : Z) (is_secure : bool) (blk_size : Z) (p : Packet) : outcome bool :=
  let? b := getBlockAddr blk_size p in
  let? s := isSecure p in Ok ((b =? a) && eqb s is_secure).
Definition matchAddr (a : Z) (is_secure : bool) (p : Packet) : outcome bool :=
  let? b := getAddr p in
  let? s := isSecure p in Ok ((b =? a) && eqb s is_secure).

(** ** Data *)
(** [getPtr], [getConstPtr]: the buffer. *)
Definition getPtr (p : Packet) : outcome (list Z) :=
  let? _ := ocheck (has_flag ANY_DATA p) AssertFailed in
  let? _ := ocheck (negb (isMaskedWrite p)) AssertFailed in Ok (pk_data p).
Definition getConstPtr (p : Packet) : outcome (list Z) :=
  let? _ := ocheck (has_flag ANY_DATA p) AssertFailed in Ok (pk_data p).

Definition dataStatic (d : list Z) (p : Packet) : outcome Packet :=
  let? _ := ocheck (fl_noneSet (pk_flags p) ANY_DATA) AssertFailed in
  Ok (set_flag STATIC_DATA (with_bytes d (bytesValid p) p)).
Definition dataDynamic (d : list Z) (p : Packet) : outcome Packet :=
  let? _ := ocheck (fl_noneSet (pk_flags p) ANY_DATA) AssertFailed in
  Ok (set_flag DYNAMIC_DATA (with_bytes d (bytesValid p) p)).
Definition deleteData (p : Packet) : Packet := clear_flag ANY_DATA (with_bytes [] (bytesValid p) p).

Definition allocate (junk : Z) (p : Packet) : outcome Packet :=
  if hasData (pk_cmd p) || hasRespData (pk_cmd p) then
    let? _ := ocheck (fl_noneSet (pk_flags p) ANY_DATA) AssertFailed in
    let? n := pk_getSize p in
    Ok (set_flag DYNAMIC_DATA (with_bytes (replicate (Z.to_nat n) junk) (bytesValid p) p))
  else Ok p.

(** [setData] from a buffer that is not the packet's own: [src] at [off]. *)
Definition setData (src : list Z) (off : Z) (p : Packet) : outcome Packet :=
  let? d := getPtr p in
  let? n := pk_getSize p in
  let? s := read_bytes src off n in
  let? d := write_bytes d 0 s in
  Ok (with_bytes d (bytesValid p) p).
Definition setDataFromBlock (blk_data : list Z) (blkSize : Z) (p : Packet) : outcome Packet :=
  let? o := pk_getOffset (u32 blkSize) p in setData blk_data o p.

(** [writeData] to the buffer [dst] at [off]. *)
Definition writeData (dst : list Z) (off : Z) (p : Packet) : outcome (list Z) :=
  let? d := getConstPtr p in
  let? n := pk_getSize p in
  let? s := read_bytes d 0 n in
  if negb (isMaskedWrite p) then write_bytes dst off s
  else
    let? _ := ocheck (vsize (rq_byteEnable (pk_req p)) =? n) AssertFailed in
    let? old := read_bytes dst off n in
    write_bytes dst off (select_bytes old s (rq_byteEnable (pk_req p))).
Definition writeDataToBlock (blk_data : list Z) (blkSize : Z) (p : Packet) : outcome (list Z) :=
  let? o := pk_getOffset (u32 blkSize) p in writeData blk_data o p.

(** The test of a swap, on the bytes of [buf] at [off]: a conditional one
    compares them with the extra data of the request. *)
Definition swap_allowed (p : Packet) (buf : list Z) (off : Z) : outcome bool :=
  if isCondSwap (pk_req p) then
    let? n := pk_getSize p in
    if n =? 8 then
      let? c := getExtraData (pk_req p) in
      let? b := read_bytes buf off 8 in Ok (bool_decide (le_bytes 8 c = b))
    else if n =? 4 then
      let? c := getExtraData (pk_req p) in
      let? b := read_bytes buf off 4 in Ok (bool_decide (le_bytes 4 (u32 c) = b))
    else Fault Panic
  else Ok true.

(** [( *(pkt->getAtomicOp()))(buf + off)]. *)
Definition atomic_op (p : Packet) (buf : list Z) (off : Z) : outcome (list Z) :=
  let? op := getAtomicOpFunctor (pk_req p) in
  let? b := read_bytes buf off (op_size op) in
  write_bytes buf off (execute op b).

(** [Packet(pkt, clear_flags, alloc_data)]. *)
Definition copy_Packet (junk : Z) (pkt : Packet) (clear_flags alloc_data : bool) : outcome Packet :=
  let f := if clear_flags then 0 else Z.land (pk_flags pkt) COPY_FLAGS in
  let f := fl_set f (Z.land (pk_flags pkt) (Z.lor VALID_ADDR VALID_SIZE)) in
  let p := mkPkt f (pk_cmd pkt) (pk_req pkt) [] (pk_addr pkt) (pk_secure pkt) (pk_size pkt) (bytesValid pkt)
    (headerDelay pkt) 0 (payloadDelay pkt) in
  if alloc_data then
    if has_flag STATIC_DATA pkt then Ok (set_flag STATIC_DATA (with_bytes (pk_data pkt) (bytesValid p) p))
    else allocate junk p
  else Ok p.

(** [if (bytesValid.empty()) bytesValid.resize(getSize(), false)]. *)
Definition init_valid (n : Z) (v : list bool) : list bool :=
  match v with [] => replicate (Z.to_nat n) false | _ :: _ => v end.

(** [trySatisfyFunctional(obj, addr, is_secure, size, _data)], without the
    printing of a print request: the packet, the other buffer and whether the
    request is done.  [_data] is null when the other packet has no data. *)
Definition trySatisfyFunctional (addr : Z) (is_secure : bool) (size : Z) (data : option (list Z)) (p : Packet) :
    outcome (Packet * option (list Z) * bool) :=
  let? func_start := getAddr p in
  let? n := pk_getSize p in
  let func_end := u64 (u64 (func_start + n) - 1) in
  let val_start := addr in
  let val_end := u64 (u64 (val_start + size) - 1) in
  if negb (eqb is_secure (pk_secure p)) || (val_end <? func_start) || (func_end <? val_start)
  then Ok (p, data, false)
  else if isPrint (pk_cmd p) then
    let? _ := ocheck (match data with None => true | Some _ => false end) AssertFailed in Ok (p, data, false)
  else match data with
  | None => Ok (p, data, false)
  | Some d =>
      let val_offset := if val_start <? func_start then u64 (func_start - val_start) else 0 in
      let func_offset := if func_start <? val_start then u64 (val_start - func_start) else 0 in
      let overlap_size := u64 (Z.min val_end func_end + 1 - Z.max val_start func_start) in
      if isRead (pk_cmd p) then
        let? mine := getPtr p in
        let? s := read_bytes d val_offset overlap_size in
        let? mine := write_bytes mine func_offset s in
        let valid := init_valid n (bytesValid p) in
        let? _ := ocheck (func_offset + overlap_size <=? vsize valid) IndexOutOfRange in
        let before := take (Z.to_nat func_offset) valid in
        let after := drop (Z.to_nat (func_offset + overlap_size)) valid in
        let valid' := before ++ replicate (Z.to_nat overlap_size) true ++ after in
        Ok (with_bytes mine valid' p, data, forallb id before && forallb id after)
      else if isWrite (pk_cmd p) then
        let? mine := getConstPtr p in
        let? s := read_bytes mine func_offset overlap_size in
        let? d := write_bytes d val_offset s in
        Ok (p, Some d, false)
      else Fault Panic
  end.

(** ** Functional reads *)

(** The byte [i] of the packet lies in the [size] bytes at [addr]. *)
Definition overlaps (p : Packet) (addr size : Z) (i : nat) : bool :=
  (addr <=? pk_addr p + Z.of_nat i) && (pk_addr p + Z.of_nat i <? addr + size).

(** The bytes both cover: where they start in the buffer and in the packet, and
    how many they are. *)
Definition val_off (p : Packet) (addr : Z) : Z := Z.max 0 (pk_addr p - addr).
Definition func_off (p : Packet) (addr : Z) : Z := Z.max 0 (addr - pk_addr p).
Definition common (p : Packet) (addr size : Z) : Z :=
  Z.min (addr + size) (pk_addr p + pk_size p) - Z.max addr (pk_addr p).

Definition old_valid (p : Packet) : list bool := init_valid (pk_size p) (bytesValid p).

Lemma functional_read_run p addr size d : isRead (pk_cmd p) = true -> isPrint (pk_cmd p) = false ->
  has_flag VALID_ADDR p = true -> has_flag VALID_SIZE p = true -> has_flag ANY_DATA p = true -> isMaskedWrite p = false ->
  0 <= pk_addr p -> 1 <= pk_size p -> pk_addr p + pk_size p < 2 ^ 64 -> vsize (pk_data p) = pk_size p ->
  vsize (old_valid p) = pk_size p -> 0 <= addr -> 1 <= size -> addr + size < 2 ^ 64 -> vsize d = size ->
  addr < pk_addr p + pk_size p -> pk_addr p < addr + size ->
  let n := Z.to_nat (common p addr size) in
  let fo := Z.to_nat (func_off p addr) in
  let before := take fo (old_valid p) in
  let after := drop (fo + n) (old_valid p) in
  trySatisfyFunctional addr (pk_secure p) size (Some d) p =
    Ok (with_bytes (splice (pk_data p) fo (take n (drop (Z.to_nat (val_off p addr)) d)))
      (before ++ replicate n true ++ after) p, Some d, forallb id before && forallb id after).
Proof.
  intros Hrd Hpr Hva Hvs Hdt Hms Ha Hn Hend Hlen Hval Ha' Hn' Hend' Hd O1 O2 n fo before after.
  unfold trySatisfyFunctional, getAddr, pk_getSize, getPtr. rewrite Hva, Hvs, Hdt, Hms, Hrd, Hpr.
  cbn [ocheck obind negb]. fold (old_valid p). rewrite eqb_reflx. cbn [negb orb].
  rewrite (uwrap_small 64 (addr + size)), (uwrap_small 64 (pk_addr p + pk_size p)) by lia.
  rewrite (uwrap_small 64 (addr + size - 1)), (uwrap_small 64 (pk_addr p + pk_size p - 1)) by lia.
  replace (addr + size - 1 <? pk_addr p) with false by lia. replace (pk_addr p + pk_size p - 1 <? addr) with false by lia.
  cbn [orb].
  replace (if addr <? pk_addr p then u64 (pk_addr p - addr) else 0) with (val_off p addr)
    by (unfold val_off; destruct (Z.ltb_spec addr (pk_addr p)); rewrite ?uwrap_small; lia).
  replace (if pk_addr p <? addr then u64 (addr - pk_addr p) else 0) with (func_off p addr)
    by (unfold func_off; destruct (Z.ltb_spec (pk_addr p) addr); rewrite ?uwrap_small; lia).
  replace (u64 (Z.min (addr + size - 1) (pk_addr p + pk_size p - 1) + 1 - Z.max addr (pk_addr p))) with (common p addr size)
    by (unfold common; rewrite uwrap_small; lia).
  assert (0 <= val_off p addr /\ 0 <= common p addr size /\ val_off p addr + common p addr size <= size /\
    0 <= func_off p addr /\ func_off p addr + common p addr size <= pk_size p) as (V1 & V2 & V3 & V4 & V5)
    by (unfold val_off, common, func_off; lia).
  rewrite read_bytes_Ok by lia. cbn [obind].
  rewrite write_bytes_Ok; [|lia|unfold vsize in *; rewrite length_take, length_drop; lia]. cbn [obind].
  rewrite Hval. replace (func_off p addr + common p addr size <=? pk_size p) with true by lia. cbn [ocheck obind].
  rewrite Z2Nat.inj_add by lia. done.
Qed.

Lemma app_valid_lookup (l : list bool) fo n i : (fo + n <= length l)%nat -> (i < length l)%nat ->
  (take fo l ++ replicate n true ++ drop (fo + n) l) !! i =
    if decide (fo <= i < fo + n)%nat then Some true else l !! i.
Proof.
  intros H Hi. destruct (decide _).
  - rewrite lookup_app_r by (rewrite length_take; lia). rewrite length_take, Nat.min_l by lia.
    rewrite lookup_app_l by (rewrite length_replicate; lia). apply lookup_replicate_2. lia.
  - destruct (decide (i < fo)%nat).
    + rewrite lookup_app_l by (rewrite length_take; lia). by apply lookup_take_lt.
    + rewrite lookup_app_r by (rewrite length_take; lia). rewrite length_take, Nat.min_l by lia.
      rewrite lookup_app_r by (rewrite length_replicate; lia). rewrite length_replicate, lookup_drop. f_equal. lia.
Qed.

Lemma forallb_True_iff (l : list bool) : forallb id l = true <-> Forall (fun b => b = true) l.
Proof. induction l as [|b l IH]; cbn; [by split|]. rewrite andb_true_iff, IH, Forall_cons. done. Qed.

(** A functional read that meets a buffer of the same security
    state takes over exactly the bytes both cover, marks them valid, and is done
    when all of its bytes are. *)
Lemma functional_read_gathers p addr size d : isRead (pk_cmd p) = true -> isPrint (pk_cmd p) = false ->
  has_flag VALID_ADDR p = true -> has_flag VALID_SIZE p = true -> has_flag ANY_DATA p = true -> isMaskedWrite p = false ->
  0 <= pk_addr p -> 1 <= pk_size p -> pk_addr p + pk_size p < 2 ^ 64 -> vsize (pk_data p) = pk_size p ->
  (bytesValid p = [] \/ vsize (bytesValid p) = pk_size p) ->
  0 <= addr -> 1 <= size -> addr + size < 2 ^ 64 -> vsize d = size ->
  addr < pk_addr p + pk_size p -> pk_addr p < addr + size ->
  exists p' ok, trySatisfyFunctional addr (pk_secure p) size (Some d) p = Ok (p', Some d, ok) /\
    vsize (pk_data p') = pk_size p /\ vsize (bytesValid p') = pk_size p /\
    (forall i, pk_data p' !! i = if overlaps p addr size i && (Z.of_nat i <? pk_size p)
       then d !! Z.to_nat (pk_addr p + Z.of_nat i - addr) else pk_data p !! i) /\
    (forall i, Z.of_nat i < pk_size p -> bytesValid p' !! i = Some (overlaps p addr size i || default false (bytesValid p !! i))) /\
    (ok = true <-> Forall (fun b => b = true) (bytesValid p')).
Proof.
  intros Hrd Hpr Hva Hvs Hdt Hms Ha Hn Hend Hlen Hval Ha' Hn' Hend' Hd O1 O2.
  assert (vsize (old_valid p) = pk_size p) as Hov.
  { unfold old_valid, init_valid, vsize in *. destruct (bytesValid p); [rewrite length_replicate; lia|]. by destruct Hval. }
  rewrite functional_read_run by done. eexists _, _. split; [done|].
  assert (0 <= val_off p addr /\ 0 <= common p addr size /\ val_off p addr + common p addr size <= size /\
    0 <= func_off p addr /\ func_off p addr + common p addr size <= pk_size p) as (V1 & V2 & V3 & V4 & V5)
    by (unfold val_off, common, func_off; lia).
  set (n := Z.to_nat (common p addr size)). set (fo := Z.to_nat (func_off p addr)).
  assert (length (take n (drop (Z.to_nat (val_off p addr)) d)) = n) as Ln
    by (unfold vsize in *; rewrite length_take, length_drop; lia).
  assert (forall i, Z.of_nat i < pk_size p -> overlaps p addr size i = bool_decide (fo <= i < fo + n)%nat) as Hov'.
  { intros i Hi. unfold overlaps. apply eq_true_iff_eq. rewrite bool_decide_eq_true, andb_true_iff, Z.leb_le, Z.ltb_lt.
    unfold fo, n, func_off, common in *. lia. }
  cbn [pk_data bytesValid with_bytes]. split_and!.
  - unfold vsize in *. rewrite splice_length; lia.
  - unfold vsize in *. rewrite !length_app, length_take, length_replicate, length_drop. lia.
  - intros i. rewrite splice_lookup by (unfold vsize in *; lia). rewrite Ln. destruct (Z.ltb_spec (Z.of_nat i) (pk_size p)) as [Hi|Hi].
    + rewrite Hov', andb_true_r by done. destruct (decide _) as [Hi'|Hi'].
      * rewrite bool_decide_eq_true_2 by done. rewrite lookup_take_lt, lookup_drop by lia. f_equal.
        unfold fo, n, func_off, val_off in *. lia.
      * by rewrite bool_decide_eq_false_2.
    + rewrite andb_false_r, decide_False by (unfold fo, n; lia). done.
  - intros i Hi. rewrite Hov' by done. rewrite app_valid_lookup; [|unfold vsize in *; lia..].
    destruct (decide _) as [Hd'|Hd']; [by rewrite bool_decide_eq_true_2|]. rewrite bool_decide_eq_false_2 by done. cbn [orb].
    unfold old_valid, init_valid. destruct (bytesValid p) eqn:Eb; [rewrite lookup_replicate_2 by lia; done|].
    destruct Hval as [?|Hv]; [done|]. destruct (lookup_lt_is_Some_2 (b :: l) i) as [x Ex]; [unfold vsize in *; lia|]. by rewrite Ex.
  - rewrite andb_true_iff, !forallb_True_iff, !Forall_app.
    assert (Forall (fun b => b = true) (replicate n true)) by by apply Forall_replicate. naive_solver.
Qed.
