(* ===== verification/Clocked.v ===== *)
(** Clocked objects: [sim/clocked_object.hh].  The tick and cycle a clocked
    object keeps are brought up to date when they are read. *)
From Stdlib Require Import ZArith Lia Bool.
From stdpp Require Import base numbers.
From S2P Require Import Prelude Intmath.
Local Open Scope Z_scope.

Record Clocked := mkClocked {
  tick : Z;            (* Tick, the next clock edge at the last update *)
  cycle : Z;           (* Cycles *)
  clockPeriod : Z;     (* of the clock domain *)
}.

Definition new_Clocked (period : Z) : Clocked := mkClocked 0 0 period.

Definition update (curTick : Z) (c : Clocked) : outcome Clocked :=
  if curTick <=? tick c then Ok c else
  let c := mkClocked (u64 (tick c + clockPeriod c)) (u64 (cycle c + 1)) (clockPeriod c) in
  if curTick <=? tick c then Ok c else
  let? elapsedCycles := divCeil (u64 (curTick - tick c)) (clockPeriod c) in
  Ok (mkClocked (u64 (tick c + u64 (elapsedCycles * clockPeriod c))) (u64 (cycle c + elapsedCycles)) (clockPeriod c)).

Definition resetClock (curTick : Z) (c : Clocked) : outcome Clocked :=
  let? elapsedCycles := divCeil curTick (clockPeriod c) in
  Ok (mkClocked (u64 (elapsedCycles * clockPeriod c)) elapsedCycles (clockPeriod c)).

Definition clockEdge (curTick cycles : Z) (c : Clocked) : outcome (Z * Clocked) :=
  let? c := update curTick c in Ok (u64 (tick c + u64 (clockPeriod c * cycles)), c).
Definition curCycle (curTick : Z) (c : Clocked) : outcome (Z * Clocked) :=
  let? c := update curTick c in Ok (cycle c, c).
Definition nextCycle (curTick : Z) (c : Clocked) : outcome (Z * Clocked) := clockEdge curTick 1 c.
Definition ticksToCycles (t : Z) (c : Clocked) : outcome Z := divCeil t (clockPeriod c).
Definition cyclesToTicks (n : Z) (c : Clocked) : Z := u64 (clockPeriod c * n).

(** The tick is the edge the cycle counter says. *)
Definition in_step (c : Clocked) : Prop :=
  0 < clockPeriod c /\ 0 <= cycle c /\ tick c = cycle c * clockPeriod c /\ tick c < 2 ^ 64.

Lemma divCeil_spec a b : 0 < a -> 0 < b -> a + b <= 2 ^ 64 -> exists n, divCeil a b = Ok n /\ (n - 1) * b < a <= n * b.
Proof.
  intros Ha Hb Hs. unfold divCeil. exists ((a + b - 1) / b).
  pose proof (Z.div_mod (a + b - 1) b ltac:(lia)) as D. pose proof (Z.mod_pos_bound (a + b - 1) b Hb) as B.
  split; [|nia]. unfold udiv. replace (b =? 0) with false by lia. f_equal. f_equal.
  destruct (Z.eq_dec (a + b) (2 ^ 64)) as [E|].
  - rewrite E. by vm_compute.
  - rewrite (uwrap_small 64 (a + b)), uwrap_small by lia. done.
Qed.

(** [clockEdge] of a clock in step is the first edge not before
    the current tick, moved on by the cycles asked for, and the cycle counter
    stays the number of that edge. *)
Lemma clock_edges curTick n c : in_step c -> 0 <= curTick -> 0 <= n ->
  Z.max (curTick + 2 * clockPeriod c) (tick c) + clockPeriod c * n < 2 ^ 64 ->
  exists c', clockEdge curTick n c = Ok (tick c' + clockPeriod c * n, c') /\ in_step c' /\
    clockPeriod c' = clockPeriod c /\ curTick <= tick c' /\
    (tick c' = tick c \/ tick c' - clockPeriod c < curTick).
Proof.
  intros (Hp & Hc & Ht & Hb) H0 Hn Hmax. unfold clockEdge, update.
  destruct (Z.leb_spec curTick (tick c)) as [H1|H1].
  { exists c. cbn [obind]. rewrite (uwrap_small 64 (_ * n)), uwrap_small by nia. split; [done|]. split; [by repeat split|].
    split; [done|]. split; [done|by left]. }
  cbn [tick cycle clockPeriod]. rewrite (uwrap_small 64 (tick c + clockPeriod c)) by nia.
  assert (cycle c + 1 < 2 ^ 64) as Hc1 by nia. rewrite (uwrap_small 64 (cycle c + 1)) by nia.
  destruct (Z.leb_spec curTick (tick c + clockPeriod c)) as [H2|H2].
  { exists (mkClocked (tick c + clockPeriod c) (cycle c + 1) (clockPeriod c)). cbn [obind tick clockPeriod]. rewrite (uwrap_small 64 (_ * n)), uwrap_small by nia. split; [done|].
    split; [repeat split; cbn; nia|]. cbn. split; [done|]. split; [done|right; lia]. }
  rewrite (uwrap_small 64 (curTick - _)) by nia.
  destruct (divCeil_spec (curTick - (tick c + clockPeriod c)) (clockPeriod c)) as (k & -> & Hk1 & Hk2); [lia|lia|nia|].
  cbn [obind tick cycle clockPeriod].
  assert (0 <= k * clockPeriod c < 2 ^ 64) as Hk3 by nia. assert (0 < k) as Hk4 by nia.
  rewrite (uwrap_small 64 (k * clockPeriod c)) by done.
  rewrite (uwrap_small 64 (tick c + clockPeriod c + k * clockPeriod c)) by nia.
  rewrite (uwrap_small 64 (cycle c + 1 + k)) by nia.
  rewrite (uwrap_small 64 (_ * n)), uwrap_small by nia.
  exists (mkClocked (tick c + clockPeriod c + k * clockPeriod c) (cycle c + 1 + k) (clockPeriod c)). split; [done|].
  split; [repeat split; cbn; nia|]. cbn. split; [done|]. split; [nia|right; nia].
Qed.
