(* ===== verification/AbstractMem.v ===== *)
(** The memory at the end of the hierarchy: [AbstractMemory] of
    [mem/abstract_mem.hh], [mem/abstract_mem.cc], as the atomic port of
    [SimpleMemory] reaches it.

    [pmem] is the backing store, null for memories that only have timing;
    [cleared] lists the contexts whose local monitors were cleared
    ([globalClearExclusive]).  Back doors and image loading are left out. *)
From Stdlib Require Import ZArith Lia Bool.
From stdpp Require Import base numbers list.
From S2P Require Import Prelude Bitfield AddrRange Bytes MemRequest MemPacket.
Local Open Scope Z_scope.

Record LockedAddr := mkLocked { la_addr : Z; la_contextId : Z }.
Definition la_mask (paddr : Z) : Z := Z.land paddr (lnot64 0xf).
Definition matchesContext (l : LockedAddr) (r : Request) : outcome bool :=
  let? _ := ocheck (negb (la_contextId l =? -1)) AssertFailed in
  let? _ := ocheck (hasContextId r) AssertFailed in
  let? c := contextId r in Ok (la_contextId l =? c).

Record MemStats := mkMemStats {
  numReads : list Z; bytesRead : list Z; bytesInstRead : list Z;
  numWrites : list Z; bytesWritten : list Z; numOther : list Z;
}.

Record AbstractMemory := mkMem {
  range : AddrRange;
  pmem : option (list Z);
  writeable : bool;
  collectStats : bool;
  lockedAddrList : list LockedAddr;
  cleared : list Z;
  mstats : MemStats;
}.

Definition with_pmem (d : option (list Z)) (m : AbstractMemory) : AbstractMemory :=
  mkMem (range m) d (writeable m) (collectStats m) (lockedAddrList m) (cleared m) (mstats m).
Definition with_locks (l : list LockedAddr) (c : list Z) (m : AbstractMemory) : AbstractMemory :=
  mkMem (range m) (pmem m) (writeable m) (collectStats m) l c (mstats m).
Definition with_mstats (s : MemStats) (m : AbstractMemory) : AbstractMemory :=
  mkMem (range m) (pmem m) (writeable m) (collectStats m) (lockedAddrList m) (cleared m) s.

Section Access.
Context (gnu : bool).

(** [toHostAddr]: an offset into the backing store. *)
Definition toHostAddr (m : AbstractMemory) (addr : Z) : Z := u64 (addr - _start (range m)).

(** The list, with the record of the context updated in place when it has one. *)
Fixpoint relock (r : Request) (paddr : Z) (l : list LockedAddr) : outcome (option (list LockedAddr)) :=
  match l with
  | [] => Ok None
  | x :: l' =>
      let? b := matchesContext x r in
      if b : bool then Ok (Some (mkLocked paddr (la_contextId x) :: l')) else
      let? o := relock r paddr l' in Ok (match o with Some l'' => Some (x :: l'') | None => None end)
  end.

Definition trackLoadLocked (p : Packet) (m : AbstractMemory) : outcome AbstractMemory :=
  let? a := getPaddr (pk_req p) in
  let paddr := la_mask a in
  let? o := relock (pk_req p) paddr (lockedAddrList m) in
  match o with
  | Some l => Ok (with_locks l (cleared m) m)
  | None =>
      let? c := contextId (pk_req p) in
      Ok (with_locks (mkLocked paddr c :: lockedAddrList m) (cleared m) m)
  end.

(** Whether the context has a lock on the address. *)
Fixpoint find_lock (r : Request) (paddr : Z) (l : list LockedAddr) : outcome bool :=
  match l with
  | [] => Ok false
  | x :: l' =>
      if la_addr x =? paddr then
        let? b := matchesContext x r in if b : bool then Ok true else find_lock r paddr l'
      else find_lock r paddr l'
  end.

(** All locks on the address go; the monitors of other contexts are cleared. *)
Fixpoint erase_locks (r : Request) (paddr : Z) (l : list LockedAddr) : outcome (list LockedAddr * list Z) :=
  match l with
  | [] => Ok ([], [])
  | x :: l' =>
      if la_addr x =? paddr then
        let? _ := ocheck (negb (la_contextId x =? -1)) AssertFailed in
        let requestor_cid := if hasContextId r then rq_contextId r else -1 in
        let? t := erase_locks r paddr l' in
        Ok (t.1, if negb (la_contextId x =? requestor_cid) then la_contextId x :: t.2 else t.2)
      else let? t := erase_locks r paddr l' in Ok (x :: t.1, t.2)
  end.

Definition checkLockedAddrList (p : Packet) (m : AbstractMemory) : outcome (bool * Packet * AbstractMemory) :=
  let? a := getPaddr (pk_req p) in
  let paddr := la_mask a in
  let? allowStore := (if isLLSC (pk_cmd p) then find_lock (pk_req p) paddr (lockedAddrList m) else Ok true) in
  let p := if isLLSC (pk_cmd p) then with_req (setExtraData (if allowStore : bool then 1 else 0) (pk_req p)) p else p in
  if allowStore : bool then
    let? t := erase_locks (pk_req p) paddr (lockedAddrList m) in
    Ok (true, p, with_locks t.1 (cleared m ++ t.2) m)
  else Ok (false, p, m).

Definition writeOK (p : Packet) (m : AbstractMemory) : outcome (bool * Packet * AbstractMemory) :=
  if negb (writeable m) then Ok (false, p, m)
  else match lockedAddrList m with
  | [] =>
      let llsc := isLLSC (pk_cmd p) in
      Ok (negb llsc, if llsc then with_req (setExtraData 0 (pk_req p)) p else p, m)
  | _ => checkLockedAddrList p m
  end.

(** [stats.v[id] += n]. *)
Definition bump (v : list Z) (id n : Z) : outcome (list Z) := let? x := vget v id in vset v id (x + n).

Definition count_read (p : Packet) (m : AbstractMemory) : outcome AbstractMemory :=
  if collectStats m then
    let id := rq_requestorId (pk_req p) in
    let s := mstats m in
    let? n := pk_getSize p in
    let? r := bump (numReads s) id 1 in
    let? b := bump (bytesRead s) id n in
    let? i := (if isInstFetch (pk_req p) then bump (bytesInstRead s) id n else Ok (bytesInstRead s)) in
    Ok (with_mstats (mkMemStats r b i (numWrites s) (bytesWritten s) (numOther s)) m)
  else Ok m.
Definition count_write (p : Packet) (m : AbstractMemory) : outcome AbstractMemory :=
  if collectStats m then
    let id := rq_requestorId (pk_req p) in
    let s := mstats m in
    let? n := pk_getSize p in
    let? w := bump (numWrites s) id 1 in
    let? b := bump (bytesWritten s) id n in
    Ok (with_mstats (mkMemStats (numReads s) (bytesRead s) (bytesInstRead s) w b (numOther s)) m)
  else Ok m.
Definition count_other (p : Packet) (m : AbstractMemory) : outcome AbstractMemory :=
  if collectStats m then
    let s := mstats m in
    let? o := bump (numOther s) (rq_requestorId (pk_req p)) 1 in
    Ok (with_mstats (mkMemStats (numReads s) (bytesRead s) (bytesInstRead s) (numWrites s) (bytesWritten s) o) m)
  else Ok m.

(** The branches of [access]. *)
Definition access_swap (p : Packet) (host : Z) (m : AbstractMemory) : outcome (Packet * AbstractMemory) :=
  if isAtomic (pk_req p) then
    match pmem m with
    | Some d =>
        let? p := setData d host p in
        let? d := atomic_op p d host in Ok (p, with_pmem (Some d) m)
    | None => Ok (p, m)
    end
  else
    let? n := pk_getSize p in
    let? d := oget Panic (pmem m) in
    let? overwrite_val := writeData (replicate (Z.to_nat n) 0) 0 p in
    let? p := setData d host p in
    let? overwrite_mem := swap_allowed p d host in
    let? d := (if overwrite_mem : bool then write_bytes d host overwrite_val else Ok d) in
    let? _ := ocheck (negb (isInstFetch (pk_req p))) AssertFailed in
    let? m := count_other p (with_pmem (Some d) m) in Ok (p, m).

Definition access_read (p : Packet) (host : Z) (m : AbstractMemory) : outcome (Packet * AbstractMemory) :=
  let? _ := ocheck (negb (isWrite (pk_cmd p))) AssertFailed in
  let? m := (if isLLSC (pk_cmd p) then
    let? _ := ocheck (negb (fromCache (pk_cmd p))) AssertFailed in trackLoadLocked p m else Ok m) in
  let? p := match pmem m with Some d => setData d host p | None => Ok p end in
  let? m := count_read p m in Ok (p, m).

Definition access_write (p : Packet) (host : Z) (m : AbstractMemory) : outcome (Packet * AbstractMemory) :=
  let? t := writeOK p m in
  let p := t.1.2 in
  let m := t.2 in
  if t.1.1 : bool then
    let? m := match pmem m with
      | Some d => let? d := writeData d host p in Ok (with_pmem (Some d) m)
      | None => Ok m
      end in
    let? _ := ocheck (negb (isInstFetch (pk_req p))) AssertFailed in
    let? m := count_write p m in Ok (p, m)
  else Ok (p, m).

Definition access (p : Packet) (m : AbstractMemory) : outcome (Packet * AbstractMemory) :=
  if cacheResponding p then Ok (p, m)
  else if bool_decide (pk_cmd p = CleanEvict) || bool_decide (pk_cmd p = WritebackClean) then Ok (p, m)
  else
    let? r := getAddrRange p in
    let? b := isSubset gnu r (range m) in
    let? _ := ocheck b AssertFailed in
    let? a := getAddr p in
    let host := toHostAddr m a in
    let? t :=
      (if bool_decide (pk_cmd p = SwapReq) then access_swap p host m
       else if isRead (pk_cmd p) then access_read p host m
       else if isInvalidate (pk_cmd p) || isClean (pk_cmd p) then
         let? _ := ocheck (negb (isWrite (pk_cmd p))) AssertFailed in Ok (p, m)
       else if isWrite (pk_cmd p) then access_write p host m
       else Fault Panic) in
    if needsResponse (pk_cmd t.1) then let? p := makeResponse t.1 in Ok (p, t.2) else Ok t.

(** [functionalAccess], but for print requests. *)
Definition functionalAccess (p : Packet) (m : AbstractMemory) : outcome (Packet * AbstractMemory) :=
  let? r := getAddrRange p in
  let? b := isSubset gnu r (range m) in
  let? _ := ocheck b AssertFailed in
  let? a := getAddr p in
  let host := toHostAddr m a in
  if isRead (pk_cmd p) then
    let? p := match pmem m with Some d => setData d host p | None => Ok p end in
    let? p := makeResponse p in Ok (p, m)
  else if isWrite (pk_cmd p) then
    let? m := match pmem m with
      | Some d => let? d := writeData d host p in Ok (with_pmem (Some d) m)
      | None => Ok m
      end in
    let? p := makeResponse p in Ok (p, m)
  else Fault Panic.

(** [SimpleMemory::recvAtomic], without the latency. *)
Definition mem_recvAtomic (p : Packet) (m : AbstractMemory) : outcome (Packet * AbstractMemory) :=
  let? _ := ocheck (negb (cacheResponding p)) Panic in access p m.
End Access.
