(* ===== verification/Serve.v ===== *)
(** What a plain request does to the bytes it covers, and that the memory
    ([AbstractMemory::access]) does it: the specification that the memory and
    the blocks of the caches share. *)
From Stdlib Require Import ZArith Lia Bool.
From stdpp Require Import base numbers list.
From S2P Require Import Prelude Bitfield AddrRange Bytes MemRequest MemPacket AbstractMem.
Local Open Scope Z_scope.

(** ** Windows of a buffer *)
Definition window (d : list Z) (off n : Z) : list Z := take (Z.to_nat n) (drop (Z.to_nat off) d).

Lemma window_length d off n : 0 <= off -> 0 <= n -> off + n <= vsize d -> vsize (window d off n) = n.
Proof. intros. unfold window, vsize in *. rewrite length_take, length_drop. lia. Qed.

Lemma read_window d off n : 0 <= off -> 0 <= n -> off + n <= vsize d -> read_bytes d off n = Ok (window d off n).
Proof. apply read_bytes_Ok. Qed.

Lemma window_lookup d off n i : 0 <= off -> (i < Z.to_nat n)%nat -> window d off n !! i = d !! (Z.to_nat off + i)%nat.
Proof. intros H Hi. unfold window. rewrite lookup_take_lt by done. by rewrite lookup_drop. Qed.

Lemma window_ext d1 o1 d2 o2 n : 0 <= o1 -> 0 <= o2 ->
  (forall i, (i < Z.to_nat n)%nat -> d1 !! (Z.to_nat o1 + i)%nat = d2 !! (Z.to_nat o2 + i)%nat) ->
  window d1 o1 n = window d2 o2 n.
Proof.
  intros H1 H2 H. apply list_eq. intros i. destruct (decide (i < Z.to_nat n)%nat).
  - rewrite !window_lookup by done. by apply H.
  - unfold window. by rewrite !lookup_take_ge by lia.
Qed.

Lemma splice_window d off n : 0 <= off -> 0 <= n -> off + n <= vsize d ->
  splice d (Z.to_nat off) (window d off n) = d.
Proof.
  intros H0 Hn Hs. pose proof (window_length d off n H0 Hn Hs) as L. unfold vsize in L, Hs.
  apply list_eq. intros i. rewrite splice_lookup by lia. destruct (decide _) as [Hi|Hi]; [|done].
  rewrite window_lookup by lia. f_equal. lia.
Qed.

Lemma window_window d x k y n : 0 <= x -> 0 <= y -> 0 <= n -> y + n <= k -> window (window d x k) y n = window d (x + y) n.
Proof.
  intros. apply window_ext; [lia|lia|]. intros i Hi. rewrite window_lookup by lia. f_equal. lia.
Qed.

Lemma window_splice_in d x k y v : 0 <= x -> 0 <= y -> y + vsize v <= k -> x + k <= vsize d ->
  window (splice d (Z.to_nat (x + y)) v) x k = splice (window d x k) (Z.to_nat y) v.
Proof.
  intros H1 H2 H3 H4. assert (vsize (window d x k) = k) as L by (apply window_length; unfold vsize in *; lia).
  unfold vsize in *. apply list_eq. intros i. rewrite splice_lookup by lia. destruct (decide (i < Z.to_nat k)%nat) as [Hi|Hi].
  - rewrite !window_lookup by lia. rewrite splice_lookup by lia. repeat destruct (decide _); try lia; f_equal; lia.
  - unfold window. rewrite lookup_take_ge by lia. destruct (decide _); [lia|]. by rewrite lookup_take_ge by lia.
Qed.

Lemma window_splice_out d x k z v : 0 <= x -> 0 <= z -> z + vsize v <= vsize d -> x + k <= z \/ z + vsize v <= x ->
  window (splice d (Z.to_nat z) v) x k = window d x k.
Proof.
  intros H1 H2 H3 H4. unfold vsize in *. apply window_ext; [done|done|]. intros i Hi. rewrite splice_lookup by lia. destruct (decide _); [lia|done].
Qed.

Lemma window_splice_all d x v : 0 <= x -> x + vsize v <= vsize d -> window (splice d (Z.to_nat x) v) x (vsize v) = v.
Proof.
  intros H1 H2. rewrite <- (Z.add_0_r x) at 1. rewrite window_splice_in by lia. change (Z.to_nat 0) with 0%nat. apply splice_all.
  pose proof (window_length d x (vsize v) H1 ltac:(unfold vsize; lia) H2). unfold vsize in *. lia.
Qed.

(** ** Requests *)

(** Reads, writes and swaps that ask for a response; not the requests of the
    coherence protocol that move no data, and no load-locked or store conditional. *)
Definition plain_cmd (c : Command) : bool :=
  isRequest c && needsResponse c && negb (isLLSC c) && negb (isEviction c) && negb (isUpgrade c) && negb (isClean c) &&
  (bool_decide (c = SwapReq) || (isRead c && negb (isWrite c) && hasRespData c) ||
   (isWrite c && negb (isRead c) && negb (isInvalidate c))).

Definition with_payload (w : list Z) (p : Packet) : Packet := with_bytes w (bytesValid p) p.

(** A swap has an operation for the size of the packet, or is of at most eight
    bytes, four or eight when it is conditional. *)
Definition swap_ok (p : Packet) : Prop :=
  if isAtomic (pk_req p) then exists op, rq_atomicOp (pk_req p) = Some op /\ op_size op = pk_size p /\
    forall b, vsize b = pk_size p -> vsize (execute op b) = pk_size p
  else pk_size p <= 8 /\
    (isCondSwap (pk_req p) = true -> (pk_size p = 8 \/ pk_size p = 4) /\ extraDataValid (pk_req p) = true).

Record plain_packet (p : Packet) : Prop := {
  pp_cmd : plain_cmd (pk_cmd p) = true;
  pp_flags : has_flag VALID_ADDR p = true /\ has_flag VALID_SIZE p = true /\ has_flag ANY_DATA p = true /\
    cacheResponding p = false;
  pp_size : 0 < pk_size p < 2 ^ 31;
  pp_addr : 0 <= pk_addr p;
  pp_data : vsize (pk_data p) = pk_size p;
  pp_mask : isMaskedWrite p = true -> vsize (rq_byteEnable (pk_req p)) = pk_size p;
  pp_swap : pk_cmd p = SwapReq -> swap_ok p;
  pp_fetch : isWrite (pk_cmd p) = true -> isInstFetch (pk_req p) = false;
}.

(** Whether a swap overwrites the bytes [w]. *)
Definition swap_writes (p : Packet) (w : list Z) : bool :=
  if isCondSwap (pk_req p) then
    if pk_size p =? 8 then bool_decide (le_bytes 8 (rq_extraData (pk_req p)) = w)
    else bool_decide (le_bytes 4 (u32 (rq_extraData (pk_req p))) = w)
  else true.

(** The packet and the bytes afterwards. *)
Definition serve (p : Packet) (w : list Z) : Packet * list Z :=
  if bool_decide (pk_cmd p = SwapReq) then
    if isAtomic (pk_req p) then
      (with_payload w p, match rq_atomicOp (pk_req p) with Some op => execute op w | None => w end)
    else (with_payload w p, if swap_writes p w then pk_data p else w)
  else if isWrite (pk_cmd p) then
    (p, if isMaskedWrite p then select_bytes w (pk_data p) (rq_byteEnable (pk_req p)) else pk_data p)
  else (with_payload w p, w).

(** The packet that goes back. *)
Definition respond (p : Packet) : Packet := clear_flag EXPRESS_SNOOP (with_cmd (responseCommand (pk_cmd p)) p).

Lemma makeResponse_Ok p : plain_cmd (pk_cmd p) = true -> makeResponse p = Ok (respond p).
Proof. unfold makeResponse, respond. destruct (pk_cmd p); try done. Qed.

Lemma plain_responds c : plain_cmd c = true -> needsResponse c = true /\ isRequest c = true.
Proof. by destruct c. Qed.

Lemma plain_LLSC c : plain_cmd c = true -> isLLSC c = false.
Proof. by destruct c. Qed.

Lemma serve_cmd p w : pk_cmd (serve p w).1 = pk_cmd p.
Proof. unfold serve. by repeat case_match. Qed.

Lemma serve_length p w : plain_packet p -> vsize w = pk_size p -> vsize (serve p w).2 = pk_size p.
Proof.
  intros Hp Hw. pose proof (pp_data _ Hp). unfold serve. case_bool_decide as E.
  - pose proof (pp_swap _ Hp E) as Hs. unfold swap_ok in Hs. destruct (isAtomic _); cbn [snd].
    + destruct Hs as (op & -> & _ & He). by apply He.
    + by destruct (swap_writes p w).
  - destruct (isWrite _); cbn [snd]; [|done]. destruct (isMaskedWrite p) eqn:Em; [|done].
    pose proof (pp_mask _ Hp Em). unfold vsize in *. rewrite select_bytes_length; lia.
Qed.

(** ** Operations on a buffer *)
Lemma setData_Ok p d off : plain_packet p -> isMaskedWrite p = false -> 0 <= off -> off + pk_size p <= vsize d ->
  setData d off p = Ok (with_payload (window d off (pk_size p)) p).
Proof.
  intros Hp Hm H0 Hs. destruct (pp_flags _ Hp) as (F1 & F2 & F3 & F4). pose proof (pp_size _ Hp). pose proof (pp_data _ Hp) as Hd.
  unfold setData, getPtr, pk_getSize. rewrite F3, Hm, F2. cbn [obind ocheck negb]. rewrite read_window by lia. cbn [obind].
  pose proof (window_length d off (pk_size p) H0 ltac:(lia) Hs) as L.
  rewrite write_bytes_Ok by lia. cbn [obind]. unfold vsize in *. change (Z.to_nat 0) with 0%nat. rewrite splice_all by lia. done.
Qed.

Lemma writeData_Ok p d off : plain_packet p -> 0 <= off -> off + pk_size p <= vsize d ->
  let w := window d off (pk_size p) in
  writeData d off p = Ok (splice d (Z.to_nat off)
    (if isMaskedWrite p then select_bytes w (pk_data p) (rq_byteEnable (pk_req p)) else pk_data p)).
Proof.
  intros Hp H0 Hs w. destruct (pp_flags _ Hp) as (F1 & F2 & F3 & F4). pose proof (pp_size _ Hp). pose proof (pp_data _ Hp) as Hd.
  unfold writeData, getConstPtr, pk_getSize. rewrite F3, F2. cbn [obind ocheck]. rewrite <- Hd, read_bytes_all. cbn [obind].
  rewrite Hd. destruct (isMaskedWrite p) eqn:Em; cbn [negb].
  2:{ by rewrite write_bytes_Ok by lia. }
  pose proof (pp_mask _ Hp Em) as Hb. rewrite Hb, Z.eqb_refl. cbn [ocheck obind]. rewrite read_window by lia. cbn [obind]. fold w.
  pose proof (window_length d off (pk_size p) H0 ltac:(lia) Hs) as L. fold w in L.
  rewrite write_bytes_Ok; [done|done|]. unfold vsize in *. rewrite select_bytes_length; lia.
Qed.

Lemma swap_allowed_Ok p d off : plain_packet p -> pk_cmd p = SwapReq -> isAtomic (pk_req p) = false -> 0 <= off ->
  off + pk_size p <= vsize d -> forall w', swap_allowed (with_payload w' p) d off = Ok (swap_writes p (window d off (pk_size p))).
Proof.
  intros Hp Hc Ha H0 Hs w'. destruct (pp_flags _ Hp) as (F1 & F2 & _). pose proof (pp_swap _ Hp Hc) as Hw. unfold swap_ok in Hw.
  rewrite Ha in Hw. destruct Hw as [_ Hw]. unfold swap_allowed, swap_writes. cbn [pk_req with_payload with_bytes].
  destruct (isCondSwap (pk_req p)); [|done]. destruct (Hw eq_refl) as [Hn Hx]. unfold pk_getSize, getExtraData.
  change (has_flag VALID_SIZE (with_payload w' p)) with (has_flag VALID_SIZE p). rewrite F2, Hx. cbn [ocheck obind pk_size with_payload with_bytes].
  destruct Hn as [E|E]; rewrite E; cbn [Z.eqb Pos.eqb]; rewrite read_window by lia; done.
Qed.

Lemma atomic_op_Ok p d off op : rq_atomicOp (pk_req p) = Some op -> op_size op = pk_size p ->
  (forall b, vsize b = pk_size p -> vsize (execute op b) = pk_size p) -> 0 <= pk_size p -> 0 <= off -> off + pk_size p <= vsize d ->
  atomic_op p d off = Ok (splice d (Z.to_nat off) (execute op (window d off (pk_size p)))).
Proof.
  intros Ho Hz He Hn H0 Hs. unfold atomic_op, getAtomicOpFunctor. rewrite Ho. cbn [oget obind]. rewrite Hz, read_window by lia. cbn [obind].
  rewrite write_bytes_Ok; [done|done|]. rewrite He by (by apply window_length). lia.
Qed.

(** ** The memory *)
Definition stats_room (n : Z) (s : MemStats) : Prop :=
  n <= vsize (numReads s) /\ n <= vsize (bytesRead s) /\ n <= vsize (bytesInstRead s) /\ n <= vsize (numWrites s) /\
  n <= vsize (bytesWritten s) /\ n <= vsize (numOther s).

(** A memory of the bytes [d] at [lo], for requestors below [n]; nobody holds a lock. *)
Record mem_holds (n lo : Z) (d : list Z) (m : AbstractMemory) : Prop := {
  mh_range : range m = plain_range lo (lo + vsize d);
  mh_bounds : 0 <= lo /\ 0 < vsize d /\ lo + vsize d < 2 ^ 64;
  mh_pmem : pmem m = Some d;
  mh_writeable : writeable m = true;
  mh_locks : lockedAddrList m = [];
  mh_stats : stats_room n (mstats m);
}.

Lemma bump_Ok v id x : 0 <= id < vsize v -> exists v', bump v id x = Ok v' /\ vsize v' = vsize v.
Proof.
  intros H. unfold bump. destruct (vget_total _ _ H) as [y ->]. cbn [obind]. rewrite vset_Ok by done.
  eexists. split; [done|]. by rewrite vsize_insert.
Qed.

(** The counters count. *)
Definition counted (n : Z) (m m' : AbstractMemory) : Prop :=
  exists s, m' = with_mstats s m /\ stats_room n s.

Lemma counted_holds n lo d m m' : mem_holds n lo d m -> counted n m m' -> mem_holds n lo d m'.
Proof. intros [] (s & -> & Hs). by constructor. Qed.

Lemma with_mstats_id m : with_mstats (mstats m) m = m.
Proof. by destruct m. Qed.

Ltac bump_with H := let v := fresh in let E := fresh in let L := fresh in
  destruct H as (v & E & L); rewrite E; cbn [obind]; clear E.

Lemma count_read_Ok n p m : stats_room n (mstats m) -> 0 <= rq_requestorId (pk_req p) < n -> has_flag VALID_SIZE p = true ->
  exists m', count_read p m = Ok m' /\ counted n m m'.
Proof.
  intros Hs Hid Hz. unfold count_read. destruct (collectStats m).
  2:{ exists m. split; [done|]. exists (mstats m). by rewrite with_mstats_id. }
  unfold pk_getSize. rewrite Hz. cbn [ocheck obind]. destruct Hs as (S1 & S2 & S3 & S4 & S5 & S6).
  bump_with (bump_Ok (numReads (mstats m)) (rq_requestorId (pk_req p)) 1 ltac:(lia)).
  bump_with (bump_Ok (bytesRead (mstats m)) (rq_requestorId (pk_req p)) (pk_size p) ltac:(lia)).
  destruct (isInstFetch _).
  - bump_with (bump_Ok (bytesInstRead (mstats m)) (rq_requestorId (pk_req p)) (pk_size p) ltac:(lia)).
    eexists. split; [done|]. eexists. split; [done|]. unfold stats_room. cbn. split_and!; lia.
  - cbn [obind]. eexists. split; [done|]. eexists. split; [done|]. unfold stats_room. cbn. split_and!; lia.
Qed.

Lemma count_write_Ok n p m : stats_room n (mstats m) -> 0 <= rq_requestorId (pk_req p) < n -> has_flag VALID_SIZE p = true ->
  exists m', count_write p m = Ok m' /\ counted n m m'.
Proof.
  intros Hs Hid Hz. unfold count_write. destruct (collectStats m).
  2:{ exists m. split; [done|]. exists (mstats m). by rewrite with_mstats_id. }
  unfold pk_getSize. rewrite Hz. cbn [ocheck obind]. destruct Hs as (S1 & S2 & S3 & S4 & S5 & S6).
  bump_with (bump_Ok (numWrites (mstats m)) (rq_requestorId (pk_req p)) 1 ltac:(lia)).
  bump_with (bump_Ok (bytesWritten (mstats m)) (rq_requestorId (pk_req p)) (pk_size p) ltac:(lia)).
  eexists. split; [done|]. eexists. split; [done|]. unfold stats_room. cbn. split_and!; lia.
Qed.

Lemma count_other_Ok n p m : stats_room n (mstats m) -> 0 <= rq_requestorId (pk_req p) < n ->
  exists m', count_other p m = Ok m' /\ counted n m m'.
Proof.
  intros Hs Hid. unfold count_other. destruct (collectStats m).
  2:{ exists m. split; [done|]. exists (mstats m). by rewrite with_mstats_id. }
  destruct Hs as (S1 & S2 & S3 & S4 & S5 & S6).
  bump_with (bump_Ok (numOther (mstats m)) (rq_requestorId (pk_req p)) 1 ltac:(lia)).
  eexists. split; [done|]. eexists. split; [done|]. unfold stats_room. cbn. split_and!; lia.
Qed.

Lemma with_pmem_holds n lo d d' m : mem_holds n lo d m -> vsize d' = vsize d -> mem_holds n lo d' (with_pmem (Some d') m).
Proof. intros [] E. constructor; cbn; rewrite ?E; done. Qed.

Lemma subset_Ok gnu n lo d m a k : mem_holds n lo d m -> lo <= a -> 0 < k -> a + k <= lo + vsize d ->
  isSubset gnu (RangeSize a k) (range m) = Ok true.
Proof.
  intros Hm Ha Hk He. rewrite (mh_range _ _ _ _ Hm). destruct (mh_bounds _ _ _ _ Hm) as (B1 & B2 & B3).
  unfold isSubset, RangeSize, plain_range. change (interleaved (mkRange a (u64 (a + k)) [] 0)) with false.
  change (interleaved (mkRange lo (lo + vsize d) [] 0)) with false. cbn [_start _end].
  rewrite (uwrap_small 64) by lia. replace (a + k <=? a) with false by lia.
  replace (lo + vsize d <=? lo) with false by lia. by replace ((lo <=? a) && (a + k <=? lo + vsize d)) with true by lia.
Qed.

Section Memory.
Context (gnu : bool) (n lo : Z).

Lemma access_swap_Ok d m p off : mem_holds n lo d m -> plain_packet p -> pk_cmd p = SwapReq ->
  0 <= rq_requestorId (pk_req p) < n -> 0 <= off -> off + pk_size p <= vsize d ->
  let r := serve p (window d off (pk_size p)) in
  exists m', access_swap p off m = Ok (r.1, m') /\ mem_holds n lo (splice d (Z.to_nat off) r.2) m'.
Proof.
  intros Hm Hp Hc Hid H0 Hs. pose proof (pp_swap _ Hp Hc) as Hw. pose proof (pp_size _ Hp) as Hz. pose proof (pp_data _ Hp) as Hd.
  destruct (pp_flags _ Hp) as (F1 & F2 & F3 & F4). assert (isMaskedWrite p = false) as Em by (unfold isMaskedWrite; by rewrite Hc).
  unfold access_swap, serve. rewrite Hc, (mh_pmem _ _ _ _ Hm). cbn [bool_decide decide]. rewrite bool_decide_eq_true_2 by done.
  unfold swap_ok in Hw. destruct (isAtomic (pk_req p)) eqn:Ea.
  - destruct Hw as (op & Ho & Hos & He). rewrite setData_Ok by done. cbn [obind].
    rewrite (atomic_op_Ok _ d off op) by (try done; cbn; lia). cbn [obind fst snd pk_size with_payload with_bytes]. rewrite Ho.
    eexists. split; [done|]. apply (with_pmem_holds n lo d); [done|]. unfold vsize.
    pose proof (He _ (window_length d off (pk_size p) H0 ltac:(lia) Hs)) as L. unfold vsize in *. rewrite splice_length; lia.
  - unfold pk_getSize at 1. rewrite F2. cbn [ocheck obind oget].
    rewrite (writeData_Ok p _ 0 Hp ltac:(done)).
    2:{ unfold vsize. rewrite length_replicate. lia. }
    cbn [obind]. rewrite Em, setData_Ok by done. cbn [obind]. rewrite (swap_allowed_Ok p d off) by done. cbn [obind].
    change (Z.to_nat 0) with 0%nat. rewrite splice_all by (rewrite length_replicate; unfold vsize in Hd; lia).
    set (w := window d off (pk_size p)). pose proof (window_length d off (pk_size p) H0 ltac:(lia) Hs) as L. fold w in L.
    assert ((if swap_writes p w then write_bytes d off (pk_data p) else Ok d) =
      Ok (splice d (Z.to_nat off) (if swap_writes p w then pk_data p else w))) as ->.
    { destruct (swap_writes p w); [rewrite write_bytes_Ok by lia; done|]. unfold w. by rewrite splice_window by lia. }
    set (d' := splice _ _ _). cbn [obind].
    change (isInstFetch (pk_req (with_payload w p))) with (isInstFetch (pk_req p)). rewrite (pp_fetch _ Hp) by (by rewrite Hc). cbn [negb ocheck obind].
    assert (vsize d' = vsize d) as Ed' by (unfold vsize, d' in *; rewrite splice_length; [done|]; destruct (swap_writes p w); lia).
    pose proof (with_pmem_holds n lo d d' m Hm Ed') as Hm'.
    destruct (count_other_Ok n (with_payload w p) (with_pmem (Some d') m) (mh_stats _ _ _ _ Hm') Hid) as (m' & -> & Hc'). cbn [obind fst snd].
    eexists. split; [done|]. by eapply counted_holds.
Qed.

Lemma access_read_Ok d m p off : mem_holds n lo d m -> plain_packet p -> isRead (pk_cmd p) = true -> isWrite (pk_cmd p) = false ->
  0 <= rq_requestorId (pk_req p) < n -> 0 <= off -> off + pk_size p <= vsize d ->
  exists m', access_read p off m = Ok (with_payload (window d off (pk_size p)) p, m') /\ mem_holds n lo d m'.
Proof.
  intros Hm Hp Hr Hw Hid H0 Hs. destruct (pp_flags _ Hp) as (F1 & F2 & F3 & F4). pose proof (pp_cmd _ Hp) as Hc.
  assert (isMaskedWrite p = false) as Em by (unfold isMaskedWrite; by destruct (pk_cmd p)).
  assert (isLLSC (pk_cmd p) = false) as El by (by destruct (pk_cmd p)).
  unfold access_read. rewrite Hw, El. cbn [negb ocheck obind]. rewrite (mh_pmem _ _ _ _ Hm), setData_Ok by done. cbn [obind].
  destruct (count_read_Ok n (with_payload (window d off (pk_size p)) p) m (mh_stats _ _ _ _ Hm) Hid F2) as (m' & -> & Hc'). cbn [obind].
  eexists. split; [done|]. by eapply counted_holds.
Qed.

Lemma access_write_Ok d m p off d' : mem_holds n lo d m -> isLLSC (pk_cmd p) = false -> isInstFetch (pk_req p) = false ->
  has_flag VALID_SIZE p = true -> 0 <= rq_requestorId (pk_req p) < n -> writeData d off p = Ok d' -> vsize d' = vsize d ->
  exists m', access_write p off m = Ok (p, m') /\ mem_holds n lo d' m'.
Proof.
  intros Hm El Hf F2 Hid Hd Hv. unfold access_write, writeOK. rewrite (mh_writeable _ _ _ _ Hm), (mh_locks _ _ _ _ Hm), El. cbn [negb obind fst snd].
  rewrite (mh_pmem _ _ _ _ Hm), Hd. cbn [obind]. rewrite Hf. cbn [negb ocheck obind]. pose proof (with_pmem_holds n lo d d' m Hm Hv) as Hm'.
  destruct (count_write_Ok n p _ (mh_stats _ _ _ _ Hm') Hid F2) as (m' & -> & Hc'). cbn [obind].
  eexists. split; [done|]. by eapply counted_holds.
Qed.

(** The memory serves a plain request from the bytes at its address. *)
Lemma access_serves d m p : mem_holds n lo d m -> plain_packet p -> 0 <= rq_requestorId (pk_req p) < n ->
  lo <= pk_addr p -> pk_addr p + pk_size p <= lo + vsize d ->
  let r := serve p (window d (pk_addr p - lo) (pk_size p)) in
  exists m', access gnu p m = Ok (respond r.1, m') /\ mem_holds n lo (splice d (Z.to_nat (pk_addr p - lo)) r.2) m'.
Proof.
  intros Hm Hp Hid Hlo Hhi r. destruct (pp_flags _ Hp) as (F1 & F2 & F3 & F4). pose proof (pp_cmd _ Hp) as Hc. pose proof (pp_size _ Hp) as Hz.
  destruct (mh_bounds _ _ _ _ Hm) as (B1 & B2 & B3).
  assert (exists m', (if bool_decide (pk_cmd p = SwapReq) then access_swap p (pk_addr p - lo) m
       else if isRead (pk_cmd p) then access_read p (pk_addr p - lo) m
       else if isInvalidate (pk_cmd p) || isClean (pk_cmd p) then
         let? _ := ocheck (negb (isWrite (pk_cmd p))) AssertFailed in Ok (p, m)
       else if isWrite (pk_cmd p) then access_write p (pk_addr p - lo) m
       else Fault Panic) = Ok (r.1, m') /\ mem_holds n lo (splice d (Z.to_nat (pk_addr p - lo)) r.2) m') as (m' & E & Hm').
  { subst r. case_bool_decide as Es; [by apply access_swap_Ok; try done; lia|].
    assert (vsize (window d (pk_addr p - lo) (pk_size p)) = pk_size p) as L by (apply window_length; lia).
    pose proof (serve_length p _ Hp L) as L'. unfold serve in *. rewrite bool_decide_eq_false_2 in * by done.
    destruct (isWrite (pk_cmd p)) eqn:Ew; cbn [fst snd] in *.
    - replace (isRead (pk_cmd p)) with false by (by destruct (pk_cmd p)).
      replace (isInvalidate (pk_cmd p) || isClean (pk_cmd p)) with false by (by destruct (pk_cmd p)).
      eapply (access_write_Ok d); try done; [by apply plain_LLSC|by apply (pp_fetch _ Hp)|apply writeData_Ok; try done; lia|].
      unfold vsize in *. rewrite splice_length; [done|]. lia.
    - replace (isRead (pk_cmd p)) with true by (by destruct (pk_cmd p)). rewrite splice_window by lia.
      apply access_read_Ok; try done; [by destruct (pk_cmd p)|lia|lia]. }
  exists m'. split; [|done]. unfold access. rewrite F4.
  assert (bool_decide (pk_cmd p = CleanEvict) || bool_decide (pk_cmd p = WritebackClean) = false) as -> by (by destruct (pk_cmd p)).
  unfold getAddrRange, pk_getSize, getAddr. rewrite F1, F2. cbn [ocheck obind].
  rewrite (subset_Ok gnu n lo d m) by (done || lia). cbn [ocheck obind]. unfold toHostAddr. rewrite (mh_range _ _ _ _ Hm). cbn [_start plain_range].
  rewrite uwrap_small by lia. rewrite E. cbn [obind fst snd].
  assert (pk_cmd r.1 = pk_cmd p) as Ec by apply serve_cmd. rewrite Ec, (proj1 (plain_responds _ Hc)).
  by rewrite makeResponse_Ok by (by rewrite Ec).
Qed.
End Memory.
