(* ===== verification/ClassicCache.v ===== *)
(** Fills and evictions of a classic cache: the parts of [BaseCache]
    ([mem/cache/base.cc]) and [Cache], [NoncoherentCache] ([cache.cc],
    [noncoherent_cache.cc]) that bring blocks into the tag store and take them
    out, without a compressor.

    Here the MSHR queue is consulted only for whether a block about to be
    replaced has an outstanding request: [mshr] is [mshrQueue.findMatch], seen
    through [needsWritable] and [isCleaning].  [pid_of] is the partition
    manager's [readPacketPartitionID]; [junk] is what new buffers hold. *)
From Stdlib Require Import ZArith Lia Bool.
From stdpp Require Import base numbers gmap list.
From S2P Require Import Prelude ReplBase Bitfield Indexing CacheBlk Partition Tags Bytes MemRequest MemPacket Clocked.
Local Open Scope Z_scope.

Abbreviation Packet := MemPacket.Packet.

Record MSHRView := mkMSHRView { mshr_needsWritable : bool; isCleaning : bool }.

Record CacheConfig := mkConfig {
  isReadOnly : bool; writebackClean : bool; mostly_exclusive : bool;
  coherent : bool;       (* Cache, or NoncoherentCache *)
  c_sequentialAccess : bool;
  c_lookupLatency : Z; dataLatency : Z; fillLatency : Z;
}.

(** A [CacheBlk] pointer: the temporary block, or a block of the tag store. *)
Inductive blk_ptr := TempBlk | TagBlk (e : loc).

#[global] Instance blk_ptr_eq_dec : EqDecision blk_ptr.
Proof. solve_decision. Defined.

(** Hits and misses are counted by command and requestor. *)
Record CacheStats := mkCacheStats {
  replacements : Z; writebackCount : Z; prefetchUnused : Z;
  hits : gmap (Z * Z) Z; misses : gmap (Z * Z) Z;
  missCount : Z;         (* misses until the simulation stops; 0 for none *)
}.

Record cc_sys (P D I : Type) := mkCC {
  cfg : CacheConfig;
  tsys : tag_sys P D I;
  tempBlock : TempCacheBlk;
  tempData : list Z;
  dataBlks : gmap Z (list Z);      (* the bytes of each block, by offset *)
  cstats : CacheStats;
  clk : Clocked;
  writeBuffer : list Packet;       (* the targets of its entries *)
  tempBlockWriteback : option Packet;
  eventScheduled : bool;           (* writebackTempBlockAtomicEvent *)
  writebacks : list Packet;        (* the PacketList passed around *)
}.
Arguments mkCC {P D I}. Arguments cfg {P D I}. Arguments tsys {P D I}. Arguments tempBlock {P D I}.
Arguments tempData {P D I}. Arguments dataBlks {P D I}. Arguments cstats {P D I}. Arguments clk {P D I}.
Arguments writeBuffer {P D I}. Arguments tempBlockWriteback {P D I}. Arguments eventScheduled {P D I}.
Arguments writebacks {P D I}.

Section Operations.
Context {P D I : Type} {RP : ReplacementPolicy P D} {IP : IndexingPolicy I}.
#[local] Abbreviation S := (cc_sys P D I).

Definition with_tsys (t : tag_sys P D I) (s : S) : S :=
  mkCC (cfg s) t (tempBlock s) (tempData s) (dataBlks s) (cstats s) (clk s) (writeBuffer s)
    (tempBlockWriteback s) (eventScheduled s) (writebacks s).
Definition with_temp (t : TempCacheBlk) (d : list Z) (s : S) : S :=
  mkCC (cfg s) (tsys s) t d (dataBlks s) (cstats s) (clk s) (writeBuffer s)
    (tempBlockWriteback s) (eventScheduled s) (writebacks s).
Definition with_data (d : gmap Z (list Z)) (s : S) : S :=
  mkCC (cfg s) (tsys s) (tempBlock s) (tempData s) d (cstats s) (clk s) (writeBuffer s)
    (tempBlockWriteback s) (eventScheduled s) (writebacks s).
Definition with_cstats (c : CacheStats) (s : S) : S :=
  mkCC (cfg s) (tsys s) (tempBlock s) (tempData s) (dataBlks s) c (clk s) (writeBuffer s)
    (tempBlockWriteback s) (eventScheduled s) (writebacks s).
Definition with_clk (c : Clocked) (s : S) : S :=
  mkCC (cfg s) (tsys s) (tempBlock s) (tempData s) (dataBlks s) (cstats s) c (writeBuffer s)
    (tempBlockWriteback s) (eventScheduled s) (writebacks s).
Definition with_queues (wb : list Packet) (tw : option Packet) (ev : bool) (l : list Packet) (s : S) : S :=
  mkCC (cfg s) (tsys s) (tempBlock s) (tempData s) (dataBlks s) (cstats s) (clk s) wb tw ev l.
Definition count (r w p : Z) (s : S) : S :=
  let c := cstats s in
  with_cstats (mkCacheStats (replacements c + r) (writebackCount c + w) (prefetchUnused c + p)
    (hits c) (misses c) (missCount c)) s.
Definition push_writeback (p : Packet) (s : S) : S :=
  with_queues (writeBuffer s) (tempBlockWriteback s) (eventScheduled s) (writebacks s ++ [p]) s.

Definition onT {A} (m : M (tag_sys P D I) A) : M S A :=
  fun s => match m (tsys s) with
    | Ok (a, t) => Ok (a, with_tsys t s)
    | Fault f => Fault f
    end.

(** The size of a block, of the cache and of its tags. *)
Definition blk_size (s : S) : Z := blkSize (tags (tsys s)).
Definition now (s : S) : Z := curTick (wld (tsys s)).

(** [clockEdge(cycles)]. *)
Definition cc_clockEdge (cycles : Z) : M S Z :=
  let* s := getS in
  let* r := lift (clockEdge (now s) cycles (clk s)) in
  do* putS (with_clk r.2 s) ;; ret r.1.

(** [*blk] and calls on it. *)
Definition get_blk (p : blk_ptr) : M S CacheBlk :=
  match p with
  | TempBlk => gets (fun s => temp_blk (tempBlock s))
  | TagBlk e => onT (read_blk e)
  end.
Definition call_blk (p : blk_ptr) (f : CacheBlk -> outcome CacheBlk) : M S unit :=
  match p with
  | TempBlk =>
      let* s := getS in
      let* b := lift (f (temp_blk (tempBlock s))) in
      putS (with_temp (mkTempCacheBlk b (_addr (tempBlock s)) (temp_set (tempBlock s))) (tempData s) s)
  | TagBlk e => onT (modify_blk e f)
  end.

(** The bytes at [blk->data]. *)
Definition blk_bytes (p : blk_ptr) : M S (list Z) :=
  match p with
  | TempBlk => gets tempData
  | TagBlk e =>
      let* b := get_blk p in
      let* off := lift (oget NullDeref (blk_data b)) in
      let* s := getS in lift (oget IndexOutOfRange (dataBlks s !! off))
  end.
Definition put_bytes (p : blk_ptr) (d : list Z) : M S unit :=
  match p with
  | TempBlk => let* s := getS in putS (with_temp (tempBlock s) d s)
  | TagBlk e =>
      let* b := get_blk p in
      let* off := lift (oget NullDeref (blk_data b)) in
      let* s := getS in putS (with_data (<[off := d]> (dataBlks s)) s)
  end.

Definition regenerateBlkAddr (p : blk_ptr) : M S Z :=
  match p with
  | TagBlk e => onT (Tags.regenerateBlkAddr e)
  | TempBlk => gets (fun s => _addr (tempBlock s))
  end.

(** The probes only observe. *)
Definition updateBlockData (p : blk_ptr) (cpkt : option Packet) : M S unit :=
  do* regenerateBlkAddr p ;;
  match cpkt with
  | Some k =>
      let* s := getS in
      let* d := blk_bytes p in
      let* d := lift (writeDataToBlock d (blk_size s) k) in
      put_bytes p d
  | None => ret tt
  end.

Definition invalidateBlock (p : blk_ptr) : M S unit :=
  let* b := get_blk p in
  do* (if _prefetched b then modifyS (count 0 0 1) else ret tt) ;;
  do* updateBlockData p None ;;
  match p with
  | TagBlk e => onT (invalidateBlk e)
  | TempBlk =>
      let* s := getS in
      let* t := lift (temp_invalidate (tempBlock s)) in
      putS (with_temp t (tempData s) s)
  end.

(** The request of a packet that sends a block down. *)
Definition blk_request (curTick addr size id : Z) (b : CacheBlk) : outcome MemRequest.Request :=
  let r := new_Request curTick addr size 0 id in
  let? r := (if _secure b then setFlags SECURE r else Ok r) in
  Ok (set_taskId (_taskId b) r).

Context (junk : Z).

(** The packet of [writebackBlk] and [writecleanBlk], when it gets its data. *)
Definition load_packet (k : Packet) (d : list Z) (size : Z) : outcome Packet :=
  let? k := allocate junk k in setDataFromBlock d size k.

(** The block gives up its writable and its dirty bit. *)
Definition downgrade (p : blk_ptr) (b : CacheBlk) : M S unit :=
  do* (if isSet WritableBit b then call_blk p (fun b => Ok (clearCoherenceBits WritableBit b)) else ret tt) ;;
  call_blk p (fun b => Ok (clearCoherenceBits DirtyBit b)).

Definition writebackBlk (p : blk_ptr) : M S Packet :=
  let* s := getS in
  do* checkM (negb (isReadOnly (cfg s)) || writebackClean (cfg s)) AssertFailed ;;
  let* b := get_blk p in
  do* checkM (isValid b && (isSet DirtyBit b || writebackClean (cfg s))) AssertFailed ;;
  do* modifyS (count 0 1 0) ;;
  let* addr := regenerateBlkAddr p in
  let* r := lift (blk_request (now s) addr (blk_size s) wbRequestorId b) in
  let* k := lift (new_Packet r (if isSet DirtyBit b then WritebackDirty else WritebackClean)) in
  let k := if isSet WritableBit b then k else setHasSharers k in
  do* downgrade p b ;;
  let* d := blk_bytes p in
  lift (load_packet k d (blk_size s)).

(** [dest] is the destination the flags of a request name; the request is the
    one the packet points to. *)
Definition writecleanBlk (p : blk_ptr) (dest : Z) : M S Packet :=
  let* s := getS in
  let* b := get_blk p in
  let* addr := regenerateBlkAddr p in
  let* r := lift (blk_request (now s) addr (blk_size s) wbRequestorId b) in
  let k := new_Packet_blk r WriteClean (blk_size s) in
  let* k := lift (if negb (dest =? 0) then
    let? r := setFlags dest r in setWriteThrough (with_req r k) else Ok k) in
  let k := if isSet WritableBit b then k else setHasSharers k in
  do* downgrade p b ;;
  let* d := blk_bytes p in
  lift (load_packet k d (blk_size s)).

Definition cleanEvictBlk (p : blk_ptr) : M S Packet :=
  let* s := getS in
  do* checkM (negb (writebackClean (cfg s))) AssertFailed ;;
  let* b := get_blk p in
  do* checkM (isValid b && negb (isSet DirtyBit b)) AssertFailed ;;
  let* addr := regenerateBlkAddr p in
  let* r := lift (blk_request (now s) addr (blk_size s) wbRequestorId b) in
  lift (let? k := new_Packet r CleanEvict in allocate junk k).

(** [Cache::evictBlock] and [NoncoherentCache::evictBlock]. *)
Definition evict_pkt (p : blk_ptr) : M S (option Packet) :=
  let* s := getS in
  let* b := get_blk p in
  let* pkt :=
    (if isSet DirtyBit b || writebackClean (cfg s) then let* k := writebackBlk p in ret (Some k)
     else if coherent (cfg s) then let* k := cleanEvictBlk p in ret (Some k) else ret None) in
  do* invalidateBlock p ;;
  ret pkt.

Definition evictBlock (p : blk_ptr) : M S unit :=
  let* pkt := evict_pkt p in
  match pkt with Some k => modifyS (push_writeback k) | None => ret tt end.

Context (mshr : Z -> bool -> option MSHRView) (pid_of : Packet -> Z).

(** The first loop of [handleEvictions]: whether a valid block is replaced, or
    one that cannot be. *)
Definition check_evictions (blks : list blk_ptr) : M S (option bool) :=
  foreach blks (fun acc p =>
    let* b := get_blk p in
    if isValid b then
      let* addr := regenerateBlkAddr p in
      match mshr addr (_secure b) with
      | Some m =>
          do* checkM ((negb (isSet WritableBit b) && mshr_needsWritable m) || isCleaning m) AssertFailed ;;
          ret (Break None)
      | None => ret (Continue (Some true))
      end
    else ret (Continue acc)) (Some false).

Definition handleEvictions (blks : list blk_ptr) : M S bool :=
  let* r := check_evictions blks in
  match r with
  | None => ret false
  | Some replacement =>
      do* (if replacement : bool then
        do* modifyS (count 1 0 0) ;;
        foreach blks (fun _ p =>
          let* b := get_blk p in
          do* (if isValid b then evictBlock p else ret tt) ;;
          ret (Continue tt)) tt
      else ret tt) ;;
      ret true
  end.

(** What the tags see of a packet. *)
Definition tag_packet (pkt : Packet) : outcome Tags.Packet :=
  let? a := getAddr pkt in
  let? sec := isSecure pkt in
  Ok (mkPacket a sec (rq_requestorId (pk_req pkt)) (rq_taskId (pk_req pkt)) (pid_of pkt)).

(** The body of [allocateBlock], on what the tags see. *)
Definition allocate_for (pkt : Tags.Packet) : M S (option loc) :=
  let* s := getS in
  let pid := match partitionManager (tags (tsys s)) with Some _ => pkt_partition pkt | None => 0 end in
  let* r := onT (findVictim (mkKey (pkt_addr pkt) (pkt_secure pkt)) pid) in
  match r.1 with
  | None => ret None
  | Some victim =>
      let* ptrs := lift (oget NullDeref (mapM id r.2)) in
      let* ok := handleEvictions (TagBlk <$> ptrs) in
      if ok : bool then
        do* onT (insertBlock pkt victim) ;;
        ret (Some victim)
      else ret None
  end.

Definition allocateBlock (pkt : Packet) : M S (option loc) :=
  let* k := lift (tag_packet pkt) in allocate_for k.

Definition maintainClusivity (from_cache : bool) (p : option blk_ptr) : M S unit :=
  let* s := getS in
  match p with
  | Some p =>
      let* b := get_blk p in
      if from_cache && isValid b && negb (isSet DirtyBit b) && mostly_exclusive (cfg s)
      then invalidateBlock p else ret tt
  | None => ret tt
  end.

(** [writeBuffer.findMatch]. *)
Fixpoint find_match (size addr : Z) (sec : bool) (l : list Packet) : outcome (option Packet) :=
  match l with
  | [] => Ok None
  | k :: l' =>
      if isUncacheable (pk_req k) then find_match size addr sec l' else
      let? b := matchBlockAddr addr sec size k in
      if b : bool then Ok (Some k) else find_match size addr sec l'
  end.

Definition handleFill (pkt : Packet) (blk : option blk_ptr) (alloc : bool) : M S blk_ptr :=
  do* checkM (isResponse (pk_cmd pkt)) AssertFailed ;;
  let* addr := lift (getAddr pkt) in
  let* is_secure := lift (isSecure pkt) in
  let* s := getS in
  let* ba := lift (getBlockAddr (blk_size s) pkt) in
  do* checkM (addr =? ba) AssertFailed ;;
  let* m := lift (find_match (blk_size s) addr is_secure (writeBuffer s)) in
  do* checkM (match m with None => true | Some _ => false end) AssertFailed ;;
  let* p := match blk with
    | Some p => ret p
    | None =>
        do* checkM (hasData (pk_cmd pkt) || bool_decide (pk_cmd pkt = InvalidateResp)) AssertFailed ;;
        let* r := (if alloc then allocateBlock pkt else ret None) in
        match r with
        | Some e => ret (TagBlk e)
        | None =>
            let* s := getS in
            let* t := lift (temp_insert (geom (tsys s)) (mkKey addr is_secure) (tempBlock s)) in
            do* putS (with_temp t (tempData s) s) ;;
            ret TempBlk
        end
    end in
  let* b := get_blk p in
  do* checkM (isValid b) AssertFailed ;;
  do* checkM (eqb (_secure b) is_secure) AssertFailed ;;
  let* a := regenerateBlkAddr p in
  do* checkM (a =? addr) AssertFailed ;;
  do* call_blk p (setCoherenceBits ReadableBit) ;;
  do* checkM (negb (bool_decide (pk_cmd pkt = InvalidateResp)) || negb (hasSharers pkt)) AssertFailed ;;
  do* (if negb (hasSharers pkt) then
    do* call_blk p (setCoherenceBits WritableBit) ;;
    if cacheResponding pkt then
      do* call_blk p (setCoherenceBits DirtyBit) ;;
      checkM (negb (isReadOnly (cfg s))) AssertFailed
    else ret tt
  else ret tt) ;;
  do* (if isRead (pk_cmd pkt) then
    do* checkM (hasData (pk_cmd pkt)) AssertFailed ;;
    let* n := lift (pk_getSize pkt) in
    do* checkM (n =? blk_size s) AssertFailed ;;
    updateBlockData p (Some pkt)
  else ret tt) ;;
  let* edge := cc_clockEdge (fillLatency (cfg s)) in
  do* call_blk p (setWhenReady (u64 (u64 (edge + headerDelay pkt) + payloadDelay pkt))) ;;
  ret p.

End Operations.
