(* ===== verification/ClassicOps.v ===== *)
(** Evictions and allocations of a classic cache, on the map of its contents:
    what is written back, what leaves and what comes in. *)
From Stdlib Require Import ZArith Lia Bool.
From stdpp Require Import base numbers gmap list.
From S2P Require Import Prelude ReplBase Indexing CacheBlk Partition Tags TagsInv TagsOps Bytes MemRequest.
From S2P Require Import MemPacket Clocked ClassicCache.
Local Open Scope Z_scope.

Section Ops.
Context {P D I : Type} {RP : ReplacementPolicy P D} {RPL : ReplacementPolicyLaws P D}
  {IP : IndexingPolicy I} {IPL : IndexingLaws I}.
Implicit Types s : cc_sys P D I.

Lemma onT_Ok_inv {A} (m : M (tag_sys P D I) A) s a s' :
  onT m s = Ok (a, s') -> exists t, m (tsys s) = Ok (a, t) /\ s' = with_tsys t s.
Proof. unfold onT. destruct (m (tsys s)) as [[? t]|]; naive_solver. Qed.

(** Nothing but the tag store and the counters change. *)
Definition rest_same s s' : Prop :=
  cfg s' = cfg s /\ tempBlock s' = tempBlock s /\ tempData s' = tempData s /\ dataBlks s' = dataBlks s /\
  writebacks s' = writebacks s /\ clk s' = clk s /\ writeBuffer s' = writeBuffer s /\
  tempBlockWriteback s' = tempBlockWriteback s /\ eventScheduled s' = eventScheduled s.

#[global] Instance rest_same_preorder : PreOrder rest_same.
Proof. split; [done|]. intros a b c (?&?&?&?&?&?&?&?&?) (?&?&?&?&?&?&?&?&?). unfold rest_same. naive_solver congruence. Qed.

(** The tag store stays sound with the same contents, the block [e] the same but
    for its state bits. *)
Record quiet s s' (e : loc) : Prop := {
  q_inv : tags_inv (tsys s');
  q_shape : same_shape (tsys s) (tsys s');
  q_contents : contents (tsys s') = contents (tsys s);
  q_rest : rest_same s s';
  q_blk : forall o, entries (wld (tsys s)) !! e = Some o -> exists o', entries (wld (tsys s')) !! e = Some o' /\
    base o' = base o /\ same_identity (ext o) (ext o') /\ blk_data (ext o') = blk_data (ext o);
  q_others : forall e', e' <> e -> entries (wld (tsys s')) !! e' = entries (wld (tsys s)) !! e';
}.

Lemma quiet_refl s e : tags_inv (tsys s) -> quiet s s e.
Proof. intros Hi. constructor; try done. intros o He. exists o. split; [done|]. by split_and!. Qed.

Lemma quiet_trans s1 s2 s3 e : quiet s1 s2 e -> quiet s2 s3 e -> quiet s1 s3 e.
Proof.
  intros [I1 S1 C1 R1 B1 O1] [I2 S2 C2 R2 B2 O2]. constructor; [done|by etrans|congruence|by etrans| |].
  2:{ intros e' Hne. by rewrite O2, O1. }
  intros o He. destruct (B1 o He) as (o1 & L1 & E1 & (?&?&?&?) & D1). destruct (B2 o1 L1) as (o2 & L2 & E2 & (?&?&?&?) & D2).
  exists o2. split; [done|]. split; [congruence|]. split; [split_and!; congruence|congruence].
Qed.

Lemma count_0 s : count 0 0 0 s = s.
Proof. destruct s as [? ? ? ? ? [] ? ? ? ? ?]. unfold count, with_cstats. cbn. by rewrite !Z.add_0_r. Qed.

Lemma quiet_counts s r w p e : tags_inv (tsys s) -> quiet s (count r w p s) e.
Proof. intros Hi. constructor; try done. intros o He. exists o. split; [done|]. by split_and!. Qed.

Lemma call_blk_quiet e f s u s' : tags_inv (tsys s) ->
  (forall b b', f b = Ok b' -> same_identity b b' /\ blk_data b' = blk_data b) ->
  call_blk (TagBlk e) f s = Ok (u, s') -> quiet s s' e.
Proof.
  intros Hi Hf Hrun. cbn in Hrun. apply onT_Ok_inv in Hrun as (t & Ht & ->).
  destruct (modify_blk_spec e f (tsys s) u t Hi ltac:(intros; by apply Hf) Ht) as (Hi' & Hc & Et & Ett & o & b & He & Hb & Ew).
  constructor; cbn; try done; [split_and!; [by rewrite Et..|done]| |].
  2:{ intros e' Hne. rewrite Ew. cbn. by rewrite lookup_insert_ne. }
  intros o' He'. rewrite He in He'. injection He' as <-. destruct (Hf _ _ Hb). rewrite Ew. cbn.
  eexists. rewrite lookup_insert_eq. split; [done|]. done.
Qed.

Lemma get_blk_Ok e s o : entries (wld (tsys s)) !! e = Some o -> get_blk (TagBlk e) s = Ok (ext o, s).
Proof.
  intros He. cbn. unfold onT. rewrite (read_blk_Ok (tsys s) e o He). by destruct s.
Qed.

Lemma regenerate_Ok (st : tag_sys P D I) e o a sec : entries (wld st) !! e = Some o ->
  key_of (indexingPolicy (tags st)) o = Some (a, sec) -> Tags.regenerateBlkAddr e st = Ok (a, st).
Proof.
  intros He Hk. unfold Tags.regenerateBlkAddr. rewrite (bind_Ok getS _ st st st eq_refl).
  rewrite (bind_Ok _ _ _ _ _ (read_blk_Ok st e o He)).
  unfold onW at 1. unfold bind at 1. rewrite (getSet_Ok _ _ _ He). unfold bind at 1, onW. cbn.
  unfold getWay. rewrite (bind_Ok _ _ _ _ _ (deref_entry_Ok _ _ _ He)). cbn.
  unfold key_of in Hk. destruct (isValid (ext o)); [|done].
  destruct (regenerateAddr _ _ _ _); [|done]. injection Hk as -> _. by destruct st.
Qed.

Lemma cc_regenerate_Ok s e o a sec : entries (wld (tsys s)) !! e = Some o ->
  key_of (indexingPolicy (tags (tsys s))) o = Some (a, sec) -> regenerateBlkAddr (TagBlk e) s = Ok (a, s).
Proof.
  intros He Hk. cbn. unfold onT. rewrite (regenerate_Ok _ e o a sec He Hk). by destruct s.
Qed.

(** The key of the block survives quiet steps. *)
Lemma quiet_key s s' e o o' : quiet s s' e -> entries (wld (tsys s)) !! e = Some o ->
  entries (wld (tsys s')) !! e = Some o' ->
  key_of (indexingPolicy (tags (tsys s'))) o' = key_of (indexingPolicy (tags (tsys s))) o /\ blk_data (ext o') = blk_data (ext o).
Proof.
  intros Q He He'. destruct (q_blk _ _ _ Q o He) as (o1 & H1 & Eb & (V & Sec & Tag & _) & Dt). rewrite He' in H1.
  injection H1 as <-. destruct (q_shape _ _ _ Q) as (-> & _ & _). unfold key_of. by rewrite V, Sec, Tag, Eb.
Qed.

(** ** Writebacks *)
Definition bytes_of s (b : CacheBlk) : list Z := default [] (off ← blk_data b; dataBlks s !! off).

Lemma blk_bytes_Ok_inv e s d s' o : entries (wld (tsys s)) !! e = Some o ->
  blk_bytes (TagBlk e) s = Ok (d, s') -> d = bytes_of s (ext o) /\ s' = s.
Proof.
  intros He Hrun. unfold blk_bytes in Hrun. rewrite (bind_Ok _ _ _ _ _ (get_blk_Ok e s o He)) in Hrun. inv_ok Hrun.
  apply lift_Ok_inv in Hrun0 as [Ho%oget_Ok_inv ->]. injection Hrun1 as <- <-.
  apply lift_Ok_inv in Hrun as [Hd%oget_Ok_inv ->]. unfold bytes_of. rewrite Ho. cbn. by rewrite Hd.
Qed.

Lemma clear_quiet bits b b' : Ok (clearCoherenceBits bits b) = Ok b' ->
  same_identity b b' /\ blk_data b' = blk_data b.
Proof. intros [= <-]. done. Qed.

Context (junk : Z).

(** The packet that writes a block back. *)
Definition wb_packet (now size : Z) (b : CacheBlk) (a : Z) (d : list Z) : outcome Packet :=
  let? r := blk_request now a size wbRequestorId b in
  let? k := new_Packet r (if isSet DirtyBit b then WritebackDirty else WritebackClean) in
  load_packet junk (if isSet WritableBit b then k else setHasSharers k) d size.

(** The packet that tells of a clean eviction. *)
Definition ce_packet (now size : Z) (b : CacheBlk) (a : Z) : outcome Packet :=
  let? r := blk_request now a size wbRequestorId b in
  let? k := new_Packet r CleanEvict in allocate junk k.

Lemma downgrade_quiet e b s u s' : tags_inv (tsys s) -> downgrade (TagBlk e) b s = Ok (u, s') -> quiet s s' e.
Proof.
  intros Hi Hrun. unfold downgrade in Hrun. inv_ok Hrun.
  assert (quiet s s0 e) as Q1.
  { destruct (isSet WritableBit b); [|injection Hrun0 as _ <-; by apply quiet_refl].
    eapply call_blk_quiet; [done|apply clear_quiet|done]. }
  eapply quiet_trans; [done|]. eapply call_blk_quiet; [apply Q1|apply clear_quiet|done].
Qed.

Lemma writebackBlk_spec e s o a sec k s' : tags_inv (tsys s) -> entries (wld (tsys s)) !! e = Some o ->
  key_of (indexingPolicy (tags (tsys s))) o = Some (a, sec) -> writebackBlk junk (TagBlk e) s = Ok (k, s') ->
  wb_packet (now s) (blk_size s) (ext o) a (bytes_of s (ext o)) = Ok k /\ quiet s s' e.
Proof.
  intros Hi He Hk Hrun. unfold writebackBlk in Hrun. inv_ok Hrun. injection Hrun0 as <- <-.
  apply lift_Ok_inv in Hrun1 as [_ ->]. rewrite (get_blk_Ok e s o He) in Hrun2. injection Hrun2 as <- <-.
  apply lift_Ok_inv in Hrun3 as [_ ->]. injection Hrun4 as _ <-.
  rewrite (cc_regenerate_Ok _ e o a sec) in Hrun5 by done. injection Hrun5 as <- <-.
  apply lift_Ok_inv in Hrun6 as [Hr ->]. apply lift_Ok_inv in Hrun7 as [Hp ->].
  pose proof (quiet_counts s 0 1 0 e Hi) as Q0. set (s0 := count 0 1 0 s) in *.
  pose proof (quiet_trans _ _ _ _ Q0 (downgrade_quiet _ _ _ _ _ (q_inv _ _ _ Q0) Hrun8)) as Q.
  destruct (q_blk _ _ _ Q o He) as (o' & He' & _ & _ & Dt).
  apply (blk_bytes_Ok_inv e _ _ _ o' He') in Hrun9 as [-> ->]. apply lift_Ok_inv in Hrun as [Hk' ->]. split; [|done].
  unfold wb_packet. rewrite Hr. cbn [obind]. rewrite Hp. cbn [obind]. rewrite <- Hk'. f_equal.
  unfold bytes_of. rewrite Dt. by destruct (q_rest _ _ _ Q) as (_ & _ & _ & -> & _).
Qed.

Lemma cleanEvictBlk_spec e s o a sec k s' : entries (wld (tsys s)) !! e = Some o ->
  key_of (indexingPolicy (tags (tsys s))) o = Some (a, sec) -> cleanEvictBlk junk (TagBlk e) s = Ok (k, s') ->
  ce_packet (now s) (blk_size s) (ext o) a = Ok k /\ s' = s.
Proof.
  intros He Hk Hrun. unfold cleanEvictBlk in Hrun. inv_ok Hrun. injection Hrun0 as <- <-.
  apply lift_Ok_inv in Hrun1 as [_ ->]. rewrite (get_blk_Ok e s o He) in Hrun2. injection Hrun2 as <- <-.
  apply lift_Ok_inv in Hrun3 as [_ ->]. rewrite (cc_regenerate_Ok _ e o a sec) in Hrun4 by done.
  injection Hrun4 as <- <-. apply lift_Ok_inv in Hrun5 as [Hr ->]. apply lift_Ok_inv in Hrun as [Hk' ->].
  unfold ce_packet. by rewrite Hr.
Qed.

(** ** Evictions *)
Lemma invalidateBlock_spec e s o k u s' : tags_inv (tsys s) -> entries (wld (tsys s)) !! e = Some o ->
  key_of (indexingPolicy (tags (tsys s))) o = Some k -> invalidateBlock (TagBlk e) s = Ok (u, s') ->
  tags_inv (tsys s') /\ same_shape (tsys s) (tsys s') /\ contents (tsys s') = delete k (contents (tsys s)) /\
  rest_same s s'.
Proof.
  intros Hi He Hk Hrun. destruct k as [a sec]. unfold invalidateBlock in Hrun. inv_ok Hrun.
  rewrite (get_blk_Ok e s o He) in Hrun0. injection Hrun0 as <- <-.
  assert (exists p, s1 = count 0 0 p s) as [p ->].
  { destruct (_prefetched (ext o)); injection Hrun1 as _ <-; [by exists 1|exists 0]. by rewrite count_0. }
  unfold updateBlockData in Hrun2. inv_ok Hrun2. rewrite (cc_regenerate_Ok _ e o a sec) in Hrun0 by done.
  injection Hrun0 as <- <-. injection Hrun2 as _ <-.
  apply onT_Ok_inv in Hrun as (t & Ht & ->).
  destruct (invalidateBlk_spec e (tsys s) u t Hi Ht) as (o' & k & He' & Hk' & Hi' & Hsh & Hc).
  rewrite He in He'. injection He' as <-. rewrite Hk in Hk'. injection Hk' as <-. done.
Qed.

(** What is sent down when a block leaves. *)
Definition evicted (c : CacheConfig) (now size : Z) (b : CacheBlk) (a : Z) (d : list Z) : outcome (list Packet) :=
  if isSet DirtyBit b || writebackClean c then let? k := wb_packet now size b a d in Ok [k]
  else if coherent c then let? k := ce_packet now size b a in Ok [k] else Ok [].

(** Nothing but the tag store, the counters and the writebacks change. *)
Definition store_same s s' : Prop :=
  cfg s' = cfg s /\ tempBlock s' = tempBlock s /\ tempData s' = tempData s /\ dataBlks s' = dataBlks s /\
  clk s' = clk s /\ writeBuffer s' = writeBuffer s /\ tempBlockWriteback s' = tempBlockWriteback s /\
  eventScheduled s' = eventScheduled s.

Lemma rest_store s s' : rest_same s s' -> store_same s s'.
Proof. intros (?&?&?&?&?&?&?&?&?). by split_and!. Qed.

#[global] Instance store_same_preorder : PreOrder store_same.
Proof. split; [done|]. intros a b c (?&?&?&?&?&?&?&?) (?&?&?&?&?&?&?&?). unfold store_same. naive_solver congruence. Qed.

Lemma evictBlock_spec e s o a sec u s' : tags_inv (tsys s) -> entries (wld (tsys s)) !! e = Some o ->
  key_of (indexingPolicy (tags (tsys s))) o = Some (a, sec) -> evictBlock junk (TagBlk e) s = Ok (u, s') ->
  tags_inv (tsys s') /\ same_shape (tsys s) (tsys s') /\ contents (tsys s') = delete (a, sec) (contents (tsys s)) /\
  store_same s s' /\
  exists l, evicted (cfg s) (now s) (blk_size s) (ext o) a (bytes_of s (ext o)) = Ok l /\ writebacks s' = writebacks s ++ l.
Proof.
  intros Hi He Hk Hrun. unfold evictBlock, evict_pkt in Hrun. inv_ok Hrun. inv_ok Hrun0. injection Hrun1 as <- <-.
  rewrite (get_blk_Ok e s o He) in Hrun2. injection Hrun2 as <- <-. injection Hrun0 as <- <-.
  assert (quiet s s3 e /\ evicted (cfg s) (now s) (blk_size s) (ext o) a (bytes_of s (ext o)) =
    Ok match a3 with Some k => [k] | None => [] end) as [Q Hev].
  { unfold evicted. destruct (_ || _); [|destruct (coherent (cfg s))].
    - inv_ok Hrun3. injection Hrun3 as <- <-. apply (writebackBlk_spec e s o a sec) in Hrun0 as [E Q]; [|done..].
      split; [done|]. by rewrite E.
    - inv_ok Hrun3. injection Hrun3 as <- <-. apply (cleanEvictBlk_spec e s o a sec) in Hrun0 as [E ->]; [|done..].
      split; [by apply quiet_refl|]. by rewrite E.
    - injection Hrun3 as <- <-. split; [by apply quiet_refl|done]. }
  destruct (q_blk _ _ _ Q o He) as (o' & He' & _). pose proof (quiet_key _ _ _ _ _ Q He He') as [Hk' _].
  destruct (invalidateBlock_spec e s3 o' (a, sec) _ _ (q_inv _ _ _ Q) He' ltac:(congruence) Hrun4) as (Hi' & Hsh & Hc & R').
  assert (writebacks s' = writebacks s4 ++ match a3 with Some k => [k] | None => [] end /\ tsys s' = tsys s4 /\
    store_same s4 s') as (Ew & Et & R'').
  { destruct a3; injection Hrun as _ <-; [by split_and!|]. split; [by rewrite app_nil_r|]. by split_and!. }
  assert (writebacks s4 = writebacks s) as Ew4.
  { destruct R' as (_ & _ & _ & _ & -> & _). by destruct (q_rest _ _ _ Q) as (_ & _ & _ & _ & -> & _). }
  rewrite Et, Hc, (q_contents _ _ _ Q), Ew, Ew4. split; [done|]. split; [etrans; [exact (q_shape _ _ _ Q)|exact Hsh]|].
  split; [done|]. split; [|eauto].
  etrans; [exact (rest_store _ _ (q_rest _ _ _ Q))|]. etrans; [exact (rest_store _ _ R')|done].
Qed.

(** ** Allocation *)
Context (mshr : Z -> bool -> option MSHRView) (pid_of : Packet -> Z).

(** The replacement of one victim. *)
Lemma handleEvictions_spec v s o ok s' : tags_inv (tsys s) -> entries (wld (tsys s)) !! v = Some o ->
  handleEvictions junk mshr [TagBlk v] s = Ok (ok, s') ->
  tags_inv (tsys s') /\ same_shape (tsys s) (tsys s') /\ store_same s s' /\
  (ok = false /\ contents (tsys s') = contents (tsys s) /\ writebacks s' = writebacks s \/
   ok = true /\ match key_of (indexingPolicy (tags (tsys s))) o with
     | Some (a, sec) => mshr a sec = None /\ contents (tsys s') = delete (a, sec) (contents (tsys s)) /\
         exists l, evicted (cfg s) (now s) (blk_size s) (ext o) a (bytes_of s (ext o)) = Ok l /\
           writebacks s' = writebacks s ++ l
     | None => contents (tsys s') = contents (tsys s) /\ writebacks s' = writebacks s
     end).
Proof.
  intros Hi He Hrun. unfold handleEvictions, check_evictions in Hrun. cbn [foreach] in Hrun. inv_ok Hrun. inv_ok Hrun0.
  inv_ok Hrun1. rewrite (get_blk_Ok v s o He) in Hrun2. injection Hrun2 as <- <-.
  pose proof (ti_blk _ Hi v o He) as B. destruct (isValid (ext o)) eqn:V.
  2:{ injection Hrun1 as <- <-. injection Hrun0 as <- <-. inv_ok Hrun. injection Hrun0 as _ <-. injection Hrun as <- <-.
      unfold key_of. rewrite V. split_and!; try done. by right. }
  destruct (bo_placed _ _ _ _ B V) as (addr & Hpl).
  pose proof (placed_key _ o addr (ti_ip _ Hi) V Hpl (bo_way _ _ _ _ B)) as Hk. set (ba := block_of _ addr) in Hk.
  rewrite Hk. inv_ok Hrun1. rewrite (cc_regenerate_Ok _ v o ba (_secure (ext o))) in Hrun2 by done.
  injection Hrun2 as <- <-. destruct (mshr ba (_secure (ext o))) as [m|].
  - inv_ok Hrun1. apply lift_Ok_inv in Hrun2 as [_ ->]. injection Hrun1 as <- <-. injection Hrun0 as <- <-.
    injection Hrun as <- <-. split_and!; try done. by left.
  - injection Hrun1 as <- <-. injection Hrun0 as <- <-. inv_ok Hrun. injection Hrun as <- <-. inv_ok Hrun0.
    injection Hrun as _ <-. inv_ok Hrun1.
    rewrite (get_blk_Ok v (count 1 0 0 s) o He) in Hrun. injection Hrun as <- <-. rewrite V in Hrun2. injection Hrun1 as <- <-.
    injection Hrun0 as _ <-.
    destruct (evictBlock_spec v (count 1 0 0 s) o ba (_secure (ext o)) _ _ Hi He Hk Hrun2) as (? & ? & ? & ? & ?).
    split_and!; try done. right. by split_and!.
Qed.

Lemma cands_shape (st st' : tag_sys P D I) addr : same_shape st st' -> cands st' addr = cands st addr.
Proof. intros (E & _ & _). unfold cands, geom. by rewrite E. Qed.

(** The candidates for the victim of an allocation. *)
Definition alloc_cands s (pkt : Tags.Packet) : outcome (list loc) :=
  victim_cands (tsys s) (pkt_addr pkt) (match partitionManager (tags (tsys s)) with Some _ => pkt_partition pkt | None => 0 end).

Lemma allocate_spec pkt s r s' l :
  let k := (block_of (geom (tsys s)) (pkt_addr pkt), pkt_secure pkt) in
  tags_inv (tsys s) -> 0 <= pkt_addr pkt < 2 ^ 64 -> contents (tsys s) !! k = None ->
  alloc_cands s pkt = Ok l -> allocate_for junk mshr pkt s = Ok (r, s') ->
  tags_inv (tsys s') /\ same_shape (tsys s) (tsys s') /\ store_same s s' /\
  match r with
  | None => contents (tsys s') = contents (tsys s) /\ writebacks s' = writebacks s
  | Some e => e ∈ l /\ exists o, entries (wld (tsys s)) !! e = Some o /\
      match key_of (indexingPolicy (tags (tsys s))) o with
      | Some (a, sec) => mshr a sec = None /\ contents (tsys s') = <[k := e]> (delete (a, sec) (contents (tsys s))) /\
          exists l, evicted (cfg s) (now s) (blk_size s) (ext o) a (bytes_of s (ext o)) = Ok l /\
            writebacks s' = writebacks s ++ l
      | None => contents (tsys s') = <[k := e]> (contents (tsys s)) /\ writebacks s' = writebacks s
      end
  end.
Proof.
  intros k Hi Ha Hn Hl Hrun. unfold allocate_for in Hrun. rewrite (bind_Ok getS _ s s s eq_refl) in Hrun.
  destruct (findVictim_spec (pkt_addr pkt) (pkt_secure pkt) _ (tsys s) l Hi Ha Hl)
    as (v & t & Ev & Hi1 & Hsh1 & Hc1 & Ett & He1 & Hk1 & _ & Hin).
  rewrite (bind_Ok _ _ s (v, [v]) (with_tsys t s)) in Hrun by (unfold onT; by rewrite Ev). cbn [fst snd] in Hrun.
  destruct v as [v|]; [|injection Hrun as <- <-; by split_and!]. cbn [mapM mapM fmap] in Hrun.
  rewrite (bind_Ok _ _ _ [v] (with_tsys t s) eq_refl) in Hrun. inv_ok Hrun.
  pose proof (victim_cands_subset _ _ _ _ Hl v (Hin v eq_refl)) as Hc.
  destruct (cand_entry (tsys s) _ v Hi Ha Hc) as (o & He & _).
  destruct (handleEvictions_spec v (with_tsys t s) o _ _ Hi1 ltac:(cbn; by rewrite He1) Hrun0)
    as (Hi2 & Hsh2 & E2 & Hcase). cbn in Hcase, Hsh2.
  assert (same_shape (tsys s) (tsys s0)) as Hsh by (etrans; [exact Hsh1|exact Hsh2]).
  destruct Hcase as [(-> & Hc2 & Hw2)|(-> & Hcase)].
  { injection Hrun as <- <-. split_and!; try done. congruence. }
  inv_ok Hrun. injection Hrun as <- <-. apply onT_Ok_inv in Hrun1 as (t' & Ht' & ->).
  destruct Hsh1 as (Ei1 & En1 & Et1). rewrite Ei1 in Hcase.
  assert (geom (tsys s0) = geom (tsys s)) as Eg by (unfold geom; by destruct Hsh as (-> & _)).
  assert (now (with_tsys t s) = now s /\ blk_size (with_tsys t s) = blk_size s) as [En Es]
    by (unfold now, blk_size; cbn; by rewrite Ett).
  rewrite En, Es in Hcase.
  destruct (insertBlock_spec pkt v (tsys s0) a t' Hi2 Ha) as (Hi3 & Hsh3 & Hc3).
  - by rewrite (cands_shape (tsys s) (tsys s0)).
  - rewrite Eg. destruct (key_of _ o) as [[a' sec]|]; [destruct Hcase as (_ & -> & _)|destruct Hcase as [-> _]].
    + rewrite lookup_delete_None. right. by rewrite Hc1.
    + by rewrite Hc1.
  - done.
  - cbn. split; [done|]. split; [by etrans; [exact Hsh|]|]. split; [done|]. split; [by apply Hin|]. exists o. split; [done|].
    rewrite Hc3, Eg. destruct (key_of _ o) as [[a' sec]|].
    + destruct Hcase as (? & -> & ?). rewrite Hc1. by split_and!.
    + destruct Hcase as (-> & ->). by rewrite Hc1.
Qed.
End Ops.
