(* ===== verification/ClassicTotal.v ===== *)
(** Progress of a classic cache: with a replacement policy that can always reset
    an entry and always finds a victim, the operations on a sound tag store with
    sound accounting return, and change one block. *)
From Stdlib Require Import ZArith Lia Bool.
From stdpp Require Import base numbers gmap list.
From S2P Require Import Prelude ReplBase Bitfield Indexing CacheBlk Partition Tags TagsInv TagsOps Bytes.
From S2P Require Import MemRequest MemPacket Clocked ClassicCache ClassicOps.
Local Open Scope Z_scope.

(** Policies a classic cache can always go on with. *)
Class ServingPolicy (P D : Type) {RP : ReplacementPolicy P D} {RPL : ReplacementPolicyLaws P D} := {
  sp_reset : forall X (w : world P D X) r, is_Some (rds w !! r) -> exists w', rp_reset r w = Ok (tt, w');
  sp_victim : forall X (w : world P D X) cands ds, cands <> [] -> cands_data w cands ds ->
    exists e w', rp_getVictim cands w = Ok (Some e, w');
}.

(** The parameters of the tags, which no operation changes. *)
Definition params_same {I} (t t' : BaseSetAssoc I) : Prop :=
  blkSize t' = blkSize t /\ maxRequestors t' = maxRequestors t /\ indexingPolicy t' = indexingPolicy t /\
  partitionManager t' = partitionManager t /\ lookupLatency t' = lookupLatency t /\
  vsize (occupancies (stats t')) = vsize (occupancies (stats t)) /\ blkMask t' = blkMask t.

#[global] Instance params_same_preorder {I} : PreOrder (@params_same I).
Proof. split; [done|]. intros a b c (?&?&?&?&?&?&?) (?&?&?&?&?&?&?). unfold params_same. naive_solver congruence. Qed.

(** What the counters and assertions of the code rely on. *)
Record acct {P D I} `{IndexingPolicy I} (st : tag_sys P D I) (bytes : gmap Z (list Z)) : Prop := {
  ac_occ : vsize (occupancies (stats (tags st))) = maxRequestors (tags st);
  ac_max : maxRequestors (tags st) <= 2 ^ 31;
  ac_pm : partitionManager (tags st) = None;
  ac_tick : 0 <= curTick (wld st) <= MaxTick;
  ac_line : exists k, 2 <= k < 31 /\ blkSize (tags st) = 2 ^ k /\ setShift (geom st) = k;
  ac_mask : blkMask (tags st) = blkSize (tags st) - 1;
  ac_blk : forall e o, entries (wld st) !! e = Some o ->
    0 <= _tickInserted (ext o) <= MaxTick /\
    (isValid (ext o) = true -> 0 <= _srcRequestorId (ext o) < maxRequestors (tags st)) /\
    exists off d, blk_data (ext o) = Some off /\ bytes !! off = Some d /\ vsize d = blkSize (tags st);
}.

(** [st'] is [st] but for the block [e], the statistics and the policy. *)
Record touched {P D I} (st st' : tag_sys P D I) (e : loc) (o : object CacheBlk) (b : CacheBlk) : Prop := {
  th_entries : entries (wld st') = <[e := mkObject (base o) b]> (entries (wld st));
  th_tick : curTick (wld st') = curTick (wld st);
  th_params : params_same (tags st) (tags st');
}.

Lemma touched_trans {P D I} (st1 st2 st3 : tag_sys P D I) e o b o' b' : touched st1 st2 e o b -> base o' = base o ->
  touched st2 st3 e o' b' -> touched st1 st3 e o b'.
Proof.
  intros [E1 T1 P1] Eb [E2 T2 P2]. constructor; [|congruence|by etrans]. by rewrite E2, E1, insert_insert_eq, Eb.
Qed.

Lemma touched_lookup {P D I} (st st' : tag_sys P D I) e o b : touched st st' e o b ->
  entries (wld st') !! e = Some (mkObject (base o) b).
Proof. intros [-> _ _]. apply lookup_insert_eq. Qed.

Section Total.
Context {P D I : Type} {RP : ReplacementPolicy P D} {RPL : ReplacementPolicyLaws P D}
  {IP : IndexingPolicy I} {IPL : IndexingLaws I} {SP : ServingPolicy P D}.
Implicit Types st : tag_sys P D I.
Implicit Types s : cc_sys P D I.

(** ** The tag store *)
Lemma modify_blk_run e f st o b : entries (wld st) !! e = Some o -> f (ext o) = Ok b ->
  modify_blk e f st = Ok (tt, mkTagSys (tags st) (table st)
    (set_entries (<[e := mkObject (base o) b]> (entries (wld st))) (wld st))).
Proof.
  intros He Hb. unfold modify_blk, onW. rewrite (bind_Ok _ _ _ _ _ (deref_entry_Ok _ _ _ He)).
  by rewrite (bind_Ok _ _ _ b (wld st)) by (by rewrite Hb).
Qed.

Lemma policy_call_run e (op : loc -> M (world P D CacheBlk) unit) st o r w :
  entries (wld st) !! e = Some o -> replacementData (base o) = Some r -> op r (wld st) = Ok (tt, w) ->
  onW (let* r := rd_ptr e in op r) st = Ok (tt, mkTagSys (tags st) (table st) w).
Proof.
  intros He Hr Hop. unfold onW, rd_ptr. unfold bind at 1. rewrite (bind_Ok _ _ _ _ _ (deref_entry_Ok _ _ _ He)).
  rewrite Hr. cbn. by rewrite Hop.
Qed.

Lemma occupancy_run (st : BaseTagStats) id d : 0 <= id < vsize (occupancies st) ->
  exists l, st_occupancy id d st = Ok (mkTagStats (tagsInUse st) (totalRefs st) (sampledRefs st) (warmupTick st) l
    (occupanciesTaskId st) (ageTaskId st) (tagAccesses st) (dataAccesses st)) /\ vsize l = vsize (occupancies st).
Proof.
  intros Hid. unfold st_occupancy. destruct (vget_total _ _ Hid) as [n ->]. cbn [obind].
  rewrite vset_Ok by done. eexists. split; [done|]. by rewrite vsize_insert.
Qed.

(** The accounting when one block changes. *)
Lemma acct_touched st st' bytes e o b : acct st bytes -> entries (wld st) !! e = Some o -> touched st st' e o b ->
  0 <= _tickInserted b <= MaxTick -> (isValid b = true -> 0 <= _srcRequestorId b < maxRequestors (tags st)) ->
  blk_data b = blk_data (ext o) -> acct st' bytes.
Proof.
  intros Hac He [Ee Et (E1 & E2 & E3 & E4 & E5 & E6 & E7)] Ht Hs Hd.
  constructor; unfold geom; rewrite ?E1, ?E2, ?E3, ?E4, ?E6, ?E7, ?Et; try apply Hac.
  rewrite Ee. intros e' o' [[<- <-]|[_ He']]%lookup_insert_Some; cbn; [|by apply (ac_blk _ _ Hac e')].
  split; [done|]. split; [done|]. rewrite Hd. by apply (ac_blk _ _ Hac e o He).
Qed.

(** The accounting when no block changes. *)
Lemma acct_same st st' bytes : acct st bytes -> entries (wld st') = entries (wld st) ->
  curTick (wld st') = curTick (wld st) -> params_same (tags st) (tags st') -> acct st' bytes.
Proof.
  intros Hac Ee Et (E1 & E2 & E3 & E4 & E5 & E6 & E7).
  constructor; unfold geom; rewrite ?E1, ?E2, ?E3, ?E4, ?E6, ?E7, ?Et, ?Ee; apply Hac.
Qed.

(** A block that was just invalidated. *)
Definition invalidated (b b' : CacheBlk) : Prop :=
  isValid b' = false /\ _secure b' = false /\ lockList b' = [] /\ Z.land (coherence b') AllBits = 0 /\
  blk_data b' = blk_data b /\ _tickInserted b' = _tickInserted b /\ has_extractor b' = has_extractor b.

Lemma clear_all c : Z.land (Z.land c (u32 (Z.lnot AllBits))) AllBits = 0.
Proof. rewrite <- Z.land_assoc. change (Z.land (u32 (Z.lnot AllBits)) AllBits) with 0. apply Z.land_0_r. Qed.

Lemma blk_invalidate_run b : 0 <= _tickInserted b <= MaxTick -> exists b', CacheBlk.invalidate b = Ok b' /\ invalidated b b'.
Proof.
  intros Ht. unfold CacheBlk.invalidate, setWhenReady. cbn [_tickInserted with_ids clearCoherenceBits with_state clearPrefetched tagged_invalidate with_tagging].
  replace (_tickInserted b <=? MaxTick) with true by lia. cbn [ocheck obind]. eexists. split; [done|].
  split_and!; try done. apply clear_all.
Qed.

Lemma invalidateBlk_run st bytes e o : tags_inv st -> acct st bytes ->
  entries (wld st) !! e = Some o -> isValid (ext o) = true ->
  exists st' b, invalidateBlk e st = Ok (tt, st') /\ invalidated (ext o) b /\ touched st st' e o b.
Proof.
  intros Hi Hac He V. destruct (ac_blk _ _ Hac e o He) as (Ht & Hs & _). specialize (Hs V).
  unfold invalidateBlk. rewrite (bind_Ok _ _ _ _ _ (read_blk_Ok st e o He)).
  rewrite (bind_Ok _ _ st tt st).
  2:{ unfold notify, on_tags. rewrite (ac_pm _ _ Hac). by destruct st. }
  unfold base_invalidate. unfold bind at 1. rewrite (bind_Ok _ _ _ _ _ (read_blk_Ok st e o He)), V.
  rewrite (bind_Ok _ _ st tt st eq_refl).
  pose proof (ac_max _ _ Hac) as Hm.
  rewrite (uwrap_small 32) by lia.
  destruct (occupancy_run (stats (tags st)) (_srcRequestorId (ext o)) (-1)) as (l & El & Hl); [rewrite (ac_occ _ _ Hac); lia|].
  unfold on_tags at 1. unfold bind at 1. rewrite El. cbn [obind].
  unfold on_stats, on_tags. unfold bind at 1. cbn [stats tags with_tag_stats].
  destruct (blk_invalidate_run (ext o) Ht) as (b & Eb & Hinv).
  rewrite (modify_blk_run e _ _ o b) by done. cbn [tags table wld].
  destruct (bo_rd _ _ _ _ (ti_blk _ Hi e o He)) as (r & rd & Hr & Hrd & _).
  set (w1 := set_entries _ _).
  destruct (rp_invalidate_total _ w1 r) as (w & Ew); [exists rd; exact Hrd|].
  unfold bind at 1. rewrite (policy_call_run e _ _ (mkObject (base o) b) r w); [|apply lookup_insert_eq|done|done].
  eexists _, b. split; [done|]. split; [done|].
  destruct (rp_frame _ _ _ r (upd_invalidate _ _ _ Ew)) as ((Fe & _ & Fc) & _). constructor; cbn; try done.
Qed.

(** A block that was just inserted. *)
Definition inserted (tick src : Z) (sec : bool) (b b' : CacheBlk) : Prop :=
  isValid b' = true /\ _secure b' = (sec || _secure b) /\ lockList b' = lockList b /\ coherence b' = coherence b /\
  blk_data b' = blk_data b /\ _tickInserted b' = tick /\ _srcRequestorId b' = i32 src /\ whenReady b' = whenReady b.

Lemma insert_run g tick key src task part b t : isValid b = false -> has_extractor b = true ->
  extractTag g (key_address key) = Ok t ->
  exists b', insert g tick key src task part b = Ok b' /\ inserted tick src (key_secure key) b b'.
Proof.
  intros V Ex Ht. unfold insert, insert_key, setValid. rewrite V. cbn [negb ocheck obind].
  unfold call_extractor. cbn [has_extractor with_tagging]. rewrite Ex, Ht. cbn [obind].
  eexists. split; [done|]. by destruct (key_secure key).
Qed.

Lemma insertBlock_run st bytes e o pkt : tags_inv st -> acct st bytes ->
  entries (wld st) !! e = Some o -> isValid (ext o) = false -> 0 <= pkt_requestor pkt < maxRequestors (tags st) ->
  exists st' b, insertBlock pkt e st = Ok (tt, st') /\
    inserted (curTick (wld st)) (pkt_requestor pkt) (pkt_secure pkt) (ext o) b /\ touched st st' e o b.
Proof.
  intros Hi Hac He V Hreq. pose proof (ac_max _ _ Hac) as Hm. pose proof (ti_blk _ Hi e o He) as B.
  unfold insertBlock, base_insertBlock. unfold bind at 1.
  rewrite (bind_Ok _ _ _ _ _ (read_blk_Ok st e o He)), V. rewrite (bind_Ok _ _ st tt st eq_refl).
  rewrite (bind_Ok getS _ st st st eq_refl). replace (pkt_requestor pkt <? maxRequestors (tags st)) with true by lia.
  rewrite (bind_Ok _ _ st tt st eq_refl).
  destruct (occupancy_run (stats (tags st)) (pkt_requestor pkt) 1) as (l & El & Hl); [rewrite (ac_occ _ _ Hac); lia|].
  unfold on_tags at 1. unfold bind at 1. rewrite El. cbn [obind]. rewrite (ac_pm _ _ Hac).
  pose proof (ip_geometry_ok _ (ti_ip _ Hi)) as Hg.
  destruct (insert_run (geom st) (curTick (wld st)) (mkKey (pkt_addr pkt) (pkt_secure pkt)) (pkt_requestor pkt)
    (pkt_task pkt) 0 (ext o) _ V (bo_extractor _ _ _ _ B) (extractTag_div _ _ Hg)) as (b & Eb & Hins).
  unfold bind at 1. rewrite (modify_blk_run e _ _ o b) by done. cbn [tags table wld].
  set (t1 := with_tag_stats _ (tags st)). set (w1 := set_entries _ _).
  assert (exists t2, (if negb (warmedUp (tags st)) && (warmupBound (tags st) <=? tagsInUse (stats (tags st)))
    then on_tags (fun t => Ok (with_warm true (with_tag_stats (st_warmup (curTick (wld st)) (stats t)) t))) else ret tt)
    (mkTagSys t1 (table st) w1) = Ok (tt, mkTagSys t2 (table st) w1) /\ params_same (tags st) t2) as (t2 & Et2 & Hp2).
  { destruct (_ && _); eexists; (split; [done|]); by split_and!. }
  assert (partitionManager t2 = None) as P2 by (destruct Hp2 as (_ & _ & _ & -> & _); apply (ac_pm _ _ Hac)).
  unfold bind at 1. rewrite Et2. unfold on_stats at 1, on_tags at 1. erewrite bind_Ok by reflexivity.
  erewrite bind_Ok by (unfold notify, on_tags; cbn [tags with_tag_stats partitionManager]; rewrite P2; reflexivity).
  destruct (bo_rd _ _ _ _ B) as (r & rd & Hr & Hrd & _).
  destruct (sp_reset _ w1 r) as (w & Ew); [exists rd; exact Hrd|].
  rewrite (policy_call_run e _ _ (mkObject (base o) b) r w); [|apply lookup_insert_eq|done|done].
  eexists _, b. split; [done|]. split; [done|].
  destruct (rp_frame _ _ _ r (upd_reset _ _ _ Ew)) as ((Fe & _ & Fc) & _). constructor; cbn; done.
Qed.

Lemma accessBlock_run pkt st bytes : tags_inv st -> acct st bytes -> 0 <= pkt_addr pkt < 2 ^ 64 ->
  let k := (block_of (geom st) (pkt_addr pkt), pkt_secure pkt) in
  exists st', accessBlock pkt st = Ok ((contents st !! k, lookupLatency (tags st)), st') /\
    match contents st !! k with
    | Some e => exists o, entries (wld st) !! e = Some o /\ touched st st' e o (increaseRefCount (ext o))
    | None => entries (wld st') = entries (wld st) /\ curTick (wld st') = curTick (wld st) /\ params_same (tags st) (tags st')
    end.
Proof.
  intros Hi Hac Ha k. unfold accessBlock. rewrite (bind_Ok _ _ _ _ _ (findBlock_Ok st _ _ Hi Ha)). fold k.
  destruct (contents st !! k) as [e|] eqn:Eh; rewrite (bind_Ok getS _ st st st eq_refl); unfold on_stats at 1, on_tags at 1;
    (erewrite bind_Ok by reflexivity); cbn [tags table wld];
    match goal with |- context [bind (if _ then _ else _) _ ?s1] => set (st1 := s1) end.
  2:{ assert (exists t, (if sequentialAccess (tags st) then ret tt else on_stats (st_accesses 0 (allocAssoc (tags st)))) st1 =
        Ok (tt, mkTagSys t (table st) (wld st)) /\ params_same (tags st) t) as (t & Et & Hp)
        by (destruct (sequentialAccess (tags st)); eexists; (split; [done|]); by split_and!).
      rewrite (bind_Ok _ _ _ _ _ Et), (bind_Ok _ _ _ tt _ eq_refl). eexists. split; [done|]. done. }
  assert (exists t, (if sequentialAccess (tags st) then on_stats (st_accesses 0 1)
      else on_stats (st_accesses 0 (allocAssoc (tags st)))) st1 =
    Ok (tt, mkTagSys t (table st) (wld st)) /\ params_same (tags st) t) as (t & Et & Hp)
    by (destruct (sequentialAccess (tags st)); eexists; (split; [done|]); by split_and!).
  rewrite (bind_Ok _ _ _ _ _ Et). apply contents_entry in Eh as (o & He & Hk); [|done].
  destruct (bo_rd _ _ _ _ (ti_blk _ Hi e o He)) as (r & rd & Hr & Hrd & _).
  set (w1 := set_entries (<[e := mkObject (base o) (increaseRefCount (ext o))]> (entries (wld st))) (wld st)).
  destruct (rp_touch_total _ w1 r) as (w & Ew); [exists rd; exact Hrd|].
  rewrite (bind_Ok _ _ _ tt (mkTagSys t (table st) w)).
  2:{ rewrite (bind_Ok _ _ _ tt (mkTagSys t (table st) w1)) by exact (modify_blk_run e _ (mkTagSys t (table st) (wld st)) o _ He eq_refl).
      exact (policy_call_run e (fun r => touch_pkt r pkt) (mkTagSys t (table st) w1) (mkObject (base o) (increaseRefCount (ext o))) r w
        (lookup_insert_eq _ _ _) Hr Ew). }
  eexists. split; [done|]. exists o. split; [done|].
  destruct (rp_frame _ _ _ r (upd_touch _ _ _ Ew)) as ((Fe & _ & Fc) & _). by constructor.
Qed.

(** ** Packets that go down *)

(** The packet of a block that leaves. *)
Record evict_packet (k : Packet) (c : Command) (a : Z) (sec : bool) (n : Z) : Prop := {
  ev_cmd : pk_cmd k = c; ev_addr : pk_addr k = a; ev_secure : pk_secure k = sec; ev_size : pk_size k = n;
  ev_flags : has_flag VALID_ADDR k = true /\ has_flag VALID_SIZE k = true /\ cacheResponding k = false;
  ev_req : rq_flags (pk_req k) = (if sec then SECURE else 0);
}.

(** It has all of the block's bytes. *)
Record down_packet (k : Packet) (c : Command) (a : Z) (sec : bool) (d : list Z) : Prop := {
  dp_evict : evict_packet k c a sec (vsize d);
  dp_data : pk_data k = d;
  dp_any : has_flag ANY_DATA k = true;
  dp_req : rq_requestorId (pk_req k) = wbRequestorId /\ isInstFetch (pk_req k) = false /\ rq_paddr (pk_req k) = a /\
    hasPaddr (pk_req k) = true;
}.

Lemma blk_request_Ok now a size id b : exists r, blk_request now a size id b = Ok r /\
  rq_paddr r = a /\ rq_size r = size /\ rq_privateFlags r = 3 /\ rq_requestorId r = id /\
  rq_flags r = (if _secure b then SECURE else 0).
Proof. unfold blk_request. destruct (_secure b); eexists; (split; [reflexivity|]); done. Qed.

Lemma new_Packet_Ok r c : rq_privateFlags r = 3 -> (rq_flags r = SECURE \/ rq_flags r = 0) ->
  new_Packet r c = Ok (mkPkt 0x300 c r [] (rq_paddr r) (rq_isSecure r) (rq_size r) [] 0 0 0).
Proof.
  intros Hp Hf. unfold new_Packet, hasPaddr, hasSize, isHTMCmd, isHTMAbort. rewrite Hp. by destruct Hf as [-> | ->].
Qed.

Lemma offset_aligned k a : 0 <= a < 2 ^ 64 -> 0 <= k < 31 -> a mod 2 ^ k = 0 -> Z.land a (u32 (u32 (2 ^ k) - 1)) = 0.
Proof.
  intros Ha Hk Hm. assert (0 < 2 ^ k < 2 ^ 31) by (split; [apply Z.pow_pos_nonneg|apply Z.pow_lt_mono_r]; lia).
  rewrite (uwrap_small 32 (2 ^ k)), uwrap_small by lia. rewrite Z.sub_1_r, <- Z.ones_equiv, Z.land_ones by lia. done.
Qed.

Lemma load_packet_Ok junk k d n : vsize d = 2 ^ n -> 0 <= n < 31 -> 0 <= pk_addr k < 2 ^ 64 -> pk_addr k mod 2 ^ n = 0 ->
  pk_size k = vsize d -> hasData (pk_cmd k) = true -> isMaskedWrite k = false ->
  (pk_flags k = 0x300 \/ pk_flags k = 0x301) ->
  load_packet junk k d (2 ^ n) = Ok (with_bytes d (bytesValid k) (set_flag DYNAMIC_DATA k)).
Proof.
  intros Hd Hn Ha Hm Hs Hc Hms Hf. unfold load_packet, allocate. rewrite Hc. cbn [orb].
  assert (fl_noneSet (pk_flags k) ANY_DATA = true) as -> by by destruct Hf as [-> | ->].
  unfold pk_getSize. assert (has_flag VALID_SIZE k = true) as -> by (unfold has_flag; by destruct Hf as [-> | ->]).
  cbn [ocheck obind]. set (k1 := set_flag DYNAMIC_DATA _).
  assert (has_flag VALID_SIZE k1 = true /\ has_flag VALID_ADDR k1 = true /\ has_flag ANY_DATA k1 = true) as (F1 & F2 & F3)
    by (unfold k1, has_flag; cbn; by destruct Hf as [-> | ->]).
  unfold setDataFromBlock, pk_getOffset, getAddr. rewrite F2. cbn [ocheck obind].
  change (pk_addr k1) with (pk_addr k). rewrite offset_aligned by done.
  unfold setData, getPtr, pk_getSize. rewrite F1, F3. change (isMaskedWrite k1) with (isMaskedWrite k). rewrite Hms.
  change (pk_size k1) with (pk_size k). change (pk_data k1) with (replicate (Z.to_nat (pk_size k)) junk).
  cbn [negb ocheck obind]. rewrite Hs, read_bytes_all. cbn [obind].
  rewrite write_bytes_Ok; [|lia|unfold vsize; rewrite length_replicate; lia]. cbn [obind].
  change (Z.to_nat 0) with 0%nat. rewrite splice_all; [done|]. rewrite length_replicate. unfold vsize. lia.
Qed.

Lemma wb_packet_Ok junk now b a d n : vsize d = 2 ^ n -> 0 <= n < 31 -> 0 <= a < 2 ^ 64 -> a mod 2 ^ n = 0 ->
  exists k, wb_packet junk now (2 ^ n) b a d = Ok k /\
    down_packet k (if isSet DirtyBit b then WritebackDirty else WritebackClean) a (_secure b) d /\ isBlockCached k = false.
Proof.
  intros Hd Hn Ha Hm. unfold wb_packet.
  destruct (blk_request_Ok now a (2 ^ n) wbRequestorId b) as (r & -> & E1 & E2 & E3 & E4 & E5). cbn [obind].
  rewrite new_Packet_Ok; [|done|destruct (_secure b); auto]. cbn [obind].
  rewrite (load_packet_Ok _ _ d n); try done.
  - eexists. split; [done|].
    assert (rq_isSecure r = _secure b) as Es by (unfold rq_isSecure; rewrite E5; by destruct (_secure b)).
    assert (isInstFetch r = false) as Ef by (unfold isInstFetch; rewrite E5; by destruct (_secure b)).
    assert (hasPaddr r = true) as Ep by (unfold hasPaddr; by rewrite E3).
    assert (rq_flags r = if _secure b then SECURE else 0) as Efl by (by rewrite E5).
    split; [|by destruct (isSet WritableBit b)].
    destruct (isSet WritableBit b); constructor; try constructor; cbn; rewrite ?E1, ?E2, ?Es; try done; lia.
  - destruct (isSet WritableBit b); cbn; by rewrite E1.
  - destruct (isSet WritableBit b); cbn; by rewrite E1.
  - destruct (isSet WritableBit b); cbn; lia.
  - destruct (isSet WritableBit b), (isSet DirtyBit b); done.
  - destruct (isSet WritableBit b), (isSet DirtyBit b); done.
  - destruct (isSet WritableBit b); auto.
Qed.

(** ** The cache *)
Definition sound s : Prop := tags_inv (tsys s) /\ acct (tsys s) (dataBlks s).

Record cc_touched s s' (e : loc) (o : object CacheBlk) (b : CacheBlk) : Prop := {
  ct_touched : touched (tsys s) (tsys s') e o b;
  ct_same : store_same s s';
}.

Lemma cc_touched_trans s1 s2 s3 e o b o' b' : cc_touched s1 s2 e o b -> base o' = base o ->
  cc_touched s2 s3 e o' b' -> cc_touched s1 s3 e o b'.
Proof. intros [T1 R1] Eb [T2 R2]. constructor; [by eapply touched_trans|by etrans]. Qed.

Lemma touched_refl st e o : entries (wld st) !! e = Some o -> touched st st e o (ext o).
Proof. intros He. constructor; [|done|done]. rewrite insert_id; [done|]. by destruct o. Qed.

Lemma cc_touched_refl s e o : entries (wld (tsys s)) !! e = Some o -> cc_touched s s e o (ext o).
Proof. intros He. constructor; [by apply touched_refl|done]. Qed.

Lemma cc_touched_lookup s s' e o b : cc_touched s s' e o b -> entries (wld (tsys s')) !! e = Some (mkObject (base o) b).
Proof. intros [T _]. by eapply touched_lookup. Qed.

Lemma cc_touched_count s s' e o b r w p : cc_touched (count r w p s) s' e o b -> cc_touched s s' e o b.
Proof. intros [T R]. constructor; [exact T|]. etrans; [|exact R]. done. Qed.

Lemma call_blk_run e f s o b : entries (wld (tsys s)) !! e = Some o -> f (ext o) = Ok b ->
  exists s', call_blk (TagBlk e) f s = Ok (tt, s') /\ cc_touched s s' e o b /\ writebacks s' = writebacks s.
Proof.
  intros He Hb. cbn [call_blk]. unfold onT. rewrite (modify_blk_run e _ _ o b He Hb). eexists. split; [done|].
  split; [|done]. by constructor; [constructor|].
Qed.

Lemma sound_call e f s o b s' : sound s -> entries (wld (tsys s)) !! e = Some o -> f (ext o) = Ok b ->
  call_blk (TagBlk e) f s = Ok (tt, s') -> same_identity (ext o) b -> blk_data b = blk_data (ext o) ->
  0 <= _tickInserted b <= MaxTick -> _srcRequestorId b = _srcRequestorId (ext o) ->
  sound s' /\ contents (tsys s') = contents (tsys s).
Proof.
  intros [Hi Hac] He Hb Hrun Hid Hd Ht Hr. destruct (call_blk_run e f s o b He Hb) as (s1 & E1 & T1 & _).
  rewrite Hrun in E1. injection E1 as <-. pose proof Hrun as Hrun'. cbn in Hrun'. apply onT_Ok_inv in Hrun' as (t & Et & ->).
  destruct (modify_blk_spec e f (tsys s) tt t Hi) as (Hi' & Hc & _); [|done|].
  { intros o' b' He' Hb'. rewrite He in He'. injection He' as <-. congruence. }
  split; [|done]. split; [done|]. destruct (ac_blk _ _ Hac e o He) as (_ & Hs & _).
  destruct T1 as [T1 _]. eapply acct_touched; try done. intros V. rewrite Hr. apply Hs. destruct Hid as (<- & _). done.
Qed.

Lemma blk_bytes_run e s o : acct (tsys s) (dataBlks s) -> entries (wld (tsys s)) !! e = Some o ->
  blk_bytes (TagBlk e) s = Ok (bytes_of s (ext o), s) /\ vsize (bytes_of s (ext o)) = blk_size s.
Proof.
  intros Hac He. destruct (ac_blk _ _ Hac e o He) as (_ & _ & off & d & Ho & Hd & Hv).
  assert (bytes_of s (ext o) = d) as -> by (unfold bytes_of; rewrite Ho; cbn; by rewrite Hd). split; [|done].
  unfold blk_bytes. rewrite (bind_Ok _ _ _ _ _ (get_blk_Ok e s o He)), Ho.
  rewrite (bind_Ok _ _ s off s eq_refl), (bind_Ok getS _ s s s eq_refl). by rewrite Hd.
Qed.

Lemma key_aligned st bytes e o a sec : tags_inv st -> acct st bytes -> entries (wld st) !! e = Some o ->
  key_of (indexingPolicy (tags st)) o = Some (a, sec) ->
  exists k, 2 <= k < 31 /\ blkSize (tags st) = 2 ^ k /\ 0 <= a < 2 ^ 64 /\ a mod 2 ^ k = 0 /\ sec = _secure (ext o) /\
    isValid (ext o) = true.
Proof.
  intros Hi Hac He Hk. destruct (ac_line _ _ Hac) as (k & Hk1 & Hk2 & Hk3). exists k.
  assert (isValid (ext o) = true) as V by (unfold key_of in Hk; by destruct (isValid (ext o))).
  pose proof (ti_blk _ Hi e o He) as B. destruct (bo_placed _ _ _ _ B V) as (addr & Hpl).
  rewrite (placed_key _ o addr (ti_ip _ Hi) V Hpl (bo_way _ _ _ _ B)) in Hk. injection Hk as <- <-.
  destruct Hpl as (Ha & _). unfold geom in Hk3. unfold block_of. rewrite Hk3.
  assert (0 < 2 ^ k) by (apply Z.pow_pos_nonneg; lia). pose proof (Z.mod_pos_bound addr (2 ^ k) ltac:(lia)).
  pose proof (Z.mod_le addr (2 ^ k) ltac:(lia) ltac:(lia)). split_and!; try done; try lia.
  by rewrite Zminus_mod_idemp_r, Z.sub_diag.
Qed.

(** The writable and the dirty bit are given up. *)
Definition downgraded (b : CacheBlk) : CacheBlk :=
  clearCoherenceBits DirtyBit (if isSet WritableBit b then clearCoherenceBits WritableBit b else b).

Lemma downgraded_data b : blk_data (downgraded b) = blk_data b /\ isValid (downgraded b) = isValid b /\
  _tickInserted (downgraded b) = _tickInserted b /\ has_extractor (downgraded b) = has_extractor b.
Proof. unfold downgraded. by destruct (isSet WritableBit b). Qed.

Lemma downgrade_run e s o : sound s -> entries (wld (tsys s)) !! e = Some o ->
  exists s', downgrade (TagBlk e) (ext o) s = Ok (tt, s') /\ cc_touched s s' e o (downgraded (ext o)) /\ sound s' /\
    writebacks s' = writebacks s.
Proof.
  intros Hs He. unfold downgrade, downgraded. destruct (ac_blk _ _ (proj2 Hs) e o He) as (Ht & _).
  assert (exists s1, (if isSet WritableBit (ext o) then call_blk (TagBlk e) (fun b => Ok (clearCoherenceBits WritableBit b)) else ret tt) s =
    Ok (tt, s1) /\ cc_touched s s1 e o (if isSet WritableBit (ext o) then clearCoherenceBits WritableBit (ext o) else ext o) /\
    sound s1 /\ writebacks s1 = writebacks s) as (s1 & E1 & T1 & Hs1 & W1).
  { destruct (isSet WritableBit (ext o)); [|exists s; split_and!; try done; by apply cc_touched_refl].
    destruct (call_blk_run e (fun b => Ok (clearCoherenceBits WritableBit b)) s o _ He eq_refl) as (s1 & E1 & T1 & W1).
    exists s1. split_and!; try done.
    by apply (sound_call e (fun b => Ok (clearCoherenceBits WritableBit b)) s o (clearCoherenceBits WritableBit (ext o)) s1). }
  rewrite (bind_Ok _ _ _ _ _ E1). pose proof (cc_touched_lookup _ _ _ _ _ T1) as He1.
  destruct (call_blk_run e (fun b => Ok (clearCoherenceBits DirtyBit b)) s1 _ _ He1 eq_refl) as (s2 & E2 & T2 & W2).
  exists s2. split; [done|]. split; [by eapply cc_touched_trans; [exact T1| |exact T2]|]. split; [|congruence].
  apply (sound_call e (fun b => Ok (clearCoherenceBits DirtyBit b)) s1 _ _ s2 Hs1 He1 eq_refl E2); try done. cbn. by destruct (isSet WritableBit (ext o)).
Qed.

(** ** Evictions *)
Context (junk : Z).

Lemma writebackBlk_run e s o a sec : sound s -> isReadOnly (cfg s) = false ->
  entries (wld (tsys s)) !! e = Some o -> key_of (indexingPolicy (tags (tsys s))) o = Some (a, sec) ->
  isSet DirtyBit (ext o) || writebackClean (cfg s) = true ->
  exists k s', writebackBlk junk (TagBlk e) s = Ok (k, s') /\
    down_packet k (if isSet DirtyBit (ext o) then WritebackDirty else WritebackClean) a sec (bytes_of s (ext o)) /\ isBlockCached k = false /\
    cc_touched s s' e o (downgraded (ext o)) /\ sound s' /\ writebacks s' = writebacks s.
Proof.
  intros Hs Hro He Hk Hd.
  destruct (key_aligned _ _ e o a sec (proj1 Hs) (proj2 Hs) He Hk) as (n & Hn & Hbs & Ha & Hm & -> & V).
  unfold writebackBlk. rewrite (bind_Ok getS _ s s s eq_refl), Hro. rewrite (bind_Ok _ _ s tt s eq_refl).
  rewrite (bind_Ok _ _ _ _ _ (get_blk_Ok e s o He)). rewrite V, Hd. cbn [andb]. rewrite (bind_Ok _ _ s tt s eq_refl).
  rewrite (bind_Ok _ _ s tt (count 0 1 0 s) eq_refl). set (s0 := count 0 1 0 s).
  rewrite (bind_Ok _ _ _ _ _ (cc_regenerate_Ok s0 e o a (_secure (ext o)) He Hk)).
  change (bytes_of s (ext o)) with (bytes_of s0 (ext o)).
  destruct (blk_bytes_run e s0 o (proj2 Hs) He) as [_ Hv]. change (blk_size s0) with (blkSize (tags (tsys s))) in Hv. rewrite Hbs in Hv.
  destruct (wb_packet_Ok junk (now s) (ext o) a (bytes_of s0 (ext o)) n Hv ltac:(lia) Ha Hm) as (k & Ek & Hdp & Hbc).
  unfold wb_packet in Ek. unfold blk_size. rewrite Hbs.
  apply obind_Ok_inv in Ek as (r & Er & Ek). apply obind_Ok_inv in Ek as (k0 & Ek0 & Ek).
  rewrite (bind_Ok _ _ s0 r s0) by (by rewrite Er). rewrite (bind_Ok _ _ s0 k0 s0) by (by rewrite Ek0).
  destruct (downgrade_run e s0 o Hs He) as (s1 & E1 & T1 & Hs1 & W1). rewrite (bind_Ok _ _ _ _ _ E1).
  destruct (blk_bytes_run e s1 _ (proj2 Hs1) (cc_touched_lookup _ _ _ _ _ T1)) as [Eb _]. rewrite (bind_Ok _ _ _ _ _ Eb).
  exists k, s1. split; [|split; [done|]; split; [done|]; split; [by eapply cc_touched_count|done]].
  assert (bytes_of s1 (downgraded (ext o)) = bytes_of s0 (ext o)) as Ebs.
  { unfold bytes_of. destruct (ct_same _ _ _ _ _ T1) as (_ & _ & _ & -> & _). by destruct (downgraded_data (ext o)) as [-> _]. }
  cbn [ext]. rewrite Ebs. by rewrite Ek.
Qed.

Lemma ce_packet_Ok now size b a : exists k, ce_packet junk now size b a = Ok k /\ evict_packet k CleanEvict a (_secure b) size /\ isBlockCached k = false.
Proof.
  unfold ce_packet. destruct (blk_request_Ok now a size wbRequestorId b) as (r & -> & E1 & E2 & E3 & E4 & E5). cbn [obind].
  rewrite new_Packet_Ok; [|done|destruct (_secure b); auto]. cbn [obind]. eexists. split; [done|].
  assert (rq_isSecure r = _secure b) as Es by (unfold rq_isSecure; rewrite E5; by destruct (_secure b)).
  split; [|done]. by constructor; cbn; rewrite ?E1, ?E2, ?Es.
Qed.

(** What is sent down for a block that leaves: a dirty one is written back with
    its bytes, a clean one at most announced. *)
Definition sent_down (b : CacheBlk) (a : Z) (d : list Z) (l : list Packet) : Prop :=
  Forall (fun k => isBlockCached k = false) l /\
  if isSet DirtyBit b then exists k, l = [k] /\ down_packet k WritebackDirty a (_secure b) d
  else (length l <= 1)%nat /\
    Forall (fun k => exists c, (c = WritebackClean \/ c = CleanEvict) /\ evict_packet k c a (_secure b) (vsize d)) l.

Lemma invalidateBlock_run e s o : sound s -> entries (wld (tsys s)) !! e = Some o -> isValid (ext o) = true ->
  exists s' b, invalidateBlock (TagBlk e) s = Ok (tt, s') /\ invalidated (ext o) b /\ cc_touched s s' e o b /\
    sound s' /\ writebacks s' = writebacks s.
Proof.
  intros [Hi Hac] He V. pose proof (ti_blk _ Hi e o He) as B. destruct (bo_placed _ _ _ _ B V) as (addr & Hpl).
  pose proof (placed_key _ o addr (ti_ip _ Hi) V Hpl (bo_way _ _ _ _ B)) as Hk.
  unfold invalidateBlock. rewrite (bind_Ok _ _ _ _ _ (get_blk_Ok e s o He)).
  set (p := if _prefetched (ext o) then 1 else 0).
  rewrite (bind_Ok _ _ s tt (count 0 0 p s)).
  2:{ unfold p. destruct (_prefetched (ext o)); [done|]. by rewrite count_0. }
  unfold updateBlockData. rewrite (bind_Ok _ _ _ tt (count 0 0 p s)).
  2:{ by rewrite (bind_Ok _ _ _ _ _ (cc_regenerate_Ok (count 0 0 p s) e o _ _ He Hk)). }
  destruct (invalidateBlk_run (tsys s) (dataBlks s) e o Hi Hac He V) as (t & b & Et & Hb & T).
  unfold onT. cbn [tsys count with_cstats]. rewrite Et. eexists _, b. split; [done|]. split; [done|].
  split; [by constructor|]. split; [|done]. split.
  - by apply invalidateBlk_spec in Et as (? & ? & _ & _ & ? & _).
  - destruct Hb as (Vb & _ & _ & _ & Db & Tb & _). destruct (ac_blk _ _ Hac e o He) as (Ht & _).
    eapply acct_touched; [exact Hac|done|exact T|by rewrite Tb|congruence|done].
Qed.

Lemma evictBlock_run e s o a sec : sound s -> isReadOnly (cfg s) = false ->
  entries (wld (tsys s)) !! e = Some o -> key_of (indexingPolicy (tags (tsys s))) o = Some (a, sec) ->
  exists s' b l, evictBlock junk (TagBlk e) s = Ok (tt, s') /\ invalidated (ext o) b /\ cc_touched s s' e o b /\
    sound s' /\ writebacks s' = writebacks s ++ l /\ sent_down (ext o) a (bytes_of s (ext o)) l.
Proof.
  intros Hs Hro He Hk. destruct (key_aligned _ _ e o a sec (proj1 Hs) (proj2 Hs) He Hk) as (n & _ & _ & _ & _ & -> & V).
  assert (exists pk s1 b1, (if isSet DirtyBit (ext o) || writebackClean (cfg s)
    then let* k := writebackBlk junk (TagBlk e) in ret (Some k)
    else if coherent (cfg s) then let* k := cleanEvictBlk junk (TagBlk e) in ret (Some k) else ret None) s = Ok (pk, s1) /\
    cc_touched s s1 e o b1 /\ sound s1 /\ writebacks s1 = writebacks s /\
    (b1 = downgraded (ext o) \/ b1 = ext o) /\
    sent_down (ext o) a (bytes_of s (ext o)) (match pk with Some k => [k] | None => [] end))
    as (pk & s1 & b1 & E1 & T1 & Hs1 & W1 & Hb1 & Hsent).
  { destruct (_ || _) eqn:Hd.
    - destruct (writebackBlk_run e s o a _ Hs Hro He Hk Hd) as (k & s1 & E & Hdp & Hbc & T & Hs1 & W). exists (Some k), s1, (downgraded (ext o)).
      split; [by rewrite (bind_Ok _ _ _ _ _ E)|]. split_and!; try done; [by left|].
      unfold sent_down. split; [by constructor|]. destruct (isSet DirtyBit (ext o)); [eauto|]. split; [done|]. constructor; [|done]. exists WritebackClean. split; [by left|apply Hdp].
    - apply orb_false_iff in Hd as [Hd Hw]. unfold sent_down. rewrite Hd. destruct (coherent (cfg s)).
      2:{ exists None, s, (ext o). split_and!; try done; [by apply cc_touched_refl|by right|cbn; lia]. }
      destruct (ce_packet_Ok (now s) (blk_size s) (ext o) a) as (k & Ek & Ck & Hbc).
      destruct (blk_bytes_run e s o (proj2 Hs) He) as [_ Hv].
      exists (Some k), s, (ext o). split; [|split_and!; try done; [by apply cc_touched_refl|by right|by constructor|]].
      2:{ constructor; [|done]. exists CleanEvict. rewrite Hv. auto. }
      unfold ce_packet in Ek. apply obind_Ok_inv in Ek as (r & Er & Ek).
      rewrite (bind_Ok _ _ s k s); [done|]. unfold cleanEvictBlk. rewrite (bind_Ok getS _ s s s eq_refl), Hw.
      rewrite (bind_Ok _ _ s tt s eq_refl), (bind_Ok _ _ _ _ _ (get_blk_Ok e s o He)), V, Hd.
      rewrite (bind_Ok _ _ s tt s eq_refl), (bind_Ok _ _ _ _ _ (cc_regenerate_Ok s e o _ _ He Hk)).
      rewrite (bind_Ok _ _ s r s) by (by rewrite Er). by rewrite Ek. }
  pose proof (cc_touched_lookup _ _ _ _ _ T1) as He1.
  assert (isValid b1 = true) as V1 by (destruct Hb1 as [-> | ->]; [by destruct (downgraded_data (ext o)) as (_ & -> & _)|done]).
  destruct (invalidateBlock_run e s1 _ Hs1 He1 V1) as (s2 & b2 & E2 & Hb2 & T2 & Hs2 & W2).
  assert (invalidated (ext o) b2) as Hb.
  { destruct Hb1 as [-> | ->]; [|done]. destruct (downgraded_data (ext o)) as (D1 & D2 & D3 & D4).
    destruct Hb2 as (?&?&?&?&?&?&?). cbn [ext] in *. split_and!; congruence. }
  assert (cc_touched s s2 e o b2) as T by (by eapply cc_touched_trans; [exact T1| |exact T2]).
  unfold evictBlock, evict_pkt. unfold bind at 1. rewrite (bind_Ok getS _ s s s eq_refl).
  rewrite (bind_Ok _ _ _ _ _ (get_blk_Ok e s o He)), (bind_Ok _ _ _ _ _ E1), (bind_Ok _ _ _ _ _ E2).
  destruct pk; eexists _, b2, _; (split; [done|]); (split; [done|]); (split; [by destruct T; constructor|]); (split; [done|]);
    (split; [|exact Hsent]); cbn; rewrite ?app_nil_r; congruence.
Qed.

(** The block [e] is free for another address: as it was when it was not valid,
    invalidated otherwise, with the packets [l] sent down. *)
Definition vacated s (o : object CacheBlk) (b : CacheBlk) (l : list Packet) : Prop :=
  match key_of (indexingPolicy (tags (tsys s))) o with
  | Some (a, sec) => invalidated (ext o) b /\ sent_down (ext o) a (bytes_of s (ext o)) l
  | None => b = ext o /\ l = []
  end.

Lemma key_None st e o : tags_inv st -> entries (wld st) !! e = Some o ->
  key_of (indexingPolicy (tags st)) o = None -> isValid (ext o) = false.
Proof.
  intros Hi He Hk. destruct (isValid (ext o)) eqn:V; [|done]. pose proof (ti_blk _ Hi e o He) as B.
  destruct (bo_placed _ _ _ _ B V) as (addr & Hpl).
  by rewrite (placed_key _ o addr (ti_ip _ Hi) V Hpl (bo_way _ _ _ _ B)) in Hk.
Qed.

(** The block [e] is vacated on the way from [s] to [s']. *)
Record vacates s s' (e : loc) (o : object CacheBlk) (b : CacheBlk) (l : list Packet) : Prop := {
  va_entry : entries (wld (tsys s)) !! e = Some o;
  va_touched : cc_touched s s' e o b;
  va_sound : sound s';
  va_sent : writebacks s' = writebacks s ++ l;
  va_blk : vacated s o b l;
  va_contents : contents (tsys s') = match key_of (indexingPolicy (tags (tsys s))) o with
    | Some k => delete k (contents (tsys s))
    | None => contents (tsys s)
    end;
}.

Lemma vacates_invalid s s' e o b l : tags_inv (tsys s) -> vacates s s' e o b l -> isValid b = false.
Proof.
  intros Hi [He _ _ _ Hv _]. unfold vacated in Hv. destruct (key_of _ o) as [[]|] eqn:Hk; [by destruct Hv as [[] _]|].
  destruct Hv as [-> _]. by apply (key_None _ _ _ Hi He).
Qed.

Lemma evictBlock_vacates e s o a sec : sound s -> isReadOnly (cfg s) = false ->
  entries (wld (tsys s)) !! e = Some o -> key_of (indexingPolicy (tags (tsys s))) o = Some (a, sec) ->
  exists s' b l, evictBlock junk (TagBlk e) s = Ok (tt, s') /\ vacates s s' e o b l.
Proof.
  intros Hs Hro He Hk. destruct (evictBlock_run e s o a sec Hs Hro He Hk) as (s' & b & l & E & Hb & T & Hs' & W & Hl).
  exists s', b, l. split; [done|]. destruct (evictBlock_spec junk e s o a sec _ _ (proj1 Hs) He Hk E) as (_ & _ & Hc & _).
  constructor; try done; unfold vacated; by rewrite Hk.
Qed.

Lemma handleEvictions_run v s o : sound s -> isReadOnly (cfg s) = false -> entries (wld (tsys s)) !! v = Some o ->
  exists s' b l, handleEvictions junk (fun _ _ => None) [TagBlk v] s = Ok (true, s') /\ vacates s s' v o b l.
Proof.
  intros Hs Hro He. unfold handleEvictions, check_evictions. cbn [foreach].
  destruct (key_of (indexingPolicy (tags (tsys s))) o) as [[a sec]|] eqn:Hk.
  - destruct (key_aligned _ _ v o a sec (proj1 Hs) (proj2 Hs) He Hk) as (n & _ & _ & _ & _ & _ & V).
    rewrite (bind_Ok _ _ s (Some true) s).
    2:{ rewrite (bind_Ok _ _ s (Continue (Some true)) s); [done|]. rewrite (bind_Ok _ _ _ _ _ (get_blk_Ok v s o He)), V.
        by rewrite (bind_Ok _ _ _ _ _ (cc_regenerate_Ok s v o _ _ He Hk)). }
    destruct (evictBlock_vacates v (count 1 0 0 s) o a sec Hs Hro He Hk) as (s1 & b & l & E1 & []).
    rewrite (bind_Ok _ _ s tt s1).
    2:{ rewrite (bind_Ok _ _ s tt (count 1 0 0 s) eq_refl). rewrite (bind_Ok _ _ _ (Continue tt) s1); [done|].
        rewrite (bind_Ok _ _ _ _ _ (get_blk_Ok v (count 1 0 0 s) o He)), V. by rewrite (bind_Ok _ _ _ _ _ E1). }
    exists s1, b, l. split; [done|]. constructor; try done. by eapply cc_touched_count.
  - pose proof (key_None _ _ _ (proj1 Hs) He Hk) as V. rewrite (bind_Ok _ _ s (Some false) s).
    2:{ rewrite (bind_Ok _ _ s (Continue (Some false)) s); [done|]. by rewrite (bind_Ok _ _ _ _ _ (get_blk_Ok v s o He)), V. }
    exists s, (ext o), []. split; [done|]. constructor; try done; [by apply cc_touched_refl|by rewrite app_nil_r| |];
      unfold vacated; by rewrite Hk.
Qed.

(** What an allocation does: some candidate is vacated and holds the new block. *)
Record allocated (pkt : Tags.Packet) s s' (e : loc) (o : object CacheBlk) (b : CacheBlk) (l : list Packet) : Prop := {
  al_step : exists s1 b0, vacates s s1 e o b0 l /\
    inserted (now s) (pkt_requestor pkt) (pkt_secure pkt) b0 b /\
    cc_touched s1 s' e (mkObject (base o) b0) b /\ writebacks s' = writebacks s1 /\
    contents (tsys s') = <[(block_of (geom (tsys s)) (pkt_addr pkt), pkt_secure pkt) := e]> (contents (tsys s1));
  al_sound : sound s';
}.

Lemma find_victim_run addr sec s : sound s -> 0 <= addr < 2 ^ 64 ->
  exists e o t, onT (findVictim (mkKey addr sec) 0) s = Ok ((Some e, [Some e]), with_tsys t s) /\ sound (with_tsys t s) /\
    entries (wld (tsys s)) !! e = Some o /\ e ∈ cands (tsys s) addr /\ cc_touched s (with_tsys t s) e o (ext o) /\
    contents t = contents (tsys s).
Proof.
  intros [Hi Hac] Ha.
  assert (victim_cands (tsys s) addr 0 = Ok (cands (tsys s) addr)) as Hl by (unfold victim_cands; by rewrite (ac_pm _ _ Hac)).
  assert (cands (tsys s) addr <> []) as Hne.
  { intros E. pose proof (assoc_pos _ Hi) as Hp. assert (length (cands (tsys s) addr) = 0%nat) as L by by rewrite E.
    unfold cands in L. rewrite length_fmap, length_seqZ in L. lia. }
  destruct (findVictim_spec addr sec 0 (tsys s) _ Hi Ha Hl)
    as (v & t & Ev & Hi1 & Hsh1 & Hc1 & Et1 & He1 & Hk1 & Hcase & Hin).
  destruct (cands_have_data (tsys s) _ _ Hi Ha (reflexivity _)) as [ds Hds].
  destruct (sp_victim _ (wld (tsys s)) _ ds Hne Hds) as (e & w & Ee).
  destruct Hcase as [(? & _)|(w' & _ & Ev' & Ew)]; [done|]. rewrite Ee in Ev'. injection Ev' as <- <-.
  destruct (cand_entry (tsys s) _ e Hi Ha (Hin e eq_refl)) as (o & He & _).
  exists e, o, t. split; [unfold onT; by rewrite Ev|]. split; [|split; [done|]; split; [by apply Hin|]; split; [|done]].
  - split; [done|]. apply (acct_same (tsys s)); [done|done|done|]. cbn. by rewrite Et1.
  - constructor; [|done]. constructor; cbn; rewrite ?Et1; try done. rewrite He1, insert_id; [done|]. by destruct o.
Qed.

Lemma vacates_from s s1 s2 e o b l : tags_inv (tsys s) -> cc_touched s s1 e o (ext o) -> writebacks s1 = writebacks s ->
  entries (wld (tsys s)) !! e = Some o -> contents (tsys s1) = contents (tsys s) -> vacates s1 s2 e o b l -> vacates s s2 e o b l.
Proof.
  intros Hi T1 W1 He Hc [He1 T2 Hs2 W2 Hv Hc2].
  destruct (th_params _ _ _ _ _ (ct_touched _ _ _ _ _ T1)) as (_ & _ & Ei & _). destruct (ct_same _ _ _ _ _ T1) as (_ & _ & _ & Ed & _).
  unfold vacated in Hv. rewrite Ei in Hv, Hc2. constructor; try done.
  - by eapply cc_touched_trans; [exact T1| |exact T2].
  - by rewrite W2, W1.
  - unfold vacated. destruct (key_of _ o) as [[]|]; [|done]. unfold bytes_of in *. by rewrite Ed in Hv.
  - by rewrite Hc2, Hc.
Qed.

(** With no outstanding request for a victim, an allocation succeeds. *)
Lemma allocateBlock_run pkt s : sound s -> isReadOnly (cfg s) = false -> 0 <= pkt_addr pkt < 2 ^ 64 ->
  0 <= pkt_requestor pkt < maxRequestors (tags (tsys s)) ->
  contents (tsys s) !! (block_of (geom (tsys s)) (pkt_addr pkt), pkt_secure pkt) = None ->
  exists e s' o b l, allocate_for junk (fun _ _ => None) pkt s = Ok (Some e, s') /\ allocated pkt s s' e o b l.
Proof.
  intros Hs Hro Ha Hreq Hn. pose proof (ac_pm _ _ (proj2 Hs)) as Hpm.
  destruct (find_victim_run (pkt_addr pkt) (pkt_secure pkt) s Hs Ha) as (e & o & t & Ev & Hs1 & He & Hin & T1 & Hc1).
  pose proof (cc_touched_lookup _ _ _ _ _ T1) as He1. replace (mkObject (base o) (ext o)) with o in He1 by (by destruct o).
  destruct (handleEvictions_run e (with_tsys t s) o Hs1 Hro He1) as (s2 & b0 & l & E2 & Hvac).
  apply (vacates_from s) in Hvac; [|apply Hs|done|done|done|done].
  pose proof (va_touched _ _ _ _ _ _ Hvac) as T12. pose proof (va_sound _ _ _ _ _ _ Hvac) as Hs2.
  pose proof (cc_touched_lookup _ _ _ _ _ T12) as He2. pose proof T12 as [[_ Et2 Hp2] R2].
  pose proof (vacates_invalid _ _ _ _ _ _ (proj1 Hs) Hvac) as V0.
  destruct (insertBlock_run (tsys s2) (dataBlks s2) e _ pkt (proj1 Hs2) (proj2 Hs2) He2 V0) as (t3 & b & E3 & Hins & T3).
  { by destruct Hp2 as (_ & -> & _). }
  assert (allocate_for junk (fun _ _ => None) pkt s = Ok (Some e, with_tsys t3 s2)) as Hrun.
  { unfold allocate_for. rewrite (bind_Ok getS _ s s s eq_refl), Hpm, (bind_Ok _ _ _ _ _ Ev). cbn [fst snd].
    rewrite (bind_Ok _ _ _ [e] (with_tsys t s) eq_refl), (bind_Ok _ _ _ _ _ E2).
    by rewrite (bind_Ok _ _ s2 tt (with_tsys t3 s2)) by (unfold onT; by rewrite E3). }
  exists e, (with_tsys t3 s2), o, b, l. split; [exact Hrun|].
  assert (geom (tsys s2) = geom (tsys s) /\ cands (tsys s2) = cands (tsys s)) as [Eg Ec]
    by (unfold cands, geom; by destruct Hp2 as (_ & _ & -> & _)).
  destruct (insertBlock_spec pkt e (tsys s2) tt t3 (proj1 Hs2) Ha) as (Hi3 & _ & Hc3); [by rewrite Ec| |done|].
  { rewrite Eg, (va_contents _ _ _ _ _ _ Hvac). destruct (key_of _ o); [by apply lookup_delete_None; right|done]. }
  destruct Hins as (I1 & I2 & I3 & I4 & I5 & I6 & I7 & I8). cbn [ext] in *. pose proof (ac_tick _ _ (proj2 Hs2)) as Htick.
  constructor.
  - exists s2, b0. split; [done|]. split; [unfold inserted, now; rewrite <- Et2; by split_and!|]. split; [by constructor|].
    split; [done|]. by rewrite <- Eg.
  - split; [done|]. eapply acct_touched; [exact (proj2 Hs2)|exact He2|exact T3|by rewrite I6| |done].
    intros _. rewrite I7. destruct Hp2 as (_ & Em & _). pose proof (ac_max _ _ (proj2 Hs2)).
    rewrite (swrap_small 32) by lia. lia.
Qed.
End Total.
