(* ===== verification/ClassicAccess.v ===== *)
(** Accesses to a classic cache in atomic mode: [BaseCache::access],
    [satisfyRequest] and [recvAtomic] ([mem/cache/base.cc]) with what [Cache]
    and [NoncoherentCache] ([cache.cc], [noncoherent_cache.cc]) make of them,
    without a compressor.

    [send] is [memSidePort.sendAtomic]: the packet that comes back, the latency
    in ticks and the state of what is below; [above] is what a snoop sent to the
    caches above makes of a packet ([cpuSidePort.sendAtomicSnoop]).  A packet
    that is modified in place is passed in and returned; a miss packet shares
    the request of the packet it was made for. *)
From Stdlib Require Import ZArith Lia Bool.
From stdpp Require Import base numbers gmap list.
From S2P Require Import Prelude ReplBase Bitfield Indexing CacheBlk Partition Tags Bytes MemRequest MemPacket Clocked ClassicCache.
Local Open Scope Z_scope.

(** What [access] leaves: its result, the block pointer, the latency and the packet. *)
Record access_result := mkAccess {
  ar_satisfied : bool;
  ar_blk : option blk_ptr;
  ar_lat : Z;
  ar_pkt : MemPacket.Packet;
}.

(** What the locks of a block see of a request. *)
Definition lock_request (r : MemRequest.Request) : outcome CacheBlk.Request :=
  let? c := MemRequest.contextId r in
  let? a := MemRequest.getPaddr r in
  let? n := MemRequest.getSize r in Ok (mkRequest a n c).

(** The request [checkWrite] works with; the locks read the context of a plain
    write only when they meet its range. *)
Definition write_request (llsc : bool) (r : MemRequest.Request) (b : CacheBlk) : outcome CacheBlk.Request :=
  match lockList b with
  | [] => Ok (mkRequest 0 0 0)
  | _ =>
      if llsc then lock_request r else
      let? a := MemRequest.getPaddr r in
      let? n := MemRequest.getSize r in
      if existsb (fun l => CacheBlk.intersects l (mkRequest a n 0)) (lockList b) then lock_request r
      else Ok (mkRequest a n 0)
  end.

Section Access.
Context {P D I : Type} {RP : ReplacementPolicy P D} {IP : IndexingPolicy I}.
#[local] Abbreviation S := (cc_sys P D I).
Context (junk : Z) (mshr : Z -> bool -> option MSHRView) (pid_of : Packet -> Z).

(** ** Counters and latencies *)
Definition bump_stat (pkt : Packet) (v : gmap (Z * Z) Z) : gmap (Z * Z) Z :=
  let k := (toInt (pk_cmd pkt), rq_requestorId (pk_req pkt)) in
  <[k := default 0 (v !! k) + 1]> v.

Definition incHitCount (pkt : Packet) : M S unit :=
  let* s := getS in
  do* checkM (rq_requestorId (pk_req pkt) <? maxRequestors (tags (tsys s))) AssertFailed ;;
  let c := cstats s in
  putS (with_cstats (mkCacheStats (replacements c) (writebackCount c) (prefetchUnused c) (bump_stat pkt (hits c))
    (misses c) (missCount c)) s).

Definition incMissCount (pkt : Packet) : M S unit :=
  let* s := getS in
  do* checkM (rq_requestorId (pk_req pkt) <? maxRequestors (tags (tsys s))) AssertFailed ;;
  let c := cstats s in
  putS (with_cstats (mkCacheStats (replacements c) (writebackCount c) (prefetchUnused c) (hits c)
    (bump_stat pkt (misses c)) (if missCount c =? 0 then 0 else missCount c - 1)) s).

Definition calculateTagOnlyLatency (delay lookup_lat : Z) : M S Z :=
  let* s := getS in
  let* n := lift (ticksToCycles delay (clk s)) in ret (u64 (n + lookup_lat)).

Definition calculateAccessLatency (blk : option blk_ptr) (delay lookup_lat : Z) : M S Z :=
  match blk with
  | Some p =>
      let* s := getS in
      let* n := lift (ticksToCycles delay (clk s)) in
      let lat := if c_sequentialAccess (cfg s) then u64 (u64 (n + lookup_lat) + dataLatency (cfg s))
        else u64 (n + Z.max lookup_lat (dataLatency (cfg s))) in
      let tick := u64 (now s + delay) in
      let* b := get_blk p in
      let* when_ready := lift (getWhenReady b) in
      if tick <? when_ready then
        let* w := lift (ticksToCycles (u64 (when_ready - tick)) (clk s)) in
        ret (if lat <? w then u64 (lat + w) else lat)
      else ret lat
  | None => calculateTagOnlyLatency delay lookup_lat
  end.

(** ** Satisfying a request from a block *)
Definition cmpAndSwap (p : blk_ptr) (pkt : Packet) : M S Packet :=
  do* checkM (isRequest (pk_cmd pkt)) AssertFailed ;;
  let* s := getS in
  let* offset := lift (pk_getOffset (blk_size s) pkt) in
  let offset := i32 offset in
  let* n := lift (pk_getSize pkt) in
  do* checkM (n <=? 8) AssertFailed ;;
  do* regenerateBlkAddr p ;;
  let* overwrite_val := lift (writeData (replicate 8 junk) 0 pkt) in
  let* d := blk_bytes p in
  let* pkt := lift (setData d offset pkt) in
  let* overwrite_mem := lift (swap_allowed pkt d offset) in
  do* (if overwrite_mem : bool then
    let* v := lift (read_bytes overwrite_val 0 n) in
    let* d := lift (write_bytes d offset v) in
    do* put_bytes p d ;;
    call_blk p (setCoherenceBits DirtyBit)
  else ret tt) ;;
  ret pkt.

(** The swap of an atomic operation. *)
Definition atomic_swap (p : blk_ptr) (pkt : Packet) : M S Packet :=
  do* regenerateBlkAddr p ;;
  let* a := lift (getAddr pkt) in
  let* s := getS in
  let offset := extractBlkOffset (tags (tsys s)) a in
  let* d := blk_bytes p in
  let* pkt := lift (setData d offset pkt) in
  let* d := lift (atomic_op pkt d offset) in
  do* put_bytes p d ;;
  do* call_blk p (setCoherenceBits DirtyBit) ;;
  ret pkt.

(** A write: [checkWrite], the update of the data and the dirty bit. *)
Definition satisfy_write (p : blk_ptr) (pkt : Packet) : M S Packet :=
  let* b := get_blk p in
  do* checkM (isSet WritableBit b) AssertFailed ;;
  let* r := lift (write_request (isLLSC (pk_cmd pkt)) (pk_req pkt) b) in
  let* c := lift (checkWrite (isWrite (pk_cmd pkt)) (isLLSC (pk_cmd pkt)) r b) in
  do* call_blk p (fun _ => Ok c.2) ;;
  let pkt := match c.1.2 with Some x => with_req (setExtraData x (pk_req pkt)) pkt | None => pkt end in
  do* (if c.1.1 : bool then updateBlockData p (Some pkt) else ret tt) ;;
  do* call_blk p (setCoherenceBits DirtyBit) ;;
  ret pkt.

Definition satisfy_read (p : blk_ptr) (pkt : Packet) : M S Packet :=
  do* (if isLLSC (pk_cmd pkt) then
    let* r := lift (lock_request (pk_req pkt)) in call_blk p (CacheBlk.trackLoadLocked true r)
  else ret tt) ;;
  do* checkM (hasRespData (pk_cmd pkt)) AssertFailed ;;
  let* s := getS in
  let* d := blk_bytes p in
  lift (setDataFromBlock d (blk_size s) pkt).

(** [BaseCache::satisfyRequest]. *)
Definition base_satisfyRequest (pkt : Packet) (blk : option blk_ptr) : M S Packet :=
  do* checkM (isRequest (pk_cmd pkt)) AssertFailed ;;
  let* p := lift (oget AssertFailed blk) in
  let* b := get_blk p in
  do* checkM (isValid b) AssertFailed ;;
  let* s := getS in
  let* o := lift (pk_getOffset (blk_size s) pkt) in
  let* n := lift (pk_getSize pkt) in
  do* checkM (u64 (o + n) <=? blk_size s) AssertFailed ;;
  if bool_decide (pk_cmd pkt = SwapReq) then
    if isAtomic (pk_req pkt) then atomic_swap p pkt else cmpAndSwap p pkt
  else if isWrite (pk_cmd pkt) then satisfy_write p pkt
  else if isRead (pk_cmd pkt) then satisfy_read p pkt
  else if isUpgrade (pk_cmd pkt) then
    do* checkM (negb (hasSharers pkt)) AssertFailed ;;
    if isSet DirtyBit b then
      let* pkt := lift (setCacheResponding pkt) in
      do* call_blk p (fun b => Ok (clearCoherenceBits DirtyBit b)) ;; ret pkt
    else ret pkt
  else if isClean (pk_cmd pkt) then
    do* call_blk p (fun b => Ok (clearCoherenceBits DirtyBit b)) ;; ret pkt
  else
    do* checkM (isInvalidate (pk_cmd pkt)) AssertFailed ;;
    do* invalidateBlock p ;; ret pkt.

(** What [Cache::satisfyRequest] adds for a read of a cache above. *)
Definition pass_ownership (pkt : Packet) (p : blk_ptr) (deferred_response pending_downgrade : bool) : M S Packet :=
  let* s := getS in
  let* n := lift (pk_getSize pkt) in
  do* checkM (n =? blk_size s) AssertFailed ;;
  let* b := get_blk p in
  let* nw := lift (pk_needsWritable pkt) in
  if nw : bool then
    do* checkM (bool_decide (pk_cmd pkt = ReadExReq) || bool_decide (pk_cmd pkt = SCUpgradeFailReq)) AssertFailed ;;
    do* checkM (negb (hasSharers pkt)) AssertFailed ;;
    if isSet DirtyBit b then
      let* pkt := lift (setCacheResponding pkt) in
      do* call_blk p (fun b => Ok (clearCoherenceBits DirtyBit b)) ;; ret pkt
    else ret pkt
  else if isSet WritableBit b && negb pending_downgrade && negb (hasSharers pkt) &&
      negb (bool_decide (pk_cmd pkt = ReadCleanReq)) then
    if isSet DirtyBit b then
      if negb deferred_response then
        let* pkt := lift (setCacheResponding pkt) in
        do* call_blk p (fun b => Ok (clearCoherenceBits DirtyBit b)) ;; ret pkt
      else ret (setHasSharers pkt)
    else ret pkt
  else ret (setHasSharers pkt).

(** [satisfyRequest] of both caches, with the default arguments. *)
Definition satisfyRequest (pkt : Packet) (blk : option blk_ptr) : M S Packet :=
  let* s := getS in
  if coherent (cfg s) then
    let* pkt := base_satisfyRequest pkt blk in
    if isRead (pk_cmd pkt) && fromCache (pk_cmd pkt) then
      let* p := lift (oget NullDeref blk) in pass_ownership pkt p false false
    else ret pkt
  else
    do* checkM (isRead (pk_cmd pkt) || isWrite (pk_cmd pkt)) AssertFailed ;;
    base_satisfyRequest pkt blk.

(** ** [BaseCache::access] *)
(** The first entry of the write buffer for a block, and what is around it. *)
Fixpoint split_match (size addr : Z) (sec : bool) (l : list Packet) :
    outcome (option (list Packet * Packet * list Packet)) :=
  match l with
  | [] => Ok None
  | k :: l' =>
      let? b := (if isUncacheable (pk_req k) then Ok false else matchBlockAddr addr sec size k) in
      if b : bool then Ok (Some ([], k, l')) else
      let? o := split_match size addr sec l' in
      Ok (match o with Some (l1, x, l2) => Some (k :: l1, x, l2) | None => None end)
  end.

Definition put_buffer (l : list Packet) : M S unit :=
  modifyS (fun s => with_queues l (tempBlockWriteback s) (eventScheduled s) (writebacks s) s).

(** An eviction of a cache above that meets a writeback in the write buffer:
    the latency when the access is done. *)
Definition evict_conflict (pkt : Packet) (tag_latency : Z) : M S (option Z) :=
  let* s := getS in
  let* a := lift (getAddr pkt) in
  let* sec := lift (isSecure pkt) in
  let* m := lift (split_match (blk_size s) a sec (writeBuffer s)) in
  match m with
  | None => ret None
  | Some (l1, wbPkt, l2) =>
      do* checkM (isWriteback (pk_cmd wbPkt)) AssertFailed ;;
      if isCleanEviction pkt then
        do* put_buffer (l1 ++ clearBlockCached wbPkt :: l2) ;;
        let* lat := calculateTagOnlyLatency (headerDelay pkt) tag_latency in ret (Some lat)
      else
        do* checkM (bool_decide (pk_cmd pkt = WritebackDirty)) AssertFailed ;;
        do* put_buffer (l1 ++ l2) ;; ret None
  end.

(** The block of a writeback that missed, allocated and readable. *)
Definition allocate_readable (pkt : Packet) : M S (option blk_ptr) :=
  let* r := allocateBlock junk mshr pid_of pkt in
  match r with
  | None => do* incMissCount pkt ;; ret None
  | Some e => do* call_blk (TagBlk e) (setCoherenceBits ReadableBit) ;; ret (Some (TagBlk e))
  end.

(** The end of a writeback: the data is written, and ready when it has come in. *)
Definition write_through_block (p : blk_ptr) (pkt : Packet) (tag_latency : Z) : M S unit :=
  do* checkM (negb (needsResponse (pk_cmd pkt))) AssertFailed ;;
  do* updateBlockData p (Some pkt) ;;
  do* incHitCount pkt ;;
  let* s := getS in
  let* edge := cc_clockEdge (fillLatency (cfg s)) in
  call_blk p (setWhenReady (u64 (u64 (edge + headerDelay pkt) +
    Z.max (cyclesToTicks tag_latency (clk s)) (payloadDelay pkt)))).

Definition access_writeback (pkt : Packet) (blk : option blk_ptr) (lat tag_latency : Z) : M S access_result :=
  let* s := getS in
  let* n := lift (pk_getSize pkt) in
  do* checkM (blk_size s =? n) AssertFailed ;;
  let* a := lift (getAddr pkt) in
  let* sec := lift (isSecure pkt) in
  if bool_decide (pk_cmd pkt = WritebackClean) && (match mshr a sec with Some _ => true | None => false end)
  then ret (mkAccess true blk lat pkt)
  else
    let* b := match blk with Some p => ret (Some p) | None => allocate_readable pkt end in
    match b with
    | None => ret (mkAccess false None lat pkt)
    | Some p =>
        do* (if bool_decide (pk_cmd pkt = WritebackDirty) then call_blk p (setCoherenceBits DirtyBit) else ret tt) ;;
        do* (if negb (hasSharers pkt) then call_blk p (setCoherenceBits WritableBit) else ret tt) ;;
        do* write_through_block p pkt tag_latency ;;
        ret (mkAccess true (Some p) lat pkt)
    end.

Definition access_writeclean (pkt : Packet) (blk : option blk_ptr) (lat tag_latency : Z) : M S access_result :=
  let* s := getS in
  let* n := lift (pk_getSize pkt) in
  do* checkM (blk_size s =? n) AssertFailed ;;
  let* b := match blk with
    | Some p => ret (Some p)
    | None => if writeThrough pkt then ret None else allocate_readable pkt
    end in
  match b with
  | None => ret (mkAccess false None lat pkt)
  | Some p =>
      do* (if negb (writeThrough pkt) then call_blk p (setCoherenceBits DirtyBit) else ret tt) ;;
      do* write_through_block p pkt tag_latency ;;
      ret (mkAccess (negb (writeThrough pkt)) (Some p) lat pkt)
  end.

(** Whether the block can satisfy the request as it is. *)
Definition blk_serves (pkt : Packet) (blk : option blk_ptr) : M S bool :=
  match blk with
  | None => ret false
  | Some p =>
      let* nw := lift (pk_needsWritable pkt) in
      let* b := get_blk p in
      ret (if nw : bool then isSet WritableBit b else isSet ReadableBit b)
  end.

Definition access_normal (pkt : Packet) (blk : option blk_ptr) (tag_latency : Z) : M S access_result :=
  let* ok := blk_serves pkt blk in
  if ok : bool then
    do* incHitCount pkt ;;
    let* lat := (if isRead (pk_cmd pkt) then calculateAccessLatency blk (headerDelay pkt) tag_latency
      else calculateTagOnlyLatency (headerDelay pkt) tag_latency) in
    let* pkt := satisfyRequest pkt blk in
    do* maintainClusivity (fromCache (pk_cmd pkt)) blk ;;
    ret (mkAccess true blk lat pkt)
  else
    do* incMissCount pkt ;;
    let* lat := calculateAccessLatency blk (headerDelay pkt) tag_latency in
    if (match blk with None => true | Some _ => false end) && isLLSC (pk_cmd pkt) && isWrite (pk_cmd pkt) then
      ret (mkAccess true blk lat (with_req (setExtraData 0 (pk_req pkt)) pkt))
    else ret (mkAccess false blk lat pkt).

Definition base_access (pkt : Packet) (lat : Z) : M S access_result :=
  do* checkM (isRequest (pk_cmd pkt)) AssertFailed ;;
  let* s := getS in
  do* checkM (negb (isReadOnly (cfg s) && isWrite (pk_cmd pkt))) AssertFailed ;;
  let* k := lift (tag_packet pid_of pkt) in
  let* r := onT (accessBlock k) in
  let blk := TagBlk <$> r.1 in
  let tag_latency := r.2 in
  if isCacheMaintenance (pk_req pkt) then
    let* lat := calculateTagOnlyLatency (headerDelay pkt) tag_latency in ret (mkAccess false blk lat pkt)
  else
    let* c := (if isEviction (pk_cmd pkt) then evict_conflict pkt tag_latency else ret None) in
    match c with
    | Some lat => ret (mkAccess true blk lat pkt)
    | None =>
        let* lat := (if isWrite (pk_cmd pkt) then calculateTagOnlyLatency (headerDelay pkt) tag_latency else ret lat) in
        if isWriteback (pk_cmd pkt) then access_writeback pkt blk lat tag_latency
        else if bool_decide (pk_cmd pkt = CleanEvict) then
          let* lat := calculateTagOnlyLatency (headerDelay pkt) tag_latency in
          ret (mkAccess (match blk with Some _ => true | None => false end) blk lat pkt)
        else if bool_decide (pk_cmd pkt = WriteClean) then access_writeclean pkt blk lat tag_latency
        else access_normal pkt blk tag_latency
    end.

(** [Cache::access] on an uncacheable request. *)
Definition access_uncacheable (pkt : Packet) : M S access_result :=
  do* checkM (isRequest (pk_cmd pkt)) AssertFailed ;;
  let* s := getS in
  do* checkM (negb (isReadOnly (cfg s) && isWrite (pk_cmd pkt))) AssertFailed ;;
  let* a := lift (getAddr pkt) in
  let* sec := lift (isSecure pkt) in
  let* r := onT (findBlock (mkKey a sec)) in
  do* match r with
      | Some e =>
          let* b := get_blk (TagBlk e) in
          if isValid b then evictBlock junk (TagBlk e) else ret tt
      | None => ret tt
      end ;;
  ret (mkAccess false None (c_lookupLatency (cfg s)) pkt).

(** [access] of both caches. *)
Definition access (pkt : Packet) (lat : Z) : M S access_result :=
  let* s := getS in
  if coherent (cfg s) then
    if isUncacheable (pk_req pkt) then access_uncacheable pkt else base_access pkt lat
  else
    let* r := base_access pkt lat in
    do* (if isWriteback (pk_cmd (ar_pkt r)) || bool_decide (pk_cmd (ar_pkt r) = WriteClean) then
      let* p := lift (oget AssertFailed (ar_blk r)) in
      let* b := get_blk p in
      do* checkM (isValid b) AssertFailed ;;
      call_blk p (setCoherenceBits WritableBit)
    else ret tt) ;;
    ret r.

(** ** Atomic mode *)
Context {B : Type} (send : Packet -> B -> outcome (Packet * Z * B)).
Context (above : Packet -> Packet) (forwardSnoops : bool) (writeAllocator : option bool).
#[local] Abbreviation T := (S * B)%type.

Definition onC {A} (m : M S A) : M T A :=
  fun t => match m t.1 with
    | Ok (a, s) => Ok (a, (s, t.2))
    | Fault f => Fault f
    end.

Definition sendAtomic (pkt : Packet) : M T (Packet * Z) :=
  fun t => match send pkt t.2 with
    | Ok (p, lat, b) => Ok ((p, lat), (t.1, b))
    | Fault f => Fault f
    end.

(** The body of the loop of [doWritebacksAtomic]. *)
Definition writeback_atomic (wbPkt : Packet) : M T unit :=
  let* s := onC getS in
  if coherent (cfg s) then
    let wbPkt := if forwardSnoops then above wbPkt else wbPkt in
    if forwardSnoops && isBlockCached wbPkt then
      if bool_decide (pk_cmd wbPkt = WritebackDirty) || bool_decide (pk_cmd wbPkt = WriteClean)
      then do* sendAtomic wbPkt ;; ret tt
      else ret tt
    else do* sendAtomic wbPkt ;; ret tt
  else do* sendAtomic wbPkt ;; ret tt.

Definition doWritebacksAtomic : M T unit :=
  let* s := onC getS in
  foreach (writebacks s) (fun _ wbPkt =>
    do* writeback_atomic wbPkt ;;
    do* onC (modifyS (fun s => with_queues (writeBuffer s) (tempBlockWriteback s) (eventScheduled s) (tail (writebacks s)) s)) ;;
    ret (Continue tt)) tt.

(** The list of the call is its own. *)
Definition writebackTempBlockAtomic : M T unit :=
  let* s := onC getS in
  let* k := lift (oget AssertFailed (tempBlockWriteback s)) in
  do* writeback_atomic k ;;
  onC (modifyS (fun s => with_queues (writeBuffer s) None (eventScheduled s) (writebacks s) s)).

(** [writebackTempBlockAtomicEvent] is processed. *)
Definition process_event : M T unit :=
  do* onC (modifyS (fun s => with_queues (writeBuffer s) (tempBlockWriteback s) false (writebacks s) s)) ;;
  writebackTempBlockAtomic.

Definition allocOnFill (cmd : Command) : M S bool :=
  let* s := getS in
  ret (negb (mostly_exclusive (cfg s)) || bool_decide (cmd = WriteLineReq) || bool_decide (cmd = ReadReq) ||
    bool_decide (cmd = WriteReq) || isSWPrefetch cmd || isHWPrefetch cmd || isLLSC cmd).

(** [createMissPacket] of the coherent cache; no packet when the request is forwarded. *)
Definition miss_command (cpu_pkt : Packet) (blk : option CacheBlk) (needsWritable is_whole_line_write : bool) :
    M S (option Command) :=
  let* s := getS in
  do* checkM (negb (isEviction (pk_cmd cpu_pkt))) AssertFailed ;;
  let blkValid := match blk with Some b => isValid b | None => false end in
  let writable := match blk with Some b => isSet WritableBit b | None => false end in
  if isUncacheable (pk_req cpu_pkt) || (negb blkValid && isUpgrade (pk_cmd cpu_pkt)) ||
     bool_decide (pk_cmd cpu_pkt = InvalidateReq) || isClean (pk_cmd cpu_pkt)
  then ret None
  else
    do* checkM (needsResponse (pk_cmd cpu_pkt)) AssertFailed ;;
    do* checkM (negb (bool_decide (pk_cmd cpu_pkt = WriteLineReq)) || is_whole_line_write) AssertFailed ;;
    if is_whole_line_write then
      do* checkM (negb blkValid || negb writable) AssertFailed ;; ret (Some InvalidateReq)
    else if blkValid then
      do* checkM needsWritable AssertFailed ;;
      do* checkM (negb writable) AssertFailed ;;
      ret (Some (if isLLSC (pk_cmd cpu_pkt) then SCUpgradeReq else UpgradeReq))
    else if bool_decide (pk_cmd cpu_pkt = SCUpgradeFailReq) || bool_decide (pk_cmd cpu_pkt = StoreCondFailReq) then
      ret (Some SCUpgradeFailReq)
    else ret (Some (if needsWritable then ReadExReq
      else if isReadOnly (cfg s) || mostly_exclusive (cfg s) then ReadCleanReq else ReadSharedReq)).

Definition createMissPacket (cpu_pkt : Packet) (blk : option blk_ptr) (needsWritable is_whole_line_write : bool) :
    M S (option Packet) :=
  let* s := getS in
  let* b := match blk with Some p => let* b := get_blk p in ret (Some b) | None => ret None end in
  let* c := (if coherent (cfg s) then miss_command cpu_pkt b needsWritable is_whole_line_write
    else
      do* checkM (needsResponse (pk_cmd cpu_pkt)) AssertFailed ;;
      do* checkM (negb (match b with Some b => isValid b | None => false end)) AssertFailed ;;
      ret (Some ReadReq)) in
  match c with
  | None => ret None
  | Some cmd =>
      let pkt := new_Packet_blk (pk_req cpu_pkt) cmd (blk_size s) in
      let pkt := if coherent (cfg s) && hasSharers cpu_pkt && negb needsWritable then setHasSharers pkt else pkt in
      let* a := lift (getAddr pkt) in
      let* ba := lift (getBlockAddr (blk_size s) pkt) in
      do* checkM (a =? ba) AssertFailed ;;
      let* pkt := lift (MemPacket.allocate junk pkt) in
      ret (Some pkt)
  end.

Definition c_ticksToCycles (t : Z) : M T Z :=
  let* s := onC getS in lift (ticksToCycles t (clk s)).

(** The latency, the block and the packet after a miss. *)
Definition nc_handleAtomicReqMiss (pkt : Packet) (blk : option blk_ptr) : M T (Z * option blk_ptr * Packet) :=
  let* s := onC getS in
  let* wl := lift (isWholeLineWrite (blk_size s) pkt) in
  let* o := onC (createMissPacket pkt blk true wl) in
  let* bus_pkt := lift (oget NullDeref o) in
  let* r := sendAtomic bus_pkt in
  let bus_pkt := r.1 in
  let pkt := with_req (pk_req bus_pkt) pkt in
  let* latency := c_ticksToCycles r.2 in
  do* checkM (isResponse (pk_cmd bus_pkt)) AssertFailed ;;
  do* checkM (isRead (pk_cmd bus_pkt)) AssertFailed ;;
  do* checkM (negb (bool_decide (pk_cmd pkt = UpgradeResp))) AssertFailed ;;
  do* checkM (negb (isInvalidate (pk_cmd bus_pkt))) AssertFailed ;;
  do* checkM (negb (hasSharers bus_pkt)) AssertFailed ;;
  let* blk := (if negb (isError (pk_cmd bus_pkt)) then
    let* al := onC (allocOnFill (pk_cmd bus_pkt)) in
    let* p := onC (handleFill junk mshr pid_of bus_pkt blk al) in ret (Some p)
  else ret blk) in
  let* pkt := onC (satisfyRequest pkt blk) in
  do* onC (maintainClusivity true blk) ;;
  let* pkt := (if negb (isWriteback (pk_cmd pkt)) && negb (bool_decide (pk_cmd pkt = WriteClean)) then
    do* checkM (needsResponse (pk_cmd pkt)) AssertFailed ;;
    let* pkt := lift (makeResponse pkt) in
    if isError (pk_cmd bus_pkt) then lift (copyError bus_pkt pkt) else ret pkt
  else ret pkt) in
  ret (latency, blk, pkt).

(** What the coherent cache makes of the response to its miss packet. *)
Definition c_response (pkt bus_pkt : Packet) (blk : option blk_ptr) (is_invalidate : bool) :
    M T (option blk_ptr * bool * Packet) :=
  let* s := onC getS in
  do* checkM (isResponse (pk_cmd bus_pkt)) AssertFailed ;;
  if isError (pk_cmd bus_pkt) then
    let* pkt := lift (makeResponse pkt) in
    let* pkt := lift (copyError bus_pkt pkt) in ret (blk, is_invalidate, pkt)
  else
    let* wl := lift (isWholeLineWrite (blk_size s) pkt) in
    if wl : bool then
      let* al := onC (allocOnFill (pk_cmd pkt)) in
      let* p := onC (handleFill junk mshr pid_of bus_pkt blk (al && default true writeAllocator)) in
      let* pkt := onC (satisfyRequest pkt (Some p)) in ret (Some p, false, pkt)
    else if isRead (pk_cmd bus_pkt) || bool_decide (pk_cmd bus_pkt = UpgradeResp) then
      let* al := onC (allocOnFill (pk_cmd pkt)) in
      let* p := onC (handleFill junk mshr pid_of bus_pkt blk al) in
      let* pkt := onC (satisfyRequest pkt (Some p)) in
      do* onC (maintainClusivity (fromCache (pk_cmd pkt)) (Some p)) ;; ret (Some p, is_invalidate, pkt)
    else
      let* pkt := lift (makeResponse pkt) in ret (blk, is_invalidate, pkt).

Definition c_handleAtomicReqMiss (pkt : Packet) (blk : option blk_ptr) : M T (Z * option blk_ptr * Packet) :=
  let* s := onC getS in
  let unc_write p := isUncacheable (pk_req p) && isWrite (pk_cmd p) in
  if isEviction (pk_cmd pkt) || bool_decide (pk_cmd pkt = WriteClean) || unc_write pkt then
    let* r := sendAtomic pkt in
    let* latency := c_ticksToCycles r.2 in
    do* checkM (negb (unc_write r.1) || isResponse (pk_cmd r.1)) AssertFailed ;;
    ret (latency, blk, r.1)
  else
    let* nw := lift (pk_needsWritable pkt) in
    let* wl := lift (isWholeLineWrite (blk_size s) pkt) in
    let* o := onC (createMissPacket pkt blk nw wl) in
    let* r := sendAtomic (default pkt o) in
    let* latency := c_ticksToCycles r.2 in
    let is_invalidate := isInvalidate (pk_cmd r.1) in
    let* x := match o with
      | None => ret (blk, is_invalidate, r.1)
      | Some _ =>
          let pkt := with_req (pk_req r.1) pkt in
          if needsResponse (pk_cmd pkt) then c_response pkt r.1 blk is_invalidate
          else ret (blk, is_invalidate, pkt)
      end in
    let blk := x.1.1 in
    do* match blk with
        | Some p =>
            let* b := onC (get_blk p) in
            if x.1.2 && isValid b then onC (invalidateBlock p) else ret tt
        | None => ret tt
        end ;;
    ret (latency, blk, x.2).

Definition handleAtomicReqMiss (pkt : Packet) (blk : option blk_ptr) : M T (Z * option blk_ptr * Packet) :=
  let* s := onC getS in
  if coherent (cfg s) then c_handleAtomicReqMiss pkt blk else nc_handleAtomicReqMiss pkt blk.

(** A cache clean that found a dirty block. *)
Definition clean_dirty (pkt : Packet) (blk : option blk_ptr) : M S Packet :=
  match blk with
  | Some p =>
      let* b := get_blk p in
      if isClean (pk_cmd pkt) && isSet DirtyBit b then
        let* wb_pkt := writecleanBlk junk p (getDest (pk_req pkt)) in
        do* modifyS (push_writeback wb_pkt) ;;
        lift (setSatisfied pkt)
      else ret pkt
  | None => ret pkt
  end.

(** The temporary block is evicted, its writeback sent after the access. *)
Definition evict_temp (blk : option blk_ptr) : M T unit :=
  let* s := onC getS in
  if bool_decide (blk = Some TempBlk) && isValid (temp_blk (tempBlock s)) then
    do* match tempBlockWriteback s with
        | Some _ => writebackTempBlockAtomic
        | None =>
            do* checkM (negb (eventScheduled s)) AssertFailed ;;
            onC (modifyS (fun s => with_queues (writeBuffer s) (tempBlockWriteback s) true (writebacks s) s))
        end ;;
    let* k := onC (evict_pkt junk TempBlk) in
    onC (modifyS (fun s => with_queues (writeBuffer s) k (eventScheduled s) (writebacks s) s))
  else ret tt.

(** [BaseCache::recvAtomic]: the response and the latency in ticks. *)
Definition base_recvAtomic (pkt : Packet) : M T (Packet * Z) :=
  let* s := onC getS in
  let* r := onC (access pkt (c_lookupLatency (cfg s))) in
  let blk := ar_blk r in
  let* pkt := onC (clean_dirty (ar_pkt r) blk) in
  do* doWritebacksAtomic ;;
  let* s1 := onC getS in
  do* checkM (match writebacks s1 with [] => true | _ => false end) AssertFailed ;;
  let* x := (if negb (ar_satisfied r) then
    let* m := handleAtomicReqMiss pkt blk in ret (u64 (ar_lat r + m.1.1), m.1.2, m.2)
  else ret (ar_lat r, blk, pkt)) in
  let lat := x.1.1 in
  let blk := x.1.2 in
  let pkt := x.2 in
  do* doWritebacksAtomic ;;
  do* evict_temp blk ;;
  let* pkt := lift (if needsResponse (pk_cmd pkt) then makeResponse pkt else Ok pkt) in
  ret (pkt, u64 (lat * clockPeriod (clk s))).

(** [doFastWrites] is true. *)
Definition promoteWholeLineWrites (pkt : Packet) : M S Packet :=
  let* s := getS in
  if bool_decide (pk_cmd pkt = WriteReq) then
    let* n := lift (pk_getSize pkt) in
    let* o := lift (pk_getOffset (blk_size s) pkt) in
    ret (if (n =? blk_size s) && (o =? 0) && negb (isMaskedWrite pkt) then with_cmd WriteLineReq pkt else pkt)
  else ret pkt.

Definition recvAtomic (pkt : Packet) : M T (Packet * Z) :=
  let* s := onC getS in
  if coherent (cfg s) then
    let* pkt := onC (promoteWholeLineWrites pkt) in
    if cacheResponding pkt then
      do* checkM (negb (isCacheInvalidate (pk_req pkt))) AssertFailed ;;
      let* nw := lift (pk_needsWritable pkt) in
      do* checkM (nw && negb (responderHadWritable pkt)) AssertFailed ;;
      sendAtomic pkt
    else base_recvAtomic pkt
  else
    do* checkM (negb (cacheResponding pkt)) Panic ;;
    do* checkM (isRead (pk_cmd pkt) || isWrite (pk_cmd pkt)) Panic ;;
    base_recvAtomic pkt.
End Access.
