(* ===== verification/ClassicFunctional.v ===== *)
(** The functional side of a classic cache ([mem/cache/base.cc]): accesses that
    debuggers and loaders make without simulated time, the write-back of all
    dirty blocks and the invalidation of all blocks.

    [sendF] is [memSidePort.sendFunctional] and [snoopF]
    [cpuSidePort.sendFunctionalSnoop]: the packet that comes back and the state
    of what is below.  [pending_modified] says whether a miss in service waits
    for a modified line, and [queues] are the packet queues of timing mode
    ([cpuSidePort], [mshrQueue], [writeBuffer], [memSidePort]): what each makes
    of the packet and whether that completes it. *)
From Stdlib Require Import ZArith Lia Bool.
From stdpp Require Import base numbers gmap list.
From S2P Require Import Prelude ReplBase Bitfield Indexing CacheBlk Partition Tags Bytes MemRequest MemPacket Clocked ClassicCache ClassicAccess.
Local Open Scope Z_scope.

(** [a || b || ...] over the queues. *)
Fixpoint queues_satisfy (l : list (Packet -> outcome (Packet * bool))) (p : Packet) : outcome (Packet * bool) :=
  match l with
  | [] => Ok (p, false)
  | q :: l' => let? r := q p in if r.2 : bool then Ok (r.1, true) else queues_satisfy l' r.1
  end.

Section Functional.
Context {P D I B : Type} {RP : ReplacementPolicy P D} {IP : IndexingPolicy I}.
#[local] Abbreviation S := (cc_sys P D I).
#[local] Abbreviation T := (cc_sys P D I * B)%type.
Context (sendF snoopF : Packet -> B -> outcome (Packet * B)).
Context (pending_modified : Z -> bool -> bool) (queues : list (Packet -> outcome (Packet * bool))) (forwardSnoops : bool).

Definition sendFunctional (f : Packet -> B -> outcome (Packet * B)) (pkt : Packet) : M T Packet :=
  fun t => match f pkt t.2 with
    | Ok (p, b) => Ok (p, (t.1, b))
    | Fault f => Fault f
    end.

(** [blk->isValid() && pkt->trySatisfyFunctional(..., blk->data)]: the packet,
    and whether the block completes it. *)
Definition blk_satisfy (p : blk_ptr) (blk_addr : Z) (pkt : Packet) : M S (Packet * bool) :=
  let* b := get_blk p in
  if isValid b then
    let* s := getS in
    let* d := blk_bytes p in
    let* r := lift (trySatisfyFunctional blk_addr (pk_secure pkt) (blk_size s) (Some d) pkt) in
    do* match r.1.2 with Some d => put_bytes p d | None => ret tt end ;;
    ret (r.1.1, r.2)
  else ret (pkt, false).

Definition functionalAccess (from_cpu_side : bool) (pkt : Packet) : M T Packet :=
  let* s := onC getS in
  let* blk_addr := lift (getBlockAddr (blk_size s) pkt) in
  let* addr := lift (getAddr pkt) in
  let is_secure := pk_secure pkt in
  let* blk := onC (onT (findBlock (mkKey addr is_secure))) in
  let* r := match blk with
    | Some e => onC (blk_satisfy (TagBlk e) blk_addr pkt)
    | None => ret (pkt, false)
    end in
  let pkt := r.1 in
  let have_data := r.2 in
  let* have_dirty := match blk with
    | Some e => let* b := onC (get_blk (TagBlk e)) in ret (have_data && (isSet DirtyBit b || pending_modified blk_addr is_secure))
    | None => ret false
    end in
  let* d := (if have_dirty : bool then ret (pkt, true) else lift (queues_satisfy queues pkt)) in
  if d.2 : bool then lift (makeResponse d.1)
  else if from_cpu_side then sendFunctional sendF d.1
  else if forwardSnoops then sendFunctional snoopF d.1
  else ret d.1.

(** [CpuSidePort::recvFunctional]. *)
Definition recvFunctional (bypassCaches : bool) (pkt : Packet) : M T Packet :=
  if bypassCaches then sendFunctional sendF pkt else functionalAccess true pkt.

(** ** Writing back and invalidating everything *)
Definition writebackVisitor (e : loc) : M T unit :=
  let p := TagBlk e in
  let* b := onC (get_blk p) in
  if isSet DirtyBit b then
    do* checkM (isValid b) AssertFailed ;;
    let* s := onC getS in
    let* addr := onC (regenerateBlkAddr p) in
    let* r := lift (blk_request (now s) addr (blk_size s) funcRequestorId b) in
    let* k := lift (new_Packet r WriteReq) in
    let* d := onC (blk_bytes p) in
    let* k := lift (dataStatic d k) in
    do* sendFunctional sendF k ;;
    onC (call_blk p (fun b => Ok (clearCoherenceBits DirtyBit b)))
  else ret tt.

Definition invalidateVisitor (e : loc) : M S unit :=
  let p := TagBlk e in
  let* b := get_blk p in
  if isValid b then
    do* checkM (negb (isSet DirtyBit b)) AssertFailed ;;
    invalidateBlock p
  else ret tt.

Definition memWriteback : M T unit :=
  let* s := onC getS in visit_each (numBlocks (tags (tsys s))) writebackVisitor.

Definition memInvalidate : M T unit :=
  let* s := onC getS in visit_each (numBlocks (tags (tsys s))) (fun e => onC (invalidateVisitor e)).

Definition isDirty : M S bool := onT (anyBlk (fun e => let* b := read_blk e in ret (isSet DirtyBit b))).
End Functional.
