(* ===== verification/ClassicSnoop.v ===== *)
(** Snoops of a coherent classic cache in atomic mode: [Cache::handleSnoop] and
    [Cache::recvAtomicSnoop] ([mem/cache/cache.cc]), without a compressor.

    [above] is what a snoop that is forwarded makes of the packet
    ([cpuSidePort.sendAtomicSnoop]); [send] is [memSidePort.sendAtomic]. *)
From Stdlib Require Import ZArith Lia Bool.
From stdpp Require Import base numbers gmap list.
From S2P Require Import Prelude ReplBase Bitfield AddrRange Indexing CacheBlk Partition Tags Bytes MemRequest MemPacket Clocked ClassicCache ClassicAccess.
Local Open Scope Z_scope.

(** [inRange]: some range contains the address; [gnu] is the compiler, as in
    [AddrRange]. *)
Fixpoint inRange (gnu : bool) (addrRanges : list AddrRange) (addr : Z) : outcome bool :=
  match addrRanges with
  | [] => Ok false
  | r :: l => let? b := contains gnu r addr in if b : bool then Ok true else inRange gnu l addr
  end.

Section Snoop.
Context {P D I B : Type} {RP : ReplacementPolicy P D} {IP : IndexingPolicy I}.
#[local] Abbreviation S := (cc_sys P D I).
#[local] Abbreviation T := (cc_sys P D I * B)%type.
Context (junk : Z) (send : Packet -> B -> outcome (Packet * Z * B)) (above : Packet -> Packet) (forwardSnoops : bool).

(** A snoop of a cache clean that finds the block dirty: it is written through,
    with a list of its own. *)
Definition snoop_clean (pkt : Packet) (p : blk_ptr) : M T Packet :=
  let* wb_pkt := onC (writecleanBlk junk p (getDest (pk_req pkt))) in
  do* writeback_atomic send above forwardSnoops wb_pkt ;;
  lift (setSatisfied pkt).

(** The response of the block. *)
Definition snoop_respond (pkt : Packet) (invalidate : bool) (p : blk_ptr) : M S Packet :=
  let* s := getS in
  let* b := get_blk p in
  let* pkt := lift (setCacheResponding pkt) in
  let* pkt := lift (if negb (isClean (pk_cmd pkt)) && isSet WritableBit b then setResponderHadWritable pkt else Ok pkt) in
  do* checkM (invalidate || hasSharers pkt) Panic ;;
  let* pkt := lift (makeResponse pkt) in
  if hasData (pk_cmd pkt) then
    let* d := blk_bytes p in lift (setDataFromBlock d (blk_size s) pkt)
  else ret pkt.

(** What a valid block does with a snoop that is not a cache clean. *)
Definition snoop_hit (pkt : Packet) (p : blk_ptr) (respond invalidate needs_writable : bool) : M S Packet :=
  if mustCheckAbove pkt then ret (setBlockCached pkt)
  else
    let* pkt := (if isRead (pk_cmd pkt) && negb invalidate then
      do* checkM (negb needs_writable) AssertFailed ;;
      do* (if negb (isUncacheable (pk_req pkt)) then call_blk p (fun b => Ok (clearCoherenceBits WritableBit b)) else ret tt) ;;
      ret (setHasSharers pkt)
    else ret pkt) in
    let* pkt := (if respond then snoop_respond pkt invalidate p else ret pkt) in
    do* (if invalidate then invalidateBlock p else ret tt) ;;
    ret pkt.

Definition handleSnoop (pkt : Packet) (blk : option blk_ptr) : M T Packet :=
  do* checkM (isRequest (pk_cmd pkt)) AssertFailed ;;
  let invalidate := isInvalidate (pk_cmd pkt) in
  let* needs_writable := lift (pk_needsWritable pkt) in
  do* checkM (negb (invalidate && isUncacheable (pk_req pkt))) Panic ;;
  let* pkt := (if forwardSnoops then
    let already_responded := cacheResponding pkt in
    let pkt := above pkt in
    do* checkM (negb (negb already_responded && cacheResponding pkt) || isResponse (pk_cmd pkt)) AssertFailed ;;
    ret pkt
  else ret pkt) in
  let* b := onC match blk with Some p => let* b := get_blk p in ret (Some (p, b)) | None => ret None end in
  let valid := match b with Some (p, b) => if isValid b then Some (p, b) else None | None => None end in
  if isClean (pk_cmd pkt) then
    let* pkt := match valid with
      | Some (p, b) => if isSet DirtyBit b then snoop_clean pkt p else ret pkt
      | None => ret pkt
      end in
    match valid with
    | Some (p, b) => onC (snoop_hit pkt p false invalidate needs_writable)
    | None => ret (if mustCheckAbove pkt then setBlockCached pkt else pkt)
    end
  else match valid with
  | None => ret pkt
  | Some (p, b) =>
      let respond := isSet DirtyBit b && needsResponse (pk_cmd pkt) in
      let* s := onC getS in
      do* checkM (negb (isReadOnly (cfg s) && isSet DirtyBit b)) AssertFailed ;;
      onC (snoop_hit pkt p respond invalidate needs_writable)
  end.

(** The packet that comes back, and the latency. *)
Definition recvAtomicSnoop (gnu : bool) (addrRanges : list AddrRange) (pkt : Packet) : M T (Packet * Z) :=
  let* addr := lift (getAddr pkt) in
  let* inside := lift (inRange gnu addrRanges addr) in
  if inside : bool then
    let* blk := onC (onT (findBlock (mkKey addr (pk_secure pkt)))) in
    let* pkt := handleSnoop pkt (TagBlk <$> blk) in
    let* s := onC getS in
    ret (pkt, u64 (c_lookupLatency (cfg s) * clockPeriod (clk s)))
  else ret (pkt, 0).
End Snoop.
