(* ===== verification/BaseXBar.v ===== *)
(** The routing of crossbars: [mem/xbar.hh], [mem/xbar.cc].

    [ranges] is what the device at the memory-side port reports when it tells of
    a change ([memSidePorts[id]->getAddrRanges()]); [recvRangeChange] says
    whether the neighbours of the CPU-side ports are told in turn. *)
From Stdlib Require Import ZArith Lia Bool.
From stdpp Require Import base numbers gmap list sorting.
From S2P Require Import Prelude Bitfield AddrRange AddrRangeMap MemRequest MemPacket.
Local Open Scope Z_scope.

Definition InvalidPortID : Z := -1.

Record BaseXBar := mkBaseXBar {
  portMap : AddrRangeMap Z;
  xbarRanges : list AddrRange;
  defaultRange : AddrRange;
  gotAddrRanges : list bool;
  gotAllAddrRanges : bool;
  defaultPortID : Z;
  useDefaultRange : bool;
}.

Definition with_portMap (m : AddrRangeMap Z) (b : BaseXBar) : BaseXBar :=
  mkBaseXBar m (xbarRanges b) (defaultRange b) (gotAddrRanges b) (gotAllAddrRanges b) (defaultPortID b) (useDefaultRange b).
Definition with_xbarRanges (l : list AddrRange) (b : BaseXBar) : BaseXBar :=
  mkBaseXBar (portMap b) l (defaultRange b) (gotAddrRanges b) (gotAllAddrRanges b) (defaultPortID b) (useDefaultRange b).
Definition with_defaultRange (r : AddrRange) (b : BaseXBar) : BaseXBar :=
  mkBaseXBar (portMap b) (xbarRanges b) r (gotAddrRanges b) (gotAllAddrRanges b) (defaultPortID b) (useDefaultRange b).
Definition with_got (l : list bool) (all : bool) (b : BaseXBar) : BaseXBar :=
  mkBaseXBar (portMap b) (xbarRanges b) (defaultRange b) l all (defaultPortID b) (useDefaultRange b).

(** The constructors, with [n] memory-side ports and perhaps a default port, which
    is the last one. *)
Definition new_BaseXBar (n : nat) (default_port use_default_range : bool) : BaseXBar :=
  mkBaseXBar empty_map [] no_range (replicate (n + if default_port then 1 else 0)%nat false) false
    (if default_port then Z.of_nat n else InvalidPortID) use_default_range.

(** [pkt->payloadDelay = d]. *)
Definition with_payloadDelay (d : Z) (p : Packet) : Packet :=
  mkPkt (pk_flags p) (pk_cmd p) (pk_req p) (pk_data p) (pk_addr p) (pk_secure p) (pk_size p) (bytesValid p)
    (headerDelay p) (snoopDelay p) (u32 d).

Section XBar.
Context (gnu : bool).

(** ** Changes of the ranges *)

(** The entries of a port are removed. *)
Definition erase_port (id : Z) (m : AddrRangeMap Z) : AddrRangeMap Z :=
  foldl (fun m e => if e.2 =? id then map_erase e.1 m else m) m (tree m).

Fixpoint add_ranges (id : Z) (ranges : list AddrRange) (m : AddrRangeMap Z) : outcome (AddrRangeMap Z) :=
  match ranges with
  | [] => Ok m
  | r :: l =>
      let? s := map_insert gnu 3 r id m in
      if s.1 : bool then add_ranges id l s.2 else Fault Fatal
  end.

(** A range that is not part of the default range is kept. *)
Definition keep_range (b : BaseXBar) (r : AddrRange) (l : list AddrRange) : outcome (list AddrRange) :=
  if useDefaultRange b then let? s := isSubset gnu r (defaultRange b) in Ok (if s : bool then l else l ++ [r])
  else Ok (l ++ [r]).

(** Interleaved ranges are collected and merged. *)
Fixpoint aggregate (b : BaseXBar) (es : list (AddrRange * Z)) (intlv_ranges ranges : list AddrRange) : outcome (list AddrRange) :=
  match es with
  | [] =>
      if bool_decide (intlv_ranges = []) then Ok ranges
      else let? merged := merged_range intlv_ranges in keep_range b merged ranges
  | (r, _) :: es' =>
      if interleaved r then
        let? s := match last intlv_ranges with
          | Some back =>
              if negb (mergesWith back r) then
                let? merged := merged_range intlv_ranges in
                let? ranges := keep_range b merged ranges in Ok ([], ranges)
              else Ok (intlv_ranges, ranges)
          | None => Ok (intlv_ranges, ranges)
          end in
        aggregate b es' (s.1 ++ [r]) s.2
      else let? ranges := keep_range b r ranges in aggregate b es' intlv_ranges ranges
  end.

Fixpoint check_default (b : BaseXBar) (l : list AddrRange) : outcome unit :=
  match l with
  | [] => Ok tt
  | r :: l' =>
      let? i := AddrRange.intersects gnu r (defaultRange b) in
      let? _ := (if i : bool then let? s := isSubset gnu r (defaultRange b) in ocheck s Fatal else Ok tt) in
      check_default b l'
  end.

Definition aggregate_ranges (b : BaseXBar) : outcome BaseXBar :=
  let? start := (if useDefaultRange b then
    let? g := vget (gotAddrRanges b) (defaultPortID b) in
    let? _ := ocheck g Fatal in Ok [defaultRange b]
  else Ok []) in
  let? l := aggregate b (tree (portMap b)) [] start in
  let? _ := (if useDefaultRange b then check_default b l else Ok tt) in
  Ok (with_xbarRanges l b).

Definition recvRangeChange (mem_side_port_id : Z) (ranges : list AddrRange) (b : BaseXBar) : outcome (bool * BaseXBar) :=
  let? got := vset (gotAddrRanges b) mem_side_port_id true in
  let all := if negb (gotAllAddrRanges b) then forallb (fun g : bool => g) got else true in
  let b := with_got got all b in
  let? b := (if mem_side_port_id =? defaultPortID b then
    if useDefaultRange b then
      match ranges with [r] => Ok (with_defaultRange r b) | _ => Fault Fatal end
    else Ok b
  else
    let? g := vget (gotAddrRanges b) mem_side_port_id in
    let m := if g : bool then erase_port mem_side_port_id (portMap b) else portMap b in
    let? m := add_ranges mem_side_port_id ranges m in Ok (with_portMap m b)) in
  if gotAllAddrRanges b then let? b := aggregate_ranges b in Ok (true, b) else Ok (false, b).

Definition getAddrRanges (b : BaseXBar) : outcome (list AddrRange) :=
  let? _ := ocheck (gotAllAddrRanges b) AssertFailed in Ok (xbarRanges b).

(** ** Routing *)
Definition findPort (addr_range : AddrRange) (b : BaseXBar) : outcome (Z * BaseXBar) :=
  let? _ := ocheck (gotAllAddrRanges b) AssertFailed in
  let? s := map_contains gnu 3 addr_range (portMap b) in
  let b := with_portMap s.2 b in
  match s.1 with
  | Some e => Ok (e.2, b)
  | None =>
      if useDefaultRange b then
        let? d := isSubset gnu addr_range (defaultRange b) in
        if d : bool then Ok (defaultPortID b, b) else Fault Fatal
      else if negb (defaultPortID b =? InvalidPortID) then Ok (defaultPortID b, b)
      else Fault Fatal
  end.

(** The changes of several ports, one after another. *)
Fixpoint range_changes (l : list (Z * list AddrRange)) (b : BaseXBar) : outcome BaseXBar :=
  match l with
  | [] => Ok b
  | (id, ranges) :: l' => let? r := recvRangeChange id ranges b in range_changes l' r.2
  end.

(** Look-ups, one after another. *)
Fixpoint lookups (qs : list AddrRange) (b : BaseXBar) : outcome BaseXBar :=
  match qs with
  | [] => Ok b
  | q :: qs' => let? r := findPort q b in lookups qs' r.2
  end.

(** ** The map *)

Lemma same_key (m : AddrRangeMap Z) e e' : map_ok m -> e ∈ tree m -> e' ∈ tree m -> e.1 = e'.1 -> e = e'.
Proof.
  intros Hm He He' E. destruct (proj1 (Forall_forall _ _) (mo_proper _ Hm) e He) as [_ Hlt].
  apply (key_unique m e e' Hm He He'). exists (_start e.1). rewrite <- E. unfold within. lia.
Qed.

(** Entries of other ports stay when the entries of a port are removed. *)
Lemma erase_port_spec id m : map_ok m -> map_ok (erase_port id m) /\ forall e, e ∈ tree (erase_port id m) <-> e ∈ tree m /\ e.2 <> id.
Proof.
  intros Hm. assert (forall l m0, map_ok m0 -> (forall e, e ∈ tree m0 -> e ∈ tree m) -> (forall e, e ∈ l -> e ∈ tree m) ->
    let m' := foldl (fun m e => if e.2 =? id then map_erase e.1 m else m) m0 l in
    map_ok m' /\ forall e, e ∈ tree m' <-> e ∈ tree m0 /\ ~ (e ∈ l /\ e.2 = id)) as H.
  { induction l as [|x l IH]; intros m0 H0 Hsub Hl; cbn [foldl].
    { split; [done|]. intros e. split; [intros ?; split; [done|]; by intros [?%not_elem_of_nil _]|by intros [? _]]. }
    assert (forall e, e ∈ l -> e ∈ tree m) as Hl' by (intros e He; apply Hl; by right). destruct (Z.eqb_spec x.2 id) as [Ex|Ex].
    - destruct (erase_spec x.1 m0 H0) as [H1 H2]. destruct (IH (map_erase x.1 m0) H1) as [H3 H4]; [intros e [? _]%H2; auto|done|].
      split; [exact H3|]. intros e. rewrite H4, H2, elem_of_cons. split.
      + intros [[A1 A2] A3]. split; [done|]. intros [[->|?] ?]; auto.
      + intros [A1 A2]. split; [|tauto]. split; [done|]. intros E. apply A2.
        assert (e = x) as -> by (apply (same_key m); [done|auto|apply Hl; by left|done]). auto.
    - destruct (IH m0 H0 Hsub Hl') as [H3 H4]. split; [exact H3|]. intros e. rewrite H4, elem_of_cons. split.
      + intros [A1 A2]. split; [done|]. intros [[->|?] ?]; auto.
      + intros [A1 A2]. split; [done|]. tauto. }
  destruct (H (tree m) m Hm) as [H1 H2]; [done|done|]. split; [exact H1|]. intros e. unfold erase_port. rewrite H2. tauto.
Qed.

(** Ranges that do not meet each other, nor the entries of a map. *)
Definition apart (l : list AddrRange) (m : AddrRangeMap Z) : Prop :=
  ForallOrdPairs (fun x y => ~ meets x y) l /\ forall r e, r ∈ l -> e ∈ tree m -> ~ meets e.1 r.

Lemma add_ranges_spec id l : forall m, Forall proper l -> map_ok m ->
  match add_ranges id l m with
  | Ok m' => apart l m /\ map_ok m' /\ forall e, e ∈ tree m' <-> e ∈ tree m \/ e.1 ∈ l /\ e.2 = id
  | Fault f => f = Fatal /\ ~ apart l m
  end.
Proof.
  induction l as [|r l IH]; intros m HP Hm; cbn [add_ranges].
  { split; [split; [constructor|by intros r e ?%not_elem_of_nil]|]. split; [done|]. intros e. split; [by left|]. by intros [?|[?%not_elem_of_nil _]]. }
  apply Forall_cons in HP as [Hr HP]. destruct (insert_spec gnu 3 r id m Hr Hm) as (b & m1 & -> & M1 & Hb). cbn [obind fst snd]. destruct b.
  2:{ split; [done|]. intros [_ Hn]. destruct Hb as (e & He & Hme). apply (Hn r e); [by left|done|done]. }
  destruct Hb as [Hno Hperm]. specialize (IH m1 HP M1).
  assert (forall e, e ∈ tree m1 <-> e = (r, id) \/ e ∈ tree m) as Hin by (intros e; rewrite Hperm; apply elem_of_cons).
  assert (apart l m1 <-> apart (r :: l) m) as Hap.
  { unfold apart. split.
    - intros [A1 A2]. split.
      + constructor; [|done]. apply Forall_forall. intros y Hy. apply (A2 y (r, id) Hy). apply Hin. by left.
      + intros r' e [->|Hr']%elem_of_cons He; [auto|]. apply (A2 r' e Hr'). apply Hin. by right.
    - intros [A1 A2]. inversion_clear A1 as [|? ? B1 B2]. rewrite Forall_forall in B1. split; [done|]. intros r' e Hr' [->|He]%Hin; [by apply B1|].
      apply A2; [by right|done]. }
  destruct (add_ranges id l m1) as [m'|f]; rewrite Hap in IH; [|exact IH]. destruct IH as (I1 & I2 & I3). split; [done|]. split; [done|].
  intros [r' d]. rewrite I3, Hin, elem_of_cons. cbn. split; [intros [[[= -> ->]|?]|[? ->]]|intros [?|[[->|?] ->]]]; auto.
Qed.

(** ** Ranges that are not interleaved, against the default range *)
Lemma isSubset_proper r q : proper r -> proper q -> isSubset gnu q r = Ok (bool_decide (covers_range r q)).
Proof.
  intros [Hr Hlr] [Hq Hlq]. unfold isSubset. rewrite (plain_not_interleaved q Hq), (plain_not_interleaved r Hr).
  replace (_end q <=? _start q) with false by lia. replace (_end r <=? _start r) with false by lia. f_equal.
  apply eq_bool_prop_intro. rewrite bool_decide_spec. unfold covers_range. rewrite andb_True, !Is_true_true. lia.
Qed.

Lemma intersects_proper r q : proper r -> proper q -> AddrRange.intersects gnu q r = Ok (bool_decide (meets q r)).
Proof.
  intros [Hr Hlr] [Hq Hlq]. unfold AddrRange.intersects. rewrite (plain_not_interleaved q Hq), (plain_not_interleaved r Hr). cbn [negb andb].
  destruct (_ || _) eqn:E; f_equal; symmetry; [apply bool_decide_eq_false|apply bool_decide_eq_true]; unfold meets; lia.
Qed.

(** The ranges that are kept. *)
Definition kept_range (b : BaseXBar) (r : AddrRange) : Prop := useDefaultRange b = true -> ~ covers_range (defaultRange b) r.
#[local] Instance kept_range_dec b r : Decision (kept_range b r).
Proof. unfold kept_range. destruct (useDefaultRange b); [destruct (decide (covers_range (defaultRange b) r))|]; [right|left|left]; naive_solver. Defined.

Lemma aggregate_plain b es : (useDefaultRange b = true -> proper (defaultRange b)) -> Forall (fun e => proper e.1) es ->
  forall ranges, aggregate b es [] ranges = Ok (ranges ++ filter (kept_range b) es.*1).
Proof.
  intros Hd. induction 1 as [|[r d] es Hr HP IH]; intros ranges; cbn [aggregate]; [by rewrite app_nil_r|]. cbn [fst] in Hr.
  rewrite (plain_not_interleaved r (proj1 Hr)). cbn [fmap list_fmap fst]. unfold keep_range.
  destruct (useDefaultRange b) eqn:Eu; cbn [obind].
  - rewrite isSubset_proper by auto. cbn [obind]. rewrite IH, filter_cons.
    destruct (decide (covers_range (defaultRange b) r)) as [H|H].
    + rewrite bool_decide_eq_true_2 by done. by rewrite decide_False by (intros K; by apply (K Eu)).
    + rewrite bool_decide_eq_false_2 by done. rewrite decide_True by (intros ?; done). by rewrite <- app_assoc.
  - rewrite IH, filter_cons. rewrite decide_True by (intros ?; congruence). by rewrite <- app_assoc.
Qed.

Lemma check_default_spec b l : proper (defaultRange b) -> Forall proper l ->
  check_default b l = if decide (Forall (fun r => meets r (defaultRange b) -> covers_range (defaultRange b) r) l) then Ok tt else Fault Fatal.
Proof.
  intros Hd. induction 1 as [|r l Hr HP IH]; cbn [check_default]; [by rewrite decide_True by constructor|].
  rewrite intersects_proper by done. cbn [obind]. destruct (decide (meets r (defaultRange b))) as [Hm|Hm].
  - rewrite bool_decide_eq_true_2 by done. rewrite isSubset_proper by done. cbn [obind]. destruct (decide (covers_range (defaultRange b) r)) as [Hc|Hc].
    + rewrite bool_decide_eq_true_2 by done. cbn [ocheck obind]. rewrite IH. apply decide_ext. rewrite Forall_cons. tauto.
    + rewrite bool_decide_eq_false_2 by done. cbn [ocheck obind]. rewrite decide_False; [done|]. rewrite Forall_cons. tauto.
  - rewrite bool_decide_eq_false_2 by done. cbn [obind]. rewrite IH. apply decide_ext. rewrite Forall_cons. tauto.
Qed.

(** ** What the ports have announced *)

Section Announced.
(** The number of ports, the default port and whether its range is used. *)
Context (N dp : Z) (udr : bool).
#[local] Abbreviation announced := (gmap Z (list AddrRange)).
Implicit Types A : announced.

(** What is asked for when port [id] tells of a change: the range of the default
    port only when it is used. *)
Definition asked_for (id : Z) (ranges : list AddrRange) : list AddrRange := if (id =? dp) && negb udr then [] else ranges.

Definition all_announced A : Prop := forall d, 0 <= d < N -> is_Some (A !! d).

(** The ranges of a port that is not the default one fit with those of the others. *)
Definition fits A (id : Z) (l : list AddrRange) : Prop :=
  ForallOrdPairs (fun x y => ~ meets x y) l /\
  forall d l' r r', A !! d = Some l' -> d <> id -> d <> dp -> r ∈ l -> r' ∈ l' -> ~ meets r' r.

(** When everyone has announced, there is a default range, if it is used, and a
    range that meets it is part of it. *)
Definition consistent A : Prop := udr = true -> all_announced A -> exists r, A !! dp = Some [r] /\
  forall d l r', A !! d = Some l -> d <> dp -> r' ∈ l -> meets r' r -> covers_range r r'.

(** The crossbar goes on after the announcement. *)
Definition accepted A (id : Z) (l : list AddrRange) : Prop :=
  (if decide (id = dp) then udr = true -> exists r, l = [r] else fits A id l) /\ consistent (<[id := asked_for id l]> A).

(** The map of the crossbar has the ranges that were announced, and it knows who
    has announced. *)
Record routes A (b : BaseXBar) : Prop := {
  rt_config : vsize (gotAddrRanges b) = N /\ defaultPortID b = dp /\ useDefaultRange b = udr;
  rt_port : dp = InvalidPortID \/ 0 <= dp < N;
  rt_map : map_ok (portMap b);
  rt_entries : forall r d, (r, d) ∈ tree (portMap b) <-> d <> dp /\ exists l, A !! d = Some l /\ r ∈ l;
  rt_got : forall d, 0 <= d < N -> vget (gotAddrRanges b) d = Ok (bool_decide (is_Some (A !! d)));
  rt_all : gotAllAddrRanges b = true <-> all_announced A;
  rt_default : forall l, A !! dp = Some l -> if udr then l = [defaultRange b] /\ proper (defaultRange b) else l = [];
  rt_ids : forall d, is_Some (A !! d) -> 0 <= d < N;
}.

Lemma got_all l : forallb (fun g : bool => g) l = true <-> forall d, 0 <= d < vsize l -> vget l d = Ok true.
Proof.
  rewrite forallb_forall. split.
  - intros H d Hd. destruct (vget_total l d Hd) as [g Hg]. rewrite Hg. f_equal. apply H. apply vget_Ok_inv in Hg as [_ Hg]. apply list_elem_of_In. by eapply list_elem_of_lookup_2.
  - intros H g Hg. apply list_elem_of_In, list_elem_of_lookup in Hg as [j Hj]. pose proof (lookup_lt_Some _ _ _ Hj).
    specialize (H (Z.of_nat j) ltac:(unfold vsize; lia)). apply vget_Ok_inv in H as [_ H]. rewrite Nat2Z.id in H. congruence.
Qed.

Section Change.
Context A (b : BaseXBar) (id : Z) (l : list AddrRange) (R : routes A b) (Hid : 0 <= id < N).
#[local] Abbreviation got := (<[Z.to_nat id := true]> (gotAddrRanges b)).
#[local] Abbreviation all := (if negb (gotAllAddrRanges b) then forallb (fun g : bool => g) got else true).

Lemma got_size : vsize got = N.
Proof. destruct (rt_config _ _ R) as [<- _]. unfold vsize. by rewrite length_insert. Qed.

Lemma got_spec d : 0 <= d < N -> vget got d = Ok (bool_decide (is_Some (<[id := l]> A !! d))).
Proof.
  intros Hd. destruct (rt_config _ _ R) as [HN _]. destruct (decide (d = id)) as [->|Hne]; [rewrite lookup_insert_eq; by rewrite vget_insert by lia|].
  rewrite lookup_insert_ne, <- (rt_got _ _ R) by done. unfold vget. destruct (Z.ltb_spec d 0); [done|]. rewrite list_lookup_insert_ne by lia. done.
Qed.

Lemma all_spec : all = true <-> all_announced (<[id := l]> A).
Proof.
  assert (forallb (fun g : bool => g) got = true <-> all_announced (<[id := l]> A)) as Hg.
  { rewrite got_all, got_size. split; intros H d Hd; specialize (H d Hd).
    - rewrite got_spec in H by done. apply (bool_decide_eq_true_1 (is_Some (<[id := l]> A !! d))). by injection H.
    - rewrite got_spec by done. by rewrite bool_decide_eq_true_2. }
  destruct (gotAllAddrRanges b) eqn:Eg; [|exact Hg]. split; [|done]. intros _ d Hd.
  destruct (decide (d = id)) as [->|Hne]; [rewrite lookup_insert_eq; eauto|]. rewrite lookup_insert_ne by done. by apply (rt_all _ _ R).
Qed.

(** The crossbar after the change, before the ranges are collected. *)
Lemma change_routes m dr : map_ok m -> (forall r d, (r, d) ∈ tree m <-> d <> dp /\ exists l0, <[id := l]> A !! d = Some l0 /\ r ∈ l0) ->
  (if decide (id = dp) then if udr then l = [dr] /\ proper dr else l = [] else dr = defaultRange b) ->
  routes (<[id := l]> A) (mkBaseXBar m (xbarRanges b) dr got all (defaultPortID b) (useDefaultRange b)).
Proof.
  intros Hm He Hd. destruct (rt_config _ _ R) as (C1 & C2 & C3). constructor; cbn.
  - split; [apply got_size|done].
  - apply R.
  - done.
  - done.
  - apply got_spec.
  - apply all_spec.
  - intros l1. case_decide as E; [rewrite E, lookup_insert_eq; intros [= <-]; exact Hd|]. rewrite lookup_insert_ne by done. rewrite Hd. apply R.
  - intros d. destruct (decide (d = id)) as [->|Hne]; [lia|]. rewrite lookup_insert_ne by done. apply R.
Qed.
End Change.

(** What the crossbar tells its own neighbours: the default range, and the ranges
    of the other ports that are not part of it. *)
Definition reported A (r : AddrRange) : Prop :=
  udr = true /\ A !! dp = Some [r] \/
  exists d l, A !! d = Some l /\ d <> dp /\ r ∈ l /\ (udr = true -> forall r0, A !! dp = Some [r0] -> ~ covers_range r0 r).

(** A crossbar that went on, and told its neighbours. *)
Definition informed A (b : BaseXBar) : Prop :=
  routes A b /\ gotAllAddrRanges b = true /\ (udr = true -> is_Some (A !! dp)).

Lemma routes_ranges A b l : routes A b -> routes A (with_xbarRanges l b).
Proof. intros []. by constructor. Qed.

Lemma entries_keys A b : routes A b -> forall r, r ∈ (tree (portMap b)).*1 <-> exists d l, A !! d = Some l /\ d <> dp /\ r ∈ l.
Proof.
  intros R r. rewrite list_elem_of_fmap. split.
  - intros ([r' d] & -> & [Hd (l & Hl & Hr)]%(rt_entries _ _ R)). by exists d, l.
  - intros (d & l & Hl & Hd & Hr). exists (r, d). split; [done|]. apply (rt_entries _ _ R). eauto.
Qed.

(** The ranges are collected. *)
Lemma aggregate_spec A b : routes A b -> gotAllAddrRanges b = true ->
  match aggregate_ranges b with
  | Ok b' => consistent A /\ informed A b' /\ forall r, r ∈ xbarRanges b' <-> reported A r
  | Fault f => ~ consistent A /\ (f = Fatal \/ f = IndexOutOfRange /\ udr = true /\ dp = InvalidPortID)
  end.
Proof.
  intros R Ha. destruct (rt_config _ _ R) as (C1 & C2 & C3). pose proof (proj1 (rt_all _ _ R) Ha) as Hann. unfold aggregate_ranges. rewrite C2, C3.
  pose proof (entries_keys A b R) as Hk. pose proof (mo_proper _ (rt_map _ _ R)) as HP. destruct (decide (udr = true)) as [Eu|Eu].
  2:{ assert (udr = false) as Ef by (by destruct udr). rewrite Ef. cbn [obind]. rewrite aggregate_plain by (done || congruence). cbn [obind].
      split; [by intros ?|]. split; [split; [by apply routes_ranges|done]|]. intros r. cbn. rewrite list_elem_of_filter, Hk. unfold reported, kept_range. split.
      - intros [_ (d & l & ? & ? & ?)]. right. exists d, l. by split_and!.
      - intros [[? _]|(d & l & ? & ? & ? & _)]; [done|]. split; [congruence|]. eauto. }
  rewrite Eu in C3 |- *. destruct (rt_port _ _ R) as [Ep|Ep].
  { rewrite Ep. unfold vget. change (InvalidPortID <? 0) with true. cbn [obind]. split; [|by right]. intros Hc. destruct (Hc Eu Hann) as (r & Hr & _).
    pose proof (rt_ids _ _ R dp ltac:(rewrite Hr; eauto)). unfold InvalidPortID in Ep. lia. }
  destruct (Hann dp Ep) as [l0 Hl0]. pose proof (rt_default _ _ R l0 Hl0) as Hd. rewrite Eu in Hd. destruct Hd as [-> Hdp].
  rewrite (rt_got _ _ R dp Ep), Hl0. rewrite bool_decide_eq_true_2 by eauto. cbn [ocheck obind]. rewrite aggregate_plain by done. cbn [obind app].
  rewrite check_default_spec; [|done|].
  2:{ constructor; [done|]. apply Forall_forall. intros r [_ Hr]%list_elem_of_filter. apply list_elem_of_fmap in Hr as (e & -> & He). by apply (proj1 (Forall_forall _ _) HP). }
  set (Q := Forall _ _). assert (Q <-> consistent A) as HQ.
  { unfold Q, consistent. rewrite Forall_cons, Forall_forall. split.
    - intros [_ H] _ _. exists (defaultRange b). split; [done|]. intros d l r Hl Hne Hr Hm. destruct (decide (covers_range (defaultRange b) r)) as [|Hc]; [done|].
      apply H; [|done]. apply list_elem_of_filter. split; [by intros _|]. apply Hk. eauto.
    - intros H. destruct (H Eu Hann) as (r0 & Hr0 & H0). assert (r0 = defaultRange b) as -> by congruence. split; [intros _; unfold covers_range; lia|].
      intros r [_ (d & l & Hl & Hne & Hr)%Hk]%list_elem_of_filter. by apply (H0 d l). }
  destruct (decide Q) as [HC|HC]; cbn [obind]; rewrite HQ in HC; [|by split; [|left]].
  split; [done|]. split; [split; [by apply routes_ranges|]; split; [done|]; rewrite Hl0; eauto|].
  intros r. cbn. rewrite elem_of_cons, list_elem_of_filter, Hk. unfold reported, kept_range. rewrite C3. split.
  - intros [->|[Hc (d & l & ? & ? & ?)]]; [by left|right]. exists d, l. split_and!; try done. intros _ r0 Hr0. assert (r0 = defaultRange b) as -> by congruence. auto.
  - intros [[_ Hr]|(d & l & ? & ? & ? & Hc)]; [left; congruence|right]. split; [|eauto]. intros _. by apply Hc.
Qed.

(** The end of a change. *)
Lemma change_end A b : routes A b ->
  match (if gotAllAddrRanges b then let? b := aggregate_ranges b in Ok (true, b) else Ok (false, b)) with
  | Ok (_, b') => consistent A /\ routes A b' /\ (gotAllAddrRanges b' = true -> informed A b' /\ forall r, r ∈ xbarRanges b' <-> reported A r)
  | Fault f => ~ consistent A /\ (f = Fatal \/ f = IndexOutOfRange /\ udr = true /\ dp = InvalidPortID)
  end.
Proof.
  intros R. destruct (gotAllAddrRanges b) eqn:Ea.
  - pose proof (aggregate_spec A b R Ea) as H. destruct (aggregate_ranges b) as [b'|f]; cbn [obind]; [|done].
    destruct H as (H1 & H2 & H3). split; [done|]. split; [apply H2|done].
  - split; [|split; [done|congruence]]. intros _ Hann. apply (rt_all _ _ R) in Hann. congruence.
Qed.

(** A port announces its ranges. *)
Lemma range_change_spec A b id l : routes A b -> 0 <= id < N -> Forall proper l ->
  match recvRangeChange id l b with
  | Ok (_, b') => accepted A id l /\ routes (<[id := asked_for id l]> A) b' /\
      (gotAllAddrRanges b' = true -> informed (<[id := asked_for id l]> A) b' /\ forall r, r ∈ xbarRanges b' <-> reported (<[id := asked_for id l]> A) r)
  | Fault f => ~ accepted A id l /\ (f = Fatal \/ f = IndexOutOfRange /\ udr = true /\ dp = InvalidPortID)
  end.
Proof.
  intros R Hid HP. destruct (rt_config _ _ R) as (C1 & C2 & C3). pose proof R as [_ _ R1 R2 R3 R4 R6 _]. unfold recvRangeChange. rewrite vset_Ok by lia. cbn [obind].
  cbn [defaultPortID with_got gotAddrRanges portMap gotAllAddrRanges useDefaultRange]. unfold accepted, asked_for. rewrite C2, C3.
  destruct (Z.eqb_spec id dp) as [Ed|Ed]; [rewrite decide_True by done|rewrite decide_False by done]; cbn [andb].
  { assert (forall l0 r d, (r, d) ∈ tree (portMap b) <-> d <> dp /\ exists l1, <[id := l0]> A !! d = Some l1 /\ r ∈ l1) as He.
    { intros l0 r d. rewrite R2. destruct (decide (d = dp)) as [->|Hne]; [tauto|]. rewrite lookup_insert_ne by congruence. done. }
    destruct udr eqn:Eu; cbn [negb].
    - destruct l as [|r [|r' l]]; cbn [obind]; [split; [|by left]; intros [H _]; by destruct (H eq_refl)| |split; [|by left]; intros [H _]; by destruct (H eq_refl)].
      pose proof (change_end (<[id := [r]]> A) _ (change_routes A b id [r] R Hid (portMap b) r R1 (He [r])
        ltac:(rewrite decide_True by done; rewrite Eu; split; [done|by apply Forall_inv in HP]))) as H.
      rewrite C2, C3 in H. unfold with_defaultRange, with_got. cbn [portMap xbarRanges gotAddrRanges gotAllAddrRanges defaultPortID useDefaultRange] in *. rewrite C2, C3.
      destruct (if _ : bool then _ else _) as [[nt b']|f]; [|tauto]. destruct H as (H1 & H2 & H3). split; [split; [by exists r|done]|done].
    - cbn [obind]. pose proof (change_end (<[id := []]> A) _ (change_routes A b id [] R Hid (portMap b) (defaultRange b) R1 (He [])
        ltac:(rewrite decide_True by done; by rewrite Eu))) as H.
      rewrite C2, C3 in H. unfold with_got. cbn [portMap xbarRanges defaultRange gotAddrRanges gotAllAddrRanges defaultPortID useDefaultRange] in *. rewrite C2, C3.
      destruct (if _ : bool then _ else _) as [[nt b']|f]; [|rewrite Eu in H; tauto]. destruct H as (H1 & H2 & H3). split; [done|done]. }
  rewrite (got_spec A b id l R Hid id Hid), lookup_insert_eq. rewrite bool_decide_eq_true_2 by eauto. cbn [obind]. destruct (erase_port_spec id (portMap b) R1) as [E1 E2].
  assert (apart l (erase_port id (portMap b)) <-> fits A id l) as Hap.
  { unfold apart, fits. split; (intros [A1 A2]; split; [done|]).
    - intros d l' r r' Hl' Hd Hdp Hr Hr'. apply (A2 r (r', d) Hr). apply E2. split; [apply R2; eauto|done].
    - intros r [r' d] Hr [He Hd]%E2. apply R2 in He as (Hne & l' & Hl' & Hr'). by apply (A2 d l' r r'). }
  pose proof (add_ranges_spec id l (erase_port id (portMap b)) HP E1) as Hadd. destruct (add_ranges id l _) as [m'|f]; cbn [obind]; rewrite Hap in Hadd; [|by split; [|left]; [tauto|apply Hadd]].
  destruct Hadd as (A1 & A2 & A3).
  pose proof (change_end (<[id := l]> A) _ (change_routes A b id l R Hid m' (defaultRange b) A2
    ltac:(intros r d; rewrite A3, E2; cbn; destruct (decide (d = id)) as [->|Hne];
      [rewrite lookup_insert_eq; split; [intros [[_ ?]|[? _]]; [done|eauto]|]; intros (_ & l0 & [= <-] & ?); auto
      |rewrite lookup_insert_ne by done; rewrite R2; split; [intros [[? _]|[_ ?]]; done|auto]])
    ltac:(by rewrite decide_False by done))) as H.
  rewrite C2, C3 in H. unfold with_portMap, with_got. cbn [portMap xbarRanges defaultRange gotAddrRanges gotAllAddrRanges defaultPortID useDefaultRange] in *. rewrite C2, C3.
  destruct (if _ : bool then _ else _) as [[nt b']|f]; [|tauto]. destruct H as (H1 & H2 & H3). split; [done|done].
Qed.

(** ** Where a range of addresses goes *)

(** A port other than the default one has announced a range that covers [q]. *)
Definition claimed A (q : AddrRange) (d : Z) : Prop :=
  exists l r, A !! d = Some l /\ d <> dp /\ r ∈ l /\ covers_range r q.

(** To the port that has announced it, else to the default port, if there is one
    and its range, if it is used, covers it; else nowhere. *)
Definition goes_to A (q : AddrRange) (o : option Z) : Prop :=
  match o with
  | Some d => claimed A q d \/
      d = dp /\ dp <> InvalidPortID /\ (forall d', ~ claimed A q d') /\ (udr = true -> exists r, A !! dp = Some [r] /\ covers_range r q)
  | None => (forall d', ~ claimed A q d') /\ if udr then forall r, A !! dp = Some [r] -> ~ covers_range r q else dp = InvalidPortID
  end.

Lemma findPort_spec A b q : informed A b -> proper q ->
  match findPort q b with
  | Ok (d, b') => informed A b' /\ goes_to A q (Some d)
  | Fault f => f = Fatal /\ goes_to A q None
  end.
Proof.
  intros (R & Hall & Hs) Hq. destruct (rt_config _ _ R) as (C1 & C2 & C3). unfold findPort. rewrite Hall. cbn [ocheck obind].
  destruct (contains_spec gnu 3 q (portMap b) Hq (rt_map _ _ R)) as (res & m' & -> & M1 & M2 & Hres). cbn [obind fst snd].
  assert (informed A (with_portMap m' b)) as R' by (split; [|done]; destruct R; constructor; cbn; rewrite ?M2; done).
  destruct res as [[r d]|].
  { destruct Hres as [He Hc]. apply (rt_entries _ _ R) in He as (Hd & l & Hl & Hr). split; [done|]. left. by exists l, r. }
  assert (forall d, ~ claimed A q d) as Hno.
  { intros d (l & r & Hl & Hd & Hr & Hc). apply (Hres (r, d)); [|done]. apply (rt_entries _ _ R). eauto. }
  cbn [useDefaultRange with_portMap defaultPortID defaultRange]. rewrite C2, C3. unfold goes_to. destruct udr eqn:Eu.
  - destruct (Hs eq_refl) as [l Hl]. pose proof (rt_default _ _ R l Hl) as Hd. rewrite Eu in Hd. destruct Hd as [-> Hd].
    rewrite isSubset_proper by done. cbn [obind]. pose proof (rt_ids _ _ R dp ltac:(eauto)). destruct (decide (covers_range (defaultRange b) q)) as [Hc|Hc].
    + rewrite bool_decide_eq_true_2 by done. split; [done|]. right. split_and!; try done; [unfold InvalidPortID; lia|eauto].
    + rewrite bool_decide_eq_false_2 by done. split; [done|]. split; [done|]. intros r. rewrite Hl. by intros [= <-].
  - destruct (Z.eqb_spec dp InvalidPortID) as [E|E]; cbn [negb]; [done|]. split; [done|]. right. done.
Qed.

(** There is an answer, a port of the crossbar or none, and only one. *)
Lemma goes_somewhere A b q : informed A b -> proper q -> exists o, goes_to A q o.
Proof.
  intros S Hq. pose proof (findPort_spec A b q S Hq) as Hf. destruct (findPort q b) as [[d b']|f]; [exists (Some d); apply Hf|exists None; apply Hf].
Qed.

Lemma goes_to_port A b q d : informed A b -> goes_to A q (Some d) -> 0 <= d < N.
Proof.
  intros (R & _) [(l & r & Hl & _)|(-> & Hi & _)]; [apply (rt_ids _ _ R); eauto|]. pose proof (rt_port _ _ R). lia.
Qed.

Lemma goes_to_inj A b q o o' : informed A b -> proper q -> goes_to A q o -> goes_to A q o' -> o = o'.
Proof.
  intros (R & _ & Hs) Hq. assert (forall d d', claimed A q d -> claimed A q d' -> d = d') as Hc.
  { intros d d' (l & r & Hl & Hd & Hr & Hc) (l' & r' & Hl' & Hd' & Hr' & Hc'). assert ((r, d) = (r', d')) as [= _ ->]; [|done].
    apply (key_unique (portMap b)); [apply R|apply (rt_entries _ _ R); eauto|apply (rt_entries _ _ R); eauto|].
    exists (_start q). destruct Hq. unfold covers_range, within in *. cbn. lia. }
  destruct o as [d|], o' as [d'|]; cbn; [| | |done].
  - intros [H|(-> & _ & H & _)] [H'|(-> & _ & H' & _)]; [f_equal; by apply Hc|by destruct (H' d)|by destruct (H d')|done].
  - intros [H|(-> & Hi & _ & H)] [H' Hu]; [by destruct (H' d)|]. destruct udr; [|done]. destruct (H eq_refl) as (r & Hr & Hcr). by destruct (Hu r).
  - intros [H' Hu] [H|(-> & Hi & _ & H)]; [by destruct (H' d')|]. destruct udr; [|done]. destruct (H eq_refl) as (r & Hr & Hcr). by destruct (Hu r).
Qed.

(** ** Runs *)
Lemma lookups_informed A qs : forall b b1, informed A b -> Forall proper qs -> lookups qs b = Ok b1 -> informed A b1.
Proof.
  induction qs as [|q qs IH]; intros b b1 R HP E; cbn in E; [by injection E as <-|]. apply Forall_cons in HP as [Hq HP].
  pose proof (findPort_spec A b q R Hq) as Hf. destruct (findPort q b) as [[d b2]|]; [|done]. cbn in E. destruct Hf as (R2 & _). by apply (IH b2).
Qed.

(** The announcements, one after another, are accepted. *)
Fixpoint all_accepted A (l : list (Z * list AddrRange)) : Prop :=
  match l with
  | [] => True
  | (id, ranges) :: l' => accepted A id ranges /\ all_accepted (<[id := asked_for id ranges]> A) l'
  end.

(** What has been announced last. *)
Definition announce A (l : list (Z * list AddrRange)) : announced := foldl (fun A c => <[c.1 := asked_for c.1 c.2]> A) A l.

(** The crossbar knows, and has up_to_date, what was announced. *)
Definition up_to_date A (b : BaseXBar) : Prop :=
  routes A b /\ (gotAllAddrRanges b = true -> informed A b /\ forall r, r ∈ xbarRanges b <-> reported A r).

Lemma range_changes_spec l : forall A b, up_to_date A b -> Forall (fun c => 0 <= c.1 < N /\ Forall proper c.2) l ->
  match range_changes l b with
  | Ok b' => all_accepted A l /\ up_to_date (announce A l) b'
  | Fault f => ~ all_accepted A l /\ (f = Fatal \/ f = IndexOutOfRange /\ udr = true /\ dp = InvalidPortID)
  end.
Proof.
  induction l as [|[id ranges] l IH]; intros A b T HF; cbn [range_changes all_accepted]; [done|]. apply Forall_cons in HF as [(H1 & H3) HF]. cbn [fst snd] in H1, H3.
  pose proof (range_change_spec A b id ranges (proj1 T) H1 H3) as Hs. destruct (recvRangeChange id ranges b) as [[nt b1]|f]; cbn [obind fst snd]; [|tauto].
  destruct Hs as (S1 & S2). specialize (IH (<[id := asked_for id ranges]> A) b1 S2 HF). unfold announce in *. cbn [foldl fst snd].
  destruct (range_changes l b1); [|tauto]. by destruct IH.
Qed.
End Announced.

(** The configuration of a new crossbar. *)
Definition num_ports (n : nat) (dp : bool) : Z := Z.of_nat (n + if dp then 1 else 0).
Definition default_id (n : nat) (dp : bool) : Z := if dp then Z.of_nat n else InvalidPortID.

Lemma new_routes (n : nat) (dp udr : bool) : 0 < num_ports n dp -> up_to_date (num_ports n dp) (default_id n dp) udr ∅ (new_BaseXBar n dp udr).
Proof.
  unfold num_ports, default_id. set (k := (n + if dp then 1 else 0)%nat). intros Hk. split; [|done]. constructor; cbn; fold k.
  - split; [unfold vsize; by rewrite length_replicate|done].
  - destruct dp; [right; lia|by left].
  - constructor; constructor.
  - intros r d. split; [by intros ?%not_elem_of_nil|]. by intros (_ & l & ? & _).
  - intros d Hd. apply vget_Ok; [lia|]. rewrite lookup_replicate_2 by lia. done.
  - split; [done|]. intros Hx. destruct (Hx 0) as [? ?]; [lia|done].
  - done.
  - by intros d [? ?].
Qed.

(** C23 (refinement). The crossbar routes as the ports have announced, for ranges
    that are not empty and not interleaved.  A crossbar with any number of
    memory-side ports, perhaps a default port, and with or without the use of
    the default port's range, is told of ranges, in any order and again when
    they change.  It stops exactly when an announcement is not accepted: ranges
    of a port other than the default one that meet each other or those another
    such port announced last; a default range, when it is used, that is not a
    single range; or, once everyone has announced, a range that meets the default
    range and is not part of it.  It stops with [fatal], except that with
    [use_default_range] and no default port it indexes a vector with the invalid
    port.  It knows when every port has announced.  Then it reports the default
    range, if that is used, and the other announced ranges that are not part of
    it; and a range of addresses goes to the port whose last announcement covers
    it, otherwise to the default port, if there is one and its range, when it is
    used, covers it; otherwise it stops with [fatal].  What was looked up before
    makes no difference. *)
Theorem xbar_routes_as_announced (n : nat) (dp udr : bool) l : 0 < num_ports n dp ->
  Forall (fun c => 0 <= c.1 < num_ports n dp /\ Forall proper c.2) l ->
  let A := announce (default_id n dp) udr ∅ l in
  match range_changes l (new_BaseXBar n dp udr) with
  | Ok b => all_accepted (num_ports n dp) (default_id n dp) udr ∅ l /\ (gotAllAddrRanges b = true <-> all_announced (num_ports n dp) A) /\
      (gotAllAddrRanges b = true ->
        (exists rs, getAddrRanges b = Ok rs /\ forall r, r ∈ rs <-> reported (default_id n dp) udr A r) /\
        forall qs q b1, Forall proper qs -> proper q -> lookups qs b = Ok b1 ->
          match findPort q b1 with
          | Ok (d, _) => goes_to (default_id n dp) udr A q (Some d)
          | Fault f => f = Fatal /\ goes_to (default_id n dp) udr A q None
          end)
  | Fault f => ~ all_accepted (num_ports n dp) (default_id n dp) udr ∅ l /\ (f = Fatal \/ f = IndexOutOfRange /\ udr = true /\ dp = false)
  end.
Proof.
  intros Hn HF A. pose proof (range_changes_spec (num_ports n dp) (default_id n dp) udr l ∅ _ (new_routes n dp udr Hn) HF) as H.
  destruct (range_changes l _) as [b|f].
  2:{ destruct H as [H1 [->|(-> & Hu & Hd)]]; split; try done; [by left|right]. split; [done|]. split; [done|]. destruct dp; [unfold default_id, InvalidPortID in Hd; lia|done]. }
  destruct H as (H1 & R & HS). split; [done|]. split; [apply (rt_all _ _ _ _ _ R)|]. intros Hall. destruct (HS Hall) as [S Hr]. split.
  { exists (xbarRanges b). unfold getAddrRanges. rewrite Hall. done. }
  intros qs q b1 HQ Hq Hb1. pose proof (lookups_informed _ _ _ A qs b b1 S HQ Hb1) as S1.
  pose proof (findPort_spec _ _ _ A b1 q S1 Hq) as Hf. destruct (findPort q b1) as [[d b2]|f]; [apply Hf|done].
Qed.
End XBar.

(** Two memory-side ports and a default port, whose range is used; the first port
    announces twice, the last time a part of the default range. *)
Module DemoXBar.
Definition changes : list (Z * list AddrRange) :=
  [(0, [plain_range 0 4096]); (1, [plain_range 8192 12288; plain_range 4096 8192]); (2, [plain_range 16384 65536]); (0, [plain_range 16384 20480])].
Definition asked : list AddrRange := [plain_range 8192 8256; plain_range 4096 4160].
Definition says (q : AddrRange) (b : BaseXBar) : Prop :=
  match findPort true q b with
  | Ok (d, _) => goes_to 2 true (announce 2 true ∅ changes) q (Some d)
  | Fault f => f = Fatal /\ goes_to 2 true (announce 2 true ∅ changes) q None
  end.
End DemoXBar.

Lemma xbar_routes_as_announced_witness : exists b, range_changes true DemoXBar.changes (new_BaseXBar 2 true true) = Ok b /\
  gotAllAddrRanges b = true /\ exists b1, lookups true DemoXBar.asked b = Ok b1 /\
  DemoXBar.says (plain_range 16384 16448) b1 /\ DemoXBar.says (plain_range 32768 32832) b1 /\ DemoXBar.says (plain_range 0 64) b1.
Proof.
  assert (forall s e, s < e -> proper (plain_range s e)) as Hp by (intros s e H; split; [by split|exact H]).
  pose proof (xbar_routes_as_announced true 2 true true DemoXBar.changes ltac:(reflexivity)
    ltac:(repeat constructor; cbn; try lia)) as H.
  cbv zeta in H. destruct (range_changes true DemoXBar.changes (new_BaseXBar 2 true true)) as [b|f] eqn:E; [|vm_compute in E; discriminate E].
  exists b. split; [reflexivity|]. destruct H as (_ & _ & H).
  assert (gotAllAddrRanges b = true) as Hall by (vm_compute in E; injection E as <-; reflexivity). split; [exact Hall|].
  destruct (lookups true DemoXBar.asked b) as [b1|f] eqn:El; [|exfalso; vm_compute in E; injection E as <-; vm_compute in El; discriminate El].
  exists b1. split; [reflexivity|]. destruct (H Hall) as [_ Hf].
  assert (Forall proper DemoXBar.asked) as HQ by (apply Forall_cons_2; [apply Hp; lia|]; apply Forall_cons_2; [apply Hp; lia|constructor]).
  split_and!; (apply (Hf DemoXBar.asked); [exact HQ|apply Hp; lia|exact El]).
Defined.
