(* ===== verification/SnoopFilter.v ===== *)
(** The snoop filter of a coherent crossbar: [mem/snoop_filter.hh] and
    [mem/snoop_filter.cc].

    A [std::bitset<256>] is a number below [2^256].  The iterator that
    [lookupRequest] leaves for [finishRequest] is the key it points to, or none
    for the end of the map.  A port is its identifier and whether it snoops. *)
From Stdlib Require Import ZArith Lia Bool.
From stdpp Require Import base numbers gmap list.
From S2P Require Import Prelude Bitfield MemRequest MemPacket BaseXBar.
Local Open Scope Z_scope.

Record Port := mkPort { getId : Z; isSnooping : bool }.

#[global] Instance Port_eq_dec : EqDecision Port.
Proof. solve_decision. Defined.

Definition SNOOP_MASK_SIZE : Z := 256.
Definition LineSecure : Z := 1.

(** ** Masks *)
Definition mask_shift (i : Z) : Z := if (0 <=? i) && (i <? SNOOP_MASK_SIZE) then Z.shiftl 1 i else 0.
Definition mask_any (m : Z) : bool := negb (m =? 0).
Definition mask_none (m : Z) : bool := m =? 0.
Definition mask_not (m : Z) : Z := Z.lxor m (Z.ones SNOOP_MASK_SIZE).
Fixpoint mask_count (n : nat) (m : Z) : Z :=
  match n with O => 0 | S k => Z.b2z (Z.testbit m (Z.of_nat k)) + mask_count k m end.

Record SnoopItem := mkItem { requested : Z; holder : Z }.
Definition null_item : SnoopItem := mkItem 0 0.

Record SnoopFilterStats := mkSfStats {
  totRequests : Z; hitSingleRequests : Z; hitMultiRequests : Z;
  totSnoops : Z; hitSingleSnoops : Z; hitMultiSnoops : Z;
}.

Record SnoopFilter := mkFilter {
  cachedLocations : gmap Z SnoopItem;
  reqLookup_it : option Z;
  retryItem : SnoopItem;
  cpuSidePorts : list Port;
  localResponsePortIds : list Z;
  linesize : Z;
  lookupLatency : Z;
  maxEntryCount : Z;
  sf_stats : SnoopFilterStats;
}.

Definition with_locations (c : gmap Z SnoopItem) (f : SnoopFilter) : SnoopFilter :=
  mkFilter c (reqLookup_it f) (retryItem f) (cpuSidePorts f) (localResponsePortIds f) (linesize f) (lookupLatency f)
    (maxEntryCount f) (sf_stats f).
Definition with_lookup (it : option Z) (r : SnoopItem) (f : SnoopFilter) : SnoopFilter :=
  mkFilter (cachedLocations f) it r (cpuSidePorts f) (localResponsePortIds f) (linesize f) (lookupLatency f)
    (maxEntryCount f) (sf_stats f).
Definition with_ports (p : list Port) (l : list Z) (f : SnoopFilter) : SnoopFilter :=
  mkFilter (cachedLocations f) (reqLookup_it f) (retryItem f) p l (linesize f) (lookupLatency f)
    (maxEntryCount f) (sf_stats f).
Definition with_sf_stats (s : SnoopFilterStats) (f : SnoopFilter) : SnoopFilter :=
  mkFilter (cachedLocations f) (reqLookup_it f) (retryItem f) (cpuSidePorts f) (localResponsePortIds f) (linesize f)
    (lookupLatency f) (maxEntryCount f) s.

Definition new_SnoopFilter (cacheLineSize lookup_latency max_capacity : Z) : outcome SnoopFilter :=
  let? n := udiv max_capacity cacheLineSize in
  Ok (mkFilter ∅ None null_item [] [] cacheLineSize lookup_latency (u32 n) (mkSfStats 0 0 0 0 0 0)).

(** The loop of [setCPUSidePorts]. *)
Fixpoint number_ports (l : list Port) (id : Z) (ports : list Port) (ids : list Z) : outcome (Z * list Port * list Z) :=
  match l with
  | [] => Ok (id, ports, ids)
  | p :: l' =>
      if isSnooping p then
        let? ids := vset ids (getId p) id in number_ports l' (id + 1) (ports ++ [p]) ids
      else number_ports l' id ports ids
  end.

Definition setCPUSidePorts (l : list Port) (f : SnoopFilter) : outcome SnoopFilter :=
  let n := length (localResponsePortIds f) in
  let ids := take (length l) (localResponsePortIds f) ++ replicate (length l - n) InvalidPortID in
  let? r := number_ports l 0 (cpuSidePorts f) ids in
  let? _ := ocheck (r.1.1 <=? SNOOP_MASK_SIZE) Fatal in
  Ok (with_ports r.1.2 r.2 f).

Definition portToMask (f : SnoopFilter) (p : Port) : outcome Z :=
  let? _ := ocheck (negb (getId p =? InvalidPortID)) AssertFailed in
  if negb (isSnooping p) then Ok 0
  else let? i := vget (localResponsePortIds f) (getId p) in Ok (mask_shift i).

Fixpoint select_ports (f : SnoopFilter) (m : Z) (l : list Port) : outcome (list Port) :=
  match l with
  | [] => Ok []
  | p :: l' =>
      let? pm := portToMask f p in
      let? r := select_ports f m l' in
      Ok (if mask_any (Z.land m pm) then p :: r else r)
  end.
Definition maskToPortList (f : SnoopFilter) (m : Z) : outcome (list Port) := select_ports f m (cpuSidePorts f).

(** The key of the line of a packet. *)
Definition line_of (f : SnoopFilter) (p : Packet) : outcome Z :=
  let? a := getBlockAddr (linesize f) p in Ok (if pk_secure p then Z.lor a LineSecure else a).

(** ** Operations *)
Definition eraseIfNullEntry (line : Z) (c : gmap Z SnoopItem) : outcome (gmap Z SnoopItem) :=
  let? i := oget DanglingDeref (c !! line) in
  Ok (if mask_none (Z.lor (requested i) (holder i)) then delete line c else c).

Definition count_request (hit : bool) (interested : Z) (s : SnoopFilterStats) : SnoopFilterStats :=
  let one := mask_count 256 interested =? 1 in
  mkSfStats (totRequests s + 1) (hitSingleRequests s + Z.b2z (hit && one)) (hitMultiRequests s + Z.b2z (hit && negb one))
    (totSnoops s) (hitSingleSnoops s) (hitMultiSnoops s).
Definition count_snoop (interested : Z) (s : SnoopFilterStats) : SnoopFilterStats :=
  let one := mask_count 256 interested =? 1 in
  mkSfStats (totRequests s) (hitSingleRequests s) (hitMultiRequests s)
    (totSnoops s + 1) (hitSingleSnoops s + Z.b2z one) (hitMultiSnoops s + Z.b2z (negb one)).

(** The item after a request of the port [req_port]. *)
Definition request_item (cpkt : Packet) (req_port : Z) (i : SnoopItem) : outcome SnoopItem :=
  if needsResponse (pk_cmd cpkt) then
    if negb (cacheResponding cpkt) then
      let? _ := ocheck (mask_none (Z.land (requested i) req_port)) Panic in
      Ok (mkItem (Z.lor (requested i) req_port) (holder i))
    else
      let? _ := ocheck (mask_any (Z.land (holder i) req_port)) Panic in Ok i
  else
    let? _ := ocheck (isEviction (pk_cmd cpkt)) AssertFailed in
    let? _ := ocheck (mask_any (Z.land (holder i) req_port)) Panic in
    Ok (if negb (isBlockCached cpkt) then mkItem (requested i) (Z.land (holder i) (mask_not req_port)) else i).

Definition lookupRequest (cpkt : Packet) (cpu_side_port : Port) (f : SnoopFilter) : outcome (list Port * Z * SnoopFilter) :=
  let allocate := negb (isUncacheable (pk_req cpkt)) && isSnooping cpu_side_port && fromCache (pk_cmd cpkt) in
  let? line_addr := line_of f cpkt in
  let? req_port := portToMask f cpu_side_port in
  let is_hit := bool_decide (is_Some (cachedLocations f !! line_addr)) in
  if negb is_hit && negb allocate then Ok ([], lookupLatency f, with_lookup None (retryItem f) f)
  else
    let sf_item := default null_item (cachedLocations f !! line_addr) in
    let interested := Z.lor (holder sf_item) (requested sf_item) in
    let f := with_lookup (Some line_addr) sf_item (with_locations (<[line_addr := sf_item]> (cachedLocations f)) f) in
    let f := with_sf_stats (count_request is_hit interested (sf_stats f)) f in
    let? item := (if allocate then request_item cpkt req_port sf_item else Ok sf_item) in
    let f := with_locations (<[line_addr := item]> (cachedLocations f)) f in
    let? l := maskToPortList f (Z.land interested (mask_not req_port)) in
    Ok (l, lookupLatency f, f).

Definition finishRequest (will_retry : bool) (addr : Z) (is_secure : bool) (f : SnoopFilter) : outcome SnoopFilter :=
  match reqLookup_it f with
  | None => Ok f
  | Some line =>
      let a := Z.land addr (lnot64 (u64 (linesize f - 1))) in
      let? i := oget DanglingDeref (cachedLocations f !! line) in
      let? _ := ocheck (line =? (if is_secure then Z.lor a LineSecure else a)) AssertFailed in
      let c := if will_retry then <[line := retryItem f]> (cachedLocations f) else cachedLocations f in
      let? c := eraseIfNullEntry line c in
      Ok (with_locations c f)
  end.

Definition lookupSnoop (cpkt : Packet) (f : SnoopFilter) : outcome (list Port * Z * SnoopFilter) :=
  let? _ := ocheck (isRequest (pk_cmd cpkt)) AssertFailed in
  let? line_addr := line_of f cpkt in
  match cachedLocations f !! line_addr with
  | None =>
      let? _ := ocheck (negb (maxEntryCount f <=? Z.of_nat (size (cachedLocations f)))) Panic in
      Ok ([], lookupLatency f, f)
  | Some sf_item =>
      let interested := Z.lor (holder sf_item) (requested sf_item) in
      let f := with_sf_stats (count_snoop interested (sf_stats f)) f in
      let? w := pk_needsWritable cpkt in
      let? _ := ocheck (isWriteback (pk_cmd cpkt) || isUncacheable (pk_req cpkt) || eqb (isInvalidate (pk_cmd cpkt)) w ||
        isCacheMaintenance (pk_req cpkt)) AssertFailed in
      let? f := (if isInvalidate (pk_cmd cpkt) && mask_none (requested sf_item) then
        let? c := eraseIfNullEntry line_addr (<[line_addr := mkItem (requested sf_item) 0]> (cachedLocations f)) in
        Ok (with_locations c f)
      else Ok f) in
      let? l := maskToPortList f interested in
      Ok (l, lookupLatency f, f)
  end.

Definition updateSnoopResponse (cpkt : Packet) (rsp_port req_port : Port) (f : SnoopFilter) : outcome SnoopFilter :=
  let? _ := ocheck (isResponse (pk_cmd cpkt)) AssertFailed in
  let? _ := ocheck (cacheResponding cpkt) AssertFailed in
  if isUncacheable (pk_req cpkt) || negb (isSnooping req_port) then Ok f
  else
    let? line_addr := line_of f cpkt in
    let? rsp_mask := portToMask f rsp_port in
    let? req_mask := portToMask f req_port in
    let sf_item := default null_item (cachedLocations f !! line_addr) in
    let? _ := ocheck (mask_any (Z.land (holder sf_item) rsp_mask)) Panic in
    let? _ := ocheck (mask_any (Z.land (requested sf_item) req_mask)) Panic in
    let h := if negb (hasSharers cpkt) then 0 else holder sf_item in
    let? _ := ocheck (negb (isWriteback (pk_cmd cpkt))) AssertFailed in
    let item := mkItem (Z.land (requested sf_item) (mask_not req_mask)) (Z.lor h req_mask) in
    let? _ := ocheck (mask_any (Z.lor (requested item) (holder item))) AssertFailed in
    Ok (with_locations (<[line_addr := item]> (cachedLocations f)) f).

Definition updateSnoopForward (cpkt : Packet) (rsp_port : Port) (f : SnoopFilter) : outcome SnoopFilter :=
  let? _ := ocheck (isResponse (pk_cmd cpkt)) AssertFailed in
  let? _ := ocheck (cacheResponding cpkt) AssertFailed in
  let? line_addr := line_of f cpkt in
  match cachedLocations f !! line_addr with
  | None => Ok f
  | Some sf_item =>
      if negb (hasSharers cpkt) then
        let? c := eraseIfNullEntry line_addr (<[line_addr := mkItem (requested sf_item) 0]> (cachedLocations f)) in
        Ok (with_locations c f)
      else Ok f
  end.

Definition updateResponse (cpkt : Packet) (cpu_side_port : Port) (f : SnoopFilter) : outcome SnoopFilter :=
  let? _ := ocheck (isResponse (pk_cmd cpkt)) AssertFailed in
  if isUncacheable (pk_req cpkt) || negb (isSnooping cpu_side_port) then Ok f
  else
    let? line_addr := line_of f cpkt in
    match cachedLocations f !! line_addr with
    | None => Ok f
    | Some sf_item =>
        let? response_mask := portToMask f cpu_side_port in
        let? _ := ocheck (mask_any (Z.land (requested sf_item) response_mask)) Panic in
        let r := Z.land (requested sf_item) (mask_not response_mask) in
        if isCacheMaintenance (pk_req cpkt) then
          let h := if isInvalidate (pk_cmd cpkt) then Z.land (holder sf_item) (mask_not response_mask) else holder sf_item in
          let? c := eraseIfNullEntry line_addr (<[line_addr := mkItem r h]> (cachedLocations f)) in
          Ok (with_locations c f)
        else
          let item := mkItem r (Z.lor (holder sf_item) response_mask) in
          let? _ := ocheck (mask_any (Z.lor (holder item) (requested item))) AssertFailed in
          Ok (with_locations (<[line_addr := item]> (cachedLocations f)) f)
    end.
