(* ===== verification/CoherentXBar.v ===== *)
(** The coherent crossbar in atomic and functional mode:
    [mem/coherent_xbar.hh], [coherent_xbar.cc] with the routing of
    [mem/xbar.cc], between coherent caches and what is below.

    [caches] are the caches on the snooping CPU-side ports, by port; the cache
    whose request is being served is not among them, as nothing is sent back to
    it.  [down k] is the memory-side port [k] in atomic mode and [downF k] in
    functional mode.  [packet_id] is the identity of a packet.  The statistics
    of the traffic are left out. *)
From Stdlib Require Import ZArith Lia Bool.
From stdpp Require Import base numbers gmap list.
From S2P Require Import Prelude ReplBase Bitfield AddrRange Indexing CacheBlk Partition Tags Bytes MemRequest MemPacket Clocked ClassicCache ClassicAccess.
From S2P Require Import ClassicFunctional ClassicSnoop BaseXBar SnoopFilter.
Local Open Scope Z_scope.

Record XBar := mkXBar {
  snoopFilter : option SnoopFilter;
  pointOfCoherency : bool; pointOfUnification : bool;
  bypassCaches : bool;
  xb_cpuSidePorts : list Port;
  snoopPorts : list Port;
  outstandingCMO : gset Z;
  routing : BaseXBar;
  xb_clockPeriod : Z;
}.

Definition with_filter (f : option SnoopFilter) (x : XBar) : XBar :=
  mkXBar f (pointOfCoherency x) (pointOfUnification x) (bypassCaches x) (xb_cpuSidePorts x) (snoopPorts x) (outstandingCMO x)
    (routing x) (xb_clockPeriod x).
Definition with_cmo (c : gset Z) (x : XBar) : XBar :=
  mkXBar (snoopFilter x) (pointOfCoherency x) (pointOfUnification x) (bypassCaches x) (xb_cpuSidePorts x) (snoopPorts x) c
    (routing x) (xb_clockPeriod x).

Definition with_routing (r : BaseXBar) (x : XBar) : XBar :=
  mkXBar (snoopFilter x) (pointOfCoherency x) (pointOfUnification x) (bypassCaches x) (xb_cpuSidePorts x) (snoopPorts x) (outstandingCMO x)
    r (xb_clockPeriod x).

(** [init]: the ports that snoop, and the snoop filter hears of the ports. *)
Definition xbar_init (x : XBar) : outcome XBar :=
  let? f := match snoopFilter x with
    | Some f => let? f := setCPUSidePorts (xb_cpuSidePorts x) f in Ok (Some f)
    | None => Ok None
    end in
  Ok (mkXBar f (pointOfCoherency x) (pointOfUnification x) (bypassCaches x) (xb_cpuSidePorts x)
    (snoopPorts x ++ filter (fun p => isSnooping p = true) (xb_cpuSidePorts x)) (outstandingCMO x)
    (routing x) (xb_clockPeriod x)).

Definition isDestination (x : XBar) (p : Packet) : bool :=
  (isToPOC (pk_req p) && pointOfCoherency x) || (isToPOU (pk_req p) && pointOfUnification x).

Definition sinkPacket (x : XBar) (p : Packet) : outcome bool :=
  if (pointOfCoherency x && cacheResponding p) ||
     (pointOfCoherency x && negb (isRead (pk_cmd p) || isWrite (pk_cmd p)) && negb (needsResponse (pk_cmd p))) ||
     (isCleanEviction p && isBlockCached p) then Ok true
  else if cacheResponding p then
    let? w := pk_needsWritable p in Ok (negb w || responderHadWritable p)
  else Ok false.

Definition forwardPacket (x : XBar) (p : Packet) : bool :=
  if isClean (pk_cmd p) then negb (isDestination x p)
  else isRead (pk_cmd p) || isWrite (pk_cmd p) || negb (pointOfCoherency x).

(** [findPort(pkt)]; the map of the ranges remembers what was found. *)
Definition find_port (gnu : bool) (p : Packet) (x : XBar) : outcome (Z * XBar) :=
  let? r := getAddrRange p in
  let? s := findPort gnu r (routing x) in Ok (s.1, with_routing s.2 x).

Section XBar.
Context {P D I B : Type} {RP : ReplacementPolicy P D} {IP : IndexingPolicy I}.
#[local] Abbreviation S := (cc_sys P D I).

Record xsys := mkX { xbar : XBar; caches : gmap Z S; below : B }.

Context (junk : Z) (gnu : bool) (packet_id : Packet -> Z) (ranges : Z -> list AddrRange).
Context (above : Z -> Packet -> Packet) (forwardSnoops : Z -> bool) (down : Z -> Packet -> B -> outcome (Packet * Z * B)).

Definition get_port (k : Z) (x : xsys) : outcome Port := vget (xb_cpuSidePorts (xbar x)) k.

(** [p->sendAtomicSnoop(pkt)]: the cache on the port is snooped; [send] is how
    it reaches this crossbar. *)
Definition sendAtomicSnoop (send : Z -> Packet -> xsys -> outcome (Packet * Z * xsys)) (p : Port) (pkt : Packet) (x : xsys) :
    outcome (Packet * Z * xsys) :=
  let k := getId p in
  let? s := oget NullDeref (caches x !! k) in
  let? r := recvAtomicSnoop junk (send k) (above k) (forwardSnoops k) gnu (ranges k) pkt (s, mkX (xbar x) (delete k (caches x)) (below x)) in
  let x' := r.2.2 in
  Ok (r.1, mkX (xbar x') (<[k := r.2.1]> (caches x')) (below x')).

(** The filter hears of a response to a snoop. *)
Definition filter_response (pkt : Packet) (exclude source : Z) (p : Port) (x : xsys) : outcome xsys :=
  match snoopFilter (xbar x) with
  | None => Ok x
  | Some f =>
      let? f := (if negb (source =? InvalidPortID) then
        let? _ := ocheck (exclude =? InvalidPortID) AssertFailed in updateSnoopForward pkt p f
      else let? req_port := get_port exclude x in updateSnoopResponse pkt p req_port f) in
      Ok (mkX (with_filter (Some f) (xbar x)) (caches x) (below x))
  end.

(** [forwardAtomic]: the packet, the response of a snooper and its latency. *)
Fixpoint forward_loop (send : Z -> Packet -> xsys -> outcome (Packet * Z * xsys)) (orig_cmd : Command) (exclude source : Z) (dests : list Port)
    (acc : option Command * Z) (pkt : Packet) (x : xsys) : outcome (Packet * (option Command * Z) * xsys) :=
  match dests with
  | [] => Ok (pkt, acc, x)
  | p :: dests' =>
      if negb (exclude =? InvalidPortID) && (getId p =? exclude)
      then forward_loop send orig_cmd exclude source dests' acc pkt x
      else
        let? r := sendAtomicSnoop send p pkt x in
        let pkt := r.1.1 in
        if negb (isResponse (pk_cmd pkt)) then forward_loop send orig_cmd exclude source dests' acc pkt r.2
        else
          let? _ := ocheck (negb (bool_decide (pk_cmd pkt = orig_cmd))) AssertFailed in
          let? _ := ocheck (cacheResponding pkt) AssertFailed in
          let? _ := ocheck (match acc.1 with None => true | Some _ => false end) AssertFailed in
          let? x := filter_response pkt exclude source p r.2 in
          forward_loop send orig_cmd exclude source dests' (Some (pk_cmd pkt), r.1.2) (with_cmd orig_cmd pkt) x
  end.

Definition forwardAtomic (send : Z -> Packet -> xsys -> outcome (Packet * Z * xsys)) (exclude source : Z) (dests : list Port)
    (pkt : Packet) (x : xsys) : outcome (Packet * (option Command * Z) * xsys) :=
  let? _ := ocheck (negb (bypassCaches (xbar x))) AssertFailed in
  forward_loop send (pk_cmd pkt) exclude source dests (None, 0) pkt x.

(** The snoops of a request, with or without a snoop filter. *)
Definition snoop_request (send : Z -> Packet -> xsys -> outcome (Packet * Z * xsys)) (src : Z) (pkt : Packet) (x : xsys) :
    outcome (Packet * (option Command * Z) * xsys) :=
  match snoopFilter (xbar x) with
  | Some f =>
      let? port := get_port src x in
      let? r := lookupRequest pkt port f in
      let lat := u64 (r.1.2 * xb_clockPeriod (xbar x)) in
      let? a := getAddr pkt in
      let? f := finishRequest false a (pk_secure pkt) r.2 in
      let x := mkX (with_filter (Some f) (xbar x)) (caches x) (below x) in
      if isEviction (pk_cmd pkt) then
        Ok (match r.1.1 with [] => pkt | _ :: _ => setBlockCached pkt end, (None, lat), x)
      else
        let? t := forwardAtomic send src InvalidPortID r.1.1 pkt x in
        Ok (t.1.1, (t.1.2.1, u64 (lat + t.1.2.2)), t.2)
  | None => forwardAtomic send src InvalidPortID (snoopPorts (xbar x)) pkt x
  end.

(** The request at its destination. *)
Definition perform_request (is_destination : bool) (pkt : Packet) (x : xsys) : outcome (Packet * Z * xsys) :=
  let? sink := sinkPacket (xbar x) pkt in
  let? f := find_port gnu pkt (xbar x) in
  let x := mkX f.2 (caches x) (below x) in
  if sink : bool then Ok (pkt, 0, x)
  else if forwardPacket (xbar x) pkt then
    let pkt := if isWrite (pk_cmd pkt) && is_destination then clearWriteThrough pkt else pkt in
    let? r := down f.1 pkt (below x) in Ok (r.1.1, r.1.2, mkX (xbar x) (caches x) r.2)
  else
    let? _ := ocheck (needsResponse (pk_cmd pkt)) AssertFailed in
    let? pkt := makeResponse pkt in Ok (pkt, 0, x).

(** The outstanding cache clean operations. *)
Definition track_cmo (pkt : Packet) (x : XBar) : outcome XBar :=
  let id := packet_id pkt in
  if isClean (pk_cmd pkt) && isDestination x pkt && satisfied pkt then
    let? _ := ocheck (bool_decide (id ∈ outstandingCMO x)) AssertFailed in
    Ok (with_cmo (outstandingCMO x ∖ {[id]}) x)
  else if bool_decide (pk_cmd pkt = WriteClean) && isDestination x pkt then
    let? _ := ocheck (bool_decide (id ∉ outstandingCMO x)) AssertFailed in
    Ok (with_cmo ({[id]} ∪ outstandingCMO x) x)
  else Ok x.

(** [recvAtomicBackdoor]; a snooped cache sends through [send]. *)
Definition recv_body (send : Z -> Packet -> xsys -> outcome (Packet * Z * xsys)) (src : Z) (pkt : Packet) (x : xsys) :
    outcome (Packet * Z * xsys) :=
  let is_destination := isDestination (xbar x) pkt in
  let snoop_caches := negb (bypassCaches (xbar x)) && negb (bool_decide (pk_cmd pkt = WriteClean)) in
  let? r := (if snoop_caches then snoop_request send src pkt x else Ok (pkt, (None, 0), x)) in
  let snoop_response := r.1.2 in
  let? t := perform_request is_destination r.1.1 r.2 in
  let pkt := t.1.1 in
  let? x := match snoopFilter (xbar t.2) with
    | Some f =>
        if negb (bypassCaches (xbar t.2)) && isResponse (pk_cmd pkt) then
          let? port := get_port src t.2 in
          let? f := updateResponse pkt port f in Ok (mkX (with_filter (Some f) (xbar t.2)) (caches t.2) (below t.2))
        else Ok t.2
    | None => Ok t.2
    end in
  let? q := match snoop_response.1 with
    | Some c => let? _ := ocheck (negb (isResponse (pk_cmd pkt))) AssertFailed in Ok (with_cmd c pkt, snoop_response.2)
    | None => Ok (pkt, t.1.2)
    end in
  let? b := track_cmo q.1 (xbar x) in
  Ok (with_payloadDelay q.2 q.1, q.2, mkX b (caches x) (below x)).

(** A snooped cache sends nothing but what a cache clean writes through, for
    which the crossbar does not snoop. *)
Fixpoint xbar_recvAtomic (fuel : nat) (src : Z) (pkt : Packet) (x : xsys) : outcome (Packet * Z * xsys) :=
  match fuel with
  | O => Fault OutOfFuel
  | Datatypes.S fuel' => recv_body (xbar_recvAtomic fuel') src pkt x
  end.

(** [recvAtomicSnoop]: a snoop from below. *)
Definition xbar_recvAtomicSnoop (fuel : nat) (mem_side_port : Z) (pkt : Packet) (x : xsys) : outcome (Packet * Z * xsys) :=
  let? r := match snoopFilter (xbar x) with
    | Some f =>
        let? r := lookupSnoop pkt f in
        let x := mkX (with_filter (Some r.2) (xbar x)) (caches x) (below x) in
        let? t := forwardAtomic (xbar_recvAtomic fuel) InvalidPortID mem_side_port r.1.1 pkt x in
        Ok (t.1.1, (t.1.2.1, u64 (u64 (r.1.2 * xb_clockPeriod (xbar x)) + t.1.2.2)), t.2)
    | None => forwardAtomic (xbar_recvAtomic fuel) InvalidPortID InvalidPortID (snoopPorts (xbar x)) pkt x
    end in
  let pkt := match r.1.2.1 with Some c => with_cmd c r.1.1 | None => r.1.1 end in
  Ok (with_payloadDelay r.1.2.2 pkt, r.1.2.2, r.2).

(** ** Functional mode *)
Context (downF : Z -> Packet -> B -> outcome (Packet * B)) (pending_modified : Z -> Z -> bool -> bool)
  (cache_queues : Z -> list (Packet -> outcome (Packet * bool))) (queues : list (Packet -> outcome (Packet * bool)))
  (snoopF : Z -> Packet -> xsys -> outcome (Packet * xsys)).

(** [p->sendFunctionalSnoop(pkt)]; a cache that does not complete the access
    passes it on to the caches above it. *)
Definition sendFunctionalSnoop (p : Port) (pkt : Packet) (x : xsys) : outcome (Packet * xsys) :=
  let k := getId p in
  let? s := oget NullDeref (caches x !! k) in
  let? r := ClassicFunctional.functionalAccess (snoopF k) (snoopF k) (pending_modified k) (cache_queues k) (forwardSnoops k) false pkt
    (s, mkX (xbar x) (delete k (caches x)) (below x)) in
  let x' := r.2.2 in
  Ok (r.1, mkX (xbar x') (<[k := r.2.1]> (caches x')) (below x')).

Fixpoint forward_functional (exclude : Z) (dests : list Port) (pkt : Packet) (x : xsys) : outcome (Packet * xsys) :=
  match dests with
  | [] => Ok (pkt, x)
  | p :: dests' =>
      let? r := (if (exclude =? InvalidPortID) || negb (getId p =? exclude) then sendFunctionalSnoop p pkt x else Ok (pkt, x)) in
      if isResponse (pk_cmd r.1) then Ok r else forward_functional exclude dests' r.1 r.2
  end.

Definition forwardFunctional (exclude : Z) (pkt : Packet) (x : xsys) : outcome (Packet * xsys) :=
  let? _ := ocheck (negb (bypassCaches (xbar x))) AssertFailed in
  forward_functional exclude (snoopPorts (xbar x)) pkt x.

(** The packets queued at the CPU-side ports complete the access, or not. *)
Definition ports_satisfy (pkt : Packet) : outcome (Packet * bool) :=
  let? r := queues_satisfy queues pkt in
  if r.2 : bool then let? p := (if needsResponse (pk_cmd r.1) then makeResponse r.1 else Ok r.1) in Ok (p, true) else Ok r.

Definition xbar_recvFunctional (src : Z) (pkt : Packet) (x : xsys) : outcome (Packet * xsys) :=
  let? r := (if negb (bypassCaches (xbar x)) then forwardFunctional src pkt x else Ok (pkt, x)) in
  if isResponse (pk_cmd r.1) then Ok r
  else
    let? q := ports_satisfy r.1 in
    if q.2 : bool then Ok (q.1, r.2)
    else
      let? f := find_port gnu q.1 (xbar r.2) in
      let? t := downF f.1 q.1 (below r.2) in Ok (t.1, mkX f.2 (caches r.2) t.2).

Definition xbar_recvFunctionalSnoop (pkt : Packet) (x : xsys) : outcome (Packet * xsys) :=
  let? q := ports_satisfy pkt in
  if q.2 : bool then Ok (q.1, x) else forwardFunctional InvalidPortID q.1 x.
End XBar.
Arguments xsys : clear implicits.
