(* ===== verification/ClassicServe.v ===== *)
(** A block of a classic cache serves a plain request as the memory would:
    [BaseCache::satisfyRequest] on a valid block. *)
From Stdlib Require Import ZArith Lia Bool.
From stdpp Require Import base numbers gmap list.
From S2P Require Import Prelude ReplBase Bitfield Indexing CacheBlk Partition Tags TagsInv TagsOps Bytes.
From S2P Require Import MemRequest MemPacket Clocked Serve ClassicCache ClassicOps ClassicTotal ClassicAccess.
Local Open Scope Z_scope.

(** The block, marked dirty. *)
Definition dirtied (b : CacheBlk) : CacheBlk :=
  with_state (whenReady b) (lockList b) (Z.lor (coherence b) DirtyBit) (_prefetched b) b.

Section Serve.
Context {P D I : Type} {RP : ReplacementPolicy P D} {RPL : ReplacementPolicyLaws P D}
  {IP : IndexingPolicy I} {IPL : IndexingLaws I} {SP : ServingPolicy P D}.
Implicit Types s : cc_sys P D I.

(** The rest of a cache, but for the tag store, the bytes and the counters. *)
Definition aside_same s s' : Prop :=
  cfg s' = cfg s /\ tempBlock s' = tempBlock s /\ tempData s' = tempData s /\ clk s' = clk s /\
  writeBuffer s' = writeBuffer s /\ tempBlockWriteback s' = tempBlockWriteback s /\
  eventScheduled s' = eventScheduled s /\ writebacks s' = writebacks s.

#[global] Instance aside_same_preorder : PreOrder aside_same.
Proof. split; [done|]. intros a b c (?&?&?&?&?&?&?&?) (?&?&?&?&?&?&?&?). unfold aside_same. naive_solver congruence. Qed.

(** The block [e] becomes [b] with the bytes [d]; its place and contents stay. *)
Record stepped s s' (e : loc) (o : object CacheBlk) (b : CacheBlk) (d : list Z) : Prop := {
  sd_tags : touched (tsys s) (tsys s') e o b;
  sd_id : same_identity (ext o) b /\ blk_data b = blk_data (ext o);
  sd_data : exists off, blk_data (ext o) = Some off /\ dataBlks s' = <[off := d]> (dataBlks s);
  sd_aside : aside_same s s';
  sd_sound : sound s';
  sd_contents : contents (tsys s') = contents (tsys s);
}.

Lemma sound_data s off d e o : sound s -> entries (wld (tsys s)) !! e = Some o -> vsize d = blk_size s ->
  sound (with_data (<[off := d]> (dataBlks s)) s).
Proof.
  intros [Hi Hac] He Hd. split; [done|]. destruct Hac as [A1 A2 A3 A4 A5 A6 A7]. constructor; try done. cbn.
  intros e' o' He'. destruct (A7 e' o' He') as (B1 & B2 & off' & d' & B3 & B4 & B5). split; [done|]. split; [done|].
  exists off'. destruct (decide (off' = off)) as [->|].
  - exists d. by rewrite lookup_insert_eq.
  - exists d'. by rewrite lookup_insert_ne.
Qed.

Lemma put_bytes_run e s o d : sound s -> entries (wld (tsys s)) !! e = Some o -> vsize d = blk_size s ->
  exists s', put_bytes (TagBlk e) d s = Ok (tt, s') /\ stepped s s' e o (ext o) d.
Proof.
  intros Hs He Hd. destruct (ac_blk _ _ (proj2 Hs) e o He) as (_ & _ & off & d0 & Ho & _).
  exists (with_data (<[off := d]> (dataBlks s)) s). split.
  - unfold put_bytes. rewrite (bind_Ok _ _ _ _ _ (get_blk_Ok e s o He)), Ho.
    by rewrite (bind_Ok _ _ s off s eq_refl), (bind_Ok getS _ s s s eq_refl).
  - constructor; try done; [by apply touched_refl|eauto|]. by eapply sound_data.
Qed.

Lemma stepped_lookup s s' e o b d : stepped s s' e o b d -> entries (wld (tsys s')) !! e = Some (mkObject (base o) b).
Proof. intros [T _ _ _ _ _]. by eapply touched_lookup. Qed.

Lemma stepped_bytes s s' e o b d : stepped s s' e o b d -> bytes_of s' b = d.
Proof. intros [_ (_ & E) (off & Ho & Ed) _ _ _]. unfold bytes_of. rewrite E, Ho, Ed. cbn. by rewrite lookup_insert_eq. Qed.

Lemma stepped_size s s' e o b d : stepped s s' e o b d -> blk_size s' = blk_size s.
Proof. intros [[_ _ (E & _)] _ _ _ _ _]. exact E. Qed.

Lemma stepped_key s s' e o b d : stepped s s' e o b d ->
  key_of (indexingPolicy (tags (tsys s'))) (mkObject (base o) b) = key_of (indexingPolicy (tags (tsys s))) o.
Proof.
  intros [[_ _ (_ & _ & E & _)] ((V & S1 & T & _) & _) _ _ _ _]. unfold key_of. cbn [ext base]. by rewrite E, <- V, <- S1, <- T.
Qed.

(** A change of the state of a block, after its bytes were. *)
Lemma stepped_call e f s s1 o b b' d : stepped s s1 e o b d -> f b = Ok b' ->
  same_identity b b' -> blk_data b' = blk_data b -> 0 <= _tickInserted b' <= MaxTick -> _srcRequestorId b' = _srcRequestorId b ->
  exists s', call_blk (TagBlk e) f s1 = Ok (tt, s') /\ stepped s s' e o b' d.
Proof.
  intros St Hf Hid Hd Ht Hr. pose proof (stepped_lookup _ _ _ _ _ _ St) as He.
  destruct St as [T ((V1 & S1 & T1 & X1) & D1) (off & Ho & Ed) As Sn C].
  destruct (call_blk_run e f s1 _ b' He Hf) as (s' & E & T2 & W). exists s'. split; [done|].
  destruct (sound_call e f s1 _ b' s' Sn He Hf E Hid Hd Ht Hr) as [Sn' C'].
  destruct T2 as [T2 (R1 & R2 & R3 & R4 & R5 & R6 & R7 & R8)]. destruct Hid as (V2 & S2 & Tg2 & X2). cbn [ext] in *.
  constructor; [by eapply touched_trans; [exact T| |exact T2]| | | |done|congruence].
  - split; [split_and!; congruence|congruence].
  - exists off. split; [done|]. by rewrite R4.
  - destruct As as (A1 & A2 & A3 & A4 & A5 & A6 & A7 & A8). split_and!; congruence.
Qed.

Lemma stepped_dirty e s s1 o b d : stepped s s1 e o b d -> isValid b = true -> 0 <= _tickInserted b <= MaxTick ->
  exists s', call_blk (TagBlk e) (setCoherenceBits DirtyBit) s1 = Ok (tt, s') /\ stepped s s' e o (dirtied b) d.
Proof.
  intros St V Ht. eapply (stepped_call e); try done. unfold setCoherenceBits. by rewrite V.
Qed.

Lemma stepped_refl e s o : sound s -> entries (wld (tsys s)) !! e = Some o -> stepped s s e o (ext o) (bytes_of s (ext o)).
Proof.
  intros Hs He. destruct (ac_blk _ _ (proj2 Hs) e o He) as (_ & _ & off & d & Ho & Hd & _).
  constructor; try done; [by apply touched_refl|]. exists off. split; [done|]. unfold bytes_of. rewrite Ho. cbn. rewrite Hd. cbn. by rewrite insert_id.
Qed.

Lemma stepped_bytes_run e s s1 o b d : stepped s s1 e o b d -> blk_bytes (TagBlk e) s1 = Ok (d, s1) /\ vsize d = blk_size s1.
Proof.
  intros St. rewrite <- (stepped_bytes _ _ _ _ _ _ St).
  exact (blk_bytes_run e s1 _ (proj2 (sd_sound _ _ _ _ _ _ St)) (stepped_lookup _ _ _ _ _ _ St)).
Qed.

Lemma stepped_put e s s1 o b d d' : stepped s s1 e o b d -> vsize d' = blk_size s ->
  exists s', put_bytes (TagBlk e) d' s1 = Ok (tt, s') /\ stepped s s' e o b d'.
Proof.
  intros St Hd. pose proof (stepped_lookup _ _ _ _ _ _ St) as He.
  destruct (put_bytes_run e s1 _ d' (sd_sound _ _ _ _ _ _ St) He) as (s' & E & St'); [by rewrite (stepped_size _ _ _ _ _ _ St)|].
  exists s'. split; [done|]. destruct St as [T ((V1 & S1 & T1 & X1) & D1) (off & Ho & Ed) As Sn C].
  destruct St' as [T' _ (off' & Ho' & Ed') As' Sn' C']. cbn [ext] in *. constructor; try done.
  - by eapply touched_trans; [exact T| |exact T'].
  - exists off. split; [done|]. assert (off' = off) as -> by congruence. by rewrite Ed', Ed, insert_insert_eq.
  - by etrans.
  - congruence.
Qed.

(** ** Satisfying a request *)
Context (junk : Z).

(** The request [p] lies in the block [e] of the address [a]. *)
Record within s (e : loc) (o : object CacheBlk) (a : Z) (sec : bool) (p : Packet) : Prop := {
  wi_sound : sound s;
  wi_entry : entries (wld (tsys s)) !! e = Some o;
  wi_key : key_of (indexingPolicy (tags (tsys s))) o = Some (a, sec);
  wi_plain : plain_packet p;
  wi_range : a <= pk_addr p /\ pk_addr p + pk_size p <= a + blk_size s;
}.

Lemma land_offset k a x : 0 <= k -> a mod 2 ^ k = 0 -> a <= x < a + 2 ^ k -> Z.land x (2 ^ k - 1) = x - a.
Proof.
  intros Hk Ha Hx. rewrite Z.sub_1_r, <- Z.ones_equiv, Z.land_ones by lia.
  replace x with ((x - a) + (a / 2 ^ k) * 2 ^ k) at 1.
  - rewrite Z.mod_add by lia. apply Z.mod_small. lia.
  - pose proof (Z.div_mod a (2 ^ k) ltac:(lia)). lia.
Qed.

Section Within.
Context s e o a sec p (W : within s e o a sec p).
#[local] Abbreviation off := (pk_addr p - a).
#[local] Abbreviation bytes := (bytes_of s (ext o)).
#[local] Abbreviation w := (window bytes off (pk_size p)).

Lemma within_facts : exists k, 2 <= k < 31 /\ blk_size s = 2 ^ k /\ 0 <= a < 2 ^ 64 /\ a mod 2 ^ k = 0 /\
  isValid (ext o) = true /\ vsize bytes = blk_size s /\ 2 ^ k < 2 ^ 31 /\ 0 <= _tickInserted (ext o) <= MaxTick.
Proof.
  destruct W as [[Hi Hac] He Hk Hp Hr]. destruct (key_aligned _ _ e o a sec Hi Hac He Hk) as (k & K1 & K2 & K3 & K4 & K5 & K6).
  exists k. split_and!; try done; try lia; [by apply blk_bytes_run with (e := e)|by apply Z.pow_lt_mono_r; lia| |]; apply (ac_blk _ _ Hac e o He).
Qed.

Lemma within_offset : pk_getOffset (blk_size s) p = Ok off /\ pk_getOffset (u32 (blk_size s)) p = Ok off /\
  extractBlkOffset (tags (tsys s)) (pk_addr p) = off /\ i32 off = off.
Proof.
  destruct within_facts as (k & K1 & K2 & K3 & K4 & _ & _ & K5 & _). destruct W as [[Hi Hac] He Hk Hp Hr].
  pose proof (pp_size _ Hp) as Hz. destruct (pp_flags _ Hp) as (F1 & _). rewrite K2 in *.
  assert (2 ^ 31 < 2 ^ 32) by lia. assert (0 < 2 ^ k) by (apply Z.pow_pos_nonneg; lia).
  unfold pk_getOffset, getAddr, extractBlkOffset. rewrite F1. cbn [ocheck obind]. rewrite (ac_mask _ _ Hac).
  change (blkSize (tags (tsys s))) with (blk_size s). rewrite K2.
  rewrite (uwrap_small 32 (2 ^ k)) by lia. rewrite (uwrap_small 32) by lia. rewrite (land_offset k a) by lia.
  rewrite swrap_small by lia. done.
Qed.

(** A swap of an atomic operation, and a compare and swap. *)
Lemma atomic_swap_serves : pk_cmd p = SwapReq -> isAtomic (pk_req p) = true ->
  exists s', atomic_swap (TagBlk e) p s = Ok ((serve p w).1, s') /\
    stepped s s' e o (dirtied (ext o)) (splice bytes (Z.to_nat off) (serve p w).2).
Proof.
  intros Hc Ha. destruct within_facts as (k & K1 & K2 & K3 & K4 & V & Hv & K5 & Ht). destruct within_offset as (_ & _ & O3 & _).
  destruct W as [Hs He Hk Hp Hr]. pose proof (pp_size _ Hp) as Hz. destruct (pp_flags _ Hp) as (F1 & _).
  pose proof (pp_swap _ Hp Hc) as Hw. unfold swap_ok in Hw. rewrite Ha in Hw. destruct Hw as (op & Ho & Hos & Hex).
  unfold atomic_swap. rewrite (bind_Ok _ _ _ _ _ (cc_regenerate_Ok s e o a sec He Hk)).
  rewrite (bind_Ok _ _ s (pk_addr p) s) by (unfold getAddr; by rewrite F1).
  rewrite (bind_Ok getS _ s s s eq_refl), O3. rewrite (bind_Ok _ _ _ _ _ (proj1 (blk_bytes_run e s o (proj2 Hs) He))).
  rewrite (bind_Ok _ _ s (with_payload w p) s).
  2:{ rewrite setData_Ok; try done; [unfold isMaskedWrite; by rewrite Hc|lia|lia]. }
  rewrite (bind_Ok _ _ s (splice bytes (Z.to_nat off) (execute op w)) s).
  2:{ rewrite (atomic_op_Ok (with_payload w p) bytes off op); try done; cbn; lia. }
  unfold serve. rewrite bool_decide_eq_true_2, Ha, Ho by done. cbn [fst snd].
  destruct (stepped_put e s s o _ _ (splice bytes (Z.to_nat off) (execute op w)) (stepped_refl e s o Hs He)) as (s1 & E1 & St1).
  { pose proof (Hex w (window_length bytes off (pk_size p) ltac:(lia) ltac:(lia) ltac:(lia))) as L.
    unfold vsize in *. rewrite splice_length; lia. }
  rewrite (bind_Ok _ _ _ _ _ E1). destruct (stepped_dirty e s s1 o _ _ St1 V Ht) as (s2 & E2 & St2).
  rewrite (bind_Ok _ _ _ _ _ E2). by exists s2.
Qed.

Lemma cmpAndSwap_serves : pk_cmd p = SwapReq -> isAtomic (pk_req p) = false ->
  exists s', cmpAndSwap junk (TagBlk e) p s = Ok ((serve p w).1, s') /\
    stepped s s' e o (if swap_writes p w then dirtied (ext o) else ext o) (splice bytes (Z.to_nat off) (serve p w).2).
Proof.
  intros Hc Ha. destruct within_facts as (k & K1 & K2 & K3 & K4 & V & Hv & K5 & Ht). destruct within_offset as (O1 & _ & _ & O4).
  destruct W as [Hs He Hk Hp Hr]. pose proof (pp_size _ Hp) as Hz. destruct (pp_flags _ Hp) as (F1 & F2 & _). pose proof (pp_data _ Hp) as Hd.
  pose proof (pp_swap _ Hp Hc) as Hw. unfold swap_ok in Hw. rewrite Ha in Hw. destruct Hw as (H8 & _).
  assert (isMaskedWrite p = false) as Em by (unfold isMaskedWrite; by rewrite Hc).
  unfold cmpAndSwap. rewrite Hc. rewrite (bind_Ok _ _ s tt s eq_refl), (bind_Ok getS _ s s s eq_refl).
  rewrite (bind_Ok _ _ s off s) by (by rewrite O1). rewrite O4.
  rewrite (bind_Ok _ _ s (pk_size p) s) by (unfold pk_getSize; by rewrite F2).
  replace (pk_size p <=? 8) with true by lia. rewrite (bind_Ok _ _ s tt s eq_refl).
  rewrite (bind_Ok _ _ _ _ _ (cc_regenerate_Ok s e o a sec He Hk)).
  rewrite (bind_Ok _ _ s (splice (replicate 8 junk) 0 (pk_data p)) s).
  2:{ rewrite (writeData_Ok p _ 0 Hp ltac:(done)); [by rewrite Em|]. unfold vsize. rewrite length_replicate. lia. }
  rewrite (bind_Ok _ _ _ _ _ (proj1 (blk_bytes_run e s o (proj2 Hs) He))).
  rewrite (bind_Ok _ _ s (with_payload w p) s) by (rewrite setData_Ok; try done; lia).
  rewrite (bind_Ok _ _ s (swap_writes p w) s) by (rewrite (swap_allowed_Ok p bytes off); try done; lia).
  unfold serve. rewrite bool_decide_eq_true_2, Ha by done. cbn [fst snd].
  destruct (swap_writes p w).
  2:{ rewrite splice_window by lia. rewrite (bind_Ok _ _ s tt s eq_refl). exists s. split; [done|]. by apply stepped_refl. }
  assert (read_bytes (splice (replicate 8 junk) 0 (pk_data p)) 0 (pk_size p) = Ok (pk_data p)) as Er.
  { unfold vsize in *. assert (length (splice (replicate 8 junk) 0 (pk_data p)) = 8%nat) as L
      by (rewrite splice_length; rewrite length_replicate; lia).
    rewrite read_bytes_Ok by (unfold vsize; lia). f_equal. change (Z.to_nat 0) with 0%nat.
    unfold splice. by rewrite <- Hd, Nat2Z.id, drop_0, take_0, app_nil_l, take_app_length. }
  destruct (stepped_put e s s o _ _ (splice bytes (Z.to_nat off) (pk_data p)) (stepped_refl e s o Hs He)) as (s1 & E1 & St1).
  { unfold vsize in *. rewrite splice_length; lia. }
  destruct (stepped_dirty e s s1 o _ _ St1 V Ht) as (s2 & E2 & St2). exists s2. split; [|done].
  rewrite (bind_Ok _ _ s tt s2); [done|]. rewrite (bind_Ok _ _ s (pk_data p) s) by (by rewrite Er).
  rewrite (bind_Ok _ _ s (splice bytes (Z.to_nat off) (pk_data p)) s) by (rewrite write_bytes_Ok; [done|lia|lia]).
  by rewrite (bind_Ok _ _ _ _ _ E1).
Qed.

Lemma satisfy_write_serves : isWrite (pk_cmd p) = true -> pk_cmd p <> SwapReq -> isSet WritableBit (ext o) = true ->
  lockList (ext o) = [] ->
  exists s', satisfy_write (TagBlk e) p s = Ok ((serve p w).1, s') /\
    stepped s s' e o (dirtied (ext o)) (splice bytes (Z.to_nat off) (serve p w).2).
Proof.
  intros Hw Hns Hwr Hl. destruct within_facts as (k & K1 & K2 & K3 & K4 & V & Hv & K5 & Ht). destruct within_offset as (_ & O2 & _).
  destruct W as [Hs He Hk Hp Hr]. pose proof (pp_size _ Hp) as Hz. pose proof (plain_LLSC _ (pp_cmd _ Hp)) as El.
  unfold satisfy_write. rewrite (bind_Ok _ _ _ _ _ (get_blk_Ok e s o He)), Hwr. rewrite (bind_Ok _ _ s tt s eq_refl).
  unfold write_request. rewrite Hl, El. rewrite (bind_Ok _ _ s (mkRequest 0 0 0) s eq_refl).
  rewrite (bind_Ok _ _ s (true, None, ext o) s).
  2:{ unfold checkWrite. by rewrite Hw, Hl. }
  cbn [fst snd].
  destruct (stepped_call e (fun _ => Ok (ext o)) s s o (ext o) (ext o) bytes (stepped_refl e s o Hs He) eq_refl) as (s1 & E1 & St1); try done.
  rewrite (bind_Ok _ _ _ _ _ E1). pose proof (stepped_lookup _ _ _ _ _ _ St1) as He1.
  assert (exists s2, updateBlockData (TagBlk e) (Some p) s1 = Ok (tt, s2) /\
    stepped s s2 e o (ext o) (splice bytes (Z.to_nat off) (serve p w).2)) as (s2 & E2 & St2).
  { unfold updateBlockData.
    rewrite (bind_Ok _ _ _ _ _ (cc_regenerate_Ok s1 e _ a sec He1 (eq_trans (stepped_key _ _ _ _ _ _ St1) Hk))).
    rewrite (bind_Ok getS _ s1 s1 s1 eq_refl), (bind_Ok _ _ _ _ _ (proj1 (stepped_bytes_run _ _ _ _ _ _ St1))).
    rewrite (stepped_size _ _ _ _ _ _ St1).
    pose proof (serve_length p w Hp (window_length bytes off (pk_size p) ltac:(lia) ltac:(lia) ltac:(lia))) as L.
    destruct (stepped_put e s s1 o _ _ (splice bytes (Z.to_nat off) (serve p w).2) St1) as (s2 & E2 & St2).
    { unfold vsize in *. rewrite splice_length; lia. }
    exists s2. split; [|done]. rewrite (bind_Ok _ _ s1 (splice bytes (Z.to_nat off) (serve p w).2) s1); [done|].
    unfold writeDataToBlock. rewrite O2. cbn [obind]. rewrite (writeData_Ok p bytes off Hp) by lia.
    unfold serve. by rewrite bool_decide_eq_false_2, Hw by done. }
  rewrite (bind_Ok _ _ _ _ _ E2). destruct (stepped_dirty e s s2 o _ _ St2 V Ht) as (s3 & E3 & St3).
  rewrite (bind_Ok _ _ _ _ _ E3). exists s3. split; [|done]. unfold serve. by rewrite bool_decide_eq_false_2, Hw by done.
Qed.

Lemma satisfy_read_serves : isRead (pk_cmd p) = true -> isWrite (pk_cmd p) = false ->
  satisfy_read (TagBlk e) p s = Ok ((serve p w).1, s) /\ splice bytes (Z.to_nat off) (serve p w).2 = bytes.
Proof.
  intros Hrd Hw. destruct within_facts as (k & K1 & K2 & K3 & K4 & V & Hv & K5 & Ht). destruct within_offset as (_ & O2 & _).
  destruct W as [Hs He Hk Hp Hr]. pose proof (pp_size _ Hp) as Hz. pose proof (plain_LLSC _ (pp_cmd _ Hp)) as El.
  assert (hasRespData (pk_cmd p) = true /\ pk_cmd p <> SwapReq /\ isMaskedWrite p = false) as (Hrs & Hns & Em).
  { pose proof (pp_cmd _ Hp). unfold isMaskedWrite. by destruct (pk_cmd p). }
  unfold satisfy_read, serve. rewrite El, Hrs, bool_decide_eq_false_2, Hw by done. cbn [fst snd].
  rewrite (bind_Ok _ _ s tt s eq_refl), (bind_Ok _ _ s tt s eq_refl), (bind_Ok getS _ s s s eq_refl).
  rewrite (bind_Ok _ _ _ _ _ (proj1 (blk_bytes_run e s o (proj2 Hs) He))).
  unfold setDataFromBlock. rewrite O2. cbn [obind]. rewrite setData_Ok by (done || lia). by rewrite splice_window by lia.
Qed.

(** The block serves the request. *)
Lemma base_satisfy_serves : (isWrite (pk_cmd p) = true -> isSet WritableBit (ext o) = true) -> lockList (ext o) = [] ->
  exists s' b, base_satisfyRequest junk p (Some (TagBlk e)) s = Ok ((serve p w).1, s') /\
    stepped s s' e o b (splice bytes (Z.to_nat off) (serve p w).2) /\
    (b = dirtied (ext o) /\ isWrite (pk_cmd p) = true \/
     b = ext o /\ splice bytes (Z.to_nat off) (serve p w).2 = bytes /\ (isWrite (pk_cmd p) = true -> pk_cmd p = SwapReq)).
Proof.
  intros Hwr Hl. destruct within_facts as (k & K1 & K2 & K3 & K4 & V & Hv & K5 & Ht). destruct within_offset as (O1 & _).
  pose proof atomic_swap_serves as S1. pose proof cmpAndSwap_serves as S2. pose proof satisfy_write_serves as S3. pose proof satisfy_read_serves as S4.
  destruct W as [Hs He Hk Hp Hr]. pose proof (pp_size _ Hp) as Hz. destruct (pp_flags _ Hp) as (F1 & F2 & _).
  destruct (plain_responds _ (pp_cmd _ Hp)) as [_ Hq].
  unfold base_satisfyRequest. rewrite Hq. rewrite (bind_Ok _ _ s tt s eq_refl), (bind_Ok _ _ s (TagBlk e) s eq_refl).
  rewrite (bind_Ok _ _ _ _ _ (get_blk_Ok e s o He)), V, (bind_Ok _ _ s tt s eq_refl), (bind_Ok getS _ s s s eq_refl).
  rewrite (bind_Ok _ _ s off s) by (by rewrite O1). rewrite (bind_Ok _ _ s (pk_size p) s) by (unfold pk_getSize; by rewrite F2).
  rewrite (uwrap_small 64 (off + pk_size p)) by lia. replace (off + pk_size p <=? blk_size s) with true by lia.
  rewrite (bind_Ok _ _ s tt s eq_refl). case_bool_decide as Hc.
  - destruct (isAtomic (pk_req p)) eqn:Ha.
    + destruct (S1 Hc eq_refl) as (s' & E & St). exists s', (dirtied (ext o)). rewrite Hc. auto.
    + destruct (S2 Hc eq_refl) as (s' & E & St). exists s'. eexists. split; [done|]. split; [done|].
      unfold serve in *. rewrite bool_decide_eq_true_2, Ha in * by done. cbn [fst snd] in *. destruct (swap_writes p w); [left; by rewrite Hc|right].
      split; [done|]. by rewrite splice_window by lia.
  - destruct (isWrite (pk_cmd p)) eqn:Ew.
    + destruct (S3 eq_refl Hc (Hwr eq_refl) Hl) as (s' & E & St). exists s', (dirtied (ext o)). auto.
    + assert (isRead (pk_cmd p) = true) as Er by (pose proof (pp_cmd _ Hp); by destruct (pk_cmd p)).
      rewrite Er. destruct (S4 Er eq_refl) as (E & Es). rewrite Es. exists s, (ext o). split; [done|]. split; [by apply stepped_refl|]. right. by split_and!.
Qed.
End Within.
End Serve.
