(* ===== verification/Coupled.v ===== *)
(** A classic cache over a memory, together as one memory: the relation between
    the blocks of the cache, the bytes of the memory below and the bytes a flat
    memory would hold, and what keeps it. *)
From Stdlib Require Import ZArith Lia Bool.
From stdpp Require Import base numbers gmap list.
From S2P Require Import Prelude ReplBase Bitfield Indexing CacheBlk Partition Tags TagsInv TagsOps Bytes.
From S2P Require Import MemRequest MemPacket Clocked Serve ClassicCache ClassicOps ClassicTotal ClassicAccess.
From S2P Require Import ClassicServe.
Local Open Scope Z_scope.

(** A block a request can be satisfied from; in a cache that is [alone] above the
    memory, also a write. *)
Definition usable (alone : bool) (b : CacheBlk) : Prop :=
  whenReady b <> MaxTick /\ (alone = true -> isSet WritableBit b = true) /\ isSet ReadableBit b = true /\ lockList b = [].

Lemma usable_valid alone b : usable alone b -> isValid b = true.
Proof. intros (_ & _ & Hr & _). unfold isSet in Hr. by destruct (isValid b). Qed.

(** A block that holds nothing. *)
Definition blank (b : CacheBlk) : Prop :=
  _secure b = false /\ lockList b = [] /\ Z.land (coherence b) AllBits = 0.

(** What a cache may do with its copy of a block, and when it was filled. *)
Record mode := mkMode { m_writable : bool; m_dirty : bool; m_since : Z }.
Definition mode_of (b : CacheBlk) : mode := mkMode (isSet WritableBit b) (isSet DirtyBit b) (_tickInserted b).

Section Coupled.
Context {P D I : Type} {RP : ReplacementPolicy P D} {RPL : ReplacementPolicyLaws P D}
  {IP : IndexingPolicy I} {IPL : IndexingLaws I} {SP : ServingPolicy P D}.
Implicit Types s : cc_sys P D I.
Context {alone : bool}.

(** The clock has room for a fill, with the delay a packet can carry. *)
Definition clock_ok s : Prop :=
  in_step (clk s) /\ 0 <= fillLatency (cfg s) /\
  Z.max (now s + 2 * clockPeriod (clk s)) (tick (clk s)) + clockPeriod (clk s) * fillLatency (cfg s) + 2 ^ 32 < MaxTick.

#[local] Abbreviation entry s e := (entries (wld (tsys s)) !! e).
#[local] Abbreviation key s o := (key_of (indexingPolicy (tags (tsys s))) o).

(** The cache [s] over the bytes [dm] holds the bytes [df]; all its blocks are of
    the security state [sec].  [st] is the address of a block that is being
    filled. *)
Record coupled_by (lo : Z) (sec : bool) (st : option Z) s (dm df : list Z) : Prop := {
  cp_sound : sound s;
  cp_cfg : isReadOnly (cfg s) = false /\ mostly_exclusive (cfg s) = false;
  cp_buffer : writeBuffer s = [];
  cp_clock : clock_ok s;
  cp_bounds : 0 <= lo /\ lo mod blk_size s = 0 /\ vsize dm mod blk_size s = 0 /\ lo + vsize dm < 2 ^ 64 /\ vsize df = vsize dm;
  cp_block : forall e o a sec', entry s e = Some o -> key s o = Some (a, sec') ->
    sec' = sec /\ lo <= a /\ a + blk_size s <= lo + vsize dm /\ usable alone (ext o) /\
    (st <> Some a -> window df (a - lo) (blk_size s) = bytes_of s (ext o) /\
      (isSet DirtyBit (ext o) = false -> window dm (a - lo) (blk_size s) = bytes_of s (ext o)));
  cp_blank : forall e o, entry s e = Some o -> isValid (ext o) = false -> blank (ext o);
  cp_distinct : forall e e' o o', entry s e = Some o -> entry s e' = Some o' ->
    blk_data (ext o) = blk_data (ext o') -> e = e';
  cp_rest : forall a, lo <= a -> a + blk_size s <= lo + vsize dm -> a mod blk_size s = 0 ->
    contents (tsys s) !! (a, sec) = None -> window df (a - lo) (blk_size s) = window dm (a - lo) (blk_size s);
}.

(** One block changes, to [b] with the bytes [d]. *)
Record changed s s' (e : loc) (o : object CacheBlk) (b : CacheBlk) (d : list Z) : Prop := {
  ch_old : entry s e = Some o;
  ch_tags : touched (tsys s) (tsys s') e o b;
  ch_data : exists off, blk_data (ext o) = Some off /\ blk_data b = Some off /\ dataBlks s' = <[off := d]> (dataBlks s);
  ch_cfg : cfg s' = cfg s;
  ch_buffer : writeBuffer s' = writeBuffer s;
  ch_clock : clock_ok s';
  ch_sound : sound s';
}.

Section Changed.
Context s s' e o b d (C : changed s s' e o b d).

Lemma changed_size : blk_size s' = blk_size s.
Proof. destruct C as [_ [_ _ (E & _)] _ _ _ _ _]. exact E. Qed.

Lemma changed_index : indexingPolicy (tags (tsys s')) = indexingPolicy (tags (tsys s)).
Proof. destruct C as [_ [_ _ (_ & _ & E & _)] _ _ _ _ _]. exact E. Qed.

Lemma changed_entry : entry s' e = Some (mkObject (base o) b).
Proof. destruct C as [_ T _ _ _ _ _]. by eapply touched_lookup. Qed.

Lemma changed_bytes : bytes_of s' b = d.
Proof. destruct C as [_ _ (off & _ & Hb & E) _ _ _ _]. unfold bytes_of. rewrite Hb, E. cbn. by rewrite lookup_insert_eq. Qed.

Lemma changed_other e' : e' <> e -> entry s' e' = entry s e'.
Proof. intros Hne. destruct C as [_ [E _ _] _ _ _ _ _]. rewrite E. by apply lookup_insert_ne. Qed.

Lemma changed_other_bytes e' o' : (forall e e' o o', entry s e = Some o -> entry s e' = Some o' ->
    blk_data (ext o) = blk_data (ext o') -> e = e') ->
  e' <> e -> entry s e' = Some o' -> bytes_of s' (ext o') = bytes_of s (ext o').
Proof.
  intros Hd Hne He'. destruct C as [He _ (off & Ho & _ & E) _ _ _ _]. unfold bytes_of. rewrite E.
  destruct (blk_data (ext o')) as [off'|] eqn:Ho'; [|done]. cbn. rewrite lookup_insert_ne; [done|].
  intros <-. apply Hne. eapply Hd; [done|done|congruence].
Qed.

Lemma changed_distinct : (forall e e' o o', entry s e = Some o -> entry s e' = Some o' ->
    blk_data (ext o) = blk_data (ext o') -> e = e') ->
  forall e1 e2 o1 o2, entry s' e1 = Some o1 -> entry s' e2 = Some o2 -> blk_data (ext o1) = blk_data (ext o2) -> e1 = e2.
Proof.
  intros Hd. assert (forall e1 o1, entry s' e1 = Some o1 -> exists o1', entry s e1 = Some o1' /\ blk_data (ext o1') = blk_data (ext o1)) as Hold.
  { intros e1 o1 H1. destruct (decide (e1 = e)) as [->|Hne].
    - rewrite changed_entry in H1. injection H1 as <-. exists o. destruct C as [He _ (off & E1 & E2 & _) _ _ _ _]. split; [done|]. cbn [ext]. congruence.
    - rewrite changed_other in H1 by done. eauto. }
  intros e1 e2 o1 o2 H1 H2 E. destruct (Hold e1 o1 H1) as (o1' & H1' & E1). destruct (Hold e2 o2 H2) as (o2' & H2' & E2).
  eapply Hd; [exact H1'|exact H2'|congruence].
Qed.
End Changed.

(** Two aligned blocks are the same or apart. *)
Lemma aligned_apart k a a' : 0 < k -> a mod k = 0 -> a' mod k = 0 -> a <> a' -> a + k <= a' \/ a' + k <= a.
Proof.
  intros Hk Ha Ha' Hne. pose proof (Z.div_mod a k ltac:(lia)). pose proof (Z.div_mod a' k ltac:(lia)).
  assert (a / k <> a' / k) by (intros E; apply Hne; rewrite E in *; lia). nia.
Qed.

Lemma key_block s e o a sec' : sound s -> entry s e = Some o -> key s o = Some (a, sec') ->
  a mod blk_size s = 0 /\ 0 < blk_size s /\ isValid (ext o) = true /\ contents (tsys s) !! (a, sec') = Some e /\
  vsize (bytes_of s (ext o)) = blk_size s.
Proof.
  intros [Hi Hac] He Hk. destruct (key_aligned _ _ e o a sec' Hi Hac He Hk) as (k & K1 & K2 & K3 & K4 & K5 & K6).
  unfold blk_size. rewrite K2. split_and!; try done; [apply Z.pow_pos_nonneg; lia|by apply contents_entry; eauto|].
  rewrite <- K2. exact (proj2 (blk_bytes_run e s o Hac He)).
Qed.

(** The block [e] is emptied, whatever was sent for it. *)
Record emptied s s' (e : loc) (o : object CacheBlk) (b : CacheBlk) : Prop := {
  em_entry : entry s e = Some o;
  em_touched : cc_touched s s' e o b;
  em_sound : sound s';
  em_blk : match key s o with Some _ => invalidated (ext o) b | None => b = ext o end;
  em_contents : contents (tsys s') = match key s o with Some k => delete k (contents (tsys s)) | None => contents (tsys s) end;
}.

Lemma vacates_emptied s s' e o b l : vacates s s' e o b l -> emptied s s' e o b.
Proof. intros [He T Hs _ Hv Hc]. constructor; try done. unfold vacated in Hv. destruct (key s o) as [[]|]; apply Hv. Qed.

Lemma emptied_invalid s s' e o b : sound s -> emptied s s' e o b -> isValid b = false.
Proof.
  intros [Hi _] [He _ _ Hb _]. destruct (key s o) as [[]|] eqn:Hk; [by destruct Hb|]. subst b. by apply (key_None _ _ _ Hi He).
Qed.

Lemma invalidateBlock_empties e s o a sec : sound s -> entry s e = Some o -> key s o = Some (a, sec) ->
  exists s' b, invalidateBlock (TagBlk e) s = Ok (tt, s') /\ emptied s s' e o b /\ writebacks s' = writebacks s.
Proof.
  intros Hs He Hk. destruct (key_block _ _ _ _ _ Hs He Hk) as (_ & _ & V & _).
  destruct (invalidateBlock_run e s o Hs He V) as (s' & b & E & Hb & T & Hs' & W). exists s', b. split; [done|]. split; [|done].
  destruct (invalidateBlock_spec e s o (a, sec) _ _ (proj1 Hs) He Hk E) as (_ & _ & Hc & _). constructor; by rewrite ?Hk.
Qed.

Context (lo : Z) (sec : bool).

(** The copy of the block at [a], if the cache has one. *)
Definition copy s (a : Z) : option mode :=
  e ← contents (tsys s) !! (a, sec); o ← entry s e; Some (mode_of (ext o)).

Lemma copy_Some s a m : sound s -> copy s a = Some m <-> exists e o, entry s e = Some o /\ key s o = Some (a, sec) /\ m = mode_of (ext o).
Proof.
  intros [Hi _]. unfold copy. split.
  - destruct (contents (tsys s) !! (a, sec)) as [e|] eqn:Hc; [|done]. apply contents_entry in Hc as (o & He & Hk); [|done].
    cbn. rewrite He. intros [= <-]. eauto.
  - intros (e & o & He & Hk & ->). assert (contents (tsys s) !! (a, sec) = Some e) as -> by (apply contents_entry; eauto). cbn. by rewrite He.
Qed.

Lemma copy_None s a : sound s -> copy s a = None <-> contents (tsys s) !! (a, sec) = None.
Proof.
  intros [Hi _]. unfold copy. destruct (contents (tsys s) !! (a, sec)) as [e|] eqn:Hc; [|done].
  apply contents_entry in Hc as (o & He & _); [|done]. cbn. by rewrite He.
Qed.

Lemma copy_same s s' : contents (tsys s') = contents (tsys s) -> (forall e, (mode_of ∘ ext) <$> entry s' e = (mode_of ∘ ext) <$> entry s e) ->
  forall a, copy s' a = copy s a.
Proof.
  intros Ec Ee a. unfold copy. rewrite Ec. destruct (contents (tsys s) !! (a, sec)) as [e|]; [|done]. cbn. specialize (Ee e).
  destruct (entry s' e), (entry s e); naive_solver.
Qed.

(** The copies when one block changes, goes or comes. *)
Lemma copy_touched s s' e o b a : sound s -> entry s e = Some o -> touched (tsys s) (tsys s') e o b -> contents (tsys s') = contents (tsys s) ->
  key s o = Some (a, sec) -> forall a', copy s' a' = if decide (a' = a) then Some (mode_of b) else copy s a'.
Proof.
  intros [Hi _] He T Ec Hk a'. assert (contents (tsys s) !! (a, sec) = Some e) as Hc by (apply contents_entry; eauto).
  unfold copy. rewrite Ec, (th_entries _ _ _ _ _ T). case_decide as Hd; [subst a'; rewrite Hc; cbn; by rewrite lookup_insert_eq|].
  destruct (contents (tsys s) !! (a', sec)) as [e'|] eqn:Hc'; [|done]. cbn. rewrite lookup_insert_ne; [done|]. intros <-.
  apply contents_entry in Hc' as (o' & He' & Hk'); [|done]. congruence.
Qed.

Lemma copy_empty s s' e o b : sound s -> emptied s s' e o b ->
  forall a', copy s' a' = if decide (key s o = Some (a', sec)) then None else copy s a'.
Proof.
  intros [Hi _] [He [T _] _ _ Ec] a'. unfold copy. rewrite Ec, (th_entries _ _ _ _ _ T). case_decide as Hd.
  - by rewrite Hd, lookup_delete_eq.
  - assert (match key s o with Some k => delete k (contents (tsys s)) | None => contents (tsys s) end !! (a', sec) = contents (tsys s) !! (a', sec)) as ->.
    { destruct (key s o) as [k|]; [|done]. apply lookup_delete_ne. congruence. }
    destruct (contents (tsys s) !! (a', sec)) as [e'|] eqn:Hc'; [|done]. cbn. rewrite lookup_insert_ne; [done|]. intros <-.
    apply contents_entry in Hc' as (o' & He' & Hk'); [|done]. congruence.
Qed.

Lemma copy_insert s s' e o b a : sound s -> entry s e = Some o -> isValid (ext o) = false -> touched (tsys s) (tsys s') e o b ->
  contents (tsys s') = <[(a, sec) := e]> (contents (tsys s)) -> forall a', copy s' a' = if decide (a' = a) then Some (mode_of b) else copy s a'.
Proof.
  intros [Hi _] He V T Ec a'. unfold copy. rewrite Ec, (th_entries _ _ _ _ _ T). case_decide as Hd.
  - subst a'. rewrite lookup_insert_eq. cbn. by rewrite lookup_insert_eq.
  - rewrite lookup_insert_ne by congruence. destruct (contents (tsys s) !! (a', sec)) as [e'|] eqn:Hc'; [|done]. cbn.
    rewrite lookup_insert_ne; [done|]. intros <-. apply contents_entry in Hc' as (o' & He' & Hk'); [|done].
    rewrite He in He'. injection He' as <-. unfold key_of in Hk'. by rewrite V in Hk'.
Qed.

(** The bytes of a block change with those of the flat memory. *)
Lemma coupled_update st s s' e o b d a dm df df' : coupled_by lo sec st s dm df -> changed s s' e o b d ->
  contents (tsys s') = contents (tsys s) -> key s o = Some (a, sec) -> (st = None \/ st = Some a) ->
  same_identity (ext o) b -> usable alone b -> vsize df' = vsize df -> window df' (a - lo) (blk_size s) = d ->
  (forall a', lo <= a' -> a' + blk_size s <= lo + vsize dm -> a' mod blk_size s = 0 -> a' <> a ->
    window df' (a' - lo) (blk_size s) = window df (a' - lo) (blk_size s)) ->
  (isSet DirtyBit b = false -> window dm (a - lo) (blk_size s) = d) ->
  coupled_by lo sec None s' dm df'.
Proof.
  intros [S1 S2 S3 S4 S5 S6 S7 S8 S9] C Hc Hk Hst Hid Hr Hv Hw Ho Hd.
  pose proof (ch_old _ _ _ _ _ _ C) as He. destruct (key_block _ _ _ _ _ S1 He Hk) as (Ka & Kp & V & Kc & Kv).
  pose proof (changed_size _ _ _ _ _ _ C) as Ez. pose proof (changed_index _ _ _ _ _ _ C) as Ei.
  assert (key s' (mkObject (base o) b) = Some (a, sec)) as Hk'.
  { rewrite Ei. unfold key_of in *. destruct Hid as (V1 & V2 & V3 & _). cbn [ext base]. by rewrite V1, V2, V3. }
  constructor; rewrite ?(ch_cfg _ _ _ _ _ _ C), ?(ch_buffer _ _ _ _ _ _ C), ?Ez; try done; [apply C|apply C|by rewrite Hv| | |by eapply changed_distinct|].
  - intros e' o' a' sec' He' Hk2. destruct (decide (e' = e)) as [->|Hne].
    + rewrite (changed_entry _ _ _ _ _ _ C) in He'. injection He' as <-. rewrite Hk' in Hk2. injection Hk2 as <- <-.
      destruct (S6 e o a sec He Hk) as (_ & B1 & B2 & _). cbn [ext]. rewrite (changed_bytes _ _ _ _ _ _ C). by split_and!.
    + rewrite (changed_other _ _ _ _ _ _ C) in He' by done. rewrite Ei in Hk2.
      destruct (S6 e' o' a' sec' He' Hk2) as (-> & B1 & B2 & B3 & B4). destruct (key_block _ _ _ _ _ S1 He' Hk2) as (Ka' & _ & _ & Kc' & _).
      assert (a' <> a) as Hna by congruence. split_and!; try done. intros _.
      rewrite (changed_other_bytes _ _ _ _ _ _ C e' o') by done. rewrite Ho by done. apply B4. destruct Hst as [-> | ->]; congruence.
  - intros e' o' He' V'. destruct (decide (e' = e)) as [->|Hne].
    + rewrite (changed_entry _ _ _ _ _ _ C) in He'. injection He' as <-. destruct Hid as (V1 & _). cbn [ext] in V'. congruence.
    + rewrite (changed_other _ _ _ _ _ _ C) in He' by done. eauto.
  - intros a' B1 B2 B3 Hn. rewrite Hc in Hn. rewrite Ho; [by apply S9|done|done|done|congruence].
Qed.

(** The memory when what a vacated block sent down has reached it. *)
Definition landed s (o : object CacheBlk) (dm : list Z) : list Z :=
  match key s o with
  | Some (a, _) => if isSet DirtyBit (ext o) then splice dm (Z.to_nat (a - lo)) (bytes_of s (ext o)) else dm
  | None => dm
  end.

Lemma emptied_changed s s' e o b : clock_ok s -> sound s -> emptied s s' e o b -> changed s s' e o b (bytes_of s (ext o)).
Proof.
  intros (Hc1 & Hc2 & Hc3) Hs [He [T (R1 & R2 & R3 & R4 & R5 & R6 & _)] Hs' Hv _].
  destruct (ac_blk _ _ (proj2 Hs) e o He) as (_ & _ & off & d & Ho & Hd & _).
  assert (blk_data b = blk_data (ext o)) as Hb by (destruct (key s o) as [[]|]; [by destruct Hv as (_ & _ & _ & _ & ? & _)|by subst b]).
  constructor; try done.
  - exists off. split; [done|]. split; [congruence|]. rewrite R4. unfold bytes_of. rewrite Ho. cbn. rewrite Hd. cbn. by rewrite insert_id.
  - unfold clock_ok, now. rewrite R1, R5, (th_tick _ _ _ _ _ T). by split_and!.
Qed.

Lemma landed_facts s e o dm df : coupled_by lo sec None s dm df -> entry s e = Some o ->
  vsize (landed s o dm) = vsize dm /\
  (forall a', lo <= a' -> a' + blk_size s <= lo + vsize dm -> a' mod blk_size s = 0 -> key s o <> Some (a', sec) ->
    window (landed s o dm) (a' - lo) (blk_size s) = window dm (a' - lo) (blk_size s)) /\
  (forall a, key s o = Some (a, sec) -> window (landed s o dm) (a - lo) (blk_size s) = window df (a - lo) (blk_size s)).
Proof.
  intros H He. unfold landed. destruct (key s o) as [[a sec']|] eqn:Hk; [|by split_and!].
  destruct (cp_block _ _ _ _ _ _ H e o a sec' He Hk) as (-> & B1 & B2 & _ & [B3 B4]); [done|].
  destruct (key_block _ _ _ _ _ (cp_sound _ _ _ _ _ _ H) He Hk) as (Ka & Kp & _ & _ & Kv).
  destruct (isSet DirtyBit (ext o)).
  - split; [unfold vsize in *; rewrite splice_length; lia|]. split.
    + intros a' A1 A2 A3 Hne. apply window_splice_out; [lia|lia|lia|]. rewrite Kv. destruct (aligned_apart (blk_size s) a a'); try done; [congruence|lia|lia].
    + intros ? [= <-]. rewrite <- Kv at 1. rewrite window_splice_all by lia. congruence.
  - split_and!; try done. intros ? [= <-]. rewrite B4, B3 by done. done.
Qed.

(** Emptying a block changes nothing but where its bytes are. *)
Lemma coupled_empty s s' e o b dm df : coupled_by lo sec None s dm df -> emptied s s' e o b ->
  coupled_by lo sec None s' (landed s o dm) df.
Proof.
  intros H Hv. pose proof (emptied_changed _ _ _ _ _ (cp_clock _ _ _ _ _ _ H) (cp_sound _ _ _ _ _ _ H) Hv) as C.
  pose proof (emptied_invalid _ _ _ _ _ (cp_sound _ _ _ _ _ _ H) Hv) as Vb.
  pose proof (ch_old _ _ _ _ _ _ C) as He. destruct (landed_facts s e o dm df H He) as (L1 & L2 & L3).
  pose proof (changed_size _ _ _ _ _ _ C) as Ez. pose proof (changed_index _ _ _ _ _ _ C) as Ei.
  pose proof (em_contents _ _ _ _ _ Hv) as Hc. destruct H as [S1 S2 S3 S4 S5 S6 S7 S8 S9].
  assert (forall e' o', e' <> e -> entry s e' = Some o' -> key s o' <> key s o \/ key s o' = None) as Hother.
  { intros e' o' Hne He'. destruct (key s o') as [[a' sec']|] eqn:Hk'; [left|by right]. intros Hk.
    destruct (key_block _ _ _ _ _ S1 He' Hk') as (_ & _ & _ & K1 & _). destruct (key_block _ _ _ _ _ S1 He (eq_sym Hk)) as (_ & _ & _ & K2 & _). congruence. }
  constructor; rewrite ?(ch_cfg _ _ _ _ _ _ C), ?(ch_buffer _ _ _ _ _ _ C), ?Ez, ?L1; try done; [apply C|apply C| | |by eapply changed_distinct|].
  - intros e' o' a' sec' He' Hk'. destruct (decide (e' = e)) as [->|Hne].
    + rewrite (changed_entry _ _ _ _ _ _ C) in He'. injection He' as <-. unfold key_of in Hk'. cbn [ext] in Hk'. by rewrite Vb in Hk'.
    + rewrite (changed_other _ _ _ _ _ _ C) in He' by done. rewrite Ei in Hk'.
      destruct (S6 e' o' a' sec' He' Hk') as (-> & B1 & B2 & B3 & B4). destruct (key_block _ _ _ _ _ S1 He' Hk') as (Ka' & _).
      destruct (Hother e' o' Hne He') as [Hk|]; [|congruence]. rewrite Hk' in Hk.
      split_and!; try done. intros _. rewrite (changed_other_bytes _ _ _ _ _ _ C e' o') by done. rewrite L2 by (done || congruence). by apply B4.
  - intros e' o' He' V'. destruct (decide (e' = e)) as [->|Hne].
    + rewrite (changed_entry _ _ _ _ _ _ C) in He'. injection He' as <-. cbn [ext]. pose proof (em_blk _ _ _ _ _ Hv) as Hb.
      destruct (key s o) as [[]|] eqn:Hk; [destruct Hb as (_ & ? & ? & ? & _); by split_and!|]. subst b. apply (S7 e o He). by apply (key_None _ _ _ (proj1 S1) He).
    + rewrite (changed_other _ _ _ _ _ _ C) in He' by done. eauto.
  - intros a' B1 B2 B3 Hn. rewrite Hc in Hn. destruct (decide (key s o = Some (a', sec))) as [Hk|Hk]; [by rewrite L3|].
    rewrite L2 by done. apply S9; try done. destruct (key s o) as [k|]; [|done]. apply lookup_delete_None in Hn as [->|Hn]; [done|done].
Qed.

Lemma coupled_vacate s s' e o b l dm df : coupled_by lo sec None s dm df -> vacates s s' e o b l ->
  coupled_by lo sec None s' (landed s o dm) df.
Proof. intros H Hv. by eapply coupled_empty, vacates_emptied. Qed.

(** Where the bytes below are already those of the flat memory, nothing lands. *)
Lemma landed_same s e o df : coupled_by lo sec None s df df -> entry s e = Some o -> landed s o df = df.
Proof.
  intros H He. unfold landed. destruct (key s o) as [[a sec']|] eqn:Hk; [|done]. destruct (isSet DirtyBit (ext o)); [|done].
  destruct (cp_block _ _ _ _ _ _ H e o a sec' He Hk) as (-> & B1 & B2 & _ & [B3 _]); [done|].
  destruct (key_block _ _ _ _ _ (cp_sound _ _ _ _ _ _ H) He Hk) as (_ & Kp & _ & _ & Kv). rewrite <- B3. apply splice_window; lia.
Qed.

(** A block comes in: with the bytes of the memory, or with none yet. *)
Lemma coupled_insert st s s' e o b d a dm df : coupled_by lo sec None s dm df -> changed s s' e o b d ->
  isValid (ext o) = false -> contents (tsys s) !! (a, sec) = None -> contents (tsys s') = <[(a, sec) := e]> (contents (tsys s)) ->
  lo <= a -> a + blk_size s <= lo + vsize dm -> a mod blk_size s = 0 -> usable alone b ->
  (st = Some a \/ st = None /\ d = window dm (a - lo) (blk_size s)) ->
  coupled_by lo sec st s' dm df.
Proof.
  intros [S1 S2 S3 S4 S5 S6 S7 S8 S9] C V Hn Hc A1 A2 A3 Hr Hst.
  pose proof (ch_old _ _ _ _ _ _ C) as He. pose proof (changed_size _ _ _ _ _ _ C) as Ez. pose proof (changed_index _ _ _ _ _ _ C) as Ei.
  assert (key s' (mkObject (base o) b) = Some (a, sec)) as Hk.
  { assert (contents (tsys s') !! (a, sec) = Some e) as L by (rewrite Hc; apply lookup_insert_eq).
    apply contents_entry in L as (o' & He' & Hk'); [|apply C]. rewrite (changed_entry _ _ _ _ _ _ C) in He'. by injection He' as <-. }
  pose proof (usable_valid alone b Hr) as Vb.
  constructor; rewrite ?(ch_cfg _ _ _ _ _ _ C), ?(ch_buffer _ _ _ _ _ _ C), ?Ez; try done; [apply C|apply C| | |by eapply changed_distinct|].
  - intros e' o' a' sec' He' Hk'. destruct (decide (e' = e)) as [->|Hne].
    + rewrite (changed_entry _ _ _ _ _ _ C) in He'. injection He' as <-. rewrite Hk in Hk'. injection Hk' as <- <-.
      cbn [ext]. rewrite (changed_bytes _ _ _ _ _ _ C). split_and!; try done. intros Hne. destruct Hst as [->|(_ & ->)]; [done|].
      split; [by apply S9|done].
    + rewrite (changed_other _ _ _ _ _ _ C) in He' by done. rewrite Ei in Hk'.
      destruct (S6 e' o' a' sec' He' Hk') as (-> & B1 & B2 & B3 & B4). split_and!; try done. intros _.
      rewrite (changed_other_bytes _ _ _ _ _ _ C e' o') by done. by apply B4.
  - intros e' o' He' V'. destruct (decide (e' = e)) as [->|Hne].
    + rewrite (changed_entry _ _ _ _ _ _ C) in He'. injection He' as <-. cbn [ext] in V'. congruence.
    + rewrite (changed_other _ _ _ _ _ _ C) in He' by done. eauto.
  - intros a' B1 B2 B3 Hn'. rewrite Hc in Hn'. apply S9; try done. apply lookup_insert_None in Hn'. by destruct Hn'.
Qed.
End Coupled.

(** The cache is alone above the memory. *)
Abbreviation coupled := (coupled_by (alone := true)).
