(* ===== verification/AtomicRuns.v ===== *)
(** Accesses of a classic cache in atomic mode, run on the relation that makes
    the cache and the memory below one memory: hits, misses and fills. *)
From Stdlib Require Import ZArith Lia Bool.
From stdpp Require Import base numbers gmap list.
From S2P Require Import Prelude ReplBase Bitfield Intmath Indexing CacheBlk Partition Tags TagsInv TagsOps.
From S2P Require Import Bytes MemRequest MemPacket Clocked AbstractMem Serve ClassicCache ClassicOps.
From S2P Require Import ClassicTotal ClassicAccess ClassicServe Coupled.
Local Open Scope Z_scope.

Section Runs.
Context {P D I : Type} {RP : ReplacementPolicy P D} {RPL : ReplacementPolicyLaws P D}
  {IP : IndexingPolicy I} {IPL : IndexingLaws I} {SP : ServingPolicy P D}.
Implicit Types s : cc_sys P D I.
Context {alone : bool} (junk : Z) (pid_of : Packet -> Z) (lo : Z) (sec : bool).
#[local] Abbreviation no_mshr := (fun (_ : Z) (_ : bool) => @None MSHRView).
#[local] Abbreviation entry s e := (entries (wld (tsys s)) !! e).
#[local] Abbreviation key s o := (key_of (indexingPolicy (tags (tsys s))) o).
#[local] Abbreviation coupled := (coupled_by (alone := alone) lo sec).

(** The address of the block of an address. *)
Definition blk_addr s (x : Z) : Z := x - x mod blk_size s.

(** A plain request of a requestor the cache knows, within one block of the memory. *)
Record request_for s (size : Z) (p : Packet) : Prop := {
  rf_plain : plain_packet p;
  rf_secure : pk_secure p = sec;
  rf_req : hasPaddr (pk_req p) = true /\ rq_paddr (pk_req p) = pk_addr p /\ rq_isSecure (pk_req p) = sec;
  rf_id : 0 <= rq_requestorId (pk_req p) < maxRequestors (tags (tsys s));
  rf_maint : isCacheMaintenance (pk_req p) = false;
  rf_range : lo <= pk_addr p /\ pk_addr p + pk_size p <= lo + size;
  rf_line : pk_addr p mod blk_size s + pk_size p <= blk_size s;
  rf_coh : coherent (cfg s) = true -> fromCache (pk_cmd p) = false /\ hasSharers p = false /\
    (pk_cmd p = WriteLineReq -> pk_size p = blk_size s);
}.

(** ** The relation and the parts of the state it does not read *)
Lemma coupled_counts st s dm df c : coupled st s dm df -> coupled st (with_cstats c s) dm df.
Proof. intros []. by constructor. Qed.

Lemma coupled_queues st s dm df tw ev l : coupled st s dm df -> coupled st (with_queues (writeBuffer s) tw ev l s) dm df.
Proof. intros []. by constructor. Qed.

(** The same blocks in another tag store. *)
Lemma coupled_tags st s t dm df : coupled st s dm df -> sound (with_tsys t s) -> entries (wld t) = entries (wld (tsys s)) ->
  curTick (wld t) = curTick (wld (tsys s)) -> params_same (tags (tsys s)) (tags t) -> contents t = contents (tsys s) ->
  coupled st (with_tsys t s) dm df.
Proof.
  intros [S1 S2 S3 S4 S5 S6 S7 S8 S9] Hs Ee Et (E1 & E2 & E3 & _) Hc.
  constructor; unfold clock_ok, now, blk_size, bytes_of in *; cbn; rewrite ?E1, ?E3, ?Et, ?Ee, ?Hc; done.
Qed.

Lemma coupled_line st s dm df : coupled st s dm df -> exists k, 2 <= k < 31 /\ blk_size s = 2 ^ k /\ 0 < blk_size s < 2 ^ 31 /\
  forall x, block_of (geom (tsys s)) x = blk_addr s x.
Proof.
  intros H. destruct (ac_line _ _ (proj2 (cp_sound _ _ _ _ _ _ H))) as (k & K1 & K2 & K3). exists k. split; [done|].
  unfold blk_addr, blk_size, block_of. rewrite K2, K3. split; [done|]. split; [|done].
  split; [apply Z.pow_pos_nonneg|apply Z.pow_lt_mono_r]; lia.
Qed.

(** The block of a request. *)
Lemma request_block st s dm df p : coupled st s dm df -> request_for s (vsize dm) p ->
  let a := blk_addr s (pk_addr p) in
  a mod blk_size s = 0 /\ lo <= a /\ a + blk_size s <= lo + vsize dm /\ 0 <= a < 2 ^ 64 /\ 0 <= pk_addr p < 2 ^ 64 /\
  a <= pk_addr p /\ pk_addr p + pk_size p <= a + blk_size s.
Proof.
  intros H R a. destruct (coupled_line _ _ _ _ H) as (k & K1 & K2 & K3 & _). destruct (cp_bounds _ _ _ _ _ _ H) as (B1 & B2 & B3 & B4 & _).
  destruct (rf_range _ _ _ R) as [R1 R2]. pose proof (rf_line _ _ _ R) as R3. pose proof (pp_size _ (rf_plain _ _ _ R)) as R4.
  set (n := blk_size s) in *. unfold a, blk_addr. fold n.
  pose proof (Z.mod_pos_bound (pk_addr p) n ltac:(lia)) as M1. pose proof (Z.div_mod (pk_addr p) n ltac:(lia)) as M2.
  pose proof (Z.div_mod lo n ltac:(lia)) as M3. pose proof (Z.div_mod (vsize dm) n ltac:(lia)) as M4.
  assert (pk_addr p - pk_addr p mod n = n * (pk_addr p / n)) as -> by lia.
  assert (lo / n <= pk_addr p / n) by (apply Z.div_le_mono; lia).
  assert (pk_addr p / n < lo / n + vsize dm / n) by nia.
  split; [rewrite Z.mul_comm; apply Z.mod_mul; lia|]. split_and!; nia.
Qed.

(** ** Latencies and counters *)
Lemma ticksToCycles_Ok t c : in_step c -> exists n, ticksToCycles t c = Ok n.
Proof.
  intros (Hp & _). unfold ticksToCycles, divCeil, udiv. replace (clockPeriod c =? 0) with false by lia. eauto.
Qed.

Lemma tagOnly_Ok d l s : clock_ok s -> exists v, calculateTagOnlyLatency d l s = Ok (v, s).
Proof.
  intros (Hc & _). unfold calculateTagOnlyLatency. rewrite (bind_Ok getS _ s s s eq_refl).
  destruct (ticksToCycles_Ok d (clk s) Hc) as (n & ->). by eexists.
Qed.

Lemma accessLatency_Ok e o d l s : clock_ok s -> entry s e = Some o -> whenReady (ext o) <> MaxTick ->
  exists v, calculateAccessLatency (Some (TagBlk e)) d l s = Ok (v, s).
Proof.
  intros (Hc & _) He Hw. unfold calculateAccessLatency. rewrite (bind_Ok getS _ s s s eq_refl).
  destruct (ticksToCycles_Ok d (clk s) Hc) as (n & En). rewrite (bind_Ok _ _ s n s) by (by rewrite En).
  rewrite (bind_Ok _ _ _ _ _ (get_blk_Ok e s o He)). rewrite (bind_Ok _ _ s (whenReady (ext o)) s).
  2:{ unfold getWhenReady. by replace (whenReady (ext o) =? MaxTick) with false by lia. }
  destruct (_ <? whenReady (ext o)); [|by eexists].
  destruct (ticksToCycles_Ok (u64 (whenReady (ext o) - u64 (now s + d))) (clk s) Hc) as (m & Em).
  rewrite (bind_Ok _ _ s m s) by (by rewrite Em). by eexists.
Qed.

Lemma incHit_Ok p s : rq_requestorId (pk_req p) < maxRequestors (tags (tsys s)) ->
  exists c, incHitCount p s = Ok (tt, with_cstats c s).
Proof.
  intros H. unfold incHitCount. rewrite (bind_Ok getS _ s s s eq_refl). replace (_ <? _) with true by lia.
  rewrite (bind_Ok _ _ s tt s eq_refl). by eexists.
Qed.

Lemma incMiss_Ok p s : rq_requestorId (pk_req p) < maxRequestors (tags (tsys s)) ->
  exists c, incMissCount p s = Ok (tt, with_cstats c s).
Proof.
  intros H. unfold incMissCount. rewrite (bind_Ok getS _ s s s eq_refl). replace (_ <? _) with true by lia.
  rewrite (bind_Ok _ _ s tt s eq_refl). by eexists.
Qed.

Lemma clusivity_Ok fc e s o : mostly_exclusive (cfg s) = false -> entry s e = Some o ->
  maintainClusivity fc (Some (TagBlk e)) s = Ok (tt, s).
Proof.
  intros Hm He. unfold maintainClusivity. rewrite (bind_Ok getS _ s s s eq_refl), (bind_Ok _ _ _ _ _ (get_blk_Ok e s o He)), Hm.
  by rewrite andb_false_r.
Qed.

Lemma tag_packet_Ok p : plain_packet p -> tag_packet pid_of p =
  Ok (mkPacket (pk_addr p) (pk_secure p) (rq_requestorId (pk_req p)) (rq_taskId (pk_req p)) (pid_of p)).
Proof. intros Hp. destruct (pp_flags _ Hp) as (F1 & _). unfold tag_packet, getAddr, isSecure. by rewrite F1. Qed.

(** ** Satisfying a request *)

(** The request writes all of its block, whatever is there. *)
Definition overwrites s (p : Packet) : Prop :=
  isWrite (pk_cmd p) = true /\ pk_cmd p <> SwapReq /\ isMaskedWrite p = false /\
  pk_addr p = blk_addr s (pk_addr p) /\ pk_size p = blk_size s.

(** What does not change when a request is satisfied. *)
Definition served s s' : Prop :=
  aside_same s s' /\ contents (tsys s') = contents (tsys s) /\ params_same (tags (tsys s)) (tags (tsys s')) /\ now s' = now s.

#[global] Instance served_preorder : PreOrder served.
Proof.
  split; [done|]. intros s1 s2 s3 (A1 & A2 & A3 & A4) (B1 & B2 & B3 & B4).
  split; [by etrans|]. split; [congruence|]. split; [by etrans|congruence].
Qed.

Lemma stepped_served s s' e o b d : stepped s s' e o b d -> served s s'.
Proof. intros [T _ _ A _ C]. split; [done|]. split; [done|]. split; [apply T|exact (th_tick _ _ _ _ _ T)]. Qed.

Lemma served_request s s' n p : served s s' -> request_for s n p -> request_for s' n p.
Proof.
  intros ((E1 & _) & _ & (E2 & E3 & _) & _) []. constructor; unfold blk_size in *; rewrite ?E1, ?E2, ?E3; done.
Qed.

Lemma satisfy_noncache s p e s' q : (coherent (cfg s) = true -> fromCache (pk_cmd p) = false) -> plain_packet p ->
  pk_cmd q = pk_cmd p -> base_satisfyRequest junk p (Some (TagBlk e)) s = Ok (q, s') ->
  satisfyRequest junk p (Some (TagBlk e)) s = Ok (q, s').
Proof.
  intros Hco Hp Hq E. unfold satisfyRequest. rewrite (bind_Ok getS _ s s s eq_refl). destruct (coherent (cfg s)).
  - rewrite (bind_Ok _ _ _ _ _ E), Hq, Hco by done. by rewrite andb_false_r.
  - assert (isRead (pk_cmd p) || isWrite (pk_cmd p) = true) as -> by (pose proof (pp_cmd _ Hp); by destruct (pk_cmd p)).
    by rewrite (bind_Ok _ _ s tt s eq_refl).
Qed.

Lemma stepped_changed s s' e o b d : entry s e = Some o -> clock_ok s -> stepped s s' e o b d -> changed s s' e o b d.
Proof.
  intros He (C1 & C2 & C3) [T (_ & Hb) (off & Ho & Hd) (A1 & _ & _ & A4 & A5 & _) Sn _].
  constructor; try done; [exists off; split_and!; congruence|]. unfold clock_ok, now. rewrite A1, A4, (th_tick _ _ _ _ _ T). by split_and!.
Qed.

(** The bytes of the block and of the flat memory, before and after. *)
Lemma serve_windows st s dm df p e o : let a := blk_addr s (pk_addr p) in
  coupled st s dm df -> request_for s (vsize dm) p -> entry s e = Some o -> key s o = Some (a, sec) ->
  (st = None \/ st = Some a /\ overwrites s p) ->
  let w := window (bytes_of s (ext o)) (pk_addr p - a) (pk_size p) in
  let wf := window df (pk_addr p - lo) (pk_size p) in
  serve p w = serve p wf /\
  window (splice df (Z.to_nat (pk_addr p - lo)) (serve p wf).2) (a - lo) (blk_size s) =
    splice (bytes_of s (ext o)) (Z.to_nat (pk_addr p - a)) (serve p w).2 /\
  vsize (splice df (Z.to_nat (pk_addr p - lo)) (serve p wf).2) = vsize df /\
  (forall a', lo <= a' -> a' + blk_size s <= lo + vsize dm -> a' mod blk_size s = 0 -> a' <> a ->
    window (splice df (Z.to_nat (pk_addr p - lo)) (serve p wf).2) (a' - lo) (blk_size s) = window df (a' - lo) (blk_size s)).
Proof.
  intros a H R He Hk Hst w wf. destruct (request_block _ _ _ _ _ H R) as (Ha & A1 & A2 & A3 & A4 & A5 & A6). fold a in Ha, A1, A2, A3, A5, A6.
  destruct (cp_bounds _ _ _ _ _ _ H) as (B1 & _ & _ & B4 & B5). pose proof (rf_plain _ _ _ R) as Hp. pose proof (pp_size _ Hp) as Hz.
  destruct (key_block _ _ _ _ _ (cp_sound _ _ _ _ _ _ H) He Hk) as (_ & Kp & _ & _ & Kv).
  assert (vsize wf = pk_size p) as Lf by (apply window_length; lia). pose proof (serve_length p wf Hp Lf) as Lv.
  assert (forall v, vsize v = pk_size p -> vsize (splice df (Z.to_nat (pk_addr p - lo)) v) = vsize df /\
    forall a', lo <= a' -> a' + blk_size s <= lo + vsize dm -> a' mod blk_size s = 0 -> a' <> a ->
      window (splice df (Z.to_nat (pk_addr p - lo)) v) (a' - lo) (blk_size s) = window df (a' - lo) (blk_size s)) as Hout.
  { intros v Hv. split; [unfold vsize in *; rewrite splice_length; lia|]. intros a' C1 C2 C3 C4.
    apply window_splice_out; [lia|lia|lia|]. destruct (aligned_apart (blk_size s) a' a Kp C3 Ha C4); lia. }
  assert (forall v, vsize v = pk_size p -> window (splice df (Z.to_nat (pk_addr p - lo)) v) (a - lo) (blk_size s) =
    splice (window df (a - lo) (blk_size s)) (Z.to_nat (pk_addr p - a)) v) as Hin.
  { intros v Hv. replace (pk_addr p - lo) with ((a - lo) + (pk_addr p - a)) by lia. apply window_splice_in; lia. }
  destruct Hst as [->|(-> & O1 & O2 & O3 & O4 & O5)].
  - destruct (cp_block _ _ _ _ _ _ H e o a sec He Hk) as (_ & _ & _ & _ & [Hb _]); [done|].
    assert (w = wf) as Ew. { unfold w, wf. rewrite <- Hb, window_window by lia. f_equal. lia. }
    rewrite Ew. split; [done|]. rewrite Hin, Hb by done. split; [done|]. by apply Hout.
  - assert (forall x, serve p x = (p, pk_data p)) as Es.
    { intros x. unfold serve. by rewrite bool_decide_eq_false_2, O1, O3 by done. }
    rewrite !Es in *. cbn [snd] in *. split; [done|]. split; [|by apply Hout]. rewrite Hin by done.
    fold a in O4. replace (pk_addr p - a) with 0 by lia. change (Z.to_nat 0) with 0%nat.
    pose proof (window_length df (a - lo) (blk_size s) ltac:(lia) ltac:(lia) ltac:(lia)). unfold vsize in *. rewrite !splice_all by lia. done.
Qed.

Lemma dirtied_set m b : isValid b = true -> isSet m (dirtied b) = isSet m b || negb (Z.land DirtyBit m =? 0).
Proof.
  intros V. unfold isSet. change (isValid (dirtied b)) with (isValid b). rewrite V. cbn [andb dirtied coherence with_state].
  rewrite Z.land_lor_distr_l. destruct (Z.eqb_spec (Z.land (coherence b) m) 0) as [->|H1]; [done|]. cbn [negb orb].
  apply negb_true_iff, Z.eqb_neq. intros E. by apply Z.lor_eq_0_iff in E as [? _].
Qed.

Lemma dirtied_usable al b : isValid b = true -> usable al b -> usable al (dirtied b) /\ isSet DirtyBit (dirtied b) = true.
Proof.
  intros V (R1 & R2 & R3 & R4). unfold usable. rewrite !dirtied_set, R3 by done. change (negb (Z.land DirtyBit DirtyBit =? 0)) with true.
  rewrite !orb_true_r. split_and!; try done. intros Ha. by rewrite (R2 Ha).
Qed.

(** The copies after a request to the block [a] was served; [w] says whether its copy got dirty. *)
Definition marks (a : Z) (w : bool) s s' : Prop :=
  forall a', copy sec s' a' = if decide (a' = a) then (fun m => mkMode (m_writable m) (m_dirty m || w) (m_since m)) <$> copy sec s a' else copy sec s a'.

Lemma marks_after a w s s1 s' : (forall a', copy sec s1 a' = copy sec s a') -> marks a w s1 s' -> marks a w s s'.
Proof. intros E M a'. by rewrite M, E. Qed.

(** The block may serve the request. *)
Definition permits (p : Packet) (b : CacheBlk) : Prop := needsWritable (pk_cmd p) = true -> isSet WritableBit b = true.

Lemma plain_write_writable c : plain_cmd c = true -> isWrite c = true -> needsWritable c = true.
Proof. by destruct c. Qed.

(** A request is satisfied from a block as from the flat memory. *)
Lemma coupled_serve st s dm df p e o : let a := blk_addr s (pk_addr p) in
  coupled st s dm df -> request_for s (vsize dm) p -> entry s e = Some o -> key s o = Some (a, sec) ->
  (st = None \/ st = Some a /\ overwrites s p) -> permits p (ext o) ->
  let r := serve p (window df (pk_addr p - lo) (pk_size p)) in
  exists s', satisfyRequest junk p (Some (TagBlk e)) s = Ok (r.1, s') /\
    coupled None s' dm (splice df (Z.to_nat (pk_addr p - lo)) r.2) /\ served s s' /\ is_Some (entry s' e) /\
    exists w, marks a w s s' /\ (w = true -> isWrite (pk_cmd p) = true) /\
      (w = false -> splice df (Z.to_nat (pk_addr p - lo)) r.2 = df).
Proof.
  intros a H R He Hk Hst Hpm r. destruct (request_block _ _ _ _ _ H R) as (Ha & A1 & A2 & A3 & A4 & A5 & A6). fold a in Ha, A1, A2, A3, A5, A6.
  destruct (serve_windows st s dm df p e o H R He Hk Hst) as (W1 & W2 & W3 & W4). fold a in W1, W2, W4.
  destruct (cp_block _ _ _ _ _ _ H e o a sec He Hk) as (_ & _ & _ & Hr & Hb). destruct Hr as (R1 & R2 & R3 & R4).
  assert (within s e o a sec p) as Hw by (constructor; try done; [apply H|apply R]).
  destruct (base_satisfy_serves junk s e o a sec p Hw (fun Hi => Hpm (plain_write_writable _ (pp_cmd _ (rf_plain _ _ _ R)) Hi)) R4) as (s' & b & E & St & Hcase).
  rewrite W1 in E, St, Hcase. fold r in E, St, Hcase. rewrite W1 in W2. exists s'.
  destruct (key_block _ _ _ _ _ (cp_sound _ _ _ _ _ _ H) He Hk) as (_ & Kp & V & Kc & Kv).
  split; [eapply satisfy_noncache; [intros Hc; exact (proj1 (rf_coh _ _ _ R Hc))|apply R| |exact E]; apply serve_cmd|].
  split; [|split; [by eapply stepped_served|split; [rewrite (stepped_lookup _ _ _ _ _ _ St); by eexists|]]].
  pose proof (stepped_changed s s' e o _ _ He (cp_clock _ _ _ _ _ _ H) St) as C. destruct (sd_id _ _ _ _ _ _ St) as [Hid _].
  assert (st = None \/ st = Some a) as Hst' by (destruct Hst as [|[]]; auto).
  - eapply (coupled_update lo sec st s s' e o b);
      [exact H|exact C|apply St|exact Hk|exact Hst'|exact Hid| |exact W3|exact W2|exact W4|].
    + destruct Hcase as [[-> _]|(-> & _)]; [apply dirtied_usable; [done|]|]; by split_and!.
    + intros Hd. destruct Hcase as [[-> _]|(-> & Es & Hsw)].
      * destruct (dirtied_usable alone (ext o) V) as [_ Hd']; [by split_and!|congruence].
      * rewrite Es. destruct Hst as [->|(-> & O1 & O2 & _)]; [by apply Hb|]. exfalso. auto.
  - assert (copy sec s a = Some (mode_of (ext o))) as Hcp by (apply copy_Some; [apply H|eauto]).
    pose proof (copy_touched sec s s' e o b a (cp_sound _ _ _ _ _ _ H) He (sd_tags _ _ _ _ _ _ St) (sd_contents _ _ _ _ _ _ St) Hk) as Ht.
    destruct Hcase as [[-> Hw']|(-> & Es & Hsw)]; [exists true|exists false]; (split; [|split; [done|]]); try done.
    + intros a'. rewrite Ht. case_decide as Hd; [|done]. subst a'. rewrite Hcp. cbn. unfold mode_of. rewrite !dirtied_set by done.
      change (Z.land DirtyBit WritableBit =? 0) with true. change (Z.land DirtyBit DirtyBit =? 0) with false. by rewrite orb_false_r.
    + intros a'. rewrite Ht. case_decide as Hd; [|done]. subst a'. rewrite Hcp. cbn. by rewrite orb_false_r.
    + intros _. destruct (cp_bounds _ _ _ _ _ _ H) as (B1 & _ & _ & B4 & B5). pose proof (pp_size _ (rf_plain _ _ _ R)) as Hz.
      assert (vsize r.2 = pk_size p) as Lr by (apply serve_length; [apply R|apply window_length; lia]).
      destruct Hst as [->|(-> & O1 & O2 & _)]; [|exfalso; auto]. destruct (Hb ltac:(done)) as [Hb1 _].
      assert (r.2 = window df (pk_addr p - lo) (pk_size p)) as ->; [|apply splice_window; lia].
      assert (forall d, window d (pk_addr p - lo) (pk_size p) = window (window d (a - lo) (blk_size s)) (pk_addr p - a) (pk_size p)) as Hww
        by (intros d; rewrite window_window by lia; f_equal; lia).
      pose proof (window_splice_all df (pk_addr p - lo) r.2 ltac:(lia) ltac:(lia)) as Er. rewrite Lr, (Hww (splice _ _ _)) in Er.
      fold r in W2. rewrite <- Er at 1. by rewrite (Hww df), W2, Es, Hb1.
Qed.

(** ** [access] *)

(** The tag lookup: the block of the request is found, or none. *)
Lemma lookup_run s dm df p : coupled None s dm df -> request_for s (vsize dm) p ->
  let found := contents (tsys s) !! (blk_addr s (pk_addr p), sec) in
  exists t, onT (accessBlock (mkPacket (pk_addr p) (pk_secure p) (rq_requestorId (pk_req p)) (rq_taskId (pk_req p)) (pid_of p))) s =
      Ok ((found, lookupLatency (tags (tsys s))), with_tsys t s) /\
    coupled None (with_tsys t s) dm df /\ served s (with_tsys t s) /\ (forall a, copy sec (with_tsys t s) a = copy sec s a).
Proof.
  intros H R found. destruct (request_block _ _ _ _ _ H R) as (_ & _ & _ & _ & A4 & _). pose proof (cp_sound _ _ _ _ _ _ H) as [Hi Hac].
  destruct (coupled_line _ _ _ _ H) as (k & _ & _ & _ & Eb).
  set (q := mkPacket _ _ _ _ _). destruct (accessBlock_run q (tsys s) (dataBlks s) Hi Hac A4) as (t & Et & Hcase).
  assert (contents (tsys s) !! (block_of (geom (tsys s)) (pkt_addr q), pkt_secure q) = found) as Ef.
  { cbn. by rewrite Eb, (rf_secure _ _ _ R). }
  rewrite Ef in Et, Hcase. destruct (accessBlock_spec q (tsys s) _ _ Hi A4 Et) as (_ & Hi' & _ & Hc).
  exists t. split; [unfold onT; by rewrite Et|]. destruct found as [e|].
  - destruct Hcase as (o & He & T). assert (acct t (dataBlks s)) as Hac'.
    { destruct (ac_blk _ _ Hac e o He) as (B1 & B2 & _). by eapply acct_touched. }
    apply contents_entry in Ef as (o' & He' & Hk); [|done]. rewrite He in He'. injection He' as <-. cbn in Hk. rewrite Eb, (rf_secure _ _ _ R) in Hk.
    destruct (cp_block _ _ _ _ _ _ H e o _ _ He Hk) as (_ & _ & _ & Hr & [Hb Hd]); [done|].
    split; [|split; [split; [done|]; split; [done|]; split; [apply T|exact (th_tick _ _ _ _ _ T)]|]].
    2:{ intros a. rewrite (copy_touched sec s (with_tsys t s) e o (increaseRefCount (ext o)) (blk_addr s (pk_addr p))) by done.
        case_decide as Hd'; [|done]. subst a. symmetry. apply copy_Some; [done|eauto]. }
    destruct (ac_blk _ _ Hac e o He) as (_ & _ & off & d & Ho & Hof & _).
    eapply (coupled_update lo sec None s _ e o (increaseRefCount (ext o)) (bytes_of s (ext o))); try done; [|by left].
    constructor; try done.
    + exists off. split_and!; [done|done|]. unfold bytes_of. rewrite Ho. cbn. rewrite Hof. cbn. by rewrite insert_id.
    + destruct (cp_clock _ _ _ _ _ _ H) as (C1 & C2 & C3). unfold clock_ok, now. cbn. rewrite (th_tick _ _ _ _ _ T). by split_and!.
  - destruct Hcase as (Ee & Etk & Hp). split; [|split; [done|]; apply copy_same; [done|]; intros e; cbn; by rewrite Ee].
    apply coupled_tags; try done. split; [done|]. by eapply acct_same.
Qed.

Lemma plain_kinds c : plain_cmd c = true -> isEviction c = false /\ isWriteback c = false /\ c <> CleanEvict /\ c <> WriteClean /\
  isClean c = false /\ c <> UpgradeResp /\ isUpgrade c = false /\ c <> InvalidateReq.
Proof. by destruct c. Qed.

(** The cache has a copy of the block that may serve the request. *)
Definition hits s (p : Packet) : Prop :=
  exists m, copy sec s (blk_addr s (pk_addr p)) = Some m /\ (needsWritable (pk_cmd p) = true -> m_writable m = true).

#[global] Instance hits_dec s p : Decision (hits s p).
Proof.
  destruct (copy sec s (blk_addr s (pk_addr p))) as [m|] eqn:Hm.
  - destruct (decide (needsWritable (pk_cmd p) = true -> m_writable m = true)) as [Hd|Hd]; [left; by exists m|right].
    intros (m' & Hm' & Hd'). rewrite Hm in Hm'. by injection Hm' as <-.
  - right. intros (m & Hm' & _). congruence.
Defined.

(** A hit. *)
Lemma normal_hit s dm df p e o l : coupled None s dm df -> request_for s (vsize dm) p ->
  contents (tsys s) !! (blk_addr s (pk_addr p), sec) = Some e -> entry s e = Some o -> permits p (ext o) ->
  let r := serve p (window df (pk_addr p - lo) (pk_size p)) in
  exists lat s', access_normal junk p (Some (TagBlk e)) l s = Ok (mkAccess true (Some (TagBlk e)) lat r.1, s') /\
    coupled None s' dm (splice df (Z.to_nat (pk_addr p - lo)) r.2) /\ served s s' /\
    exists w, marks (blk_addr s (pk_addr p)) w s s' /\ (w = true -> isWrite (pk_cmd p) = true) /\
      (w = false -> splice df (Z.to_nat (pk_addr p - lo)) r.2 = df).
Proof.
  intros H R Hf He Hpm r. pose proof Hf as (o' & He' & Hk)%contents_entry; [|apply H]. rewrite He in He'. injection He' as <-.
  destruct (cp_block _ _ _ _ _ _ H e o _ _ He Hk) as (_ & _ & _ & (R1 & R2 & R3 & R4) & _).
  destruct (plain_responds _ (pp_cmd _ (rf_plain _ _ _ R))) as [_ Hq].
  unfold access_normal, blk_serves, pk_needsWritable. rewrite Hq. rewrite (bind_Ok _ _ s true s).
  2:{ rewrite (bind_Ok _ _ s (needsWritable (pk_cmd p)) s eq_refl), (bind_Ok _ _ _ _ _ (get_blk_Ok e s o He)), R3.
      unfold permits in Hpm. destruct (needsWritable _); [by rewrite Hpm|done]. }
  destruct (incHit_Ok p s) as (c & Ec); [apply R|]. rewrite (bind_Ok _ _ _ _ _ Ec).
  pose proof (coupled_counts None s dm df c H) as H1. set (s1 := with_cstats c s) in *.
  assert (exists lat, (if isRead (pk_cmd p) then calculateAccessLatency (Some (TagBlk e)) (headerDelay p) l
    else calculateTagOnlyLatency (headerDelay p) l) s1 = Ok (lat, s1)) as (lat & El).
  { destruct (isRead _); [by apply (accessLatency_Ok e o); [apply H1| |]|apply tagOnly_Ok, H1]. }
  rewrite (bind_Ok _ _ _ _ _ El).
  destruct (coupled_serve None s1 dm df p e o H1) as (s' & Es & H' & Sv & (o'' & He'') & Hw); [by destruct R|done|done|by left|done|].
  rewrite (bind_Ok _ _ _ _ _ Es).
  rewrite (bind_Ok _ _ _ _ _ (clusivity_Ok _ e s' o'' (proj2 (cp_cfg _ _ _ _ _ _ H')) He'')). by exists lat, s'.
Qed.

(** A miss: no block, or one the request has no right to. *)
Lemma normal_miss s dm df p blk l : coupled None s dm df -> request_for s (vsize dm) p ->
  match blk with
  | Some e => exists o m, entry s e = Some o /\ key s o = Some (m, sec) /\ needsWritable (pk_cmd p) = true /\ isSet WritableBit (ext o) = false
  | None => True
  end ->
  exists lat s', access_normal junk p (TagBlk <$> blk) l s = Ok (mkAccess false (TagBlk <$> blk) lat p, s') /\ coupled None s' dm df /\
    served s s' /\ (forall a, copy sec s' a = copy sec s a).
Proof.
  intros H R Hb. destruct (plain_responds _ (pp_cmd _ (rf_plain _ _ _ R))) as [_ Hq]. unfold access_normal.
  rewrite (bind_Ok _ _ s false s).
  2:{ destruct blk as [e|]; [|done]. destruct Hb as (o & m & He & _ & Hn & Hw). cbn [fmap option_fmap option_map blk_serves]. unfold pk_needsWritable. rewrite Hq, Hn.
      rewrite (bind_Ok _ _ s true s eq_refl), (bind_Ok _ _ _ _ _ (get_blk_Ok e s o He)). by rewrite Hw. }
  destruct (incMiss_Ok p s) as (c & Ec); [apply R|]. rewrite (bind_Ok _ _ _ _ _ Ec).
  pose proof (coupled_counts None s dm df c H) as H1. set (s1 := with_cstats c s) in *.
  assert (exists lat, calculateAccessLatency (TagBlk <$> blk) (headerDelay p) l s1 = Ok (lat, s1)) as (lat & El).
  { destruct blk as [e|]; [|apply tagOnly_Ok, H1]. destruct Hb as (o & m & He & Hk & _).
    destruct (cp_block _ _ _ _ _ _ H e o _ _ He Hk) as (_ & _ & _ & (R1 & _) & _). apply (accessLatency_Ok e o); [apply H1|done|done]. }
  rewrite (bind_Ok _ _ _ _ _ El), (plain_LLSC _ (pp_cmd _ (rf_plain _ _ _ R))). rewrite andb_false_r. by exists lat, s1.
Qed.

(** The lookup, and what is left to do. *)
Lemma base_access_start s dm df p l0 : coupled None s dm df -> request_for s (vsize dm) p ->
  let found := contents (tsys s) !! (blk_addr s (pk_addr p), sec) in
  exists s1, base_access junk no_mshr pid_of p l0 s = access_normal junk p (TagBlk <$> found) (lookupLatency (tags (tsys s))) s1 /\
    coupled None s1 dm df /\ served s s1 /\ (forall a, copy sec s1 a = copy sec s a) /\ request_for s1 (vsize dm) p /\
    blk_addr s1 (pk_addr p) = blk_addr s (pk_addr p).
Proof.
  intros H R found. pose proof (rf_plain _ _ _ R) as Hp. destruct (plain_responds _ (pp_cmd _ Hp)) as [_ Hq].
  destruct (plain_kinds _ (pp_cmd _ Hp)) as (K1 & K2 & K3 & K4 & _).
  destruct (lookup_run s dm df p H R) as (t & Et & H1 & Sv1 & Hcp). set (s1 := with_tsys t s) in *. exists s1.
  split; [|split; [done|]; split; [done|]; split; [done|]; split; [by eapply served_request|]].
  2:{ unfold blk_addr, blk_size. by destruct Sv1 as (_ & _ & (-> & _) & _). }
  unfold base_access. rewrite Hq, (bind_Ok _ _ s tt s eq_refl), (bind_Ok getS _ s s s eq_refl), (proj1 (cp_cfg _ _ _ _ _ _ H)).
  rewrite (bind_Ok _ _ s tt s eq_refl). rewrite (bind_Ok _ _ s _ s) by (by rewrite tag_packet_Ok).
  rewrite (bind_Ok _ _ _ _ _ Et), (rf_maint _ _ _ R), K1, K2. cbn [fst snd]. rewrite (bind_Ok _ _ s1 None s1 eq_refl).
  rewrite !bool_decide_eq_false_2 by done.
  assert (exists l1, (if isWrite (pk_cmd p) then calculateTagOnlyLatency (headerDelay p) (lookupLatency (tags (tsys s))) else ret l0) s1 = Ok (l1, s1)) as (l1 & El).
  { destruct (isWrite _); [apply tagOnly_Ok, H1|by eexists]. }
  by rewrite (bind_Ok _ _ _ _ _ El).
Qed.

Lemma base_access_hit s dm df p l0 : coupled None s dm df -> request_for s (vsize dm) p -> hits s p ->
  let r := serve p (window df (pk_addr p - lo) (pk_size p)) in
  exists e lat s' w, base_access junk no_mshr pid_of p l0 s = Ok (mkAccess true (Some (TagBlk e)) lat r.1, s') /\ is_Some (entry s' e) /\
    coupled None s' dm (splice df (Z.to_nat (pk_addr p - lo)) r.2) /\ served s s' /\ marks (blk_addr s (pk_addr p)) w s s' /\
    (w = true -> isWrite (pk_cmd p) = true) /\ (w = false -> splice df (Z.to_nat (pk_addr p - lo)) r.2 = df).
Proof.
  intros H R (m & Hm & Hpm) r. destruct (base_access_start s dm df p l0 H R) as (s1 & E & H1 & Sv1 & Hcp & R1 & Eb).
  rewrite <- Hcp, <- Eb in Hm. apply copy_Some in Hm as (e & o & He & Hk & ->); [|apply H1].
  assert (contents (tsys s1) !! (blk_addr s1 (pk_addr p), sec) = Some e) as Hc by (apply contents_entry; [apply H1|eauto]).
  destruct (normal_hit s1 dm df p e o (lookupLatency (tags (tsys s))) H1 R1 Hc He Hpm) as (lat & s' & E' & H' & Sv & w & Hw1 & Hw2 & Hw3).
  pose proof Sv1 as (_ & Ec1 & _). rewrite Ec1, Eb in Hc. rewrite Hc in E. cbn in E. rewrite E' in E. exists e, lat, s', w.
  split; [done|]. split; [|split; [done|]; split; [by etrans|]; split; [rewrite <- Eb; by eapply marks_after|done]].
  destruct Sv as (_ & Ec & _). rewrite <- Ec1, <- Ec in Hc. apply contents_entry in Hc as (o' & He' & _); [eauto|apply H'].
Qed.

Lemma base_access_miss s dm df p l0 : coupled None s dm df -> request_for s (vsize dm) p -> ~ hits s p ->
  exists lat s', base_access junk no_mshr pid_of p l0 s =
      Ok (mkAccess false (TagBlk <$> contents (tsys s) !! (blk_addr s (pk_addr p), sec)) lat p, s') /\ coupled None s' dm df /\
    served s s' /\ (forall a, copy sec s' a = copy sec s a).
Proof.
  intros H R Hn. destruct (base_access_start s dm df p l0 H R) as (s1 & E & H1 & Sv1 & Hcp & R1 & Eb).
  pose proof Sv1 as (_ & Ec1 & _).
  destruct (normal_miss s1 dm df p (contents (tsys s) !! (blk_addr s (pk_addr p), sec)) (lookupLatency (tags (tsys s))) H1 R1) as (lat & s' & E' & H' & Sv & Hcp').
  - destruct (contents (tsys s) !! _) as [e|] eqn:Hc; [|done]. rewrite <- Ec1 in Hc. apply contents_entry in Hc as (o & He & Hk); [|apply H1].
    exists o, (blk_addr s (pk_addr p)). split; [done|]. split; [done|].
    assert (copy sec s (blk_addr s (pk_addr p)) = Some (mode_of (ext o))) as Hm by (rewrite <- Hcp; apply copy_Some; [apply H1|eauto]).
    destruct (needsWritable (pk_cmd p)) eqn:Hnw; [|exfalso; apply Hn; unfold hits; rewrite Hnw; by exists (mode_of (ext o))].
    split; [done|]. destruct (isSet WritableBit (ext o)) eqn:Hw; [|done]. exfalso. apply Hn. exists (mode_of (ext o)). by split.
  - exists lat, s'. split; [congruence|]. split; [done|]. split; [by etrans|]. intros a. by rewrite Hcp', Hcp.
Qed.

(** ** Fills *)

(** The response to a miss on the block [a]: with its bytes, or without.  Only
    bytes are shared. *)
Record fill_packet s (a : Z) (q : Packet) : Prop := {
  fp_resp : isResponse (pk_cmd q) = true;
  fp_flags : has_flag VALID_ADDR q = true /\ has_flag VALID_SIZE q = true;
  fp_shared : hasSharers q = true -> alone = false /\ isRead (pk_cmd q) = true;
  fp_addr : pk_addr q = a;
  fp_secure : pk_secure q = sec;
  fp_id : 0 <= rq_requestorId (pk_req q) < maxRequestors (tags (tsys s));
  fp_delays : headerDelay q = 0 /\ 0 <= payloadDelay q < 2 ^ 32;
  fp_kind : isRead (pk_cmd q) = true /\ hasData (pk_cmd q) = true /\ pk_cmd q <> InvalidateResp /\ pk_size q = blk_size s /\
      has_flag ANY_DATA q = true /\ isMaskedWrite q = false /\ vsize (pk_data q) = blk_size s \/
    isRead (pk_cmd q) = false /\ (pk_cmd q = InvalidateResp \/ pk_cmd q = UpgradeResp);
}.

(** What stays when a block is filled. *)
Definition filled s s' (l : list Packet) : Prop :=
  cfg s' = cfg s /\ params_same (tags (tsys s)) (tags (tsys s')) /\ writebacks s' = writebacks s ++ l /\
  clockPeriod (clk s') = clockPeriod (clk s) /\ now s' = now s.

Lemma filled_request s s' l n p : filled s s' l -> request_for s n p -> request_for s' n p.
Proof. intros (E1 & (E2 & E3 & _) & _) []. constructor; unfold blk_size in *; rewrite ?E1, ?E2, ?E3; done. Qed.

(** A fresh block of the fill. *)
Definition fresh s (b : CacheBlk) : Prop :=
  isValid b = true /\ _secure b = sec /\ lockList b = [] /\ Z.land (coherence b) AllBits = 0 /\ _tickInserted b = now s.

Lemma fill_allocate s dm df q a : coupled None s dm df -> fill_packet s a q -> contents (tsys s) !! (a, sec) = None ->
  a mod blk_size s = 0 -> 0 <= a < 2 ^ 64 ->
  exists e o l s1 o1 s2 b, allocateBlock junk no_mshr pid_of q s = Ok (Some e, s2) /\
    (exists b0, vacates s s1 e o b0 l) /\ coupled None s1 (landed lo s o dm) df /\
    entry s1 e = Some o1 /\ isValid (ext o1) = false /\ cc_touched s1 s2 e o1 b /\ fresh s b /\ blk_data b = blk_data (ext o1) /\
    sound s2 /\ contents (tsys s1) !! (a, sec) = None /\ contents (tsys s2) = <[(a, sec) := e]> (contents (tsys s1)) /\
    writebacks s2 = writebacks s ++ l.
Proof.
  intros H Q Hn Ha Hb. destruct (coupled_line _ _ _ _ H) as (k & _ & _ & K3 & Eb). destruct (fp_flags _ _ _ Q) as (F1 & _).
  pose proof (fp_addr _ _ _ Q) as Ea. pose proof (fp_secure _ _ _ Q) as Es.
  set (tq := mkPacket a sec (rq_requestorId (pk_req q)) (rq_taskId (pk_req q)) (pid_of q)).
  assert (block_of (geom (tsys s)) (pkt_addr tq) = a) as Ebl by (rewrite Eb; unfold blk_addr; cbn; lia).
  destruct (allocateBlock_run junk tq s (cp_sound _ _ _ _ _ _ H) (proj1 (cp_cfg _ _ _ _ _ _ H)) Hb (fp_id _ _ _ Q)) as (e & s2 & o & b & l & E & [Hal Hs2]).
  { by rewrite Ebl. }
  destruct Hal as (s1 & b0 & Hvac & (I1 & I2 & I3 & I4 & I5 & I6 & I7 & I8) & T2 & W2 & Hc2). rewrite Ebl in Hc2. cbn [pkt_secure tq] in *.
  pose proof (coupled_vacate lo sec _ _ _ _ _ _ _ _ H Hvac) as H1.
  pose proof (cc_touched_lookup _ _ _ _ _ (va_touched _ _ _ _ _ _ Hvac)) as He1.
  pose proof (vacates_invalid _ _ _ _ _ _ (proj1 (cp_sound _ _ _ _ _ _ H)) Hvac) as V0.
  destruct (cp_blank _ _ _ _ _ _ H1 e _ He1 V0) as (L1 & L2 & L3). cbn [ext] in *.
  exists e, o, l, s1, (mkObject (base o) b0), s2, b. split.
  { unfold allocateBlock, tag_packet, getAddr, isSecure. rewrite F1, Ea, Es. cbn [ocheck obind].
    by rewrite (bind_Ok _ _ s tq s eq_refl). }
  split; [by eexists|]. split_and!; try done.
  - unfold fresh. rewrite I2, I3, I4, L1. by rewrite orb_false_r.
  - rewrite (va_contents _ _ _ _ _ _ Hvac). destruct (key s o); [by apply lookup_delete_None; right|done].
  - by rewrite W2, (va_sent _ _ _ _ _ _ Hvac).
Qed.

(** The bits a response sets: the block is readable; writable if there are no
    sharers, and then dirty if a cache responded. *)
Definition open_bits (sharers responding : bool) (c : Z) : Z :=
  let c := Z.lor c ReadableBit in
  if sharers then c else let c := Z.lor c WritableBit in if responding then Z.lor c DirtyBit else c.
Definition opened (sharers responding : bool) (b : CacheBlk) : CacheBlk :=
  with_state (whenReady b) (lockList b) (open_bits sharers responding (coherence b)) (_prefetched b) b.

Lemma lor_set c x m : negb (Z.land (Z.lor c x) m =? 0) = negb (Z.land c m =? 0) || negb (Z.land x m =? 0).
Proof.
  rewrite Z.land_lor_distr_l. destruct (Z.eqb_spec (Z.land c m) 0) as [->|H1]; [done|]. cbn [negb orb].
  apply negb_true_iff, Z.eqb_neq. intros E. by apply Z.lor_eq_0_iff in E as [? _].
Qed.

Lemma opened_bits sh rs t b : isValid b = true -> lockList b = [] -> t <> MaxTick -> (sh = true -> alone = false) ->
  let b' := with_state t (lockList (opened sh rs b)) (coherence (opened sh rs b)) (_prefetched (opened sh rs b)) (opened sh rs b) in
  usable alone b' /\ mode_of b' = mkMode (isSet WritableBit b || negb sh) (isSet DirtyBit b || (negb sh && rs)) (_tickInserted b).
Proof.
  intros V L Ht Hsh b'. assert (forall m, isSet m b' = negb (Z.land (open_bits sh rs (coherence b)) m =? 0)) as Hb'.
  { intros m. unfold isSet. change (isValid b') with (isValid b). by rewrite V. }
  assert (forall m, isSet m b = negb (Z.land (coherence b) m =? 0)) as Hb by (intros m; unfold isSet; by rewrite V).
  unfold usable, mode_of. rewrite !Hb', !Hb. unfold open_bits. change (_tickInserted b') with (_tickInserted b).
  split; [split; [done|]|]; destruct sh, rs; cbn [negb andb]; rewrite ?lor_set, ?orb_true_r, ?orb_false_r; cbn; rewrite ?orb_true_r, ?orb_false_r; try done;
    (split; [|done]); intros Ha; specialize (Hsh eq_refl); congruence.
Qed.

Lemma open_run s e o (sh rs ro : bool) : sound s -> entry s e = Some o -> isValid (ext o) = true -> ro = false ->
  exists s1 s2, call_blk (TagBlk e) (setCoherenceBits ReadableBit) s = Ok (tt, s1) /\
    (if negb sh then do* call_blk (TagBlk e) (setCoherenceBits WritableBit) ;;
      if rs then do* call_blk (TagBlk e) (setCoherenceBits DirtyBit) ;; checkM (negb ro) AssertFailed else ret tt
     else ret tt) s1 = Ok (tt, s2) /\
    stepped s s2 e o (opened sh rs (ext o)) (bytes_of s (ext o)).
Proof.
  intros Hs He V ->. destruct (ac_blk _ _ (proj2 Hs) e o He) as (Ht & _).
  set (st (c : Z) := with_state (whenReady (ext o)) (lockList (ext o)) c (_prefetched (ext o)) (ext o)).
  assert (forall s1 c m, stepped s s1 e o (st c) (bytes_of s (ext o)) ->
    exists s2, call_blk (TagBlk e) (setCoherenceBits m) s1 = Ok (tt, s2) /\ stepped s s2 e o (st (Z.lor c m)) (bytes_of s (ext o))) as Hset.
  { intros s1 c m St. apply (stepped_call e (setCoherenceBits m) s s1 o (st c) (st (Z.lor c m)) _ St); try done.
    unfold setCoherenceBits. change (isValid (st c)) with (isValid (ext o)). by rewrite V. }
  assert (stepped s s e o (st (coherence (ext o))) (bytes_of s (ext o))) as St0.
  { replace (st (coherence (ext o))) with (ext o) by (unfold st; by destruct (ext o)). by apply stepped_refl. }
  destruct (Hset s _ ReadableBit St0) as (s1 & E1 & St1). exists s1. destruct sh; [by exists s1|]. cbn [negb].
  destruct (Hset s1 _ WritableBit St1) as (s2 & E2 & St2). rewrite (bind_Ok _ _ _ _ _ E2). destruct rs; [|by exists s2].
  destruct (Hset s2 _ DirtyBit St2) as (s3 & E3 & St3). exists s3. by rewrite (bind_Ok _ _ _ _ _ E3).
Qed.

(** The bytes of a response for the whole block. *)
Lemma fill_data s s1 e o b d q a k : stepped s s1 e o b d -> key s o = Some (a, sec) -> blk_size s = 2 ^ k -> 2 <= k < 31 ->
  0 <= a < 2 ^ 64 -> a mod 2 ^ k = 0 ->
  has_flag VALID_ADDR q = true -> has_flag VALID_SIZE q = true -> has_flag ANY_DATA q = true -> isMaskedWrite q = false ->
  pk_addr q = a -> pk_size q = blk_size s -> vsize (pk_data q) = blk_size s ->
  exists s2, updateBlockData (TagBlk e) (Some q) s1 = Ok (tt, s2) /\ stepped s s2 e o b (pk_data q).
Proof.
  intros St Hk Hz Hkr Ha Hm F1 F2 F3 Em Ea Hq Hd. pose proof (stepped_lookup _ _ _ _ _ _ St) as He1.
  destruct (stepped_bytes_run _ _ _ _ _ _ St) as [Eb Hv]. rewrite (stepped_size _ _ _ _ _ _ St) in Hv.
  destruct (stepped_put e s s1 o b d (pk_data q) St Hd) as (s2 & E2 & St2). exists s2. split; [|done].
  unfold updateBlockData. rewrite (bind_Ok _ _ _ _ _ (cc_regenerate_Ok s1 e _ a sec He1 (eq_trans (stepped_key _ _ _ _ _ _ St) Hk))).
  rewrite (bind_Ok getS _ s1 s1 s1 eq_refl), (bind_Ok _ _ _ _ _ Eb), (stepped_size _ _ _ _ _ _ St), Hz.
  rewrite (bind_Ok _ _ s1 (pk_data q) s1); [done|]. unfold writeDataToBlock, pk_getOffset, getAddr. rewrite F1, Ea. cbn [ocheck obind].
  rewrite offset_aligned by (done || lia). unfold writeData, getConstPtr, pk_getSize. rewrite F3, F2, Hq, Em. cbn [ocheck obind negb].
  rewrite <- Hd, read_bytes_all. cbn [obind]. rewrite write_bytes_Ok by lia. change (Z.to_nat 0) with 0%nat. unfold vsize in *. rewrite splice_all by lia. done.
Qed.

(** When the data is ready. *)
Lemma ready_run s s1 e o b d delay : stepped s s1 e o b d -> entry s e = Some o -> clock_ok s -> 0 <= now s -> _tickInserted b <= now s ->
  0 <= delay < 2 ^ 32 ->
  exists edge s2 s3, cc_clockEdge (fillLatency (cfg s)) s1 = Ok (edge, s2) /\
    call_blk (TagBlk e) (setWhenReady (edge + delay)) s2 = Ok (tt, s3) /\ 0 <= edge /\ edge + delay < MaxTick /\
    changed s s3 e o (with_state (edge + delay) (lockList b) (coherence b) (_prefetched b) b) d /\
    contents (tsys s3) = contents (tsys s) /\ writebacks s3 = writebacks s /\ clockPeriod (clk s3) = clockPeriod (clk s).
Proof.
  intros St He (C1 & C2 & C3) H0 Ht Hdl. pose proof St as [T (Hid & Hb) (off & Ho & Hd) (A1 & A2 & A3 & A4 & A5 & A6 & A7 & A8) Sn Hc].
  assert (now s1 = now s) as En by exact (th_tick _ _ _ _ _ T).
  destruct (clock_edges (now s) (fillLatency (cfg s)) (clk s) C1 H0 C2) as (c' & Ec & Hstep & Ep & Hle & Hcase); [unfold MaxTick in *; lia|].
  destruct Hstep as (X1 & X2 & X3 & X4).
  set (edge := tick c' + clockPeriod (clk s) * fillLatency (cfg s)) in *.
  assert (0 <= clockPeriod (clk s) * fillLatency (cfg s)) by (destruct C1; nia).
  assert (now s <= edge /\ edge + delay < MaxTick) as [Hedge Hroom] by (unfold edge; destruct Hcase; lia).
  assert (stepped (with_clk c' s) (with_clk c' s1) e o b d) as St' by (constructor; try done; by exists off).
  destruct (ac_blk _ _ (proj2 (sd_sound _ _ _ _ _ _ St)) e _ (stepped_lookup _ _ _ _ _ _ St)) as (Htk & _).
  destruct (stepped_call e (setWhenReady (edge + delay)) (with_clk c' s) (with_clk c' s1) o b
    (with_state (edge + delay) (lockList b) (coherence b) (_prefetched b) b) d St') as (s3 & E3 & St3); try done.
  { unfold setWhenReady. by replace (_tickInserted b <=? edge + delay) with true by lia. }
  exists edge, (with_clk c' s1), s3. split; [|split; [done|]; split; [lia|]; split; [lia|]].
  { unfold cc_clockEdge. rewrite (bind_Ok getS _ s1 s1 s1 eq_refl), En, A4, Ec. done. }
  pose proof St3 as [T3 _ (off3 & Ho3 & Hd3) (D1 & D2 & D3 & D4 & D5 & D6 & D7 & D8) Sn3 Hc3].
  split; [|split; [done|]; split; [done|by rewrite D4]]. constructor; try done; [exists off3; split_and!; [done|exact (eq_trans Hb Ho3)|done]|].
  unfold clock_ok, now. rewrite D1, D4, (th_tick _ _ _ _ _ T3). cbn [cfg clk with_clk]. rewrite Ep.
  change (curTick (wld (tsys (with_clk c' s)))) with (now s).
  split; [split_and!; lia|]. split; [done|]. destruct C1 as [C1 _]. destruct Hcase; lia.
Qed.

(** A change that goes on from an insertion. *)
Lemma changed_after s1 s2 s3 e o1 o2 b d : cc_touched s1 s2 e o1 (ext o2) -> base o2 = base o1 -> entry s1 e = Some o1 ->
  blk_data (ext o2) = blk_data (ext o1) -> changed s2 s3 e o2 b d -> changed s1 s3 e o1 b d.
Proof.
  intros [T (R1 & R2 & R3 & R4 & R5 & R6 & _)] Eb He Hd [He2 T2 (off & Ho & Hb & Ed) Ec Ebf Ck Sn].
  constructor; try done; [by eapply touched_trans|exists off; split_and!; congruence|congruence|congruence].
Qed.

Lemma align_down k x : 0 <= x < 2 ^ 64 -> 2 <= k < 31 -> Z.land x (u64 (Z.lnot (2 ^ k - 1))) = x - x mod 2 ^ k.
Proof.
  intros Hx Hk. assert (0 < 2 ^ k < 2 ^ 31) by (split; [apply Z.pow_pos_nonneg|apply Z.pow_lt_mono_r]; lia).
  pose proof (land_lnot_mask x k) as E. unfold lnot64 in E. rewrite (uwrap_small 64 (2 ^ k)), (uwrap_small 64 (2 ^ k - 1)) in E by lia.
  rewrite E by lia. pose proof (Z.div_mod x (2 ^ k) ltac:(lia)). lia.
Qed.

Lemma getBlockAddr_Ok s q k : blk_size s = 2 ^ k -> 2 <= k < 31 -> has_flag VALID_ADDR q = true -> 0 <= pk_addr q < 2 ^ 64 ->
  getBlockAddr (blk_size s) q = Ok (blk_addr s (pk_addr q)).
Proof.
  intros Hz Hk F Ha. assert (0 < 2 ^ k < 2 ^ 31) by (split; [apply Z.pow_pos_nonneg|apply Z.pow_lt_mono_r]; lia).
  unfold getBlockAddr, getAddr. rewrite F. cbn [ocheck obind]. unfold lnot64. rewrite Hz, (uwrap_small 32) by lia.
  rewrite align_down by lia. unfold blk_addr. by rewrite Hz.
Qed.

(** The steps of a fill once it has its block. *)
Definition fill_rest (pkt : Packet) (addr : Z) (is_secure : bool) (s0 : cc_sys P D I) (p : blk_ptr) : M (cc_sys P D I) blk_ptr :=
  let* b := get_blk p in
  do* checkM (isValid b) AssertFailed ;;
  do* checkM (eqb (_secure b) is_secure) AssertFailed ;;
  let* a := regenerateBlkAddr p in
  do* checkM (a =? addr) AssertFailed ;;
  do* call_blk p (setCoherenceBits ReadableBit) ;;
  do* checkM (negb (bool_decide (pk_cmd pkt = InvalidateResp)) || negb (hasSharers pkt)) AssertFailed ;;
  do* (if negb (hasSharers pkt) then
    do* call_blk p (setCoherenceBits WritableBit) ;;
    if cacheResponding pkt then
      do* call_blk p (setCoherenceBits DirtyBit) ;;
      checkM (negb (isReadOnly (cfg s0))) AssertFailed
    else ret tt
  else ret tt) ;;
  do* (if isRead (pk_cmd pkt) then
    do* checkM (hasData (pk_cmd pkt)) AssertFailed ;;
    let* n := lift (pk_getSize pkt) in
    do* checkM (n =? blk_size s0) AssertFailed ;;
    updateBlockData p (Some pkt)
  else ret tt) ;;
  let* edge := cc_clockEdge (fillLatency (cfg s0)) in
  do* call_blk p (setWhenReady (u64 (u64 (edge + headerDelay pkt) + payloadDelay pkt))) ;;
  ret p.

(** The mode of a block after a response. *)
Definition granted (q : Packet) (m : mode) : mode :=
  mkMode (m_writable m || negb (hasSharers q)) (m_dirty m || (negb (hasSharers q) && cacheResponding q)) (m_since m).

(** A valid block [o] of [a] gets the response [q]. *)
Lemma fill_rest_run s0 s e o q a k : sound s -> entry s e = Some o -> key s o = Some (a, sec) -> lockList (ext o) = [] ->
  _tickInserted (ext o) <= now s -> clock_ok s -> fill_packet s a q -> blk_size s = 2 ^ k -> 2 <= k < 31 -> 0 <= a < 2 ^ 64 -> a mod 2 ^ k = 0 ->
  cfg s0 = cfg s -> isReadOnly (cfg s) = false -> blk_size s0 = blk_size s ->
  exists s' b d, fill_rest q a sec s0 (TagBlk e) s = Ok (TagBlk e, s') /\ changed s s' e o b d /\ usable alone b /\
    mode_of b = granted q (mode_of (ext o)) /\ same_identity (ext o) b /\ (if isRead (pk_cmd q) then d = pk_data q else d = bytes_of s (ext o)) /\
    contents (tsys s') = contents (tsys s) /\ writebacks s' = writebacks s /\ clockPeriod (clk s') = clockPeriod (clk s).
Proof.
  intros Hs He Hk Hl Hti Hck Q Hz Hkr Ha Hm Ec Hro Ez. destruct (key_block _ _ _ _ _ Hs He Hk) as (_ & _ & V & _).
  assert (_secure (ext o) = sec) as Fs by (destruct Hs as [Hi Hac]; by destruct (key_aligned _ _ e o a sec Hi Hac He Hk) as (_ & _ & _ & _ & _ & -> & _)).
  set (sh := hasSharers q). set (rs := cacheResponding q).
  destruct (open_run s e o sh rs (isReadOnly (cfg s0)) Hs He V ltac:(congruence)) as (s1 & s2 & E1 & E2 & St2).
  destruct (fp_flags _ _ _ Q) as (F1 & F2). destruct (fp_delays _ _ _ Q) as (D1 & D2).
  assert (exists s3 d, (if isRead (pk_cmd q) then do* checkM (hasData (pk_cmd q)) AssertFailed ;; let* n := lift (pk_getSize q) in
      do* checkM (n =? blk_size s0) AssertFailed ;; updateBlockData (TagBlk e) (Some q) else ret tt) s2 = Ok (tt, s3) /\
    stepped s s3 e o (opened sh rs (ext o)) d /\ (if isRead (pk_cmd q) then d = pk_data q else d = bytes_of s (ext o))) as (s3 & d & E3 & St3 & Hd).
  { destruct (fp_kind _ _ _ Q) as [(K1 & K2 & K3 & K4 & K5 & K6 & K7)|(K1 & K2)]; rewrite K1.
    - destruct (fill_data s s2 e o _ _ q a k St2 Hk Hz Hkr Ha Hm F1 F2 K5 K6 (fp_addr _ _ _ Q) K4 K7) as (s3 & E3 & St3). exists s3, (pk_data q).
      rewrite K2, (bind_Ok _ _ s2 tt s2 eq_refl). rewrite (bind_Ok _ _ s2 (blk_size s) s2) by (unfold pk_getSize; by rewrite F2, K4).
      by rewrite Ez, Z.eqb_refl, (bind_Ok _ _ s2 tt s2 eq_refl).
    - by exists s2, (bytes_of s (ext o)). }
  assert (0 <= now s) as H0 by (pose proof (ac_tick _ _ (proj2 Hs)); unfold now; lia).
  destruct (ready_run s s3 e o _ d (payloadDelay q) St3 He Hck H0 Hti D2) as (edge & s4 & s5 & E4 & E5 & He0 & Hedge & C & Hc & Hw & Hcp).
  set (b := with_state _ _ _ _ _) in C.
  destruct (opened_bits sh rs (edge + payloadDelay q) (ext o) V Hl ltac:(lia)) as (Hu & Hmo); [intros X; by apply (fp_shared _ _ _ Q)|].
  exists s5, b, d. split; [|split; [done|]; split; [done|]; split; [done|]; by split_and!].
  unfold fill_rest. rewrite (bind_Ok _ _ _ _ _ (get_blk_Ok e s _ He)), V, (bind_Ok _ _ s tt s eq_refl), Fs, eqb_reflx.
  rewrite (bind_Ok _ _ s tt s eq_refl), (bind_Ok _ _ _ _ _ (cc_regenerate_Ok s e _ a sec He Hk)), Z.eqb_refl.
  rewrite (bind_Ok _ _ s tt s eq_refl), (bind_Ok _ _ _ _ _ E1). rewrite (bind_Ok _ _ s1 tt s1).
  2:{ case_bool_decide as Hi; [|done]. fold sh. destruct sh eqn:Hsh; [|done]. destruct (fp_shared _ _ _ Q Hsh) as [_ Hrd]. by rewrite Hi in Hrd. }
  fold sh rs. rewrite (bind_Ok _ _ _ _ _ E2), (bind_Ok _ _ _ _ _ E3), Ec, (bind_Ok _ _ _ _ _ E4), D1, Z.add_0_r.
  rewrite (uwrap_small 64 edge), (uwrap_small 64 (edge + payloadDelay q)) by (unfold MaxTick in *; lia). by rewrite (bind_Ok _ _ _ _ _ E5).
Qed.

(** The checks before. *)
Lemma handleFill_start s q a k blk (al : bool) : fill_packet s a q -> writeBuffer s = [] -> blk_size s = 2 ^ k -> 2 <= k < 31 -> 0 <= a < 2 ^ 64 -> a mod 2 ^ k = 0 ->
  forall p s', match blk with
    | Some p => ret p
    | None =>
        do* checkM (hasData (pk_cmd q) || bool_decide (pk_cmd q = InvalidateResp)) AssertFailed ;;
        let* r := (if al then allocateBlock junk no_mshr pid_of q else ret None) in
        match r with
        | Some e => ret (TagBlk e)
        | None =>
            let* s := getS in
            let* t := lift (temp_insert (geom (tsys s)) (mkKey a sec) (tempBlock s)) in
            do* putS (with_temp t (tempData s) s) ;; ret TempBlk
        end
    end s = Ok (p, s') -> handleFill junk no_mshr pid_of q blk al s = fill_rest q a sec s p s'.
Proof.
  intros Q Hwb Hz Hk Ha Hm p s' E. destruct (fp_flags _ _ _ Q) as (F1 & F2).
  unfold handleFill. rewrite (fp_resp _ _ _ Q), (bind_Ok _ _ s tt s eq_refl).
  rewrite (bind_Ok _ _ s a s) by (unfold getAddr; by rewrite F1, (fp_addr _ _ _ Q)).
  rewrite (bind_Ok _ _ s sec s) by (unfold isSecure; by rewrite F1, (fp_secure _ _ _ Q)).
  rewrite (bind_Ok getS _ s s s eq_refl). rewrite (bind_Ok _ _ s a s).
  2:{ rewrite (getBlockAddr_Ok s q k); try done; [|by rewrite (fp_addr _ _ _ Q)].
      rewrite (fp_addr _ _ _ Q). unfold blk_addr. by rewrite Hz, Hm, Z.sub_0_r. }
  rewrite Z.eqb_refl, (bind_Ok _ _ s tt s eq_refl), Hwb. rewrite (bind_Ok _ _ s None s eq_refl), (bind_Ok _ _ s tt s eq_refl).
  by rewrite (bind_Ok _ _ _ _ _ E).
Qed.

(** A fill brings the block in. *)
Lemma handleFill_run s dm df q a : coupled None s dm df -> fill_packet s a q -> contents (tsys s) !! (a, sec) = None ->
  a mod blk_size s = 0 -> lo <= a -> a + blk_size s <= lo + vsize dm -> pk_cmd q <> UpgradeResp ->
  (isRead (pk_cmd q) = true -> pk_data q = window dm (a - lo) (blk_size s)) ->
  exists e o b l s', handleFill junk no_mshr pid_of q None true s = Ok (TagBlk e, s') /\
    entry s e = Some o /\ vacated s o b l /\ filled s s' l /\ contents (tsys s') !! (a, sec) = Some e /\
    coupled (if isRead (pk_cmd q) then None else Some a) s' (landed lo s o dm) df /\
    forall a', copy sec s' a' = if decide (a' = a) then Some (granted q (mkMode false false (now s)))
      else if decide (key s o = Some (a', sec)) then None else copy sec s a'.
Proof.
  intros H Q Hn Ha A1 A2 Hup Hdata. destruct (coupled_line _ _ _ _ H) as (k & K1 & K2 & K3 & Eb).
  destruct (cp_bounds _ _ _ _ _ _ H) as (B1 & _ & _ & B4 & _). assert (0 <= a < 2 ^ 64) as Hb by lia.
  destruct (fill_allocate s dm df q a H Q Hn Ha Hb) as (e & o & l & s1 & o1 & s2 & b & Eal & (b0 & Hvac) & H1 & He1 & V1 & [T2 R2] & Hfr & Hbd & Hs2 & Hn1 & Hc2 & W2).
  pose proof (va_entry _ _ _ _ _ _ Hvac) as He. destruct (va_touched _ _ _ _ _ _ Hvac) as [Tv Rv].
  assert (params_same (tags (tsys s)) (tags (tsys s2))) as Hp2 by (etrans; [apply Tv|apply T2]).
  assert (cfg s2 = cfg s /\ clk s2 = clk s /\ now s2 = now s) as (Ec & Eck & En).
  { destruct Rv as (? & ? & ? & ? & ? & ? & _), R2 as (? & ? & ? & ? & ? & ? & _).
    pose proof (th_tick _ _ _ _ _ Tv). pose proof (th_tick _ _ _ _ _ T2). unfold now. split_and!; congruence. }
  assert (blk_size s2 = blk_size s) as Ez by (unfold blk_size; by destruct Hp2 as (-> & _)).
  pose proof (touched_lookup _ _ _ _ _ T2) as He2.
  assert (contents (tsys s2) !! (a, sec) = Some e) as Hin by (rewrite Hc2; apply lookup_insert_eq).
  assert (key s2 (mkObject (base o1) b) = Some (a, sec)) as Hk2.
  { apply contents_entry in Hin as (o' & He' & Hk'); [|apply Hs2]. rewrite He2 in He'. by injection He' as <-. }
  assert (fill_packet s2 a q) as Q2 by (destruct Q, Hp2 as (E1 & E2 & _); constructor; rewrite ?Ez, ?E2; done).
  assert (clock_ok s2) as Hck. { destruct (cp_clock _ _ _ _ _ _ H) as (C1 & C2 & C3). unfold clock_ok. rewrite Ec, Eck, En. by split_and!. }
  destruct Hfr as (V2 & Fs & Fl & Fc & Ft). pose proof Ha as Ha'. rewrite K2 in Ha'.
  destruct (fill_rest_run s s2 e _ q a k Hs2 He2 Hk2 Fl) as (t5 & b5 & d5 & E5 & C5 & Hr5 & Hm5 & _ & Hd5 & Hc5 & W5 & P5); try done; try congruence.
  { cbn. lia. }
  { rewrite Ec. apply H. }
  exists e, o, b0, l, t5. split; [|split; [done|]; split; [apply Hvac|]; split; [|split; [by rewrite Hc5|]]].
  - rewrite (handleFill_start s q a k None true Q (cp_buffer _ _ _ _ _ _ H) K2 K1 Hb Ha' (TagBlk e) s2); [done|].
    assert (hasData (pk_cmd q) || bool_decide (pk_cmd q = InvalidateResp) = true) as ->.
    { destruct (fp_kind _ _ _ Q) as [(_ & -> & _)|(_ & [-> | ?])]; done. }
    by rewrite (bind_Ok _ _ s tt s eq_refl), (bind_Ok _ _ _ _ _ Eal).
  - pose proof (th_tick _ _ _ _ _ (ch_tags _ _ _ _ _ _ C5)) as En5. split; [by rewrite (ch_cfg _ _ _ _ _ _ C5)|].
    split; [etrans; [exact Hp2|apply C5]|]. unfold now in *. split_and!; congruence.
  - assert (changed s1 t5 e o1 b5 d5) as C15 by (eapply (changed_after s1 s2 t5 e o1 (mkObject (base o1) b)); try done).
    destruct (landed_facts lo sec s e o dm df H He) as (L1 & L2 & _).
    assert (blk_size s1 = blk_size s) as Ez1 by (unfold blk_size; destruct (th_params _ _ _ _ _ Tv) as (-> & _); done).
    split.
    + eapply (coupled_insert lo sec _ s1 t5 e o1 b5 d5 a); try done; [congruence|by rewrite Ez1, L1|by rewrite Ez1|].
      destruct (isRead (pk_cmd q)) eqn:Er; [right|by left]. split; [done|]. rewrite Hd5, Hdata, Ez1 by done. symmetry. apply L2; try done.
      intros Hk. destruct (key_block _ _ _ _ _ (cp_sound _ _ _ _ _ _ H) He Hk) as (_ & _ & _ & Hcn & _). congruence.
    + intros a'. rewrite (copy_insert sec s1 t5 e o1 b5 a (cp_sound _ _ _ _ _ _ H1) He1 V1 (ch_tags _ _ _ _ _ _ C15)) by congruence.
      rewrite (copy_empty sec s s1 e o b0 (cp_sound _ _ _ _ _ _ H) (vacates_emptied _ _ _ _ _ _ Hvac)). rewrite Hm5. cbn [ext]. f_equal.
      assert (forall m, m ∈ [WritableBit; DirtyBit] -> isSet m b = false) as Hz.
      { intros m Hm. unfold isSet. rewrite V2. cbn. apply negb_false_iff, Z.eqb_eq.
        replace m with (Z.land AllBits m) by (by repeat (apply elem_of_cons in Hm as [->|Hm]; [done|]); apply elem_of_nil in Hm).
        by rewrite Z.land_assoc, Fc. }
      unfold mode_of. by rewrite !Hz, Ft by set_solver.
Qed.

(** A response without bytes to a block that is there. *)
Lemma handleFill_existing s dm df q a e o al : coupled None s dm df -> fill_packet s a q -> isRead (pk_cmd q) = false ->
  entry s e = Some o -> key s o = Some (a, sec) -> _tickInserted (ext o) <= now s ->
  exists s', handleFill junk no_mshr pid_of q (Some (TagBlk e)) al s = Ok (TagBlk e, s') /\ filled s s' [] /\
    contents (tsys s') = contents (tsys s) /\ coupled None s' dm df /\
    forall a', copy sec s' a' = if decide (a' = a) then Some (granted q (mode_of (ext o))) else copy sec s a'.
Proof.
  intros H Q Hr He Hk Ht. destruct (coupled_line _ _ _ _ H) as (k & K1 & K2 & K3 & Eb). pose proof (cp_sound _ _ _ _ _ _ H) as Hs.
  destruct (key_block _ _ _ _ _ Hs He Hk) as (Ha & _ & V & _ & Kv). destruct (cp_bounds _ _ _ _ _ _ H) as (B1 & _ & _ & B4 & _).
  destruct (cp_block _ _ _ _ _ _ H e o a sec He Hk) as (_ & L1 & L2 & (_ & _ & _ & Ul) & [Hb1 Hb2]); [done|].
  assert (0 <= a < 2 ^ 64) as Hb by lia. pose proof Ha as Ha'. rewrite K2 in Ha'.
  destruct (fill_rest_run s s e o q a k Hs He Hk Ul Ht (cp_clock _ _ _ _ _ _ H) Q K2 K1 Hb Ha' eq_refl (proj1 (cp_cfg _ _ _ _ _ _ H)) eq_refl)
    as (s' & b & d & E & C & Hu & Hm & Hid & Hd & Hc & Hw & Hp). rewrite Hr in Hd. subst d. exists s'.
  split; [by rewrite (handleFill_start s q a k _ al Q (cp_buffer _ _ _ _ _ _ H) K2 K1 Hb Ha' (TagBlk e) s)|].
  split; [split; [apply C|]; split; [apply C|split; [by rewrite app_nil_r|split; [done|exact (th_tick _ _ _ _ _ (ch_tags _ _ _ _ _ _ C))]]]|]. split; [done|]. split.
  - eapply (coupled_update lo sec None s s' e o b); try done; [by left|]. intros Hdb. apply Hb2.
    assert (isSet DirtyBit b = m_dirty (granted q (mode_of (ext o)))) as Edb by (by rewrite <- Hm). rewrite Hdb in Edb. cbn in Edb.
    by destruct (isSet DirtyBit (ext o)).
  - intros a'. rewrite (copy_touched sec s s' e o b a Hs He (ch_tags _ _ _ _ _ _ C) Hc Hk). by rewrite Hm.
Qed.
End Runs.
