(* ===== verification/AtomicSends.v ===== *)
(** A classic cache over whatever answers what it sends down: the writebacks, the
    miss packets and [recvAtomic], from what the answers are. *)
From Stdlib Require Import ZArith Lia Bool.
From stdpp Require Import base numbers gmap list.
From S2P Require Import Prelude ReplBase Bitfield Indexing CacheBlk Partition Tags TagsInv TagsOps.
From S2P Require Import Bytes MemRequest MemPacket Clocked Serve ClassicCache ClassicOps.
From S2P Require Import ClassicTotal ClassicAccess ClassicServe Coupled AtomicRuns.
Local Open Scope Z_scope.

Section Sends.
Context {P D I B : Type} {RP : ReplacementPolicy P D} {RPL : ReplacementPolicyLaws P D}
  {IP : IndexingPolicy I} {IPL : IndexingLaws I} {SP : ServingPolicy P D}.
Implicit Types s : cc_sys P D I.
Context {alone : bool} (junk : Z) (pid_of : Packet -> Z) (lo : Z) (sec : bool).
Context (send : Packet -> B -> outcome (Packet * Z * B)) (above : Packet -> Packet) (writeAllocator : option bool).
#[local] Abbreviation no_mshr := (fun (_ : Z) (_ : bool) => @None MSHRView).
#[local] Abbreviation entry s e := (entries (wld (tsys s)) !! e).
#[local] Abbreviation key s o := (key_of (indexingPolicy (tags (tsys s))) o).
#[local] Abbreviation coupled := (coupled_by (alone := alone) lo sec).
#[local] Abbreviation request_for := (request_for lo sec).
#[local] Abbreviation fill_packet := (fill_packet (alone := alone) sec).
#[local] Abbreviation T := (cc_sys P D I * B)%type.
#[local] Abbreviation result p df := (serve p (window df (pk_addr p - lo) (pk_size p))).
#[local] Abbreviation after p df := (splice df (Z.to_nat (pk_addr p - lo)) (result p df).2).

(** ** Writebacks *)
#[local] Abbreviation doWritebacks := (@doWritebacksAtomic P D I B send above false).

Lemma onC_Ok {A} (m : M (cc_sys P D I) A) s s' a (x : B) : m s = Ok (a, s') -> onC m (s, x) = Ok (a, (s', x)).
Proof. unfold onC. cbn. by intros ->. Qed.

Lemma onC_get s (x : B) : onC getS (s, x) = Ok (s, (s, x)).
Proof. done. Qed.

(** What is below after the packets were sent. *)
Fixpoint sends (l : list Packet) (x x' : B) : Prop :=
  match l with
  | [] => x' = x
  | k :: l' => exists q lat x1, send k x = Ok (q, lat, x1) /\ sends l' x1 x'
  end.

Lemma wb_atomic_run s x x' k q lat : send k x = Ok (q, lat, x') -> writeback_atomic send above false k (s, x) = Ok (tt, (s, x')).
Proof.
  intros E. assert (sendAtomic send k (s, x) = Ok ((q, lat), (s, x'))) as Es by (unfold sendAtomic; cbn; by rewrite E).
  unfold writeback_atomic. rewrite (bind_Ok _ _ _ _ _ (onC_get s x)). cbn [andb].
  destruct (coherent (cfg s)); by rewrite (bind_Ok _ _ _ _ _ Es).
Qed.

Definition drop_writebacks s : cc_sys P D I := with_queues (writeBuffer s) (tempBlockWriteback s) (eventScheduled s) [] s.

Lemma drop_none s : writebacks s = [] -> drop_writebacks s = s.
Proof. unfold drop_writebacks. intros <-. by destruct s. Qed.

Lemma pop_run s (x : B) k l : writebacks s = k :: l ->
  onC (modifyS (fun s : cc_sys P D I => with_queues (writeBuffer s) (tempBlockWriteback s) (eventScheduled s) (tail (writebacks s)) s)) (s, x) =
    Ok (tt, (with_queues (writeBuffer s) (tempBlockWriteback s) (eventScheduled s) l s, x)).
Proof. intros E. apply onC_Ok. unfold modifyS. by rewrite E. Qed.

Lemma doWritebacks_sends s l x x' : sends l x x' -> writebacks s = l -> doWritebacks (s, x) = Ok (tt, (drop_writebacks s, x')).
Proof.
  intros Hs Hl. unfold doWritebacksAtomic. rewrite (bind_Ok _ _ _ _ _ (onC_get s x)), Hl.
  revert s x Hs Hl. induction l as [|k l IH]; intros s x Hs Hl.
  - cbn in *. subst x'. by rewrite drop_none.
  - destruct Hs as (q & lat & x1 & E & Hs). cbn [foreach].
    rewrite (bind_Ok _ _ _ (Continue tt) (with_queues (writeBuffer s) (tempBlockWriteback s) (eventScheduled s) l s, x1)).
    + rewrite (IH (with_queues (writeBuffer s) (tempBlockWriteback s) (eventScheduled s) l s)); done.
    + rewrite (bind_Ok _ _ _ _ _ (wb_atomic_run s x x1 k q lat E)). by rewrite (bind_Ok _ _ _ _ _ (pop_run s x1 k l Hl)).
Qed.

Lemma doWritebacks_nil s x : writebacks s = [] -> doWritebacks (s, x) = Ok (tt, (s, x)).
Proof. intros E. by rewrite (doWritebacks_sends s [] x x), drop_none. Qed.

Lemma drop_request s d p : request_for s d p -> request_for (drop_writebacks s) d p.
Proof. intros []. by constructor. Qed.

Lemma same_request s s' d p : cfg s' = cfg s -> params_same (tags (tsys s)) (tags (tsys s')) -> request_for s d p -> request_for s' d p.
Proof. intros E1 (E2 & E3 & _) []. constructor; unfold blk_size in *; rewrite ?E1, ?E2, ?E3; done. Qed.

(** ** Miss packets *)
Definition miss_cmd (c : Command) : Prop := c = ReadReq \/ c = ReadExReq \/ c = ReadSharedReq \/ c = InvalidateReq \/ c = UpgradeReq.

Section Miss.
Context st s dm df p (H : coupled st s dm df) (R : request_for s (vsize dm) p) (c : Command) (Hc : miss_cmd c).
#[local] Abbreviation a := (blk_addr s (pk_addr p)).
#[local] Abbreviation k0 := (new_Packet_blk (pk_req p) c (blk_size s)).

Lemma miss_addr : pk_addr k0 = a /\ pk_secure k0 = sec /\ pk_size k0 = blk_size s /\ pk_flags k0 = 0x300 /\
  getAddr k0 = Ok a /\ getBlockAddr (blk_size s) k0 = Ok a.
Proof.
  destruct (coupled_line _ _ _ _ _ _ H) as (k & K1 & K2 & K3 & _). destruct (request_block _ _ _ _ _ _ _ H R) as (Ha & _ & _ & Hb & Hp & _).
  destruct (rf_req _ _ _ _ _ R) as (Q1 & Q2 & Q3).
  assert (pk_addr k0 = a) as Ea.
  { unfold new_Packet_blk. cbn [pk_addr]. rewrite Q1, Q2, K2, align_down by done. unfold blk_addr. by rewrite K2. }
  assert (pk_flags k0 = 0x300) as Ef by (unfold new_Packet_blk; cbn [pk_flags]; by rewrite Q1).
  assert (has_flag VALID_ADDR k0 = true) as F by (unfold has_flag; by rewrite Ef).
  split; [done|]. split; [unfold new_Packet_blk; cbn [pk_secure]; by rewrite Q1|].
  split; [unfold new_Packet_blk; cbn [pk_size]; apply uwrap_small; lia|]. split; [done|].
  split; [unfold getAddr; by rewrite F, Ea|]. rewrite (getBlockAddr_Ok s k0 k) by (done || by rewrite Ea). rewrite Ea.
  unfold blk_addr at 1. rewrite Ha. by rewrite Z.sub_0_r.
Qed.

(** One that asks for the bytes is a plain read. *)
Lemma miss_read : isRead c = true ->
  let k := set_flag DYNAMIC_DATA (with_bytes (replicate (Z.to_nat (blk_size s)) junk) [] k0) in
  MemPacket.allocate junk k0 = Ok k /\ plain_packet k.
Proof.
  intros Hn k. destruct miss_addr as (E1 & E2 & E3 & E4 & _). destruct (coupled_line _ _ _ _ _ _ H) as (j & K1 & K2 & K3 & _).
  destruct (request_block _ _ _ _ _ _ _ H R) as (Ha & _ & _ & Hb & _).
  assert (c = ReadReq \/ c = ReadExReq \/ c = ReadSharedReq) as Hr by (destruct Hc as [-> | [-> | [-> | [-> | ->]]]]; (done || auto)).
  assert (hasData c || hasRespData c = true) as Hd by (by destruct Hr as [-> | [-> | ->]]).
  split.
  - unfold MemPacket.allocate. change (pk_cmd k0) with c. rewrite Hd, E4. cbn [fl_noneSet ocheck]. change (fl_noneSet 768 ANY_DATA) with true.
    cbn [ocheck obind]. unfold pk_getSize, has_flag. rewrite E4, E3. done.
  - assert (pk_flags k = 0x2300) as Ef by (unfold k, set_flag; cbn [pk_flags with_flags with_bytes]; by rewrite E4).
    constructor; unfold cacheResponding, has_flag; rewrite ?Ef; try done.
    + change (pk_cmd k) with c. by destruct Hr as [-> | [-> | ->]].
    + change (pk_size k) with (pk_size k0). rewrite E3. lia.
    + change (pk_addr k) with (pk_addr k0). rewrite E1. lia.
    + change (pk_size k) with (pk_size k0). rewrite E3. unfold vsize, k. cbn [pk_data set_flag with_flags with_bytes]. rewrite length_replicate. lia.
    + unfold isMaskedWrite. change (pk_cmd k) with c. by destruct Hr as [-> | [-> | ->]].
    + change (pk_cmd k) with c. by destruct Hr as [-> | [-> | ->]].
    + change (pk_cmd k) with c. by destruct Hr as [-> | [-> | ->]].
Qed.

(** One that does not has no bytes. *)
Lemma miss_bare : isRead c = false -> MemPacket.allocate junk k0 = Ok k0.
Proof. intros Hn. unfold MemPacket.allocate. change (pk_cmd k0) with c. by destruct Hc as [-> | [-> | [-> | [-> | ->]]]]. Qed.
End Miss.

(** ** Misses *)
#[local] Abbreviation fill := (handleFill junk no_mshr pid_of).

(** What went down when a block made room: the packets, the block and the bytes
    below once they are there. *)
Definition made_room s dm (l : list Packet) (v : option Z) dm' : Prop :=
  l = [] /\ v = None /\ dm' = dm \/
  exists e o b, entry s e = Some o /\ vacated s o b l /\ v = fst <$> key s o /\ dm' = landed lo s o dm.

(** The block is filled by the response [q] and the request satisfied. *)
Record miss_done s dm df p (q : Packet) (l : list Packet) (v : option Z) dm' (w : bool) s' : Prop := {
  md_coupled : coupled None s' dm' (after p df);
  md_room : made_room s dm l v dm';
  md_filled : filled s s' l;
  md_apart : v <> Some (blk_addr s (pk_addr p));
  md_copies : forall a', copy sec s' a' =
    if decide (a' = blk_addr s (pk_addr p)) then
      let m := granted q (default (mkMode false false (now s)) (copy sec s a')) in Some (mkMode (m_writable m) (m_dirty m || w) (m_since m))
    else if decide (v = Some a') then None else copy sec s a';
  md_wrote : (w = true -> isWrite (pk_cmd p) = true) /\ (w = false -> after p df = df);
}.

(** The request is satisfied from the block it filled, or got the right to. *)
Lemma serve_filled s dm df p q e l v dm' st s1 : let a := blk_addr s (pk_addr p) in
  request_for s (vsize dm') p -> filled s s1 l -> coupled st s1 dm' df -> contents (tsys s1) !! (a, sec) = Some e -> made_room s dm l v dm' -> v <> Some a ->
  (forall a', copy sec s1 a' = if decide (a' = a) then Some (granted q (default (mkMode false false (now s)) (copy sec s a')))
    else if decide (v = Some a') then None else copy sec s a') ->
  (st = None \/ st = Some a /\ overwrites s p) -> (needsWritable (pk_cmd p) = true -> hasSharers q = false) ->
  exists s2 w, satisfyRequest junk p (Some (TagBlk e)) s1 = Ok ((result p df).1, s2) /\ miss_done s dm df p q l v dm' w s2 /\
    (forall fc, maintainClusivity fc (Some (TagBlk e)) s2 = Ok (tt, s2)) /\ is_Some (entry s2 e).
Proof.
  intros a R Hf H1 Hin Hroom Hva Hcp Hst Hgr. assert (request_for s1 (vsize dm') p) as R1 by (by eapply filled_request).
  assert (blk_size s1 = blk_size s) as Ez by (unfold blk_size; by destruct Hf as (_ & (-> & _) & _)).
  assert (blk_addr s1 (pk_addr p) = a) as Ea by (unfold a, blk_addr; by rewrite Ez).
  pose proof Hin as (o1 & He1 & Hk1)%contents_entry; [|apply H1].
  assert (copy sec s1 a = Some (mode_of (ext o1))) as Hc1 by (apply copy_Some; [apply H1|eauto]).
  rewrite Hcp, decide_True in Hc1 by done. apply (inj Some) in Hc1 as Hm1.
  destruct (coupled_serve junk lo sec st s1 dm' df p e o1 H1 R1 He1) as (s2 & E2 & H2 & Sv & (o2 & He2) & w & Hw1 & Hw2 & Hw3).
  { by rewrite Ea. }
  { rewrite Ea. destruct Hst as [->|(-> & O1 & O2 & O3 & O4 & O5)]; [by left|right]. split; [done|]. unfold overwrites. rewrite Ea, Ez. by split_and!. }
  { intros Hn. change (isSet WritableBit (ext o1)) with (m_writable (mode_of (ext o1))). rewrite <- Hm1. cbn. by rewrite (Hgr Hn), orb_true_r. }
  exists s2, w. split; [done|]. split; [|split; [|by exists o2]; intros fc; apply (clusivity_Ok fc e s2 o2); [apply H2|done]].
  constructor; try done.
  - destruct Hf as (F1 & F2 & F3 & F4 & F5), Sv as ((S1 & _ & _ & S4 & _ & _ & _ & S8) & _ & S3 & Sn).
    split; [congruence|]. split; [by etrans|]. split_and!; congruence.
  - intros a'. rewrite Hw1, Ea, Hcp. fold a. by case_decide.
Qed.

Lemma fill_serve s dm df p q : let a := blk_addr s (pk_addr p) in
  coupled None s dm df -> request_for s (vsize dm) p -> contents (tsys s) !! (a, sec) = None -> fill_packet s a q -> pk_cmd q <> UpgradeResp ->
  (isRead (pk_cmd q) = true -> pk_data q = window dm (a - lo) (blk_size s)) -> (isRead (pk_cmd q) = true \/ overwrites s p) ->
  (needsWritable (pk_cmd p) = true -> hasSharers q = false) ->
  exists e l v dm' w s1 s2, fill q None true s = Ok (TagBlk e, s1) /\
    satisfyRequest junk p (Some (TagBlk e)) s1 = Ok ((result p df).1, s2) /\ miss_done s dm df p q l v dm' w s2 /\
    (forall fc, maintainClusivity fc (Some (TagBlk e)) s2 = Ok (tt, s2)) /\ is_Some (entry s2 e).
Proof.
  intros a H R Hn Q Hup Hd Hk Hgr. destruct (request_block _ _ _ _ _ _ _ H R) as (Ha & A1 & A2 & _). fold a in Ha, A1, A2.
  destruct (handleFill_run junk pid_of lo sec s dm df q a H Q Hn Ha A1 A2 Hup Hd) as (e & o & b & l & s1 & E1 & He & Hv & Hf & Hin & H1 & Hcp).
  destruct (landed_facts lo sec s e o dm df H He) as (L1 & _).
  destruct (serve_filled s dm df p q e l (fst <$> key s o) (landed lo s o dm) (if isRead (pk_cmd q) then None else Some a) s1)
    as (s2 & w & E2 & Hmd & Hcl & Hen); try done.
  - by rewrite L1.
  - right. by exists e, o, b.
  - destruct (key s o) as [[a0 sec0]|] eqn:Hko; [|done]. cbn. intros [= E]. destruct (cp_block _ _ _ _ _ _ H e o a0 sec0 He Hko) as (-> & _).
    destruct (key_block _ _ _ _ _ (cp_sound _ _ _ _ _ _ H) He Hko) as (_ & _ & _ & Hcn & _). fold a in E. congruence.
  - intros a'. rewrite Hcp. fold a. destruct (decide (a' = a)) as [->|Hd1]; [by rewrite (proj2 (copy_None sec s a (cp_sound _ _ _ _ _ _ H)) Hn)|].
    destruct (key s o) as [[a0 sec0]|] eqn:Hko; [|done]. destruct (cp_block _ _ _ _ _ _ H e o a0 sec0 He Hko) as (-> & _). cbn.
    destruct (decide (Some (a0, sec) = Some (a', sec))) as [[= ->]|Hne]; [by rewrite decide_True|]. rewrite decide_False; [done|congruence].
  - destruct (isRead (pk_cmd q)); [by left|right]. split; [done|]. by destruct Hk.
  - by exists e, l, (fst <$> key s o), (landed lo s o dm), w, s1, s2.
Qed.

Lemma upgrade_serve s dm df p q e o : let a := blk_addr s (pk_addr p) in
  coupled None s dm df -> request_for s (vsize dm) p -> entry s e = Some o -> key s o = Some (a, sec) -> fill_packet s a q ->
  isRead (pk_cmd q) = false -> _tickInserted (ext o) <= now s ->
  exists w s1 s2, fill q (Some (TagBlk e)) true s = Ok (TagBlk e, s1) /\
    satisfyRequest junk p (Some (TagBlk e)) s1 = Ok ((result p df).1, s2) /\ miss_done s dm df p q [] None dm w s2 /\
    (forall fc, maintainClusivity fc (Some (TagBlk e)) s2 = Ok (tt, s2)) /\ is_Some (entry s2 e).
Proof.
  intros a H R He Hk Q Hr Ht. destruct (handleFill_existing junk pid_of lo sec s dm df q a e o true H Q Hr He Hk Ht) as (s1 & E1 & Hf & Hc & H1 & Hcp).
  assert (copy sec s a = Some (mode_of (ext o))) as Hca by (apply copy_Some; [apply H|eauto]).
  destruct (serve_filled s dm df p q e [] None dm None s1) as (s2 & w & E2 & Hmd & Hcl & Hen); try done.
  - rewrite Hc. apply contents_entry; [apply H|eauto].
  - by left.
  - intros a'. rewrite Hcp. fold a. destruct (decide (a' = a)) as [->|Hd]; [by rewrite Hca|by rewrite decide_False by done].
  - by left.
  - intros _. destruct (hasSharers q) eqn:Hsh; [|done]. destruct (fp_shared _ _ _ _ Q Hsh) as [_ Hrd]. congruence.
  - by exists w, s1, s2.
Qed.

Lemma isWholeLineWrite_Ok s p : plain_packet p -> exists wl, isWholeLineWrite (blk_size s) p = Ok wl /\
  (wl = true -> isWrite (pk_cmd p) = true /\ pk_cmd p <> SwapReq /\ isMaskedWrite p = false /\
    Z.land (pk_addr p) (u32 (blk_size s - 1)) = 0 /\ pk_size p = blk_size s) /\
  (pk_cmd p = WriteLineReq -> Z.land (pk_addr p) (u32 (blk_size s - 1)) = 0 -> pk_size p = blk_size s -> wl = true).
Proof.
  intros Hp. destruct (pp_flags _ Hp) as (F1 & F2 & _). unfold isWholeLineWrite.
  destruct (_ || _) eqn:Ec.
  - unfold pk_getOffset, getAddr, pk_getSize. rewrite F1, F2. cbn [ocheck obind]. eexists. split; [done|]. split.
    + rewrite !andb_true_iff, negb_true_iff, !Z.eqb_eq. intros [[E1 E2] E3]. rewrite orb_true_iff, !bool_decide_eq_true in Ec.
      split; [by destruct Ec as [-> | ->]|]. split; [by destruct Ec as [-> | ->]|done].
    + intros E1 -> ->. unfold isMaskedWrite. rewrite E1, !Z.eqb_refl. done.
  - exists false. split; [done|]. split; [done|]. intros E. by rewrite E in Ec.
Qed.

Lemma with_req_same p : with_req (pk_req p) p = p.
Proof. by destruct p. Qed.

Lemma c_ticks_Ok t s (x : B) : clock_ok s -> exists v, c_ticksToCycles t (s, x) = Ok (v, (s, x)).
Proof.
  intros (Hc & _). unfold c_ticksToCycles. rewrite (bind_Ok _ _ _ _ _ (onC_get s x)).
  destruct (ticksToCycles_Ok t (clk s) Hc) as (v & ->). by eexists.
Qed.

Lemma allocOnFill_Ok s c : mostly_exclusive (cfg s) = false -> allocOnFill c s = Ok (true, s).
Proof. intros Hm. unfold allocOnFill. by rewrite (bind_Ok getS _ s s s eq_refl), Hm. Qed.

Lemma whole_line st s dm df p : coupled st s dm df -> request_for s (vsize dm) p ->
  exists wl, isWholeLineWrite (blk_size s) p = Ok wl /\ (wl = true -> overwrites s p) /\
    (coherent (cfg s) = true -> pk_cmd p = WriteLineReq -> wl = true).
Proof.
  intros H R. pose proof (rf_plain _ _ _ _ _ R) as Hp. destruct (coupled_line _ _ _ _ _ _ H) as (k & K1 & K2 & K3 & _).
  assert (Z.land (pk_addr p) (u32 (blk_size s - 1)) = pk_addr p mod blk_size s) as El.
  { rewrite (uwrap_small 32) by lia. rewrite K2, Z.sub_1_r, <- Z.ones_equiv, Z.land_ones by lia. done. }
  destruct (isWholeLineWrite_Ok s p Hp) as (wl & E & H1 & H2). exists wl. split; [done|]. rewrite El in H1, H2. split.
  - intros Hw. destruct (H1 Hw) as (W1 & W2 & W3 & W4 & W5). unfold overwrites, blk_addr. rewrite W4. split_and!; try done. lia.
  - intros Hco Hc. destruct (rf_coh _ _ _ _ _ R Hco) as (_ & _ & Hz). specialize (Hz Hc). pose proof (rf_line _ _ _ _ _ R).
    pose proof (Z.mod_pos_bound (pk_addr p) (blk_size s) ltac:(lia)). apply H2; [done|lia|done].
Qed.

(** ** The misses of a coherent cache *)

(** The command of its miss packet; [present] says whether it has a copy. *)
Definition coherent_cmd (present nw wl : bool) : Command :=
  if wl then InvalidateReq else if present then UpgradeReq else if nw then ReadExReq else ReadSharedReq.

Lemma coherent_cmd_miss present nw wl : miss_cmd (coherent_cmd present nw wl).
Proof. unfold miss_cmd, coherent_cmd. destruct present, nw, wl; auto 6. Qed.

(** The block at hand: none, or one without the right to write. *)
Definition at_hand s (a : Z) (nw : bool) (blk : option loc) : Prop :=
  match blk with
  | Some e => exists o, entry s e = Some o /\ key s o = Some (a, sec) /\ isSet WritableBit (ext o) = false /\ nw = true /\ _tickInserted (ext o) <= now s
  | None => contents (tsys s) !! (a, sec) = None
  end.

#[local] Abbreviation present blk := (match blk with Some _ => true | None => false end).

Lemma coherent_packet s dm df p blk nw wl k : coupled None s dm df -> request_for s (vsize dm) p -> coherent (cfg s) = true ->
  isUncacheable (pk_req p) = false -> (pk_cmd p = WriteLineReq -> wl = true) -> at_hand s (blk_addr s (pk_addr p)) nw blk ->
  MemPacket.allocate junk (new_Packet_blk (pk_req p) (coherent_cmd (present blk) nw wl) (blk_size s)) = Ok k ->
  createMissPacket junk p (TagBlk <$> blk) nw wl s = Ok (Some k, s).
Proof.
  intros H R Hco Hu Hwl Hb Ek. pose proof (rf_plain _ _ _ _ _ R) as Hp. destruct (plain_responds _ (pp_cmd _ Hp)) as [Hnr _].
  destruct (plain_kinds _ (pp_cmd _ Hp)) as (K1 & _ & _ & _ & K5 & _ & K7 & K8). destruct (cp_cfg _ _ _ _ _ _ H) as [Hro Hme].
  destruct (miss_addr None s dm df p H R (coherent_cmd (present blk) nw wl)) as (_ & _ & _ & _ & E5 & E6).
  destruct (rf_coh _ _ _ _ _ R Hco) as (_ & Hsh & _).
  assert (exists ob, match TagBlk <$> blk with Some x => let* b := get_blk x in ret (Some b) | None => ret None end s = Ok (ob, s) /\
    match blk with Some _ => exists b, ob = Some b /\ isValid b = true /\ isSet WritableBit b = false /\ nw = true | None => ob = None end) as (ob & Eob & Hob).
  { destruct blk as [e|]; [|by exists None]. destruct Hb as (o & He & Hk & Hw & Hnw & _). cbn [fmap option_fmap option_map].
    destruct (key_block _ _ _ _ _ (cp_sound _ _ _ _ _ _ H) He Hk) as (_ & _ & V & _). exists (Some (ext o)).
    rewrite (bind_Ok _ _ _ _ _ (get_blk_Ok e s o He)). by eauto 6. }
  unfold createMissPacket. rewrite (bind_Ok getS _ s s s eq_refl), (bind_Ok _ _ _ _ _ Eob), Hco.
  rewrite (bind_Ok _ _ s (Some (coherent_cmd (present blk) nw wl)) s).
  - rewrite Hsh. cbn [andb]. rewrite (bind_Ok _ _ s _ s) by (by rewrite E5). rewrite (bind_Ok _ _ s _ s) by (by rewrite E6).
    rewrite Z.eqb_refl, (bind_Ok _ _ s tt s eq_refl). by rewrite (bind_Ok _ _ s k s) by (by rewrite Ek).
  - unfold miss_command. rewrite (bind_Ok getS _ s s s eq_refl), K1, (bind_Ok _ _ s tt s eq_refl), Hu, K5, K7.
    rewrite andb_false_r. rewrite bool_decide_eq_false_2 by done. cbn [orb]. rewrite Hnr, (bind_Ok _ _ s tt s eq_refl).
    assert (negb (bool_decide (pk_cmd p = WriteLineReq)) || wl = true) as ->.
    { case_bool_decide; [by rewrite Hwl|done]. }
    rewrite (bind_Ok _ _ s tt s eq_refl), Hro, Hme. unfold coherent_cmd.
    assert (pk_cmd p <> SCUpgradeFailReq /\ pk_cmd p <> StoreCondFailReq) as [N1 N2] by (split; pose proof (pp_cmd _ Hp) as Hpc; intros E; by rewrite E in Hpc).
    destruct blk as [e|].
    + destruct Hob as (b & -> & -> & -> & ->). destruct wl; [by rewrite (bind_Ok _ _ s tt s eq_refl)|].
      rewrite (bind_Ok _ _ s tt s eq_refl), (bind_Ok _ _ s tt s eq_refl). by rewrite (plain_LLSC _ (pp_cmd _ Hp)).
    + subst ob. destruct wl; [by rewrite (bind_Ok _ _ s tt s eq_refl)|]. by rewrite !bool_decide_eq_false_2 by done.
Qed.

(** The answer [q] to the miss packet of [p]. *)
Record answer s dm p (blk : option loc) (wl : bool) (q : Packet) : Prop := {
  an_fill : fill_packet s (blk_addr s (pk_addr p)) q;
  an_req : pk_req q = pk_req p;
  an_cmd : pk_cmd q = responseCommand (coherent_cmd (present blk) (needsWritable (pk_cmd p)) wl);
  an_data : isRead (pk_cmd q) = true -> pk_data q = window dm (blk_addr s (pk_addr p) - lo) (blk_size s);
  an_grant : needsWritable (pk_cmd p) = true -> hasSharers q = false;
}.

Lemma fill_or_upgrade s dm df p q blk wl : coupled None s dm df -> request_for s (vsize dm) p ->
  (wl = true -> overwrites s p) -> at_hand s (blk_addr s (pk_addr p)) (needsWritable (pk_cmd p)) blk -> answer s dm p blk wl q ->
  exists e l v dm' w s1 s2, fill q (TagBlk <$> blk) true s = Ok (TagBlk e, s1) /\
    satisfyRequest junk p (Some (TagBlk e)) s1 = Ok ((result p df).1, s2) /\ miss_done s dm df p q l v dm' w s2 /\
    (forall fc, maintainClusivity fc (Some (TagBlk e)) s2 = Ok (tt, s2)) /\ is_Some (entry s2 e).
Proof.
  intros H R Hov Hb [Q _ Ec Hdata Hgr]. destruct blk as [e|].
  - destruct Hb as (o & He & Hk & Hw & Hnw & Ht).
    destruct (upgrade_serve s dm df p q e o H R He Hk Q) as (w & s1 & s2 & X); [rewrite Ec; by destruct wl|done|].
    by exists e, [], None, dm, w, s1, s2.
  - apply (fill_serve s dm df p q H R Hb Q); [|done| |done].
    + rewrite Ec. by destruct wl, (needsWritable _).
    + destruct wl; [right; auto|left]. rewrite Ec. by destruct (needsWritable _).
Qed.

(** What the coherent cache makes of the answer. *)
Lemma coherent_response s dm df p q blk wl (x : B) : coupled None s dm df -> request_for s (vsize dm) p ->
  default true writeAllocator = true -> isWholeLineWrite (blk_size s) p = Ok wl -> (wl = true -> overwrites s p) ->
  at_hand s (blk_addr s (pk_addr p)) (needsWritable (pk_cmd p)) blk -> answer s dm p blk wl q ->
  exists e l v dm' w s', c_response junk no_mshr pid_of writeAllocator p q (TagBlk <$> blk) (isInvalidate (pk_cmd q)) (s, x) =
      Ok ((Some (TagBlk e), false, (result p df).1), (s', x)) /\ miss_done s dm df p q l v dm' w s' /\ is_Some (entry s' e).
Proof.
  intros H R Hwa Ewl Hov Hb An. pose proof (cp_cfg _ _ _ _ _ _ H) as [_ Hme]. pose proof (an_cmd _ _ _ _ _ _ An) as Ec.
  destruct (fill_or_upgrade s dm df p q blk wl H R Hov Hb An) as (e & l & v & dm' & w & s1 & s2 & Ef & Esat & Hmd & Hcl & Hen).
  exists e, l, v, dm', w, s2. split; [|done]. unfold c_response. rewrite (bind_Ok _ _ _ _ _ (onC_get s x)), (fp_resp _ _ _ _ (an_fill _ _ _ _ _ _ An)).
  rewrite (bind_Ok _ _ (s, x) tt (s, x) eq_refl).
  assert (isError (pk_cmd q) = false) as -> by (rewrite Ec; by destruct wl, blk, (needsWritable _)).
  rewrite (bind_Ok _ _ (s, x) wl (s, x)) by (by rewrite Ewl). destruct wl.
  - rewrite (bind_Ok _ _ _ _ _ (onC_Ok _ _ _ _ x (allocOnFill_Ok s (pk_cmd p) Hme))), Hwa. cbn [andb].
    by rewrite (bind_Ok _ _ _ _ _ (onC_Ok _ _ _ _ x Ef)), (bind_Ok _ _ _ _ _ (onC_Ok _ _ _ _ x Esat)).
  - assert (isRead (pk_cmd q) || bool_decide (pk_cmd q = UpgradeResp) = true /\ isInvalidate (pk_cmd q) = false) as [-> ->]
      by (rewrite Ec; by destruct blk, (needsWritable _)).
    rewrite (bind_Ok _ _ _ _ _ (onC_Ok _ _ _ _ x (allocOnFill_Ok s (pk_cmd p) Hme))).
    rewrite (bind_Ok _ _ _ _ _ (onC_Ok _ _ _ _ x Ef)), (bind_Ok _ _ _ _ _ (onC_Ok _ _ _ _ x Esat)).
    by rewrite (bind_Ok _ _ _ _ _ (onC_Ok _ _ _ _ x (Hcl _))).
Qed.

(** The miss of a coherent cache. *)
Lemma c_miss_run s dm df p blk wl k q lat x x1 : coupled None s dm df -> request_for s (vsize dm) p -> coherent (cfg s) = true ->
  isUncacheable (pk_req p) = false -> default true writeAllocator = true -> isWholeLineWrite (blk_size s) p = Ok wl ->
  at_hand s (blk_addr s (pk_addr p)) (needsWritable (pk_cmd p)) blk ->
  MemPacket.allocate junk (new_Packet_blk (pk_req p) (coherent_cmd (present blk) (needsWritable (pk_cmd p)) wl) (blk_size s)) = Ok k ->
  send k x = Ok (q, lat, x1) -> answer s dm p blk wl q ->
  exists y e l v dm' w s', c_handleAtomicReqMiss junk no_mshr pid_of send writeAllocator p (TagBlk <$> blk) (s, x) =
      Ok ((y, Some (TagBlk e), (result p df).1), (s', x1)) /\ miss_done s dm df p q l v dm' w s'.
Proof.
  intros H R Hco Hu Hwa Ewl Hb Eal Es An. pose proof (rf_plain _ _ _ _ _ R) as Hp. destruct (plain_responds _ (pp_cmd _ Hp)) as [Hnr Hrq].
  destruct (plain_kinds _ (pp_cmd _ Hp)) as (K1 & _ & _ & K4 & _). destruct (whole_line None s dm df p H R) as (wl' & Ewl' & Hov & Hline).
  rewrite Ewl in Ewl'. injection Ewl' as <-.
  destruct (coherent_response s dm df p q blk wl x1 H R Hwa Ewl Hov Hb An) as (e & l & v & dm' & w & s2 & Er & Hmd & (o2 & He2)).
  destruct (c_ticks_Ok lat s x1 (cp_clock _ _ _ _ _ _ H)) as (y & El). exists y, e, l, v, dm', w, s2. split; [|done].
  unfold c_handleAtomicReqMiss. rewrite (bind_Ok _ _ _ _ _ (onC_get s x)), K1, bool_decide_eq_false_2, Hu by done. cbn [orb andb].
  rewrite (bind_Ok _ _ (s, x) (needsWritable (pk_cmd p)) (s, x)) by (unfold pk_needsWritable; by rewrite Hrq).
  rewrite (bind_Ok _ _ (s, x) wl (s, x)) by (by rewrite Ewl).
  rewrite (bind_Ok _ _ _ _ _ (onC_Ok _ _ _ _ x (coherent_packet s dm df p blk _ wl k H R Hco Hu (Hline Hco) Hb Eal))). cbn [default].
  rewrite (bind_Ok _ _ _ (q, lat) (s, x1)) by (unfold sendAtomic; cbn; by rewrite Es). cbn [fst snd].
  rewrite (bind_Ok _ _ _ _ _ El), (an_req _ _ _ _ _ _ An), with_req_same, Hnr, (bind_Ok _ _ _ _ _ Er). cbn [fst snd andb].
  rewrite (bind_Ok _ _ (s2, x1) tt (s2, x1)); [done|]. by rewrite (bind_Ok _ _ _ _ _ (onC_Ok _ _ _ _ x1 (get_blk_Ok e s2 o2 He2))).
Qed.

(** ** [recvAtomic] *)
#[local] Abbreviation recv := (recvAtomic junk no_mshr pid_of send above false writeAllocator).
#[local] Abbreviation base_recv := (base_recvAtomic junk no_mshr pid_of send above false writeAllocator).

(** A plain request that may be cached goes to [BaseCache::access]. *)
Lemma access_base s p l0 r s' : plain_packet p -> (coherent (cfg s) = true -> isUncacheable (pk_req p) = false) ->
  base_access junk no_mshr pid_of p l0 s = Ok (r, s') -> pk_cmd (ar_pkt r) = pk_cmd p -> access junk no_mshr pid_of p l0 s = Ok (r, s').
Proof.
  intros Hp Hu E Hr. destruct (plain_kinds _ (pp_cmd _ Hp)) as (_ & K2 & _ & K4 & _).
  unfold access. rewrite (bind_Ok getS _ s s s eq_refl). destruct (coherent (cfg s)); [by rewrite Hu|].
  rewrite (bind_Ok _ _ _ _ _ E), Hr, K2, bool_decide_eq_false_2 by done. by rewrite (bind_Ok _ _ s' tt s' eq_refl).
Qed.

(** The end of [recvAtomic], when the block is not the temporary one. *)
Lemma respond_final q p df : q = (result p df).1 \/ q = respond (result p df).1 -> plain_packet p ->
  (if needsResponse (pk_cmd q) then makeResponse q else Ok q) = Ok (respond (result p df).1).
Proof.
  intros Hq Hp. pose proof (pp_cmd _ Hp) as Hc. destruct Hq as [-> | ->].
  - rewrite serve_cmd, (proj1 (plain_responds _ Hc)). by rewrite makeResponse_Ok by (by rewrite serve_cmd).
  - assert (pk_cmd (respond (result p df).1) = responseCommand (pk_cmd p)) as -> by (unfold respond; cbn [pk_cmd clear_flag with_flags with_cmd]; by rewrite serve_cmd).
    by destruct (pk_cmd p).
Qed.

Lemma evict_temp_none blk t : blk <> Some TempBlk -> evict_temp junk send above false blk t = Ok (tt, t).
Proof.
  intros Hb. destruct t as [s x]. unfold evict_temp. rewrite (bind_Ok _ _ _ _ _ (onC_get s x)), bool_decide_eq_false_2 by done. done.
Qed.

(** A hit: nothing is sent. *)
Lemma recv_hit s dm df p x : coupled None s dm df -> request_for s (vsize dm) p -> hits sec s p -> writebacks s = [] ->
  (coherent (cfg s) = true -> isUncacheable (pk_req p) = false) ->
  exists lat s' w, base_recv p (s, x) = Ok ((respond (result p df).1, lat), (s', x)) /\ coupled None s' dm (after p df) /\ served s s' /\
    marks sec (blk_addr s (pk_addr p)) w s s' /\ (w = true -> isWrite (pk_cmd p) = true) /\ (w = false -> after p df = df).
Proof.
  intros H R Hh Hw Hu. pose proof (rf_plain _ _ _ _ _ R) as Hp. destruct (plain_kinds _ (pp_cmd _ Hp)) as (_ & _ & _ & _ & K5 & _).
  destruct (base_access_hit junk pid_of lo sec s dm df p (c_lookupLatency (cfg s)) H R Hh) as (e & lat & s1 & w & Ea & (o1 & He1) & H1 & Sv & Hm).
  apply (access_base s p _ _ _ Hp Hu) in Ea; [|apply serve_cmd].
  assert (writebacks s1 = []) as Hw1 by (by destruct Sv as ((_ & _ & _ & _ & _ & _ & _ & ->) & _)).
  eexists _, s1, w. split; [|done].
  unfold base_recvAtomic. rewrite (bind_Ok _ _ _ _ _ (onC_get s x)), (bind_Ok _ _ _ _ _ (onC_Ok _ _ _ _ x Ea)). cbn [ar_blk ar_pkt ar_satisfied ar_lat negb].
  rewrite (bind_Ok _ _ (s1, x) (result p df).1 (s1, x)).
  2:{ apply onC_Ok. cbn [clean_dirty]. rewrite (bind_Ok _ _ _ _ _ (get_blk_Ok e s1 o1 He1)), serve_cmd, K5. done. }
  rewrite (bind_Ok _ _ _ _ _ (doWritebacks_nil s1 x Hw1)), (bind_Ok _ _ _ _ _ (onC_get _ x)), Hw1.
  rewrite (bind_Ok _ _ (s1, x) tt (s1, x) eq_refl).
  rewrite (bind_Ok _ _ _ (lat, Some (TagBlk e), (result p df).1) _ eq_refl), (bind_Ok _ _ _ _ _ (doWritebacks_nil s1 x Hw1)). cbn [fst snd].
  rewrite (bind_Ok _ _ _ _ _ (evict_temp_none (Some (TagBlk e)) _ ltac:(done))).
  by rewrite (bind_Ok _ _ _ (respond (result p df).1) (s1, x)) by (by rewrite (respond_final _ p df) by (done || by left)).
Qed.

(** An access that is not satisfied, from what it leaves and what the miss does. *)
Lemma recv_unsatisfied s s1 x x1 p df lat0 b0 y q blk s2 x2 x3 l0 l : plain_packet p ->
  access junk no_mshr pid_of p (c_lookupLatency (cfg s)) s = Ok (mkAccess false b0 lat0 p, s1) ->
  match b0 with Some (TagBlk e) => is_Some (entry s1 e) | Some TempBlk => False | None => True end -> writebacks s1 = l0 -> sends l0 x x1 ->
  handleAtomicReqMiss junk no_mshr pid_of send writeAllocator p b0 (drop_writebacks s1, x1) = Ok ((y, blk, q), (s2, x2)) ->
  q = (result p df).1 \/ q = respond (result p df).1 -> blk <> Some TempBlk -> writebacks s2 = l -> sends l x2 x3 ->
  exists lat, base_recv p (s, x) = Ok ((respond (result p df).1, lat), (drop_writebacks s2, x3)).
Proof.
  intros Hp Ea Hb0 Hl0 Hs0 Eh Hq Hb Hl Hs. destruct (plain_kinds _ (pp_cmd _ Hp)) as (_ & _ & _ & _ & K5 & _). eexists.
  unfold base_recvAtomic. rewrite (bind_Ok _ _ _ _ _ (onC_get s x)), (bind_Ok _ _ _ _ _ (onC_Ok _ _ _ _ x Ea)). cbn [ar_blk ar_pkt ar_satisfied ar_lat negb].
  rewrite (bind_Ok _ _ (s1, x) p (s1, x)).
  2:{ apply onC_Ok. destruct b0 as [[|e]|]; [done| |done]. destruct Hb0 as [o He]. cbn [clean_dirty]. rewrite (bind_Ok _ _ _ _ _ (get_blk_Ok e s1 o He)), K5. done. }
  rewrite (bind_Ok _ _ _ _ _ (doWritebacks_sends s1 l0 x x1 Hs0 Hl0)), (bind_Ok _ _ _ _ _ (onC_get _ x1)). cbn [writebacks drop_writebacks with_queues].
  rewrite (bind_Ok _ _ (drop_writebacks s1, x1) tt (drop_writebacks s1, x1) eq_refl).
  rewrite (bind_Ok _ _ _ (u64 (lat0 + y), blk, q) (s2, x2)) by (by rewrite (bind_Ok _ _ _ _ _ Eh)). cbn [fst snd].
  rewrite (bind_Ok _ _ _ _ _ (doWritebacks_sends s2 l x2 x3 Hs Hl)), (bind_Ok _ _ _ _ _ (evict_temp_none blk _ Hb)).
  by rewrite (bind_Ok _ _ _ (respond (result p df).1) (drop_writebacks s2, x3)) by (by rewrite (respond_final q p df)).
Qed.

(** A miss of a coherent cache that [q] answers: what it sends down for room
    remains. *)
Lemma recv_miss_coherent s dm df p wl k q lat x x1 : let a := blk_addr s (pk_addr p) in
  coupled None s dm df -> request_for s (vsize dm) p -> ~ hits sec s p -> writebacks s = [] -> coherent (cfg s) = true ->
  isUncacheable (pk_req p) = false -> default true writeAllocator = true -> isWholeLineWrite (blk_size s) p = Ok wl ->
  (forall m, copy sec s a = Some m -> m_since m <= now s) ->
  MemPacket.allocate junk (new_Packet_blk (pk_req p) (coherent_cmd (present (contents (tsys s) !! (a, sec))) (needsWritable (pk_cmd p)) wl) (blk_size s)) = Ok k ->
  send k x = Ok (q, lat, x1) -> answer s dm p (contents (tsys s) !! (a, sec)) wl q ->
  exists s1 l v dm' w s2, coupled None s1 dm df /\ served s s1 /\ (forall a, copy sec s1 a = copy sec s a) /\
    miss_done s1 dm df p q l v dm' w s2 /\
    forall x2, sends l x1 x2 -> exists lat', base_recv p (s, x) = Ok ((respond (result p df).1, lat'), (drop_writebacks s2, x2)).
Proof.
  intros a H R Hh Hw Hco Hu Hwa Ewl Hsince Eal Es An. pose proof (rf_plain _ _ _ _ _ R) as Hp.
  destruct (base_access_miss junk pid_of lo sec s dm df p (c_lookupLatency (cfg s)) H R Hh) as (lat0 & s1 & Ea & H1 & Sv & Hcp).
  apply (access_base s p _ _ _ Hp ltac:(done)) in Ea; [|done]. fold a in Ea. set (blk := contents (tsys s) !! (a, sec)) in *.
  pose proof (served_request _ _ _ _ _ _ Sv R) as R1. pose proof Sv as (As & Ec & Ep & En).
  assert (writebacks s1 = []) as Hw1 by (by destruct As as (_ & _ & _ & _ & _ & _ & _ & ->)).
  assert (cfg s1 = cfg s) as Ecf by (by destruct As as (-> & _)).
  assert (blk_size s1 = blk_size s) as Ez by (unfold blk_size; by destruct Ep as (-> & _)).
  assert (blk_addr s1 (pk_addr p) = a) as Eb by (unfold a, blk_addr; by rewrite Ez).
  assert (at_hand s1 a (needsWritable (pk_cmd p)) blk /\ match TagBlk <$> blk with Some (TagBlk e) => is_Some (entry s1 e) | Some TempBlk => False | None => True end) as [Hb Hen].
  { destruct blk as [e|] eqn:Hblk; cbn; [|by rewrite Ec]. unfold blk in Hblk. rewrite <- Ec in Hblk.
    apply contents_entry in Hblk as (o & He & Hk); [|apply H1]. split; [|by exists o]. exists o. split; [done|]. split; [done|].
    assert (copy sec s a = Some (mode_of (ext o))) as Hm by (rewrite <- Hcp; apply copy_Some; [apply H1|eauto]).
    specialize (Hsince _ Hm). cbn in Hsince. rewrite En.
    destruct (needsWritable (pk_cmd p)) eqn:Hnw; [|exfalso; apply Hh; exists (mode_of (ext o)); by rewrite Hnw].
    split; [|done]. destruct (isSet WritableBit (ext o)) eqn:Hwr; [|done]. exfalso. apply Hh. exists (mode_of (ext o)). by rewrite Hnw. }
  assert (answer s1 dm p blk wl q) as An1.
  { destruct An as [Q A2 A3 A4 A5]. constructor; rewrite ?Eb, ?Ez; try done. destruct Q, Ep as (_ & Em & _). constructor; rewrite ?Ez, ?Em; done. }
  rewrite <- Ez in Ewl, Eal. rewrite <- Eb in Hb.
  destruct (c_miss_run s1 dm df p blk wl k q lat x x1 H1 R1 ltac:(congruence) Hu Hwa Ewl Hb Eal Es An1) as (y & e & l & v & dm' & w & s2 & Eh & Hmd).
  exists s1, l, v, dm', w, s2. split; [done|]. split; [done|]. split; [done|]. split; [done|]. intros x2 Hs.
  eapply (recv_unsatisfied s s1 x x p df lat0 (TagBlk <$> blk) y _ (Some (TagBlk e)) s2 x1 x2 [] l); try done; [|by left|].
  - unfold handleAtomicReqMiss. rewrite drop_none by done. rewrite (bind_Ok _ _ _ _ _ (onC_get _ x)), Ecf, Hco. exact Eh.
  - destruct (md_filled _ _ _ _ _ _ _ _ _ _ Hmd) as (_ & _ & -> & _). by rewrite Hw1.
Qed.

(** A whole-line write that was promoted is the same request. *)
Lemma promoted_request s n df p : request_for s n p -> pk_cmd p = WriteReq -> isMaskedWrite p = false -> pk_size p = blk_size s ->
  let p' := with_cmd WriteLineReq p in
  request_for s n p' /\ respond (result p' df).1 = respond (result p df).1 /\ after p' df = after p df.
Proof.
  intros R Hc Hm Hz p'. assert (forall w, serve p w = (p, pk_data p)) as E1.
  { intros w. unfold serve. by rewrite Hc, Hm. }
  assert (forall w, serve p' w = (p', pk_data p)) as E2 by done.
  rewrite E1, E2. split; [|split; [unfold respond; cbn [fst]; by rewrite Hc|done]].
  destruct R as [[P1 P2 P3 P4 P5 P6 P7 P8] R2 R3 R4 R5 R6 R7 R8]. constructor; try done.
  - constructor; try done. intros _. apply P8. by rewrite Hc.
  - intros Hco. destruct (R8 Hco) as (_ & Hs & _). by split_and!.
Qed.

(** A coherent cache receives a request: as it is, or as a whole-line write. *)
Lemma recv_promoted s n df p x : request_for s n p -> coherent (cfg s) = true ->
  exists p', recv p (s, x) = base_recv p' (s, x) /\ request_for s n p' /\ pk_req p' = pk_req p /\
    respond (result p' df).1 = respond (result p df).1 /\ after p' df = after p df.
Proof.
  intros R Hco. destruct (pp_flags _ (rf_plain _ _ _ _ _ R)) as (F1 & F2 & _ & F4).
  assert (exists p', promoteWholeLineWrites p s = Ok (p', s) /\ cacheResponding p' = false /\ request_for s n p' /\ pk_req p' = pk_req p /\
    respond (result p' df).1 = respond (result p df).1 /\ after p' df = after p df) as (p' & Ep & Fp & Hp').
  { unfold promoteWholeLineWrites. rewrite (bind_Ok getS _ s s s eq_refl). case_bool_decide as Ec; [|by exists p].
    rewrite (bind_Ok _ _ s (pk_size p) s) by (unfold pk_getSize; by rewrite F2).
    rewrite (bind_Ok _ _ s (Z.land (pk_addr p) (u32 (blk_size s - 1))) s) by (unfold pk_getOffset, getAddr; by rewrite F1).
    destruct (_ && _) eqn:Hb; [|by exists p]. apply andb_true_iff in Hb as [[Hz _]%andb_true_iff Hmk].
    exists (with_cmd WriteLineReq p). split; [done|]. split; [done|].
    destruct (promoted_request s n df p R Ec) as (R' & E1 & E2); [by apply negb_true_iff|lia|]. by split_and!. }
  exists p'. split; [|done]. unfold recvAtomic. rewrite (bind_Ok _ _ _ _ _ (onC_get s x)), Hco. by rewrite (bind_Ok _ _ _ _ _ (onC_Ok _ _ _ _ x Ep)), Fp.
Qed.
End Sends.
