(* ===== verification/SnoopRuns.v ===== *)
(** Snoops of a coherent classic cache, run on the relation between the cache and
    the bytes all caches and the memory stand for: what a snoop leaves of the
    copy of a block, and what it makes of the packet. *)
From Stdlib Require Import ZArith Lia Bool.
From stdpp Require Import base numbers gmap list.
From S2P Require Import Prelude ReplBase Bitfield AddrRange Indexing CacheBlk Partition Tags TagsInv TagsOps.
From S2P Require Import Bytes MemRequest MemPacket Clocked Serve ClassicCache ClassicOps.
From S2P Require Import ClassicTotal ClassicAccess ClassicSnoop ClassicServe Coupled AtomicRuns AtomicSends.
Local Open Scope Z_scope.

(** ** Flags of packets *)
Lemma has_set m m' p : has_flag m (set_flag m' p) = has_flag m p || negb (Z.land m' m =? 0).
Proof. unfold has_flag, set_flag, fl_isSet, fl_set. cbn [pk_flags with_flags]. apply lor_set. Qed.

Lemma set_set m p : set_flag m (set_flag m p) = set_flag m p.
Proof. unfold set_flag, fl_set, with_flags. cbn [pk_flags pk_cmd pk_req pk_data pk_addr pk_secure pk_size bytesValid headerDelay snoopDelay payloadDelay]. by rewrite <- Z.lor_assoc, Z.lor_diag. Qed.

Lemma has_clear m m' p : Z.land m' m = 0 -> has_flag m (clear_flag m' p) = has_flag m p.
Proof.
  intros E. unfold has_flag, clear_flag, fl_isSet, fl_clear. cbn [pk_flags with_flags]. f_equal. f_equal.
  apply Z.bits_inj'. intros i Hi. rewrite !Z.land_spec, Z.lnot_spec by done.
  pose proof (f_equal (fun x => Z.testbit x i) E) as Ei. cbn in Ei. rewrite Z.land_spec, Z.bits_0 in Ei.
  destruct (Z.testbit (pk_flags p) i), (Z.testbit m' i), (Z.testbit m i); done.
Qed.

(** ** What a snoop does *)

(** The commands of snoops: a read to share, or one of those that leave the
    requestor with the only copy. *)
Definition snoop_cmd (c : Command) : Prop := c = ReadSharedReq \/ c = ReadExReq \/ c = InvalidateReq \/ c = UpgradeReq.

(** The copy afterwards. *)
Definition left_by (c : Command) (m : option mode) : option mode :=
  if isInvalidate c then None else (fun m => mkMode false (m_dirty m) (m_since m)) <$> m.

(** A read that shares tells of the sharer. *)
Definition told (p : Packet) : Packet := if isInvalidate (pk_cmd p) then p else setHasSharers p.

(** The response of a cache with the bytes [d]; [w] says whether it could write. *)
Definition answered (w : bool) (d : list Z) (p : Packet) : Packet :=
  let p := set_flag CACHE_RESPONDING p in
  let p := respond (if w then set_flag RESPONDER_HAD_WRITABLE p else p) in
  if hasData (pk_cmd p) then with_payload d p else p.

Section Snoops.
Context {P D I B : Type} {RP : ReplacementPolicy P D} {RPL : ReplacementPolicyLaws P D}
  {IP : IndexingPolicy I} {IPL : IndexingLaws I} {SP : ServingPolicy P D}.
Implicit Types s : cc_sys P D I.
Context (junk : Z) (lo : Z) (sec : bool) (gnu : bool).
Context (send : Packet -> B -> outcome (Packet * Z * B)) (above : Packet -> Packet).
#[local] Abbreviation entry s e := (entries (wld (tsys s)) !! e).
#[local] Abbreviation key s o := (key_of (indexingPolicy (tags (tsys s))) o).
#[local] Abbreviation local s df := (coupled_by (alone := false) lo sec None s df df).
#[local] Abbreviation snoop := (recvAtomicSnoop junk send above false gnu).

(** What a snoop leaves alone. *)
Definition undisturbed s s' : Prop :=
  cfg s' = cfg s /\ params_same (tags (tsys s)) (tags (tsys s')) /\ writebacks s' = writebacks s /\ now s' = now s /\ clk s' = clk s.

#[global] Instance undisturbed_refl : Reflexive undisturbed.
Proof. intros s. by split_and!. Qed.

Lemma served_undisturbed s s' : served s s' -> undisturbed s s'.
Proof. intros ((A1 & _ & _ & A4 & _ & _ & _ & A8) & _ & Ep & En). by split_and!. Qed.

(** The copy of the block at [a] after a snoop with the command [c]. *)
Record snooped (c : Command) (a : Z) (df : list Z) s s' : Prop := {
  sn_local : local s' df;
  sn_rest : undisturbed s s';
  sn_copies : forall a', copy sec s' a' = if decide (a' = a) then left_by c (copy sec s a') else copy sec s a';
}.

Lemma snooped_absent c a df s : local s df -> copy sec s a = None -> snooped c a df s s.
Proof.
  intros H Hn. constructor; [done|done|]. intros a'. case_decide as Hd; [|done]. subst a'. rewrite Hn. unfold left_by. by destruct (isInvalidate c).
Qed.

(** A request for the block [a]. *)
Record for_block (n a : Z) (p : Packet) : Prop := {
  fb_valid : has_flag VALID_ADDR p = true /\ has_flag VALID_SIZE p = true;
  fb_addr : pk_addr p = a; fb_secure : pk_secure p = sec; fb_size : pk_size p = n;
  fb_cacheable : isUncacheable (pk_req p) = false;
  fb_request : isRequest (pk_cmd p) = true /\ isClean (pk_cmd p) = false;
}.

(** The lookup of a snoop. *)
Lemma snoop_start df s a p ranges (y : B) : local s df -> for_block (blk_size s) a p -> 0 <= a < 2 ^ 64 -> a mod blk_size s = 0 ->
  inRange gnu ranges a = Ok true ->
  snoop ranges p (s, y) = (let* pkt := handleSnoop junk send above false p (TagBlk <$> contents (tsys s) !! (a, sec)) in
    let* s := onC getS in ret (pkt, u64 (c_lookupLatency (cfg s) * clockPeriod (clk s)))) (s, y).
Proof.
  intros H [[F1 _] Ea Es _ _ _] Hb Ha Hr. destruct (coupled_line _ _ _ _ _ _ H) as (k & _ & _ & K3 & Eb).
  unfold recvAtomicSnoop. unfold getAddr. rewrite F1, Ea. cbn [ocheck obind].
  rewrite (bind_Ok _ _ (s, y) a (s, y) eq_refl). rewrite (bind_Ok _ _ (s, y) true (s, y)) by (by rewrite Hr).
  rewrite (bind_Ok _ _ (s, y) (contents (tsys s) !! (a, sec)) (s, y)); [done|]. apply onC_Ok. unfold onT.
  rewrite (findBlock_Ok _ _ _ (proj1 (cp_sound _ _ _ _ _ _ H)) Hb), Eb, Es. unfold blk_addr. rewrite Ha, Z.sub_0_r. by destruct s.
Qed.

(** No copy: nothing happens. *)
Lemma snoop_absent df s a p ranges y : local s df -> for_block (blk_size s) a p -> 0 <= a < 2 ^ 64 -> a mod blk_size s = 0 ->
  inRange gnu ranges a = Ok true -> copy sec s a = None -> exists lat, snoop ranges p (s, y) = Ok ((p, lat), (s, y)).
Proof.
  intros H Hp Hb Ha Hr Hn. rewrite (snoop_start df s a p ranges y H Hp Hb Ha Hr).
  apply copy_None in Hn; [|apply H]. rewrite Hn. cbn [fmap option_fmap option_map]. destruct Hp as [_ _ _ _ Hu [Hq Hcl]].
  eexists. rewrite (bind_Ok _ _ _ p (s, y)); [by rewrite (bind_Ok _ _ _ _ _ (onC_get s y))|].
  unfold handleSnoop, pk_needsWritable. rewrite Hq, (bind_Ok _ _ (s, y) tt (s, y) eq_refl). cbn [ocheck obind].
  rewrite (bind_Ok _ _ (s, y) (needsWritable (pk_cmd p)) (s, y) eq_refl), Hu, andb_false_r. cbn [negb].
  rewrite (bind_Ok _ _ (s, y) tt (s, y) eq_refl), (bind_Ok _ _ (s, y) p (s, y) eq_refl), (bind_Ok _ _ (s, y) None (s, y) eq_refl), Hcl. done.
Qed.

(** A copy: the rest of the snoop. *)
Lemma snoop_present df s a p ranges y e o p' s' : local s df -> for_block (blk_size s) a p -> 0 <= a < 2 ^ 64 -> a mod blk_size s = 0 ->
  inRange gnu ranges a = Ok true -> entry s e = Some o -> key s o = Some (a, sec) ->
  snoop_hit p (TagBlk e) (isSet DirtyBit (ext o) && needsResponse (pk_cmd p)) (isInvalidate (pk_cmd p)) (needsWritable (pk_cmd p)) s = Ok (p', s') ->
  exists lat, snoop ranges p (s, y) = Ok ((p', lat), (s', y)).
Proof.
  intros H Hp Hb Ha Hr He Hk Eh. rewrite (snoop_start df s a p ranges y H Hp Hb Ha Hr).
  destruct (key_block _ _ _ _ _ (cp_sound _ _ _ _ _ _ H) He Hk) as (_ & _ & V & Hc & _). rewrite Hc. cbn [fmap option_fmap option_map].
  destruct Hp as [_ _ _ _ Hu [Hq Hcl]]. destruct (cp_cfg _ _ _ _ _ _ H) as [Hro _].
  eexists. rewrite (bind_Ok _ _ _ p' (s', y)); [by rewrite (bind_Ok _ _ _ _ _ (onC_get s' y))|].
  unfold handleSnoop, pk_needsWritable. rewrite Hq, (bind_Ok _ _ (s, y) tt (s, y) eq_refl). cbn [ocheck obind].
  rewrite (bind_Ok _ _ (s, y) (needsWritable (pk_cmd p)) (s, y) eq_refl), Hu, andb_false_r. cbn [negb].
  rewrite (bind_Ok _ _ (s, y) tt (s, y) eq_refl), (bind_Ok _ _ (s, y) p (s, y) eq_refl), Hcl.
  rewrite (bind_Ok _ _ (s, y) (Some (TagBlk e, ext o)) (s, y)).
  2:{ apply onC_Ok. by rewrite (bind_Ok _ _ _ _ _ (get_blk_Ok e s o He)). }
  rewrite V. rewrite (bind_Ok _ _ _ _ _ (onC_get s y)), Hro, (bind_Ok _ _ (s, y) tt (s, y) eq_refl). by apply onC_Ok.
Qed.

(** An eviction of another cache hears that the block is cached. *)
Lemma snoop_evict df s a p ranges y : local s df -> for_block (blk_size s) a p -> 0 <= a < 2 ^ 64 -> a mod blk_size s = 0 ->
  inRange gnu ranges a = Ok true -> isEviction (pk_cmd p) = true ->
  exists lat, snoop ranges p (s, y) = Ok ((match copy sec s a with Some _ => setBlockCached p | None => p end, lat), (s, y)).
Proof.
  intros H Hp Hb Ha Hr Hev. destruct (copy sec s a) as [m|] eqn:Hc; [|by apply (snoop_absent df s a)].
  apply copy_Some in Hc as (e & o & He & Hk & _); [|apply H]. apply (snoop_present df s a p ranges y e o); try done.
  unfold snoop_hit, mustCheckAbove. by rewrite Hev, orb_true_r.
Qed.

(** ** The copy *)
Lemma cleared_set m b : isSet m (clearCoherenceBits WritableBit b) = isSet (Z.land (u32 (Z.lnot WritableBit)) m) b.
Proof.
  unfold isSet. change (isValid (clearCoherenceBits WritableBit b)) with (isValid b). cbn [coherence clearCoherenceBits with_state].
  by rewrite Z.land_assoc.
Qed.

Lemma isSet_zero b : isSet 0 b = false.
Proof. unfold isSet. by rewrite Z.land_0_r, andb_false_r. Qed.

Lemma cleared_usable b : usable false b -> usable false (clearCoherenceBits WritableBit b) /\
  mode_of (clearCoherenceBits WritableBit b) = mkMode false (isSet DirtyBit b) (_tickInserted b).
Proof.
  intros (R1 & R2 & R3 & R4). unfold usable, mode_of. rewrite !cleared_set.
  change (Z.land (u32 (Z.lnot WritableBit)) WritableBit) with 0. change (Z.land (u32 (Z.lnot WritableBit)) ReadableBit) with ReadableBit.
  change (Z.land (u32 (Z.lnot WritableBit)) DirtyBit) with DirtyBit. by rewrite isSet_zero.
Qed.

(** The copy is shared: it may no longer be written. *)
Lemma share_run df s a e o : local s df -> entry s e = Some o -> key s o = Some (a, sec) ->
  let b := clearCoherenceBits WritableBit (ext o) in
  exists s', call_blk (TagBlk e) (fun b => Ok (clearCoherenceBits WritableBit b)) s = Ok (tt, s') /\
    entry s' e = Some (mkObject (base o) b) /\ key s' (mkObject (base o) b) = Some (a, sec) /\
    bytes_of s' b = bytes_of s (ext o) /\ snooped ReadSharedReq a df s s' /\ blk_size s' = blk_size s.
Proof.
  intros H He Hk b. pose proof (cp_sound _ _ _ _ _ _ H) as Hs. destruct (ac_blk _ _ (proj2 Hs) e o He) as (Ht & _).
  destruct (cp_block _ _ _ _ _ _ H e o a sec He Hk) as (_ & _ & _ & Hu & [Hb Hd]); [done|]. destruct (cleared_usable _ Hu) as [Hu' Hm].
  destruct (stepped_call e (fun b => Ok (clearCoherenceBits WritableBit b)) s s o (ext o) b _ (stepped_refl e s o Hs He)) as (s' & E & St); try done.
  exists s'. pose proof (stepped_changed s s' e o _ _ He (cp_clock _ _ _ _ _ _ H) St) as C. split; [done|]. split; [by eapply stepped_lookup|].
  split; [by rewrite (stepped_key _ _ _ _ _ _ St)|]. split; [by eapply changed_bytes|]. split; [|by eapply changed_size]. constructor.
  - eapply (coupled_update lo sec None s s' e o b); try done; [apply St|by left].
  - by eapply served_undisturbed, stepped_served.
  - intros a'. rewrite (copy_touched sec s s' e o b a Hs He (sd_tags _ _ _ _ _ _ St) (sd_contents _ _ _ _ _ _ St) Hk).
    destruct (decide (a' = a)) as [->|]; [|done]. assert (copy sec s a = Some (mode_of (ext o))) as -> by (apply copy_Some; eauto). unfold b. by rewrite Hm.
Qed.

(** The copy is invalidated. *)
Lemma snoop_invalidates df s a e o c : local s df -> entry s e = Some o -> key s o = Some (a, sec) -> isInvalidate c = true ->
  exists s', invalidateBlock (TagBlk e) s = Ok (tt, s') /\ snooped c a df s s'.
Proof.
  intros H He Hk Hi. destruct (invalidateBlock_empties e s o a sec (cp_sound _ _ _ _ _ _ H) He Hk) as (s' & b & E & Hem & W). exists s'. split; [done|].
  constructor.
  - rewrite <- (landed_same lo sec s e o df H He) at 1. by eapply coupled_empty.
  - destruct (em_touched _ _ _ _ _ Hem) as [T (R1 & _ & _ & _ & R5 & _)]. split; [done|]. split; [apply T|]. split_and!; try done. exact (th_tick _ _ _ _ _ T).
  - intros a'. rewrite (copy_empty sec s s' e o b (cp_sound _ _ _ _ _ _ H) Hem), Hk. unfold left_by. rewrite Hi.
    repeat case_decide; simplify_eq; done.
Qed.

(** ** The response *)
Lemma snoop_cmd_facts c : snoop_cmd c -> isRequest c = true /\ isClean c = false /\ needsResponse c = true /\ isWrite c = false /\
  isInvalidate c = needsWritable c /\ isResponse (responseCommand c) = true /\ responseCommand c <> c /\ hasData (responseCommand c) = isRead c /\
  isEviction c = false /\ c <> HardPFReq /\ c <> WriteReq /\ (isInvalidate c = false -> isRead c = true).
Proof. intros [-> | [-> | [-> | ->]]]; by vm_compute. Qed.

Lemma respond_run s a e o p : sound s -> for_block (blk_size s) a p -> snoop_cmd (pk_cmd p) -> entry s e = Some o -> key s o = Some (a, sec) ->
  cacheResponding p = false -> responderHadWritable p = false -> (isInvalidate (pk_cmd p) = true \/ hasSharers p = true) ->
  (isRead (pk_cmd p) = true -> has_flag ANY_DATA p = true /\ vsize (pk_data p) = blk_size s) ->
  snoop_respond p (isInvalidate (pk_cmd p)) (TagBlk e) s = Ok (answered (isSet WritableBit (ext o)) (bytes_of s (ext o)) p, s).
Proof.
  intros Hs [[F1 F2] Ea Es Ez _ _] Hc He Hk Fr Fw Hsh Hd. destruct (key_aligned _ _ e o a sec (proj1 Hs) (proj2 Hs) He Hk) as (n & Hn & Hbs & Hb & Ha & _ & _).
  destruct (snoop_cmd_facts _ Hc) as (C1 & C2 & C3 & _ & _ & _ & _ & C8 & _ & _ & C11 & _). destruct (blk_bytes_run e s o (proj2 Hs) He) as [Eb Hv].
  unfold snoop_respond. rewrite (bind_Ok getS _ s s s eq_refl), (bind_Ok _ _ _ _ _ (get_blk_Ok e s o He)).
  unfold setCacheResponding. rewrite C1. unfold cacheResponding in Fr. rewrite Fr. cbn [negb ocheck obind].
  rewrite (bind_Ok _ _ s (set_flag CACHE_RESPONDING p) s eq_refl). change (pk_cmd (set_flag CACHE_RESPONDING p)) with (pk_cmd p). rewrite C2. cbn [negb andb].
  set (p1 := set_flag CACHE_RESPONDING p). set (p2 := if isSet WritableBit (ext o) then set_flag RESPONDER_HAD_WRITABLE p1 else p1).
  rewrite (bind_Ok _ _ s p2 s).
  2:{ unfold p2. destruct (isSet WritableBit (ext o)); [|done]. unfold setResponderHadWritable, cacheResponding, responderHadWritable, p1 in *.
      rewrite !has_set, Fw, orb_true_r. done. }
  assert (pk_cmd p2 = pk_cmd p /\ pk_size p2 = pk_size p /\ pk_addr p2 = pk_addr p /\ pk_data p2 = pk_data p) as (Q1 & Q2 & Q3 & Q4)
    by (unfold p2; destruct (isSet WritableBit (ext o)); by split_and!).
  assert (forall m, Z.land CACHE_RESPONDING m = 0 -> Z.land RESPONDER_HAD_WRITABLE m = 0 -> has_flag m p2 = has_flag m p) as Hfl.
  { intros m M1 M2. unfold p2, p1. destruct (isSet WritableBit (ext o)); rewrite !has_set, M1, ?M2, ?orb_false_r; done. }
  rewrite (bind_Ok _ _ s tt s).
  2:{ unfold hasSharers in *. rewrite (Hfl HAS_SHARERS) by done. destruct Hsh as [-> | ->]; by rewrite ?orb_true_r. }
  rewrite (bind_Ok _ _ s (respond p2) s) by (unfold makeResponse, respond; by rewrite Q1, C3, C1).
  unfold answered. fold p1 p2. set (p3 := respond p2). assert (pk_cmd p3 = responseCommand (pk_cmd p)) as Ec by (unfold p3, respond; cbn; by rewrite Q1).
  rewrite Ec, C8. destruct (isRead (pk_cmd p)) eqn:Hr; [|done]. destruct (Hd eq_refl) as [F3 Hvd]. rewrite (bind_Ok _ _ _ _ _ Eb).
  assert (forall m, Z.land CACHE_RESPONDING m = 0 -> Z.land RESPONDER_HAD_WRITABLE m = 0 -> Z.land EXPRESS_SNOOP m = 0 -> has_flag m p3 = has_flag m p) as Hf3.
  { intros m M1 M2 M3. unfold p3, respond. rewrite has_clear by done. change (has_flag m (with_cmd (responseCommand (pk_cmd p2)) p2)) with (has_flag m p2). by apply Hfl. }
  unfold lift, setDataFromBlock, pk_getOffset, getAddr. rewrite (Hf3 VALID_ADDR), F1 by done. cbn [ocheck obind].
  change (pk_addr p3) with (pk_addr p2). rewrite Q3, Ea. unfold blk_size in *. rewrite Hbs. rewrite (offset_aligned n a) by (done || lia).
  unfold setData, getPtr, pk_getSize. rewrite (Hf3 ANY_DATA), (Hf3 VALID_SIZE), F3, F2 by done. cbn [ocheck obind].
  change (pk_size p3) with (pk_size p2). change (pk_data p3) with (pk_data p2). rewrite Q2, Q4, Ez. rewrite <- Hv, read_bytes_all.
  assert (isMaskedWrite p3 = false) as -> by (unfold isMaskedWrite; rewrite Ec; by destruct Hc as [-> | [-> | [-> | ->]]]). cbn [negb ocheck obind].
  rewrite write_bytes_Ok by lia. cbn [obind]. change (Z.to_nat 0) with 0%nat. unfold vsize in *. rewrite splice_all by lia. done.
Qed.

(** A packet no cache has responded to yet. *)
Definition unanswered (n : Z) (p : Packet) : Prop :=
  cacheResponding p = false /\ responderHadWritable p = false /\
  (isRead (pk_cmd p) = true -> has_flag ANY_DATA p = true /\ vsize (pk_data p) = n).

Lemma told_facts n a p : for_block n a p -> pk_cmd (told p) = pk_cmd p /\ for_block n a (told p) /\
  (unanswered n p -> unanswered n (told p)) /\ (isInvalidate (pk_cmd p) = false -> hasSharers (told p) = true).
Proof.
  intros [[F1 F2] Ea Es Ez Hu Hq]. unfold told, unanswered. destruct (isInvalidate (pk_cmd p)) eqn:Hi; [by split_and!|].
  unfold setHasSharers, cacheResponding, responderHadWritable, hasSharers. rewrite !has_set. change (pk_cmd (set_flag HAS_SHARERS p)) with (pk_cmd p).
  split; [done|]. split; [constructor; rewrite ?has_set, ?F1, ?F2; done|]. split; [|by rewrite orb_true_r].
  change (negb (Z.land HAS_SHARERS CACHE_RESPONDING =? 0)) with false. change (negb (Z.land HAS_SHARERS RESPONDER_HAD_WRITABLE =? 0)) with false.
  change (negb (Z.land HAS_SHARERS ANY_DATA =? 0)) with false. by rewrite !orb_false_r.
Qed.

(** What the block does with a snoop. *)
Lemma snoop_hit_run df s a p e o : local s df -> for_block (blk_size s) a p -> snoop_cmd (pk_cmd p) -> entry s e = Some o -> key s o = Some (a, sec) ->
  (isSet DirtyBit (ext o) = true -> unanswered (blk_size s) p) ->
  exists w s', snoop_hit p (TagBlk e) (isSet DirtyBit (ext o) && needsResponse (pk_cmd p)) (isInvalidate (pk_cmd p)) (needsWritable (pk_cmd p)) s =
      Ok (if isSet DirtyBit (ext o) then answered w (window df (a - lo) (blk_size s)) (told p) else told p, s') /\ snooped (pk_cmd p) a df s s'.
Proof.
  intros H Hp Hc He Hk Hun. destruct (snoop_cmd_facts _ Hc) as (C1 & C2 & C3 & C4 & C5 & _ & _ & _ & C9 & C10 & _ & C12).
  destruct (told_facts (blk_size s) a p Hp) as (T1 & T2 & T3 & T4). destruct (cp_block _ _ _ _ _ _ H e o a sec He Hk) as (_ & _ & _ & _ & [Hb _]); [done|].
  pose proof (cp_sound _ _ _ _ _ _ H) as Hs. rewrite C3, andb_true_r. unfold snoop_hit, mustCheckAbove. rewrite (bool_decide_eq_false_2 _ C10), C9. cbn [orb].
  rewrite <- C5. destruct (isInvalidate (pk_cmd p)) eqn:Hi; cbn [negb].
  - rewrite andb_false_r. assert (told p = p) as Et by (unfold told; by rewrite Hi). rewrite Et in *. exists (isSet WritableBit (ext o)).
    destruct (snoop_invalidates df s a e o (pk_cmd p) H He Hk Hi) as (s' & Ei & Hsn). exists s'. split; [|done].
    rewrite (bind_Ok _ _ s p s eq_refl). rewrite (bind_Ok _ _ s (if isSet DirtyBit (ext o) then answered (isSet WritableBit (ext o)) (window df (a - lo) (blk_size s)) p else p) s).
    2:{ destruct (isSet DirtyBit (ext o)); [|done]. destruct (Hun eq_refl) as (U1 & U2 & U3). rewrite <- Hi, Hb. by apply (respond_run s a); auto. }
    by rewrite (bind_Ok _ _ _ _ _ Ei).
  - rewrite (C12 eq_refl). cbn [andb]. destruct (share_run df s a e o H He Hk) as (s' & Ec & He' & Hk' & Hb' & Hsn & Hz).
    exists false, s'. split.
    + rewrite (bind_Ok _ _ s (told p) s').
      2:{ rewrite (bind_Ok _ _ s tt s eq_refl), (fb_cacheable _ _ _ Hp), (bind_Ok _ _ _ _ _ Ec). unfold told. by rewrite Hi. }
      rewrite (bind_Ok _ _ s' (if isSet DirtyBit (ext o) then answered false (window df (a - lo) (blk_size s)) (told p) else told p) s'); [done|].
      destruct (isSet DirtyBit (ext o)); [|done]. destruct (T3 (Hun eq_refl)) as (U1 & U2 & U3).
      pose proof (respond_run s' a e (mkObject (base o) (clearCoherenceBits WritableBit (ext o))) (told p) (cp_sound _ _ _ _ _ _ (sn_local _ _ _ _ _ Hsn))) as Er.
      rewrite T1, Hi in Er. erewrite Er; [|destruct T2; constructor; rewrite ?Hz; done|done|exact He'|exact Hk'|done|done|right; by apply T4|rewrite Hz; by rewrite T1 in U3].
      cbn [ext]. rewrite cleared_set, isSet_zero, Hb', Hb. done.
    + assert (pk_cmd p = ReadSharedReq) as -> by (destruct Hc as [E|[E|[E|E]]]; [exact E|by rewrite E in Hi..]). done.
Qed.

(** A snoop. *)
Lemma snoop_run df s a p ranges y : local s df -> for_block (blk_size s) a p -> 0 <= a < 2 ^ 64 -> a mod blk_size s = 0 -> inRange gnu ranges a = Ok true ->
  snoop_cmd (pk_cmd p) -> (forall m, copy sec s a = Some m -> m_dirty m = true -> unanswered (blk_size s) p) ->
  exists w lat s', snoop ranges p (s, y) = Ok ((match copy sec s a with
      | Some m => if m_dirty m then answered w (window df (a - lo) (blk_size s)) (told p) else told p
      | None => p
      end, lat), (s', y)) /\ snooped (pk_cmd p) a df s s'.
Proof.
  intros H Hp Hb Ha Hr Hc Hun. destruct (copy sec s a) as [m|] eqn:Hcp.
  - pose proof Hcp as (e & o & He & Hk & ->)%copy_Some; [|apply H].
    destruct (snoop_hit_run df s a p e o H Hp Hc He Hk) as (w & s' & Eh & Hsn); [intros Hd; by apply (Hun (mode_of (ext o)))|].
    destruct (snoop_present df s a p ranges y e o _ s' H Hp Hb Ha Hr He Hk Eh) as (lat & E). by exists w, lat, s'.
  - destruct (snoop_absent df s a p ranges y H Hp Hb Ha Hr Hcp) as (lat & E). exists false, lat, s. split; [done|]. by apply snooped_absent.
Qed.
End Snoops.
