(* ===== verification/FilterRuns.v ===== *)
(** The snoop filter, run: which ports a request is sent to, and which ports the
    filter takes for holders of a line afterwards. *)
From Stdlib Require Import ZArith Lia Bool.
From stdpp Require Import base numbers gmap list.
From S2P Require Import Prelude Bitfield MemRequest MemPacket BaseXBar SnoopFilter AtomicRuns.
Local Open Scope Z_scope.

(** ** Masks *)
Lemma mask_shift_small i : 0 <= i < SNOOP_MASK_SIZE -> mask_shift i = Z.shiftl 1 i.
Proof. intros H. unfold mask_shift. rewrite (proj2 (Z.leb_le 0 i)), (proj2 (Z.ltb_lt i SNOOP_MASK_SIZE)) by lia. done. Qed.

Lemma one_bit i j : 0 <= i -> Z.testbit (Z.shiftl 1 i) j = bool_decide (j = i).
Proof.
  intros Hi. destruct (Z.ltb_spec j 0); [rewrite Z.testbit_neg_r by lia; by rewrite bool_decide_eq_false_2 by lia|].
  rewrite Z.shiftl_1_l. case_bool_decide as E; [subst j; by apply Z.pow2_bits_true|by apply Z.pow2_bits_false; lia].
Qed.

Lemma mask_any_bit m i : 0 <= i -> mask_any (Z.land m (Z.shiftl 1 i)) = Z.testbit m i.
Proof.
  intros Hi. unfold mask_any. destruct (Z.testbit m i) eqn:Hb.
  - apply negb_true_iff, Z.eqb_neq. intros E. pose proof (f_equal (fun x => Z.testbit x i) E) as Ei. cbn beta in Ei.
    by rewrite Z.land_spec, Hb, one_bit, bool_decide_eq_true_2, Z.bits_0 in Ei by done.
  - apply negb_false_iff, Z.eqb_eq. apply Z.bits_inj'. intros j Hj. rewrite Z.land_spec, one_bit, Z.bits_0 by done.
    case_bool_decide; [subst j; by rewrite Hb|by rewrite andb_false_r].
Qed.

Lemma mask_without m i j : 0 <= i -> 0 <= j < SNOOP_MASK_SIZE ->
  Z.testbit (Z.land m (mask_not (Z.shiftl 1 i))) j = Z.testbit m j && negb (bool_decide (j = i)).
Proof.
  intros Hi Hj. unfold mask_not. rewrite Z.land_spec, Z.lxor_spec, one_bit, Z.ones_spec_low by (unfold SNOOP_MASK_SIZE in *; lia || done).
  by destruct (bool_decide (j = i)).
Qed.

Lemma mask_self i : 0 <= i < SNOOP_MASK_SIZE -> Z.land (Z.shiftl 1 i) (mask_not (Z.shiftl 1 i)) = 0.
Proof.
  intros Hi. apply Z.bits_inj'. intros j Hj. unfold mask_not. rewrite Z.land_spec, Z.lxor_spec, one_bit, Z.bits_0 by lia.
  case_bool_decide; [|done]. subst j. rewrite Z.ones_spec_low by (unfold SNOOP_MASK_SIZE in *; lia). done.
Qed.

Lemma shiftl_nonzero i : 0 <= i -> Z.shiftl 1 i <> 0.
Proof. intros Hi. rewrite Z.shiftl_1_l. pose proof (Z.pow_pos_nonneg 2 i). lia. Qed.

(** ** Ports *)

(** The filter knows the snooping ports [L]; [idx] is the bit of a port. *)
Record knows (L : list Port) (idx : Z -> Z) (f : SnoopFilter) : Prop := {
  kn_ports : cpuSidePorts f = L;
  kn_bit : forall p, p ∈ L -> isSnooping p = true /\ getId p <> InvalidPortID /\
    vget (localResponsePortIds f) (getId p) = Ok (idx (getId p)) /\ 0 <= idx (getId p) < SNOOP_MASK_SIZE;
  kn_apart : forall p q, p ∈ L -> q ∈ L -> idx (getId p) = idx (getId q) -> p = q;
}.

(** What an operation of the filter leaves. *)
Definition same_ports (f f' : SnoopFilter) : Prop :=
  cpuSidePorts f' = cpuSidePorts f /\ localResponsePortIds f' = localResponsePortIds f /\ linesize f' = linesize f.

Lemma same_ports_knows L idx f f' : same_ports f f' -> knows L idx f -> knows L idx f'.
Proof. intros (E1 & E2 & _) []. constructor; rewrite ?E1, ?E2; done. Qed.

Section Filter.
Context (L : list Port) (idx : Z -> Z) (sec : bool) (k : Z) (Hk : 2 <= k < 31).
#[local] Abbreviation pbit p := (Z.shiftl 1 (idx (getId p))).
#[local] Abbreviation knows := (knows L idx).

Lemma portToMask_Ok f p : knows f -> p ∈ L -> portToMask f p = Ok (pbit p).
Proof.
  intros K Hp. destruct (kn_bit _ _ _ K p Hp) as (E1 & E2 & E3 & E4). unfold portToMask. rewrite E1, E3.
  replace (getId p =? InvalidPortID) with false by lia. cbn [negb ocheck obind]. by rewrite mask_shift_small.
Qed.

Lemma select_ports_Ok f m l : knows f -> (forall p, p ∈ l -> p ∈ L) ->
  select_ports f m l = Ok (filter (fun p => Z.testbit m (idx (getId p)) = true) l).
Proof.
  intros K. induction l as [|p l IH]; intros Hl; [done|]. cbn [select_ports]. rewrite (portToMask_Ok f p K) by (apply Hl; by left). cbn [obind].
  rewrite IH by (intros q Hq; apply Hl; by right). cbn [obind]. destruct (kn_bit _ _ _ K p (Hl p ltac:(by left))) as (_ & _ & _ & Hi).
  rewrite mask_any_bit by lia. rewrite filter_cons. by destruct (Z.testbit m (idx (getId p))).
Qed.

Lemma maskToPortList_Ok f m : knows f -> maskToPortList f m = Ok (filter (fun p => Z.testbit m (idx (getId p)) = true) L).
Proof. intros K. unfold maskToPortList. rewrite (kn_ports _ _ _ K). by apply select_ports_Ok. Qed.

(** ** Lines *)
Definition line_key (a : Z) : Z := if sec then Z.lor a LineSecure else a.

Lemma aligned_even a : a mod 2 ^ k = 0 -> Z.testbit a 0 = false.
Proof.
  intros Ha. rewrite <- (Z.mod_pow2_bits_low a k 0) by lia. by rewrite Ha, Z.bits_0.
Qed.

Lemma line_key_inj a a' : a mod 2 ^ k = 0 -> a' mod 2 ^ k = 0 -> line_key a = line_key a' -> a = a'.
Proof.
  intros Ha Ha' E. unfold line_key in E. destruct sec; [|done]. apply Z.bits_inj'. intros i Hi.
  pose proof (f_equal (fun x => Z.testbit x i) E) as Ei. cbn beta in Ei. rewrite !Z.lor_spec in Ei. unfold LineSecure in Ei.
  destruct (decide (i = 0)) as [->|Hne]; [by rewrite !aligned_even|]. change 1 with (Z.shiftl 1 0) in Ei. rewrite one_bit, bool_decide_eq_false_2 in Ei by done.
  by rewrite !orb_false_r in Ei.
Qed.

Lemma mask_down a : 0 <= a < 2 ^ 64 -> a mod 2 ^ k = 0 -> Z.land a (lnot64 (u32 (2 ^ k - 1))) = a /\ Z.land a (lnot64 (u64 (2 ^ k - 1))) = a.
Proof.
  intros Ha Hm. assert (0 < 2 ^ k < 2 ^ 31) by (split; [apply Z.pow_pos_nonneg|apply Z.pow_lt_mono_r]; lia).
  pose proof (align_down k a Ha Hk) as E. unfold lnot64. rewrite (uwrap_small 32), (uwrap_small 64 (2 ^ k - 1)) by lia. rewrite E, Hm. lia.
Qed.

(** A packet for the line [a]. *)
Definition for_line (f : SnoopFilter) (a : Z) (p : Packet) : Prop :=
  linesize f = 2 ^ k /\ 0 <= a < 2 ^ 64 /\ a mod 2 ^ k = 0 /\ has_flag VALID_ADDR p = true /\ pk_addr p = a /\ pk_secure p = sec.

Lemma line_of_Ok f a p : for_line f a p -> line_of f p = Ok (line_key a).
Proof.
  intros (E1 & Ha & Hm & F & Ea & Es). unfold line_of, getBlockAddr, getAddr. rewrite F, Ea, E1. cbn [ocheck obind].
  rewrite (proj1 (mask_down a Ha Hm)), Es. done.
Qed.

Lemma for_line_same f f' a p : same_ports f f' -> for_line f a p -> for_line f' a p.
Proof. intros (_ & _ & E) (E1 & H). split; [congruence|done]. Qed.

(** ** Holders *)
Definition item f line : SnoopItem := default null_item (cachedLocations f !! line).
Definition held f line i : bool := Z.testbit (holder (item f line)) i.

(** No request is under way. *)
Definition quiet f : Prop := forall line, requested (item f line) = 0.

(** The line [a] is asked for by the port [src]. *)
Definition asked (src : Port) a f f1 : Prop :=
  same_ports f f1 /\ cachedLocations f1 = <[line_key a := mkItem (pbit src) (holder (item f (line_key a)))]> (cachedLocations f).

(** The port [src] has it; if it is shared the others are holders as before. *)
Definition given (shared : bool) (src : Port) a f f2 : Prop :=
  same_ports f f2 /\ exists h, cachedLocations f2 = <[line_key a := mkItem 0 h]> (cachedLocations f) /\ Z.testbit h (idx (getId src)) = true /\
    (shared = true -> forall i, held f (line_key a) i = true -> Z.testbit h i = true).

Lemma given_held shared src a f f2 : given shared src a f f2 -> quiet f -> quiet f2 /\ held f2 (line_key a) (idx (getId src)) = true /\
  (forall line i, line <> line_key a -> held f2 line i = held f line i) /\
  (shared = true -> forall i, held f (line_key a) i = true -> held f2 (line_key a) i = true).
Proof.
  intros (_ & h & E & Hs & Hsh) Hq. unfold quiet, held, item in *. rewrite E. split; [|split; [by rewrite lookup_insert_eq|]; split].
  - intros line. destruct (decide (line = line_key a)) as [->|]; [by rewrite lookup_insert_eq|by rewrite lookup_insert_ne].
  - intros line i Hne. by rewrite lookup_insert_ne by done.
  - intros H i Hi. rewrite lookup_insert_eq. by apply Hsh.
Qed.

(** ** Requests *)

(** A cache asks for a line: the other holders are to be snooped. *)
Lemma ask_run src a p f : knows f -> quiet f -> src ∈ L -> for_line f a p -> isUncacheable (pk_req p) = false ->
  fromCache (pk_cmd p) = true -> needsResponse (pk_cmd p) = true -> cacheResponding p = false ->
  exists dests f1, lookupRequest p src f = Ok (dests, lookupLatency f, f1) /\ asked src a f f1 /\ finishRequest false a sec f1 = Ok f1 /\
    (NoDup (getId <$> L) -> NoDup (getId <$> dests)) /\
    forall q, q ∈ dests <-> q ∈ L /\ held f (line_key a) (idx (getId q)) = true /\ q <> src.
Proof.
  intros K Hq Hs Hl Hu Hf Hn Hr. destruct (kn_bit _ _ _ K src Hs) as (E1 & _ & _ & Hi). pose proof (Hq (line_key a)) as Hq0.
  unfold lookupRequest. rewrite Hu, E1, Hf, (line_of_Ok f a p Hl), (portToMask_Ok f src K Hs). cbn [negb andb obind]. rewrite andb_false_r. cbv zeta.
  fold (item f (line_key a)). unfold request_item. rewrite Hn, Hr, Hq0, Z.land_0_l, Z.lor_0_l, Z.lor_0_r. cbn [negb]. change (mask_none 0) with true. cbn [ocheck obind].
  set (f1 := with_locations _ _). assert (same_ports f f1) as Hsp by done. pose proof (same_ports_knows _ _ _ _ Hsp K) as K1.
  rewrite (maskToPortList_Ok f1 _ K1). cbn [obind]. eexists _, f1. split; [done|].
  assert (cachedLocations f1 = <[line_key a := mkItem (pbit src) (holder (item f (line_key a)))]> (cachedLocations f)) as Ec.
  { unfold f1. cbn [cachedLocations with_locations with_sf_stats with_lookup]. by rewrite insert_insert_eq. }
  split; [done|]. split; [|split].
  - unfold finishRequest. change (reqLookup_it f1) with (Some (line_key a)). cbv iota. rewrite Ec, lookup_insert_eq. cbn [oget obind].
    destruct Hl as (El & Ha & Hm & _). change (linesize f1) with (linesize f). rewrite El, (proj2 (mask_down a Ha Hm)).
    fold (line_key a). rewrite Z.eqb_refl. cbn [ocheck obind]. unfold eraseIfNullEntry. rewrite lookup_insert_eq. cbn [oget obind requested holder].
    unfold mask_none. destruct (Z.eqb_spec (Z.lor (pbit src) (holder (item f (line_key a)))) 0) as [E|_].
    { apply Z.lor_eq_0_iff in E as [E _]. by apply shiftl_nonzero in E; [|lia]. }
    cbn [obind]. by rewrite <- Ec.
  - intros Hnd. eapply sublist_NoDup; [exact Hnd|]. apply fmap_sublist, sublist_filter.
  - intros q. rewrite list_elem_of_filter. split.
    + intros [Ht HqL]. destruct (kn_bit _ _ _ K q HqL) as (_ & _ & _ & Hiq). rewrite mask_without in Ht by lia. apply andb_true_iff in Ht as [Ht Hne].
      split; [done|]. split; [done|]. intros ->. by rewrite bool_decide_eq_true_2 in Hne.
    + intros (HqL & Ht & Hne). destruct (kn_bit _ _ _ K q HqL) as (_ & _ & _ & Hiq). split; [|done]. rewrite mask_without by lia. unfold held in Ht. rewrite Ht.
      rewrite bool_decide_eq_false_2; [done|]. intros E. by apply Hne, (kn_apart _ _ _ K).
Qed.

(** The holder [rsp] responds to the snoop. *)
Lemma snoop_response_run src rsp a p f f1 : knows f -> asked src a f f1 -> src ∈ L -> rsp ∈ L -> for_line f a p -> isUncacheable (pk_req p) = false ->
  isResponse (pk_cmd p) = true -> isWriteback (pk_cmd p) = false -> cacheResponding p = true -> held f (line_key a) (idx (getId rsp)) = true ->
  exists f2, updateSnoopResponse p rsp src f1 = Ok f2 /\ given (hasSharers p) src a f f2.
Proof.
  intros K (Hsp & Ec) Hs Hr Hl Hu Hrs Hwb Hcr Hh. pose proof (same_ports_knows _ _ _ _ Hsp K) as K1. destruct (kn_bit _ _ _ K src Hs) as (E1 & _ & _ & Hi).
  destruct (kn_bit _ _ _ K rsp Hr) as (_ & _ & _ & Hir).
  unfold updateSnoopResponse. rewrite Hrs, Hcr, Hu, E1, (line_of_Ok f1 a p (for_line_same _ _ _ _ Hsp Hl)), !(portToMask_Ok f1) by done. cbn [ocheck obind negb orb].
  rewrite Ec, lookup_insert_eq. cbn [default from_option id requested holder]. rewrite !mask_any_bit by lia. unfold held in Hh. rewrite Hh, one_bit, bool_decide_eq_true_2, Hwb by (done || lia).
  cbn [ocheck obind negb]. rewrite mask_self, Z.lor_0_l by done. cbn [requested holder].
  set (h := Z.lor (if negb (hasSharers p) then 0 else holder (item f (line_key a))) (pbit src)).
  assert (Z.testbit h (idx (getId src)) = true) as Hb by (unfold h; by rewrite Z.lor_spec, one_bit, bool_decide_eq_true_2, orb_true_r by (done || lia)).
  assert (mask_any h = true) as ->.
  { unfold mask_any. apply negb_true_iff, Z.eqb_neq. intros E. by rewrite E, Z.bits_0 in Hb. }
  cbn [ocheck obind]. eexists. split; [done|]. split; [exact Hsp|]. exists h. split; [cbn; by rewrite insert_insert_eq|]. split; [done|].
  intros Hsh i Hi'. unfold h. rewrite Hsh, Z.lor_spec. unfold held in Hi'. cbn [negb]. by rewrite Hi'.
Qed.

(** What is below responds. *)
Lemma response_run src a p f f1 : knows f -> asked src a f f1 -> src ∈ L -> for_line f a p -> isUncacheable (pk_req p) = false ->
  isCacheMaintenance (pk_req p) = false -> isResponse (pk_cmd p) = true ->
  exists f2, updateResponse p src f1 = Ok f2 /\ given true src a f f2.
Proof.
  intros K (Hsp & Ec) Hs Hl Hu Hcm Hrs. pose proof (same_ports_knows _ _ _ _ Hsp K) as K1. destruct (kn_bit _ _ _ K src Hs) as (E1 & _ & _ & Hi).
  unfold updateResponse. rewrite Hrs, Hu, E1, (line_of_Ok f1 a p (for_line_same _ _ _ _ Hsp Hl)), (portToMask_Ok f1) by done. cbn [ocheck obind negb orb].
  rewrite Ec, lookup_insert_eq. cbn [requested holder]. rewrite mask_any_bit, one_bit, bool_decide_eq_true_2, Hcm by (done || lia). cbn [ocheck obind].
  rewrite mask_self by done. set (h := Z.lor (holder (item f (line_key a))) (pbit src)).
  assert (Z.testbit h (idx (getId src)) = true) as Hb by (unfold h; by rewrite Z.lor_spec, one_bit, bool_decide_eq_true_2, orb_true_r by (done || lia)).
  assert (mask_any (Z.lor h 0) = true) as ->.
  { rewrite Z.lor_0_r. unfold mask_any. apply negb_true_iff, Z.eqb_neq. intros E. by rewrite E, Z.bits_0 in Hb. }
  cbn [ocheck obind]. eexists. split; [done|]. split; [exact Hsp|]. exists h. split; [cbn; by rewrite insert_insert_eq|]. split; [done|].
  intros _ i Hi'. unfold h. rewrite Z.lor_spec. unfold held in Hi'. by rewrite Hi'.
Qed.

(** A holder evicts the line. *)
Lemma evict_run src a p f : knows f -> quiet f -> src ∈ L -> for_line f a p -> isUncacheable (pk_req p) = false ->
  fromCache (pk_cmd p) = true -> needsResponse (pk_cmd p) = false -> isEviction (pk_cmd p) = true -> isBlockCached p = false ->
  held f (line_key a) (idx (getId src)) = true ->
  exists dests f1 f2, lookupRequest p src f = Ok (dests, lookupLatency f, f1) /\ finishRequest false a sec f1 = Ok f2 /\ same_ports f f2 /\ quiet f2 /\
    forall line i, 0 <= i < SNOOP_MASK_SIZE -> held f2 line i = held f line i && negb (bool_decide (line = line_key a) && bool_decide (i = idx (getId src))).
Proof.
  intros K Hq Hs Hl Hu Hf Hn Hev Hbc Hh. destruct (kn_bit _ _ _ K src Hs) as (E1 & _ & _ & Hi). pose proof (Hq (line_key a)) as Hq0.
  unfold lookupRequest. rewrite Hu, E1, Hf, (line_of_Ok f a p Hl), (portToMask_Ok f src K Hs). cbn [negb andb obind]. rewrite andb_false_r. cbv zeta.
  fold (item f (line_key a)). unfold request_item. rewrite Hn, Hev, Hbc, Hq0, mask_any_bit by lia. unfold held in Hh. rewrite Hh. cbn [negb ocheck obind].
  set (h := Z.land (holder (item f (line_key a))) (mask_not (pbit src))).
  set (f1 := with_locations _ _). assert (same_ports f f1) as Hsp by done. pose proof (same_ports_knows _ _ _ _ Hsp K) as K1.
  rewrite (maskToPortList_Ok f1 _ K1). cbn [obind]. eexists _, f1.
  assert (cachedLocations f1 = <[line_key a := mkItem 0 h]> (cachedLocations f)) as Ec.
  { unfold f1. cbn [cachedLocations with_locations with_sf_stats with_lookup]. by rewrite insert_insert_eq. }
  set (c2 := if mask_none h then delete (line_key a) (cachedLocations f1) else cachedLocations f1).
  exists (with_locations c2 f1). split; [done|]. split.
  { unfold finishRequest. change (reqLookup_it f1) with (Some (line_key a)). cbv iota. rewrite Ec, lookup_insert_eq. cbn [oget obind].
    destruct Hl as (El & Ha & Hm & _). change (linesize f1) with (linesize f). rewrite El, (proj2 (mask_down a Ha Hm)).
    fold (line_key a). rewrite Z.eqb_refl. cbn [ocheck obind]. unfold eraseIfNullEntry. rewrite lookup_insert_eq. cbn [oget obind requested holder].
    rewrite Z.lor_0_l. unfold c2. by rewrite Ec. }
  assert (forall line, item (with_locations c2 f1) line = if decide (line = line_key a) then mkItem 0 h else item f line) as Hit.
  { intros line. unfold item. cbn [cachedLocations with_locations]. unfold c2. rewrite Ec. case_decide as Hd.
    - subst line. destruct (mask_none h) eqn:Hm; [|by rewrite lookup_insert_eq]. rewrite lookup_delete_eq. unfold mask_none in Hm.
      apply Z.eqb_eq in Hm. by rewrite Hm.
    - destruct (mask_none h); rewrite ?lookup_delete_ne, lookup_insert_ne by done; done. }
  split; [done|]. split; [intros line; rewrite Hit; by case_decide|]. intros line i Hi'. unfold held. rewrite Hit. case_decide as Hd.
  - subst line. rewrite bool_decide_eq_true_2 by done. cbn [holder andb]. unfold h. by rewrite mask_without by lia.
  - rewrite bool_decide_eq_false_2 by done. by rewrite andb_true_r.
Qed.
End Filter.
