(* ===== verification/Transparent.v ===== *)
(** A classic cache over a memory is that memory: in atomic mode, every plain
    request gets the response the memory alone would give, whatever the cache
    holds, evicts and fills. *)
From Stdlib Require Import ZArith Lia Bool.
From stdpp Require Import base numbers gmap list.
From S2P Require Import Prelude ReplBase Bitfield AddrRange Indexing CacheBlk Partition Tags TagsInv TagsOps.
From S2P Require Import Bytes MemRequest MemPacket Clocked AbstractMem Serve ClassicCache ClassicOps.
From S2P Require Import ClassicTotal ClassicAccess ClassicServe Coupled AtomicRuns AtomicSends.
Local Open Scope Z_scope.

(** [SimpleMemory] behind the port: its latency is its own. *)
Definition mem_send (gnu : bool) (getLatency : AbstractMemory -> Z) (p : Packet) (m : AbstractMemory) :
    outcome (Packet * Z * AbstractMemory) :=
  let? r := mem_recvAtomic gnu p m in Ok (r.1, getLatency m, r.2).

Section Transparent.
Context {P D I : Type} {RP : ReplacementPolicy P D} {RPL : ReplacementPolicyLaws P D}
  {IP : IndexingPolicy I} {IPL : IndexingLaws I} {SP : ServingPolicy P D}.
Implicit Types s : cc_sys P D I.
Context (junk : Z) (pid_of : Packet -> Z) (gnu : bool) (getLatency : AbstractMemory -> Z).
Context (n lo : Z) (sec : bool).
#[local] Abbreviation no_mshr := (fun (_ : Z) (_ : bool) => @None MSHRView).
#[local] Abbreviation entry s e := (entries (wld (tsys s)) !! e).
#[local] Abbreviation key s o := (key_of (indexingPolicy (tags (tsys s))) o).
#[local] Abbreviation coupled := (coupled lo sec).
#[local] Abbreviation request_for := (request_for lo sec).
#[local] Abbreviation holds := (mem_holds n lo).
#[local] Abbreviation send := (mem_send gnu getLatency).
#[local] Abbreviation result p df := (serve p (window df (pk_addr p - lo) (pk_size p))).
#[local] Abbreviation after p df := (splice df (Z.to_nat (pk_addr p - lo)) (result p df).2).

(** ** What is sent to the memory *)
Lemma send_serves dm m p : holds dm m -> plain_packet p -> 0 <= rq_requestorId (pk_req p) < n ->
  lo <= pk_addr p -> pk_addr p + pk_size p <= lo + vsize dm ->
  let r := serve p (window dm (pk_addr p - lo) (pk_size p)) in
  exists m', send p m = Ok (respond r.1, getLatency m, m') /\ holds (splice dm (Z.to_nat (pk_addr p - lo)) r.2) m'.
Proof.
  intros Hm Hp Hid H1 H2 r. destruct (access_serves gnu n lo dm m p Hm Hp Hid H1 H2) as (m' & E & Hm'). exists m'. split; [|done].
  unfold mem_send, mem_recvAtomic. destruct (pp_flags _ Hp) as (_ & _ & _ & ->). cbn [negb ocheck obind]. by rewrite E.
Qed.

(** A writeback of the bytes [d] at [a]. *)
Lemma send_writeback dm m k a d : holds dm m -> down_packet k WritebackDirty a sec d -> 0 < n -> 0 < vsize d ->
  lo <= a -> a + vsize d <= lo + vsize dm ->
  exists m', send k m = Ok (k, getLatency m, m') /\ holds (splice dm (Z.to_nat (a - lo)) d) m'.
Proof.
  intros Hm [[K1 K2 K3 K4 (F1 & F2 & F4) _] K5 F3 (Q1 & Q2 & Q3 & Q4)] Hn Hd H1 H2. destruct (mh_bounds _ _ _ _ Hm) as (B1 & B2 & B3).
  assert (writeData dm (a - lo) k = Ok (splice dm (Z.to_nat (a - lo)) d)) as Ew.
  { unfold writeData, getConstPtr, pk_getSize, isMaskedWrite. rewrite F2, F3, K4, K5, K1. cbn [ocheck obind].
    rewrite read_bytes_all. cbn [obind negb]. rewrite bool_decide_eq_false_2 by done. cbn [andb negb]. by rewrite write_bytes_Ok by lia. }
  destruct (access_write_Ok n lo dm m k (a - lo) (splice dm (Z.to_nat (a - lo)) d) Hm) as (m' & E & Hm'); try done.
  { by rewrite K1. }
  { rewrite Q1. unfold wbRequestorId. lia. }
  { unfold vsize in *. rewrite splice_length; lia. }
  exists m'. split; [|done]. unfold mem_send, mem_recvAtomic, AbstractMem.access. rewrite F4. cbn [negb ocheck obind]. rewrite K1.
  rewrite !bool_decide_eq_false_2 by done. cbn [orb]. unfold getAddrRange, getAddr, pk_getSize. rewrite F1, F2, K2, K4. cbn [ocheck obind].
  rewrite (subset_Ok gnu n lo dm m) by (done || lia). cbn [ocheck obind]. unfold toHostAddr. rewrite (mh_range _ _ _ _ Hm). cbn [_start plain_range].
  rewrite uwrap_small by lia. cbn [isRead isInvalidate isClean isWrite]. change (isRead WritebackDirty) with false.
  change (isInvalidate WritebackDirty || isClean WritebackDirty) with false. change (isWrite WritebackDirty) with true. cbv iota.
  rewrite E. cbn [obind fst snd]. by rewrite K1.
Qed.

(** An eviction without data ends here. *)
Lemma send_clean m k : pk_cmd k = WritebackClean \/ pk_cmd k = CleanEvict -> cacheResponding k = false ->
  send k m = Ok (k, getLatency m, m).
Proof.
  intros Hc F. unfold mem_send, mem_recvAtomic, AbstractMem.access. rewrite F. cbn [negb ocheck obind]. by destruct Hc as [-> | ->].
Qed.

(** ** Writebacks *)
Context (above : Packet -> Packet) (writeAllocator : option bool).
#[local] Abbreviation T := (cc_sys P D I * AbstractMemory)%type.
#[local] Abbreviation doWritebacks := (@doWritebacksAtomic P D I AbstractMemory send above false).
#[local] Abbreviation sends := (sends send).

Lemma sends_clean l m : Forall (fun k => (pk_cmd k = WritebackClean \/ pk_cmd k = CleanEvict) /\ cacheResponding k = false) l -> sends l m m.
Proof. induction 1 as [|k l [Hc Hr] HF IH]; [done|]. exists k, (getLatency m), m. split; [by apply send_clean|done]. Qed.

(** What a vacated block sent reaches the memory. *)
Lemma sends_landed s dm df e o b l m : coupled None s dm df -> entry s e = Some o -> vacated s o b l -> holds dm m -> 0 < n ->
  exists m', sends l m m' /\ holds (landed lo s o dm) m'.
Proof.
  intros H He Hv Hm Hn. unfold vacated in Hv. unfold landed. destruct (key s o) as [[a sec']|] eqn:Hk.
  - destruct (cp_block _ _ _ _ _ _ H e o a sec' He Hk) as (-> & B1 & B2 & _).
    destruct (key_block _ _ _ _ _ (cp_sound _ _ _ _ _ _ H) He Hk) as (_ & Kp & _ & _ & Kv).
    assert (_secure (ext o) = sec) as Es.
    { destruct (cp_sound _ _ _ _ _ _ H) as [Hi Hac]. by destruct (key_aligned _ _ e o a sec Hi Hac He Hk) as (_ & _ & _ & _ & _ & -> & _). }
    destruct Hv as [_ [_ Hs]]. destruct (isSet DirtyBit (ext o)).
    + destruct Hs as (k & -> & Hd). rewrite Es in Hd. rewrite <- Kv in B2, Kp.
      destruct (send_writeback dm m k a _ Hm Hd Hn Kp B1 B2) as (m' & E & Hm'). exists m'. split; [|done]. by exists k, (getLatency m), m'.
    + exists m. split; [|done]. apply sends_clean. destruct Hs as [_ Hs]. eapply Forall_impl; [exact Hs|].
      intros k (c & Hc & [K1 _ _ _ (_ & _ & F) _]). rewrite K1. by destruct Hc as [-> | ->]; auto.
  - destruct Hv as [_ ->]. by exists m.
Qed.

Lemma sends_room s dm df l v dm' m : coupled None s dm df -> made_room lo s dm l v dm' -> holds dm m -> 0 < n ->
  exists m', sends l m m' /\ holds dm' m'.
Proof.
  intros H [(-> & _ & ->)|(e & o & b & He & Hv & _ & ->)] Hm Hn; [by exists m|]. by eapply sends_landed.
Qed.

(** ** Misses *)

(** The memory answers a miss packet, and is as before. *)
Lemma miss_answered s dm df p c m : let a := blk_addr s (pk_addr p) in
  coupled None s dm df -> request_for s (vsize dm) p -> miss_cmd c -> c <> UpgradeReq -> holds dm m -> maxRequestors (tags (tsys s)) <= n ->
  exists k q m', MemPacket.allocate junk (new_Packet_blk (pk_req p) c (blk_size s)) = Ok k /\ send k m = Ok (q, getLatency m, m') /\ holds dm m' /\
    fill_packet (alone := true) sec s a q /\ pk_req q = pk_req p /\ pk_cmd q = responseCommand c /\ hasSharers q = false /\
    (isRead (pk_cmd q) = true -> pk_data q = window dm (a - lo) (blk_size s)).
Proof.
  intros a H R Hc Hup Hm Hn. destruct (miss_addr lo sec None s dm df p H R c) as (E1 & E2 & E3 & E4 & E5 & E6).
  destruct (coupled_line _ _ _ _ _ _ H) as (j & K1 & K2 & K3 & _). fold a in E1, E5, E6. set (k0 := new_Packet_blk _ _ _) in *.
  destruct (request_block _ _ _ _ _ _ _ H R) as (Ha & A1 & A2 & Hb & _). fold a in Ha, A1, A2, Hb. pose proof (rf_id _ _ _ _ _ R) as Hid.
  destruct (isRead c) eqn:Hrd.
  - destruct (miss_read junk lo sec None s dm df p H R c Hc Hrd) as [Eal Hp]. fold k0 in Eal, Hp. set (k := set_flag _ _) in *.
    destruct (send_serves dm m k Hm Hp) as (m' & Es & Hm').
    { change (pk_req k) with (pk_req p). lia. }
    { change (pk_addr k) with (pk_addr k0). lia. }
    { change (pk_addr k) with (pk_addr k0). change (pk_size k) with (pk_size k0). lia. }
    change (pk_addr k) with (pk_addr k0) in Es, Hm'. change (pk_size k) with (pk_size k0) in Es, Hm'. rewrite E1, E3 in Es, Hm'.
    assert (forall w, serve k w = (with_payload w k, w)) as Esv.
    { intros w. unfold serve. change (pk_cmd k) with c. destruct Hc as [-> | [-> | [-> | [-> | ->]]]]; done. }
    rewrite Esv in Es, Hm'. cbn [fst snd] in *. rewrite splice_window in Hm' by lia.
    exists k. eexists _, m'. split; [done|]. split; [exact Es|]. split; [done|].
    set (w := window dm (a - lo) (blk_size s)) in *. set (q := respond (with_payload w k)).
    assert (pk_cmd q = responseCommand c) as Eq by done.
    assert (pk_flags q = 0x2300) as Ef by (unfold q, respond, clear_flag, k, set_flag; cbn [pk_flags with_flags with_cmd with_payload with_bytes]; by rewrite E4).
    assert (vsize w = blk_size s) as Lw by (apply window_length; lia).
    assert (hasSharers q = false) as Hsh by (unfold hasSharers, has_flag; by rewrite Ef).
    split; [|by split_and!].
    constructor; unfold has_flag; rewrite ?Eq, ?Ef, ?Hsh; try done; [by destruct Hc as [-> | [-> | [-> | [-> | ->]]]]|].
    left. unfold isMaskedWrite. rewrite Eq. destruct Hc as [-> | [-> | [-> | [-> | ->]]]]; try done; by split_and!.
  - assert (c = InvalidateReq) as -> by (destruct Hc as [-> | [-> | [-> | [-> | ->]]]]; done).
    exists k0, (respond k0), m. assert (pk_cmd k0 = InvalidateReq) as Ek by done.
    split; [by apply (miss_bare junk s p InvalidateReq)|]. split.
    + unfold mem_send, mem_recvAtomic, AbstractMem.access, cacheResponding, has_flag. rewrite E4. cbn [negb ocheck obind]. rewrite Ek.
      rewrite !bool_decide_eq_false_2 by done. cbn [orb]. unfold getAddrRange. rewrite E5. unfold pk_getSize, has_flag. rewrite E4, E3.
      change (fl_isSet 768 CACHE_RESPONDING) with false. change (fl_isSet 768 VALID_SIZE) with true. cbn [negb ocheck obind].
      rewrite (subset_Ok gnu n lo dm m) by (done || lia). cbn [ocheck obind].
      change (isRead InvalidateReq) with false. change (isInvalidate InvalidateReq || isClean InvalidateReq) with true.
      change (isWrite InvalidateReq) with false. cbn [negb ocheck obind fst snd]. rewrite Ek. unfold makeResponse. rewrite Ek. cbn [ocheck obind].
      unfold respond. by rewrite Ek.
    + split; [done|]. assert (pk_cmd (respond k0) = InvalidateResp) as Er by (unfold respond; by rewrite Ek).
      assert (pk_flags (respond k0) = 0x300) as Ef by (unfold respond, clear_flag; cbn [pk_flags with_flags with_cmd]; by rewrite E4).
      assert (hasSharers (respond k0) = false) as Hsh by (unfold hasSharers, has_flag; by rewrite Ef).
      split; [|rewrite Er; by split_and!]. constructor; unfold has_flag; rewrite ?Er, ?Ef, ?Hsh; try done. right. by auto.
Qed.

(** The miss of a noncoherent cache. *)
Lemma nc_miss s dm df p m : coupled None s dm df -> request_for s (vsize dm) p -> holds dm m -> maxRequestors (tags (tsys s)) <= n ->
  coherent (cfg s) = false -> contents (tsys s) !! (blk_addr s (pk_addr p), sec) = None ->
  exists lat e l v dm' s' m', nc_handleAtomicReqMiss junk no_mshr pid_of send p None (s, m) =
      Ok ((lat, Some (TagBlk e), respond (result p df).1), (s', m')) /\ holds dm m' /\ coupled None s' dm' (after p df) /\
    made_room lo s dm l v dm' /\ filled s s' l.
Proof.
  intros H R Hm Hn Hco Hnone. pose proof (rf_plain _ _ _ _ _ R) as Hp. destruct (plain_responds _ (pp_cmd _ Hp)) as [Hnr _].
  destruct (plain_kinds _ (pp_cmd _ Hp)) as (_ & K2 & _ & K4 & _ & K6 & _).
  destruct (miss_addr lo sec None s dm df p H R ReadReq) as (_ & _ & _ & _ & E5 & E6).
  destruct (miss_answered s dm df p ReadReq m H R) as (k & q & m' & Eal & Es & Hm' & Q & Eq & Ec & Hsh & Hdata); try done; [by left|].
  destruct (fill_serve junk pid_of lo sec s dm df p q H R Hnone Q) as (e & l & v & dm' & w & s1 & s2 & Ef & Esat & Hmd & Hcl & _); try done;
    [by rewrite Ec|left; by rewrite Ec|].
  destruct (isWholeLineWrite_Ok s p Hp) as (wl & Ewl & _). destruct (c_ticks_Ok (getLatency m) s m' (cp_clock _ _ _ _ _ _ H)) as (lat & El).
  exists lat, e, l, v, dm', s2, m'. split; [|destruct Hmd; by split_and!].
  unfold nc_handleAtomicReqMiss. rewrite (bind_Ok _ _ _ _ _ (onC_get s m)). rewrite (bind_Ok _ _ (s, m) wl (s, m)) by (by rewrite Ewl).
  rewrite (bind_Ok _ _ (s, m) (Some k) (s, m)).
  2:{ apply onC_Ok. unfold createMissPacket. rewrite (bind_Ok getS _ s s s eq_refl), (bind_Ok _ _ s None s eq_refl), Hco.
      rewrite (bind_Ok _ _ s (Some ReadReq) s) by (by rewrite Hnr). cbn [andb].
      rewrite (bind_Ok _ _ s _ s) by (by rewrite E5). rewrite (bind_Ok _ _ s _ s) by (by rewrite E6). rewrite Z.eqb_refl.
      rewrite (bind_Ok _ _ s tt s eq_refl). by rewrite (bind_Ok _ _ s k s) by (by rewrite Eal). }
  rewrite (bind_Ok _ _ (s, m) k (s, m) eq_refl). rewrite (bind_Ok _ _ _ (q, getLatency m) (s, m')) by (unfold sendAtomic; cbn; by rewrite Es).
  cbn [fst snd]. rewrite Eq, with_req_same, (bind_Ok _ _ _ _ _ El), Ec. change (responseCommand ReadReq) with ReadResp.
  do 2 rewrite (bind_Ok _ _ (s, m') tt (s, m') eq_refl). rewrite bool_decide_eq_false_2 by done. rewrite (bind_Ok _ _ (s, m') tt (s, m') eq_refl).
  rewrite (bind_Ok _ _ (s, m') tt (s, m') eq_refl). rewrite Hsh. rewrite (bind_Ok _ _ (s, m') tt (s, m') eq_refl).
  rewrite (bind_Ok _ _ (s, m') (Some (TagBlk e)) (s1, m')).
  2:{ change (isError ReadResp) with false. cbn [negb].
      rewrite (bind_Ok _ _ _ _ _ (onC_Ok _ _ _ _ m' (allocOnFill_Ok s ReadResp (proj2 (cp_cfg _ _ _ _ _ _ H))))).
      by rewrite (bind_Ok _ _ _ _ _ (onC_Ok _ _ _ _ m' Ef)). }
  rewrite (bind_Ok _ _ _ _ _ (onC_Ok _ _ _ _ m' Esat)), (bind_Ok _ _ _ _ _ (onC_Ok _ _ _ _ m' (Hcl true))).
  rewrite serve_cmd, K2, bool_decide_eq_false_2 by done. cbn [andb negb]. rewrite Hnr.
  rewrite (bind_Ok _ _ (s2, m') (respond (result p df).1) (s2, m')); [done|]. rewrite (bind_Ok _ _ (s2, m') tt (s2, m') eq_refl).
  rewrite (bind_Ok _ _ (s2, m') (respond (result p df).1) (s2, m')); [done|]. by rewrite makeResponse_Ok by (rewrite serve_cmd; apply Hp).
Qed.

(** ** Uncacheable requests *)

(** A request that bypasses the cache, on a block that is not there. *)
Lemma coupled_bypass s dm df p : coupled None s dm df -> request_for s (vsize dm) p ->
  contents (tsys s) !! (blk_addr s (pk_addr p), sec) = None ->
  result p dm = result p df /\ coupled None s (after p dm) (after p df).
Proof.
  intros H R Hn. destruct (request_block _ _ _ _ _ _ _ H R) as (Ha & A1 & A2 & A3 & A4 & A5 & A6). set (a := blk_addr s (pk_addr p)) in *.
  destruct (cp_bounds _ _ _ _ _ _ H) as (B1 & B2 & B3 & B4 & B5). pose proof (rf_plain _ _ _ _ _ R) as Hp. pose proof (pp_size _ Hp) as Hz.
  destruct (coupled_line _ _ _ _ _ _ H) as (k & K1 & K2 & K3 & _).
  pose proof (cp_rest _ _ _ _ _ _ H a A1 A2 Ha Hn) as Hrest.
  assert (window dm (pk_addr p - lo) (pk_size p) = window df (pk_addr p - lo) (pk_size p)) as Ew.
  { replace (pk_addr p - lo) with ((a - lo) + (pk_addr p - a)) by lia. rewrite <- !(window_window _ (a - lo) (blk_size s)) by lia. by rewrite Hrest. }
  rewrite Ew. split; [done|]. set (v := (result p df).2).
  assert (vsize v = pk_size p) as Lv by (apply serve_length; [done|apply window_length; lia]).
  assert (forall d, vsize d = vsize dm -> vsize (splice d (Z.to_nat (pk_addr p - lo)) v) = vsize d /\
    window (splice d (Z.to_nat (pk_addr p - lo)) v) (a - lo) (blk_size s) = splice (window d (a - lo) (blk_size s)) (Z.to_nat (pk_addr p - a)) v /\
    forall a', lo <= a' -> a' + blk_size s <= lo + vsize dm -> a' mod blk_size s = 0 -> a' <> a ->
      window (splice d (Z.to_nat (pk_addr p - lo)) v) (a' - lo) (blk_size s) = window d (a' - lo) (blk_size s)) as Hw.
  { intros d Hd. split; [unfold vsize in *; rewrite splice_length; lia|]. split.
    - replace (pk_addr p - lo) with ((a - lo) + (pk_addr p - a)) by lia. apply window_splice_in; lia.
    - intros a' C1 C2 C3 C4. apply window_splice_out; [lia|lia|lia|]. destruct (aligned_apart (blk_size s) a' a ltac:(lia) C3 Ha C4); lia. }
  destruct (Hw dm eq_refl) as (Wm1 & Wm2 & Wm3). destruct (Hw df B5) as (Wf1 & Wf2 & Wf3). destruct H as [S1 S2 S3 S4 S5 S6 S7 S8 S9].
  constructor; rewrite ?Wm1, ?Wf1; try done.
  - intros e o a' sec' He Hk. destruct (S6 e o a' sec' He Hk) as (-> & C1 & C2 & C3 & C4).
    destruct (key_block _ _ _ _ _ S1 He Hk) as (Ka & _ & _ & Kc & _). assert (a' <> a) as Hne by congruence.
    split_and!; try done. rewrite Wm3, Wf3 by done. done.
  - intros a' C1 C2 C3 C4. destruct (decide (a' = a)) as [->|Hne]; [by rewrite Wm2, Wf2, Hrest|]. rewrite Wm3, Wf3 by done. by apply S9.
Qed.

(** The block of an uncacheable request is evicted. *)
Lemma uncacheable_run s dm df p m : coupled None s dm df -> request_for s (vsize dm) p -> holds dm m -> 0 < n ->
  writebacks s = [] ->
  exists s1 dm1 m1, access_uncacheable junk p s = Ok (mkAccess false None (c_lookupLatency (cfg s)) p, s1) /\
    coupled None s1 dm1 df /\ vsize dm1 = vsize dm /\ sends (writebacks s1) m m1 /\ holds dm1 m1 /\
    contents (tsys s1) !! (blk_addr s (pk_addr p), sec) = None /\ cfg s1 = cfg s /\ clk s1 = clk s /\
    params_same (tags (tsys s)) (tags (tsys s1)).
Proof.
  intros H R Hm Hn Hw. destruct (request_block _ _ _ _ _ _ _ H R) as (_ & _ & _ & _ & A4 & _). pose proof (rf_plain _ _ _ _ _ R) as Hp.
  destruct (plain_responds _ (pp_cmd _ Hp)) as [_ Hq]. destruct (pp_flags _ Hp) as (F1 & _). destruct (coupled_line _ _ _ _ _ _ H) as (k & _ & _ & _ & Eb).
  set (a := blk_addr s (pk_addr p)).
  assert (onT (findBlock (mkKey (pk_addr p) sec)) s = Ok (contents (tsys s) !! (a, sec), s)) as Ef.
  { unfold onT. rewrite (findBlock_Ok _ _ _ (proj1 (cp_sound _ _ _ _ _ _ H)) A4), Eb. by destruct s. }
  assert (forall x s1, match contents (tsys s) !! (a, sec) with
      | Some e => let* b := get_blk (TagBlk e) in if isValid b then evictBlock junk (TagBlk e) else ret tt
      | None => ret tt
      end s = Ok (x, s1) -> access_uncacheable junk p s = Ok (mkAccess false None (c_lookupLatency (cfg s)) p, s1)) as Hrun.
  { intros x s1 E. unfold access_uncacheable. rewrite Hq, (bind_Ok _ _ s tt s eq_refl), (bind_Ok getS _ s s s eq_refl).
    rewrite (proj1 (cp_cfg _ _ _ _ _ _ H)), (bind_Ok _ _ s tt s eq_refl). rewrite (bind_Ok _ _ s (pk_addr p) s) by (unfold getAddr; by rewrite F1).
    rewrite (bind_Ok _ _ s sec s) by (unfold isSecure; by rewrite F1, (rf_secure _ _ _ _ _ R)). by rewrite (bind_Ok _ _ _ _ _ Ef), (bind_Ok _ _ _ _ _ E). }
  destruct (contents (tsys s) !! (a, sec)) as [e|] eqn:Hc.
  - pose proof Hc as (o & He & Hk)%contents_entry; [|apply H].
    destruct (key_block _ _ _ _ _ (cp_sound _ _ _ _ _ _ H) He Hk) as (_ & _ & V & _).
    destruct (evictBlock_vacates junk e s o a sec (cp_sound _ _ _ _ _ _ H) (proj1 (cp_cfg _ _ _ _ _ _ H)) He Hk) as (s1 & b & l & Ee & Hv).
    pose proof (va_sent _ _ _ _ _ _ Hv) as Hl. rewrite Hw in Hl.
    destruct (sends_landed s dm df e o b l m H He (va_blk _ _ _ _ _ _ Hv) Hm Hn) as (m1 & Em & Hm1). cbn in Hl. rewrite <- Hl in Em.
    exists s1, (landed lo s o dm), m1. split; [eapply (Hrun tt); by rewrite (bind_Ok _ _ _ _ _ (get_blk_Ok e s o He)), V|].
    destruct (landed_facts lo sec s e o dm df H He) as (L1 & _). split; [by eapply coupled_vacate|]. split; [done|]. split; [done|]. split; [done|].
    split; [rewrite (va_contents _ _ _ _ _ _ Hv), Hk; apply lookup_delete_eq|]. destruct (va_touched _ _ _ _ _ _ Hv) as [T (E & _ & _ & _ & E5 & _)]. split; [done|]. split; [done|apply T].
  - exists s, dm, m. split; [by apply (Hrun tt)|]. split_and!; try done. by rewrite Hw.
Qed.

(** It is forwarded to the memory. *)
Lemma c_forward s dm df p m : coupled None s dm df -> request_for s (vsize dm) p -> holds dm m -> maxRequestors (tags (tsys s)) <= n ->
  coherent (cfg s) = true -> isUncacheable (pk_req p) = true ->
  contents (tsys s) !! (blk_addr s (pk_addr p), sec) = None ->
  exists lat m', c_handleAtomicReqMiss junk no_mshr pid_of send writeAllocator p None (s, m) =
      Ok ((lat, None, respond (result p df).1), (s, m')) /\ coupled None s (after p dm) (after p df) /\ holds (after p dm) m'.
Proof.
  intros H R Hm Hn Hco Hu Hnone. pose proof (rf_plain _ _ _ _ _ R) as Hp. destruct (plain_responds _ (pp_cmd _ Hp)) as [Hnr Hrq].
  destruct (plain_kinds _ (pp_cmd _ Hp)) as (K1 & _ & _ & K4 & _). destruct (whole_line _ _ None s dm df p H R) as (wl & Ewl & _).
  destruct (coupled_bypass s dm df p H R Hnone) as [Er H']. destruct (rf_range _ _ _ _ _ R) as [R1 R2]. pose proof (rf_id _ _ _ _ _ R) as Hid.
  destruct (send_serves dm m p Hm Hp ltac:(lia) R1 R2) as (m' & Es & Hm'). rewrite Er in Es.
  destruct (c_ticks_Ok (getLatency m) s m' (cp_clock _ _ _ _ _ _ H)) as (lat & El). exists lat, m'. split; [|done].
  assert (sendAtomic send p (s, m) = Ok ((respond (result p df).1, getLatency m), (s, m'))) as Esn by (unfold sendAtomic; cbn; by rewrite Es).
  assert (pk_cmd (respond (result p df).1) = responseCommand (pk_cmd p)) as Ecm by (unfold respond; cbn [pk_cmd clear_flag with_flags with_cmd]; by rewrite serve_cmd).
  unfold c_handleAtomicReqMiss. rewrite (bind_Ok _ _ _ _ _ (onC_get s m)), K1, (bool_decide_eq_false_2 _ K4), Hu. cbn [orb andb].
  destruct (isWrite (pk_cmd p)) eqn:Ew.
  - rewrite (bind_Ok _ _ _ _ _ Esn). cbn [fst snd]. rewrite (bind_Ok _ _ _ _ _ El), Ecm.
    rewrite (bind_Ok _ _ (s, m') tt (s, m')); [done|]. assert (isResponse (responseCommand (pk_cmd p)) = true) as -> by (pose proof (pp_cmd _ Hp); by destruct (pk_cmd p)).
    by rewrite orb_true_r.
  - rewrite (bind_Ok _ _ (s, m) (needsWritable (pk_cmd p)) (s, m)) by (unfold pk_needsWritable; by rewrite Hrq).
    rewrite (bind_Ok _ _ (s, m) wl (s, m)) by (by rewrite Ewl).
    rewrite (bind_Ok _ _ (s, m) None (s, m)).
    2:{ apply onC_Ok. unfold createMissPacket. rewrite (bind_Ok getS _ s s s eq_refl), (bind_Ok _ _ s None s eq_refl), Hco.
        rewrite (bind_Ok _ _ s None s); [done|]. unfold miss_command. by rewrite (bind_Ok getS _ s s s eq_refl), K1, (bind_Ok _ _ s tt s eq_refl), Hu. }
    cbn [default]. rewrite (bind_Ok _ _ _ _ _ Esn). cbn [fst snd]. by rewrite (bind_Ok _ _ _ _ _ El).
Qed.

(** ** [recvAtomic] *)
#[local] Abbreviation recv := (recvAtomic junk no_mshr pid_of send above false writeAllocator).
#[local] Abbreviation base_recv := (base_recvAtomic junk no_mshr pid_of send above false writeAllocator).

(** The cache and the memory afterwards hold the bytes [df]. *)
Definition settled s (df : list Z) (t : T) : Prop :=
  exists dm', coupled None t.1 dm' df /\ holds dm' t.2 /\ writebacks t.1 = [] /\
    cfg t.1 = cfg s /\ clockPeriod (clk t.1) = clockPeriod (clk s) /\ params_same (tags (tsys s)) (tags (tsys t.1)).

Lemma settled_intro s s' m' dm' df : coupled None s' dm' df -> holds dm' m' -> cfg s' = cfg s -> clockPeriod (clk s') = clockPeriod (clk s) ->
  params_same (tags (tsys s)) (tags (tsys s')) -> settled s df (drop_writebacks s', m').
Proof. intros H Hm E Ek Ep. exists dm'. by split_and!; [apply coupled_queues|..]. Qed.

(** A hit. *)
Lemma recv_present s dm df p m : coupled None s dm df -> request_for s (vsize dm) p -> holds dm m -> writebacks s = [] ->
  (coherent (cfg s) = true -> isUncacheable (pk_req p) = false) -> hits sec s p ->
  exists lat t, base_recv p (s, m) = Ok ((respond (result p df).1, lat), t) /\ settled s (after p df) t.
Proof.
  intros H R Hm Hw Hu Hh. destruct (recv_hit junk pid_of lo sec send above writeAllocator s dm df p m H R Hh Hw Hu) as (lat & s' & w & E & H' & Sv & _).
  exists lat, (s', m). split; [done|]. destruct Sv as ((A1 & _ & _ & A4 & _ & _ & _ & A8) & _ & Ep & _).
  exists dm. split_and!; try done; cbn; congruence.
Qed.

(** A block that is there serves every request. *)
Lemma misses_absent s dm df p : coupled None s dm df -> ~ hits sec s p -> contents (tsys s) !! (blk_addr s (pk_addr p), sec) = None.
Proof.
  intros H Hn. destruct (contents (tsys s) !! _) as [e|] eqn:Hc; [|done]. exfalso. apply Hn.
  apply contents_entry in Hc as (o & He & Hk); [|apply H]. exists (mode_of (ext o)). split; [apply copy_Some; [apply H|eauto]|].
  intros _. by destruct (cp_block _ _ _ _ _ _ H e o _ _ He Hk) as (_ & _ & _ & (_ & Hw & _) & _); apply Hw.
Qed.

(** A miss. *)
Lemma recv_absent s dm df p m : coupled None s dm df -> request_for s (vsize dm) p -> holds dm m -> writebacks s = [] ->
  0 < n -> maxRequestors (tags (tsys s)) <= n -> default true writeAllocator = true ->
  (coherent (cfg s) = true -> isUncacheable (pk_req p) = false) -> ~ hits sec s p ->
  exists lat t, base_recv p (s, m) = Ok ((respond (result p df).1, lat), t) /\ settled s (after p df) t.
Proof.
  intros H R Hm Hw Hn Hmax Hwa Hu Hh. pose proof (misses_absent s dm df p H Hh) as Hc. destruct (coherent (cfg s)) eqn:Hco.
  - destruct (whole_line lo sec None s dm df p H R) as (wl & Ewl & _). set (nw := needsWritable (pk_cmd p)).
    destruct (miss_answered s dm df p (coherent_cmd false nw wl) m H R) as (k & q & m1 & Eal & Es & Hm1 & Q & Eq & Ec & Hsh & Hdata); try done.
    { apply coherent_cmd_miss. }
    { unfold coherent_cmd. by destruct wl, nw. }
    destruct (recv_miss_coherent (alone := true) junk pid_of lo sec send above writeAllocator s dm df p wl k q (getLatency m) m m1)
      as (s1 & l & v & dm' & w & s2 & H1 & Sv & _ & Hmd & Hrun); try done; [by auto| |by rewrite Hc| |].
    { intros md. by rewrite (proj2 (copy_None sec s _ (cp_sound _ _ _ _ _ _ H)) Hc). }
    { rewrite Hc. by constructor. }
    destruct Hmd as [H2 Hrm (F1 & F2 & F3 & F4 & _) _ _ _]. destruct (sends_room s1 dm df l v dm' m1 H1 Hrm Hm1 Hn) as (m2 & Hs & Hm2).
    destruct (Hrun m2 Hs) as (lat & E). exists lat, (drop_writebacks s2, m2). split; [done|].
    destruct Sv as ((A1 & _ & _ & A4 & _) & _ & Ep & _). eapply settled_intro; try done; [congruence|congruence|by etrans].
  - destruct (base_access_miss junk pid_of lo sec s dm df p (c_lookupLatency (cfg s)) H R Hh) as (lat0 & s1 & Ea & H1 & Sv & Hcp). rewrite Hc in Ea.
    apply (access_base junk pid_of s p _ _ _ (rf_plain _ _ _ _ _ R) ltac:(congruence)) in Ea; [|done].
    destruct Sv as ((A1 & _ & _ & A4 & _ & _ & _ & A8) & Ec & Ep & _). rewrite Hw in A8.
    assert (request_for s1 (vsize dm) p) as R1 by (by apply (same_request lo sec s)).
    assert (contents (tsys s1) !! (blk_addr s1 (pk_addr p), sec) = None) as Hc1 by (rewrite Ec; unfold blk_addr, blk_size in *; by destruct Ep as (-> & _)).
    assert (maxRequestors (tags (tsys s1)) <= n) as Hmax1 by (by destruct Ep as (_ & -> & _)).
    destruct (nc_miss s1 dm df p m H1 R1 Hm Hmax1 ltac:(congruence) Hc1) as (x & e & l & v & dm' & s2 & m1 & Eh & Hm1 & H2 & Hrm & (F1 & F2 & F3 & F4 & _)).
    destruct (sends_room s1 dm df l v dm' m1 H1 Hrm Hm1 Hn) as (m2 & Hs & Hm2).
    destruct (recv_unsatisfied junk pid_of lo send above writeAllocator s s1 m m p df lat0 None x (respond (result p df).1) (Some (TagBlk e)) s2 m1 m2 [] l) as (lat & E);
      try done; [apply R| |by right|by rewrite F3, A8|].
    { unfold handleAtomicReqMiss. rewrite drop_none by done. rewrite (bind_Ok _ _ _ _ _ (onC_get _ m)), A1, Hco. exact Eh. }
    exists lat, (drop_writebacks s2, m2). split; [done|]. eapply settled_intro; try done; [congruence|congruence|by etrans].
Qed.

(** An uncacheable request to a coherent cache. *)
Lemma recv_uncacheable s dm df p m : coupled None s dm df -> request_for s (vsize dm) p -> holds dm m -> writebacks s = [] ->
  0 < n -> maxRequestors (tags (tsys s)) <= n -> coherent (cfg s) = true -> isUncacheable (pk_req p) = true ->
  exists lat t, base_recv p (s, m) = Ok ((respond (result p df).1, lat), t) /\ settled s (after p df) t.
Proof.
  intros H R Hm Hw Hn Hmax Hco Hu. destruct (uncacheable_run s dm df p m H R Hm Hn Hw) as (s1 & dm1 & m1 & Ea & H1 & Hv & E1 & Hm1 & Hc & Ecf & Eck & Ep).
  assert (coupled None (drop_writebacks s1) dm1 df) as H1' by (by apply coupled_queues).
  assert (request_for (drop_writebacks s1) (vsize dm1) p) as R1 by (rewrite Hv; by apply drop_request, (same_request lo sec s)).
  assert (contents (tsys (drop_writebacks s1)) !! (blk_addr (drop_writebacks s1) (pk_addr p), sec) = None) as Hc1.
  { unfold blk_addr, blk_size in *. cbn. by destruct Ep as (-> & _). }
  assert (maxRequestors (tags (tsys (drop_writebacks s1))) <= n) as Hmax1 by (cbn; by destruct Ep as (_ & -> & _)).
  destruct (c_forward _ dm1 df p m1 H1' R1 Hm1 Hmax1) as (x & m2 & Eh & H2 & Hm2); try done; [cbn; congruence|].
  destruct (recv_unsatisfied junk pid_of lo send above writeAllocator s s1 m m1 p df (c_lookupLatency (cfg s)) None x (respond (result p df).1) None (drop_writebacks s1) m2 m2 (writebacks s1) [])
    as (lat & E); try done; [apply R| | |by right|].
  { unfold access. by rewrite (bind_Ok getS _ s s s eq_refl), Hco, Hu. }
  { unfold handleAtomicReqMiss. rewrite (bind_Ok _ _ _ _ _ (onC_get _ m1)). cbn [cfg drop_writebacks with_queues]. rewrite Ecf, Hco. exact Eh. }
  exists lat, (drop_writebacks (drop_writebacks s1), m2). split; [done|]. eapply settled_intro; try done; cbn; congruence.
Qed.

Lemma base_recv_run s dm df p m : coupled None s dm df -> request_for s (vsize dm) p -> holds dm m -> writebacks s = [] ->
  0 < n -> maxRequestors (tags (tsys s)) <= n -> default true writeAllocator = true ->
  exists lat t, base_recv p (s, m) = Ok ((respond (result p df).1, lat), t) /\ settled s (after p df) t.
Proof.
  intros H R Hm Hw Hn Hmax Hwa. destruct (coherent (cfg s) && isUncacheable (pk_req p)) eqn:Hu.
  - apply andb_true_iff in Hu as [Hco Hu]. by eapply recv_uncacheable.
  - assert (coherent (cfg s) = true -> isUncacheable (pk_req p) = false) as Hu' by (intros Hco; by rewrite Hco in Hu).
    destruct (hits_dec sec s p) as [Hh|Hh]; [by eapply recv_present|by eapply recv_absent].
Qed.

(** The response is the one of a memory with the bytes [df]. *)
Lemma recv_run s dm df p m : coupled None s dm df -> request_for s (vsize dm) p -> holds dm m -> writebacks s = [] ->
  0 < n -> maxRequestors (tags (tsys s)) <= n -> default true writeAllocator = true ->
  exists lat t, recv p (s, m) = Ok ((respond (result p df).1, lat), t) /\ settled s (after p df) t.
Proof.
  intros H R Hm Hw Hn Hmax Hwa. pose proof (rf_plain _ _ _ _ _ R) as Hp. destruct (pp_flags _ Hp) as (F1 & F2 & _ & F4).
  destruct (coherent (cfg s)) eqn:Hco.
  - destruct (recv_promoted junk pid_of lo sec send above writeAllocator s (vsize dm) df p m R Hco) as (p' & -> & R' & _ & Er & Ea).
    rewrite <- Er, <- Ea. by eapply base_recv_run.
  - unfold recvAtomic. rewrite (bind_Ok _ _ _ _ _ (onC_get s m)), Hco, F4, (bind_Ok _ _ (s, m) tt (s, m) eq_refl).
    assert (isRead (pk_cmd p) || isWrite (pk_cmd p) = true) as -> by (pose proof (pp_cmd _ Hp); by destruct (pk_cmd p)).
    rewrite (bind_Ok _ _ (s, m) tt (s, m) eq_refl). by eapply base_recv_run.
Qed.
End Transparent.
