(* ===== verification/XBarRuns.v ===== *)
(** The coherent crossbar in atomic mode, run on coherent caches above a memory:
    the snoops of a request, its answer, and evictions. *)
From Stdlib Require Import ZArith Lia Bool.
From stdpp Require Import base numbers gmap list.
From S2P Require Import Prelude ReplBase Bitfield AddrRange Indexing CacheBlk Partition Tags TagsInv TagsOps.
From S2P Require Import Bytes MemRequest MemPacket Clocked AbstractMem Serve ClassicCache ClassicOps.
From S2P Require Import ClassicTotal ClassicAccess ClassicSnoop AddrRangeMap BaseXBar SnoopFilter CoherentXBar ClassicServe Coupled AtomicRuns AtomicSends Transparent.
From S2P Require Import SnoopRuns FilterRuns.
Local Open Scope Z_scope.

(** A crossbar of one memory-side port, without a default port, that knows all the
    ranges, which are those of [A]; and the routing is the same for any such. *)
Definition located (A : gmap Z (list AddrRange)) (b : BaseXBar) : Prop := informed 1 InvalidPortID false A b.
Definition reroutes (b b' : BaseXBar) : Prop := forall A, located A b -> located A b'.

Section XBar.
Context {P D I : Type} {RP : ReplacementPolicy P D} {RPL : ReplacementPolicyLaws P D}
  {IP : IndexingPolicy I} {IPL : IndexingLaws I} {SP : ServingPolicy P D}.
Implicit Types s : cc_sys P D I.
Context (junk : Z) (gnu : bool) (packet_id : Packet -> Z) (getLatency : AbstractMemory -> Z)
  (ranges : Z -> list AddrRange) (above : Z -> Packet -> Packet).
Context (n lo : Z) (sec : bool) (k : Z) (Hk : 2 <= k < 31).
#[local] Abbreviation X := (xsys P D I AbstractMemory).
#[local] Abbreviation bs := (2 ^ k).
#[local] Abbreviation local s df := (coupled_by (alone := false) lo sec None s df df).
#[local] Abbreviation quietly := (fun _ : Z => false).
Implicit Types x : X.

(** ** A packet on its way *)

(** The packet [p] that the request [k0] for the line [a] has become: [sh] says
    whether it has met a sharer and [rs] whether a cache responded. *)
Record in_flight (k0 : Packet) (a : Z) (df : list Z) (p : Packet) (sh rs : bool) : Prop := {
  if_cmd : pk_cmd p = pk_cmd k0;
  if_block : for_block sec bs a p;
  if_req : pk_req p = pk_req k0;
  if_delay : headerDelay p = headerDelay k0;
  if_sh : hasSharers p = sh;
  if_rs : cacheResponding p = rs;
  if_any : isRead (pk_cmd p) = true -> has_flag ANY_DATA p = true /\ vsize (pk_data p) = bs;
  if_fresh : rs = false -> p = (if sh then setHasSharers k0 else k0) /\ responderHadWritable p = false;
  if_data : rs = true -> isRead (pk_cmd p) = true -> pk_data p = window df (a - lo) bs;
}.

(** A request no cache has seen. *)
Record fresh_request (k0 : Packet) (a : Z) : Prop := {
  fr_cmd : snoop_cmd (pk_cmd k0);
  fr_block : for_block sec bs a k0;
  fr_flags : hasSharers k0 = false /\ cacheResponding k0 = false /\ responderHadWritable k0 = false;
  fr_any : isRead (pk_cmd k0) = true -> has_flag ANY_DATA k0 = true /\ vsize (pk_data k0) = bs;
  fr_maint : isCacheMaintenance (pk_req k0) = false;
}.

Section Flight.
Context k0 a (df : list Z) (F : fresh_request k0 a) (Ha : 0 <= a < 2 ^ 64) (Hm : a mod bs = 0).
Context (Hw : vsize (window df (a - lo) bs) = bs).
#[local] Abbreviation in_flight := (in_flight k0 a df).
#[local] Abbreviation c := (pk_cmd k0).

Lemma in_flight_start : in_flight k0 false false.
Proof. destruct F as [F1 F2 (F3 & F4 & F5) F6 _]. by constructor. Qed.

(** It meets a sharer. *)
Lemma in_flight_told p sh rs : in_flight p sh rs -> in_flight (told p) (sh || negb (isInvalidate c)) rs.
Proof.
  intros [E1 E2 E3 E4 E5 E6 E7 E8 E9]. destruct (told_facts sec bs a p E2) as (T1 & T2 & _). unfold told in *.
  assert (isInvalidate (pk_cmd p) = isInvalidate c) as Ei by (by rewrite E1). rewrite Ei in *.
  destruct (isInvalidate c); cbn [negb]; [rewrite orb_false_r; by constructor|]. rewrite orb_true_r.
  assert (forall m, Z.land HAS_SHARERS m = 0 -> has_flag m (setHasSharers p) = has_flag m p) as Hf.
  { intros m M. unfold setHasSharers. by rewrite has_set, M, orb_false_r. }
  constructor; try done.
  - unfold hasSharers, setHasSharers. by rewrite has_set, orb_true_r.
  - unfold cacheResponding in *. by rewrite Hf.
  - change (pk_cmd (setHasSharers p)) with (pk_cmd p). rewrite Hf by done. done.
  - intros Hr. destruct (E8 Hr) as [-> F5]. split; [|unfold responderHadWritable in *; by rewrite Hf]. destruct sh; [|done]. apply set_set.
Qed.

(** A cache responds, and the crossbar gives the request its command back. *)
Lemma in_flight_answered p sh w : in_flight p sh false ->
  let q := answered w (window df (a - lo) bs) p in
  pk_cmd q = responseCommand c /\ cacheResponding q = true /\ hasSharers q = sh /\ for_block sec bs a (with_cmd c q) /\ pk_req q = pk_req k0 /\
  in_flight (with_cmd c q) sh true.
Proof.
  intros [E1 E2 E3 E4 E5 E6 E7 E8 E9] q. set (p2 := if w then set_flag RESPONDER_HAD_WRITABLE (set_flag CACHE_RESPONDING p) else set_flag CACHE_RESPONDING p).
  assert (pk_cmd p2 = c /\ pk_req p2 = pk_req p /\ pk_addr p2 = pk_addr p /\ pk_secure p2 = pk_secure p /\ pk_size p2 = pk_size p /\ pk_data p2 = pk_data p /\ headerDelay p2 = headerDelay p)
    as (Q1 & Q2 & Q3 & Q4 & Q5 & Q6 & Q7) by (unfold p2; destruct w; by split_and!).
  assert (q = if isRead c then with_payload (window df (a - lo) bs) (respond p2) else respond p2) as Eq.
  { unfold q, answered. fold p2. unfold respond. cbn [pk_cmd clear_flag with_flags with_cmd]. rewrite Q1.
    destruct (snoop_cmd_facts _ (fr_cmd _ _ F)) as (_ & _ & _ & _ & _ & _ & _ & -> & _). done. }
  assert (forall m, has_flag m q = has_flag m (respond p2)) as Hf1 by (intros m; rewrite Eq; by destruct (isRead c)).
  assert (forall m, Z.land EXPRESS_SNOOP m = 0 -> has_flag m q = has_flag m p2) as Hf2.
  { intros m M. rewrite Hf1. unfold respond. by rewrite has_clear. }
  assert (forall m, Z.land CACHE_RESPONDING m = 0 -> Z.land RESPONDER_HAD_WRITABLE m = 0 -> Z.land EXPRESS_SNOOP m = 0 -> has_flag m q = has_flag m p) as Hf.
  { intros m M1 M2 M3. rewrite Hf2 by done. unfold p2. destruct w; rewrite !has_set, M1, ?M2, ?orb_false_r; done. }
  assert (pk_cmd q = responseCommand c /\ pk_req q = pk_req p /\ pk_addr q = pk_addr p /\ pk_secure q = pk_secure p /\ pk_size q = pk_size p /\ headerDelay q = headerDelay p)
    as (R1 & R2 & R3 & R4 & R5 & R7) by (rewrite Eq; unfold respond; destruct (isRead c); cbn; rewrite Q1; by split_and!).
  assert (cacheResponding q = true) as Hcr.
  { unfold cacheResponding. rewrite Hf2 by done. unfold p2. destruct w; rewrite !has_set; by rewrite ?orb_true_r, ?orb_false_r. }
  assert (hasSharers q = sh) as Hsh by (unfold hasSharers in *; by rewrite Hf).
  assert (for_block sec bs a (with_cmd c q)) as Hb.
  { destruct E2 as [[V1 V2] B1 B2 B3 B4 B5]. constructor; cbn [pk_addr pk_secure pk_size pk_req pk_cmd with_cmd]; rewrite ?R2, ?R3, ?R4, ?R5; try done.
    - change (has_flag VALID_ADDR q = true /\ has_flag VALID_SIZE q = true). rewrite !Hf by done. done.
    - by rewrite <- E1. }
  split_and!; try done; [congruence|]. constructor; try done; cbn [pk_req headerDelay pk_cmd with_cmd]; [congruence|congruence| |].
  - intros Hr. rewrite <- E1 in Hr. destruct (E7 Hr) as [V _]. split; [change (has_flag ANY_DATA q = true); by rewrite Hf|]. rewrite Eq. rewrite <- E1, Hr. done.
  - intros _ Hr. rewrite Eq, Hr. done.
Qed.

Lemma in_flight_unanswered p sh : in_flight p sh false -> unanswered bs p.
Proof. intros [E1 E2 E3 E4 E5 E6 E7 E8 E9]. split; [done|]. split; [by apply E8|done]. Qed.

(** ** The snoops of a request *)
Context (src : Port) (L : list Port) (idx : Z -> Z) (f0 : option SnoopFilter).
Context (send : Z -> Packet -> X -> outcome (Packet * Z * X)).
#[local] Abbreviation snoop_port := (sendAtomicSnoop junk gnu ranges above quietly send).
#[local] Abbreviation loop := (forward_loop junk gnu ranges above quietly send c (getId src) InvalidPortID).
#[local] Abbreviation asked := (asked idx sec).
#[local] Abbreviation given := (given idx sec).

(** A cache that can be snooped for the line. *)
Definition member (port : Z) s : Prop := local s df /\ blk_size s = bs /\ inRange gnu (ranges port) a = Ok true.

(** What the snoop of one port does. *)
Lemma snoop_port_run p pkt x sh rs s : in_flight pkt sh rs -> caches x !! getId p = Some s -> member (getId p) s ->
  (forall m, copy sec s a = Some m -> m_dirty m = true -> rs = false) ->
  exists w lat s', snoop_port p pkt x = Ok (match copy sec s a with
      | Some m => if m_dirty m then answered w (window df (a - lo) bs) (told pkt) else told pkt
      | None => pkt
      end, lat, mkX (xbar x) (<[getId p := s']> (caches x)) (below x)) /\ snooped lo sec c a df s s'.
Proof.
  intros Fl Hs (Hl & Hz & Hr) Hd. unfold sendAtomicSnoop. rewrite Hs. cbn [oget obind]. set (y := mkX _ _ _).
  destruct (snoop_run junk lo sec gnu (send (getId p)) (above (getId p)) df s a pkt (ranges (getId p)) y Hl) as (w & lat & s' & E & Hsn); try done.
  - rewrite Hz. apply Fl.
  - by rewrite Hz.
  - rewrite (if_cmd _ _ _ _ _ _ Fl). apply F.
  - intros m Hc Hdm. rewrite Hz. rewrite (Hd m Hc Hdm) in Fl. by eapply in_flight_unanswered.
  - exists w, lat, s'. rewrite E. cbn [obind fst snd]. rewrite Hz. split; [|by rewrite (if_cmd _ _ _ _ _ _ Fl) in Hsn].
    unfold y. cbn [xbar caches below]. by rewrite insert_delete_eq.
Qed.

(** The filter while the snoops go on. *)
Definition phase (rs : bool) (f1 : option SnoopFilter) : Prop :=
  match f0, f1 with
  | None, None => True
  | Some f, Some f1 => if rs then given (negb (isInvalidate c)) src a f f1 else asked src a f f1
  | _, _ => False
  end.

(** The crossbar but for its filter and what the map of the ranges remembers. *)
Definition same_bar x x' : Prop :=
  xbar x' = with_filter (snoopFilter (xbar x')) (with_routing (routing (xbar x')) (xbar x)) /\ reroutes (routing (xbar x)) (routing (xbar x')).

Lemma same_bar_filter x x' f : xbar x' = with_filter f (xbar x) -> same_bar x x'.
Proof. intros E. unfold same_bar. rewrite E. split; [by destruct (xbar x)|by intros A]. Qed.

Lemma same_bar_refl x x' : xbar x' = xbar x -> same_bar x x'.
Proof. intros E. apply (same_bar_filter _ _ (snoopFilter (xbar x))). rewrite E. by destruct (xbar x). Qed.

Lemma same_bar_trans x y z : same_bar x y -> same_bar y z -> same_bar x z.
Proof. intros [E1 R1] [E2 R2]. split; [|intros A HA; auto]. rewrite E2 at 1. rewrite E1. by destruct (xbar x). Qed.

Lemma same_bar_routed x x' f r : xbar x' = with_filter f (with_routing r (xbar x)) -> reroutes (routing (xbar x)) r -> same_bar x x'.
Proof. intros E R. unfold same_bar. rewrite E. split; [by destruct (xbar x)|exact R]. Qed.

Lemma given_weaken sh sh' f f2 : (sh' = true -> sh = true) -> given sh src a f f2 -> given sh' src a f f2.
Proof. intros Hi (Hsp & h & E & Hs & Hsh). split; [done|]. exists h. split_and!; try done. auto. Qed.

(** The filter hears of a response. *)
Lemma filter_response_run p q x sh : for_block sec bs a (with_cmd c q) -> pk_cmd q = responseCommand c -> cacheResponding q = true -> hasSharers q = sh ->
  (isInvalidate c = false -> sh = true) -> phase false (snoopFilter (xbar x)) -> vget (xb_cpuSidePorts (xbar x)) (getId src) = Ok src ->
  (forall f, f0 = Some f -> knows L idx f /\ linesize f = bs /\ src ∈ L /\ p ∈ L /\ held f (line_key sec a) (idx (getId p)) = true) ->
  exists f2, filter_response q (getId src) InvalidPortID p x = Ok (mkX (with_filter f2 (xbar x)) (caches x) (below x)) /\ phase true f2.
Proof.
  intros [[V1 V2] B1 B2 B3 B4 B5] Ec Hcr Hsh Hinv Hph Hg Hf. unfold filter_response, phase in *. destruct (snoopFilter (xbar x)) as [f1|] eqn:Ef.
  2:{ destruct f0; [done|]. exists None. split; [|done]. destruct x as [b cs bl]. cbn in *. rewrite <- Ef. by destruct b. }
  destruct f0 as [f|]; [|done]. destruct (Hf f eq_refl) as (K & Hls & HsL & HpL & Hh).
  change (InvalidPortID =? InvalidPortID) with true. cbn [negb]. unfold get_port. rewrite Hg. cbn [obind].
  destruct (snoop_response_run L idx sec k Hk src p a q f f1 K Hph HsL HpL) as (f2 & E & Hgv); try done.
  - rewrite Ec. by destruct (snoop_cmd_facts _ (fr_cmd _ _ F)) as (_ & _ & _ & _ & _ & -> & _).
  - rewrite Ec. by destruct (fr_cmd _ _ F) as [-> | [-> | [-> | ->]]].
  - rewrite E. cbn [obind]. exists (Some f2). split; [done|]. eapply given_weaken; [|exact Hgv]. rewrite Hsh. rewrite negb_true_iff. done.
Qed.

(** The copy of the line a port to be snooped has. *)
Definition has_copy x (p : Port) (m : mode) : Prop :=
  getId p <> getId src /\ exists s, caches x !! getId p = Some s /\ copy sec s a = Some m.

(** What the loop needs of the ports [l]. *)
Record snoopable x (l : list Port) : Prop := {
  so_ids : NoDup (getId <$> l);
  so_src : getId src <> InvalidPortID /\ vget (xb_cpuSidePorts (xbar x)) (getId src) = Ok src;
  so_members : forall p, p ∈ l -> getId p <> getId src -> exists s, caches x !! getId p = Some s /\ member (getId p) s;
  so_owner : forall p p' m m', p ∈ l -> p' ∈ l -> has_copy x p m -> has_copy x p' m' -> m_dirty m = true -> m_dirty m' = true -> p = p';
  so_filter : forall f, f0 = Some f -> knows L idx f /\ linesize f = bs /\ src ∈ L /\
    forall p m, p ∈ l -> has_copy x p m -> p ∈ L /\ held f (line_key sec a) (idx (getId p)) = true;
}.

(** The caches after the snoops of [l]. *)
Definition snooped_all x x' (l : list Port) : Prop :=
  forall i, if decide (i ∈ getId <$> l /\ i <> getId src)
    then exists s s', caches x !! i = Some s /\ caches x' !! i = Some s' /\ snooped lo sec c a df s s'
    else caches x' !! i = caches x !! i.

(** What the packet and the response are afterwards. *)
Record loop_done x (l : list Port) (sh rs : bool) (p' : Packet) (acc' : option Command * Z) x' (sh' rs' : bool) : Prop := {
  ld_flight : in_flight p' sh' rs';
  ld_acc : acc'.1 = if rs' then Some (responseCommand c) else None;
  ld_bar : same_bar x x' /\ below x' = below x;
  ld_phase : phase rs' (snoopFilter (xbar x'));
  ld_caches : snooped_all x x' l;
  ld_sh : sh' = true <-> sh = true \/ isInvalidate c = false /\ exists p m, p ∈ l /\ has_copy x p m;
  ld_rs : rs' = true <-> rs = true \/ exists p m, p ∈ l /\ has_copy x p m /\ m_dirty m = true;
}.

(** The port of the requestor is passed over. *)
Lemma loop_done_skip x p l sh rs p' acc' x' sh' rs' : getId p = getId src ->
  loop_done x l sh rs p' acc' x' sh' rs' -> loop_done x (p :: l) sh rs p' acc' x' sh' rs'.
Proof.
  intros Hp [D1 D2 D3 D4 D5 D6 D7]. assert (forall m, ~ has_copy x p m) as Hno by (by intros m (? & _)).
  constructor; try done.
  - intros i. specialize (D5 i). rewrite fmap_cons. destruct (decide (i ∈ getId <$> l /\ i <> getId src)) as [Hi|Hi].
    + rewrite decide_True; [done|]. split; [right|]; apply Hi.
    + rewrite decide_False; [done|]. rewrite elem_of_cons. intros [[->|?] ?]; auto.
  - rewrite D6. setoid_rewrite elem_of_cons. clear -Hno. naive_solver.
  - rewrite D7. setoid_rewrite elem_of_cons. clear -Hno. naive_solver.
Qed.

Lemma has_copy_step x x1 p q s' m : caches x1 = <[getId p := s']> (caches x) -> getId q <> getId p -> has_copy x1 q m <-> has_copy x q m.
Proof. intros E Hne. unfold has_copy. rewrite E, lookup_insert_ne by done. done. Qed.

(** A port was snooped. *)
Lemma loop_done_step x x1 p l s s' sh rs p' acc' x' sh' rs' : getId p <> getId src -> NoDup (getId <$> p :: l) ->
  caches x !! getId p = Some s -> snooped lo sec c a df s s' -> caches x1 = <[getId p := s']> (caches x) -> same_bar x x1 -> below x1 = below x ->
  loop_done x1 l (sh || match copy sec s a with Some _ => negb (isInvalidate c) | None => false end)
    (rs || match copy sec s a with Some m => m_dirty m | None => false end) p' acc' x' sh' rs' ->
  loop_done x (p :: l) sh rs p' acc' x' sh' rs'.
Proof.
  intros Hp Hnd Hs Hsn Ec Hb Hbl [D1 D2 [D3 D3'] D4 D5 D6 D7]. apply NoDup_cons in Hnd as [Hni _].
  assert (forall q, q ∈ l -> getId q <> getId p) as Hne by (intros q Hq E; apply Hni; rewrite <- E; by apply list_elem_of_fmap_2).
  assert (forall m, has_copy x p m <-> copy sec s a = Some m) as Hc.
  { intros m. unfold has_copy. rewrite Hs. split; [intros (_ & s0 & [= ->] & E); done|intros E; split; [done|by exists s]]. }
  assert (forall q m, q ∈ l -> has_copy x1 q m <-> has_copy x q m) as Hq by (intros q m Hq; apply (has_copy_step x x1 p q s' m Ec); auto).
  constructor; try done.
  - split; [by eapply same_bar_trans|congruence].
  - intros i. specialize (D5 i). rewrite fmap_cons. destruct (decide (i = getId p)) as [->|Hi].
    + rewrite decide_False in D5 by tauto. rewrite decide_True by (split; [left|done]). exists s, s'. rewrite D5, Ec, lookup_insert_eq. done.
    + rewrite Ec, lookup_insert_ne in D5 by done. destruct (decide (i ∈ getId <$> l /\ i <> getId src)) as [H1|H1].
      * rewrite decide_True; [done|]. split; [right|]; apply H1.
      * rewrite decide_False; [done|]. rewrite elem_of_cons. tauto.
  - rewrite D6. destruct (copy sec s a) as [m0|] eqn:Hcp.
    + rewrite orb_true_iff, negb_true_iff. split; [intros [[?|?]|(? & q & m & H1 & H2)]|intros [?|(? & q & m & H1 & H2)]]; auto.
      * right. split; [done|]. exists p, m0. split; [by left|by apply Hc].
      * right. split; [done|]. exists q, m. split; [by right|by apply Hq].
    + rewrite orb_false_r. split; (intros [?|(Hi & q & m & H1 & H2)]; [by left|right; split; [done|]]).
      * exists q, m. split; [by right|by apply Hq].
      * apply elem_of_cons in H1 as [->|H1]; [by apply Hc in H2|]. exists q, m. split; [done|by apply Hq].
  - rewrite D7. destruct (copy sec s a) as [m0|] eqn:Hcp.
    + rewrite orb_true_iff. split; [intros [[?|?]|(q & m & H1 & H2 & H3)]|intros [?|(q & m & H1 & H2 & H3)]]; auto.
      * right. exists p, m0. split; [by left|]. split; [by apply Hc|done].
      * right. exists q, m. split; [by right|]. split; [by apply Hq|done].
      * apply elem_of_cons in H1 as [->|H1]; [apply Hc in H2; injection H2 as ->; auto|]. right. exists q, m. split; [done|]. split; [by apply Hq|done].
    + rewrite orb_false_r. split; (intros [?|(q & m & H1 & H2 & H3)]; [by left|right]).
      * exists q, m. split; [by right|]. split; [by apply Hq|done].
      * apply elem_of_cons in H1 as [->|H1]; [by apply Hc in H2|]. exists q, m. split; [done|]. split; [by apply Hq|done].
Qed.

Lemma snoopable_cons x x1 p l s' : snoopable x (p :: l) -> caches x1 = <[getId p := s']> (caches x) -> same_bar x x1 -> snoopable x1 l.
Proof.
  intros [S1 S2 S3 S4 S5] Ec Hb. apply NoDup_cons in S1 as [Hni S1].
  assert (forall q, q ∈ l -> getId q <> getId p) as Hne by (intros q Hq E; apply Hni; rewrite <- E; by apply list_elem_of_fmap_2).
  assert (forall q m, q ∈ l -> has_copy x1 q m <-> has_copy x q m) as Hq by (intros q m Hq; apply (has_copy_step x x1 p q s' m Ec); auto).
  constructor; [done| | | |].
  - rewrite (proj1 Hb). exact S2.
  - intros q Hql Hn. rewrite Ec, lookup_insert_ne by (intros E; by apply (Hne q)). apply S3; [by right|done].
  - intros q q' m m' H1 H2. rewrite !Hq by done. apply S4; by right.
  - intros f Hf. destruct (S5 f Hf) as (K & Hz & Hs & Hh). split_and!; try done. intros q m H1. rewrite Hq by done. apply Hh. by right.
Qed.

Lemma snoopable_skip x p l : snoopable x (p :: l) -> snoopable x l.
Proof.
  intros [S1 S2 S3 S4 S5]. apply NoDup_cons in S1 as [_ S1]. constructor; try done.
  - intros q Hq. apply S3. by right.
  - intros q q' m m' H1 H2. apply S4; by right.
  - intros f Hf. destruct (S5 f Hf) as (K & Hz & Hs & Hh). split_and!; try done. intros q m H1. apply Hh. by right.
Qed.

(** [forwardAtomic]. *)
Lemma forward_loop_run l : forall pkt x acc sh rs, snoopable x l -> in_flight pkt sh rs ->
  acc.1 = (if rs then Some (responseCommand c) else None) -> phase rs (snoopFilter (xbar x)) ->
  (rs = true -> forall p m, p ∈ l -> has_copy x p m -> m_dirty m = false) ->
  exists p' acc' x' sh' rs', loop l acc pkt x = Ok (p', acc', x') /\ loop_done x l sh rs p' acc' x' sh' rs'.
Proof.
  induction l as [|p l IH]; intros pkt x acc sh rs So Fl Hacc Hph Hcl.
  { exists pkt, acc, x, sh, rs. split; [done|]. constructor; try done; [|set_solver|set_solver].
    split; [by apply same_bar_refl|done]. }
  destruct (so_src _ _ So) as [Hsrc Hg]. cbn [forward_loop]. replace (getId src =? InvalidPortID) with false by lia. cbn [negb andb].
  destruct (Z.eqb_spec (getId p) (getId src)) as [Ep|Ep].
  { destruct (IH pkt x acc sh rs) as (p' & acc' & x' & sh' & rs' & E & Hd); try done; [by eapply snoopable_skip|by intros Hr q m Hq; apply Hcl; [|right]|].
    exists p', acc', x', sh', rs'. split; [done|]. by apply loop_done_skip. }
  destruct (so_members _ _ So p ltac:(by left) Ep) as (s & Hs & Hmem).
  assert (forall m, copy sec s a = Some m -> has_copy x p m) as Hhc by (intros m Hc; split; [done|by exists s]).
  destruct (snoop_port_run p pkt x sh rs s Fl Hs Hmem) as (w & lat & s' & Esn & Hsn).
  { intros m Hc Hd. destruct rs; [|done]. by rewrite (Hcl eq_refl p m ltac:(by left) (Hhc m Hc)) in Hd. }
  rewrite Esn. cbn [obind fst snd]. set (x1 := mkX (xbar x) (<[getId p := s']> (caches x)) (below x)).
  destruct (snoop_cmd_facts _ (fr_cmd _ _ F)) as (C1 & _ & _ & _ & _ & C6 & C7 & _).
  assert (isResponse c = false) as Hnr by (destruct (fr_cmd _ _ F) as [-> | [-> | [-> | ->]]]; done).
  assert (forall q m, q ∈ l -> has_copy x1 q m -> has_copy x q m) as Hq.
  { intros q m Hql. apply (has_copy_step x x1 p q s' m eq_refl). intros E. pose proof (so_ids _ _ So) as Hnd. apply NoDup_cons in Hnd as [Hni _].
    apply Hni. rewrite <- E. by apply list_elem_of_fmap_2. }
  destruct (match copy sec s a with Some m => m_dirty m | None => false end) eqn:Hd.
  - destruct (copy sec s a) as [m|] eqn:Hc; [|done]. rewrite Hd.
    assert (rs = false) as -> by (destruct rs; [by rewrite (Hcl eq_refl p m ltac:(by left) (Hhc m eq_refl)) in Hd|done]).
    destruct (in_flight_answered (told pkt) _ w (in_flight_told _ _ _ Fl)) as (A1 & A2 & A3 & A4 & A5 & A6). set (q := answered _ _ _) in *.
    rewrite A1, C6, A2, Hacc. cbn [negb]. rewrite bool_decide_eq_false_2 by done. cbn [negb ocheck obind].
    destruct (filter_response_run p q x1 _ A4 A1 A2 A3) as (f2 & Ef & Hph2); try done.
    { intros ->. by rewrite orb_true_r. }
    { intros f Hf. destruct (so_filter _ _ So f Hf) as (K & Hz & HsL & Hh). split; [done|]. split; [done|]. split; [done|]. by apply (Hh p m); [left|apply Hhc]. }
    rewrite Ef. cbn [obind]. set (x2 := mkX (with_filter f2 (xbar x1)) (caches x1) (below x1)).
    destruct (IH (with_cmd c q) x2 (Some (pk_cmd q), lat) (sh || negb (isInvalidate c)) true) as (p' & acc' & x' & sh' & rs' & E & Hdone); try done.
    { eapply (snoopable_cons x x2 p l s'); try done. by eapply same_bar_filter. }
    { cbn [fst]. by rewrite A1. }
    { intros _ q' m' Hq' Hc'. destruct (m_dirty m') eqn:Hd'; [|done]. pose proof (Hq q' m' Hq' Hc') as Hcx.
      assert (p = q') as <- by (eapply (so_owner _ _ So p q' m m'); try done; [by left|by right|by apply Hhc]).
      pose proof (so_ids _ _ So) as Hnd. apply NoDup_cons in Hnd as [Hni _]. exfalso. by apply Hni, list_elem_of_fmap_2. }
    exists p', acc', x', sh', rs'. rewrite A1 in E. split; [exact E|].
    apply (loop_done_step x x2 p l s s'); try done; [apply So|by eapply same_bar_filter|]. by rewrite Hc, Hd.
  - set (pkt1 := match copy sec s a with Some m => if m_dirty m then _ else told pkt | None => pkt end).
    assert (in_flight pkt1 (sh || match copy sec s a with Some _ => negb (isInvalidate c) | None => false end) rs) as Fl1.
    { unfold pkt1. destruct (copy sec s a) as [m|]; [rewrite Hd; by apply in_flight_told|by rewrite orb_false_r]. }
    rewrite (if_cmd _ _ _ _ _ _ Fl1), Hnr. cbn [negb].
    destruct (IH pkt1 x1 acc (sh || match copy sec s a with Some _ => negb (isInvalidate c) | None => false end) rs) as (p' & acc' & x' & sh' & rs' & E & Hdone); try done.
    { eapply (snoopable_cons x x1 p l s'); try done. by apply same_bar_refl. }
    { intros Hr q m Hql Hcq. apply (Hcl Hr q); [by right|by apply Hq]. }
    exists p', acc', x', sh', rs'. split; [exact E|].
    apply (loop_done_step x x1 p l s s'); try done; [apply So|by apply same_bar_refl|]. by rewrite Hd, orb_false_r.
Qed.

(** ** The request *)

(** The crossbar is the point of coherency; the ports [L] snoop, and what is in
    the memory is routed to it. *)
Record bar_ok (hi : Z) (b : XBar) : Prop := {
  bo_point : pointOfCoherency b = true /\ bypassCaches b = false;
  bo_ports : snoopPorts b = L /\ NoDup (getId <$> L) /\ forall p, p ∈ L -> getId p <> InvalidPortID /\ vget (xb_cpuSidePorts b) (getId p) = Ok p;
  bo_routes : exists r, located {[0 := [r]]} (routing b) /\ _start r <= lo /\ hi <= _end r /\ 0 <= lo /\ hi < 2 ^ 64;
}.

(** What is in the memory is found. *)
Lemma bar_finds hi b p : bar_ok hi b -> has_flag VALID_ADDR p = true -> has_flag VALID_SIZE p = true -> 0 < pk_size p -> lo <= pk_addr p ->
  pk_addr p + pk_size p <= hi -> exists d r, find_port gnu p b = Ok (d, with_routing r b) /\ reroutes (routing b) r.
Proof.
  intros [_ _ (rm & R & H1 & H2 & H3 & H4)] V1 V2 H5 H6 H7. unfold find_port, getAddrRange, getAddr, pk_getSize. rewrite V1, V2. cbn [ocheck obind].
  assert (_end (RangeSize (pk_addr p) (pk_size p)) = pk_addr p + pk_size p) as Ee by (cbn; rewrite uwrap_small; lia).
  set (q := RangeSize _ _) in *. assert (proper q) as Hq by (split; [done|]; rewrite Ee; cbn; lia).
  assert (forall A, located A (routing b) -> match findPort gnu q (routing b) with Ok (_, r) => located A r | Fault _ => True end) as Hl.
  { intros A R'. pose proof (findPort_spec gnu _ _ _ A _ q R' Hq) as Hf. destruct (findPort gnu q (routing b)) as [[d r]|]; [|done]. by destruct Hf as (? & _). }
  pose proof (findPort_spec gnu _ _ _ _ _ q R Hq) as Hf. destruct (findPort gnu q (routing b)) as [[d r]|f].
  - exists d, r. split; [done|]. exact Hl.
  - exfalso. destruct Hf as (_ & Hno & _). apply (Hno 0). exists [rm], rm. split; [by rewrite lookup_singleton_eq|]. split; [done|].
    split; [by left|]. split; [cbn; lia|lia].
Qed.

Lemma bar_same hi x x' : same_bar x x' -> bar_ok hi (xbar x) -> bar_ok hi (xbar x').
Proof. intros [E R] [B1 B2 (r & Hl & Hr)]. rewrite E. constructor; [exact B1|exact B2|]. exists r. split; [by apply R|exact Hr]. Qed.

(** A filter between requests. *)
Definition filter_ok (f : option SnoopFilter) : Prop :=
  match f with Some f => knows L idx f /\ linesize f = bs /\ quiet f | None => True end.

(** The filter takes the caches with a copy for holders. *)
Definition covers (f : option SnoopFilter) (C : gmap Z (cc_sys P D I)) : Prop :=
  match f with
  | Some f => forall i s b m, C !! i = Some s -> copy sec s b = Some m -> held f (line_key sec b) (idx i) = true
  | None => True
  end.

(** The caches that are snooped for the line. *)
Record snoop_ready x : Prop := {
  sr_ports : src ∈ L /\ filter_ok (snoopFilter (xbar x)) /\ f0 = snoopFilter (xbar x) /\ covers f0 (caches x);
  sr_caches : forall i, is_Some (caches x !! i) <-> i ∈ getId <$> L /\ i <> getId src;
  sr_members : forall i s, caches x !! i = Some s -> member i s;
  sr_owner : forall i j s t m m', caches x !! i = Some s -> caches x !! j = Some t -> copy sec s a = Some m -> copy sec t a = Some m' ->
    m_dirty m = true -> m_dirty m' = true -> i = j;
}.

(** The copies of the line elsewhere. *)
Definition elsewhere x (m : mode) : Prop := exists i s, caches x !! i = Some s /\ copy sec s a = Some m.

Lemma ids_apart hi b p q : bar_ok hi b -> p ∈ L -> q ∈ L -> getId p = getId q -> p = q.
Proof.
  intros [_ (_ & _ & Hg) _] Hp Hq E. destruct (Hg p Hp) as [_ E1]. destruct (Hg q Hq) as [_ E2]. rewrite E in E1. congruence.
Qed.

Lemma snoopable_intro hi x l : bar_ok hi (xbar x) -> snoop_ready x -> NoDup (getId <$> l) -> (forall p, p ∈ l -> p ∈ L) -> snoopable x l.
Proof.
  intros B [(HsL & Hf & Hf0 & Hcov) Hc Hmem Hown] Hnd Hl. pose proof B as [_ (_ & _ & Hg) _]. constructor; [done|by apply Hg| | |].
  - intros p Hp Hne. destruct (proj2 (Hc (getId p))) as [s Hs]; [split; [apply list_elem_of_fmap_2; auto|done]|]. exists s. split; [done|]. by apply Hmem.
  - intros p p' m m' Hp Hp' (_ & s & Hs & H1) (_ & s' & Hs' & H2) D1 D2. eapply ids_apart; [exact B|auto|auto|]. by eapply Hown.
  - intros f Hf1. rewrite <- Hf0, Hf1 in Hf. destruct Hf as (K & Hz & Hq). split_and!; try done. intros p m Hp (_ & s & Hs & Hcp). split; [auto|].
    rewrite Hf1 in Hcov. by eapply Hcov.
Qed.

(** All caches have been snooped, or needed not be. *)
Definition all_snooped (C C' : gmap Z (cc_sys P D I)) : Prop :=
  forall i, match C !! i, C' !! i with Some s, Some s' => snooped lo sec c a df s s' | None, None => True | _, _ => False end.

(** The end of the snoops. *)
Record snoops_done x (p' : Packet) (acc' : option Command * Z) x' (sh rs : bool) : Prop := {
  sd_flight : in_flight p' sh rs;
  sd_resp : acc'.1 = if rs then Some (responseCommand c) else None;
  sd_bar : same_bar x x' /\ below x' = below x;
  sd_phase : phase rs (snoopFilter (xbar x'));
  sd_caches : all_snooped (caches x) (caches x');
  sd_sh : sh = true <-> isInvalidate c = false /\ exists m, elsewhere x m;
  sd_rs : rs = true <-> exists m, elsewhere x m /\ m_dirty m = true;
}.

(** From the loop over ports that cover the copies. *)
Lemma loop_snoops hi x x1 l p' acc' x' sh rs : bar_ok hi (xbar x) -> snoop_ready x -> caches x1 = caches x -> below x1 = below x -> same_bar x x1 ->
  (forall p, p ∈ l -> p ∈ L) -> (forall p m, p ∈ L -> has_copy x p m -> p ∈ l) -> loop_done x1 l false false p' acc' x' sh rs -> snoops_done x p' acc' x' sh rs.
Proof.
  intros B Sr Ec Ebl Hb Hl Hcov [D1 D2 [D3 D3'] D4 D5 D6 D7].
  assert (forall p m, has_copy x1 p m <-> has_copy x p m) as Hh by (intros p m; unfold has_copy; by rewrite Ec).
  assert (forall m, elsewhere x m <-> exists p, p ∈ l /\ has_copy x p m) as Hel.
  { intros m. split.
    - intros (i & s & Hs & Hc). destruct (proj1 (sr_caches _ Sr i) ltac:(eauto)) as [(p & -> & Hp)%list_elem_of_fmap Hne].
      assert (has_copy x p m) as H by (split; [done|eauto]). exists p. split; [by eapply Hcov|done].
    - intros (p & _ & _ & s & Hs & Hc). by exists (getId p), s. }
  constructor; try done.
  - split; [by eapply same_bar_trans|congruence].
  - intros i. specialize (D5 i). rewrite Ec in D5. case_decide as Hd.
    + destruct D5 as (s & s' & -> & -> & Hsn). done.
    + rewrite D5. destruct (caches x !! i) as [s|] eqn:Hs; [|done]. apply snooped_absent; [by destruct (sr_members _ Sr i s Hs)|].
      destruct (copy sec s a) as [m|] eqn:Hc; [|done]. exfalso. apply Hd.
      destruct (proj1 (sr_caches _ Sr i) ltac:(eauto)) as [(p & -> & Hp)%list_elem_of_fmap Hne]. split; [|done]. apply list_elem_of_fmap_2.
      apply (Hcov p m Hp). split; [done|eauto].
  - rewrite D6. setoid_rewrite Hel. setoid_rewrite Hh. clear. naive_solver.
  - rewrite D7. setoid_rewrite Hel. setoid_rewrite Hh. clear. naive_solver.
Qed.

#[local] Abbreviation request := (snoop_request junk gnu ranges above quietly send).

Lemma snoop_request_run hi x : bar_ok hi (xbar x) -> snoop_ready x ->
  exists p' acc' x' sh rs, request (getId src) k0 x = Ok (p', acc', x') /\ snoops_done x p' acc' x' sh rs.
Proof.
  intros B Sr. pose proof Sr as [(HsL & Hf & Hf0 & Hcov) Hc Hmem Hown]. destruct (bo_point _ _ B) as [_ Hby]. destruct (bo_ports _ _ B) as (Hsp & Hnd & Hg).
  pose proof (in_flight_start) as Fl0. destruct (fr_block _ _ F) as [[V1 V2] B1 B2 B3 B4 _].
  destruct (snoop_cmd_facts _ (fr_cmd _ _ F)) as (C1 & _ & C3 & _ & _ & _ & _ & _ & C9 & _).
  unfold snoop_request. destruct (snoopFilter (xbar x)) as [f|] eqn:Ef.
  - destruct Hf as (K & Hz & Hq). unfold get_port. rewrite (proj2 (Hg src HsL)). cbn [obind].
    assert (for_line sec k f a k0) as Hln by (repeat (split; [done|]); done).
    destruct (ask_run L idx sec k Hk src a k0 f K Hq HsL Hln) as (dests & f1 & El & Hask & Efin & Hnd' & Hdest); try done; [|by apply F|].
    { by destruct (fr_cmd _ _ F) as [-> | [-> | [-> | ->]]]. }
    rewrite El. cbn [obind fst snd]. unfold getAddr. rewrite V1, B1. cbn [ocheck obind]. rewrite B2, Efin. cbn [obind]. rewrite C9.
    set (x1 := mkX (with_filter (Some f1) (xbar x)) (caches x) (below x)). unfold forwardAtomic. change (bypassCaches (xbar x1)) with (bypassCaches (xbar x)).
    rewrite Hby. cbn [negb ocheck obind].
    assert (forall p, p ∈ dests -> p ∈ L) as Hsub by (intros p Hp; by apply Hdest).
    assert (snoopable x1 dests) as So by (destruct (snoopable_intro hi x dests B Sr (Hnd' Hnd) Hsub); by constructor).
    destruct (forward_loop_run dests k0 x1 (None, 0) false false So Fl0) as (p' & acc' & x' & sh & rs & E & Hd); try done.
    { unfold phase. by rewrite Hf0. }
    rewrite E. cbn [obind fst snd]. eexists p', _, x', sh, rs. split; [done|].
    assert (snoops_done x p' acc' x' sh rs) as [S1 S2 S3 S4 S5 S6 S7]; [|by constructor].
    eapply (loop_snoops hi x x1 dests); try done; [by eapply same_bar_filter|]. intros p m Hp Hhc. pose proof Hhc as (Hne & s & Hs & Hcs).
    apply Hdest. rewrite Hf0 in Hcov. split; [done|]. split; [by eapply Hcov|congruence].
  - rewrite Hsp. unfold forwardAtomic. rewrite Hby. cbn [negb ocheck obind].
    destruct (forward_loop_run L k0 x (None, 0) false false (snoopable_intro hi x L B Sr Hnd ltac:(done)) Fl0) as (p' & acc' & x' & sh & rs & E & Hd); try done.
    { unfold phase. by rewrite Hf0, Ef. }
    exists p', acc', x', sh, rs. split; [done|]. eapply (loop_snoops hi x x L); try done. by apply same_bar_refl.
Qed.

(** The answer to the request. *)
Record reply (q : Packet) (sh rs : bool) : Prop := {
  re_cmd : pk_cmd q = responseCommand c;
  re_req : pk_req q = pk_req k0;
  re_flags : has_flag VALID_ADDR q = true /\ has_flag VALID_SIZE q = true;
  re_place : pk_addr q = a /\ pk_secure q = sec /\ pk_size q = bs;
  re_delays : headerDelay q = headerDelay k0 /\ 0 <= payloadDelay q < 2 ^ 32;
  re_sh : hasSharers q = sh;
  re_rs : cacheResponding q = rs;
  re_data : isRead c = true -> has_flag ANY_DATA q = true /\ pk_data q = window df (a - lo) bs;
}.

Lemma u32_range z : 0 <= u32 z < 2 ^ 32.
Proof. apply Z.mod_pos_bound. lia. Qed.

(** A cache responded. *)
Lemma reply_snooped p sh lat : in_flight p sh true -> reply (with_payloadDelay lat (with_cmd (responseCommand c) p)) sh true.
Proof.
  intros [E1 [V1 B1 B2 B3 B4 B5] E3 E4 E5 E6 E7 E8 E9]. constructor; try done; [split; [done|apply u32_range]|].
  rewrite E1 in E7, E9. intros Hr. split; [by apply E7|by apply E9].
Qed.

(** The memory, or the crossbar, did. *)
Lemma reply_below p sh w lat : in_flight p sh false -> (isRead c = true -> w = window df (a - lo) bs) ->
  reply (with_payloadDelay lat (respond (if isRead c then with_payload w p else p))) sh false.
Proof.
  intros [E1 [[V1 V2] B1 B2 B3 B4 B5] E3 E4 E5 E6 E7 E8 E9] Hwd. set (p1 := if isRead c then with_payload w p else p).
  assert (forall m, Z.land EXPRESS_SNOOP m = 0 -> has_flag m (with_payloadDelay lat (respond p1)) = has_flag m p) as Hf.
  { intros m M. change (has_flag m (with_payloadDelay lat (respond p1))) with (has_flag m (respond p1)). unfold respond. rewrite has_clear by done.
    unfold p1. by destruct (isRead c). }
  assert (pk_cmd p1 = c /\ pk_req p1 = pk_req p /\ pk_addr p1 = pk_addr p /\ pk_secure p1 = pk_secure p /\ pk_size p1 = pk_size p /\ headerDelay p1 = headerDelay p)
    as (Q1 & Q2 & Q3 & Q4 & Q5 & Q6) by (unfold p1; destruct (isRead c); by split_and!).
  constructor; unfold hasSharers, cacheResponding in *; rewrite ?Hf by done; try done.
  - unfold respond. cbn. by rewrite Q1.
  - unfold respond. cbn. congruence.
  - unfold respond. cbn. rewrite Q3, Q4, Q5. done.
  - split; [unfold respond; cbn; congruence|apply u32_range].
  - intros Hr. rewrite E1 in E7. split; [by apply E7|]. unfold p1. rewrite Hr. unfold respond. cbn. by apply Hwd.
Qed.

Section Answer.
Context (hi : Z) (dm : list Z) x (B : bar_ok hi (xbar x)) (Sr : snoop_ready x) (Hm0 : mem_holds n lo dm (below x)).
Context (Hrng : lo <= a /\ a + bs <= hi /\ hi = lo + vsize dm).
Context (Hread : isRead c = true -> plain_packet k0 /\ 0 <= rq_requestorId (pk_req k0) < n).
Context (Hclean : isRead c = true -> (forall m, elsewhere x m -> m_dirty m = false) -> window dm (a - lo) bs = window df (a - lo) bs).
#[local] Abbreviation memory := (fun _ : Z => mem_send gnu getLatency).
#[local] Abbreviation perform := (perform_request gnu memory).

Lemma bs_pos : 0 < bs.
Proof. apply Z.pow_pos_nonneg; lia. Qed.

(** The request at its destination, when a cache has responded. *)
Lemma perform_sunk p acc x' sh : snoops_done x p acc x' sh true ->
  exists r, perform (isDestination (xbar x) k0) p x' = Ok (p, 0, mkX (with_routing r (xbar x')) (caches x') (below x')) /\ reroutes (routing (xbar x')) r.
Proof.
  intros [Fl _ [Hb _] _ _ _ _]. pose proof (bar_same hi x x' Hb B) as B'. destruct (bo_point _ _ B') as [Hp _].
  destruct (if_block _ _ _ _ _ _ Fl) as [[V1 V2] B1 B2 B3 _ _]. pose proof bs_pos.
  destruct (bar_finds _ _ p B' V1 V2 ltac:(lia) ltac:(lia) ltac:(lia)) as (d & r & Ed & Hro).
  unfold perform_request, sinkPacket. rewrite Hp, (if_rs _ _ _ _ _ _ Fl). cbn [andb orb obind]. rewrite Ed. by exists r.
Qed.

(** And when none has. *)
Lemma perform_below p acc x' sh : snoops_done x p acc x' sh false ->
  exists w lat r mem, perform (isDestination (xbar x) k0) p x' =
      Ok (respond (if isRead c then with_payload w p else p), lat, mkX (with_routing r (xbar x')) (caches x') mem) /\
    reroutes (routing (xbar x')) r /\ mem_holds n lo dm mem /\ (isRead c = true -> w = window df (a - lo) bs).
Proof.
  intros [Fl _ [Hb Hbl] _ _ _ Hrs]. pose proof (bar_same hi x x' Hb B) as B'. destruct (bo_point _ _ B') as [Hp _].
  destruct (if_block _ _ _ _ _ _ Fl) as [[V1 V2] B1 B2 B3 _ _]. pose proof (if_cmd _ _ _ _ _ _ Fl) as Ec. pose proof bs_pos.
  destruct (bar_finds _ _ p B' V1 V2 ltac:(lia) ltac:(lia) ltac:(lia)) as (d & r & Ed & Hro).
  destruct (snoop_cmd_facts _ (fr_cmd _ _ F)) as (C1 & C2 & C3 & C4 & _).
  assert (sinkPacket (xbar x') p = Ok false) as Esk.
  { unfold sinkPacket. rewrite Hp, (if_rs _ _ _ _ _ _ Fl), Ec, C3. cbn [andb orb negb]. rewrite andb_false_r. cbn [orb].
    unfold isCleanEviction. rewrite Ec. rewrite !bool_decide_eq_false_2 by (destruct (fr_cmd _ _ F) as [-> | [-> | [-> | ->]]]; done). done. }
  unfold perform_request. rewrite Esk, Ed. cbn [obind fst snd xbar caches below]. unfold forwardPacket. cbn [pointOfCoherency with_routing]. rewrite Ec, C2, C4, Hp. cbn [orb negb]. rewrite !orb_false_r.
  destruct (isRead c) eqn:Hr.
  - destruct (Hread eq_refl) as [Hpl Hid]. destruct (if_fresh _ _ _ _ _ _ Fl eq_refl) as [Ep _]. cbn [andb].
    assert (plain_packet p) as Hpp.
    { rewrite Ep. destruct sh; [|done]. destruct Hpl as [P1 (P2 & P3 & P4 & P5) P6 P7 P8 P9 P10 P11].
      constructor; try done. unfold cacheResponding, setHasSharers in *. rewrite !has_set, P2, P3, P4, P5. done. }
    destruct (send_serves gnu getLatency n lo dm (below x) p Hm0 Hpp) as (m' & Es & Hm'); [by rewrite (if_req _ _ _ _ _ _ Fl)|lia|lia|].
    assert (forall w, serve p w = (with_payload w p, w)) as Esv.
    { intros w. unfold serve. rewrite Ec, C4. rewrite bool_decide_eq_false_2; [done|]. by destruct (fr_cmd _ _ F) as [-> | [-> | [-> | ->]]]. }
    rewrite Esv in Es, Hm'. cbn [fst snd] in *. rewrite B1, B3 in Es, Hm'. rewrite splice_window in Hm' by lia.
    rewrite Hbl, Es. cbn [obind fst snd]. eexists _, _, r, m'. split; [done|]. split; [done|]. split; [done|]. intros _. apply Hclean; [done|].
    intros m He. destruct (m_dirty m) eqn:Hd; [|done]. assert (false = true) by (apply Hrs; eauto). done.
  - exists [], 0, r, (below x'). rewrite C3. cbn [ocheck obind]. unfold makeResponse. rewrite Ec, C3, C1. cbn [ocheck obind]. split; [|split; [done|split; [by rewrite Hbl|done]]].
    unfold respond. rewrite Ec. by destruct x'.
Qed.

(** The whole request. *)
Lemma request_answered : exists q lat x' sh rs, recv_body junk gnu packet_id ranges above quietly memory send (getId src) k0 x = Ok (q, lat, x') /\
  reply q sh rs /\ all_snooped (caches x) (caches x') /\ mem_holds n lo dm (below x') /\ same_bar x x' /\ phase true (snoopFilter (xbar x')) /\
  (sh = true <-> isInvalidate c = false /\ exists m, elsewhere x m) /\ (rs = true <-> exists m, elsewhere x m /\ m_dirty m = true).
Proof.
  destruct (snoop_request_run hi x B Sr) as (p & acc & x1 & sh & rs & Er & Sd). destruct (bo_point _ _ B) as [_ Hby].
  destruct (snoop_cmd_facts _ (fr_cmd _ _ F)) as (C1 & C2 & C3 & C4 & _ & C6 & _).
  assert (c <> WriteClean /\ isResponse c = false /\ isClean (responseCommand c) = false /\ responseCommand c <> WriteClean) as (N1 & N2 & N3 & N4)
    by (destruct (fr_cmd _ _ F) as [-> | [-> | [-> | ->]]]; by vm_compute).
  unfold recv_body. rewrite Hby, bool_decide_eq_false_2, Er by done. cbn [negb andb obind fst snd].
  pose proof Sd as [Fl Hacc [Hb Hbl] Hph Hca Hsh Hrs]. assert (bypassCaches (xbar x1) = false) as Hby1 by (rewrite (proj1 Hb); exact Hby).
  assert (forall q b, pk_cmd q = responseCommand c -> track_cmo packet_id q b = Ok b) as Hcmo.
  { intros q b Eq. unfold track_cmo. by rewrite Eq, N3, (bool_decide_eq_false_2 _ N4). }
  destruct rs.
  - destruct (perform_sunk p acc x1 sh Sd) as (r & Ep & Hro). rewrite Ep. cbn [obind fst snd]. rewrite (if_cmd _ _ _ _ _ _ Fl), N2, andb_false_r.
    set (x2 := mkX _ _ _).
    assert (match snoopFilter (xbar x2) with Some _ => Ok x2 | None => Ok x2 end = Ok x2) as -> by (by destruct (snoopFilter (xbar x2))).
    cbn [obind]. rewrite Hacc. cbn [negb ocheck obind fst snd]. rewrite Hcmo by done. cbn [obind].
    eexists _, _, _, sh, true. split; [done|]. split; [by apply reply_snooped|]. cbn [xbar caches below x2]. rewrite Hbl.
    split; [done|]. split; [done|]. split; [eapply same_bar_trans; [exact Hb|]; by apply (same_bar_routed _ _ (snoopFilter (xbar x1)) r)|]. done.
  - destruct (perform_below p acc x1 sh Sd) as (w & lat & r & mem & Ep & Hro & Hmem & Hw'). rewrite Ep. cbn [obind fst snd].
    set (q := respond _) in *. assert (pk_cmd q = responseCommand c) as Eq.
    { unfold q, respond. cbn [pk_cmd clear_flag with_flags with_cmd]. destruct (isRead c); cbn [pk_cmd with_payload with_bytes]; by rewrite (if_cmd _ _ _ _ _ _ Fl). }
    pose proof (reply_below p sh w lat Fl Hw') as Hre. fold q in Hre. set (x2 := mkX (with_routing r (xbar x1)) (caches x1) mem).
    change (bypassCaches (xbar x2)) with (bypassCaches (xbar x1)). rewrite Hby1, Eq, C6. cbn [negb andb].
    assert (exists f2, match snoopFilter (xbar x2) with
      | Some f => let? port := get_port (getId src) x2 in let? f := updateResponse q port f in Ok (mkX (with_filter (Some f) (xbar x2)) (caches x2) (below x2))
      | None => Ok x2 end = Ok (mkX (with_filter f2 (xbar x2)) (caches x1) mem) /\ phase true f2) as (f2 & -> & Hph2).
    { change (snoopFilter (xbar x2)) with (snoopFilter (xbar x1)). destruct (snoopFilter (xbar x1)) as [f1|] eqn:Ef1.
      - pose proof Sr as [(HsL & Hf & Hf0 & _) _ _ _]. unfold phase in *. destruct f0 as [f|]; [|done]. rewrite <- Hf0 in Hf. destruct Hf as (K & Hz & _).
        destruct (bo_ports _ _ (bar_same hi x x1 Hb B)) as (_ & _ & Hg). unfold get_port. change (xb_cpuSidePorts (xbar x2)) with (xb_cpuSidePorts (xbar x1)). rewrite (proj2 (Hg src HsL)). cbn [obind].
        destruct Hre as [R1 R2 [R3 _] (R4 & R5 & _) _ _ _ _].
        destruct (response_run L idx sec k Hk src a q f f1 K Hph HsL) as (f2 & E & Hgv).
        + split; [done|]. repeat (split; [done|]). done.
        + change (pk_req q) with (pk_req (with_payloadDelay lat q)). rewrite R2. apply F.
        + change (pk_req q) with (pk_req (with_payloadDelay lat q)). rewrite R2. apply F.
        + by rewrite Eq.
        + rewrite E. exists (Some f2). split; [done|]. by eapply given_weaken.
      - exists None. unfold phase in *. destruct f0; [done|]. split; [|done]. rewrite <- Ef1. unfold x2. by destruct (xbar x1). }
    cbn [obind fst snd]. rewrite Hacc. cbn [obind fst snd]. rewrite Hcmo by done. cbn [obind]. eexists _, _, _, sh, false. split; [done|]. split; [exact Hre|].
    cbn [xbar caches below]. split; [done|]. split; [done|]. split; [eapply same_bar_trans; [exact Hb|]; by apply (same_bar_routed _ _ f2 r)|]. done.
Qed.
End Answer.
End Flight.
End XBar.
