(* ===== verification/XBarEvict.v ===== *)
(** Evictions at the coherent crossbar: what a cache sends down for a block it
    gives up reaches the memory, and the snoop filter forgets the holder. *)
From Stdlib Require Import ZArith Lia Bool.
From stdpp Require Import base numbers gmap list.
From S2P Require Import Prelude ReplBase Bitfield AddrRange Indexing CacheBlk Partition Tags TagsInv TagsOps.
From S2P Require Import Bytes MemRequest MemPacket Clocked AbstractMem Serve ClassicCache ClassicOps.
From S2P Require Import ClassicTotal ClassicAccess ClassicSnoop BaseXBar SnoopFilter CoherentXBar ClassicServe Coupled AtomicRuns AtomicSends Transparent.
From S2P Require Import SnoopRuns FilterRuns XBarRuns.
Local Open Scope Z_scope.

Section Evict.
Context {P D I : Type} {RP : ReplacementPolicy P D} {RPL : ReplacementPolicyLaws P D}
  {IP : IndexingPolicy I} {IPL : IndexingLaws I} {SP : ServingPolicy P D}.
Implicit Types s : cc_sys P D I.
Context (junk : Z) (gnu : bool) (packet_id : Packet -> Z) (getLatency : AbstractMemory -> Z)
  (ranges : Z -> list AddrRange) (above : Z -> Packet -> Packet).
Context (n lo : Z) (sec : bool) (k : Z) (Hk : 2 <= k < 31).
#[local] Abbreviation X := (xsys P D I AbstractMemory).
#[local] Abbreviation bs := (2 ^ k).
#[local] Abbreviation quietly := (fun _ : Z => false).
#[local] Abbreviation memory := (fun _ : Z => mem_send gnu getLatency).
Context (src : Port) (L : list Port) (idx : Z -> Z) (send : Z -> Packet -> X -> outcome (Packet * Z * X)).
Implicit Types x : X.
#[local] Abbreviation member a df := (member gnu ranges lo sec k a df).

(** The packet of the eviction, perhaps with the mark that the block is cached
    elsewhere. *)
Definition marked (p p' : Packet) : Prop := p' = p \/ p' = setBlockCached p.

Lemma marked_flag p p' m : marked p p' -> Z.land BLOCK_CACHED m = 0 -> has_flag m p' = has_flag m p.
Proof. intros [-> | ->] M; [done|]. unfold setBlockCached. by rewrite has_set, M, orb_false_r. Qed.

Lemma marked_same p p' : marked p p' -> pk_cmd p' = pk_cmd p /\ pk_req p' = pk_req p /\ pk_addr p' = pk_addr p /\ pk_secure p' = pk_secure p /\
  pk_size p' = pk_size p /\ pk_data p' = pk_data p.
Proof. by intros [-> | ->]. Qed.

Lemma marked_evict p p' c a d : marked p p' -> evict_packet p c a sec d -> evict_packet p' c a sec d.
Proof.
  intros M [E1 E2 E3 E4 (F1 & F2 & F3) E6]. destruct (marked_same p p' M) as (Q1 & Q2 & Q3 & Q4 & Q5 & _).
  unfold cacheResponding in *. constructor; rewrite ?Q1, ?Q2, ?Q3, ?Q4, ?Q5; try done. unfold cacheResponding. by rewrite !(marked_flag p p').
Qed.

Lemma marked_down p p' c a d : marked p p' -> down_packet p c a sec d -> down_packet p' c a sec d.
Proof.
  intros M [E1 E2 E3 E4]. destruct (marked_same p p' M) as (Q1 & Q2 & Q3 & Q4 & Q5 & Q6).
  constructor; rewrite ?Q2, ?Q6, ?(marked_flag p p') by done; try done. by eapply marked_evict.
Qed.

(** The snoops of an eviction change no cache. *)
Lemma evict_loop l : forall a df p0 p x, (forall q, q ∈ l -> getId q <> getId src -> exists s, caches x !! getId q = Some s /\ member a df (getId q) s) ->
  marked p0 p -> for_block sec bs a p -> isEviction (pk_cmd p) = true -> isResponse (pk_cmd p) = false -> 0 <= a < 2 ^ 64 -> a mod bs = 0 -> getId src <> InvalidPortID ->
  exists p', forward_loop junk gnu ranges above quietly send (pk_cmd p) (getId src) InvalidPortID l (None, 0) p x = Ok (p', (None, 0), x) /\ marked p0 p'.
Proof.
  induction l as [|q l IH]; intros a df p0 p x Hmem M Hb Hev Hnr Ha Hm Hs; [by exists p|]. cbn [forward_loop].
  replace (getId src =? InvalidPortID) with false by lia. cbn [negb andb].
  destruct (Z.eqb_spec (getId q) (getId src)) as [Eq|Eq]; [by apply (IH a df); [intros q' Hq'; apply Hmem; right|..]|].
  destruct (Hmem q ltac:(by left) Eq) as (s & Hcs & Hl & Hz & Hr).
  assert (exists p1 lat, sendAtomicSnoop junk gnu ranges above quietly send q p x = Ok (p1, lat, x) /\ marked p0 p1 /\ for_block sec bs a p1 /\ pk_cmd p1 = pk_cmd p)
    as (p1 & lat & E & M1 & Hb1 & Ec1).
  { unfold sendAtomicSnoop. rewrite Hcs. cbn [oget obind]. set (y := mkX _ _ _). rewrite <- Hz in Hb, Hm.
    destruct (snoop_evict junk lo sec gnu (send (getId q)) (above (getId q)) df s a p (ranges (getId q)) y Hl Hb Ha Hm Hr Hev) as (lat & E). rewrite E.
    cbn [obind fst snd]. eexists _, lat. split; [unfold y; cbn [xbar caches below]; rewrite insert_delete_eq, insert_id by done; by destruct x|].
    rewrite Hz in Hb. destruct (copy sec s a); [|done]. split; [|split; [|done]].
    - right. destruct M as [-> | ->]; [done|]. apply set_set.
    - destruct Hb as [[V1 V2] B1 B2 B3 B4 B5]. constructor; try done. unfold setBlockCached. by rewrite !has_set, V1, V2. }
  rewrite E. cbn [obind fst snd]. rewrite Ec1, Hnr. cbn [negb]. rewrite <- Ec1. apply (IH a df); rewrite ?Ec1; try done. intros q' Hq'. apply Hmem. by right.
Qed.

(** The filter after the eviction of the line [a]. *)
Definition forgot a (f f' : option SnoopFilter) : Prop :=
  match f, f' with
  | None, None => True
  | Some f, Some f' => same_ports f f' /\ quiet f' /\ forall line i, 0 <= i < SNOOP_MASK_SIZE ->
      held f' line i = held f line i && negb (bool_decide (line = line_key sec a) && bool_decide (i = idx (getId src)))
  | _, _ => False
  end.

Section Run.
Context (hi : Z) (dm df : list Z) x (a : Z) (c : Command) (p : Packet) (d : list Z).
Context (B : bar_ok lo L hi (xbar x)) (HsL : src ∈ L) (Hf : filter_ok k L idx (snoopFilter (xbar x))) (Hm0 : mem_holds n lo dm (below x)) (Hn : 0 < n).
Context (Hcs : forall i, is_Some (caches x !! i) <-> i ∈ getId <$> L /\ i <> getId src) (Hmem : forall i s, caches x !! i = Some s -> member a df i s).
Context (Ha : 0 <= a < 2 ^ 64) (Hm : a mod bs = 0) (Hrng : lo <= a /\ a + bs <= hi /\ hi = lo + vsize dm).
Context (Hev : evict_packet p c a sec bs) (Hc : c = WritebackDirty \/ c = WritebackClean \/ c = CleanEvict) (Hbc : isBlockCached p = false).
Context (Hd : c = WritebackDirty -> down_packet p c a sec d /\ vsize d = bs).
Context (Hh : forall f, snoopFilter (xbar x) = Some f -> held f (line_key sec a) (idx (getId src)) = true).

Lemma evict_facts : isRequest c = true /\ isClean c = false /\ isEviction c = true /\ isResponse c = false /\ needsResponse c = false /\ fromCache c = true /\
  isRead c = false /\ c <> WriteClean.
Proof. by destruct Hc as [-> | [-> | ->]]. Qed.

Lemma evict_uncached : isUncacheable (pk_req p) = false /\ isToPOC (pk_req p) = false /\ isToPOU (pk_req p) = false.
Proof. unfold isUncacheable, isToPOC, isToPOU. rewrite (ev_req _ _ _ _ _ Hev). by destruct sec. Qed.

Lemma evict_block : for_block sec bs a p.
Proof.
  destruct Hev as [E1 E2 E3 E4 (F1 & F2 & _) _]. destruct evict_facts as (C1 & C2 & _). destruct evict_uncached as (U & _).
  constructor; rewrite ?E1; done.
Qed.

(** The snoops, or the filter instead. *)
Lemma evict_snoops : exists p' lat x', snoop_request junk gnu ranges above quietly send (getId src) p x = Ok (p', (None, lat), x') /\ marked p p' /\
  caches x' = caches x /\ below x' = below x /\ same_bar x x' /\ forgot a (snoopFilter (xbar x)) (snoopFilter (xbar x')).
Proof.
  destruct evict_facts as (C1 & C2 & C3 & C4 & C5 & C6 & _). destruct evict_uncached as (U & _). pose proof evict_block as Hb.
  destruct Hev as [E1 E2 E3 E4 (F1 & F2 & F3) _]. destruct (bo_ports _ _ _ _ B) as (Hsp & Hnd & Hg). destruct (bo_point _ _ _ _ B) as [_ Hby].
  unfold snoop_request. destruct (snoopFilter (xbar x)) as [f|] eqn:Ef.
  - destruct Hf as (K & Hz & Hq). unfold get_port. rewrite (proj2 (Hg src HsL)). cbn [obind].
    assert (for_line sec k f a p) as Hln by (repeat (split; [done|]); done).
    destruct (evict_run L idx sec k Hk src a p f K Hq HsL Hln) as (dests & f1 & f2 & El & Efin & Hsm & Hq2 & Hheld); rewrite ?E1; try done; [by apply Hh|].
    rewrite El. cbn [obind fst snd]. unfold getAddr. rewrite F1, E2. cbn [ocheck obind]. rewrite E3, Efin. cbn [obind]. rewrite C3.
    eexists _, _, _. split; [done|]. split; [destruct dests; [by left|by right]|]. split_and!; try done. by eapply same_bar_filter.
  - rewrite Hsp. unfold forwardAtomic. rewrite Hby. cbn [negb ocheck obind].
    destruct (evict_loop L a df p p x) as (p' & E & M); rewrite ?E1; try done.
    + intros q Hq Hne. destruct (proj2 (Hcs (getId q))) as [s Hs]; [split; [by apply list_elem_of_fmap_2|done]|]. exists s. auto.
    + by left.
    + by apply Hg.
    + rewrite E1 in E. rewrite E. exists p', 0, x. split_and!; try done; [by apply same_bar_refl|by rewrite Ef].
Qed.

(** The memory afterwards. *)
Definition evicted : list Z := if bool_decide (c = WritebackDirty) then splice dm (Z.to_nat (a - lo)) d else dm.

Lemma evict_performed p' x' : marked p p' -> below x' = below x -> same_bar x x' ->
  exists q lat r mem, perform_request gnu memory (isDestination (xbar x) p) p' x' = Ok (q, lat, mkX (with_routing r (xbar x')) (caches x') mem) /\
    reroutes (routing (xbar x')) r /\ mem_holds n lo evicted mem /\ pk_cmd q = c.
Proof.
  intros M Ebl Hb. pose proof (marked_evict _ _ _ _ _ M Hev) as Hev'. destruct evict_facts as (C1 & C2 & C3 & C4 & C5 & C6 & C7 & C8).
  destruct evict_uncached as (_ & U1 & U2). assert (0 < bs) as Hbs by (apply Z.pow_pos_nonneg; lia).
  pose proof (bar_same lo L hi x x' Hb B) as B'. destruct (bo_point _ _ _ _ B') as [Hp _].
  destruct Hev' as [E1 E2 E3 E4 (F1 & F2 & F3) _]. destruct (bar_finds gnu lo k Hk L hi _ p' B' F1 F2 ltac:(lia) ltac:(lia) ltac:(lia)) as (dd & r & Ed & Hro).
  assert (forwardPacket (xbar x') p' = isWrite c) as Efw by (unfold forwardPacket; rewrite E1, C2, C7, Hp; by rewrite orb_false_r).
  unfold perform_request. rewrite Ed. cbn [obind fst snd xbar caches below].
  change (forwardPacket (with_routing r (xbar x')) p') with (forwardPacket (xbar x') p'). unfold evicted, isDestination. rewrite Efw, U1, U2, andb_false_r. cbn [andb orb].
  case_bool_decide as Ec.
  - destruct (Hd Ec) as [Hdp Hvd]. assert (sinkPacket (xbar x') p' = Ok false) as -> by (unfold sinkPacket, isCleanEviction; by rewrite Hp, F3, E1, Ec).
    destruct (send_writeback gnu getLatency n lo sec dm (below x) p' a d Hm0) as (m' & Es & Hm'); [rewrite <- Ec; by eapply marked_down|lia|lia|lia|lia|].
    cbn [obind]. rewrite Ec. change (isWrite WritebackDirty) with true. cbn [obind]. rewrite Ebl, Es. cbn [obind fst snd].
    exists p', (getLatency (below x)), r, m'. by rewrite E1.
  - assert (c = WritebackClean \/ c = CleanEvict) as Hcl by (destruct Hc as [?|[?|?]]; [done|auto|auto]).
    destruct (sinkPacket (xbar x') p') as [[|]|] eqn:Esk; cbn [obind].
    + exists p', 0, r, (below x'). by rewrite Ebl.
    + destruct Hcl as [-> | ->].
      * change (isWrite WritebackClean) with true. rewrite Ebl, (send_clean gnu getLatency (below x) p') by (rewrite ?E1; auto). cbn [obind fst snd].
        by exists p', (getLatency (below x)), r, (below x).
      * exfalso. unfold sinkPacket in Esk. by rewrite Hp, F3, E1 in Esk.
    + exfalso. unfold sinkPacket in Esk. rewrite F3 in Esk. by destruct (_ || _) in Esk.
Qed.

(** The whole eviction. *)
Lemma eviction_landed : exists q lat x', recv_body junk gnu packet_id ranges above quietly memory send (getId src) p x = Ok (q, lat, x') /\
  caches x' = caches x /\ mem_holds n lo evicted (below x') /\ same_bar x x' /\ forgot a (snoopFilter (xbar x)) (snoopFilter (xbar x')).
Proof.
  destruct evict_snoops as (p1 & lat & x1 & Er & M & Ec & Ebl & Hb & Hfg). destruct evict_facts as (C1 & C2 & C3 & C4 & C5 & C6 & C7 & C8).
  destruct (bo_point _ _ _ _ B) as [_ Hby]. pose proof (ev_cmd _ _ _ _ _ Hev) as E1. assert (bypassCaches (xbar x1) = false) as Hby1 by (rewrite (proj1 Hb); exact Hby).
  destruct (evict_performed p1 x1 M Ebl Hb) as (q & lat' & r & mem & Ep & Hro & Hmem' & Eq).
  unfold recv_body. rewrite Hby, E1, bool_decide_eq_false_2, Er by done. cbn [negb andb obind fst snd]. rewrite Ep. cbn [obind fst snd]. set (x2 := mkX _ _ _).
  rewrite Eq, C4, andb_false_r. assert (match snoopFilter (xbar x2) with Some _ => Ok x2 | None => Ok x2 end = Ok x2) as -> by (by destruct (snoopFilter (xbar x2))).
  cbn [obind fst snd]. assert (track_cmo packet_id q (xbar x2) = Ok (xbar x2)) as Et.
  { unfold track_cmo. by rewrite Eq, C2, (bool_decide_eq_false_2 _ C8). }
  rewrite Et. cbn [obind]. eexists _, _, _. split; [done|]. split_and!; try done. eapply same_bar_trans; [exact Hb|].
  by apply (same_bar_routed _ _ (snoopFilter (xbar x1)) r).
Qed.
End Run.
End Evict.
