(* ===== verification/FunctionalRuns.v ===== *)
(** The functional side of a classic cache over a memory: functional accesses see
    and change the one memory the two are, and writing everything back leaves
    it in the memory below. *)
From Stdlib Require Import ZArith Lia Bool.
From stdpp Require Import base numbers gmap list.
From S2P Require Import Prelude ReplBase Bitfield AddrRange Indexing CacheBlk Partition Tags TagsInv TagsOps Bytes MemRequest MemPacket Clocked.
From S2P Require Import AbstractMem Serve ClassicCache ClassicOps ClassicTotal ClassicAccess ClassicFunctional ClassicServe.
From S2P Require Import Coupled AtomicRuns AtomicSends Transparent.
Local Open Scope Z_scope.

(** A request of a functional access: it reads or writes all its bytes. *)
Definition functional_packet (p : Packet) : Prop :=
  (pk_cmd p = ReadReq \/ pk_cmd p = WriteReq) /\ isMaskedWrite p = false.

Lemma serve_read p w : pk_cmd p = ReadReq -> serve p w = (with_payload w p, w).
Proof. intros Hc. unfold serve. by rewrite Hc. Qed.

Lemma serve_write p w : pk_cmd p = WriteReq -> isMaskedWrite p = false -> serve p w = (p, pk_data p).
Proof. intros Hc Hk. unfold serve. by rewrite Hk, Hc. Qed.

(** ** The memory *)
Section Memory.
Context (gnu : bool) (n lo : Z).

Lemma functional_range d m p : mem_holds n lo d m -> plain_packet p -> lo <= pk_addr p -> pk_addr p + pk_size p <= lo + vsize d ->
  AbstractMem.functionalAccess gnu p m =
    (if isRead (pk_cmd p) then let? p := setData d (pk_addr p - lo) p in let? p := makeResponse p in Ok (p, m)
     else if isWrite (pk_cmd p) then
       let? m := (let? d := writeData d (pk_addr p - lo) p in Ok (with_pmem (Some d) m)) in let? p := makeResponse p in Ok (p, m)
     else Fault Panic).
Proof.
  intros Hm Hp H1 H2. destruct (pp_flags _ Hp) as (F1 & F2 & _). destruct (mh_bounds _ _ _ _ Hm) as (B1 & B2 & B3). pose proof (pp_size _ Hp).
  unfold AbstractMem.functionalAccess, getAddrRange, getAddr, pk_getSize. rewrite F1, F2. cbn [ocheck obind].
  rewrite (subset_Ok gnu n lo d m) by (done || lia). cbn [ocheck obind]. unfold toHostAddr. rewrite (mh_range _ _ _ _ Hm). cbn [_start plain_range].
  by rewrite uwrap_small, (mh_pmem _ _ _ _ Hm) by lia.
Qed.

Lemma memory_read d m p : mem_holds n lo d m -> plain_packet p -> pk_cmd p = ReadReq -> lo <= pk_addr p ->
  pk_addr p + pk_size p <= lo + vsize d ->
  AbstractMem.functionalAccess gnu p m = Ok (respond (with_payload (window d (pk_addr p - lo) (pk_size p)) p), m).
Proof.
  intros Hm Hp Hc H1 H2. rewrite (functional_range d m p), Hc by done.
  change (isRead ReadReq) with true. cbv iota.
  rewrite setData_Ok; [|done|unfold isMaskedWrite; by rewrite Hc|lia|lia]. cbn [obind].
  rewrite makeResponse_Ok by (cbn; by rewrite Hc). done.
Qed.

Lemma memory_write d m p : mem_holds n lo d m -> plain_packet p -> pk_cmd p = WriteReq -> isMaskedWrite p = false -> lo <= pk_addr p ->
  pk_addr p + pk_size p <= lo + vsize d ->
  exists m', AbstractMem.functionalAccess gnu p m = Ok (respond p, m') /\
    mem_holds n lo (splice d (Z.to_nat (pk_addr p - lo)) (pk_data p)) m'.
Proof.
  intros Hm Hp Hc Hk H1 H2. rewrite (functional_range d m p), Hc by done.
  change (isRead WriteReq) with false. change (isWrite WriteReq) with true. cbv iota.
  rewrite writeData_Ok by (done || lia). rewrite Hk. cbn [obind]. rewrite makeResponse_Ok by (by rewrite Hc). cbn [obind].
  eexists. split; [done|]. eapply with_pmem_holds; [done|]. pose proof (pp_data _ Hp). unfold vsize in *. rewrite splice_length; lia.
Qed.
End Memory.

(** ** A packet within a block *)
Lemma block_read p a k d : plain_packet p -> pk_cmd p = ReadReq -> bytesValid p = [] -> 0 <= a -> a + k < 2 ^ 64 -> vsize d = k ->
  a <= pk_addr p -> pk_addr p + pk_size p <= a + k ->
  exists v, trySatisfyFunctional a (pk_secure p) k (Some d) p = Ok (with_bytes (window d (pk_addr p - a) (pk_size p)) v p, Some d, true).
Proof.
  intros Hp Hc Hv Ha Hk Hd H1 H2. destruct (pp_flags _ Hp) as (F1 & F2 & F3 & _). pose proof (pp_size _ Hp). pose proof (pp_data _ Hp) as Hz.
  rewrite functional_read_run; try done; try lia; try (by rewrite Hc); try (unfold isMaskedWrite; by rewrite Hc).
  2:{ unfold old_valid, init_valid. rewrite Hv. unfold vsize. rewrite length_replicate. lia. }
  unfold common, func_off, val_off. rewrite (Z.min_r (a + k)), (Z.max_r a), (Z.max_r 0 (pk_addr p - a)), Z.max_l by lia.
  change (Z.to_nat 0) with 0%nat. replace (pk_addr p + pk_size p - pk_addr p) with (pk_size p) by lia. cbn [take forallb].
  rewrite (drop_ge (old_valid p)). 2:{ unfold old_valid, init_valid. rewrite Hv. rewrite length_replicate. lia. }
  eexists. rewrite splice_all; [reflexivity|]. pose proof (window_length d (pk_addr p - a) (pk_size p) ltac:(lia) ltac:(lia) ltac:(lia)) as L.
  unfold window, vsize in *. lia.
Qed.

Lemma block_write p a k d : plain_packet p -> pk_cmd p = WriteReq -> 0 <= a -> a + k < 2 ^ 64 -> vsize d = k ->
  a <= pk_addr p -> pk_addr p + pk_size p <= a + k ->
  trySatisfyFunctional a (pk_secure p) k (Some d) p = Ok (p, Some (splice d (Z.to_nat (pk_addr p - a)) (pk_data p)), false).
Proof.
  intros Hp Hc Ha Hk Hd H1 H2. destruct (pp_flags _ Hp) as (F1 & F2 & F3 & _). pose proof (pp_size _ Hp). pose proof (pp_data _ Hp) as Hz.
  unfold trySatisfyFunctional, getAddr, pk_getSize, getConstPtr. rewrite F1, F2, F3, Hc. cbn [ocheck obind]. rewrite eqb_reflx. cbn [negb orb].
  rewrite (uwrap_small 64 (a + k)), (uwrap_small 64 (pk_addr p + pk_size p)) by lia.
  rewrite (uwrap_small 64 (a + k - 1)), (uwrap_small 64 (pk_addr p + pk_size p - 1)) by lia.
  replace (a + k - 1 <? pk_addr p) with false by lia. replace (pk_addr p + pk_size p - 1 <? a) with false by lia. cbn [orb].
  change (isPrint WriteReq) with false. change (isRead WriteReq) with false. change (isWrite WriteReq) with true. cbv iota.
  replace (if a <? pk_addr p then u64 (pk_addr p - a) else 0) with (pk_addr p - a)
    by (destruct (Z.ltb_spec a (pk_addr p)); rewrite ?uwrap_small; lia).
  replace (pk_addr p <? a) with false by lia.
  replace (u64 (Z.min (a + k - 1) (pk_addr p + pk_size p - 1) + 1 - Z.max a (pk_addr p))) with (pk_size p) by (rewrite uwrap_small; lia).
  rewrite <- Hz, read_bytes_all. cbn [obind]. rewrite write_bytes_Ok by lia. done.
Qed.

(** ** Visits *)
Lemma visit_each_run {St} k (visitor : loc -> M St unit) (Inv : Z -> St -> Prop) s : 0 <= k -> Inv 0 s ->
  (forall i s, 0 <= i < k -> Inv i s -> exists s', visitor (blk_loc i) s = Ok (tt, s') /\ Inv (i + 1) s') ->
  exists s', visit_each k visitor s = Ok (tt, s') /\ Inv k s'.
Proof.
  intros Hk H0 Hstep. unfold visit_each, visit_blks.
  set (body := fun (_ : bool) (i : Z) => let* r := (do* visitor (blk_loc i) ;; ret false) in ret (if r : bool then Break true else Continue false)).
  assert (forall c i s, i + Z.of_nat c = k -> 0 <= i -> Inv i s ->
    exists s', foreach (seqZ i (Z.of_nat c)) body false s = Ok (false, s') /\ Inv k s') as Hloop.
  { induction c as [|c IH]; intros i s1 Hi H1 HI; [exists s1; split; [done|]; by replace k with i by lia|].
    rewrite seqZ_cons by lia. cbn [foreach]. destruct (Hstep i s1 ltac:(lia) HI) as (s2 & E & HI2).
    destruct (IH (Z.succ i) s2) as (s3 & E3 & HI3); [lia|lia|done|]. exists s3. split; [|done].
    rewrite (bind_Ok _ _ s1 (Continue false) s2).
    2:{ unfold body. rewrite (bind_Ok _ _ s1 false s2); [done|]. by rewrite (bind_Ok _ _ _ _ _ E). }
    by replace (Z.pred (Z.of_nat (S c))) with (Z.of_nat c) by lia. }
  destruct (Hloop (Z.to_nat k) 0 s) as (s' & E & HI); [lia|lia|done|]. exists s'. split; [|done].
  rewrite Z2Nat.id in E by lia. by rewrite (bind_Ok _ _ _ _ _ E).
Qed.

Lemma visit_blks_none {St} k (visitor : loc -> M St bool) s : (forall i, 0 <= i < k -> visitor (blk_loc i) s = Ok (false, s)) ->
  visit_blks k visitor s = Ok (false, s).
Proof.
  intros H. unfold visit_blks. rewrite (foreach_read _ _ (fun _ _ => Continue false)).
  - by induction (seqZ 0 k).
  - intros a i Hi%elem_of_seqZ. rewrite (bind_Ok _ _ s false s); [done|]. apply H. lia.
Qed.

(** Two buffers with the same blocks. *)
Lemma windows_eq k d1 d2 : 0 < k -> vsize d1 = vsize d2 -> vsize d1 mod k = 0 ->
  (forall x, 0 <= x -> x + k <= vsize d1 -> x mod k = 0 -> window d1 x k = window d2 x k) -> d1 = d2.
Proof.
  intros Hk Ev Hm H. apply list_eq. intros i. unfold vsize in *. destruct (decide (i < length d1)%nat) as [Hi|Hi].
  2:{ rewrite !lookup_ge_None_2 by lia. done. }
  set (x := k * (Z.of_nat i / k)). pose proof (Z.div_mod (Z.of_nat i) k ltac:(lia)) as D. pose proof (Z.mod_pos_bound (Z.of_nat i) k Hk).
  assert (0 <= Z.of_nat i / k) by (apply Z.div_pos; lia). pose proof (Z.div_mod (Z.of_nat (length d1)) k ltac:(lia)) as D1.
  assert (0 <= x) by (unfold x; nia). assert (x + k <= Z.of_nat (length d1)).
  { unfold x. assert (Z.of_nat i / k < Z.of_nat (length d1) / k) by nia. nia. }
  assert (x mod k = 0) as Hx by (unfold x; rewrite Z.mul_comm; apply Z.mod_mul; lia).
  specialize (H x). pose proof (f_equal (fun l => l !! Z.to_nat (Z.of_nat i mod k)) (H ltac:(lia) ltac:(lia) Hx)) as E. cbn beta in E.
  rewrite !window_lookup in E by lia. by replace (Z.to_nat x + Z.to_nat (Z.of_nat i mod k))%nat with i in E by (unfold x in *; lia).
Qed.

(** ** The cache *)
Lemma cleaned_usable al b : usable al b -> usable al (clearCoherenceBits DirtyBit b) /\ isSet DirtyBit (clearCoherenceBits DirtyBit b) = false.
Proof.
  intros (R1 & R2 & R3 & R4). unfold usable, isSet in *. cbn [whenReady lockList coherence clearCoherenceBits with_state].
  change (isValid (clearCoherenceBits DirtyBit b)) with (isValid b). rewrite <- !Z.land_assoc.
  change (Z.land (u32 (Z.lnot DirtyBit)) WritableBit) with WritableBit. change (Z.land (u32 (Z.lnot DirtyBit)) ReadableBit) with ReadableBit.
  change (Z.land (u32 (Z.lnot DirtyBit)) DirtyBit) with 0. rewrite Z.land_0_r. split; [done|]. by rewrite andb_false_r.
Qed.

Section Runs.
Context {P D I : Type} {RP : ReplacementPolicy P D} {RPL : ReplacementPolicyLaws P D}
  {IP : IndexingPolicy I} {IPL : IndexingLaws I} {SP : ServingPolicy P D}.
Implicit Types s : cc_sys P D I.
Context (gnu : bool) (n lo : Z) (sec : bool).
#[local] Abbreviation entry s e := (entries (wld (tsys s)) !! e).
#[local] Abbreviation key s o := (key_of (indexingPolicy (tags (tsys s))) o).
#[local] Abbreviation coupled := (coupled lo sec).
#[local] Abbreviation holds := (mem_holds n lo).
#[local] Abbreviation T := (cc_sys P D I * AbstractMemory)%type.
#[local] Abbreviation visitor := (writebackVisitor (P := P) (D := D) (I := I) (AbstractMem.functionalAccess gnu)).

(** The bytes of one cached block change below. *)
Lemma coupled_open s dm dm' df a : coupled None s dm df -> is_Some (contents (tsys s) !! (a, sec)) -> vsize dm' = vsize dm ->
  (forall a', lo <= a' -> a' + blk_size s <= lo + vsize dm -> a' mod blk_size s = 0 -> a' <> a ->
    window dm' (a' - lo) (blk_size s) = window dm (a' - lo) (blk_size s)) -> coupled (Some a) s dm' df.
Proof.
  intros [S1 S2 S3 S4 S5 S6 S7 S8 S9] [e Hc] Ev Hw. constructor; rewrite ?Ev; try done.
  - intros e' o' a' sec' He Hk. destruct (S6 e' o' a' sec' He Hk) as (-> & B1 & B2 & B3 & B4). split_and!; try done.
    intros Hne. destruct B4 as [B4 B5]; [done|]. split; [done|]. intros Hd. destruct (key_block _ _ _ _ _ S1 He Hk) as (Ka & _).
    rewrite Hw; [auto|done|done|done|congruence].
  - intros a' B1 B2 B3 Hn. rewrite Hw; [by apply S9|done|done|done|congruence].
Qed.

Lemma blk_request_mask now a size id b r : blk_request now a size id b = Ok r -> isMasked r = false.
Proof.
  assert (existsb negb (replicate (Z.to_nat size) true) = false) as E by (by induction (Z.to_nat size)).
  unfold blk_request. destruct (_secure b); [|by intros [= <-]].
  unfold setFlags. destruct (ocheck _ _); cbn [obind]; [|done]. by intros [= <-].
Qed.

(** The packet that writes a block back. *)
Lemma visitor_packet s b a d : 0 <= a -> vsize d = blk_size s -> 0 < blk_size s < 2 ^ 31 -> exists k,
  (let? r := blk_request (now s) a (blk_size s) funcRequestorId b in let? k := new_Packet r WriteReq in dataStatic d k) = Ok k /\
  plain_packet k /\ pk_cmd k = WriteReq /\ pk_addr k = a /\ pk_size k = blk_size s /\ pk_data k = d /\ isMaskedWrite k = false.
Proof.
  intros Ha Hd Hz. destruct (blk_request_Ok (now s) a (blk_size s) funcRequestorId b) as (r & Er & E1 & E2 & E3 & E4 & E5).
  assert (isMasked r = false) as E6.
  { by eapply blk_request_mask. }
  rewrite Er. cbn [obind].
  rewrite new_Packet_Ok; [|done|rewrite E5; destruct (_secure b); auto]. cbn [obind dataStatic]. eexists. split; [done|].
  assert (isMaskedWrite (set_flag STATIC_DATA (with_bytes d [] (mkPkt 0x300 WriteReq r [] (rq_paddr r) (rq_isSecure r) (rq_size r) [] 0 0 0))) = false) as Em.
  { unfold isMaskedWrite. cbn. by rewrite E6. }
  split; [|by cbn; rewrite E1, E2].
  constructor; cbn; rewrite ?E1, ?E2; try done; [congruence|]. intros _. unfold isInstFetch. rewrite E5. by destruct (_secure b).
Qed.
(** Writing a dirty block back. *)
Lemma visit_dirty s dm df m e o : coupled None s dm df -> holds dm m -> entry s e = Some o -> isSet DirtyBit (ext o) = true ->
  exists s' m' dm', visitor e (s, m) = Ok (tt, (s', m')) /\ coupled None s' dm' df /\ holds dm' m' /\ vsize dm' = vsize dm /\
    stepped s s' e o (clearCoherenceBits DirtyBit (ext o)) (bytes_of s (ext o)).
Proof.
  intros H Hm He Hd. pose proof (cp_sound _ _ _ _ _ _ H) as Hs. assert (isValid (ext o) = true) as V by (unfold isSet in Hd; by destruct (isValid (ext o))).
  destruct (key s o) as [[a sec']|] eqn:Hk; [|by rewrite (key_None _ _ _ (proj1 Hs) He Hk) in V].
  destruct (cp_block _ _ _ _ _ _ H e o a sec' He Hk) as (-> & B1 & B2 & Hr & [B3 _]); [done|].
  destruct (key_block _ _ _ _ _ Hs He Hk) as (Ka & Kp & _ & Kc & Kv). destruct (cp_bounds _ _ _ _ _ _ H) as (L1 & _ & _ & _ & L5).
  destruct (coupled_line _ _ _ _ _ _ H) as (j & _ & _ & K3 & _). set (d := bytes_of s (ext o)) in *.
  destruct (visitor_packet s (ext o) a d ltac:(lia) Kv K3) as (k & Ek & Kpl & Kcm & Kad & Ksz & Kdt & Kms).
  destruct (memory_write gnu n lo dm m k Hm Kpl Kcm Kms) as (m' & Em & Hm'); [lia|lia|]. rewrite Kad, Kdt in Hm'.
  set (dm' := splice dm (Z.to_nat (a - lo)) d) in *.
  assert (vsize dm' = vsize dm) as Ev by (unfold dm', vsize in *; rewrite splice_length; lia).
  destruct (stepped_call e (fun b => Ok (clearCoherenceBits DirtyBit b)) s s o (ext o) _ d (stepped_refl e s o Hs He) eq_refl) as (s' & Ec & St);
    [done|done|by destruct (ac_blk _ _ (proj2 Hs) e o He)|done|].
  exists s', m', dm'. split_and!; try done.
  - unfold writebackVisitor. rewrite (bind_Ok _ _ _ _ _ (onC_Ok _ _ _ _ m (get_blk_Ok e s o He))), Hd, V. cbn [checkM].
    rewrite (bind_Ok _ _ (s, m) tt (s, m) eq_refl), (bind_Ok _ _ _ _ _ (onC_get s m)).
    rewrite (bind_Ok _ _ _ _ _ (onC_Ok _ _ _ _ m (cc_regenerate_Ok s e o a sec He Hk))).
    destruct (blk_request _ _ _ _ _) as [r|] eqn:Er; [|done]. rewrite (bind_Ok _ _ (s, m) r (s, m) eq_refl). cbn [obind] in Ek.
    destruct (new_Packet r WriteReq) as [k0|] eqn:E0; [|done]. rewrite (bind_Ok _ _ (s, m) k0 (s, m) eq_refl). cbn [obind] in Ek.
    rewrite (bind_Ok _ _ _ _ _ (onC_Ok _ _ _ _ m (proj1 (blk_bytes_run e s o (proj2 Hs) He)))). fold d. rewrite Ek.
    rewrite (bind_Ok _ _ (s, m) k (s, m) eq_refl). rewrite (bind_Ok (sendFunctional _ k) _ (s, m) (respond k) (s, m')).
    2:{ unfold sendFunctional. cbn [fst snd]. by rewrite Em. }
    by rewrite (onC_Ok _ _ _ _ m' Ec).
  - assert (forall a', lo <= a' -> a' + blk_size s <= lo + vsize dm -> a' mod blk_size s = 0 -> a' <> a ->
      window dm' (a' - lo) (blk_size s) = window dm (a' - lo) (blk_size s)) as Hw.
    { intros a' C1 C2 C3 C4. apply window_splice_out; [lia|lia|lia|]. destruct (aligned_apart (blk_size s) a' a Kp C3 Ka C4); lia. }
    destruct (cleaned_usable true (ext o) Hr) as [R1 R2].
    apply (coupled_update lo sec (Some a) s s' e o (clearCoherenceBits DirtyBit (ext o)) d a dm' df df); try done.
    + by apply (coupled_open s dm).
    + apply stepped_changed; [done|apply H|done].
    + apply St.
    + by right.
    + intros _. unfold dm'. rewrite <- Kv. apply window_splice_all; lia.
Qed.

Lemma blk_exists (st : tag_sys P D I) i : tags_inv st -> 0 <= i < numBlocks (tags st) -> is_Some (entries (wld st) !! blk_loc i).
Proof.
  intros Hi Hn. rewrite (ti_num _ Hi) in Hn. pose proof (ti_geometry _ Hi) as G. pose proof (ti_slot _ Hi) as Hslot.
  unfold home, blk_index in Hslot. set (w := assoc (geom st)) in *. set (ns := numSets (geom st)) in *.
  assert (0 < w) as Ha by (destruct G; unfold w; lia).
  pose proof (Z.div_mod i w ltac:(lia)). pose proof (Z.mod_pos_bound i w Ha).
  destruct (Hslot (i / w) (i mod w)) as [_ Hs]; [|done|].
  { split; [apply Z.div_pos; lia|]. apply Z.div_lt_upper_bound; lia. }
  by replace (i / w * w + i mod w) with i in Hs by lia.
Qed.

Lemma blk_place (st : tag_sys P D I) e o : tags_inv st -> entries (wld st) !! e = Some o -> exists i, 0 <= i < numBlocks (tags st) /\ e = blk_loc i.
Proof.
  intros Hi He. destruct (ti_blk _ Hi e o He) as [B1 B2 B3 _ _ _ _]. rewrite (ti_num _ Hi). unfold geom.
  eexists. split; [|exact B3]. unfold blk_index. nia.
Qed.

Lemma served_num s s' : sound s -> sound s' -> served s s' -> numBlocks (tags (tsys s')) = numBlocks (tags (tsys s)).
Proof.
  intros [Hi _] [Hi' _] (_ & _ & (_ & _ & E & _) & _). rewrite (ti_num _ Hi), (ti_num _ Hi'). unfold geom. by rewrite E.
Qed.

(** ** Writing everything back *)

(** With nothing dirty the memory holds everything. *)
Lemma all_clean s dm df : coupled None s dm df -> (forall e o, entry s e = Some o -> isSet DirtyBit (ext o) = false) -> dm = df.
Proof.
  intros H Hc. destruct (cp_bounds _ _ _ _ _ _ H) as (B1 & B2 & B3 & _ & B5). destruct (coupled_line _ _ _ _ _ _ H) as (j & _ & _ & K3 & _).
  apply (windows_eq (blk_size s)); [lia|done|done|]. intros x X1 X2 X3. set (a := lo + x). replace x with (a - lo) by (unfold a; lia).
  assert (a mod blk_size s = 0) as Ha by (unfold a; rewrite Z.add_mod, B2, X3 by lia; by rewrite Z.mod_0_l by lia).
  destruct (contents (tsys s) !! (a, sec)) as [e|] eqn:Ec.
  - apply contents_entry in Ec as (o & He & Hk); [|apply H]. destruct (cp_block _ _ _ _ _ _ H e o a sec He Hk) as (_ & _ & _ & _ & [W1 W2]); [done|].
    by rewrite W1, W2 by (by eapply Hc).
  - symmetry. apply (cp_rest _ _ _ _ _ _ H); try done; unfold a; lia.
Qed.

Lemma memWriteback_run s dm df m : coupled None s dm df -> holds dm m ->
  exists s' m', memWriteback (AbstractMem.functionalAccess gnu) (s, m) = Ok (tt, (s', m')) /\ coupled None s' df df /\ holds df m' /\
    served s s' /\ forall e o, entry s' e = Some o -> isSet DirtyBit (ext o) = false.
Proof.
  intros H Hm. set (k := numBlocks (tags (tsys s))).
  set (Inv := fun i (t : T) => exists dm', coupled None t.1 dm' df /\ holds dm' t.2 /\ vsize dm' = vsize dm /\ served s t.1 /\
    forall j o, 0 <= j < i -> entry t.1 (blk_loc j) = Some o -> isSet DirtyBit (ext o) = false).
  destruct (visit_each_run k visitor Inv (s, m)) as ([s' m'] & E & (dm' & H' & Hm' & Ev & Hs & Hc)).
  { unfold k. pose proof (ti_geometry _ (proj1 (cp_sound _ _ _ _ _ _ H))) as G. rewrite (ti_num _ (proj1 (cp_sound _ _ _ _ _ _ H))). destruct G. nia. }
  { exists dm. split_and!; try done. intros j o Hj. lia. }
  { intros i [s1 m1] Hi (dm1 & H1 & Hm1 & Ev1 & Hs1 & Hc1). cbn [fst snd] in *.
    pose proof (served_num s s1 (cp_sound _ _ _ _ _ _ H) (cp_sound _ _ _ _ _ _ H1) Hs1) as En.
    destruct (blk_exists (tsys s1) i (proj1 (cp_sound _ _ _ _ _ _ H1)) ltac:(rewrite En; done)) as [o Ho].
    destruct (isSet DirtyBit (ext o)) eqn:Hd.
    - destruct (visit_dirty s1 dm1 df m1 _ o H1 Hm1 Ho Hd) as (s2 & m2 & dm2 & E2 & H2 & Hm2 & Ev2 & St).
      exists (s2, m2). split; [done|]. exists dm2. cbn [fst snd]. split_and!; try done; [congruence|etrans; [exact Hs1|by eapply stepped_served]|].
      intros j o2 Hj Ho2. destruct (decide (blk_loc j = blk_loc i)) as [Ej|Ej].
      + rewrite Ej, (stepped_lookup _ _ _ _ _ _ St) in Ho2. injection Ho2 as <-. cbn [ext]. unfold isSet.
        change (isValid (clearCoherenceBits DirtyBit (ext o))) with (isValid (ext o)). cbn [coherence clearCoherenceBits with_state].
        rewrite <- Z.land_assoc. change (Z.land (u32 (Z.lnot DirtyBit)) DirtyBit) with 0. by rewrite Z.land_0_r, andb_false_r.
      + rewrite (th_entries _ _ _ _ _ (sd_tags _ _ _ _ _ _ St)), lookup_insert_ne in Ho2 by done. apply (Hc1 j); [|done].
        destruct (decide (j = i)) as [->|]; [done|lia].
    - exists (s1, m1). split.
      { unfold writebackVisitor. by rewrite (bind_Ok _ _ _ _ _ (onC_Ok _ _ _ _ m1 (get_blk_Ok _ s1 o Ho))), Hd. }
      exists dm1. split_and!; try done. cbn [fst]. intros j o2 Hj Ho2. destruct (decide (j = i)) as [->|]; [congruence|]. apply (Hc1 j); [lia|done]. }
  cbn [fst snd] in *. exists s', m'. assert (forall e o, entry s' e = Some o -> isSet DirtyBit (ext o) = false) as Hcl.
  { intros e o He. destruct (blk_place _ e o (proj1 (cp_sound _ _ _ _ _ _ H')) He) as (j & Hj & ->). apply (Hc j o); [|done].
    unfold k. by rewrite <- (served_num s s' (cp_sound _ _ _ _ _ _ H) (cp_sound _ _ _ _ _ _ H') Hs). }
  assert (dm' = df) as -> by (by eapply all_clean).
  by split_and!.
Qed.

Lemma isDirty_run s : sound s -> (forall e o, entry s e = Some o -> isSet DirtyBit (ext o) = false) -> isDirty s = Ok (false, s).
Proof.
  intros Hs Hd. unfold isDirty, onT, anyBlk. rewrite (bind_Ok getS _ (tsys s) (tsys s) (tsys s) eq_refl), visit_blks_none; [by destruct s|].
  intros i Hi. destruct (blk_exists (tsys s) i (proj1 Hs) Hi) as [o Ho]. by rewrite (bind_Ok _ _ _ _ _ (read_blk_Ok (tsys s) _ o Ho)), (Hd _ o Ho).
Qed.

(** ** Invalidating everything *)
Lemma invalidate_one s dm df e o : coupled None s dm df -> entry s e = Some o -> isSet DirtyBit (ext o) = false ->
  exists s', invalidateVisitor e s = Ok (tt, s') /\ coupled None s' dm df /\ writebacks s' = writebacks s /\ cfg s' = cfg s /\ clk s' = clk s /\
    params_same (tags (tsys s)) (tags (tsys s')) /\ exists b, entries (wld (tsys s')) = <[e := mkObject (base o) b]> (entries (wld (tsys s))) /\
      isValid b = false.
Proof.
  intros H He Hd. pose proof (cp_sound _ _ _ _ _ _ H) as Hs. unfold invalidateVisitor. rewrite (bind_Ok _ _ _ _ _ (get_blk_Ok e s o He)).
  destruct (isValid (ext o)) eqn:V.
  2:{ exists s. split_and!; try done. exists (ext o). split; [|done]. rewrite insert_id; [done|]. by destruct o. }
  rewrite Hd. rewrite (bind_Ok _ _ s tt s eq_refl). destruct (key s o) as [[a sec']|] eqn:Hk; [|by rewrite (key_None _ _ _ (proj1 Hs) He Hk) in V].
  destruct (invalidateBlock_empties e s o a sec' Hs He Hk) as (s' & b & E & Hem & W). exists s'.
  assert (landed lo s o dm = dm) as El by (unfold landed; rewrite Hk; by rewrite Hd).
  destruct (em_touched _ _ _ _ _ Hem) as [T (R1 & R2 & R3 & R4 & R5 & R6 & _)].
  split_and!; try done; [rewrite <- El; by eapply coupled_empty|apply T|].
  exists b. split; [apply T|by eapply emptied_invalid].
Qed.

Lemma memInvalidate_run s dm df (m : AbstractMemory) : coupled None s dm df -> (forall e o, entry s e = Some o -> isSet DirtyBit (ext o) = false) ->
  exists s', memInvalidate (s, m) = Ok (tt, (s', m)) /\ coupled None s' dm df /\ writebacks s' = writebacks s /\ cfg s' = cfg s /\ clk s' = clk s /\
    params_same (tags (tsys s)) (tags (tsys s')) /\ contents (tsys s') = ∅.
Proof.
  intros H Hd. set (k := numBlocks (tags (tsys s))).
  set (Inv := fun i (t : T) => coupled None t.1 dm df /\ t.2 = m /\ writebacks t.1 = writebacks s /\ cfg t.1 = cfg s /\ clk t.1 = clk s /\
    params_same (tags (tsys s)) (tags (tsys t.1)) /\ (forall e o, entry t.1 e = Some o -> isSet DirtyBit (ext o) = false) /\
    forall j o, 0 <= j < i -> entry t.1 (blk_loc j) = Some o -> isValid (ext o) = false).
  assert (forall t, sound t -> params_same (tags (tsys s)) (tags (tsys t)) -> numBlocks (tags (tsys t)) = k) as Hnum.
  { intros t [Hi _] (_ & _ & E & _). unfold k. rewrite (ti_num _ Hi), (ti_num _ (proj1 (cp_sound _ _ _ _ _ _ H))). unfold geom. by rewrite E. }
  destruct (visit_each_run k (fun e => onC (invalidateVisitor e)) Inv (s, m)) as ([s' m'] & E & (H' & Em & W & C & Ck & Pm & _ & Hv)).
  { unfold k. pose proof (ti_geometry _ (proj1 (cp_sound _ _ _ _ _ _ H))) as G. rewrite (ti_num _ (proj1 (cp_sound _ _ _ _ _ _ H))). destruct G. nia. }
  { unfold Inv. cbn [fst snd]. split_and!; try done. intros j o Hj. lia. }
  { intros i [s1 m1] Hi (H1 & Em & W1 & C1 & Ck1 & Pm1 & Hd1 & Hv1). cbn [fst snd] in *. subst m1.
    destruct (blk_exists (tsys s1) i (proj1 (cp_sound _ _ _ _ _ _ H1))) as [o Ho]; [rewrite (Hnum s1 (cp_sound _ _ _ _ _ _ H1) Pm1); done|].
    destruct (invalidate_one s1 dm df _ o H1 Ho (Hd1 _ o Ho)) as (s2 & E2 & H2 & W2 & C2 & Ck2 & Pm2 & b & Ee & Vb).
    exists (s2, m). split; [by apply onC_Ok|]. unfold Inv. cbn [fst snd]. split_and!; try done; try congruence; [by etrans| |].
    - intros e o2 Ho2. rewrite Ee in Ho2. apply lookup_insert_Some in Ho2 as [(_ & <-)|(_ & Ho2)]; [|by apply (Hd1 e)].
      cbn [ext]. unfold isSet. by rewrite Vb.
    - intros j o2 Hj Ho2. rewrite Ee in Ho2. apply lookup_insert_Some in Ho2 as [(_ & <-)|(Hne & Ho2)]; [done|].
      apply (Hv1 j); [|done]. destruct (decide (j = i)) as [->|]; [done|lia]. }
  cbn [fst snd] in *. subst m'. exists s'. split_and!; try done.
  apply map_eq. intros [a b]. rewrite lookup_empty. apply eq_None_not_Some. intros [e Hc]. apply contents_entry in Hc as (o & He & Hk); [|apply H'].
  destruct (blk_place _ e o (proj1 (cp_sound _ _ _ _ _ _ H')) He) as (j & Hj & ->).
  rewrite (Hnum s' (cp_sound _ _ _ _ _ _ H') Pm) in Hj. unfold key_of in Hk. by rewrite (Hv j o Hj He) in Hk.
Qed.
(** ** Functional accesses *)
Context (snoopF : Packet -> AbstractMemory -> outcome (Packet * AbstractMemory)) (fwd : bool).
#[local] Abbreviation request_for := (request_for lo sec).
#[local] Abbreviation result p df := (serve p (window df (pk_addr p - lo) (pk_size p))).
#[local] Abbreviation after p df := (splice df (Z.to_nat (pk_addr p - lo)) (result p df).2).
#[local] Abbreviation access := (functionalAccess (P := P) (D := D) (I := I) (AbstractMem.functionalAccess gnu) snoopF (fun _ _ => false) [] fwd true).

(** The memory serves it. *)
Lemma memory_serves dm m p : holds dm m -> plain_packet p -> functional_packet p -> lo <= pk_addr p -> pk_addr p + pk_size p <= lo + vsize dm ->
  exists q m', AbstractMem.functionalAccess gnu p m = Ok (q, m') /\ pk_cmd q = responseCommand (pk_cmd p) /\ pk_data q = pk_data (result p dm).1 /\
    holds (after p dm) m'.
Proof.
  intros Hm Hp ([Hc|Hc] & Hk) H1 H2; pose proof (pp_size _ Hp) as Hz.
  - rewrite (memory_read gnu n lo dm m p) by done. eexists _, m. split; [done|]. rewrite serve_read by done. cbn [fst snd].
    rewrite splice_window by lia. split; [|done]. cbn. by rewrite Hc.
  - destruct (memory_write gnu n lo dm m p Hm Hp Hc Hk H1 H2) as (m' & E & Hm'). exists (respond p), m'. split; [done|].
    by rewrite serve_write.
Qed.
(** A block that has the bytes. *)
Lemma block_serves s dm df p e o : let a := blk_addr s (pk_addr p) in
  coupled None s dm df -> request_for s (vsize dm) p -> functional_packet p -> bytesValid p = [] -> entry s e = Some o -> key s o = Some (a, sec) ->
  exists v s', blk_satisfy (TagBlk e) a p s = Ok ((match pk_cmd p with ReadReq => with_bytes (window df (pk_addr p - lo) (pk_size p)) v p | _ => p end,
      bool_decide (pk_cmd p = ReadReq)), s') /\
    stepped s s' e o (ext o) (window (after p df) (a - lo) (blk_size s)).
Proof.
  intros a H R ([Hc|Hc] & Hk) Hv He Hkey; pose proof (cp_sound _ _ _ _ _ _ H) as Hs; pose proof (rf_plain _ _ _ _ _ R) as Hp; pose proof (pp_size _ Hp);
    destruct (request_block _ _ _ _ _ _ _ H R) as (Ha & A1 & A2 & A3 & A4 & A5 & A6); fold a in Ha, A1, A2, A3, A5, A6;
    destruct (serve_windows lo sec None s dm df p e o H R He Hkey (or_introl eq_refl)) as (W1 & W2 & _); fold a in W1, W2;
    destruct (key_block _ _ _ _ _ Hs He Hkey) as (_ & Kp & V & Kc & Kv); destruct (cp_bounds _ _ _ _ _ _ H) as (B1 & _ & _ & B4 & B5);
    unfold blk_satisfy; rewrite (bind_Ok _ _ _ _ _ (get_blk_Ok e s o He)), V, (bind_Ok getS _ s s s eq_refl);
    rewrite (bind_Ok _ _ _ _ _ (proj1 (blk_bytes_run e s o (proj2 Hs) He))).
  - destruct (block_read p a (blk_size s) (bytes_of s (ext o)) Hp Hc Hv) as (v & E); [lia|lia|done|done|done|]. exists v.
    rewrite E, (bind_Ok _ _ s _ s eq_refl). cbn [fst snd].
    destruct (put_bytes_run e s o (bytes_of s (ext o)) Hs He Kv) as (s' & Ep & St). exists s'. rewrite (bind_Ok _ _ _ _ _ Ep), Hc. split.
    + destruct (cp_block _ _ _ _ _ _ H e o a sec He Hkey) as (_ & _ & _ & _ & [Hb _]); [done|].
      rewrite <- Hb, window_window by lia. by replace (a - lo + (pk_addr p - a)) with (pk_addr p - lo) by lia.
    + rewrite W2, serve_read by done. cbn [snd]. by rewrite splice_window by lia.
  - rewrite (block_write p a (blk_size s) (bytes_of s (ext o))) by (done || lia). exists [].
    rewrite (bind_Ok _ _ s _ s eq_refl). cbn [fst snd]. 
    destruct (put_bytes_run e s o (splice (bytes_of s (ext o)) (Z.to_nat (pk_addr p - a)) (pk_data p)) Hs He) as (s' & Ep & St).
    { pose proof (pp_data _ Hp). unfold vsize in *. rewrite splice_length; lia. }
    exists s'. rewrite (bind_Ok _ _ _ _ _ Ep), Hc. split; [done|]. by rewrite W2, serve_write.
Qed.
Lemma plain_bytes p d v : plain_packet p -> vsize d = pk_size p -> plain_packet (with_bytes d v p).
Proof. intros [] Hd. by constructor. Qed.

(** The bytes of a clean block and of the memory change together. *)
Lemma clean_windows s dm df p e o : let a := blk_addr s (pk_addr p) in
  coupled None s dm df -> request_for s (vsize dm) p -> entry s e = Some o -> key s o = Some (a, sec) -> isSet DirtyBit (ext o) = false ->
  result p dm = result p df /\ window (after p dm) (a - lo) (blk_size s) = window (after p df) (a - lo) (blk_size s).
Proof.
  intros a H R He Hk Hd. destruct (request_block _ _ _ _ _ _ _ H R) as (Ha & A1 & A2 & A3 & A4 & A5 & A6). fold a in Ha, A1, A2, A3, A5, A6.
  destruct (cp_block _ _ _ _ _ _ H e o a sec He Hk) as (_ & _ & _ & _ & [W1 W2]); [done|]. rewrite <- W1 in W2. specialize (W2 Hd).
  destruct (cp_bounds _ _ _ _ _ _ H) as (B1 & _ & _ & _ & B5). pose proof (rf_plain _ _ _ _ _ R) as Hp. pose proof (pp_size _ Hp).
  assert (window dm (pk_addr p - lo) (pk_size p) = window df (pk_addr p - lo) (pk_size p)) as Ew.
  { replace (pk_addr p - lo) with ((a - lo) + (pk_addr p - a)) by lia. rewrite <- !(window_window _ (a - lo) (blk_size s)) by lia. by rewrite W2. }
  rewrite Ew. split; [done|].
  assert (vsize (result p df).2 = pk_size p) as Lv by (apply serve_length; [done|apply window_length; lia]).
  replace (pk_addr p - lo) with ((a - lo) + (pk_addr p - a)) in * by lia. rewrite !window_splice_in by lia. by rewrite W2.
Qed.

(** The access goes on to the memory after the block. *)
Lemma functional_below s s' dm df m p p2 e o : let a := blk_addr s (pk_addr p) in
  coupled None s dm df -> request_for s (vsize dm) p -> holds dm m -> functional_packet p -> entry s e = Some o -> key s o = Some (a, sec) ->
  stepped s s' e o (ext o) (window (after p df) (a - lo) (blk_size s)) ->
  p2 = p \/ (pk_cmd p = ReadReq /\ isSet DirtyBit (ext o) = false /\ exists d v, vsize d = pk_size p /\ p2 = with_bytes d v p) ->
  exists q m' dm', AbstractMem.functionalAccess gnu p2 m = Ok (q, m') /\ pk_cmd q = responseCommand (pk_cmd p) /\
    (pk_cmd p = WriteReq \/ isSet DirtyBit (ext o) = false -> pk_data q = pk_data (result p df).1) /\
    coupled None s' dm' (after p df) /\ holds dm' m' /\ vsize dm' = vsize dm.
Proof.
  intros a H R Hm Hf He Hk St Hp2. destruct (request_block _ _ _ _ _ _ _ H R) as (Ha & A1 & A2 & A3 & A4 & A5 & A6). fold a in Ha, A1, A2, A3, A5, A6.
  destruct (rf_range _ _ _ _ _ R) as [R1 R2]. pose proof (rf_plain _ _ _ _ _ R) as Hp. pose proof (pp_size _ Hp) as Hz.
  destruct (serve_windows lo sec None s dm df p e o H R He Hk (or_introl eq_refl)) as (_ & _ & W3 & W4). fold a in W4.
  destruct (cp_block _ _ _ _ _ _ H e o a sec He Hk) as (_ & _ & _ & Hr & _). destruct (key_block _ _ _ _ _ (cp_sound _ _ _ _ _ _ H) He Hk) as (_ & Kp & _ & Kc & _).
  assert (exists q m', AbstractMem.functionalAccess gnu p2 m = Ok (q, m') /\ pk_cmd q = responseCommand (pk_cmd p) /\
    pk_data q = pk_data (result p dm).1 /\ holds (after p dm) m') as (q & m' & Eq & Eqc & Eqd & Hm').
  { destruct Hp2 as [->|(Hc & _ & d & v & Hd & ->)]; [by apply memory_serves|].
    destruct (memory_serves dm m (with_bytes d v p) Hm (plain_bytes p d v Hp Hd)) as (q & m' & E1 & E2 & E3 & E4); [by destruct Hf; split|done|done|].
    exists q, m'. rewrite serve_read in E3, E4 |- * by done. by split_and!. }
  assert (vsize (after p dm) = vsize dm) as Ev.
  { pose proof (serve_length p _ Hp (window_length dm (pk_addr p - lo) (pk_size p) ltac:(lia) ltac:(lia) ltac:(lia))). unfold vsize in *. rewrite splice_length; lia. }
  exists q, m', (after p dm). split_and!; try done.
  - intros Hcase. rewrite Eqd. destruct Hcase as [Hw|Hd]; [by rewrite !serve_write by (done || apply Hf)|].
    by destruct (clean_windows s dm df p e o H R He Hk Hd) as [-> _].
  - assert (coupled (Some a) s (after p dm) df) as Ho.
    { apply (coupled_open s dm); [done|by eexists|done|]. intros a' C1 C2 C3 C4.
      pose proof (serve_length p _ Hp (window_length dm (pk_addr p - lo) (pk_size p) ltac:(lia) ltac:(lia) ltac:(lia))).
      apply window_splice_out; [lia|lia|lia|]. destruct (aligned_apart (blk_size s) a' a Kp C3 Ha C4); lia. }
    apply (coupled_update lo sec (Some a) s s' e o (ext o) (window (after p df) (a - lo) (blk_size s)) a (after p dm) df (after p df)); try done.
    + apply stepped_changed; [done|apply H|done].
    + apply St.
    + by right.
    + by rewrite Ev.
    + intros Hd. exact (proj2 (clean_windows s dm df p e o H R He Hk Hd)).
Qed.

Lemma functional_run s dm df m p : coupled None s dm df -> request_for s (vsize dm) p -> holds dm m -> functional_packet p -> bytesValid p = [] ->
  exists q t dm', access p (s, m) = Ok (q, t) /\ pk_cmd q = responseCommand (pk_cmd p) /\ pk_data q = pk_data (result p df).1 /\
    coupled None t.1 dm' (after p df) /\ holds dm' t.2 /\ vsize dm' = vsize dm /\ served s t.1.
Proof.
  intros H R Hm Hf Hv. set (a := blk_addr s (pk_addr p)). pose proof (rf_plain _ _ _ _ _ R) as Hp. destruct (pp_flags _ Hp) as (F1 & _).
  destruct (request_block _ _ _ _ _ _ _ H R) as (Ha & A1 & A2 & A3 & A4 & A5 & A6). fold a in Ha, A1, A2, A3, A5, A6. pose proof (pp_size _ Hp) as Hz.
  destruct (coupled_line _ _ _ _ _ _ H) as (k & K1 & K2 & K3 & Eb). destruct (rf_range _ _ _ _ _ R) as [R1 R2].
  pose proof (proj2 (proj2 (proj2 (proj2 (cp_bounds _ _ _ _ _ _ H))))) as Ev0.
  unfold functionalAccess. rewrite (bind_Ok _ _ _ _ _ (onC_get s m)), (getBlockAddr_Ok s p k) by done.
  rewrite (bind_Ok _ _ (s, m) a (s, m) eq_refl). unfold getAddr. rewrite F1. cbn [ocheck obind]. rewrite (bind_Ok _ _ (s, m) (pk_addr p) (s, m) eq_refl).
  rewrite (bind_Ok _ _ (s, m) (contents (tsys s) !! (a, sec)) (s, m)).
  2:{ apply onC_Ok. unfold onT. rewrite (findBlock_Ok _ _ _ (proj1 (cp_sound _ _ _ _ _ _ H)) A4), Eb, (rf_secure _ _ _ _ _ R). by destruct s. }
  destruct (contents (tsys s) !! (a, sec)) as [e|] eqn:Ec.
  2:{ destruct (coupled_bypass lo sec s dm df p H R Ec) as [Er Hc]. destruct (memory_serves dm m p Hm Hp Hf R1 R2) as (q & m' & Eq & Eqc & Eqd & Hm').
      exists q, (s, m'), (after p dm). rewrite !(bind_Ok _ _ (s, m) _ (s, m) eq_refl). cbn [fst snd]. unfold sendFunctional. cbn [fst snd]. rewrite Eq.
      split_and!; try done; [by rewrite Eqd, Er|].
      pose proof (serve_length p _ Hp (window_length dm (pk_addr p - lo) (pk_size p) ltac:(lia) ltac:(lia) ltac:(lia))). unfold vsize in *. rewrite splice_length; lia. }
  apply contents_entry in Ec as (o & He & Hk); [|apply H].
  destruct (block_serves s dm df p e o H R Hf Hv He Hk) as (v & s' & Es & St). fold a in Es, St. rewrite (bind_Ok _ _ _ _ _ (onC_Ok _ _ _ _ m Es)). cbn [fst snd].
  set (p2 := match pk_cmd p with ReadReq => _ | _ => p end).
  rewrite (bind_Ok _ _ (s', m) (bool_decide (pk_cmd p = ReadReq) && isSet DirtyBit (ext o)) (s', m)).
  2:{ rewrite (bind_Ok _ _ _ _ _ (onC_Ok _ _ _ _ m (get_blk_Ok e s' _ (stepped_lookup _ _ _ _ _ _ St)))). cbn [ext]. by rewrite orb_false_r. }
  assert (served s s') as Hs by (by eapply stepped_served).
  destruct (bool_decide (pk_cmd p = ReadReq) && isSet DirtyBit (ext o)) eqn:Ed.
  - apply andb_true_iff in Ed as [Hc%bool_decide_eq_true Hd]. unfold p2. rewrite Hc. rewrite (bind_Ok _ _ (s', m) _ (s', m) eq_refl). cbn [fst snd].
    rewrite makeResponse_Ok by (cbn; by rewrite Hc). eexists _, (s', m), dm. split; [reflexivity|]. cbn [fst snd].
    rewrite serve_read in * by done. cbn [fst snd] in *. rewrite splice_window in * by lia.
    split; [cbn; by rewrite Hc|]. split; [done|]. split_and!; try done.
    destruct (cp_block _ _ _ _ _ _ H e o a sec He Hk) as (_ & _ & _ & Hr & _).
    apply (coupled_update lo sec None s s' e o (ext o) (window df (a - lo) (blk_size s)) a dm df df); try done; [|apply St|by left|congruence].
    apply stepped_changed; [done|apply H|done].
  - rewrite (bind_Ok _ _ (s', m) (p2, false) (s', m) eq_refl). cbn [fst snd].
    destruct (functional_below s s' dm df m p p2 e o H R Hm Hf He Hk St) as (q & m' & dm' & Eq & Eqc & Eqd & H' & Hm' & Ev).
    { unfold p2. destruct Hf as [[Hc|Hc] _]; rewrite Hc; [right|by left]. rewrite Hc, bool_decide_eq_true_2 in Ed by done.
      split; [done|]. split; [done|]. eexists _, v. split; [|done]. apply window_length; lia. }
    exists q, (s', m'), dm'. unfold sendFunctional. cbn [fst snd]. rewrite Eq. split_and!; try done. apply Eqd.
    destruct Hf as [[Hc|Hc] _]; [right|by left]. by rewrite Hc, bool_decide_eq_true_2 in Ed.
Qed.
End Runs.
