(* ===== verification/Vacant.v ===== *)
(** A policy that chooses no victim among entries that are not in use keeps a
    classic cache empty: nothing is ever allocated, and every miss goes through
    the temporary block.  ARC is such a policy. *)
From Stdlib Require Import ZArith Lia Bool.
From stdpp Require Import base numbers gmap list.
From S2P Require Import Prelude Hoare ReplBase ARC Bitfield Indexing CacheBlk Partition Tags TagsInv TagsOps TagsInit.
From S2P Require Import Bytes MemRequest MemPacket Clocked ClassicCache ClassicAccess.
Local Open Scope Z_scope.

(** [getVictim] on candidates none of which is in use. *)
Class CautiousPolicy (P D : Type) `{RPL : ReplacementPolicyLaws P D} :=
  cautious : forall X (w : world P D X) cands ds, sets_bounded w -> rp_inv (policy w) (rp_data w) ->
    cands <> [] -> cands_data w cands ds -> Forall (fun d => rp_live d = false) ds ->
    exists w', rp_getVictim cands w = Ok (None, w') /\ rds w' = rds w.

#[export] Instance ARC_cautious : CautiousPolicy ARC ARCReplData.
Proof.
  intros X w cands ds HB HI Hne HD HF. destruct (arc_victim_ok w cands ds HB HI Hne HD) as (v & w' & E & _ & HN).
  rewrite (proj2 HN HF) in E. exists w'. split; [done|]. by destruct (getVictim_Ok_inv _ _ _ _ E) as [[p ->] _].
Qed.

(** ** The part of the cache a block of the tags is not in *)
Section Temporary.
Context {P D I : Type} {RP : ReplacementPolicy P D} {IP : IndexingPolicy I}.
Context (J : tag_sys P D I -> Prop) (junk : Z).
#[local] Abbreviation S := (cc_sys P D I).
#[local] Abbreviation Inv := (fun s : S => J (tsys s)).

Lemma keeps_get_temp : keep_all Inv (get_blk TempBlk).
Proof. apply keeps_gets. Qed.
Lemma keeps_call_temp f : keep_all Inv (call_blk TempBlk f).
Proof. unfold call_blk. by keep. Qed.
Lemma keeps_bytes_temp : keep_all Inv (blk_bytes TempBlk).
Proof. unfold blk_bytes. by keep. Qed.
Lemma keeps_put_temp d : keep_all Inv (put_bytes TempBlk d).
Proof. unfold put_bytes. by keep. Qed.
Lemma keeps_addr_temp : keep_all Inv (ClassicCache.regenerateBlkAddr TempBlk).
Proof. apply keeps_gets. Qed.
Lemma keeps_clockEdge n : keep_all Inv (cc_clockEdge n).
Proof. unfold cc_clockEdge. by keep. Qed.
#[local] Hint Resolve keeps_get_temp keeps_call_temp keeps_bytes_temp keeps_put_temp keeps_addr_temp keeps_clockEdge : keeps.

Lemma keeps_update_temp k : keep_all Inv (updateBlockData TempBlk k).
Proof. unfold updateBlockData. by keep. Qed.
#[local] Hint Resolve keeps_update_temp : keeps.

Lemma keeps_invalidate_temp : keep_all Inv (invalidateBlock TempBlk).
Proof. unfold invalidateBlock. by keep. Qed.
Lemma keeps_downgrade_temp b : keep_all Inv (downgrade TempBlk b).
Proof. unfold downgrade. by keep. Qed.
#[local] Hint Resolve keeps_invalidate_temp keeps_downgrade_temp : keeps.

Lemma keeps_writeback_temp : keep_all Inv (writebackBlk junk TempBlk).
Proof. unfold writebackBlk. by keep. Qed.
Lemma keeps_cleanEvict_temp : keep_all Inv (cleanEvictBlk junk TempBlk).
Proof. unfold cleanEvictBlk. by keep. Qed.
#[local] Hint Resolve keeps_writeback_temp keeps_cleanEvict_temp : keeps.

Lemma keeps_evict_temp : keep_all Inv (evict_pkt junk TempBlk).
Proof. unfold evict_pkt. by keep. Qed.
#[local] Hint Resolve keeps_evict_temp : keeps.

(** The temporary block, or none. *)
Definition off_tags (blk : option blk_ptr) : Prop := blk = None \/ blk = Some TempBlk.

Lemma keeps_cmpAndSwap pkt : keep_all Inv (cmpAndSwap junk TempBlk pkt).
Proof. unfold cmpAndSwap. by keep. Qed.
Lemma keeps_atomic_swap pkt : keep_all Inv (atomic_swap TempBlk pkt).
Proof. unfold atomic_swap. by keep. Qed.
Lemma keeps_satisfy_write pkt : keep_all Inv (satisfy_write TempBlk pkt).
Proof. unfold satisfy_write. by keep. Qed.
Lemma keeps_satisfy_read pkt : keep_all Inv (satisfy_read TempBlk pkt).
Proof. unfold satisfy_read. by keep. Qed.
#[local] Hint Resolve keeps_cmpAndSwap keeps_atomic_swap keeps_satisfy_write keeps_satisfy_read : keeps.

Lemma keeps_base_satisfy pkt blk : off_tags blk -> keep_all Inv (base_satisfyRequest junk pkt blk).
Proof.
  intros Hb. unfold base_satisfyRequest. apply keeps_seq; [by keep|]. intros _. apply keeps_oget. intros p ->.
  destruct Hb as [|[= ->]]; [done|]. by keep.
Qed.
#[local] Hint Resolve keeps_base_satisfy : keeps.

Lemma keeps_pass_ownership pkt d p : keep_all Inv (pass_ownership pkt TempBlk d p).
Proof. unfold pass_ownership. by keep. Qed.
#[local] Hint Resolve keeps_pass_ownership : keeps.

Lemma keeps_satisfy pkt blk : off_tags blk -> keep_all Inv (satisfyRequest junk pkt blk).
Proof.
  intros Hb. unfold satisfyRequest. keep; try done. subst. destruct Hb as [|[= ->]]; [done|]. by keep.
Qed.

Lemma keeps_clusivity b blk : off_tags blk -> keep_all Inv (maintainClusivity b blk).
Proof. intros [-> | ->]; unfold maintainClusivity; by keep. Qed.
Lemma keeps_hit pkt : keep_all Inv (incHitCount pkt).
Proof. unfold incHitCount. by keep. Qed.
Lemma keeps_miss pkt : keep_all Inv (incMissCount pkt).
Proof. unfold incMissCount. by keep. Qed.
Lemma keeps_tag_latency d l : keep_all Inv (calculateTagOnlyLatency d l).
Proof. unfold calculateTagOnlyLatency. by keep. Qed.
Lemma keeps_access_latency d l : keep_all Inv (calculateAccessLatency None d l).
Proof. unfold calculateAccessLatency, calculateTagOnlyLatency. by keep. Qed.
Lemma keeps_conflict pkt l : keep_all Inv (evict_conflict pkt l).
Proof. unfold evict_conflict, put_buffer, calculateTagOnlyLatency. by keep. Qed.
Lemma keeps_clean_dirty pkt blk : off_tags blk -> keep_all Inv (clean_dirty junk pkt blk).
Proof. intros [-> | ->]; unfold clean_dirty, writecleanBlk; by keep. Qed.
Lemma keeps_allocOnFill c : keep_all Inv (allocOnFill c).
Proof. unfold allocOnFill. by keep. Qed.
Lemma keeps_miss_packet pkt blk nw wl : off_tags blk -> keep_all Inv (createMissPacket junk pkt blk nw wl).
Proof. intros [-> | ->]; unfold createMissPacket, miss_command; by keep. Qed.
Lemma keeps_promote pkt : keep_all Inv (promoteWholeLineWrites pkt).
Proof. unfold promoteWholeLineWrites. by keep. Qed.
End Temporary.

(** ** The tags stay empty *)
Section Vacant.
Context {P D I : Type} {RP : ReplacementPolicy P D} {RPL : ReplacementPolicyLaws P D} {CP : CautiousPolicy P D}
  {IP : IndexingPolicy I} {IPL : IndexingLaws I}.
Implicit Types st : tag_sys P D I.

(** No block is valid, and no replacement data is of an entry in use. *)
Definition vacant st : Prop :=
  tags_inv st /\ (forall e o, entries (wld st) !! e = Some o -> isValid (ext o) = false) /\
  forall r rd, rds (wld st) !! r = Some rd -> rp_live (data rd) = false.

Lemma vacant_contents st : vacant st -> contents st = ∅.
Proof.
  intros (Hi & Hv & _). apply map_eq. intros k. rewrite lookup_empty. apply contents_None; [done|].
  intros e o He. unfold key_of. by rewrite (Hv e o He).
Qed.

Lemma vacant_same st st' : vacant st -> tags_inv st' -> entries (wld st') = entries (wld st) -> rds (wld st') = rds (wld st) -> vacant st'.
Proof. intros (_ & Hv & Hr) Hi Ee Er. split; [done|]. by rewrite Ee, Er. Qed.

Lemma vacant_findBlock st addr sec r st' : vacant st -> 0 <= addr < 2 ^ 64 ->
  findBlock (mkKey addr sec) st = Ok (r, st') -> r = None /\ st' = st.
Proof.
  intros Hst Ha. rewrite (findBlock_Ok st addr sec (proj1 Hst) Ha), (vacant_contents st Hst), lookup_empty. by intros [= <- <-].
Qed.

Lemma vacant_accessBlock k st r st' : vacant st -> 0 <= pkt_addr k < 2 ^ 64 ->
  accessBlock k st = Ok (r, st') -> vacant st' /\ r.1 = None.
Proof.
  intros Hst Ha H. pose proof (accessBlock_spec k st r st' (proj1 Hst) Ha H) as (Er & Hi & _).
  rewrite (vacant_contents st Hst), lookup_empty in Er. split; [|by rewrite Er].
  unfold accessBlock in H. rewrite (bind_Ok _ _ _ _ _ (findBlock_Ok st _ _ (proj1 Hst) Ha)), (vacant_contents st Hst), lookup_empty in H.
  inv_ok H. injection H as _ <-. injection Hrun as _ <-. injection Hrun2 as _ <-.
  apply on_stats_only in Hrun0 as (_ & W1 & _).
  assert (wld s1 = wld s0) as W2.
  { destruct (sequentialAccess _); [by injection Hrun1 as _ ->|]. by apply on_stats_only in Hrun1 as (_ & W & _). }
  apply (vacant_same st); [done|done|by rewrite W2, W1..].
Qed.

Lemma vacant_findVictim addr sec pid st r st' : vacant st -> 0 <= addr < 2 ^ 64 ->
  findVictim (mkKey addr sec) pid st = Ok (r, st') -> vacant st' /\ r.1 = None.
Proof.
  intros Hst Ha H. destruct (victim_cands st addr pid) as [l|f] eqn:Hl.
  2:{ unfold findVictim in H. rewrite (bind_Ok getS _ st st st eq_refl) in H. cbn [key_address] in H.
      rewrite (possible_cands st addr (proj1 Hst) Ha), (bind_Ok _ _ st (Some <$> cands st addr) st eq_refl), mapM_Some,
        (bind_Ok _ _ st (cands st addr) st eq_refl) in H. unfold victim_cands in Hl. rewrite Hl in H. discriminate H. }
  destruct (findVictim_spec addr sec pid st l (proj1 Hst) Ha Hl) as (v & st1 & E & Hi & _ & _ & _ & Ee & _ & Hv & _).
  rewrite E in H. injection H as <- <-. destruct Hv as [(_ & -> & ->)|(w & Hne & Ev & Ew)]; [done|].
  destruct (cands_have_data st addr l (proj1 Hst) Ha (victim_cands_subset _ _ _ _ Hl)) as [ds Hds].
  destruct (cautious _ (wld st) l ds (ti_bounded _ (proj1 Hst)) (ti_rp _ (proj1 Hst)) Hne Hds) as (w' & E' & Er).
  { apply Forall_forall. intros d (i & Hi')%list_elem_of_lookup_1. destruct (Forall2_lookup_r _ _ _ _ _ Hds Hi') as (e & _ & Hd).
    apply cand_data_Some in Hd as (o & r & rd & _ & _ & Hrd & <-). by apply (proj2 (proj2 Hst) r). }
  rewrite E' in Ev. injection Ev as <- <-. split; [|done]. apply (vacant_same st); [done|done|done|]. by rewrite Ew.
Qed.

#[local] Abbreviation S := (cc_sys P D I).
#[local] Abbreviation Inv := (fun s : S => vacant (tsys s)).
Context (junk : Z) (mshr : Z -> bool -> option MSHRView) (pid_of : Packet -> Z).

(** A packet whose address is one. *)
Definition addressed (p : Packet) : Prop := 0 <= pk_addr p < 2 ^ 64.

Lemma tag_packet_addr pkt k : tag_packet pid_of pkt = Ok k -> pkt_addr k = pk_addr pkt.
Proof. unfold tag_packet, getAddr. intros H. inv_ok H. injection H as <-. inv_ok Hrun. by injection Hrun as <-. Qed.

Lemma keeps_allocate pkt : addressed pkt -> keeps Inv (allocateBlock junk mshr pid_of pkt) (fun r => r = None).
Proof.
  intros Ha. unfold allocateBlock. eapply (keeps_bind _ _ _ (fun k => pkt_addr k = pk_addr pkt)).
  { intros s a s' Hs [H ->]%lift_Ok_inv. split; [done|]. by apply tag_packet_addr. }
  intros k Ek. unfold allocate_for. apply keeps_get. intros s Hs. eapply (keeps_bind _ _ _ (fun r => r.1 = None)).
  - intros s0 r s' H0 H. unfold onT in H. destruct (findVictim _ _ _) as [[r' t]|] eqn:E; [|done]. injection H as <- <-.
    apply (vacant_findVictim _ _ _ _ _ _ H0) in E; [done|]. by rewrite Ek.
  - intros r ->. by apply keeps_ret.
Qed.

(** The tags of a miss stay empty: there is no block, or the temporary one. *)
#[local] Hint Resolve keeps_get_temp keeps_call_temp keeps_bytes_temp keeps_put_temp keeps_addr_temp keeps_clockEdge
  keeps_update_temp keeps_invalidate_temp keeps_evict_temp keeps_satisfy keeps_clusivity keeps_hit keeps_miss keeps_tag_latency
  keeps_access_latency keeps_conflict keeps_clean_dirty keeps_allocOnFill keeps_miss_packet keeps_promote : keeps.

Lemma keeps_fill pkt blk alloc : addressed pkt -> off_tags blk ->
  keeps Inv (handleFill junk mshr pid_of pkt blk alloc) (fun p => p = TempBlk).
Proof.
  intros Ha Hb. unfold handleFill. apply keeps_seq; [by keep|intros _]. apply keeps_seq; [by keep|intros addr].
  apply keeps_seq; [by keep|intros sec]. apply keeps_get. intros s Hs. do 4 (apply keeps_seq; [by keep|intros ?]).
  eapply (keeps_bind _ _ _ (fun p => p = TempBlk)).
  - destruct Hb as [-> | ->]; [|by apply keeps_ret]. apply keeps_seq; [by keep|intros _].
    eapply (keeps_bind _ _ _ (fun r => r = None)); [destruct alloc; [by apply keeps_allocate|by apply keeps_ret]|].
    intros r ->. apply keeps_get. intros s1 Hs1. do 2 (apply keeps_seq; [by keep|intros ?]). by apply keeps_ret.
  - intros p ->. by keep.
Qed.

Lemma keeps_allocate_readable pkt : addressed pkt -> keeps Inv (allocate_readable junk mshr pid_of pkt) (fun r => r = None).
Proof.
  intros Ha. unfold allocate_readable. eapply keeps_bind; [by apply keeps_allocate|]. intros r ->. by keep.
Qed.

Lemma keeps_access_writeback pkt lat tl : addressed pkt ->
  keeps Inv (access_writeback junk mshr pid_of pkt None lat tl) (fun r => ar_blk r = None).
Proof.
  intros Ha. unfold access_writeback. apply keeps_get. intros s Hs. do 4 (apply keeps_seq; [by keep|intros ?]).
  apply keeps_if; [by apply keeps_ret|]. eapply keeps_bind; [by apply keeps_allocate_readable|]. intros r ->. by apply keeps_ret.
Qed.

Lemma keeps_access_writeclean pkt lat tl : addressed pkt ->
  keeps Inv (access_writeclean junk mshr pid_of pkt None lat tl) (fun r => ar_blk r = None).
Proof.
  intros Ha. unfold access_writeclean. apply keeps_get. intros s Hs. do 2 (apply keeps_seq; [by keep|intros ?]).
  eapply (keeps_bind _ _ _ (fun r => r = None)).
  - destruct (writeThrough pkt); [by apply keeps_ret|by apply keeps_allocate_readable].
  - intros r ->. by apply keeps_ret.
Qed.

Lemma keeps_access_normal pkt tl : keeps Inv (access_normal junk pkt None tl) (fun r => ar_blk r = None).
Proof.
  unfold access_normal, blk_serves. eapply (keeps_bind _ _ _ (fun b => b = false)); [by apply keeps_ret|]. intros b ->. by keep.
Qed.
#[local] Hint Resolve keeps_access_writeback keeps_access_writeclean keeps_access_normal : keeps.

Lemma keeps_base_access pkt lat : addressed pkt -> keeps Inv (base_access junk mshr pid_of pkt lat) (fun r => ar_blk r = None).
Proof.
  intros Ha. unfold base_access. apply keeps_seq; [by keep|intros _]. apply keeps_get. intros s Hs.
  apply keeps_seq; [by keep|intros _]. eapply (keeps_bind _ _ _ (fun k => pkt_addr k = pk_addr pkt)).
  { intros s0 a s' H0 [H ->]%lift_Ok_inv. split; [done|]. by apply tag_packet_addr. }
  intros k Ek. eapply (keeps_bind _ _ _ (fun r => r.1 = None)).
  { intros s0 r s' H0 H. unfold onT in H. destruct (accessBlock _ _) as [[r' t]|] eqn:E; [|done]. injection H as <- <-.
    apply (vacant_accessBlock _ _ _ _ H0) in E; [done|]. by rewrite Ek. }
  intros [b l] [= ->]. cbn [fst snd fmap option_fmap option_map]. by keep.
Qed.

Lemma keeps_access pkt lat : addressed pkt -> keeps Inv (access junk mshr pid_of pkt lat) (fun r => ar_blk r = None).
Proof.
  intros Ha. unfold access. apply keeps_get. intros s Hs. destruct (coherent (cfg s)); [destruct (isUncacheable _)|].
  - unfold access_uncacheable. apply keeps_seq; [by keep|intros _]. apply keeps_get. intros s1 Hs1. apply keeps_seq; [by keep|intros _].
    eapply (keeps_bind _ _ _ (fun a => a = pk_addr pkt)).
    { intros s0 a s' H0 [H ->]%lift_Ok_inv. unfold getAddr in H. inv_ok H. by injection H as <-. }
    intros a ->. apply keeps_seq; [by keep|intros sec]. eapply (keeps_bind _ _ _ (fun r => r = None)).
    { intros s0 r s' H0 H. unfold onT in H. destruct (findBlock _ _) as [[r' t]|] eqn:E; [|done]. injection H as <- <-.
      apply (vacant_findBlock _ _ _ _ _ H0) in E as [-> ->]; [|done]. by destruct s0. }
    intros r ->. by keep.
  - by apply keeps_base_access.
  - eapply keeps_bind; [by apply keeps_base_access|]. intros r Hr. keep; try done.
    all: rewrite Hr in *; discriminate.
Qed.

(** ** Atomic mode *)
Context {B : Type} (send : Packet -> B -> outcome (Packet * Z * B)).
Context (above : Packet -> Packet) (forwardSnoops : bool) (writeAllocator : option bool).
Context (send_addressed : forall p b p' lat b', send p b = Ok (p', lat, b') -> addressed p').
#[local] Abbreviation InvT := (fun t : S * B => vacant (tsys t.1)).

Lemma keeps_onC {A} (m : M S A) Q : keeps Inv m Q -> keeps InvT (onC m) Q.
Proof.
  intros Hm [s b] a [s' b'] Hs H. unfold onC in H. cbn [fst snd] in *. destruct (m s) as [[a' s1]|] eqn:E; [|done].
  injection H as <- <- <-. by apply (Hm s a' s1).
Qed.

Lemma keeps_send pkt : keeps InvT (sendAtomic send pkt) (fun r => addressed r.1).
Proof.
  intros [s b] a [s' b'] Hs H. unfold sendAtomic in H. cbn [fst snd] in *. destruct (send pkt b) as [[[p l] b1]|] eqn:E; [|done].
  injection H as <- <- <-. split; [done|]. by apply (send_addressed pkt b p l b1).
Qed.

Lemma keeps_send_all pkt : keep_all InvT (sendAtomic send pkt).
Proof. by eapply keeps_mono; [apply keeps_send|]. Qed.
#[local] Hint Resolve keeps_send_all : keeps.

Lemma keeps_getC {A} (k : S -> M (S * B) A) Q : (forall s, vacant (tsys s) -> keeps InvT (k s) Q) -> keeps InvT (bind (onC getS) k) Q.
Proof. intros Hk [s b] a t Hs (x & t1 & [= <- <-] & H)%bind_Ok_inv. by apply (Hk s Hs (s, b) a t). Qed.

Ltac keepT := repeat first
  [ match goal with
    | |- keeps _ (bind (onC getS) _) _ => apply keeps_getC; intros ? ?
    | |- keeps _ (onC _) _ => apply keeps_onC
    end
  | keep_step | solve [auto with keeps] | progress cbn beta zeta ].

Lemma keeps_writeback_atomic pkt : keep_all InvT (writeback_atomic send above forwardSnoops pkt).
Proof. unfold writeback_atomic. by keepT. Qed.
#[local] Hint Resolve keeps_writeback_atomic : keeps.

Lemma keeps_doWritebacks : keep_all InvT (doWritebacksAtomic send above forwardSnoops).
Proof. unfold doWritebacksAtomic. by keepT. Qed.

Lemma keeps_writeback_temp_atomic : keep_all InvT (writebackTempBlockAtomic send above forwardSnoops).
Proof. unfold writebackTempBlockAtomic. by keepT. Qed.
#[local] Hint Resolve keeps_writeback_temp_atomic : keeps.

Lemma keeps_process : keep_all InvT (process_event send above forwardSnoops).
Proof. unfold process_event. by keepT. Qed.

Lemma keeps_evict_temp_block blk : keep_all InvT (evict_temp junk send above forwardSnoops blk).
Proof. unfold evict_temp. by keepT. Qed.
#[local] Hint Resolve keeps_doWritebacks keeps_evict_temp_block : keeps.

Lemma keeps_ticks t : keep_all InvT (c_ticksToCycles t).
Proof. unfold c_ticksToCycles. by keepT. Qed.
#[local] Hint Resolve keeps_ticks : keeps.

Lemma off_temp : off_tags (Some TempBlk).
Proof. by right. Qed.
Lemma off_none : off_tags None.
Proof. by left. Qed.
#[local] Hint Resolve off_temp off_none : keeps.

Lemma keeps_nc_miss pkt : keeps InvT (nc_handleAtomicReqMiss junk mshr pid_of send pkt None) (fun _ => True).
Proof.
  unfold nc_handleAtomicReqMiss. apply keeps_getC. intros s Hs. apply keeps_seq; [by keepT|intros wl]. apply keeps_seq; [by keepT|intros o].
  apply keeps_oget. intros bus _. eapply keeps_bind; [apply keeps_send|]. intros [p l] Hp. cbn [fst snd] in *.
  do 6 (apply keeps_seq; [by keepT|intros ?]). eapply (keeps_bind _ _ _ off_tags).
  - destruct (negb _); [|by apply keeps_ret, off_none]. apply keeps_seq; [by keepT|intros al].
    eapply keeps_bind; [apply keeps_onC, keeps_fill; [done|apply off_none]|]. intros q ->. by apply keeps_ret, off_temp.
  - intros blk Hb. by keepT.
Qed.

Lemma keeps_response pkt bus inval : addressed bus ->
  keeps InvT (c_response junk mshr pid_of writeAllocator pkt bus None inval) (fun x => off_tags x.1.1).
Proof.
  intros Hp. unfold c_response. apply keeps_getC. intros s Hs. apply keeps_seq; [by keepT|intros _]. destruct (isError _).
  { do 2 (apply keeps_seq; [by keepT|intros ?]). by apply keeps_ret, off_none. }
  apply keeps_seq; [by keepT|intros wl]. destruct wl; [|destruct (_ || _)].
  - apply keeps_seq; [by keepT|intros al]. eapply keeps_bind; [apply keeps_onC, keeps_fill; [done|apply off_none]|]. intros q ->.
    apply keeps_seq; [by keepT|intros ?]. by apply keeps_ret, off_temp.
  - apply keeps_seq; [by keepT|intros al]. eapply keeps_bind; [apply keeps_onC, keeps_fill; [done|apply off_none]|]. intros q ->.
    do 2 (apply keeps_seq; [by keepT|intros ?]). by apply keeps_ret, off_temp.
  - apply keeps_seq; [by keepT|intros ?]. by apply keeps_ret, off_none.
Qed.

Lemma keeps_c_miss pkt : keep_all InvT (c_handleAtomicReqMiss junk mshr pid_of send writeAllocator pkt None).
Proof.
  unfold c_handleAtomicReqMiss. apply keeps_getC. intros s Hs. destruct (_ || _); [by keepT|].
  do 3 (apply keeps_seq; [by keepT|intros ?]). eapply keeps_bind; [apply keeps_send|]. intros [p l] Hp. cbn [fst snd] in *.
  apply keeps_seq; [by keepT|intros lat]. eapply (keeps_bind _ _ _ (fun x => off_tags x.1.1)).
  - destruct a1; [destruct (needsResponse _); [by apply keeps_response|]|]; by apply keeps_ret, off_none.
  - intros [[blk i] q] Hb. cbn [fst snd] in *. apply keeps_seq; [|intros _; by apply keeps_ret].
    destruct Hb as [-> | ->]; [by apply keeps_ret|]. by keepT.
Qed.

Lemma keeps_handle_miss pkt : keep_all InvT (handleAtomicReqMiss junk mshr pid_of send writeAllocator pkt None).
Proof.
  unfold handleAtomicReqMiss. apply keeps_getC. intros s Hs. destruct (coherent _); [apply keeps_c_miss|apply keeps_nc_miss].
Qed.
#[local] Hint Resolve keeps_handle_miss : keeps.

Lemma keeps_base_recv pkt : addressed pkt ->
  keep_all InvT (base_recvAtomic junk mshr pid_of send above forwardSnoops writeAllocator pkt).
Proof.
  intros Ha. unfold base_recvAtomic. apply keeps_getC. intros s Hs. eapply keeps_bind; [by apply keeps_onC, keeps_access|].
  intros r Hr. rewrite Hr. by keepT.
Qed.

Lemma promote_addr pkt s p s' : promoteWholeLineWrites pkt s = Ok (p, s') -> pk_addr p = pk_addr (pkt : Packet) /\ s' = (s : S).
Proof.
  unfold promoteWholeLineWrites. intros H. inv_ok H. injection Hrun as <- <-. case_bool_decide; [|by injection H as <- <-].
  inv_ok H. apply lift_Ok_inv in Hrun as [_ ->], Hrun0 as [_ ->]. injection H as <- <-. by destruct (_ && _).
Qed.

Lemma keeps_recv pkt : addressed pkt ->
  keep_all InvT (recvAtomic junk mshr pid_of send above forwardSnoops writeAllocator pkt).
Proof.
  intros Ha. unfold recvAtomic. apply keeps_getC. intros s Hs. destruct (coherent _).
  - eapply (keeps_bind _ _ _ addressed).
    + apply keeps_onC. intros s0 p s' H0 [E ->]%promote_addr. split; [done|]. unfold addressed. by rewrite E.
    + intros p Hp. destruct (cacheResponding p); [by keepT|by apply keeps_base_recv].
  - do 2 (apply keeps_seq; [by keepT|intros ?]). by apply keeps_base_recv.
Qed.
End Vacant.
