(* ===== verification/Serving.v ===== *)
(** The policies a classic cache can always go on with: those that can reset any
    entry and choose a victim among any candidates.  ARC is not one of them. *)
From Stdlib Require Import ZArith Lia.
From stdpp Require Import base numbers gmap list.
From S2P Require Import Prelude ReplBase ReplScan LRU MRU LFU WeightedLRU FIFO SecondChance ClassicTotal.
Local Open Scope Z_scope.

(** A policy that resets by an update of the data and scans for the victim. *)
Ltac serves_by_scan better :=
  split; [intros; by apply update_data_total
         |intros X w cands ds Hne HD; destruct (scan_victim_some better w cands ds Hne HD) as [e He]; eauto].

#[export] Instance LRU_serving : ServingPolicy LRU LRUReplData.
Proof. serves_by_scan LRU.older. Qed.

#[export] Instance FIFO_serving : ServingPolicy FIFO FIFOReplData.
Proof. serves_by_scan FIFO.earlier. Qed.

#[export] Instance LFU_serving : ServingPolicy LFU LFUReplData.
Proof. serves_by_scan rarer. Qed.

#[export] Instance WeightedLRU_serving : ServingPolicy WeightedLRU WeightedLRUReplData.
Proof. serves_by_scan lighter. Qed.

#[export] Instance MRU_serving : ServingPolicy MRU MRUReplData.
Proof.
  split; [intros; by apply update_data_total|]. intros X w [|c0 cands] ds Hne HD; [done|].
  destruct (mru_victim w c0 cands ds HD) as (i & e & d & E & _). eauto.
Qed.

#[export] Instance SecondChance_serving : ServingPolicy FIFO SecondChanceReplData.
Proof.
  split; [intros; by apply update_data_total|]. intros X w cands ds Hne HD. by apply (sc_victim_some w cands ds).
Qed.
