(* ===== verification/MemorySystem.v ===== *)
(** A memory system: a classic cache set up by [tagsInit] in front of a memory,
    serving a sequence of requests as time passes, against the memory alone. *)
From Stdlib Require Import ZArith Lia Bool.
From stdpp Require Import base numbers gmap list.
From S2P Require Import Prelude ReplBase Bitfield AddrRange Indexing CacheBlk Partition Tags TagsInv TagsOps.
From S2P Require Import TagsInit Bytes MemRequest MemPacket Clocked AbstractMem Serve ClassicCache ClassicOps.
From S2P Require Import ClassicTotal ClassicAccess ClassicServe Coupled AtomicRuns AtomicSends Transparent LRU Serving.
Local Open Scope Z_scope.

(** The data array of [BaseTags] before anything is written: a buffer for each
    offset a block gets. *)
Definition blank_data (size n junk : Z) : gmap Z (list Z) :=
  list_to_map ((fun k => (u32 (size * k), replicate (Z.to_nat size) junk)) <$> seqZ 0 n).

Lemma blank_data_lookup size n junk k : 0 <= k < n ->
  exists d, blank_data size n junk !! u32 (size * k) = Some d /\ vsize d = Z.of_nat (Z.to_nat size).
Proof.
  intros Hk. assert (is_Some (blank_data size n junk !! u32 (size * k))) as [d Hd].
  { apply elem_of_dom. unfold blank_data. rewrite dom_list_to_map. apply elem_of_list_to_set, list_elem_of_fmap.
    exists (u32 (size * k), replicate (Z.to_nat size) junk). split; [done|]. apply list_elem_of_fmap. exists k. split; [done|]. apply elem_of_seqZ. lia. }
  exists d. split; [done|]. apply elem_of_list_to_map_2, list_elem_of_fmap in Hd as (k' & [= _ ->] & _).
  unfold vsize. by rewrite length_replicate.
Qed.

Section System.
Context {P D I : Type} {RP : ReplacementPolicy P D} {RPL : ReplacementPolicyLaws P D}
  {IP : IndexingPolicy I} {IPL : IndexingLaws I} {SP : ServingPolicy P D}.
Implicit Types s : cc_sys P D I.

(** A cache around the tag store [st], which nothing has accessed. *)
Definition boot (c : CacheConfig) (st : tag_sys P D I) (temp : TempCacheBlk) (td : list Z) (junk : Z) (cs : CacheStats) (k : Clocked) : cc_sys P D I :=
  mkCC c st temp td (blank_data (blkSize (tags st)) (numBlocks (tags st)) junk) cs k [] None false [].

(** Time passes. *)
Definition at_tick (t : Z) (s : cc_sys P D I) : cc_sys P D I :=
  let w := wld (tsys s) in
  with_tsys (mkTagSys (tags (tsys s)) (table (tsys s)) (mkWorld (policy w) (entries w) (rds w) t)) s.

(** A tick the clock of the cache has room for. *)
Definition tick_ok (c : CacheConfig) (k : Clocked) (t : Z) : Prop :=
  0 <= t /\ t + 2 * clockPeriod k + clockPeriod k * fillLatency c + 2 ^ 32 < MaxTick.

Lemma tick_sound t s : sound s -> 0 <= t <= MaxTick -> sound (at_tick t s).
Proof.
  intros [Hi Hac] Ht. split.
  - destruct Hi as [T1 T2 T3 T4 T5 T6 T7 T8 T9]. constructor; try done. intros e o He. by destruct (T6 e o He).
  - destruct Hac. by constructor.
Qed.

Lemma coupled_tick {alone} lo sec s dm df t : coupled_by (alone := alone) lo sec None s dm df -> tick_ok (cfg s) (clk s) t ->
  coupled_by (alone := alone) lo sec None (at_tick t s) dm df.
Proof.
  intros H [H0 Ht]. destruct (cp_clock _ _ _ _ _ _ H) as (C1 & C2 & C3). pose proof (tick_sound t s (cp_sound _ _ _ _ _ _ H)) as Hs.
  assert (0 <= clockPeriod (clk s) * fillLatency (cfg s)) by (destruct C1; nia). destruct C1 as [Hp C1].
  destruct H as [S1 S2 S3 S4 S5 S6 S7 S8 S9]. constructor; try done; [apply Hs; lia|].
  unfold clock_ok, now in *. cbn in *. split_and!; try done. lia.
Qed.

(** ** Boot *)

(** A tag store as its constructors and [tagsInit] leave it: the blocks are new,
    the counters are those of the constructor, the line of the indexing policy
    is the block of the tags, and the data fit what a 32-bit offset reaches. *)
Record booted (st : tag_sys P D I) : Prop := {
  bt_init : exists junk b0 p st0, new_CacheBlk junk = Ok b0 /\ new_BaseSetAssoc p (indexingPolicy (tags st0)) None = Ok (tags st0) /\
    fresh_tags b0 st0 /\ tagsInit st0 = Ok (tt, st);
  bt_requestors : 0 <= maxRequestors (tags st) <= 2 ^ 31;
  bt_line : exists k, 2 <= k < 31 /\ blkSize (tags st) = 2 ^ k /\ setShift (geom st) = k;
  bt_size : blkSize (tags st) * numBlocks (tags st) <= 2 ^ 32;
  bt_tick : 0 <= curTick (wld st) <= MaxTick;
}.

(** What holds of the blocks of a booted store. *)
Lemma booted_blk st e o : booted st -> entries (wld st) !! e = Some o ->
  exists k, 0 <= k < numBlocks (tags st) /\ e = blk_loc k /\ blk_data (ext o) = Some (u32 (blkSize (tags st) * k)) /\
    isValid (ext o) = false /\ _tickInserted (ext o) = 0 /\ blank (ext o).
Proof.
  intros [(junk & b0 & p & st0 & Eb & _ & Hf & Hi) _ _ _ _] He.
  destruct (tagsInit_spec b0 st0 tt st Hf Hi) as (_ & _ & _ & _ & _ & Hall).
  destruct (Hall e o He) as (k & Hk & -> & ->). exists k. vm_compute in Eb. injection Eb as <-.
  split; [done|]. by split_and!.
Qed.

(** The tags a constructor makes and [tagsInit] leaves alone. *)
Lemma booted_tags st : booted st -> tags_inv st /\ contents st = ∅ /\ partitionManager (tags st) = None /\
  vsize (occupancies (stats (tags st))) = maxRequestors (tags st) /\ blkMask (tags st) = blkSize (tags st) - 1.
Proof.
  intros [(junk & b0 & p & st0 & _ & Et & Hf & Hi) Hr (k & Hk & Ek & _) _ _].
  destruct (tagsInit_spec b0 st0 tt st Hf Hi) as (H1 & H2 & E & _). rewrite E in *.
  unfold new_BaseSetAssoc in Et. inv_ok Et. injection Et as Et. rewrite <- Et in *. cbn in Hr, Ek |- *. split_and!; try done.
  - unfold vsize. rewrite length_replicate. lia.
  - rewrite Ek. rewrite uwrap_small; [done|]. assert (4 <= 2 ^ k < 2 ^ 31) by (split; [apply (Z.pow_le_mono_r 2 2)|apply Z.pow_lt_mono_r]; lia). lia.
Qed.

Lemma booted_acct st junk : booted st -> acct st (blank_data (blkSize (tags st)) (numBlocks (tags st)) junk).
Proof.
  intros Hb. destruct (booted_tags st Hb) as (_ & _ & E1 & E2 & E3). constructor; try done; try apply Hb.
  intros e o He. destruct (booted_blk st e o Hb He) as (k & Hk & -> & Ed & Hv & Et & _). rewrite Et, Hv. split; [unfold MaxTick; lia|].
  split; [done|]. destruct (blank_data_lookup (blkSize (tags st)) (numBlocks (tags st)) junk k Hk) as (d & Hd & Hz).
  exists (u32 (blkSize (tags st) * k)), d. split_and!; try done.
  destruct (bt_line _ Hb) as (j & Hj & E & _). rewrite Hz, E. assert (0 < 2 ^ j) by (apply Z.pow_pos_nonneg; lia). lia.
Qed.

Lemma booted_intro junk b0 p st0 st : new_CacheBlk junk = Ok b0 -> new_BaseSetAssoc p (indexingPolicy (tags st0)) None = Ok (tags st0) ->
  fresh_tags b0 st0 -> tagsInit st0 = Ok (tt, st) -> 0 <= maxRequestors (tags st0) <= 2 ^ 31 ->
  (exists k, 2 <= k < 31 /\ blkSize (tags st0) = 2 ^ k /\ setShift (geom st0) = k) ->
  blkSize (tags st0) * numBlocks (tags st0) <= 2 ^ 32 -> 0 <= curTick (wld st0) <= MaxTick -> booted st /\ tags st = tags st0 /\ curTick (wld st) = curTick (wld st0).
Proof.
  intros Eb Et Hf Hi Hr Hl Hz Ht. destruct (tagsInit_spec b0 st0 tt st Hf Hi) as (_ & _ & E & _ & Ec & _).
  split; [|done]. unfold geom in Hl. constructor; unfold geom; rewrite ?E, ?Ec; try done. by exists junk, b0, p, st0.
Qed.

(** A cache that has just booted holds what the memory holds. *)
Lemma coupled_boot {alone} lo sec c st temp td junk cs k d : booted st -> isReadOnly c = false -> mostly_exclusive c = false ->
  clock_ok (boot c st temp td junk cs k) -> 0 <= lo -> lo mod blkSize (tags st) = 0 -> vsize d mod blkSize (tags st) = 0 ->
  lo + vsize d < 2 ^ 64 -> coupled_by (alone := alone) lo sec None (boot c st temp td junk cs k) d d.
Proof.
  intros Hb Hc1 Hc2 Hk H0 Hlo Hd Hhi. destruct (booted_tags st Hb) as (Hi & _).
  constructor; cbn [tsys dataBlks boot cfg writeBuffer]; try done.
  - split; [done|by apply booted_acct].
  - intros e o a sec' He Hkey. destruct (booted_blk st e o Hb He) as (j & _ & _ & _ & Hv & _). unfold key_of in Hkey. by rewrite Hv in Hkey.
  - intros e o He _. by destruct (booted_blk st e o Hb He) as (j & _ & _ & _ & _ & _ & ?).
  - intros e e' o o' He He'. destruct (booted_blk st e o Hb He) as (j & Hj & -> & Ed & _).
    destruct (booted_blk st e' o' Hb He') as (j' & Hj' & -> & Ed' & _). rewrite Ed, Ed'. intros [= E].
    destruct (bt_line _ Hb) as (z & Hz & Ez & _). pose proof (bt_size _ Hb). assert (0 < 2 ^ z) by (apply Z.pow_pos_nonneg; lia).
    rewrite !uwrap_small in E by nia. f_equal. nia.
Qed.

(** ** Requests over time *)
Context (junk : Z) (pid_of : Packet -> Z) (gnu : bool) (getLatency : AbstractMemory -> Z) (above : Packet -> Packet)
  (writeAllocator : option bool).

(** The responses of the cache with the memory below to requests at given ticks. *)
Fixpoint run_cache (l : list (Z * Packet)) (t : cc_sys P D I * AbstractMemory) :
    outcome (list Packet * (cc_sys P D I * AbstractMemory)) :=
  match l with
  | [] => Ok ([], t)
  | (now, p) :: l' =>
      let? r := recvAtomic junk (fun _ _ => None) pid_of (mem_send gnu getLatency) above false writeAllocator p (at_tick now t.1, t.2) in
      let? x := run_cache l' r.2 in Ok (r.1.1 :: x.1, x.2)
  end.

(** The responses of a memory. *)
Fixpoint run_memory (l : list (Z * Packet)) (m : AbstractMemory) : outcome (list Packet * AbstractMemory) :=
  match l with
  | [] => Ok ([], m)
  | (_, p) :: l' =>
      let? r := mem_recvAtomic gnu p m in
      let? x := run_memory l' r.2 in Ok (r.1 :: x.1, x.2)
  end.

Context (n lo : Z) (sec : bool).

Lemma run_transparent l s m f dm df : coupled lo sec None s dm df -> mem_holds n lo dm m -> mem_holds n lo df f -> writebacks s = [] ->
  0 < n -> maxRequestors (tags (tsys s)) <= n -> default true writeAllocator = true ->
  Forall (fun x => request_for lo sec s (vsize dm) x.2 /\ tick_ok (cfg s) (clk s) x.1) l ->
  exists rs t f', run_cache l (s, m) = Ok (rs, t) /\ run_memory l f = Ok (rs, f').
Proof.
  revert s m f dm df. induction l as [|[tk p] l IH]; intros s m f dm df H Hm Hf Hw Hn Hmax Hwa HF; [by exists [], (s, m), f|].
  apply Forall_cons in HF as [[R Ht] HF]. cbn [fst snd] in R, Ht.
  pose proof (coupled_tick lo sec s dm df tk H Ht) as H1.
  assert (request_for lo sec (at_tick tk s) (vsize dm) p) as R1 by (by destruct R).
  destruct (recv_run junk pid_of gnu getLatency n lo sec above writeAllocator (at_tick tk s) dm df p m H1 R1 Hm Hw Hn Hmax Hwa)
    as (lat & [s' m'] & E & dm' & H' & Hm' & Hw' & Ec & Ek & Ep). cbn [fst snd] in H', Hm', Hw', Ec, Ek, Ep.
  cbn in Ec, Ek, Ep. destruct (cp_bounds _ _ _ _ _ _ H) as (_ & _ & _ & _ & Ev). destruct (rf_range _ _ _ _ _ R) as [R2 R3].
  pose proof (rf_id _ _ _ _ _ R) as R4. destruct (pp_flags _ (rf_plain _ _ _ _ _ R)) as (_ & _ & _ & F4).
  destruct (access_serves gnu n lo df f p Hf (rf_plain _ _ _ _ _ R)) as (f' & Ef & Hf'); [lia|lia|lia|].
  assert (vsize dm' = vsize dm) as Ev'.
  { destruct (cp_bounds _ _ _ _ _ _ H') as (_ & _ & _ & _ & Ev'). rewrite <- Ev', <- Ev. unfold vsize at 1. rewrite splice_length; [done|].
    pose proof (pp_size _ (rf_plain _ _ _ _ _ R)). pose proof (serve_length p _ (rf_plain _ _ _ _ _ R) (window_length df (pk_addr p - lo) (pk_size p) ltac:(lia) ltac:(lia) ltac:(lia))).
    unfold vsize in *. lia. }
  destruct (IH s' m' f' dm' _ H' Hm' Hf' Hw' Hn) as (rs & t & f2 & E1 & E2).
  { by destruct Ep as (_ & -> & _). }
  { done. }
  { rewrite Ev'. apply (Forall_impl _ _ _ HF). intros [tk' p'] [Q1 Q2]. cbn [fst snd] in *.
    split; [by apply (same_request lo sec s)|]. unfold tick_ok in *. by rewrite Ec, Ek. }
  exists (respond (serve p (window df (pk_addr p - lo) (pk_size p))).1 :: rs), t, f2. cbn [run_cache run_memory fst snd]. split.
  - rewrite E. cbn [obind fst snd]. by rewrite E1.
  - unfold mem_recvAtomic. rewrite F4. cbn [negb ocheck obind]. rewrite Ef. cbn [obind fst snd]. by rewrite E2.
Qed.

(** C2 (refinement). A classic cache, coherent or not, write-back, mostly
    inclusive and writeable, with any of the replacement policies that always
    find a victim and any indexing policy, is invisible: booted over a memory it
    answers any sequence of plain requests (reads, writes, whole-line and masked
    writes, swaps and atomics, cacheable or not, each within a line and at any
    tick) with exactly the packets the memory alone would answer, whatever was
    cached, evicted or written back meanwhile, and it always answers. *)
Theorem cache_transparent c st temp td cs k d m l : booted st -> isReadOnly c = false -> mostly_exclusive c = false ->
  clock_ok (boot c st temp td junk cs k) -> mem_holds n lo d m -> lo mod blkSize (tags st) = 0 -> vsize d mod blkSize (tags st) = 0 ->
  0 < n -> maxRequestors (tags st) <= n -> default true writeAllocator = true ->
  Forall (fun x => request_for lo sec (boot c st temp td junk cs k) (vsize d) x.2 /\ tick_ok c k x.1) l ->
  exists rs t m', run_cache l (boot c st temp td junk cs k, m) = Ok (rs, t) /\ run_memory l m = Ok (rs, m').
Proof.
  intros Hb Hc1 Hc2 Hk Hm Hlo Hd Hn Hmax Hwa Hl. destruct (mh_bounds _ _ _ _ Hm) as (B1 & _ & B2).
  apply (run_transparent l (boot c st temp td junk cs k) m m d d); try done. by apply coupled_boot.
Qed.
End System.

(** ** A system: 2 sets of 2 lines of 4 bytes with LRU, over 64 bytes *)
Module DemoSystem.
Definition cache_params : BaseSetAssocParams := mkTagParams 16 4 4 2 1 0 false 2.
Definition geometry : Geometry := mkGeometry 2 2 2 1 3.
Definition tags0 : BaseSetAssoc SetAssociative :=
  mkBaseSetAssoc 4 3 1 2 (mkSetAssociative geometry) None 0 false 4 2 false (new_TagStats 2).
Definition blk0 : CacheBlk := match new_CacheBlk 0 with Ok b => b | Fault _ => raw_CacheBlk 0 end.
Definition sys0 : tag_sys LRU LRUReplData SetAssociative :=
  mkTagSys tags0 (replicate 2 (replicate 2 None)) (mkWorld new_LRU (raw_blks 4 blk0) ∅ 0).

Definition config : CacheConfig := mkConfig false true false true false 1 1 1.
Definition memory : AbstractMemory :=
  let z := [0; 0] in mkMem (plain_range 4096 4160) (Some (seqZ 0 64)) true true [] [] (mkMemStats z z z z z z).

Definition with_buffer (d : list Z) (p : outcome Packet) : Packet :=
  match (let? p := p in dataStatic d p) with Ok p => p | Fault _ => mkPkt 0 InvalidCmd rq_default [] 0 false 0 [] 0 0 0 end.
Definition read (a size : Z) : Packet := with_buffer (replicate (Z.to_nat size) 0) (createRead (new_Request 0 a size 0 1)).
Definition write (a : Z) (d : list Z) : Packet := with_buffer d (createWrite (new_Request 0 a (vsize d) 0 1)).
Definition swap (a : Z) (d : list Z) : Packet := with_buffer d (createWrite (new_Request 0 a (vsize d) MEM_SWAP 1)).

(** Four lines of one set are written and read, so that dirty ones are evicted. *)
Definition requests : list (Z * Packet) :=
  [(10, write 4096 [201; 202]); (20, read 4097 2); (30, write 4104 [1; 2; 3; 4]); (40, swap 4114 [9; 9]);
   (50, read 4120 4); (60, read 4096 4); (70, read 4112 4); (80, read 4104 4)].

#[local] Abbreviation boot0 st := (boot config st (mkTempCacheBlk (raw_CacheBlk 0) 0 0) [] 0 (mkCacheStats 0 0 0 ∅ ∅ 0) (new_Clocked 500)).

Lemma system_made : new_SetAssociative 16 4 2 = Ok (mkSetAssociative geometry, table sys0) /\
  new_BaseSetAssoc cache_params (mkSetAssociative geometry) None = Ok tags0.
Proof. split; vm_compute; reflexivity. Qed.

Lemma system_fresh : fresh_tags blk0 sys0.
Proof.
  constructor; try done.
  - split; [exists 1; by split_and!|done].
  - split; [done|]. repeat constructor.
Qed.

Lemma system_booted : exists st, tagsInit sys0 = Ok (tt, st) /\ booted st /\ tags st = tags sys0 /\ curTick (wld st) = 0.
Proof.
  assert (match tagsInit sys0 with Ok _ => true | Fault _ => false end = true) as H by (vm_compute; reflexivity).
  destruct (tagsInit sys0) as [[[] st]|] eqn:E; [|done]. exists st. split; [done|].
  apply (booted_intro 0 blk0 cache_params sys0 st); [vm_compute; reflexivity|exact (proj2 system_made)|apply system_fresh|exact E| |exists 2| |];
    vm_compute; intuition discriminate.
Qed.

Ltac plain_request := constructor; [constructor| ..]; vm_compute; intuition discriminate.

Lemma requests_plain (st : tag_sys LRU LRUReplData SetAssociative) : tags st = tags sys0 ->
  Forall (fun x => request_for 4096 false (boot0 st) (vsize (seqZ 0 64)) x.2 /\ tick_ok config (new_Clocked 500) x.1) requests.
Proof.
  intros E. assert (Forall (fun x => request_for 4096 false (boot0 sys0) (vsize (seqZ 0 64)) x.2 /\ tick_ok config (new_Clocked 500) x.1) requests) as H.
  { unfold requests. repeat (apply Forall_cons; split; [split; [plain_request|vm_compute; intuition discriminate]|]). by apply Forall_nil_2. }
  apply (Forall_impl _ _ _ H). intros [t p] [R T]. split; [|done]. apply (same_request _ _ (boot0 sys0)); [done| |done].
  cbn. by rewrite E.
Qed.
End DemoSystem.

Lemma cache_transparent_witness : exists st rs t m', tagsInit DemoSystem.sys0 = Ok (tt, st) /\
  run_cache 0 (fun _ => 0) true (fun _ => 100) (fun p => p) None DemoSystem.requests (boot DemoSystem.config st
    (mkTempCacheBlk (raw_CacheBlk 0) 0 0) [] 0 (mkCacheStats 0 0 0 ∅ ∅ 0) (new_Clocked 500), DemoSystem.memory) = Ok (rs, t) /\
  run_memory true DemoSystem.requests DemoSystem.memory = Ok (rs, m').
Proof.
  destruct DemoSystem.system_booted as (st & Hi & Hb & E & Ec). exists st.
  destruct (cache_transparent 0 (fun _ => 0) true (fun _ => 100) (fun p => p) None 2 4096 false DemoSystem.config st
    (mkTempCacheBlk (raw_CacheBlk 0) 0 0) [] (mkCacheStats 0 0 0 ∅ ∅ 0) (new_Clocked 500) (seqZ 0 64) DemoSystem.memory DemoSystem.requests)
    as (rs & t & m' & E1 & E2).
  - exact Hb.
  - reflexivity.
  - reflexivity.
  - unfold clock_ok, in_step, now. cbn [boot tsys cfg clk]. rewrite Ec. by vm_compute; intuition discriminate.
  - by repeat constructor.
  - rewrite E. reflexivity.
  - rewrite E. reflexivity.
  - lia.
  - rewrite E. done.
  - reflexivity.
  - by apply DemoSystem.requests_plain.
  - exists rs, t, m'. split; [exact Hi|]. split; [exact E1|exact E2].
Defined.
