(* ===== verification/NoncoherentXBar.v ===== *)
(** The non-coherent crossbar in atomic and functional mode:
    [mem/noncoherent_xbar.cc].

    The devices on the memory-side ports are any: [device k] is how the one on
    port [k] answers in atomic mode, [deviceF k] in functional mode.  [queues]
    are the queues of the CPU-side ports.  The statistics of the traffic are
    left out. *)
From Stdlib Require Import ZArith Lia Bool.
From stdpp Require Import base numbers gmap list.
From S2P Require Import Prelude Bitfield AddrRange AddrRangeMap MemRequest MemPacket AbstractMem BaseXBar ClassicFunctional MemorySystem.
Local Open Scope Z_scope.

Section Noncoherent.
Context {D : Type}.

Record NoncoherentXBar := mkNoncoherent { nc_base : BaseXBar; memSidePorts : list D }.

Context (gnu : bool) (device : Z -> Packet -> D -> outcome (Packet * Z * D)) (deviceF : Z -> Packet -> D -> outcome (Packet * D)).
Context (queues : list (Packet -> outcome (Packet * bool))).
Implicit Types x : NoncoherentXBar.

(** [recvAtomicBackdoor]. *)
Definition nc_recvAtomic (pkt : Packet) x : outcome (Packet * Z * NoncoherentXBar) :=
  let? r := getAddrRange pkt in
  let? f := findPort gnu r (nc_base x) in
  let? d := vget (memSidePorts x) f.1 in
  let? q := device f.1 pkt d in
  let? l := vset (memSidePorts x) f.1 q.2 in
  Ok (with_payloadDelay q.1.2 q.1.1, q.1.2, mkNoncoherent f.2 l).

Definition nc_recvFunctional (pkt : Packet) x : outcome (Packet * NoncoherentXBar) :=
  let? q := queues_satisfy queues pkt in
  if q.2 : bool then let? p := (if needsResponse (pk_cmd q.1) then makeResponse q.1 else Ok q.1) in Ok (p, x)
  else
    let? r := getAddrRange q.1 in
    let? f := findPort gnu r (nc_base x) in
    let? d := vget (memSidePorts x) f.1 in
    let? t := deviceF f.1 q.1 d in
    let? l := vset (memSidePorts x) f.1 t.2 in
    Ok (t.1, mkNoncoherent f.2 l).

(** ** Runs *)
Inductive access := Atomic (p : Packet) | Functional (p : Packet).
Definition packet_of (a : access) : Packet := match a with Atomic p => p | Functional p => p end.

(** An answer: the packet and, in atomic mode, the latency. *)
#[local] Abbreviation answer := (Packet * option Z)%type.

Definition nc_access (a : access) x : outcome (answer * NoncoherentXBar) :=
  match a with
  | Atomic p => let? r := nc_recvAtomic p x in Ok (r.1.1, Some r.1.2, r.2)
  | Functional p => let? r := nc_recvFunctional p x in Ok (r.1, None, r.2)
  end.

Fixpoint run_xbar (l : list access) x : outcome (list answer * NoncoherentXBar) :=
  match l with
  | [] => Ok ([], x)
  | a :: l' => let? r := nc_access a x in let? t := run_xbar l' r.2 in Ok (r.1 :: t.1, t.2)
  end.

(** A device alone. *)
Definition alone (k : Z) (a : access) (d : D) : outcome (answer * D) :=
  match a with
  | Atomic p => let? r := device k p d in Ok (r.1.1, Some r.1.2, r.2)
  | Functional p => let? r := deviceF k p d in Ok (r.1, None, r.2)
  end.

Fixpoint run_alone (k : Z) (l : list access) (d : D) : outcome (list answer * D) :=
  match l with
  | [] => Ok ([], d)
  | a :: l' => let? r := alone k a d in let? t := run_alone k l' r.2 in Ok (r.1 :: t.1, t.2)
  end.

(** The answer of a device as it comes out of the crossbar, which writes the
    latency into the packet. *)
Definition through (a : answer) : answer :=
  (match a.2 with Some lat => with_payloadDelay lat a.1 | None => a.1 end, a.2).

(** What belongs to port [k]. *)
Definition part {T : Type} (k : Z) (ks : list (option Z)) (l : list T) : list T := (filter (fun e => e.1 = Some k) (zip ks l)).*2.

Lemma part_hit {T : Type} k ks (a : T) l : part k (Some k :: ks) (a :: l) = a :: part k ks l.
Proof. unfold part. cbn [zip zip_with]. by rewrite filter_cons_True. Qed.

Lemma part_miss {T : Type} k o ks (a : T) l : o <> Some k -> part k (o :: ks) (a :: l) = part k ks l.
Proof. intros H. unfold part. cbn [zip zip_with]. by rewrite filter_cons_False. Qed.

(** ** Where a packet goes *)
Section Routed.
Context (N dp : Z) (udr : bool) (A : gmap Z (list AddrRange)).

(** The packet of the access has an address and a size. *)
Definition addressed (a : access) : Prop := exists q, getAddrRange (packet_of a) = Ok q /\ proper q.

(** The port that takes the access, if any. *)
Definition taken_by (a : access) (o : option Z) : Prop :=
  exists q, getAddrRange (packet_of a) = Ok q /\ proper q /\ goes_to dp udr A q o.

(** The crossbar knows where everything is. *)
Definition knows_devices x : Prop := informed N dp udr A (nc_base x) /\ vsize (memSidePorts x) = N.

Lemma found x a o : knows_devices x -> taken_by a o -> exists q, getAddrRange (packet_of a) = Ok q /\
  match o with
  | Some k => 0 <= k < N /\ exists b, findPort gnu q (nc_base x) = Ok (k, b) /\ forall l, vsize l = N -> knows_devices (mkNoncoherent b l)
  | None => findPort gnu q (nc_base x) = Fault Fatal
  end.
Proof.
  intros [S Hn] (q & Eq & Hq & Ho). exists q. split; [done|]. pose proof (findPort_spec gnu N dp udr A (nc_base x) q S Hq) as Hf.
  destruct (findPort gnu q (nc_base x)) as [[k b]|f].
  - destruct Hf as [S' Hk]. pose proof (goes_to_inj N dp udr A _ q o (Some k) S Hq Ho Hk) as ->.
    split; [by eapply (goes_to_port N dp udr A)|]. exists b. split; [done|]. by intros l Hl.
  - destruct Hf as [-> Hk]. by pose proof (goes_to_inj N dp udr A _ q o None S Hq Ho Hk) as ->.
Qed.

Lemma all_taken x l : knows_devices x -> Forall addressed l -> exists ks, Forall2 taken_by l ks.
Proof.
  intros [S _]. induction 1 as [|a l (q & Eq & Hq) _ [ks IH]]; [by exists []|].
  destruct (goes_somewhere gnu N dp udr A _ q S Hq) as [o Ho]. exists (o :: ks). constructor; [by exists q|done].
Qed.

(** Nothing waits in the queues: in atomic mode nothing is ever put there. *)
Context (Hquiet : forall q p, q ∈ queues -> q p = Ok (p, false)).

Lemma queues_quiet p : queues_satisfy queues p = Ok (p, false).
Proof.
  assert (forall l, (forall q, q ∈ l -> q p = Ok (p, false)) -> queues_satisfy l p = Ok (p, false)) as H.
  { induction l as [|q l IH]; intros Hl; [done|]. cbn [queues_satisfy]. rewrite Hl by (by left). cbn [obind fst snd]. apply IH. intros q' ?. apply Hl. by right. }
  apply H. auto.
Qed.

(** One access is the access of the device alone, or goes nowhere. *)
Lemma access_alone x a k d : knows_devices x -> taken_by a (Some k) -> vget (memSidePorts x) k = Ok d ->
  match alone k a d with
  | Ok (r, d') => exists x', nc_access a x = Ok (through r, x') /\ knows_devices x' /\ vset (memSidePorts x) k d' = Ok (memSidePorts x')
  | Fault f => nc_access a x = Fault f
  end.
Proof.
  intros K T Hd. destruct (found x a (Some k) K T) as (q & Eq & Hk & b & Ef & K').
  assert (forall d', knows_devices (mkNoncoherent b (<[Z.to_nat k := d']> (memSidePorts x)))) as Kd.
  { intros d'. apply K'. destruct K as [_ <-]. unfold vsize. by rewrite length_insert. }
  destruct K as [_ Hn]. destruct a as [p|p]; cbn [alone nc_access packet_of] in *.
  - unfold nc_recvAtomic. rewrite Eq. cbn [obind]. rewrite Ef. cbn [obind fst snd]. rewrite Hd. cbn [obind].
    destruct (device k p d) as [[[r lat] d']|f]; [|done]. cbn [obind fst snd]. rewrite vset_Ok by lia. eexists. split; [done|]. split; [apply Kd|done].
  - unfold nc_recvFunctional. rewrite queues_quiet. cbn [obind fst snd]. rewrite Eq. cbn [obind]. rewrite Ef. cbn [obind fst snd]. rewrite Hd. cbn [obind].
    destruct (deviceF k p d) as [[r d']|f]; [|done]. cbn [obind fst snd]. rewrite vset_Ok by lia. eexists. split; [done|]. split; [apply Kd|done].
Qed.

Lemma access_nowhere x a : knows_devices x -> taken_by a None -> nc_access a x = Fault Fatal.
Proof.
  intros K T. destruct (found x a None K T) as (q & Eq & Ef). destruct a as [p|p]; cbn [nc_access packet_of] in *.
  - unfold nc_recvAtomic. rewrite Eq. cbn [obind]. by rewrite Ef.
  - unfold nc_recvFunctional. rewrite queues_quiet. cbn [obind fst snd]. rewrite Eq. cbn [obind]. by rewrite Ef.
Qed.

(** What becomes of a run: as the devices alone, or up to an access that nobody
    takes, or a device that stops. *)
Definition run_split (l : list access) (ks : list (option Z)) (devs : list D) (o : outcome (list answer * NoncoherentXBar)) : Prop :=
  match o with
  | Ok (rs, x') => length rs = length l /\ None ∉ ks /\ forall k d, vget devs k = Ok d ->
      exists ans d', run_alone k (part k ks l) d = Ok (ans, d') /\ part k ks rs = through <$> ans /\ vget (memSidePorts x') k = Ok d'
  | Fault f => f = Fatal /\ None ∈ ks \/ exists k d, vget devs k = Ok d /\ run_alone k (part k ks l) d = Fault f
  end.

(** A device took the first access. *)
Lemma run_step x x1 a k0 d0 r d1 l ks : vget (memSidePorts x) k0 = Ok d0 -> alone k0 a d0 = Ok (r, d1) -> vset (memSidePorts x) k0 d1 = Ok (memSidePorts x1) ->
  run_split l ks (memSidePorts x1) (run_xbar l x1) ->
  run_split (a :: l) (Some k0 :: ks) (memSidePorts x) (let? t := run_xbar l x1 in Ok (through r :: t.1, t.2)).
Proof.
  intros Hd0 Ea Hset IH. apply vset_Ok_inv in Hset as [Hb E1].
  assert (vget (memSidePorts x1) k0 = Ok d1) as G0 by (rewrite E1; by apply vget_insert).
  assert (forall k, k <> k0 -> vget (memSidePorts x1) k = vget (memSidePorts x) k) as Gk.
  { intros k Hk. rewrite E1. unfold vget. destruct (Z.ltb_spec k 0); [done|]. by rewrite list_lookup_insert_ne by lia. }
  destruct (run_xbar l x1) as [[rs x2]|f]; cbn [obind fst snd run_split] in *.
  - destruct IH as (El & Hno & IH). split; [cbn; congruence|]. split; [rewrite elem_of_cons; by intros [|]|]. intros k d Hd. destruct (decide (k0 = k)) as [<-|Hne].
    + assert (d = d0) as -> by congruence. rewrite !part_hit. cbn [run_alone]. rewrite Ea. cbn [obind fst snd].
      destruct (IH k0 d1 G0) as (ans & d' & E & Ep & Hv). rewrite E. exists (r :: ans), d'. split; [done|]. split; [by rewrite Ep|done].
    + rewrite !part_miss by congruence. apply IH. by rewrite Gk.
  - destruct IH as [[-> Hno]|(k & d & Hd & E)]; [left; split; [done|]; by right|right]. destruct (decide (k0 = k)) as [<-|Hne].
    + exists k0, d0. split; [done|]. rewrite part_hit. cbn [run_alone]. rewrite Ea. cbn [obind fst snd]. assert (d = d1) as -> by congruence. by rewrite E.
    + exists k, d. rewrite part_miss by congruence. split; [by rewrite <- Gk|done].
Qed.

Lemma run_parts l : forall x ks, knows_devices x -> Forall2 taken_by l ks -> run_split l ks (memSidePorts x) (run_xbar l x).
Proof.
  induction l as [|a l IH]; intros x ks K HF; inversion HF as [|? o ? ks' T HF']; subst; cbn [run_xbar].
  { split; [done|]. split; [by intros ?%not_elem_of_nil|]. intros k d Hd. by exists [], d. }
  destruct o as [k0|]; [|rewrite (access_nowhere x a K T); left; split; [done|by left]].
  destruct (found x a (Some k0) K T) as (q & _ & Hk0 & _). pose proof K as [_ Hn]. rewrite <- Hn in Hk0. destruct (vget_total _ _ Hk0) as [d0 Hd0].
  pose proof (access_alone x a k0 d0 K T Hd0) as Ha. destruct (alone k0 a d0) as [[r d1]|f] eqn:Ea.
  2:{ rewrite Ha. cbn [obind]. right. exists k0, d0. split; [done|]. rewrite part_hit. cbn [run_alone]. by rewrite Ea. }
  destruct Ha as (x1 & -> & K1 & Hset). cbn [obind fst snd]. apply (run_step x x1 a k0 d0 r d1 l ks' Hd0 Ea Hset). by apply IH.
Qed.
End Routed.

(** C24 (refinement). A non-coherent crossbar is its devices.  It has any number of
    memory-side ports, perhaps a default port, with or without the use of its
    range; it was told of ranges that are not empty and not interleaved and went
    on; and nothing waits in the queues of its CPU-side ports, as in atomic mode.
    Given any accesses with an address and a size, atomic and functional, each is
    for the port that announced its addresses, or for the default port, or for
    nobody.  The crossbar answers when every access is for a port and no device
    stops: then each device has answered, and is left, as alone with just its
    accesses in their order, the crossbar adding the latency of an atomic access
    to the packet.  Otherwise it stops with [fatal] because an access is for
    nobody, or with the error with which a device, alone, stops. *)
Theorem noncoherent_xbar_is_its_devices (n : nat) (dp udr : bool) changes b devs l :
  (forall q p, q ∈ queues -> q p = Ok (p, false)) -> 0 < num_ports n dp ->
  Forall (fun c => 0 <= c.1 < num_ports n dp /\ Forall proper c.2) changes ->
  range_changes gnu changes (new_BaseXBar n dp udr) = Ok b -> gotAllAddrRanges b = true -> vsize devs = num_ports n dp ->
  Forall addressed l ->
  exists ks, Forall2 (taken_by (default_id n dp) udr (announce (default_id n dp) udr ∅ changes)) l ks /\
    run_split l ks devs (run_xbar l (mkNoncoherent b devs)).
Proof.
  intros Hq Hn HF E Hall Hd HL. pose proof (range_changes_spec gnu (num_ports n dp) (default_id n dp) udr changes ∅ _ (new_routes n dp udr Hn) HF) as H.
  rewrite E in H. destruct H as (_ & _ & HS). destruct (HS Hall) as [S _].
  assert (knows_devices (num_ports n dp) (default_id n dp) udr (announce (default_id n dp) udr ∅ changes) (mkNoncoherent b devs)) as K by done.
  destruct (all_taken _ _ _ _ _ l K HL) as [ks HT]. exists ks. split; [done|]. exact (run_parts _ _ _ _ Hq l _ ks K HT).
Qed.
End Noncoherent.
Arguments NoncoherentXBar : clear implicits.

(** Two memories and, on the default port, a third, whose range is used. *)
Module DemoNoncoherent.
Import DemoSystem.
Definition memory_at (a : Z) : AbstractMemory :=
  let z := [0; 0] in mkMem (plain_range a (a + 64)) (Some (seqZ 0 64)) true true [] [] (mkMemStats z z z z z z).
Definition changes : list (Z * list AddrRange) := [(2, [plain_range 0 64]); (1, [plain_range 8192 8256]); (0, [plain_range 4096 4160])].
Definition base : BaseXBar :=
  match range_changes true changes (new_BaseXBar 2 true true) with Ok b => b | Fault _ => new_BaseXBar 2 true true end.
Definition memories : list AbstractMemory := [memory_at 4096; memory_at 8192; memory_at 0].
Definition accesses : list access :=
  [Atomic (write 4096 [1; 2]); Atomic (write 8192 [3; 4]); Functional (read 4096 2); Atomic (write 0 [5]); Atomic (read 8193 4); Atomic (read 4097 1)].
Definition stray : access := Atomic (read 128 4).
Definition atomic (_ : Z) (p : Packet) (m : AbstractMemory) : outcome (Packet * Z * AbstractMemory) :=
  let? r := mem_recvAtomic true p m in Ok (r.1, 100, r.2).
Definition functional (_ : Z) (p : Packet) (m : AbstractMemory) : outcome (Packet * AbstractMemory) := AbstractMem.functionalAccess true p m.
Definition run (l : list access) := run_xbar true atomic functional [fun p => Ok (p, false)] l (mkNoncoherent base memories).

Lemma all_addressed : Forall addressed (accesses ++ [stray]).
Proof. repeat (apply Forall_cons_2; [eexists; split; [reflexivity|]; split; [done|by vm_compute]|]). constructor. Qed.
End DemoNoncoherent.

Lemma noncoherent_xbar_is_its_devices_witness :
  (exists ks, Forall2 (taken_by 2 true (announce 2 true ∅ DemoNoncoherent.changes)) DemoNoncoherent.accesses ks /\ None ∉ ks) /\
  exists ks, Forall2 (taken_by 2 true (announce 2 true ∅ DemoNoncoherent.changes)) (DemoNoncoherent.accesses ++ [DemoNoncoherent.stray]) ks /\
    (None ∈ ks \/ exists k d, vget DemoNoncoherent.memories k = Ok d /\
      run_alone DemoNoncoherent.atomic DemoNoncoherent.functional k (part k ks (DemoNoncoherent.accesses ++ [DemoNoncoherent.stray])) d = Fault Fatal).
Proof.
  assert (forall l, Forall addressed l -> exists ks, Forall2 (taken_by 2 true (announce 2 true ∅ DemoNoncoherent.changes)) l ks /\
    run_split DemoNoncoherent.atomic DemoNoncoherent.functional l ks DemoNoncoherent.memories (DemoNoncoherent.run l)) as H.
  { intros l. apply (noncoherent_xbar_is_its_devices true DemoNoncoherent.atomic DemoNoncoherent.functional [fun p => Ok (p, false)]
      2 true true DemoNoncoherent.changes DemoNoncoherent.base DemoNoncoherent.memories l).
    - intros q p Hq. by apply list_elem_of_singleton in Hq as ->.
    - reflexivity.
    - repeat constructor; cbn; lia.
    - vm_compute. reflexivity.
    - vm_compute. reflexivity.
    - reflexivity. }
  pose proof DemoNoncoherent.all_addressed as HL. split.
  - apply Forall_app in HL as [HL _]. destruct (H _ HL) as (ks & HT & Hr). exists ks. split; [exact HT|].
    destruct (DemoNoncoherent.run DemoNoncoherent.accesses) as [[rs x']|f] eqn:E; [apply Hr|vm_compute in E; discriminate E].
  - destruct (H _ HL) as (ks & HT & Hr). exists ks. split; [exact HT|].
    destruct (DemoNoncoherent.run _) as [[rs x']|f] eqn:E; [vm_compute in E; discriminate E|].
    assert (f = Fatal) as -> by (vm_compute in E; by injection E). destruct Hr as [[_ ?]|?]; [by left|by right].
Defined.
