(* ===== verification/CoherentSystem.v ===== *)
(** Coherent caches over a crossbar and a memory are one memory: in atomic mode,
    whichever cache a plain cacheable request comes to, its response is the one
    the memory alone would give. *)
From Stdlib Require Import ZArith Lia Bool.
From stdpp Require Import base numbers gmap list.
From S2P Require Import Prelude ReplBase Bitfield AddrRange Indexing CacheBlk Partition Tags TagsInv TagsOps.
From S2P Require Import Bytes MemRequest MemPacket Clocked AbstractMem Serve ClassicCache ClassicOps.
From S2P Require Import ClassicTotal ClassicAccess ClassicSnoop BaseXBar SnoopFilter CoherentXBar ClassicServe Coupled AtomicRuns AtomicSends Transparent.
From S2P Require Import SnoopRuns FilterRuns XBarRuns XBarEvict Serving MemorySystem.
Local Open Scope Z_scope.

(** ** Copies *)
Section Views.
Context (line : Z -> Prop) (lo bs : Z).
#[local] Abbreviation V := (Z -> Z -> option mode).

(** A copy that may be written is the only one, and one copy at most is dirty. *)
Definition owned (v : V) : Prop :=
  forall i j a m m', v i a = Some m -> v j a = Some m' -> i <> j -> m_writable m = false /\ (m_dirty m = true -> m_dirty m' = false).

(** Where no copy is dirty the memory has the bytes. *)
Definition backed (v : V) (dm df : list Z) : Prop :=
  forall a, line a -> (forall i m, v i a = Some m -> m_dirty m = false) -> window dm (a - lo) bs = window df (a - lo) bs.

(** The cache [i] hits in the line [a]; [w] says whether it writes. *)
Definition after_hit (v : V) (i a : Z) (w : bool) : V := fun (j b : Z) =>
  if decide (j = i /\ b = a) then (fun m => mkMode (m_writable m) (m_dirty m || w) (m_since m)) <$> v j b else v j b.

(** The cache [i] gets the line [a] with the request [c] as the copy [m], and
    gives up the line [u]. *)
Definition after_miss (v : V) (i a : Z) (c : Command) (u : option Z) (m : mode) : V := fun (j b : Z) =>
  if decide (j = i) then if decide (b = a) then Some m else if decide (u = Some b) then None else v j b
  else if decide (b = a) then left_by c (v j b) else v j b.

Lemma hit_owned v i a w m0 : owned v -> v i a = Some m0 -> (w = true -> m_writable m0 = true) -> owned (after_hit v i a w).
Proof.
  intros H Hm Hw j k b m m' Hj Hk Hne. unfold after_hit in *.
  destruct (decide (j = i /\ b = a)) as [[-> Ea]|Hd1], (decide (k = i /\ b = a)) as [[-> Eb]|Hd2]; try done; simplify_eq.
  - rewrite Hm in Hj. injection Hj as <-. destruct (H i k a m0 m' Hm Hk Hne) as [A1 A2]. cbn. split; [done|].
    destruct w; [by rewrite Hw in A1|]. by rewrite orb_false_r.
  - rewrite Hm in Hk. injection Hk as <-. destruct (H j i a m m0 Hj Hm Hne) as [A1 A2]. cbn. split; [done|].
    destruct w; [|by rewrite orb_false_r]. destruct (H i j a m0 m Hm Hj ltac:(done)) as [A3 _]. by rewrite Hw in A3.
  - by apply (H j k b).
Qed.

Lemma hit_backed v i a w dm df df' m0 : backed v dm df -> v i a = Some m0 -> (w = false -> df' = df) ->
  (forall b, line b -> b <> a -> window df' (b - lo) bs = window df (b - lo) bs) -> backed (after_hit v i a w) dm df'.
Proof.
  intros H Hm Hw Ho b Hb Hc. unfold after_hit in Hc. destruct (decide (b = a)) as [->|Hne].
  - pose proof (Hc i) as Hi. rewrite decide_True, Hm in Hi by done. specialize (Hi _ eq_refl). cbn in Hi. apply orb_false_iff in Hi as [Hi ->].
    rewrite Hw by done. apply H; [done|]. intros j m Hj. destruct (decide (j = i)) as [->|Hji]; [by simplify_eq|].
    apply (Hc j). by rewrite decide_False by tauto.
  - rewrite Ho by done. apply H; [done|]. intros j m Hj. apply (Hc j). by rewrite decide_False by tauto.
Qed.

(** Others keep a copy of a line that is shared only. *)
Lemma miss_owned v i a c u m : owned v -> (isInvalidate c = false -> m_dirty m = false /\ (m_writable m = true -> forall j, j <> i -> v j a = None)) ->
  owned (after_miss v i a c u m).
Proof.
  intros H Hm. assert (forall j m', j <> i -> left_by c (v j a) = Some m' -> isInvalidate c = false /\ exists m0, v j a = Some m0 /\ m' = mkMode false (m_dirty m0) (m_since m0)) as Hl.
  { intros j m' Hj. unfold left_by. destruct (isInvalidate c); [done|]. destruct (v j a) as [m0|]; [|done]. intros [= <-]. eauto. }
  assert (forall j m', j <> i -> left_by c (v j a) = Some m' -> m_writable m = false /\ m_writable m' = false /\ m_dirty m = false) as Hs.
  { intros j m' Hj (Hi & m0 & E & ->)%Hl; [|done]. destruct (Hm Hi) as [A1 A2]. split_and!; try done.
    destruct (m_writable m); [|done]. by rewrite A2 in E. }
  intros j k b m1 m2 Hj Hk Hne. unfold after_miss in *. destruct (decide (b = a)) as [->|Hb].
  - destruct (decide (j = i)) as [->|Hji], (decide (k = i)) as [->|Hki]; try done; simplify_eq.
    + destruct (Hs k m2 ltac:(done) Hk) as (A1 & A2 & A3). split; [done|congruence].
    + by destruct (Hs j m1 ltac:(done) Hj) as (A1 & A2 & A3).
    + destruct (Hl j m1 Hji Hj) as (_ & n1 & E1 & ->), (Hl k m2 Hki Hk) as (_ & n2 & E2 & ->). split; [done|]. by apply (H j k a n1 n2).
  - assert (forall j' m', (if decide (j' = i) then if decide (u = Some b) then None else v j' b else v j' b) = Some m' -> v j' b = Some m') as Hsub
      by (intros j' m'; repeat case_decide; done).
    by apply (H j k b); [apply Hsub|apply Hsub|].
Qed.

(** The memory has what no copy has. *)
Lemma miss_backed v i a c u m (ud : bool) dm dm' df df' : backed v dm df ->
  (m_dirty m = false -> df' = df /\ (forall m', v i a = Some m' -> m_dirty m' = false) /\
    (isInvalidate c = true -> forall j m', j <> i -> v j a = Some m' -> m_dirty m' = false)) ->
  (forall b, line b -> b <> a -> window df' (b - lo) bs = window df (b - lo) bs) ->
  u <> Some a -> (forall b, u = Some b -> ud = false -> forall m', v i b = Some m' -> m_dirty m' = false) ->
  (forall b, line b -> window dm' (b - lo) bs = if ud && bool_decide (u = Some b) then window df (b - lo) bs else window dm (b - lo) bs) ->
  backed (after_miss v i a c u m) dm' df'.
Proof.
  intros H Hd Ho Hu Hud Hw b Hb Hc. rewrite Hw by done. unfold after_miss in Hc. destruct (decide (b = a)) as [->|Hne].
  - rewrite bool_decide_eq_false_2, andb_false_r by done. pose proof (Hc i m) as Hi. rewrite decide_True in Hi by done.
    destruct (Hd (Hi eq_refl)) as (-> & H1 & H2). apply H; [done|]. intros j m' Hj. destruct (decide (j = i)) as [->|Hji]; [by apply H1|].
    destruct (isInvalidate c) eqn:Hinv; [by apply (H2 eq_refl j)|]. specialize (Hc j). rewrite decide_False, Hj in Hc by done.
    unfold left_by in Hc. rewrite Hinv in Hc. exact (Hc _ eq_refl).
  - rewrite (Ho b) by done. case_bool_decide as Eu; [destruct ud; cbn [andb]; [done|]|rewrite andb_false_r];
      (apply H; [done|]; intros j m' Hj; specialize (Hc j m'); destruct (decide (j = i)) as [->|Hji]; [|by apply Hc]).
    + by eapply Hud.
    + apply Hc. by rewrite decide_False by done.
Qed.
End Views.

Section System.
Context {P D I : Type} {RP : ReplacementPolicy P D} {RPL : ReplacementPolicyLaws P D}
  {IP : IndexingPolicy I} {IPL : IndexingLaws I} {SP : ServingPolicy P D}.
Implicit Types s : cc_sys P D I.
Context (junk : Z) (pid_of : Packet -> Z) (gnu : bool) (packet_id : Packet -> Z) (getLatency : AbstractMemory -> Z)
  (ranges : Z -> list AddrRange) (above : Z -> Packet -> Packet) (writeAllocator : Z -> option bool).
#[local] Abbreviation X := (xsys P D I AbstractMemory).
#[local] Abbreviation quietly := (fun _ : Z => false).
#[local] Abbreviation memory := (fun _ : Z => mem_send gnu getLatency).
#[local] Abbreviation bar := (xbar_recvAtomic junk gnu packet_id ranges above quietly memory).
Implicit Types x : X.

(** ** The system *)

(** A request to the cache on the port [i]; the cache reaches the crossbar. *)
Definition cache_request (fuel : nat) (i : Z) (p : Packet) (x : X) : outcome (Packet * X) :=
  let? s := oget NullDeref (caches x !! i) in
  let? r := recvAtomic junk (fun _ _ => None) pid_of (bar fuel i) (above i) false (writeAllocator i) p
    (s, mkX (xbar x) (delete i (caches x)) (below x)) in
  Ok (r.1.1, mkX (xbar r.2.2) (<[i := r.2.1]> (caches r.2.2)) (below r.2.2)).

(** Time passes for all. *)
Definition system_at (t : Z) (x : X) : X := mkX (xbar x) (at_tick t <$> caches x) (below x).

(** The responses to requests at given ticks and ports. *)
Fixpoint run_caches (fuel : nat) (l : list (Z * Z * Packet)) (x : X) : outcome (list Packet * X) :=
  match l with
  | [] => Ok ([], x)
  | (t, i, p) :: l' =>
      let? r := cache_request fuel i p (system_at t x) in
      let? y := run_caches fuel l' r.2 in Ok (r.1 :: y.1, y.2)
  end.

(** ** What holds of it *)
Context (n lo : Z) (sec : bool) (k : Z) (Hk : 2 <= k < 31) (L : list Port) (idx : Z -> Z) (hi : Z).
#[local] Abbreviation bs := (2 ^ k).
#[local] Abbreviation local s df := (coupled_by (alone := false) lo sec None s df df).
#[local] Abbreviation copy := (copy sec).
#[local] Abbreviation result p df := (serve p (window df (pk_addr p - lo) (pk_size p))).
#[local] Abbreviation after p df := (splice df (Z.to_nat (pk_addr p - lo)) (result p df).2).
#[local] Abbreviation C := (gmap Z (cc_sys P D I)).
Context (Hsee : forall i a, i ∈ getId <$> L -> lo <= a < hi -> inRange gnu (ranges i) a = Ok true).

(** The caches hold the bytes [df]. *)
Record cache_ok (df : list Z) s : Prop := {
  ck_local : local s df;
  ck_size : blk_size s = bs;
  ck_cfg : coherent (cfg s) = true /\ writebacks s = [];
  ck_ids : maxRequestors (tags (tsys s)) <= n;
  ck_since : forall a m, copy s a = Some m -> m_since m <= now s;
}.

(** The copies of the caches, by port and line. *)
Definition view (c : C) (i a : Z) : option mode := c !! i ≫= fun s => copy s a.

(** A line of the memory. *)
Definition line (a : Z) : Prop := lo <= a /\ a + bs <= hi /\ a mod bs = 0.

Record system_ok (df : list Z) x : Prop := {
  sy_bar : bar_ok lo L hi (xbar x) /\ filter_ok k L idx (snoopFilter (xbar x)) /\ covers sec idx (snoopFilter (xbar x)) (caches x);
  sy_ports : forall i, is_Some (caches x !! i) <-> i ∈ getId <$> L;
  sy_caches : forall i s, caches x !! i = Some s -> cache_ok df s;
  sy_owned : owned (view (caches x));
  sy_memory : exists dm, mem_holds n lo dm (below x) /\ vsize dm = vsize df /\ backed line lo bs (view (caches x)) dm df;
  sy_end : hi = lo + vsize df;
}.

(** ** The bytes of other lines *)
Lemma bs_range : 4 <= bs < 2 ^ 31.
Proof. split; [change 4 with (2 ^ 2); apply Z.pow_le_mono_r; lia|apply Z.pow_lt_mono_r; lia]. Qed.

Lemma after_windows s df p : local s df -> blk_size s = bs -> request_for lo sec s (vsize df) p ->
  vsize (after p df) = vsize df /\ forall a, line a -> hi = lo + vsize df -> a <> blk_addr s (pk_addr p) -> window (after p df) (a - lo) bs = window df (a - lo) bs.
Proof.
  intros H Hz R. destruct (request_block _ _ _ _ _ _ _ H R) as (Ha & A1 & A2 & A3 & A4 & A5 & A6). rewrite Hz in Ha, A2, A6.
  pose proof (pp_size _ (rf_plain _ _ _ _ _ R)). pose proof bs_range. set (a0 := blk_addr s (pk_addr p)) in *.
  assert (vsize (result p df).2 = pk_size p) as Lv by (apply serve_length; [apply R|apply window_length; lia]).
  split; [unfold vsize in *; rewrite splice_length; lia|]. intros a (L1 & L2 & L3) -> Hne.
  apply window_splice_out; [lia|lia|lia|]. destruct (aligned_apart bs a a0 ltac:(lia) L3 Ha Hne); lia.
Qed.

(** A cache without a copy of the line that changes. *)
Lemma local_elsewhere s df df' a0 : local s df -> blk_size s = bs -> copy s a0 = None -> vsize df' = vsize df -> hi = lo + vsize df ->
  (forall a, line a -> a <> a0 -> window df' (a - lo) bs = window df (a - lo) bs) -> local s df'.
Proof.
  intros H Hz Hn Hv Hh Hw. pose proof (cp_sound _ _ _ _ _ _ H) as Hs. destruct H as [S1 S2 S3 S4 S5 S6 S7 S8 S9].
  constructor; rewrite ?Hv; try done. intros e o a sec' He Hky. destruct (S6 e o a sec' He Hky) as (-> & B1 & B2 & B3 & B4).
  destruct (key_block _ _ _ _ _ Hs He Hky) as (Ka & _). rewrite Hz in *.
  assert (a <> a0) as Hne.
  { intros ->. assert (copy s a0 = Some (mode_of (ext o))) by (apply copy_Some; eauto). congruence. }
  split_and!; try done. rewrite Hw by (done || split_and!; lia || done). done.
Qed.

(** Only the flat bytes matter to a cache that others share the memory with. *)
Lemma local_of s dm df : coupled_by (alone := false) lo sec None s dm df -> local s df.
Proof.
  intros [S1 S2 S3 S4 S5 S6 S7 S8 S9]. destruct S5 as (B1 & B2 & B3 & B4 & B5).
  constructor; rewrite ?B5; try done. intros e o a sec' He Hky. destruct (S6 e o a sec' He Hky) as (-> & C1 & C2 & C3 & C4). split_and!; try done.
  intros Hst. destruct (C4 Hst) as [E _]. done.
Qed.

(** A cache that does not have the line that changes. *)
Lemma cache_elsewhere s df df' a0 : cache_ok df s -> (df' = df \/ copy s a0 = None) -> vsize df' = vsize df -> hi = lo + vsize df ->
  (forall a, line a -> a <> a0 -> window df' (a - lo) bs = window df (a - lo) bs) -> cache_ok df' s.
Proof.
  intros [C1 C2 C3 C4 C5] [-> |Hn] Hv Hh Hw; [by constructor|]. constructor; try done. by apply (local_elsewhere s df df' a0).
Qed.

(** One that was snooped. *)
Lemma cache_snooped c a df s s' : cache_ok df s -> snooped lo sec c a df s s' -> cache_ok df s'.
Proof.
  intros [C1 C2 C3 C4 C5] [S1 (E1 & (E2 & E3 & _) & E4 & E5 & _) S3]. constructor; unfold blk_size in *; rewrite ?E1, ?E2, ?E3, ?E4; try done.
  intros a' m. rewrite S3, E5. case_decide; [|apply C5]. unfold left_by. destruct (isInvalidate c); [done|].
  destruct (copy s a') as [m0|] eqn:Hc; [|done]. intros [= <-]. exact (C5 a' m0 Hc).
Qed.

(** Copies are of lines of the memory. *)
Lemma copy_line s df a m : local s df -> blk_size s = bs -> hi = lo + vsize df -> copy s a = Some m -> line a.
Proof.
  intros H Hz Eh (e & o & He & Hky & _)%copy_Some; [|apply H]. destruct (cp_block _ _ _ _ _ _ H e o a sec He Hky) as (_ & B1 & B2 & _).
  destruct (key_block _ _ _ _ _ (cp_sound _ _ _ _ _ _ H) He Hky) as (Ka & _). unfold line. by rewrite Eh, <- Hz.
Qed.

(** ** The filter *)

(** The filter takes the caches with a copy for holders. *)
Definition covered (f : option SnoopFilter) (v : Z -> Z -> option mode) : Prop :=
  match f with Some f => forall i b m, v i b = Some m -> held f (line_key sec b) (idx i) = true | None => True end.

Lemma covers_view f c : covers sec idx f c <-> covered f (view c).
Proof.
  destruct f as [f|]; [|done]. unfold covers, covered, view. split.
  - intros H i b m. destruct (c !! i) as [s|] eqn:Hs; [|done]. by eapply H.
  - intros H i s b m Hs Hm. apply (H i b m). by rewrite Hs.
Qed.

(** A view of caches on the ports. *)
Definition on_ports (v : Z -> Z -> option mode) : Prop := forall i b m, v i b = Some m -> i ∈ getId <$> L /\ line b.

Lemma view_on_ports df x : system_ok df x -> on_ports (view (caches x)).
Proof.
  intros [_ Hp Hc _ _ He] i b m. unfold view. destruct (caches x !! i) as [s|] eqn:Hs; [|done]. cbn. intros Hm.
  destruct (Hc i s Hs) as [C1 C2 _ _ _]. split; [apply Hp; eauto|by eapply copy_line].
Qed.

(** The filter after the line [a] went to the port [src]. *)
Lemma given_covers f f1 v src k0 a m : filter_ok k L idx f -> phase sec k0 a src idx f true f1 -> covered f v -> on_ports v -> line a ->
  filter_ok k L idx f1 /\ covered f1 (after_miss v (getId src) a (pk_cmd k0) None m).
Proof.
  intros Hf Hph Hc Hp Ha. unfold phase in Hph. destruct f as [f|], f1 as [f1|]; try done. destruct Hf as (K & Hz & Hq).
  destruct (given_held idx sec _ src a f f1 Hph Hq) as (Q1 & Q2 & Q3 & Q4). pose proof Hph as [Hsp _]. split.
  - split; [by eapply same_ports_knows|]. by destruct Hsp as (_ & _ & ->).
  - intros i b m' Hm. unfold after_miss in Hm. destruct (decide (b = a)) as [->|Hb].
    + destruct (decide (i = getId src)) as [->|Hi]; [done|]. unfold left_by in Hm. destruct (isInvalidate (pk_cmd k0)); [done|].
      destruct (v i a) as [m0|] eqn:Hv; [|done]. apply Q4; [done|]. by apply (Hc i a m0).
    + assert (v i b = Some m') as Hv by (by destruct (decide (i = getId src))). destruct (Hp i b m' Hv) as [_ (_ & _ & Hb2)].
      rewrite Q3; [by apply (Hc i b m')|]. intros E. apply Hb. by apply (line_key_inj sec k Hk); [|apply Ha|].
Qed.

(** After it gave up the line [u]. *)
Lemma forgot_covers f f' v v' src u : filter_ok k L idx f -> forgot sec src idx u f f' -> covered f v -> on_ports v -> src ∈ L ->
  (forall i b m, v' i b = Some m -> v i b = Some m) -> v' (getId src) u = None -> line u ->
  filter_ok k L idx f' /\ covered f' v'.
Proof.
  intros Hf Hg Hc Hp Hs Hsub Hu Hl. unfold forgot in Hg. destruct f as [f|], f' as [f'|]; try done.
  destruct Hf as (K & Hz & Hq). destruct Hg as (Hsp & Hq' & Hh). split.
  - split; [by eapply same_ports_knows|]. by destruct Hsp as (_ & _ & ->).
  - intros i b m Hm. pose proof (Hsub _ _ _ Hm) as Hv. destruct (Hp i b m Hv) as [(p & -> & Hpl)%list_elem_of_fmap (_ & _ & Hb)].
    destruct (kn_bit _ _ _ K p Hpl) as (_ & _ & _ & Hr). rewrite Hh by done. rewrite (Hc _ b m Hv). cbn [andb].
    case_bool_decide as E1; [|done]. case_bool_decide as E2; [|done]. exfalso.
    apply (line_key_inj sec k Hk) in E1; [subst b|done|apply Hl]. apply (kn_apart _ _ _ K) in E2; [subst p|done|done]. congruence.
Qed.

(** ** A request *)

(** What no request changes of a cache. *)
Definition kept s s' : Prop := cfg s' = cfg s /\ params_same (tags (tsys s)) (tags (tsys s')) /\ clockPeriod (clk s') = clockPeriod (clk s) /\ now s' = now s.

Definition steady x x' : Prop :=
  forall j, match caches x !! j, caches x' !! j with Some s, Some s' => kept s s' | None, None => True | _, _ => False end.

Section Step.
Context (df : list Z) x (O : system_ok df x) (src : Port) (HsL : src ∈ L) s (Es : caches x !! getId src = Some s) (Hn : 0 < n).
Context (p : Packet) (R : request_for lo sec s (vsize df) p) (Hu : isUncacheable (pk_req p) = false).
#[local] Abbreviation i := (getId src).
#[local] Abbreviation a := (blk_addr s (pk_addr p)).
#[local] Abbreviation y := (mkX (xbar x) (delete i (caches x)) (below x)).
#[local] Abbreviation df' := (after p df).
Context (Hwa : default true (writeAllocator i) = true).

Lemma step_cache : cache_ok df s.
Proof. by eapply sy_caches. Qed.

Lemma step_view b : view (caches x) i b = copy s b.
Proof. unfold view. by rewrite Es. Qed.

Lemma step_line : line a.
Proof.
  destruct (request_block _ _ _ _ _ _ _ (ck_local _ _ step_cache) R) as (Ha & A1 & A2 & _). unfold line.
  rewrite (sy_end _ _ O). by rewrite <- (ck_size _ _ step_cache).
Qed.

Lemma step_windows : vsize df' = vsize df /\ forall b, line b -> b <> a -> window df' (b - lo) bs = window df (b - lo) bs.
Proof.
  destruct (after_windows s df p (ck_local _ _ step_cache) (ck_size _ _ step_cache) R) as [E H]. split; [done|].
  intros b Hb. apply H; [done|]. apply O.
Qed.

(** The rest of the system stays as it is. *)
Lemma steady_insert s' : kept s s' -> steady x (mkX (xbar x) (<[i := s']> (caches x)) (below x)).
Proof.
  intros Hk' j. cbn [caches]. destruct (decide (j = i)) as [->|Hj]; [by rewrite Es, lookup_insert_eq|].
  rewrite lookup_insert_ne by done. destruct (caches x !! j); [|done]. by repeat split.
Qed.

Lemma ports_insert s' (c : C) : (forall j, is_Some (c !! j) <-> j ∈ getId <$> L /\ j <> i) -> forall j, is_Some (<[i := s']> c !! j) <-> j ∈ getId <$> L.
Proof.
  intros H j. destruct (decide (j = i)) as [->|Hj].
  - rewrite lookup_insert_eq. split; [|done]. intros _. by apply list_elem_of_fmap_2.
  - rewrite lookup_insert_ne by done. rewrite H. tauto.
Qed.

Lemma ports_delete j : is_Some (delete i (caches x) !! j) <-> j ∈ getId <$> L /\ j <> i.
Proof.
  destruct (decide (j = i)) as [->|Hj]; [rewrite lookup_delete_eq; split; [by intros [? ?]|tauto]|].
  rewrite lookup_delete_ne by done. rewrite (sy_ports _ _ O). tauto.
Qed.

(** *** Hits *)
Lemma hit_view s' w : marks sec a w s s' -> forall j b, view (<[i := s']> (caches x)) j b = after_hit (view (caches x)) i a w j b.
Proof.
  intros M j b. unfold after_hit, view. destruct (decide (j = i)) as [->|Hj].
  - rewrite lookup_insert_eq, Es. cbn. rewrite M. destruct (decide (b = a)) as [->|Hb]; [by rewrite decide_True|by rewrite decide_False by tauto].
  - rewrite lookup_insert_ne by done. by rewrite decide_False by tauto.
Qed.

#[local] Abbreviation base_recv fuel := (base_recvAtomic junk (fun _ _ => None) pid_of (bar fuel i) (above i) false (writeAllocator i)).

Lemma hit_step fuel : hits sec s p -> exists lat s' x', base_recv fuel p (s, y) = Ok ((respond (result p df).1, lat), (s', y)) /\
  x' = mkX (xbar x) (<[i := s']> (caches x)) (below x) /\ system_ok df' x' /\ steady x x'.
Proof.
  intros Hh. destruct step_cache as [C1 C2 [C3 C4] C5 C6]. destruct step_windows as [Ev Hw]. destruct O as [(B1 & B2 & B3) O2 O3 O4 (dm & M1 & M2 & M3) O6].
  destruct (recv_hit junk pid_of lo sec (bar fuel i) (above i) (writeAllocator i) s df df p y C1 R Hh C4 ltac:(done)) as (lat & s' & w & E & H' & Sv & Hm & Hw1 & Hw2).
  exists lat, s', (mkX (xbar x) (<[i := s']> (caches x)) (below x)). split; [done|]. split; [done|].
  pose proof Sv as ((A1 & _ & _ & A4 & _ & _ & _ & A8) & _ & Ep & En). pose proof Ep as (P1 & P2 & P3 & _).
  assert (w = true -> exists m, copy s a = Some m /\ m_writable m = true) as Hwr.
  { intros Ew. destruct Hh as (m & Hc & Hp). exists m. split; [done|]. apply Hp. apply plain_write_writable; [apply R|auto]. }
  destruct Hh as (m0 & Hc & _). pose proof (hit_view s' w Hm) as Hv.
  split; [|apply steady_insert; unfold kept; rewrite A4; by split_and!]. constructor; cbn [xbar caches below]; rewrite ?Ev; try done.
  - split; [done|]. split; [done|]. apply covers_view. apply covers_view in B3. unfold covered in *. destruct (snoopFilter (xbar x)) as [f|]; [|done].
    intros j b m. rewrite Hv. unfold after_hit. destruct (decide (j = i /\ b = a)) as [[-> ->]|Hd]; [|apply B3].
    destruct (view (caches x) i a) as [m1|] eqn:Hv1; [|done]. intros _. by apply (B3 _ _ m1).
  - intros j. destruct (decide (j = i)) as [->|Hj]; [rewrite lookup_insert_eq; rewrite <- O2, Es; split; eauto|by rewrite lookup_insert_ne].
  - intros j t Ht. destruct (decide (j = i)) as [->|Hj].
    + rewrite lookup_insert_eq in Ht. injection Ht as <-. constructor; unfold blk_size in *; rewrite ?A1, ?A8, ?P1, ?P2; try done; [by eapply local_of|].
      intros b m. rewrite Hm, En. case_decide; [|apply C6]. destruct (copy s b) as [m1|] eqn:Hb; [|done]. intros [= <-]. exact (C6 b m1 Hb).
    + rewrite lookup_insert_ne in Ht by done. apply (cache_elsewhere t df df' a); try done; [by apply (O3 j)|].
      destruct w; [right|left; auto]. destruct (Hwr eq_refl) as (m & Hm1 & Hm2). destruct (copy t a) as [m'|] eqn:Ht'; [|done].
      destruct (O4 i j a m m') as [Hf _]; [by rewrite step_view|unfold view; by rewrite Ht|done|congruence].
  - intros j j' b m m'. rewrite !Hv. apply (hit_owned _ i a w m0); [done|by rewrite step_view|].
    intros Ew. destruct (Hwr Ew) as (m1 & Hm1 & Hm2). congruence.
  - exists dm. split; [done|]. split; [done|]. intros b Hb Hd. apply (hit_backed line lo bs (view (caches x)) i a w dm df df' m0); try done.
    + by rewrite step_view.
    + intros j m Hj. apply (Hd j). by rewrite Hv.
Qed.

(** *** The room for a line *)

(** What is below the cache when it gives up a line. *)
Record below_ok (dm : list Z) (w : Z -> Z -> option mode) x1 : Prop := {
  be_bar : bar_ok lo L hi (xbar x1);
  be_filter : filter_ok k L idx (snoopFilter (xbar x1)) /\ covered (snoopFilter (xbar x1)) w /\ on_ports w;
  be_ports : forall j, is_Some (caches x1 !! j) <-> j ∈ getId <$> L /\ j <> i;
  be_caches : forall j t, caches x1 !! j = Some t -> cache_ok df t;
  be_memory : mem_holds n lo dm (below x1) /\ vsize dm = vsize df;
}.

(** The line [u] has been given up, written back if [ud]. *)
Record room_made dm (u : option Z) (ud : bool) (w' : Z -> Z -> option mode) x1 x2 dm' : Prop := {
  rm_same : same_bar x1 x2 /\ caches x2 = caches x1;
  rm_filter : filter_ok k L idx (snoopFilter (xbar x2)) /\ covered (snoopFilter (xbar x2)) w';
  rm_memory : mem_holds n lo dm' (below x2) /\ vsize dm' = vsize dm;
  rm_bytes : forall b, line b -> window dm' (b - lo) bs = if ud && bool_decide (u = Some b) then window df (b - lo) bs else window dm (b - lo) bs;
}.

Lemma room_kept dm w w' x1 u : below_ok dm w x1 -> (forall j b m, w' j b = Some m -> w j b = Some m) -> room_made dm u false w' x1 x1 dm.
Proof.
  intros [B1 (B2 & B3 & _) B4 B5 [B6 _]] Hsub. constructor; try done.
  - split; [|done]. by apply same_bar_refl.
  - split; [done|]. unfold covered in *. destruct (snoopFilter (xbar x1)) as [f|]; [|done]. intros j b m Hm. by apply (B3 j b m), Hsub.
Qed.

(** A packet of the line is sent down. *)
Lemma room_sent fuel dm w w' x1 u c pkt d : below_ok dm w x1 -> (forall j b m, w' j b = Some m -> w j b = Some m) -> w' i u = None -> line u ->
  is_Some (w i u) -> evict_packet pkt c u sec bs -> c = WritebackDirty \/ c = WritebackClean \/ c = CleanEvict -> isBlockCached pkt = false ->
  (c = WritebackDirty -> down_packet pkt c u sec d /\ d = window df (u - lo) bs /\ vsize d = bs) ->
  exists q lat x2 dm', bar (S fuel) i pkt x1 = Ok (q, lat, x2) /\ room_made dm (Some u) (bool_decide (c = WritebackDirty)) w' x1 x2 dm'.
Proof.
  intros [B1 (B2 & B3 & B3') B4 B5 [B6 B6']] Hsub Hu' Hl [mu Hmu] Hev Hc Hbc Hd. pose proof Hl as (L1 & L2 & L3). pose proof (sy_end _ _ O) as Hhi.
  pose proof bs_range as Hbs. destruct (mh_bounds _ _ _ _ B6) as (M1 & M2 & M3).
  destruct (eviction_landed junk gnu packet_id getLatency ranges above n lo sec k Hk src L idx (bar fuel) hi dm df x1 u c pkt d B1 HsL B2 B6 Hn B4)
    as (q & lat & x2 & E & Ec & Hm' & Hb & Hfg); try done.
  - intros j t Ht. destruct (B5 j t Ht) as [C1 C2 _ _ _]. split; [done|]. split; [done|]. apply Hsee; [by apply B4; eauto|lia].
  - lia.
  - lia.
  - intros Ed. destruct (Hd Ed) as (D1 & _ & D3). done.
  - intros f Ef. unfold covered in B3. rewrite Ef in B3. by apply (B3 i u mu).
  - assert (c = WritebackDirty -> vsize d = bs) as Hvd by (intros Ed; by destruct (Hd Ed) as (_ & _ & D3)).
    exists q, lat, x2, (evicted lo dm u c d). split; [exact E|]. constructor; [done| | |].
    + by apply (forgot_covers (snoopFilter (xbar x1)) (snoopFilter (xbar x2)) w w' src u).
    + split; [done|]. unfold evicted. case_bool_decide as Ed; [|done]. specialize (Hvd Ed). unfold vsize in *. rewrite splice_length; lia.
    + intros b Hb'. unfold evicted. case_bool_decide as Ed; [|done]. destruct (Hd Ed) as (_ & D2 & D3). cbn [andb]. case_bool_decide as Eb.
      * injection Eb as <-. rewrite <- D2. rewrite <- D3 at 1. apply window_splice_all; lia.
      * destruct Hb' as (Q1 & Q2 & Q3). apply window_splice_out; [lia|lia|lia|]. rewrite D3.
        destruct (aligned_apart bs b u ltac:(lia) Q3 L3 ltac:(congruence)); lia.
Qed.

(** All that is sent down for room. *)
Lemma room_run fuel dm w w' x1 s1 l u dmx : below_ok dm w x1 -> (forall j b m, w' j b = Some m -> w j b = Some m) -> (forall b, u = Some b -> w' i b = None) ->
  local s1 df -> blk_size s1 = bs -> (forall b, u = Some b -> w i b = copy s1 b) -> made_room lo s1 df l u dmx ->
  exists x2 ud dm', sends (bar (S fuel) i) l x1 x2 /\ room_made dm u ud w' x1 x2 dm' /\
    (forall b, u = Some b -> ud = false -> forall m, copy s1 b = Some m -> m_dirty m = false).
Proof.
  intros Bo Hsub Hno H1 Hz Hw [(-> & -> & _)|(e & o & b0 & He & Hv & -> & _)]; [by exists x1, false, dm; split; [|split; [eapply room_kept|]]|].
  unfold vacated in Hv. destruct (key_of _ o) as [[u sec']|] eqn:Hky; cbn in *; [|destruct Hv as [_ ->]; by exists x1, false, dm; split; [|split; [eapply room_kept|]]].
  destruct (cp_block _ _ _ _ _ _ H1 e o u sec' He Hky) as (-> & _ & _ & _ & Hbytes). destruct (Hbytes ltac:(done)) as [Hby _].
  destruct (key_block _ _ _ _ _ (cp_sound _ _ _ _ _ _ H1) He Hky) as (_ & _ & _ & _ & Hvb). rewrite Hz in *.
  assert (copy s1 u = Some (mode_of (ext o))) as Hcp by (apply copy_Some; [apply H1|eauto]).
  assert (_secure (ext o) = sec) as Hsec by (by destruct (key_aligned _ _ e o u sec (proj1 (cp_sound _ _ _ _ _ _ H1)) (proj2 (cp_sound _ _ _ _ _ _ H1)) He Hky) as (_ & _ & _ & _ & _ & -> & _)).
  assert (line u) as Hlu by (eapply (copy_line s1 df); try done; apply O).
  destruct Hv as (_ & Hbc & Hsd). rewrite Hsec, Hvb in Hsd.
  assert (isSet DirtyBit (ext o) = false -> forall b, Some u = Some b -> forall m, copy s1 b = Some m -> m_dirty m = false) as Hcl.
  { intros Hd b [= <-] m. rewrite Hcp. by intros [= <-]. }
  destruct (isSet DirtyBit (ext o)) eqn:Hd.
  - destruct Hsd as (pkt & -> & Hdp). apply Forall_cons in Hbc as [Hbc _].
    destruct (room_sent fuel dm w w' x1 u WritebackDirty pkt (bytes_of s1 (ext o)) Bo Hsub (Hno u eq_refl) Hlu) as (q & lat & x2 & dm' & E & Hrm); try done.
    + by rewrite (Hw u eq_refl), Hcp.
    + rewrite <- Hvb. apply Hdp.
    + by left.
    + exists x2, true, dm'. split; [by exists q, lat, x2|]. done.
  - destruct Hsd as [Hlen Hall]. destruct l as [|pkt [|]]; [by exists x1, false, dm; split; [|split; [eapply room_kept|intros b Hb _; apply Hcl]]| |cbn in Hlen; lia].
    apply Forall_cons in Hbc as [Hbc _]. apply Forall_cons in Hall as [(c & Hc & Hev) _].
    destruct (room_sent fuel dm w w' x1 u c pkt [] Bo Hsub (Hno u eq_refl) Hlu) as (q & lat & x2 & dm' & E & Hrm); try done; [by rewrite (Hw u eq_refl), Hcp|auto|by destruct Hc as [-> | ->]|].
    assert (bool_decide (c = WritebackDirty) = false) as Eb by (by destruct Hc as [-> | ->]). rewrite Eb in Hrm.
    exists x2, false, dm'. split; [by exists q, lat, x2|]. split; [done|]. intros b Hb _. by apply Hcl.
Qed.

(** *** Misses *)
#[local] Abbreviation blk := (contents (tsys s) !! (a, sec)).
#[local] Abbreviation present b := (match b with Some _ => true | None => false end).
#[local] Abbreviation v := (view (caches x)).

Section Miss.
Context (wl : bool) (Hwl : wl = true -> overwrites s p) (Hmiss : ~ hits sec s p).
#[local] Abbreviation c := (coherent_cmd (present blk) (needsWritable (pk_cmd p)) wl).

(** Without a copy it asks for the bytes or writes all of them; with one, for
    the right to write. *)
Lemma miss_kind : snoop_cmd c /\ (isInvalidate c = false -> needsWritable (pk_cmd p) = false) /\ (needsWritable (pk_cmd p) = true -> isInvalidate c = true) /\
  (isRead c = true -> copy s a = None) /\ (isInvalidate c = false -> isRead c = true).
Proof.
  pose proof (cp_sound _ _ _ _ _ _ (ck_local _ _ step_cache)) as So. unfold snoop_cmd, coherent_cmd.
  assert (wl = true -> needsWritable (pk_cmd p) = true) as H1.
  { intros Hw. destruct (Hwl Hw) as (Hwr & _). apply plain_write_writable; [apply R|done]. }
  assert (present blk = true -> needsWritable (pk_cmd p) = true) as H2.
  { destruct blk as [e|] eqn:Hb; [|done]. intros _. destruct (needsWritable (pk_cmd p)) eqn:Hnw; [done|]. exfalso. apply Hmiss.
    destruct (copy s a) as [m|] eqn:Hm; [exists m; by rewrite Hnw|]. apply copy_None in Hm; [congruence|done]. }
  assert (present blk = false -> copy s a = None) as H3 by (intros Hb; apply copy_None; [done|by destruct blk]).
  destruct wl, (present blk), (needsWritable (pk_cmd p)); split_and!; try done; auto; intros; discriminate H2 || discriminate H1 || auto.
Qed.

(** The packet it sends. *)
Lemma miss_request : exists pkt, MemPacket.allocate junk (new_Packet_blk (pk_req p) c (blk_size s)) = Ok pkt /\ fresh_request sec k pkt a /\
  pk_cmd pkt = c /\ pk_req pkt = pk_req p /\ headerDelay pkt = 0 /\ (isRead c = true -> plain_packet pkt).
Proof.
  destruct step_cache as [H C2 _ _ _]. destruct miss_kind as (K1 & _). pose proof (coherent_cmd_miss (present blk) (needsWritable (pk_cmd p)) wl) as Hc.
  destruct (miss_addr lo sec None s df df p H R c) as (E1 & E2 & E3 & E4 & _). destruct (rf_req _ _ _ _ _ R) as (Q1 & _).
  destruct (snoop_cmd_facts _ K1) as (F1 & F2 & _). rewrite C2 in *. set (k0 := new_Packet_blk (pk_req p) c bs) in *. destruct (isRead c) eqn:Hr.
  - destruct (miss_read junk lo sec None s df df p H R c Hc Hr) as [Ea Hp]. rewrite C2 in Ea, Hp. fold k0 in Ea, Hp. eexists. split; [exact Ea|].
    split; [|by split_and!]. destruct (pp_flags _ Hp) as (P1 & P2 & P3 & P4).
    constructor; try done.
    + unfold hasSharers, cacheResponding, responderHadWritable, has_flag, set_flag. cbn [pk_flags with_flags with_bytes]. by rewrite E4.
    + intros _. split; [done|]. cbn [pk_data set_flag with_flags with_bytes]. unfold vsize. rewrite length_replicate. pose proof bs_range. lia.
    + apply R.
  - exists k0. split; [pose proof (miss_bare junk s p c Hc Hr) as Ea; by rewrite C2 in Ea|]. split; [|by split_and!].
    constructor; try done; [|unfold hasSharers, cacheResponding, responderHadWritable, has_flag; by rewrite E4| |apply R].
    + constructor; try done. unfold has_flag. by rewrite E4.
    + change (pk_cmd k0) with c. by rewrite Hr.
Qed.

(** What the answer makes of it. *)
Lemma miss_answer pkt q sh rs : pk_cmd pkt = c -> pk_req pkt = pk_req p -> headerDelay pkt = 0 -> reply lo sec k pkt a df q sh rs ->
  (sh = true -> isInvalidate c = false) -> answer (alone := false) lo sec s df p blk wl q.
Proof.
  intros Ec Er Eh [R1 R2 R3 (R4 & R5 & R6) [R7 R7'] R8 R9 R10] Hsh. destruct miss_kind as (K1 & K2 & K3 & K4 & K5). destruct step_cache as [H C2 _ _ _].
  rewrite Ec in R1, R10. destruct (snoop_cmd_facts _ K1) as (_ & _ & _ & _ & _ & F6 & _ & F8 & _).
  assert (isRead (responseCommand c) = isRead c /\ (isRead c = true -> responseCommand c <> InvalidateResp) /\ (isRead c = false -> responseCommand c = InvalidateResp \/ responseCommand c = UpgradeResp) /\
    isWrite (responseCommand c) = false) as (G1 & G2 & G3 & G4)
    by (destruct K1 as [-> | [-> | [-> | ->]]]; split_and!; try done; auto).
  pose proof (window_length df (a - lo) bs) as Hwin. destruct step_line as (L1 & L2 & L3). pose proof bs_range. pose proof (sy_end _ _ O).
  constructor; try done.
  - constructor; try done.
    + by rewrite R1.
    + rewrite R8, R1, G1. intros Hs. split; [done|]. auto.
    + rewrite R2, Er. apply R.
    + split; [congruence|done].
    + rewrite R1, G1, F8, C2, R6. destruct (isRead c) eqn:Hr; [left|right; auto]. destruct (R10 eq_refl) as [D1 D2]. split_and!; try done; [auto| |].
      * unfold isMaskedWrite. rewrite R1. destruct K1 as [-> | [-> | [-> | ->]]]; done.
      * rewrite D2. apply Hwin; lia.
  - congruence.
  - rewrite R1, G1, C2. intros Hr. by apply R10.
  - intros Hnw. rewrite R8. destruct sh; [|done]. rewrite K3 in Hsh by done. by discriminate Hsh.
Qed.

(** The copies elsewhere. *)
Lemma elsewhere_view m : elsewhere sec a y m <-> exists j, j <> i /\ v j a = Some m.
Proof.
  unfold elsewhere, view. cbn [caches]. split.
  - intros (j & t & Ht & Hm). destruct (decide (j = i)) as [->|Hj]; [by rewrite lookup_delete_eq in Ht|]. rewrite lookup_delete_ne in Ht by done.
    exists j. split; [done|]. by rewrite Ht.
  - intros (j & Hj & Hm). destruct (caches x !! j) as [t|] eqn:Ht; [|done]. exists j, t. by rewrite lookup_delete_ne.
Qed.

(** What the crossbar does with it. *)
Record miss_sent (pkt q : Packet) x1 (sh rs : bool) dm : Prop := {
  ms_answer : answer (alone := false) lo sec s df p blk wl q /\ hasSharers q = sh /\ cacheResponding q = rs;
  ms_cmd : pk_cmd pkt = c;
  ms_caches : all_snooped lo sec pkt a df (caches y) (caches x1);
  ms_bar : same_bar y x1 /\ phase sec pkt a src idx (snoopFilter (xbar x)) true (snoopFilter (xbar x1));
  ms_memory : mem_holds n lo dm (below x1) /\ vsize dm = vsize df /\ backed line lo bs v dm df;
  ms_sh : sh = true <-> isInvalidate c = false /\ exists j m, j <> i /\ v j a = Some m;
  ms_rs : rs = true <-> exists j m, j <> i /\ v j a = Some m /\ m_dirty m = true;
}.

Lemma miss_ready : snoop_ready gnu ranges lo sec k a df src L idx (snoopFilter (xbar x)) y.
Proof.
  destruct O as [(B1 & B2 & B3) O2 O3 O4 _ O6]. destruct step_line as (L1 & L2 & L3). pose proof bs_range.
  assert (forall j t, caches y !! j = Some t -> caches x !! j = Some t /\ j <> i) as Hd by (cbn [caches]; intros j t [? ?]%lookup_delete_Some; done).
  constructor.
  - split; [done|]. split; [done|]. split; [done|]. unfold covers in *. destruct (snoopFilter (xbar x)) as [f|]; [|done].
    intros j t b m [Ht _]%Hd Hm. by apply (B3 j t b m).
  - apply ports_delete.
  - intros j t [Ht _]%Hd. destruct (O3 j t Ht) as [C1 C2 _ _ _]. split; [done|]. split; [done|]. apply Hsee; [apply O2; eauto|lia].
  - intros j j' t t' m m' [Ht _]%Hd [Ht' _]%Hd Hm Hm' D1 D2. destruct (decide (j = j')) as [->|Hne]; [done|].
    destruct (O4 j j' a m m') as [_ Hx]; [unfold view; by rewrite Ht|unfold view; by rewrite Ht'|done|]. by rewrite Hx in D2.
Qed.

Lemma miss_sends fuel : exists pkt q lat x1 sh rs dm, MemPacket.allocate junk (new_Packet_blk (pk_req p) c (blk_size s)) = Ok pkt /\
  bar (S fuel) i pkt y = Ok (q, lat, x1) /\ miss_sent pkt q x1 sh rs dm.
Proof.
  destruct miss_request as (pkt & Ea & F & Ec & Er & Eh & Hpl). destruct miss_kind as (K1 & K2 & K3 & K4 & K5). pose proof step_line as Hl. pose proof Hl as (L1 & L2 & L3).
  pose proof step_cache as [C1 C2 _ C4 _]. pose proof O as [(B1 & B2 & B3) O2 O3 O4 (dm & M1 & M2 & M3) O6]. pose proof bs_range as Hbs.
  destruct (mh_bounds _ _ _ _ M1) as (N1 & N2 & N3). pose proof (rf_id _ _ _ _ _ R) as Hid.
  destruct (request_answered junk gnu packet_id getLatency ranges above n lo sec k Hk pkt a df F ltac:(lia) L3 ltac:(apply window_length; lia)
    src L idx (snoopFilter (xbar x)) (bar fuel) hi dm y B1 miss_ready M1 ltac:(lia)) as (q & lat & x1 & sh & rs & E & Hre & Hsn & Hm & Hb & Hph & Hsh & Hrs).
  - rewrite Ec, Er. intros Hr. split; [auto|lia].
  - rewrite Ec. intros Hr Hcl. apply M3; [done|]. intros j m Hj. destruct (decide (j = i)) as [->|Hji].
    + rewrite step_view, K4 in Hj by done. done.
    + apply Hcl, elsewhere_view. eauto.
  - exists pkt, q, lat, x1, sh, rs, dm. split; [done|]. split; [exact E|]. rewrite Ec in Hsh.
    assert (sh = true -> isInvalidate c = false) as Hshi by (intros Hs; by apply Hsh).
    constructor; try done.
    + split; [by eapply miss_answer|]. split; apply Hre.
    + rewrite Hsh. setoid_rewrite elsewhere_view. clear; naive_solver.
    + rewrite Hrs. setoid_rewrite elsewhere_view. clear; naive_solver.
Qed.

(** The copies once the line is there. *)
Definition got (q : Packet) (w : bool) : mode :=
  let m := granted q (default (mkMode false false (now s)) (copy s a)) in mkMode (m_writable m) (m_dirty m || w) (m_since m).

Section Answered.
Context (pkt q : Packet) x1 (sh rs : bool) dm (Ms : miss_sent pkt q x1 sh rs dm).
Context (w : bool) (Hw : (w = true -> isWrite (pk_cmd p) = true) /\ (w = false -> df' = df)).

Lemma shared_unwritten : isInvalidate c = false -> w = false /\ copy s a = None /\ (sh = false -> forall j, j <> i -> v j a = None).
Proof.
  intros Hi. destruct miss_kind as (_ & K2 & _ & K4 & K5). split_and!; [|auto|].
  - destruct w; [|done]. pose proof (plain_write_writable _ (pp_cmd _ (rf_plain _ _ _ _ _ R)) (proj1 Hw eq_refl)). by rewrite K2 in *.
  - intros Hs j Hj. destruct (v j a) as [m|] eqn:Hm; [|done]. assert (sh = true) by (apply (ms_sh _ _ _ _ _ _ Ms); eauto). congruence.
Qed.

Lemma miss_keeps_owned u : owned (after_miss v i a c u (got q w)).
Proof.
  apply miss_owned; [apply O|]. intros Hi. destruct (shared_unwritten Hi) as (Ew & Hc & Hno). unfold got. rewrite Hc, Ew. cbn [m_dirty m_writable granted default].
  destruct (ms_answer _ _ _ _ _ _ Ms) as (_ & -> & ->). destruct sh eqn:Hsh; [done|]. cbn. split; [|auto]. rewrite orb_false_r.
  destruct rs; [|done]. destruct (proj1 (ms_rs _ _ _ _ _ _ Ms) eq_refl) as (j & m & Hj & Hm & _). by rewrite Hno in Hm.
Qed.

Lemma miss_keeps_backed u ud dm' : u <> Some a -> (forall b, u = Some b -> ud = false -> forall m', v i b = Some m' -> m_dirty m' = false) ->
  (forall b, line b -> window dm' (b - lo) bs = if ud && bool_decide (u = Some b) then window df (b - lo) bs else window dm (b - lo) bs) ->
  backed line lo bs (after_miss v i a c u (got q w)) dm' df'.
Proof.
  intros Hu1 Hu2 Hb. apply (miss_backed line lo bs v i a c u (got q w) ud dm dm' df df'); try done; [apply Ms| |apply step_windows].
  unfold got. destruct (ms_answer _ _ _ _ _ _ Ms) as (_ & E1 & E2). cbn [m_dirty m_writable granted]. rewrite E1, E2. intros [[D1 D2]%orb_false_iff D3]%orb_false_iff.
  split; [by apply Hw|]. split.
  - intros m'. rewrite step_view. intros E. by rewrite E in D1.
  - intros Hi j m' Hj Hm. destruct (m_dirty m') eqn:Hd; [|done].
    assert (rs = true) as Hrs by (apply (ms_rs _ _ _ _ _ _ Ms); eauto). rewrite Hrs in D2.
    destruct sh eqn:Hsh; [|done]. destruct (proj1 (ms_sh _ _ _ _ _ _ Ms) eq_refl) as [Hf _]. congruence.
Qed.

(** The other caches. *)
Lemma miss_others j t : caches x1 !! j = Some t -> j <> i /\ exists t0, caches x !! j = Some t0 /\ cache_ok df t /\ cache_ok df' t /\ kept t0 t /\
  forall b, copy t b = if decide (b = a) then left_by c (copy t0 b) else copy t0 b.
Proof.
  intros Ht. pose proof (ms_caches _ _ _ _ _ _ Ms j) as Hs. rewrite Ht in Hs. cbn [caches] in Hs. destruct (decide (j = i)) as [->|Hj]; [by rewrite lookup_delete_eq in Hs|].
  rewrite lookup_delete_ne in Hs by done. split; [done|]. destruct (caches x !! j) as [t0|] eqn:Ht0; [|done]. exists t0. split; [done|].
  rewrite (ms_cmd _ _ _ _ _ _ Ms) in Hs. pose proof (cache_snooped _ _ _ _ _ (sy_caches _ _ O j t0 Ht0) Hs) as Hok. split; [done|].
  destruct step_windows as [Ev Hwin]. pose proof Hs as [_ (E1 & E2 & E3 & E4 & E5) S3]. split; [|split; [split_and!; congruence || done|done]].
  apply (cache_elsewhere t df df' a); try done; [|apply O]. destruct w eqn:Ew; [right|left; by apply Hw]. rewrite S3, decide_True by done. unfold left_by.
  destruct miss_kind as (_ & _ & K3 & _). rewrite K3; [done|]. apply plain_write_writable; [apply R|by apply Hw].
Qed.

Lemma miss_ports j : is_Some (caches x1 !! j) <-> j ∈ getId <$> L /\ j <> i.
Proof.
  rewrite <- ports_delete. pose proof (ms_caches _ _ _ _ _ _ Ms j) as Hs. cbn [caches] in Hs.
  destruct (delete i (caches x) !! j), (caches x1 !! j); try done; split; eauto.
Qed.

Lemma miss_same : bar_ok lo L hi (xbar x1) /\ filter_ok k L idx (snoopFilter (xbar x1)) /\ covered (snoopFilter (xbar x1)) (after_miss v i a c None (got q w)).
Proof.
  destruct (ms_bar _ _ _ _ _ _ Ms) as [Hb Hph]. pose proof (sy_bar _ _ O) as (B1 & B2 & B3). split; [by apply (bar_same lo L hi y x1)|].
  rewrite <- (ms_cmd _ _ _ _ _ _ Ms). eapply given_covers; [exact B2|exact Hph|by apply covers_view|by eapply view_on_ports|exact step_line].
Qed.

Lemma miss_below : below_ok dm (after_miss v i a c None (got q w)) x1.
Proof.
  destruct miss_same as (B1 & B2 & B3). constructor; [done| |apply miss_ports| |split; apply Ms].
  - split; [done|]. split; [done|]. intros j b m. unfold after_miss. pose proof (view_on_ports df x O) as Hp. pose proof step_line.
    destruct (decide (j = i)) as [->|Hj], (decide (b = a)) as [->|Hb]; [|apply Hp| |apply Hp].
    + intros _. split; [by apply list_elem_of_fmap_2|done].
    + unfold left_by. destruct (isInvalidate c); [done|]. destruct (v j a) as [m0|] eqn:Hv; [|done]. intros _. by apply (Hp j a m0).
  - intros j t Ht. by destruct (miss_others j t Ht) as (_ & t0 & _ & ? & _).
Qed.

(** The system once the cache, now [s'], has made room. *)
Lemma miss_view u s' : (forall b, copy s' b = if decide (b = a) then Some (got q w) else if decide (u = Some b) then None else copy s b) ->
  forall j b, view (<[i := s']> (caches x1)) j b = after_miss v i a c u (got q w) j b.
Proof.
  intros Hc j b. unfold view, after_miss. destruct (decide (j = i)) as [->|Hj].
  - rewrite lookup_insert_eq, Es. cbn. apply Hc.
  - rewrite lookup_insert_ne by done. destruct (caches x1 !! j) as [t|] eqn:Ht.
    + destruct (miss_others j t Ht) as (_ & t0 & -> & _ & _ & _ & E). cbn. by rewrite E.
    + assert (caches x !! j = None) as ->; [|destruct (decide (b = a)); [|done]; unfold left_by; by destruct (isInvalidate c)].
      apply eq_None_not_Some. intros Hx. apply (sy_ports _ _ O) in Hx. assert (is_Some (caches x1 !! j)) as [? ?] by (by apply miss_ports). congruence.
Qed.

Lemma miss_ok u ud dm' x2 s' : cache_ok df' s' -> kept s s' ->
  (forall b, copy s' b = if decide (b = a) then Some (got q w) else if decide (u = Some b) then None else copy s b) -> u <> Some a ->
  (forall b, u = Some b -> ud = false -> forall m', v i b = Some m' -> m_dirty m' = false) ->
  room_made dm u ud (after_miss v i a c u (got q w)) x1 x2 dm' ->
  let x' := mkX (xbar x2) (<[i := s']> (caches x2)) (below x2) in system_ok df' x' /\ steady x x'.
Proof.
  intros Hok Hkp Hc Hu1 Hu2 [[Hb Ec] [F1 F2] [M1 M2] Hby]. cbv zeta. destruct miss_same as (B1 & _). pose proof (miss_view u s' Hc) as Hv. rewrite <- Ec in Hv.
  destruct step_windows as [Ev _]. destruct (ms_memory _ _ _ _ _ _ Ms) as (_ & Evm & _). split; [constructor; cbn [xbar caches below]|].
  - split; [by apply (bar_same lo L hi x1 x2)|]. split; [done|]. apply covers_view. unfold covered in *. destruct (snoopFilter (xbar x2)) as [f|]; [|done].
    intros j b m. rewrite Hv. apply F2.
  - rewrite Ec. apply ports_insert, miss_ports.
  - intros j t. rewrite Ec. destruct (decide (j = i)) as [->|Hj]; [rewrite lookup_insert_eq; by intros [= <-]|]. rewrite lookup_insert_ne by done.
    intros Ht. by destruct (miss_others j t Ht) as (_ & t0 & _ & _ & ? & _).
  - intros j j' b m m'. rewrite !Hv. apply miss_keeps_owned.
  - exists dm'. split; [done|]. split; [congruence|]. intros b Hl Hd. apply (miss_keeps_backed u ud dm'); try done. intros j m Hj. apply (Hd j). by rewrite Hv.
  - rewrite Ev. apply O.
  - intros j. cbn [caches]. rewrite Ec. destruct (decide (j = i)) as [->|Hj]; [by rewrite Es, lookup_insert_eq|]. rewrite lookup_insert_ne by done.
    destruct (caches x1 !! j) as [t|] eqn:Ht; [by destruct (miss_others j t Ht) as (_ & t0 & -> & _ & _ & ? & _)|].
    destruct (caches x !! j) eqn:Hx; [|done]. assert (is_Some (caches x1 !! j)) as [? ?]; [|congruence]. apply miss_ports. split; [|done]. apply (sy_ports _ _ O). eauto.
Qed.
End Answered.
End Miss.

(** The cache that got the line. *)
Lemma filled_ok s1 dmx q w l u s2 : served s s1 -> (forall b, copy s1 b = copy s b) -> miss_done (alone := false) lo sec s1 df df p q l u dmx w s2 ->
  cache_ok df' (drop_writebacks s2) /\ kept s (drop_writebacks s2) /\
  (forall b, copy (drop_writebacks s2) b = if decide (b = a) then Some (got q w) else if decide (u = Some b) then None else copy s b).
Proof.
  intros ((A1 & _ & _ & A4 & _ & _ & _ & A8) & _ & Ep & En) Hcp [D1 _ (F1 & F2 & F3 & F4 & F5) _ D4 _]. destruct step_cache as [C1 C2 [C3 C4] C5 C6].
  pose proof Ep as (P1 & P2 & _). pose proof F2 as (Q1 & Q2 & _).
  assert (blk_addr s1 (pk_addr p) = a) as Ea by (unfold blk_addr, blk_size; by rewrite P1).
  assert (forall b, copy (drop_writebacks s2) b = if decide (b = a) then Some (got q w) else if decide (u = Some b) then None else copy s b) as Hc.
  { intros b. change (copy (drop_writebacks s2) b) with (copy s2 b). rewrite D4, Ea, Hcp, En. case_decide as Hb; [by subst b|done]. }
  split; [|split; [|done]].
  - constructor; unfold blk_size in *; cbn [cfg writebacks tsys drop_writebacks with_queues] in *; rewrite ?F1, ?A1, ?Q1, ?P1, ?Q2, ?P2; try done.
    + apply coupled_queues. by eapply local_of.
    + intros b m. rewrite Hc. change (now (drop_writebacks s2)) with (now s2). rewrite F5, En. case_decide; [|case_decide; [done|apply C6]].
      intros [= <-]. unfold got. cbn [m_since granted]. destruct (copy s a) as [m0|] eqn:Hm; cbn; [by apply (C6 a)|done].
  - split; [by cbn; rewrite F1|]. split; [by etrans|]. split; [cbn; by rewrite F4, A4|]. change (now s2 = now s). congruence.
Qed.

Lemma miss_step fuel : ~ hits sec s p -> exists lat s' x2, base_recv (S fuel) p (s, y) = Ok ((respond (result p df).1, lat), (s', x2)) /\
  let x' := mkX (xbar x2) (<[i := s']> (caches x2)) (below x2) in system_ok df' x' /\ steady x x'.
Proof.
  intros Hh. destruct step_cache as [C1 C2 [C3 C4] C5 C6]. destruct (whole_line lo sec None s df df p C1 R) as (wl & Ewl & Hwl & _).
  destruct (miss_sends wl Hwl Hh fuel) as (pkt & q & lat & x1 & sh & rs & dm & Eal & Esd & Ms).
  destruct (recv_miss_coherent (alone := false) junk pid_of lo sec (bar (S fuel) i) (above i) (writeAllocator i) s df df p wl pkt q lat y x1 C1 R Hh C4 C3 Hu Hwa Ewl
    (C6 _) Eal Esd (proj1 (ms_answer _ _ _ _ _ _ _ Ms))) as (s1 & l & u & dmx & w & s2 & H1 & Sv & Hcp & Hmd & Hrun).
  destruct (filled_ok s1 dmx q w l u s2 Sv Hcp Hmd) as (Hok & Hkp & Hc).
  assert (blk_addr s1 (pk_addr p) = a /\ blk_size s1 = bs) as [Ea Ez].
  { destruct Sv as (_ & _ & (P1 & _) & _). unfold blk_addr, blk_size in *. by rewrite P1. }
  assert (u <> Some a) as Hua by (rewrite <- Ea; apply Hmd).
  destruct (room_run fuel dm (after_miss v i a (coherent_cmd (present blk) (needsWritable (pk_cmd p)) wl) None (got q w))
    (after_miss v i a (coherent_cmd (present blk) (needsWritable (pk_cmd p)) wl) u (got q w)) x1 s1 l u dmx) as (x2 & ud & dm' & Hsd & Hrm & Hcl); try done.
  - eapply miss_below; [done|done|done|]. apply Hmd.
  - intros j b m. unfold after_miss. repeat case_decide; done.
  - intros b ->. unfold after_miss. rewrite decide_True by done. rewrite decide_False by congruence. by rewrite decide_True.
  - intros b ->. unfold after_miss. rewrite decide_True by done. rewrite decide_False by congruence. by rewrite decide_False, step_view, Hcp.
  - apply Hmd.
  - destruct (Hrun x2 Hsd) as (lat' & Er). exists lat', (drop_writebacks s2), x2. split; [exact Er|].
    eapply (miss_ok wl Hwl Hh pkt q x1 sh rs dm Ms w); try done; [apply Hmd|]. intros b Hb Hud m. rewrite step_view, <- Hcp. by apply Hcl.
Qed.

End Step.

(** A request comes to a cache. *)
Lemma request_step fuel df x src s p : system_ok df x -> src ∈ L -> caches x !! getId src = Some s -> 0 < n -> request_for lo sec s (vsize df) p ->
  isUncacheable (pk_req p) = false -> default true (writeAllocator (getId src)) = true ->
  exists x', cache_request (S fuel) (getId src) p x = Ok (respond (result p df).1, x') /\ system_ok (after p df) x' /\ steady x x'.
Proof.
  intros O HsL Es Hn R Hu Hwa. destruct (sy_caches _ _ O _ _ Es) as [_ _ [Hco _] _ _]. unfold cache_request. rewrite Es. cbn [oget obind].
  set (y := mkX _ _ _). destruct (recv_promoted junk pid_of lo sec (bar (S fuel) (getId src)) (above (getId src)) (writeAllocator (getId src)) s (vsize df) df p y R Hco)
    as (p' & E & R' & Eq & <- & <-). rewrite E. rewrite <- Eq in Hu. destruct (decide (hits sec s p')) as [Hh|Hh].
  - destruct (hit_step df x O src s Es p' R' Hu (S fuel) Hh) as (lat & s' & x' & Eb & -> & Hok & Hst). fold y in Eb. rewrite Eb. cbn [obind fst snd].
    eexists. split; [done|]. unfold y. cbn [xbar caches below]. by rewrite insert_delete_eq.
  - destruct (miss_step df x O src HsL s Es Hn p' R' Hu Hwa fuel Hh) as (lat & s' & x2 & Eb & Hok). fold y in Eb. rewrite Eb. cbn [obind fst snd]. eauto.
Qed.
End System.
