(* ===== verification/CoherentRuns.v ===== *)
(** Runs of a coherent memory system: caches on a coherent crossbar over a
    memory, from boot, against the memory alone. *)
From Stdlib Require Import ZArith Lia Bool.
From stdpp Require Import base numbers gmap list.
From S2P Require Import Prelude ReplBase Bitfield AddrRange Indexing CacheBlk Partition Tags TagsInv TagsOps TagsInit.
From S2P Require Import Bytes MemRequest MemPacket Clocked AbstractMem Serve ClassicCache ClassicOps.
From S2P Require Import ClassicTotal ClassicAccess ClassicSnoop AddrRangeMap BaseXBar SnoopFilter CoherentXBar ClassicServe Coupled AtomicRuns AtomicSends Transparent.
From S2P Require Import SnoopRuns FilterRuns XBarRuns XBarEvict LRU Serving MemorySystem CoherentSystem.
Local Open Scope Z_scope.

(** ** The crossbar is set up *)

(** The bits the ports get. *)
Lemma number_ports_spec l : forall id ports ids id' ports' ids', number_ports l id ports ids = Ok (id', ports', ids') -> NoDup (getId <$> l) ->
  ports' = ports ++ filter (fun p => isSnooping p = true) l /\ id <= id' /\
  (forall p, p ∈ l -> isSnooping p = true -> exists i, id <= i < id' /\ vget ids' (getId p) = Ok i) /\
  (forall p q, p ∈ l -> q ∈ l -> isSnooping p = true -> isSnooping q = true -> vget ids' (getId p) = vget ids' (getId q) -> p = q) /\
  (forall j, j ∉ getId <$> l -> vget ids' j = vget ids j).
Proof.
  induction l as [|p l IH]; intros id ports ids id' ports' ids' E Hnd; cbn in E.
  { injection E as <- <- <-. rewrite app_nil_r. split_and!; try done; set_solver. }
  rewrite fmap_cons in Hnd. apply NoDup_cons in Hnd as [Hni Hnd]. assert (forall q, q ∈ l -> getId q <> getId p) as Hne by (intros q Hq Eq; apply Hni; rewrite <- Eq; by apply list_elem_of_fmap_2).
  destruct (isSnooping p) eqn:Hs.
  - inv_ok E. destruct (vset_Ok_inv _ _ _ _ Hrun) as [Hr ->]. destruct (IH _ _ _ _ _ _ E Hnd) as (-> & H1 & H2 & H3 & H4).
    assert (vget ids' (getId p) = Ok id) as Ep by (rewrite H4 by done; by apply vget_insert).
    assert (forall q, q ∈ l -> isSnooping q = true -> vget ids' (getId q) <> Ok id) as Hd.
    { intros q Hq Hsq. destruct (H2 q Hq Hsq) as (i & Hi & ->). intros [= ->]. lia. }
    split; [rewrite filter_cons_True by done; by rewrite <- app_assoc|]. split; [lia|]. split; [|split].
    + intros q [->|Hq]%elem_of_cons Hsq; [exists id; split; [lia|done]|]. destruct (H2 q Hq Hsq) as (i & Hi & Ei). exists i. split; [lia|done].
    + intros q q' [->|Hq]%elem_of_cons [->|Hq']%elem_of_cons S1 S2 Eq; try done; [rewrite Ep in Eq; by destruct (Hd q' Hq' S2)|rewrite Ep in Eq; by destruct (Hd q Hq S1)|auto].
    + intros j Hj. rewrite fmap_cons, not_elem_of_cons in Hj. destruct Hj as [Hj1 Hj2]. rewrite H4 by done. unfold vget.
      destruct (Z.ltb_spec j 0); [done|]. rewrite list_lookup_insert_ne by lia. done.
  - destruct (IH _ _ _ _ _ _ E Hnd) as (-> & H1 & H2 & H3 & H4). split; [by rewrite filter_cons_False by (by rewrite Hs)|]. split; [done|]. split; [|split].
    + intros q [->|Hq]%elem_of_cons Hsq; [congruence|auto].
    + intros q q' [->|Hq]%elem_of_cons [->|Hq']%elem_of_cons S1 S2 Eq; try congruence. auto.
    + intros j Hj. rewrite fmap_cons, not_elem_of_cons in Hj. apply H4, Hj.
Qed.

(** The bit of a port. *)
Definition port_bit (f : option SnoopFilter) (i : Z) : Z :=
  match f with Some f => match vget (localResponsePortIds f) i with Ok b => b | Fault _ => 0 end | None => 0 end.

(** The snooping ports. *)
Definition snoopers (l : list Port) : list Port := filter (fun p => isSnooping p = true) l.

(** The identifiers of ports are their positions. *)
Definition positioned (l : list Port) : Prop := forall (j : nat) p, l !! j = Some p -> getId p = Z.of_nat j.

Lemma positioned_get l p : positioned l -> p ∈ l -> getId p <> InvalidPortID /\ vget l (getId p) = Ok p.
Proof.
  intros H [j Hj]%list_elem_of_lookup. rewrite (H j p Hj). split; [unfold InvalidPortID; lia|]. apply vget_Ok; [lia|by rewrite Nat2Z.id].
Qed.

Lemma positioned_NoDup l : positioned l -> NoDup (getId <$> l).
Proof.
  intros H. apply NoDup_alt. intros i j x Hi Hj. rewrite list_lookup_fmap in Hi, Hj.
  destruct (l !! i) as [p|] eqn:Ei; [|done]. destruct (l !! j) as [q|] eqn:Ej; [|done]. cbn in *. rewrite (H i p Ei) in Hi. rewrite (H j q Ej) in Hj.
  injection Hi as <-. injection Hj as Hj. lia.
Qed.

Lemma setCPUSidePorts_knows l f f' : cpuSidePorts f = [] -> positioned l -> setCPUSidePorts l f = Ok f' ->
  knows (snoopers l) (port_bit (Some f')) f' /\ cachedLocations f' = cachedLocations f /\ linesize f' = linesize f.
Proof.
  intros Hp Hpos E. unfold setCPUSidePorts in E. inv_ok E. injection E as <-. destruct a as [[id ports] ids]. cbn [fst snd] in *.
  rewrite Hp in Hrun. destruct (number_ports_spec _ _ _ _ _ _ _ Hrun (positioned_NoDup l Hpos)) as (-> & H1 & H2 & H3 & H4). split; [|done].
  assert (id <= SNOOP_MASK_SIZE) as Hmax by (destruct (Z.leb_spec id SNOOP_MASK_SIZE); done).
  constructor; cbn; [done| |].
  - intros p [Hs Hl]%list_elem_of_filter. destruct (H2 p Hl Hs) as (i & Hi & ->). destruct (positioned_get l p Hpos Hl) as [Hid _]. split; [done|]. split; [done|]. split; [done|]. lia.
  - intros p q [Hs Hl]%list_elem_of_filter [Hs' Hl']%list_elem_of_filter. destruct (H2 p Hl Hs) as (i & Hi & Ei), (H2 q Hl' Hs') as (j & Hj & Ej).
    rewrite Ei, Ej. intros ->. apply H3; congruence.
Qed.

Section Runs.
Context {P D I : Type} {RP : ReplacementPolicy P D} {RPL : ReplacementPolicyLaws P D}
  {IP : IndexingPolicy I} {IPL : IndexingLaws I} {SP : ServingPolicy P D}.
Implicit Types s : cc_sys P D I.
Context (junk : Z) (pid_of : Packet -> Z) (gnu : bool) (packet_id : Packet -> Z) (getLatency : AbstractMemory -> Z)
  (ranges : Z -> list AddrRange) (above : Z -> Packet -> Packet) (writeAllocator : Z -> option bool).
Context (n lo : Z) (sec : bool) (k : Z).
#[local] Abbreviation X := (xsys P D I AbstractMemory).
#[local] Abbreviation bs := (2 ^ k).
#[local] Abbreviation run := (run_caches junk pid_of gnu packet_id getLatency ranges above writeAllocator).
Implicit Types x : X.

(** The requests, as they come to a memory alone. *)
Definition to_memory (l : list (Z * Z * Packet)) : list (Z * Packet) := (fun r => (r.1.1, r.2)) <$> l.

(** ** Time *)

(** The caches are the same but for what they hold and the time. *)
Definition alike s s' : Prop := cfg s' = cfg s /\ params_same (tags (tsys s)) (tags (tsys s')) /\ clockPeriod (clk s') = clockPeriod (clk s).
Definition all_alike x x' : Prop :=
  forall j, match caches x !! j, caches x' !! j with Some s, Some s' => alike s s' | None, None => True | _, _ => False end.

(** Requests that come to the caches of [x] in the order of time, from [t0]:
    plain and cacheable, each within a line of the memory of [size] bytes. *)
Fixpoint admissible (size : Z) x (t0 : Z) (l : list (Z * Z * Packet)) : Prop :=
  match l with
  | [] => True
  | (t, i, p) :: l' =>
      t0 <= t /\ (forall j s, caches x !! j = Some s -> tick_ok (cfg s) (clk s) t) /\
      (exists s, caches x !! i = Some s /\ request_for lo sec s size p) /\ isUncacheable (pk_req p) = false /\
      default true (writeAllocator i) = true /\ admissible size x t l'
  end.

Lemma alike_admissible size x x' l : all_alike x x' -> forall t, admissible size x t l -> admissible size x' t l.
Proof.
  intros Ha. induction l as [|[[t i] p] l IH]; intros t0; [done|]. intros (H1 & H2 & (s & Hs & R) & H3 & H4 & H5). split; [done|]. split; [|split; [|auto]].
  - intros j s' Hs'. pose proof (Ha j) as Hj. rewrite Hs' in Hj. destruct (caches x !! j) as [s0|] eqn:E; [|done]. destruct Hj as (E1 & _ & E2).
    unfold tick_ok. rewrite E1, E2. by apply (H2 j).
  - pose proof (Ha i) as Hi. rewrite Hs in Hi. destruct (caches x' !! i) as [s'|]; [|done]. exists s'. split; [done|]. destruct Hi as (E1 & E2 & _). by eapply same_request.
Qed.

Lemma at_tick_alike t x : all_alike x (system_at t x).
Proof. intros j. unfold system_at. cbn [caches]. rewrite lookup_fmap. by destruct (caches x !! j). Qed.

Lemma steady_alike x x' : steady x x' -> all_alike x x'.
Proof. intros H j. specialize (H j). destruct (caches x !! j), (caches x' !! j); try done. by destruct H as (? & ? & ? & _). Qed.

Lemma all_alike_trans x x1 x2 : all_alike x x1 -> all_alike x1 x2 -> all_alike x x2.
Proof.
  intros H1 H2 j. specialize (H1 j). specialize (H2 j). destruct (caches x !! j), (caches x1 !! j), (caches x2 !! j); try done.
  destruct H1 as (A1 & A2 & A3), H2 as (B1 & B2 & B3). split; [congruence|]. split; [by etrans|congruence].
Qed.

Section Ok.
Context (Hk : 2 <= k < 31) (L : list Port) (idx : Z -> Z) (hi : Z).
Context (Hsee : forall i a, i ∈ getId <$> L -> lo <= a < hi -> inRange gnu (ranges i) a = Ok true) (Hn : 0 < n).
#[local] Abbreviation system_ok := (system_ok n lo sec k L idx hi).

(** No cache is ahead of [t]. *)
Definition no_later x (t : Z) : Prop := forall j s, caches x !! j = Some s -> now s <= t.

Lemma system_tick df x t : system_ok df x -> no_later x t -> (forall j s, caches x !! j = Some s -> tick_ok (cfg s) (clk s) t) ->
  system_ok df (system_at t x) /\ no_later (system_at t x) t.
Proof.
  intros [O1 O2 O3 O4 O5 O6] Hl Ht.
  assert (forall j s', caches (system_at t x) !! j = Some s' -> exists s, caches x !! j = Some s /\ s' = at_tick t s) as Hc.
  { intros j s'. unfold system_at. cbn [caches]. rewrite lookup_fmap. destruct (caches x !! j) as [s|]; [|done]. intros [= <-]. eauto. }
  assert (forall j b, view sec (caches (system_at t x)) j b = view sec (caches x) j b) as Hv.
  { intros j b. unfold view, system_at. cbn [caches]. rewrite lookup_fmap. by destruct (caches x !! j). }
  split; [|by intros j s' (s & _ & ->)%Hc].
  constructor; try done.
  - destruct O1 as (B1 & B2 & B3). split; [done|]. split; [done|]. unfold covers in *. cbn [xbar system_at]. destruct (snoopFilter (xbar x)) as [f|]; [|done].
    intros j s' b m (s & Hs & ->)%Hc. by apply (B3 j s).
  - intros j. rewrite <- O2. unfold system_at. cbn [caches]. rewrite lookup_fmap. apply fmap_is_Some.
  - intros j s' (s & Hs & ->)%Hc. destruct (O3 j s Hs) as [C1 C2 C3 C4 C5]. constructor; try done; [apply coupled_tick; [done|by apply (Ht j)]|].
    intros b m Hm. etrans; [by apply (C5 b)|]. by apply (Hl j).
  - intros i j b m m'. rewrite !Hv. apply O4.
  - destruct O5 as (dm & M1 & M2 & M3). exists dm. split; [done|]. split; [done|]. intros b Hb Hd. apply M3; [done|]. intros i m Hi. apply (Hd i). by rewrite Hv.
Qed.

(** Any sequence of requests. *)
Lemma run_coherent fuel l : forall x df f t0, system_ok df x -> mem_holds n lo df f -> no_later x t0 -> admissible (vsize df) x t0 l ->
  exists rs x' f' df', run (S fuel) l x = Ok (rs, x') /\ run_memory gnu (to_memory l) f = Ok (rs, f') /\ system_ok df' x'.
Proof.
  induction l as [|[[t i] p] l IH]; intros x df f t0 O Hf Hl Ha; [by exists [], x, f, df|]. destruct Ha as (Ht & Htk & (s & Hs & R) & Hu & Hwa & Ha).
  destruct (system_tick df x t O ltac:(intros j s' Hs'; etrans; [by apply (Hl j)|done]) Htk) as [O1 Hl1].
  assert (i ∈ getId <$> L) as (src & -> & Hsrc)%list_elem_of_fmap by (apply (sy_ports _ _ _ _ _ _ _ _ _ O); eauto).
  assert (caches (system_at t x) !! getId src = Some (at_tick t s)) as Hs1 by (unfold system_at; cbn [caches]; by rewrite lookup_fmap, Hs).
  assert (request_for lo sec (at_tick t s) (vsize df) p) as R1 by (by destruct R).
  destruct (request_step junk pid_of gnu packet_id getLatency ranges above writeAllocator n lo sec k Hk L idx hi Hsee fuel df (system_at t x) src (at_tick t s) p
    O1 Hsrc Hs1 Hn R1 Hu Hwa) as (x1 & E1 & O2 & Hst).
  destruct (rf_range _ _ _ _ _ R) as [R2 R3]. pose proof (rf_id _ _ _ _ _ R) as R4. destruct (pp_flags _ (rf_plain _ _ _ _ _ R)) as (_ & _ & _ & F4).
  destruct (sy_caches _ _ _ _ _ _ _ _ _ O _ _ Hs) as [_ _ _ Hmax _].
  destruct (access_serves gnu n lo df f p Hf (rf_plain _ _ _ _ _ R)) as (f1 & Ef & Hf1); [lia|lia|lia|].
  assert (vsize (splice df (Z.to_nat (pk_addr p - lo)) (serve p (window df (pk_addr p - lo) (pk_size p))).2) = vsize df) as Ev.
  { pose proof (sy_end _ _ _ _ _ _ _ _ _ O) as E. pose proof (sy_end _ _ _ _ _ _ _ _ _ O2). lia. }
  destruct (IH x1 _ f1 t O2 Hf1) as (rs & x2 & f2 & df2 & E2 & E3 & O3).
  - intros j s1 Hj. pose proof (Hst j) as Hk'. rewrite Hj in Hk'. destruct (caches (system_at t x) !! j) as [s0|] eqn:Hj0; [|done].
    destruct Hk' as (_ & _ & _ & ->). by apply (Hl1 j).
  - rewrite Ev. eapply alike_admissible; [|exact Ha]. eapply all_alike_trans; [apply at_tick_alike|by apply steady_alike].
  - exists (respond (serve p (window df (pk_addr p - lo) (pk_size p))).1 :: rs), x2, f2, df2. cbn [run_caches]. rewrite E1. cbn [obind fst snd]. rewrite E2. split; [done|]. split; [|done].
    change (to_memory ((t, getId src, p) :: l)) with ((t, p) :: to_memory l). cbn [run_memory fst snd]. unfold mem_recvAtomic. rewrite F4. cbn [negb ocheck obind]. rewrite Ef. cbn [obind fst snd]. by rewrite E3.
Qed.
End Ok.

(** ** Boot *)

(** A coherent cache that nothing has accessed. *)
Definition booted_cache s : Prop := exists c st temp td cs ck, s = boot c st temp td junk cs ck /\ booted st /\ coherent c = true /\ isReadOnly c = false /\
  mostly_exclusive c = false /\ clock_ok s /\ blkSize (tags st) = bs /\ maxRequestors (tags st) <= n.

(** The crossbar [b0] and its filter, as constructed, are initialized with booted
    caches on its snooping ports and a memory below that holds [d]; the caches
    are responsible for all of the memory. *)
Record booted_system (b0 : XBar) (d : list Z) x : Prop := {
  bs_init : xbar_init b0 = Ok (xbar x) /\ snoopPorts b0 = [] /\ positioned (xb_cpuSidePorts b0);
  bs_point : pointOfCoherency b0 = true /\ bypassCaches b0 = false;
  bs_map : recvRangeChange gnu 0 [range (below x)] (new_BaseXBar 1 false false) = Ok (true, routing b0);
  bs_filter : match snoopFilter b0 with Some f => exists lat cap, new_SnoopFilter bs lat cap = Ok f | None => True end;
  bs_caches : forall i, match caches x !! i with
    | Some s => i ∈ getId <$> snoopers (xb_cpuSidePorts b0) /\ booted_cache s
    | None => i ∉ getId <$> snoopers (xb_cpuSidePorts b0)
    end;
  bs_memory : mem_holds n lo d (below x) /\ lo mod bs = 0 /\ vsize d mod bs = 0;
  bs_ranges : forall i a, i ∈ getId <$> snoopers (xb_cpuSidePorts b0) -> lo <= a < lo + vsize d -> inRange gnu (ranges i) a = Ok true;
}.

Lemma boot_copy c st temp td cs ck b : booted st -> copy sec (boot c st temp td junk cs ck) b = None.
Proof. intros (_ & Hc & _)%booted_tags. unfold copy. cbn [tsys boot]. by rewrite Hc. Qed.

Lemma booted_caches b0 d x i s : booted_system b0 d x -> caches x !! i = Some s ->
  cache_ok n lo sec k d s /\ forall b, copy sec s b = None.
Proof.
  intros B Hs. pose proof (bs_caches _ _ _ B i) as Hi. rewrite Hs in Hi. destruct Hi as (_ & c & st & temp & td & cs & ck & -> & Hb & C1 & C2 & C3 & C4 & C5 & C6).
  destruct (bs_memory _ _ _ B) as (Hm & M1 & M2). destruct (mh_bounds _ _ _ _ Hm) as (N1 & _ & N3).
  assert (forall b, copy sec (boot c st temp td junk cs ck) b = None) as Hn by (intros b; by apply boot_copy). split; [|done].
  constructor; try done; [by apply coupled_boot; rewrite ?C5|]. intros b m. by rewrite Hn.
Qed.

(** The memory has announced its range. *)
Lemma memory_routed d m b nt : mem_holds n lo d m -> recvRangeChange gnu 0 [range m] (new_BaseXBar 1 false false) = Ok (nt, b) ->
  exists r, located {[0 := [r]]} b /\ _start r <= lo /\ lo + vsize d <= _end r /\ 0 <= lo /\ lo + vsize d < 2 ^ 64.
Proof.
  intros Hm E. destruct (mh_bounds _ _ _ _ Hm) as (B1 & B2 & B3). pose proof (mh_range _ _ _ _ Hm) as Er.
  assert (proper (range m)) as Hp by (rewrite Er; split; [done|cbn; lia]).
  pose proof (range_change_spec gnu 1 InvalidPortID false ∅ (new_BaseXBar 1 false false) 0 [range m] (proj1 (new_routes 1 false false ltac:(reflexivity)))
    ltac:(done) ltac:(by apply Forall_singleton)) as Hs.
  rewrite E in Hs. destruct Hs as (_ & R & Hz). exists (range m). rewrite Er at 2 3. cbn [_start _end plain_range]. split_and!; try lia.
  unfold asked_for in *. cbn [Z.eqb InvalidPortID andb] in *. rewrite insert_empty in R, Hz. apply Hz. apply (rt_all _ _ _ _ _ R).
  intros i Hi. assert (i = 0) as -> by lia. rewrite lookup_singleton_eq. eauto.
Qed.

Lemma booted_bar b0 d x : booted_system b0 d x -> bar_ok lo (snoopers (xb_cpuSidePorts b0)) (lo + vsize d) (xbar x) /\
  filter_ok k (snoopers (xb_cpuSidePorts b0)) (port_bit (snoopFilter (xbar x))) (snoopFilter (xbar x)).
Proof.
  intros B. destruct (bs_init _ _ _ B) as (Ei & Es & Hp). unfold xbar_init in Ei. inv_ok Ei. injection Ei as Ei.
  destruct (bs_point _ _ _ B) as [P1 P2]. pose proof (bs_map _ _ _ B) as Hj. pose proof (bs_filter _ _ _ B) as Hf. destruct (bs_memory _ _ _ B) as (Hm & _).
  assert (forall p, p ∈ snoopers (xb_cpuSidePorts b0) -> p ∈ xb_cpuSidePorts b0) as Hsub by (intros p [_ ?]%list_elem_of_filter; done).
  rewrite <- Ei. split.
  - constructor; cbn; [done| |].
    + rewrite Es. split; [done|]. split; [|intros p Hpl; apply positioned_get; auto].
      apply (sublist_NoDup _ (getId <$> xb_cpuSidePorts b0)); [by apply positioned_NoDup|]. apply fmap_sublist, sublist_filter.
    + apply (memory_routed d (below x) _ true); [done|exact Hj].
  - cbn [snoopFilter]. destruct (snoopFilter b0) as [f|]; [|by injection Hrun as <-]. inv_ok Hrun. injection Hrun as <-.
    destruct Hf as (lat & cap & Ef). unfold new_SnoopFilter in Ef. inv_ok Ef. injection Ef as <-.
    destruct (fun E => setCPUSidePorts_knows _ _ _ E Hp Hrun0) as (K & Ec & El); [done|]. split; [done|]. split; [done|].
    intros line. unfold item. by rewrite Ec.
Qed.

Lemma booted_ok b0 d x : booted_system b0 d x ->
  system_ok n lo sec k (snoopers (xb_cpuSidePorts b0)) (port_bit (snoopFilter (xbar x))) (lo + vsize d) d x.
Proof.
  intros B. destruct (booted_bar _ _ _ B) as [Hb Hf].
  assert (forall i b, view sec (caches x) i b = None) as Hv.
  { intros i b. unfold view. destruct (caches x !! i) as [s|] eqn:Hs; [|done]. destruct (booted_caches _ _ _ i s B Hs) as [_ E]; apply E. }
  constructor; try done.
  - split; [done|]. split; [done|]. apply covers_view. unfold covered. destruct (snoopFilter (xbar x)); [|done]. intros i b m. by rewrite Hv.
  - intros i. pose proof (bs_caches _ _ _ B i) as Hi. destruct (caches x !! i); [destruct Hi; split; eauto|split; [by intros [? ?]|done]].
  - intros i s Hs. by apply (booted_caches b0 d x i).
  - intros i j b m m'. by rewrite Hv.
  - exists d. split; [apply B|]. by split.
Qed.

Lemma booted_run fuel b0 d x l t0 : 2 <= k < 31 -> 0 < n -> booted_system b0 d x -> no_later x t0 -> admissible (vsize d) x t0 l ->
  exists rs x' f' df', run (S fuel) l x = Ok (rs, x') /\ run_memory gnu (to_memory l) (below x) = Ok (rs, f') /\
    system_ok n lo sec k (snoopers (xb_cpuSidePorts b0)) (port_bit (snoopFilter (xbar x))) (lo + vsize d) df' x'.
Proof.
  intros Hk Hn B Hl Ha. eapply (run_coherent Hk); [apply B|done|by apply booted_ok|apply B|done|done].
Qed.

(** C4 (refinement). Any number of coherent classic caches on a coherent
    crossbar, with or without a snoop filter, over one memory are that memory: in
    atomic mode, booted and then given any sequence of plain cacheable requests
    (reads, writes, whole-line and masked writes, swaps, atomics), each to any
    of the caches and each within a line, they always answer, and with exactly
    the packets the memory alone would answer, whatever was cached, shared,
    invalidated, supplied by another cache, evicted or written back meanwhile. *)
Theorem coherent_caches_one_memory fuel b0 d x l t0 : 2 <= k < 31 -> 0 < n -> booted_system b0 d x -> no_later x t0 -> admissible (vsize d) x t0 l ->
  exists rs x' m', run (S fuel) l x = Ok (rs, x') /\ run_memory gnu (to_memory l) (below x) = Ok (rs, m').
Proof.
  intros Hk Hn B Hl Ha. destruct (booted_run fuel b0 d x l t0 Hk Hn B Hl Ha) as (rs & x' & f' & df' & E1 & E2 & _). eauto.
Qed.

(** C5 (invariant). After any such run at most one cache may write a line, and
    then no other has it; at most one copy of a line is dirty; and the snoop
    filter, if there is one, has every cache that holds a line among the holders
    of it, so that no copy is missed by a snoop. *)
Theorem single_writer_and_tracked fuel b0 d x l t0 : 2 <= k < 31 -> 0 < n -> booted_system b0 d x -> no_later x t0 -> admissible (vsize d) x t0 l ->
  exists rs x', run (S fuel) l x = Ok (rs, x') /\
    (forall i j s t a m m', caches x' !! i = Some s -> caches x' !! j = Some t -> i <> j -> copy sec s a = Some m -> copy sec t a = Some m' ->
      m_writable m = false /\ m_writable m' = false /\ (m_dirty m = false \/ m_dirty m' = false)) /\
    (forall f i s a m, snoopFilter (xbar x') = Some f -> caches x' !! i = Some s -> copy sec s a = Some m ->
      Z.testbit (holder (item f (line_key sec a))) (port_bit (snoopFilter (xbar x)) i) = true).
Proof.
  intros Hk Hn B Hl Ha. destruct (booted_run fuel b0 d x l t0 Hk Hn B Hl Ha) as (rs & x' & f' & df' & E1 & _ & [(_ & _ & Hc) _ _ Ho _ _]).
  exists rs, x'. split; [done|]. split.
  - intros i j s t a m m' Hs Ht Hne Hm Hm'. assert (view sec (caches x') i a = Some m) as V1 by (unfold view; by rewrite Hs).
    assert (view sec (caches x') j a = Some m') as V2 by (unfold view; by rewrite Ht).
    destruct (Ho i j a m m' V1 V2 Hne) as [H1 H2], (Ho j i a m' m V2 V1 ltac:(done)) as [H3 _]. split; [done|]. split; [done|].
    destruct (m_dirty m); auto.
  - intros f i s a m Hf Hs Hm. rewrite Hf in Hc. by apply (Hc i s a m).
Qed.
End Runs.

(** ** Two caches and a snoop filter over 64 bytes *)
Module DemoCoherent.
Import DemoSystem.
Definition ports : list Port := [mkPort 0 true; mkPort 1 true; mkPort 2 false].
Definition filter0 : SnoopFilter := mkFilter ∅ None null_item [] [] 4 1 2048 (mkSfStats 0 0 0 0 0 0).
Definition map0 : BaseXBar :=
  match recvRangeChange true 0 [plain_range 4096 4160] (new_BaseXBar 1 false false) with Ok r => r.2 | Fault _ => new_BaseXBar 1 false false end.
Definition bar0 : XBar := mkXBar (Some filter0) true true false ports [] ∅ map0 500.
Definition bar1 : XBar := match xbar_init bar0 with Ok b => b | Fault _ => bar0 end.

#[local] Abbreviation boot0 st := (boot config st (mkTempCacheBlk (raw_CacheBlk 0) 0 0) [] 0 (mkCacheStats 0 0 0 ∅ ∅ 0) (new_Clocked 500)).

Definition system (st : tag_sys LRU LRUReplData SetAssociative) : xsys LRU LRUReplData SetAssociative AbstractMemory :=
  mkX bar1 {[0 := boot0 st; 1 := boot0 st]} memory.

(** A line is written in one cache and read from the other, which then writes it;
    the rest makes them evict and swap. *)
Definition requests : list (Z * Z * Packet) :=
  [(10, 0, write 4096 [201; 202]); (20, 1, read 4097 2); (30, 1, write 4096 [7]); (40, 0, read 4096 4); (50, 0, write 4104 [1; 2; 3; 4]);
   (60, 1, swap 4106 [9; 9]); (60, 0, read 4112 4); (70, 0, write 4121 [5]); (80, 1, read 4120 4); (90, 0, read 4104 4)].

Lemma caches_made st i s : caches (system st) !! i = Some s -> (i = 0 \/ i = 1) /\ s = boot0 st.
Proof. cbn [caches system]. intros [[<- <-]|[_ [<- <-]%lookup_singleton_Some]]%lookup_insert_Some; auto. Qed.

Lemma system_up st : booted st -> tags st = tags sys0 -> curTick (wld st) = 0 ->
  booted_system 0 true (fun _ => [plain_range 4096 4160]) 2 4096 2 bar0 (seqZ 0 64) (system st).
Proof.
  intros Hb E Ec. constructor.
  - split; [vm_compute; reflexivity|]. split; [done|]. intros [|[|[|]]] p; cbn; by intros [= <-].
  - done.
  - vm_compute. reflexivity.
  - exists 1, 8192. vm_compute. reflexivity.
  - intros i. change (getId <$> snoopers (xb_cpuSidePorts bar0)) with [0; 1]. destruct (caches (system st) !! i) as [s|] eqn:Hs.
    + apply caches_made in Hs as [Hi ->]. split; [destruct Hi as [-> | ->]; set_solver|].
      eexists _, st, _, _, _, _. split; [done|]. rewrite E. split; [done|]. repeat (split; [done|]). split; [|done].
      unfold clock_ok, in_step, now. cbn [boot tsys cfg clk]. rewrite Ec. by vm_compute; intuition discriminate.
    + rewrite !not_elem_of_cons. cbn [caches system] in Hs. apply lookup_insert_None in Hs as [Hs ?]. apply lookup_singleton_None in Hs.
      split; [done|]. split; [done|]. apply not_elem_of_nil.
  - split; [by repeat constructor|done].
  - intros i a _ Ha. cbn [inRange]. rewrite plain_contains by done. rewrite bool_decide_eq_true_2; [done|]. exact Ha.
Qed.

Lemma requests_admissible st : tags st = tags sys0 -> admissible (fun _ => None) 4096 false (vsize (seqZ 0 64)) (system st) 0 requests.
Proof.
  intros E.
  assert (forall j s, caches (system st) !! j = Some s -> cfg s = config /\ clk s = new_Clocked 500) as Hc by (by intros j s [_ ->]%caches_made).
  assert (forall t, tick_ok config (new_Clocked 500) t -> forall j s, caches (system st) !! j = Some s -> tick_ok (cfg s) (clk s) t) as Ht
    by (intros t H j s Hs; by destruct (Hc j s Hs) as [-> ->]).
  assert (forall i p, i = 0 \/ i = 1 -> request_for 4096 false (boot0 sys0) (vsize (seqZ 0 64)) p -> exists s, caches (system st) !! i = Some s /\ request_for 4096 false s (vsize (seqZ 0 64)) p) as Hr.
  { intros i p Hi R. exists (boot0 st). split; [by destruct Hi as [-> | ->]|]. apply (same_request _ _ (boot0 sys0)); [done| |done]. cbn. by rewrite E. }
  unfold requests. repeat (split; [lia|split; [apply Ht; vm_compute; intuition discriminate|split; [apply Hr; [auto|plain_request]|split; [done|split; [done|]]]]]). done.
Qed.
End DemoCoherent.

Lemma coherent_caches_one_memory_witness : exists st rs x' m', tagsInit DemoSystem.sys0 = Ok (tt, st) /\
  run_caches 0 (fun _ => 0) true (fun _ => 0) (fun _ => 100) (fun _ => [plain_range 4096 4160]) (fun _ p => p) (fun _ => None) 1 DemoCoherent.requests (DemoCoherent.system st) = Ok (rs, x') /\
  run_memory true (to_memory DemoCoherent.requests) DemoSystem.memory = Ok (rs, m').
Proof.
  destruct DemoSystem.system_booted as (st & Hi & Hb & E & Ec). exists st.
  destruct (coherent_caches_one_memory 0 (fun _ => 0) true (fun _ => 0) (fun _ => 100) (fun _ => [plain_range 4096 4160]) (fun _ p => p) (fun _ => None)
    2 4096 false 2 0 DemoCoherent.bar0 (seqZ 0 64) (DemoCoherent.system st) DemoCoherent.requests 0) as (rs & x' & m' & E1 & E2).
  - lia.
  - lia.
  - by apply DemoCoherent.system_up.
  - intros j s [_ ->]%DemoCoherent.caches_made. unfold now. cbn. by rewrite Ec.
  - by apply DemoCoherent.requests_admissible.
  - exists rs, x', m'. split; [exact Hi|]. split; [exact E1|exact E2].
Defined.

Lemma single_writer_and_tracked_witness : exists st rs x', tagsInit DemoSystem.sys0 = Ok (tt, st) /\
  run_caches 0 (fun _ => 0) true (fun _ => 0) (fun _ => 100) (fun _ => [plain_range 4096 4160]) (fun _ p => p) (fun _ => None) 1 DemoCoherent.requests (DemoCoherent.system st) = Ok (rs, x') /\
  (forall f i s a m, snoopFilter (xbar x') = Some f -> caches x' !! i = Some s -> copy false s a = Some m ->
    Z.testbit (holder (item f (line_key false a))) (port_bit (snoopFilter DemoCoherent.bar1) i) = true).
Proof.
  destruct DemoSystem.system_booted as (st & Hi & Hb & E & Ec). exists st.
  destruct (single_writer_and_tracked 0 (fun _ => 0) true (fun _ => 0) (fun _ => 100) (fun _ => [plain_range 4096 4160]) (fun _ p => p) (fun _ => None)
    2 4096 false 2 0 DemoCoherent.bar0 (seqZ 0 64) (DemoCoherent.system st) DemoCoherent.requests 0) as (rs & x' & E1 & _ & E2).
  - lia.
  - lia.
  - by apply DemoCoherent.system_up.
  - intros j s [_ ->]%DemoCoherent.caches_made. unfold now. cbn. by rewrite Ec.
  - by apply DemoCoherent.requests_admissible.
  - exists rs, x'. split; [exact Hi|]. split; [exact E1|exact E2].
Defined.
