(* ===== verification/SystemOps.v ===== *)
(** A classic cache in front of a memory, used in every way but timing mode:
    atomic requests as time passes, functional accesses, the write-back of all
    dirty blocks and the flush, against the memory alone. *)
From Stdlib Require Import ZArith Lia Bool.
From stdpp Require Import base numbers gmap list.
From S2P Require Import Prelude ReplBase LRU Bitfield AddrRange Indexing CacheBlk Partition Tags TagsInv TagsOps TagsInit Bytes MemRequest MemPacket.
From S2P Require Import Clocked AbstractMem Serve ClassicCache ClassicOps ClassicTotal ClassicAccess ClassicFunctional ClassicServe.
From S2P Require Import Coupled AtomicRuns AtomicSends Transparent FunctionalRuns Serving MemorySystem.
Local Open Scope Z_scope.

Inductive sys_op :=
| Atomic (now : Z) (p : Packet)     (* a request at a tick *)
| Functional (p : Packet)
| Writeback                         (* memWriteback *)
| Flush.                            (* memWriteback, then memInvalidate *)

(** What the client sees: a response, or that the operation is done. *)
Inductive seen :=
| Response (p : Packet)
| FunctionalResponse (c : Command) (d : list Z)
| Done.

Section Ops.
Context {P D I : Type} {RP : ReplacementPolicy P D} {RPL : ReplacementPolicyLaws P D}
  {IP : IndexingPolicy I} {IPL : IndexingLaws I} {SP : ServingPolicy P D}.
Implicit Types s : cc_sys P D I.
Context (junk : Z) (pid_of : Packet -> Z) (gnu : bool) (getLatency : AbstractMemory -> Z) (above : Packet -> Packet)
  (snoopF : Packet -> AbstractMemory -> outcome (Packet * AbstractMemory)) (writeAllocator : option bool).
#[local] Abbreviation T := (cc_sys P D I * AbstractMemory)%type.
#[local] Abbreviation entry s e := (entries (wld (tsys s)) !! e).

Definition writeback : M T unit := memWriteback (AbstractMem.functionalAccess gnu).

(** One operation of the system, and of the memory alone. *)
Definition system_op (op : sys_op) : M T seen :=
  match op with
  | Atomic now p => fun t =>
      let? r := recvAtomic junk (fun _ _ => None) pid_of (mem_send gnu getLatency) above false writeAllocator p (at_tick now t.1, t.2) in
      Ok (Response r.1.1, r.2)
  | Functional p =>
      let* q := recvFunctional (AbstractMem.functionalAccess gnu) snoopF (fun _ _ => false) [] false false p in
      ret (FunctionalResponse (pk_cmd q) (pk_data q))
  | Writeback => do* writeback ;; ret Done
  | Flush => do* writeback ;; do* memInvalidate ;; ret Done
  end.

Definition memory_op (op : sys_op) (m : AbstractMemory) : outcome (seen * AbstractMemory) :=
  match op with
  | Atomic _ p => let? r := mem_recvAtomic gnu p m in Ok (Response r.1, r.2)
  | Functional p => let? r := AbstractMem.functionalAccess gnu p m in Ok (FunctionalResponse (pk_cmd r.1) (pk_data r.1), r.2)
  | Writeback | Flush => Ok (Done, m)
  end.

Fixpoint run_system (l : list sys_op) (t : T) : outcome (list seen * T) :=
  match l with
  | [] => Ok ([], t)
  | op :: l' => let? r := system_op op t in let? x := run_system l' r.2 in Ok (r.1 :: x.1, x.2)
  end.

Fixpoint run_ops (l : list sys_op) (m : AbstractMemory) : outcome (list seen * AbstractMemory) :=
  match l with
  | [] => Ok ([], m)
  | op :: l' => let? r := memory_op op m in let? x := run_ops l' r.2 in Ok (r.1 :: x.1, x.2)
  end.

Context (n lo : Z) (sec : bool).

(** The operations a client may issue. *)
Definition op_ok (c : CacheConfig) (k : Clocked) s (size : Z) (op : sys_op) : Prop :=
  match op with
  | Atomic now p => request_for lo sec s size p /\ tick_ok c k now
  | Functional p => request_for lo sec s size p /\ functional_packet p /\ bytesValid p = []
  | Writeback | Flush => True
  end.

(** The two are in step: the system holds the bytes [df] of the memory [f]. *)
Record in_step_with s0 (size : Z) (t : T) (f : AbstractMemory) (dm df : list Z) : Prop := {
  is_coupled : coupled lo sec None t.1 dm df;
  is_memory : mem_holds n lo dm t.2;
  is_flat : mem_holds n lo df f;
  is_writebacks : writebacks t.1 = [];
  is_size : vsize dm = size;
  is_same : cfg t.1 = cfg s0 /\ clockPeriod (clk t.1) = clockPeriod (clk s0) /\ params_same (tags (tsys s0)) (tags (tsys t.1));
}.
Context s0 (size : Z) (Hn : 0 < n) (Hmax : maxRequestors (tags (tsys s0)) <= n) (Hwa : default true writeAllocator = true).
#[local] Abbreviation stepping := (in_step_with s0 size).
#[local] Abbreviation advances op t f := (exists o t' f' dm' df', system_op op t = Ok (o, t') /\ memory_op op f = Ok (o, f') /\ stepping t' f' dm' df').

Lemma atomic_step_run tk p t f dm df : stepping t f dm df -> request_for lo sec s0 size p -> tick_ok (cfg s0) (clk s0) tk -> advances (Atomic tk p) t f.
Proof.
  destruct t as [s m]. intros [H Hm Hf Hw Hs (Ec & Ek & Ep)] R0 Ht. cbn [fst snd] in *. subst size.
  assert (request_for lo sec s (vsize dm) p) as R by (by apply (same_request lo sec s0)).
  assert (tick_ok (cfg s) (clk s) tk) as Ht' by (unfold tick_ok in *; by rewrite Ec, Ek).
  pose proof (coupled_tick lo sec s dm df tk H Ht') as H1.
  assert (request_for lo sec (at_tick tk s) (vsize dm) p) as R1 by (by destruct R).
  destruct (recv_run junk pid_of gnu getLatency n lo sec above writeAllocator (at_tick tk s) dm df p m H1 R1 Hm Hw Hn) as (lat & [s' m'] & E & dm' & H' & Hm' & Hw' & Ec' & Ek' & Ep');
    [change (maxRequestors (tags (tsys s)) <= n); by destruct Ep as (_ & -> & _)|done|]. cbn [fst snd] in H', Hm', Hw', Ec', Ek', Ep'.
  destruct (rf_range _ _ _ _ _ R) as [R2 R3]. destruct (cp_bounds _ _ _ _ _ _ H) as (_ & _ & _ & _ & Ev). pose proof (rf_id _ _ _ _ _ R) as R4.
  pose proof (rf_plain _ _ _ _ _ R) as Hp. destruct (pp_flags _ Hp) as (_ & _ & _ & F4). pose proof (pp_size _ Hp).
  destruct (access_serves gnu n lo df f p Hf Hp) as (f' & Ef & Hf'); [destruct Ep as (_ & Em & _); lia|lia|lia|].
  eexists _, (s', m'), f', dm', _. cbn [system_op memory_op fst snd]. rewrite E. cbn [obind fst snd]. split; [done|].
  unfold mem_recvAtomic. rewrite F4. cbn [negb ocheck obind]. rewrite Ef. cbn [obind fst snd]. split; [done|].
  constructor; try done; cbn [fst snd].
  - destruct (cp_bounds _ _ _ _ _ _ H') as (_ & _ & _ & _ & Ev'). rewrite <- Ev', <- Ev. unfold vsize at 1. rewrite splice_length; [done|].
    pose proof (serve_length p _ Hp (window_length df (pk_addr p - lo) (pk_size p) ltac:(lia) ltac:(lia) ltac:(lia))). unfold vsize in *. lia.
  - split; [by rewrite Ec'|]. split; [by rewrite Ek'|]. by etrans.
Qed.

Lemma functional_step_run p t f dm df : stepping t f dm df -> request_for lo sec s0 size p -> functional_packet p -> bytesValid p = [] ->
  advances (Functional p) t f.
Proof.
  destruct t as [s m]. intros [H Hm Hf Hw Hs (Ec & Ek & Ep)] R0 Hp Hv. cbn [fst snd] in *. subst size.
  assert (request_for lo sec s (vsize dm) p) as R by (by apply (same_request lo sec s0)).
  destruct (functional_run gnu n lo sec snoopF false s dm df m p H R Hm Hp Hv) as (q & [s' m'] & dm' & E & Eqc & Eqd & H' & Hm' & Ev' & Hs').
  destruct (rf_range _ _ _ _ _ R) as [R2 R3]. destruct (cp_bounds _ _ _ _ _ _ H) as (_ & _ & _ & _ & Ev).
  destruct (memory_serves gnu n lo df f p Hf (rf_plain _ _ _ _ _ R) Hp) as (q' & f' & Ef & Eqc' & Eqd' & Hf'); [lia|lia|].
  eexists _, (s', m'), f', dm', _. cbn [system_op memory_op]. unfold recvFunctional. rewrite (bind_Ok _ _ _ _ _ E), Ef. cbn [obind fst snd] in *.
  split; [done|]. split; [by rewrite Eqc, Eqd, <- Eqc', <- Eqd'|]. destruct Hs' as ((A1 & _ & _ & A4 & _ & _ & _ & A8) & _ & A9 & _).
  constructor; try done; cbn [fst snd]; [congruence|]. split; [congruence|]. split; [by rewrite A4|]. by etrans.
Qed.

Lemma writeback_step t f dm df : stepping t f dm df ->
  exists t', writeback t = Ok (tt, t') /\ stepping t' f df df /\ forall e o, entry t'.1 e = Some o -> isSet DirtyBit (ext o) = false.
Proof.
  destruct t as [s m]. intros [H Hm Hf Hw Hs (Ec & Ek & Ep)]. cbn [fst snd] in *.
  destruct (memWriteback_run gnu n lo sec s dm df m H Hm) as (s' & m' & E & H' & Hm' & ((A1 & _ & _ & A4 & _ & _ & _ & A8) & _ & A9 & _) & Hd).
  exists (s', m'). split; [done|]. split; [|done]. destruct (cp_bounds _ _ _ _ _ _ H) as (_ & _ & _ & _ & Ev).
  constructor; try done; cbn [fst snd]; [congruence|congruence|]. split; [congruence|]. split; [by rewrite A4|]. by etrans.
Qed.

Lemma flush_step t f dm df : stepping t f dm df ->
  exists t', (do* writeback ;; memInvalidate) t = Ok (tt, t') /\ stepping t' f df df /\ contents (tsys t'.1) = ∅.
Proof.
  intros H. destruct (writeback_step t f dm df H) as ([s m] & E & [H1 Hm Hf Hw Hs (Ec & Ek & Ep)] & Hd). cbn [fst snd] in *.
  destruct (memInvalidate_run lo sec s df df m H1 Hd) as (s' & E' & H' & W & C & Ck & Pm & Hc). exists (s', m).
  rewrite (bind_Ok _ _ _ _ _ E). split; [done|]. split; [|done]. constructor; try done; cbn [fst snd]; [congruence|].
  split; [congruence|]. split; [by rewrite Ck|]. by etrans.
Qed.

Lemma op_run op t f dm df : stepping t f dm df -> op_ok (cfg s0) (clk s0) s0 size op -> advances op t f.
Proof.
  intros H Ho. destruct op as [tk p|p| |]; cbn [op_ok] in Ho.
  - destruct Ho. by eapply atomic_step_run.
  - destruct Ho as (? & ? & ?). by eapply functional_step_run.
  - destruct (writeback_step t f dm df H) as (t' & E & H' & _). exists Done, t', f, df, df. cbn [system_op memory_op].
    by rewrite (bind_Ok _ _ _ _ _ E).
  - destruct (flush_step t f dm df H) as (t' & E & H' & _). exists Done, t', f, df, df. cbn [system_op memory_op].
    split; [|done]. unfold bind in E |- *. destruct (writeback t) as [[[] t1]|]; [|done]. by rewrite E.
Qed.

Lemma ops_run l t f dm df : stepping t f dm df -> Forall (op_ok (cfg s0) (clk s0) s0 size) l ->
  exists os t' f' dm' df', run_system l t = Ok (os, t') /\ run_ops l f = Ok (os, f') /\ stepping t' f' dm' df'.
Proof.
  revert t f dm df. induction l as [|op l IH]; intros t f dm df H Hl; [by exists [], t, f, dm, df|].
  apply Forall_cons in Hl as [Ho Hl]. destruct (op_run op t f dm df H Ho) as (o & t1 & f1 & dm1 & df1 & E1 & E2 & H1).
  destruct (IH t1 f1 dm1 df1 H1 Hl) as (os & t2 & f2 & dm2 & df2 & E3 & E4 & H2). exists (o :: os), t2, f2, dm2, df2.
  cbn [run_system run_ops]. rewrite E1, E2. cbn [obind fst snd]. rewrite E3, E4. done.
Qed.
End Ops.

Section Booted.
Context {P D I : Type} {RP : ReplacementPolicy P D} {RPL : ReplacementPolicyLaws P D}
  {IP : IndexingPolicy I} {IPL : IndexingLaws I} {SP : ServingPolicy P D}.
Context (junk : Z) (pid_of : Packet -> Z) (gnu : bool) (getLatency : AbstractMemory -> Z) (above : Packet -> Packet)
  (snoopF : Packet -> AbstractMemory -> outcome (Packet * AbstractMemory)) (writeAllocator : option bool) (n lo : Z) (sec : bool).

(** C3 (liveness). Whatever is written reaches the memory: a cache booted over a
    memory and used in any order of atomic requests, functional reads and
    writes, write-backs and flushes gives the responses of the memory alone;
    then [memWriteback] returns, no block is dirty any more and the memory
    below holds byte for byte what the memory alone would; and [memInvalidate],
    which asserts that nothing is dirty, returns and leaves the cache empty. *)
Theorem written_back_system_agrees c (st : tag_sys P D I) temp td cs k d m l : let s0 := boot c st temp td junk cs k in
  booted st -> isReadOnly c = false -> mostly_exclusive c = false -> clock_ok s0 -> mem_holds n lo d m ->
  lo mod blkSize (tags st) = 0 -> vsize d mod blkSize (tags st) = 0 -> 0 < n -> maxRequestors (tags st) <= n ->
  default true writeAllocator = true -> Forall (op_ok lo sec c k s0 (vsize d)) l ->
  exists os t f t' t'', run_system junk pid_of gnu getLatency above snoopF writeAllocator l (s0, m) = Ok (os, t) /\ run_ops gnu l m = Ok (os, f) /\
    writeback gnu t = Ok (tt, t') /\ pmem t'.2 = pmem f /\ isDirty t'.1 = Ok (false, t'.1) /\
    memInvalidate t' = Ok (tt, t'') /\ contents (tsys t''.1) = ∅ /\ pmem t''.2 = pmem f.
Proof.
  intros s0 Hb Hc1 Hc2 Hk Hm Hlo Hd Hn Hmax Hwa Hl. destruct (mh_bounds _ _ _ _ Hm) as (B1 & _ & B2).
  assert (in_step_with n lo sec s0 (vsize d) (s0, m) m d d) as H0 by (constructor; try done; by apply coupled_boot).
  destruct (ops_run junk pid_of gnu getLatency above snoopF writeAllocator n lo sec s0 (vsize d) Hn Hmax Hwa l (s0, m) m d d H0 Hl)
    as (os & t & f & dm & df & E1 & E2 & H). exists os, t, f.
  destruct (writeback_step gnu n lo sec s0 (vsize d) t f dm df H) as (t' & E3 & [H' Hm' Hf' _ _ _] & Hcl). exists t'.
  destruct t' as [s' m']. cbn [fst snd] in *.
  destruct (memInvalidate_run lo sec s' df df m' H' Hcl) as (s2 & E4 & _ & _ & _ & _ & _ & Hemp). exists (s2, m'). cbn [fst snd].
  split_and!; try done; [|by apply isDirty_run; [apply H'|]|]; by rewrite (mh_pmem _ _ _ _ Hm'), (mh_pmem _ _ _ _ Hf').
Qed.
End Booted.

(** The requests of [DemoSystem], with functional accesses to dirty, clean and
    uncached lines, a write-back and a flush between them. *)
Module DemoOps.
Definition ops : list sys_op :=
  map (fun x => Atomic x.1 x.2) (take 4 DemoSystem.requests) ++
  [Functional (DemoSystem.read 4096 2); Functional (DemoSystem.write 4104 [7; 7]); Functional (DemoSystem.read 4150 2); Writeback;
   Functional (DemoSystem.read 4104 4); Flush] ++ map (fun x => Atomic x.1 x.2) (drop 4 DemoSystem.requests).

Lemma ops_ok (st : tag_sys LRU LRUReplData SetAssociative) : tags st = tags DemoSystem.sys0 ->
  Forall (op_ok 4096 false DemoSystem.config (new_Clocked 500) (boot DemoSystem.config st (mkTempCacheBlk (raw_CacheBlk 0) 0 0) [] 0
    (mkCacheStats 0 0 0 ∅ ∅ 0) (new_Clocked 500)) (vsize (seqZ 0 64))) ops.
Proof.
  intros E. pose proof (DemoSystem.requests_plain st E) as Hr. unfold ops. apply Forall_app. split.
  { apply Forall_fmap, Forall_take. done. }
  apply Forall_app. split; [|apply Forall_fmap, Forall_drop; done].
  repeat (apply Forall_cons; split); [..|by apply Forall_nil_2]; cbn [op_ok]; try done;
    (split; [|vm_compute; intuition discriminate]);
    (apply (same_request _ _ (boot DemoSystem.config DemoSystem.sys0 (mkTempCacheBlk (raw_CacheBlk 0) 0 0) [] 0 (mkCacheStats 0 0 0 ∅ ∅ 0)
      (new_Clocked 500))); [done|cbn; by rewrite E|DemoSystem.plain_request]).
Qed.
End DemoOps.

Lemma written_back_system_agrees_witness : exists st os t f t', tagsInit DemoSystem.sys0 = Ok (tt, st) /\
  run_system 0 (fun _ => 0) true (fun _ => 100) (fun p => p) (fun p m => Ok (p, m)) None DemoOps.ops (boot DemoSystem.config st
    (mkTempCacheBlk (raw_CacheBlk 0) 0 0) [] 0 (mkCacheStats 0 0 0 ∅ ∅ 0) (new_Clocked 500), DemoSystem.memory) = Ok (os, t) /\
  run_ops true DemoOps.ops DemoSystem.memory = Ok (os, f) /\ writeback true t = Ok (tt, t') /\ pmem t'.2 = pmem f.
Proof.
  destruct DemoSystem.system_booted as (st & Hi & Hb & E & Ec). exists st.
  destruct (written_back_system_agrees 0 (fun _ => 0) true (fun _ => 100) (fun p => p) (fun p m => Ok (p, m)) None 2 4096 false DemoSystem.config st
    (mkTempCacheBlk (raw_CacheBlk 0) 0 0) [] (mkCacheStats 0 0 0 ∅ ∅ 0) (new_Clocked 500) (seqZ 0 64) DemoSystem.memory DemoOps.ops)
    as (os & t & f & t' & t2 & E1 & E2 & E3 & E4 & _).
  - exact Hb.
  - reflexivity.
  - reflexivity.
  - unfold clock_ok, in_step, now. cbn [boot tsys cfg clk]. rewrite Ec. by vm_compute; intuition discriminate.
  - by repeat constructor.
  - rewrite E. reflexivity.
  - rewrite E. reflexivity.
  - lia.
  - rewrite E. done.
  - reflexivity.
  - by apply DemoOps.ops_ok.
  - exists os, t, f, t'. split; [exact Hi|]. split; [exact E1|]. split; [exact E2|]. split; [exact E3|exact E4].
Defined.
