(* ===== verification/ArcClassic.v ===== *)
(** A classic cache whose replacement policy is ARC never holds a block. *)
From Stdlib Require Import ZArith Lia Bool.
From stdpp Require Import base numbers gmap list relations.
From S2P Require Import Prelude Hoare ReplBase ARC Bitfield AddrRange Indexing CacheBlk Partition Tags TagsInv TagsOps TagsInit.
From S2P Require Import Bytes MemRequest MemPacket Clocked AbstractMem Serve ClassicCache ClassicAccess AtomicSends Transparent Vacant MemorySystem.
Local Open Scope Z_scope.

(** ** New replacement data *)
Section Fresh.
Context {P D I : Type} {RP : ReplacementPolicy P D} {IP : IndexingPolicy I} (Q : D -> Prop).
Context (new_data : forall p d p', rp_instantiateEntry p = Ok (d, p') -> Q d).
#[local] Abbreviation W := (world P D CacheBlk).
#[local] Abbreviation all_data := (fun w : W => forall r rd, rds w !! r = Some rd -> Q (data rd)).

Lemma keeps_deref e : keep_all all_data (deref_entry e).
Proof. unfold deref_entry. by keep. Qed.
Lemma keeps_write e o : keep_all all_data (write_entry e o).
Proof. unfold write_entry. by keep. Qed.
Lemma keeps_deref_rd r : keeps all_data (deref_rd r) (fun rd => Q (data rd)).
Proof. intros w rd w' Hw [H ->]%deref_rd_Ok_inv. split; [done|]. by apply (Hw r). Qed.
Lemma keeps_write_rd r rd : Q (data rd) -> keep_all all_data (write_rd r rd).
Proof.
  intros HQ. unfold write_rd. apply keeps_modify. intros w Hw r' rd'. cbn. destruct (decide (r = r')) as [->|].
  - rewrite lookup_insert_eq. by intros [= <-].
  - rewrite lookup_insert_ne by done. apply Hw.
Qed.
#[local] Hint Resolve keeps_deref keeps_write : keeps.

Lemma keeps_position e set way : keep_all all_data (setPosition e set way).
Proof.
  unfold setPosition. apply keeps_seq; [by keep|intros o]. apply keeps_seq; [by keep|intros _].
  destruct (replacementData _); [|by keep]. eapply keeps_bind; [apply keeps_deref_rd|]. intros rd HQ. by apply keeps_write_rd.
Qed.

#[local] Abbreviation all_fresh := (fun st : tag_sys P D I => all_data (wld st)).

Lemma keeps_onW {A} (m : M W A) R : keeps all_data m R -> keeps all_fresh (onW m) R.
Proof.
  intros Hm st a st' Hs H. unfold onW in H. destruct (m (wld st)) as [[b w]|] eqn:E; [|done]. injection H as <- <-.
  by apply (Hm (wld st) b w).
Qed.

Lemma keeps_modify_blk e f : keep_all all_fresh (modify_blk e f).
Proof. apply keeps_onW. by keep. Qed.

Lemma keeps_link e k : keep_all all_fresh (link_entry e k).
Proof.
  intros st a st' Hs H. unfold link_entry in H. destruct (setEntry _ _ _ _) as [[u [t w]]|] eqn:E; [|done]. injection H as <- <-.
  split; [|done]. cbn [wld]. unfold setEntry in E. inv_ok E. apply lift_Ok_inv in Hrun as [_ ->]. injection Hrun0 as <- <-.
  apply lift_Ok_inv in Hrun1 as [_ ->]. apply lift_Ok_inv in Hrun2 as [Hp ->]. injection E as _ _ <-. destruct a2 as [[] w']. cbn [snd] in *.
  by apply (keeps_position e _ _ _ _ _ Hs Hp).
Qed.

Lemma keeps_instantiate : keep_all all_fresh instantiate.
Proof.
  apply keeps_onW. apply keeps_get. intros w Hw. eapply (keeps_bind _ _ _ (fun r => Q r.1)).
  { intros w0 [d p] w' H0 [H ->]%lift_Ok_inv. split; [done|]. by apply new_data in H. }
  intros [d p] Hd. cbn [fst snd] in *. apply keeps_seq; [by keep|intros _]. unfold alloc_rd. apply keeps_get. intros w1 Hw1.
  apply keeps_seq; [by apply keeps_write_rd|intros _]. by apply keeps_ret.
Qed.
#[local] Hint Resolve keeps_modify_blk keeps_link keeps_instantiate : keeps.

Lemma tagsInit_fresh st u st' : rds (wld st) = ∅ -> tagsInit st = Ok (u, st') -> all_fresh st'.
Proof.
  intros E H. assert (keep_all all_fresh tagsInit) as Hk.
  { unfold tagsInit, init_blk. keep; try done. apply keeps_onW. unfold set_replacementData. by keep. }
  refine (proj1 (Hk st u st' _ H)). intros r rd. by rewrite E, lookup_empty.
Qed.
End Fresh.

(** ** The cache over time *)
Section Arc.
Context {I B : Type} {IP : IndexingPolicy I} {IPL : IndexingLaws I}.
#[local] Abbreviation T := (cc_sys ARC ARCReplData I * B)%type.
Context (junk : Z) (mshr : Z -> bool -> option MSHRView) (pid_of : Packet -> Z) (send : Packet -> B -> outcome (Packet * Z * B)).
Context (above : Packet -> Packet) (forwardSnoops : bool) (writeAllocator : option bool).

(** Time passes, a request is served, or the event that writes back the
    temporary block is processed. *)
Inductive atomic_step : T -> T -> Prop :=
| A_tick t s b : 0 <= t <= MaxTick -> atomic_step (s, b) (at_tick t s, b)
| A_recv p r t t' : addressed p -> recvAtomic junk mshr pid_of send above forwardSnoops writeAllocator p t = Ok (r, t') -> atomic_step t t'
| A_event t t' : process_event send above forwardSnoops t = Ok (tt, t') -> atomic_step t t'.

Lemma vacant_tick t (s : cc_sys ARC ARCReplData I) : vacant (tsys s) -> vacant (tsys (at_tick t s)).
Proof.
  intros (Hi & Hv & Hr). split; [|done]. destruct Hi as [T1 T2 T3 T4 T5 T6 T7 T8 T9]. constructor; try done.
  intros e o He. by destruct (T6 e o He).
Qed.

Lemma booted_vacant (st : tag_sys ARC ARCReplData I) : booted st -> vacant st.
Proof.
  intros Hb. destruct (booted_tags st Hb) as (Hi & _). split; [done|]. split.
  - intros e o He. by destruct (booted_blk st e o Hb He) as (k & _ & _ & _ & Hv & _).
  - destruct (bt_init _ Hb) as (j & b0 & p & st0 & _ & _ & Hf & Hr).
    apply (tagsInit_fresh (fun d => rp_live d = false)) with (st := st0) (u := tt); [|apply Hf|done].
    by intros q d q' [= <- _].
Qed.

(** C6 (safety). A classic cache with ARC never caches anything: ARC chooses no
    victim among invalid blocks, and the classic cache looks for a free block
    with [getVictim].  Whatever is below, whatever requests it serves and
    whenever it serves them, the tags are as empty as when they were set up. *)
Theorem arc_classic_cache_stays_empty c st temp td cs k (b : B) t :
  (forall p b p' lat b', send p b = Ok (p', lat, b') -> addressed p') -> booted st ->
  rtc atomic_step (boot c st temp td junk cs k, b) t -> contents (tsys t.1) = ∅.
Proof.
  intros Hsend Hb Hr. apply vacant_contents. apply booted_vacant in Hb.
  remember (boot c st temp td junk cs k, b) as t0 eqn:E. assert (vacant (tsys t0.1)) as H0 by (by subst). clear E Hb.
  induction Hr as [t|t1 t2 t3 Hs _ IH]; [done|]. apply IH. destruct Hs as [x s b0|p r t1 t2 Ha H|t1 t2 H].
  - by apply vacant_tick.
  - by apply (keeps_recv junk mshr pid_of send above forwardSnoops writeAllocator Hsend p Ha t1 r t2).
  - by apply (keeps_process send above forwardSnoops Hsend t1 tt t2).
Qed.
End Arc.

(** ** A run *)

(** Requests at given ticks; the event is processed when it is scheduled. *)
Fixpoint serve_all {I B} `{IndexingPolicy I} (send : Packet -> B -> outcome (Packet * Z * B)) (l : list (Z * Packet))
    (t : cc_sys ARC ARCReplData I * B) : outcome (list Packet * (cc_sys ARC ARCReplData I * B)) :=
  match l with
  | [] => Ok ([], t)
  | (now, p) :: l' =>
      let? r := recvAtomic 0 (fun _ _ => None) (fun _ => 0) send (fun p => p) false None p (at_tick now t.1, t.2) in
      let? t1 := (if eventScheduled r.2.1 then let? e := process_event send (fun p => p) false r.2 in Ok e.2 else Ok r.2) in
      let? x := serve_all send l' t1 in Ok (r.1.1 :: x.1, x.2)
  end.

Lemma serve_all_steps {I B} `{IndexingLaws I} (send : Packet -> B -> outcome (Packet * Z * B)) l t rs t' :
  Forall (fun x => 0 <= x.1 <= MaxTick /\ addressed x.2) l -> serve_all send l t = Ok (rs, t') ->
  rtc (atomic_step 0 (fun _ _ => None) (fun _ => 0) send (fun p => p) false None) t t'.
Proof.
  revert t rs. induction l as [|[now p] l IH]; intros [s b] rs Hl Hr; [by injection Hr as _ ->|].
  apply Forall_cons in Hl as [[Ht Hp] Hl]. cbn [serve_all fst snd] in *. inv_ok Hr. destruct a as [[q lat] t1], a1 as [rs1 t2]. injection Hr as _ <-.
  cbn [fst snd] in *. eapply rtc_l; [by apply (A_tick _ _ _ _ _ _ _ now)|]. eapply rtc_l; [by eapply A_recv|].
  destruct (eventScheduled _).
  - inv_ok Hrun0. injection Hrun0 as <-. destruct a as [[] t3]. eapply rtc_l; [by eapply A_event|]. by apply (IH _ rs1).
  - injection Hrun0 as <-. by apply (IH _ rs1).
Qed.

(** The system of [DemoSystem] with ARC. *)
Module DemoArc.
Definition sys0 : tag_sys ARC ARCReplData SetAssociative :=
  mkTagSys DemoSystem.tags0 (replicate 2 (replicate 2 None)) (mkWorld new_ARC (raw_blks 4 DemoSystem.blk0) ∅ 0).
Definition send (p : Packet) (m : AbstractMemory) : outcome (Packet * Z * AbstractMemory) :=
  let? r := mem_send true (fun _ => 100) p m in
  let? _ := ocheck ((0 <=? pk_addr r.1.1) && (pk_addr r.1.1 <? 2 ^ 64)) AssertFailed in Ok r.
Definition temp0 : TempCacheBlk := match new_TempCacheBlk 0 0 with Ok b => b | Fault _ => mkTempCacheBlk (raw_CacheBlk 0) 0 0 end.
Definition boot0 (st : tag_sys ARC ARCReplData SetAssociative) : cc_sys ARC ARCReplData SetAssociative * AbstractMemory :=
  (boot DemoSystem.config st temp0 (replicate 4 0) 0 (mkCacheStats 0 0 0 ∅ ∅ 0) (new_Clocked 500),
   DemoSystem.memory).
(** What the requests are answered with. *)
Definition run : outcome (list (list Z)) :=
  let? x := tagsInit sys0 in let? r := serve_all send DemoSystem.requests (boot0 x.2) in Ok (map pk_data r.1).

Lemma run_answers : run = Ok [[201; 202]; [202; 2]; [1; 2; 3; 4]; [18; 19]; [24; 25; 26; 27]; [201; 202; 2; 3]; [16; 17; 9; 9]; [1; 2; 3; 4]].
Proof. vm_compute. reflexivity. Qed.

Lemma arc_fresh : fresh_tags DemoSystem.blk0 sys0.
Proof.
  constructor; try done.
  - split; [exists 1; by split_and!|done].
  - split; [done|]. repeat constructor.
Qed.

Lemma arc_booted st : tagsInit sys0 = Ok (tt, st) -> booted st.
Proof.
  intros E. apply (booted_intro 0 DemoSystem.blk0 DemoSystem.cache_params sys0 st);
    [vm_compute; reflexivity|exact (proj2 DemoSystem.system_made)|apply arc_fresh|exact E| |exists 2| |]; vm_compute; intuition discriminate.
Qed.

Lemma send_addressed p b p' lat b' : send p b = Ok (p', lat, b') -> addressed p'.
Proof.
  unfold send. intros H. inv_ok H. unfold ocheck in Hrun0. destruct (_ && _) eqn:E; [|done]. destruct a as [[q l] m]. injection H as <- _ _.
  cbn [fst] in E. unfold addressed. lia.
Qed.

Lemma requests_addressed : Forall (fun x : Z * Packet => 0 <= x.1 <= MaxTick /\ addressed x.2) DemoSystem.requests.
Proof. unfold DemoSystem.requests. repeat (apply Forall_cons; split; [vm_compute; intuition discriminate|]). by apply Forall_nil_2. Qed.
End DemoArc.

Lemma arc_classic_cache_stays_empty_witness : exists st rs t, tagsInit DemoArc.sys0 = Ok (tt, st) /\
  serve_all DemoArc.send DemoSystem.requests (DemoArc.boot0 st) = Ok (rs, t) /\ map pk_data rs !! 5%nat = Some [201; 202; 2; 3] /\
  contents (tsys t.1) = ∅.
Proof.
  pose proof DemoArc.run_answers as H. unfold DemoArc.run in H.
  destruct (tagsInit DemoArc.sys0) as [[[] st]|] eqn:E; [|discriminate H]. cbn [obind snd] in H.
  destruct (serve_all _ _ _) as [[rs t]|] eqn:Er; [|discriminate H]. injection H as Ha.
  exists st, rs, t. split; [reflexivity|]. split; [exact Er|]. split; [cbn [fst] in Ha; rewrite Ha; reflexivity|].
  apply (arc_classic_cache_stays_empty 0 (fun _ _ => None) (fun _ => 0) DemoArc.send (fun p => p) false None
    DemoSystem.config st DemoArc.temp0 (replicate 4 0) (mkCacheStats 0 0 0 ∅ ∅ 0) (new_Clocked 500) DemoSystem.memory t).
  - exact DemoArc.send_addressed.
  - exact (DemoArc.arc_booted st E).
  - exact (serve_all_steps DemoArc.send _ _ _ _ DemoArc.requests_addressed Er).
Defined.
